(* ===== verification/_CoqProject ===== *)
-Q . S2P
Prelude.v
SlotTable.v
RingQueue.v
Pmm.v
Vmm.v
Sched.v
Sync.v
Softirq.v
Timer.v
Workqueue.v
Napi.v
NameBuf.v
Kthread.v
Vfs.v
Drivers.v
Packet.v
Udp.v
Tcp.v
Proc.v
Elf.v
SyscallTable.v
Ports.v
Net.v
Fds.v
Pipes.v
Files.v
Lifetimes.v
Modules.v
Sockets.v
SocketState.v
SocketCalls.v
Descriptors.v
ProcPath.v
Kernel.v
Render.v
Procfs.v
Memmap.v
Dispatch.v
Syscalls.v
FileCalls.v
Heap.v
Cstring.v
Cformat.v
Stdio.v
Streams.v
Posix.v
Console.v
Shell.v
ShellTables.v
ShellRuns.v
NetTools.v
RustPmm.v
RustVmm.v
RustSched.v
RustVfs.v
RustNet.v
