(* ===== verification/Prelude.v ===== *)
(** * Verification of QOS: the C kernel, its C library and its shell, and parts of the Rust kernel

    QOS is a small operating system.  Its kernel (src/c-os/kernel) is a set of
    components with fixed tables in static memory, reached through one system-call
    dispatcher; its C library (src/c-os/libc) turns library calls into system calls;
    its programs (src/c-os/userspace) are a shell, ping and wget.  The development
    models all C code of these three directories and proves what each part promises,
    then composes the parts: the dispatcher over all kernel components, the library
    over the dispatcher, the shell over the dispatcher.  Parts of the second kernel, in
    Rust (src/rust-os), are modelled too and shown to agree with the C kernel.

    ** Conventions

    Integers of the C code are [Z]; an operation performed at width w is followed by
    [wrap w] (u8, u16, u32, u64) or [sext w] (i32, i64).  Indices of tables are [nat].
    The globals of a component are one record; an operation takes and returns it,
    with the C result first.  A pointer that may be NULL is an [option]; a read or write
    outside an object, where the code can make one, is [None] of the whole operation.
    Loops that the code bounds by data are fixpoints on that data or take fuel; the
    theorems show the fuel given by the callers to be enough, so no result is missing
    for lack of it.  Callbacks (softirq handlers, timers, work items, threads) are code
    addresses run by an interpreter that is a parameter, on the whole kernel state
    through a lens.  The memory of the caller of a system call is a function from
    addresses to bytes apart from these records: the code checks pointers for NULL only,
    and a caller that passes the address of kernel data is outside of the model.

    ** The library: shared files

    Prelude (this file: machine integers, bit masks, scans of tables, byte strings,
    lenses, tactics), SlotTable (arrays of slots looked up by key, as finite maps),
    RingQueue (ring buffers as lists), NameBuf (decimal names), Render (text into a
    bounded buffer).

    ** The kernel

    - Pmm, Vmm: the frame table and the address spaces (mm/mm.c, boot/boot_info.h).
      The allocator hands out each usable frame once and refines a map of pages; the
      mappings refine a finite map per address space.
    - Sched (sched/sched.c): four priority queues refine lists of tasks, each with the
      task whose turn it is.
    - Sync (sync/sync.c): spinlock under every interleaving, mutex, semaphore.
    - Softirq, Timer, Workqueue, Napi, Kthread (irq, timer, workqueue, net/napi.c,
      kthread): deferred work, its order and its termination.
    - Vfs, Drivers (fs/vfs.c, drivers/drivers.c): path nodes and drivers by name.
    - Packet, Udp, Tcp, Net (net/net.c): packet ring, ARP, routing, ICMP, datagrams,
      connections, and their state together.
    - Proc (proc/proc.c): processes and signals refine a map of process records; fork,
      exit, wait and signal delivery end to end.
    - Elf, SyscallTable, Ports, Fds, Pipes, Files, Lifetimes, Modules, Sockets,
      SocketState, SocketCalls, Descriptors, ProcPath, Procfs, Memmap: the parts of
      syscall/syscall.c.  Descriptors shows that after any sequence of descriptor calls
      the files, pipes, reserved ports, UDP bindings and TCP listeners in use are exactly
      those a name or some descriptor refers to (the slots of TCP connections are not
      among them: the code never releases one).
    - Kernel (kernel.c, init_state.c): all globals together, start and status.
    - Dispatch, Syscalls, FileCalls: qos_syscall_dispatch with its 45 operations; no
      sequence of calls corrupts the kernel, a failing call of 29 of them changes
      nothing, and a file gives back what was written to it.

    ** The C library (libc/libc.c)

    Heap (malloc, free, realloc refine an allocator of disjoint blocks), Cstring (the
    mem and str routines on one memory, with overlap), Cformat (vsnprintf, atoi, addresses,
    byte order), Stdio and Streams (FILE streams over the kernel's files), Posix (process,
    signal, module and socket calls), Console (printf and friends).  The host behind an
    unlinked kernel is a parameter.

    ** The programs (userspace)

    Shell (shell.c: tables, tokenizer, commands, redirection, pipe, sessions),
    ShellTables (the tables refine maps, the tokenizer undoes quoting), ShellRuns (every
    line is answered with the shell and the kernel intact; echo and cat round trip),
    NetTools (ping.c and wget.c print what the commands of the shell print).

    ** The Rust kernel (src/rust-os/kernel/src/lib.rs)

    A second implementation of the kernel.  Five of its components are modelled from their
    own source and compared with the C model; arithmetic that overflows and indices out of
    bounds panic, which is [None], and the theorems show that no panic happens.  Each call
    holds the lock of its component, so it is one step.
    - RustPmm: the page allocators behave alike; the Rust one leaves the frames of the boot
      structure free.
    - RustVmm: one table for all address spaces; the spaces are the same as in C until
      more mappings are made than the table holds.
    - RustSched: one round-robin queue.  No task in it starves, whatever tasks come and go
      (within 4096 calls, since a removal before the position may skip a turn, and within 64
      when nothing is removed); without removals it agrees with the C scheduler.
    - RustVfs: the path table refines the same set of paths as the C one.
    - RustNet: packets, ARP, routing, echo, UDP and TCP leave the same state and give the
      same answers as in C, but for datagrams to ports nobody has bound.

    ** Not modelled

    The directories for boot code and processor support under src/c-os hold no source but
    boot_info.h (in Pmm).
    Of the Rust kernel: drivers, processes, system calls and descriptors, soft interrupts,
    timers, threads, NAPI and work queues, which follow the design of the C components
    modelled here and reach the memory of the caller through raw pointers; the Rust library
    and shell on top of them; and the loader (src/rust-os/boot).
    src/linux-1.0.0, src/xv6 and src/linux-lab are other systems and
    teaching material vendored in the repository, which QOS neither links nor calls.
    src/tools, src/scripts, src/qemu, src/patches and src/tests build, boot and test.
    Inside the modelled code: the trace output under QOS_MM_DEBUG, and the contents of
    uninitialised stack memory, which is an argument where the code can read it. *)

From Stdlib Require Export ZArith Lia Ascii.
From stdpp Require Export base numbers list gmap strings.

Declare Scope qos_scope.
Delimit Scope qos_scope with qos.
#[global] Open Scope Z_scope.
#[global] Open Scope qos_scope.

(** ** Machine integers

    A C unsigned integer of width [w] is a [Z] in [0 .. 2^w); every
    arithmetic operation that the source performs at a width is followed by
    the reduction at that width. *)

Definition wrap (w : Z) (x : Z) : Z := x mod 2 ^ w.
Abbreviation u8 := (wrap 8).
Abbreviation u16 := (wrap 16).
Abbreviation u32 := (wrap 32).
Abbreviation u64 := (wrap 64).

(** Two's-complement reading of the low [w] bits, for casts to [int32_t]. *)
Definition sext (w : Z) (x : Z) : Z :=
  let y := x mod 2 ^ w in if y <? 2 ^ (w - 1) then y else y - 2 ^ w.
Abbreviation i16 := (sext 16).
Abbreviation i32 := (sext 32).
Abbreviation i64 := (sext 64).

(** Bitwise complement [~x] at a width. *)
Definition bnot (w : Z) (x : Z) : Z := Z.lxor x (Z.ones w).

Definition in_width (w x : Z) : Prop := 0 <= x < 2 ^ w.

#[export] Instance in_width_dec w x : Decision (in_width w x).
Proof. unfold in_width. apply _. Defined.

Create HintDb qos.

Lemma wrap_small w x : in_width w x → wrap w x = x.
Proof. intros ?. by apply Z.mod_small. Qed.

Lemma wrap_range w x : 0 <= w → in_width w (wrap w x).
Proof. intros ?. apply Z.mod_pos_bound. lia. Qed.

Lemma wrap_id w x : 0 <= w → wrap w (wrap w x) = wrap w x.
Proof. intros. by apply wrap_small, wrap_range. Qed.

Lemma sext_small w x : 0 < w → 0 <= x < 2 ^ (w - 1) → sext w x = x.
Proof.
  intros Hw Hx. unfold sext.
  assert (2 ^ w = 2 * 2 ^ (w - 1)) as Hp.
  { rewrite <- Z.pow_succ_r by lia. f_equal. lia. }
  rewrite Z.mod_small by lia. destruct (Z.ltb_spec x (2 ^ (w - 1))); lia.
Qed.

Lemma sext_range w x : 0 < w → - 2 ^ (w - 1) <= sext w x < 2 ^ (w - 1).
Proof.
  intros Hw. assert (2 ^ w = 2 * 2 ^ (w - 1)) as Hp.
  { rewrite <- Z.pow_succ_r by lia. f_equal. lia. }
  unfold sext. pose proof (Z.mod_pos_bound x (2 ^ w)). destruct (Z.ltb_spec (x mod 2 ^ w) (2 ^ (w - 1))); lia.
Qed.

(** Casting to the signed type and back. *)
Lemma wrap_sext w x : 0 < w → wrap w (sext w x) = wrap w x.
Proof.
  intros Hw. unfold wrap, sext. destruct (_ <? _).
  - apply Z.mod_mod. lia.
  - rewrite <- Zminus_mod_idemp_r, Z.mod_same, Z.sub_0_r by lia. apply Z.mod_mod. lia.
Qed.

(** Casting to the unsigned type and back. *)
Lemma sext_wrap w x : 0 < w → - 2 ^ (w - 1) <= x < 2 ^ (w - 1) → sext w (wrap w x) = x.
Proof.
  intros Hw Hx. assert (2 ^ w = 2 * 2 ^ (w - 1)) as Hp.
  { rewrite <- Z.pow_succ_r by lia. f_equal. lia. }
  unfold wrap, sext. rewrite Z.mod_mod by lia. destruct (Z.le_gt_cases 0 x).
  - rewrite Z.mod_small by lia. destruct (Z.ltb_spec x (2 ^ (w - 1))); lia.
  - rewrite <- (Z.mod_unique_pos x (2 ^ w) (-1) (x + 2 ^ w)) by lia.
    destruct (Z.ltb_spec (x + 2 ^ w) (2 ^ (w - 1))); lia.
Qed.

Lemma testbit_high w x n : 0 <= w → in_width w x → w <= n → Z.testbit x n = false.
Proof.
  intros Hw [Hx0 Hx] Hn. rewrite <- (Z.mod_small x (2 ^ w)) by lia.
  by apply Z.mod_pow2_bits_high.
Qed.

Lemma bnot_testbit w x n :
  0 <= w → 0 <= n → Z.testbit (bnot w x) n = xorb (Z.testbit x n) (bool_decide (n < w)).
Proof.
  intros Hw Hn. unfold bnot. rewrite Z.lxor_spec. f_equal.
  case_bool_decide; [apply Z.ones_spec_low; lia | apply Z.ones_spec_high; lia].
Qed.

(** A value all of whose bits at or above [w] are clear fits in [w] bits. *)
Lemma in_width_bits w x :
  0 <= w → 0 <= x → (∀ n, w <= n → Z.testbit x n = false) → in_width w x.
Proof.
  intros Hw Hx Hb. split; [done|].
  destruct (Z.eq_dec x 0) as [->|]; [apply Z.pow_pos_nonneg; lia|].
  apply Z.log2_lt_pow2; [lia|].
  destruct (Z.lt_ge_cases (Z.log2 x) w) as [|Hge]; [done|].
  specialize (Hb _ Hge). rewrite Z.bit_log2 in Hb by lia. done.
Qed.

Lemma land_in_width w x y : 0 <= w → in_width w x → 0 <= y → in_width w (Z.land x y).
Proof.
  intros Hw Hx Hy. apply in_width_bits; [done| |].
  - apply Z.land_nonneg. left. apply Hx.
  - intros n Hn. rewrite Z.land_spec, (testbit_high w x n) by done. done.
Qed.

Lemma lor_in_width w x y : 0 <= w → in_width w x → in_width w y → in_width w (Z.lor x y).
Proof.
  intros Hw Hx Hy. apply in_width_bits; [done| |].
  - apply Z.lor_nonneg. split; [apply Hx|apply Hy].
  - intros n Hn. by rewrite Z.lor_spec, !(testbit_high w) by done.
Qed.

Lemma lxor_in_width w x y : 0 <= w → in_width w x → in_width w y → in_width w (Z.lxor x y).
Proof.
  intros Hw Hx Hy. apply in_width_bits; [done| |].
  - apply Z.lxor_nonneg. destruct Hx, Hy. lia.
  - intros n Hn. by rewrite Z.lxor_spec, !(testbit_high w) by done.
Qed.

(** Or-ing a field in above [n] low bits is addition. *)
Lemma lor_low n b r : 0 <= n → in_width n b → Z.lor b (Z.shiftl r n) = b + 2 ^ n * r.
Proof.
  intros Hn Hb. rewrite Z.mul_comm, <- Z.shiftl_mul_pow2 by done.
  assert (Z.land b (Z.shiftl r n) = 0) as Hl.
  { apply Z.bits_inj'. intros k Hk. rewrite Z.land_spec, Z.bits_0. destruct (Z.ltb_spec k n).
    - rewrite Z.shiftl_spec_low by done. apply andb_false_r.
    - by rewrite (testbit_high n b k). }
  rewrite <- Z.lxor_lor by done. symmetry. by apply Z.add_nocarry_lxor.
Qed.

Lemma bnot_in_width w x : 0 <= w → in_width w x → in_width w (bnot w x).
Proof.
  intros Hw Hx. apply in_width_bits; [done| |].
  - unfold bnot. apply Z.lxor_nonneg. destruct Hx. split; [|lia].
    intros _. rewrite Z.ones_equiv. lia.
  - intros n Hn. unfold bnot. rewrite Z.lxor_spec, (testbit_high w x n) by done.
    apply Z.ones_spec_high. lia.
Qed.

(** The single-bit mask [1u << n]. *)
Definition bit (n : Z) : Z := Z.shiftl 1 n.

Lemma bit_testbit n m : 0 <= n → 0 <= m → Z.testbit (bit n) m = bool_decide (m = n).
Proof.
  intros. unfold bit. rewrite Z.shiftl_1_l, Z.pow2_bits_eqb by done.
  rewrite Z.eqb_sym. destruct (Z.eqb_spec m n); [by rewrite bool_decide_true|by rewrite bool_decide_false].
Qed.

Lemma bit_in_width w n : 0 <= n < w → in_width w (bit n).
Proof.
  intros. unfold bit. rewrite Z.shiftl_1_l. split.
  - apply Z.pow_nonneg. lia.
  - apply Z.pow_lt_mono_r; lia.
Qed.

(** [(x & (1u << n)) != 0] tests bit [n]. *)
Lemma land_bit_nonzero x n : 0 <= n → (Z.land x (bit n) =? 0) = negb (Z.testbit x n).
Proof.
  intros Hn. destruct (Z.testbit x n) eqn:E; simpl.
  - apply Z.eqb_neq. intros H. apply (f_equal (λ z, Z.testbit z n)) in H.
    rewrite Z.land_spec, E, bit_testbit, bool_decide_true, Z.bits_0 in H by done. done.
  - apply Z.eqb_eq, Z.bits_inj'. intros m Hm.
    rewrite Z.land_spec, bit_testbit, Z.bits_0 by done.
    case_bool_decide; subst; [by rewrite E|apply andb_false_r].
Qed.

(** [x & ~(2^n - 1)] drops the low [n] bits. *)
Lemma land_bnot_ones w n x : 0 <= n <= w → in_width w x → Z.land x (bnot w (Z.ones n)) = 2 ^ n * (x / 2 ^ n).
Proof.
  intros Hn Hx. rewrite Z.mul_comm, <- Z.shiftr_div_pow2, <- Z.shiftl_mul_pow2 by lia.
  apply Z.bits_inj'. intros m Hm. rewrite Z.land_spec, bnot_testbit, Z.shiftl_spec, Z.testbit_ones by lia.
  destruct (Z.leb_spec n m).
  - rewrite Z.shiftr_spec by lia. replace (m - n + n) with m by lia.
    rewrite (proj2 (Z.ltb_ge _ _)), andb_false_r by lia. cbn [xorb].
    case_bool_decide; [by rewrite andb_true_r|]. rewrite (testbit_high w x m); [done|lia|done|lia].
  - rewrite (Z.testbit_neg_r _ (m - n)), (proj2 (Z.leb_le _ _)), (proj2 (Z.ltb_lt _ _)), bool_decide_true by lia.
    apply andb_false_r.
Qed.

#[export] Hint Resolve land_in_width lor_in_width bnot_in_width bit_in_width wrap_range : qos.

(** ** Arrays and scans

    A C array is a list of fixed length, read with [!!] and written with
    [<[i:=x]>].  The scan
    [while (i < N) { if (p(a[i])) return i; i++; } return -1;]
    is [first_index]; the counting loop is [count_if]. *)

Fixpoint first_index {A} (p : A → bool) (l : list A) : option nat :=
  match l with
  | [] => None
  | a :: l' => if p a then Some 0%nat else S <$> first_index p l'
  end.

Fixpoint count_if {A} (p : A → bool) (l : list A) : nat :=
  match l with
  | [] => 0
  | a :: l' => (if p a then 1 else 0) + count_if p l'
  end%nat.

Section scans.
Context {A : Type} (p : A → bool).
Implicit Types (l : list A) (a b : A) (i j : nat).

Lemma first_index_Some l i :
  first_index p l = Some i ↔
  ∃ a, l !! i = Some a ∧ p a = true ∧ ∀ j b, (j < i)%nat → l !! j = Some b → p b = false.
Proof.
  revert i. induction l as [|x l IH]; intros i; simpl.
  { split; [done|]. intros (a & ? & _). by rewrite lookup_nil in *. }
  destruct (p x) eqn:Hx.
  - split.
    + intros [= <-]. exists x. split_and!; [done..|]. lia.
    + intros (a & Ha & Hp & Hmin). destruct i as [|i]; [done|].
      specialize (Hmin 0%nat x ltac:(lia) eq_refl). congruence.
  - rewrite fmap_Some. split.
    + intros (i' & (a & Ha & Hp & Hmin)%IH & ->). exists a. split_and!; [done..|].
      intros [|j] b Hj Hb; [by simplify_eq/=|]. apply (Hmin j b); [lia|done].
    + intros (a & Ha & Hp & Hmin). destruct i as [|i]; [simplify_eq/=; congruence|].
      exists i. split; [|done]. apply IH. exists a. split_and!; [done..|].
      intros j b Hj Hb. apply (Hmin (S j) b); [lia|done].
Qed.

Lemma first_index_None l :
  first_index p l = None ↔ ∀ i a, l !! i = Some a → p a = false.
Proof.
  split.
  - induction l as [|x l IH]; simpl; intros H i a Ha; [by rewrite lookup_nil in Ha|].
    destruct (p x) eqn:Hx; [done|]. apply fmap_None in H.
    destruct i; simplify_eq/=; eauto.
  - intros H. destruct (first_index p l) as [i|] eqn:E; [|done].
    apply first_index_Some in E as (a & Ha & Hp & _). rewrite (H _ _ Ha) in Hp. done.
Qed.

Lemma first_index_lookup l i :
  first_index p l = Some i → ∃ a, l !! i = Some a ∧ p a = true.
Proof. intros (a & ? & ? & _)%first_index_Some. eauto. Qed.

Lemma first_index_lt l i : first_index p l = Some i → (i < length l)%nat.
Proof. intros (a & ? & _)%first_index_lookup. by eapply lookup_lt_Some. Qed.

Lemma count_if_le l : (count_if p l <= length l)%nat.
Proof. induction l; simpl; [lia|]. case_match; lia. Qed.

Lemma count_if_insert l i a b :
  l !! i = Some a →
  (count_if p (<[i:=b]> l) + (if p a then 1 else 0)
   = count_if p l + (if p b then 1 else 0))%nat.
Proof.
  revert i. induction l as [|x l IH]; intros i H; [by rewrite lookup_nil in H|].
  destruct i as [|i]; simplify_eq/=; [|specialize (IH _ H)]; repeat case_match; lia.
Qed.

Lemma count_if_app l1 l2 : count_if p (l1 ++ l2) = (count_if p l1 + count_if p l2)%nat.
Proof. induction l1; simpl; [done|]. rewrite IHl1. lia. Qed.

Lemma count_if_replicate n a : p a = false → count_if p (replicate n a) = 0%nat.
Proof. intros H. induction n; simpl; [done|]. by rewrite H. Qed.

Lemma count_if_full l : count_if p l = length l ↔ ∀ i a, l !! i = Some a → p a = true.
Proof.
  split.
  - induction l as [|x l IH]; simpl; intros H i a Ha; [by rewrite lookup_nil in Ha|].
    pose proof (count_if_le l). destruct (p x) eqn:Hx; [|lia].
    destruct i; simplify_eq/=; [done|]. apply (IH ltac:(lia) i a Ha).
  - induction l as [|x l IH]; simpl; intros H; [done|].
    rewrite (H 0%nat x) by done. f_equal. apply IH. intros i a Ha. by apply (H (S i)).
Qed.

Lemma count_if_pos l i a : l !! i = Some a → p a = true → (0 < count_if p l)%nat.
Proof.
  revert i. induction l as [|x l IH]; intros i H Hp; [by rewrite lookup_nil in H|].
  destruct i; simplify_eq/=; [rewrite Hp; lia|]. specialize (IH _ H Hp). lia.
Qed.
End scans.

Lemma first_index_ext {A} (p q : A → bool) l :
  (∀ a, a ∈ l → p a = q a) → first_index p l = first_index q l.
Proof.
  induction l as [|x l IH]; simpl; intros H; [done|].
  rewrite (H x) by set_solver. rewrite IH by set_solver. done.
Qed.

Lemma filter_ext_in {A} (P Q : A → Prop) `{∀ a, Decision (P a)} `{∀ a, Decision (Q a)} (l : list A) :
  (∀ a, a ∈ l → P a ↔ Q a) → filter P l = filter Q l.
Proof.
  induction l as [|x l IH]; intros Hpq; [done|]. assert (P x ↔ Q x) as Hx by (apply Hpq; left).
  rewrite !filter_cons, IH by (intros; apply Hpq; by right). repeat case_decide; tauto.
Qed.

(** ** Closing a gap in an array

    [while (i + 1 < count) { q[i] = q[i + 1]; i++; }] with [n = count - 1 - i]. *)

Fixpoint shift_left {A} (n i : nat) (q : list A) : list A :=
  match n with
  | O => q
  | S n' => shift_left n' (S i) (match q !! S i with Some x => <[i := x]> q | None => q end)
  end.

Lemma shift_left_length {A} n i (q : list A) : length (shift_left n i q) = length q.
Proof.
  revert i q. induction n as [|n IH]; intros i q; cbn [shift_left]; [done|]. rewrite IH.
  destruct (q !! S i); [apply length_insert|done].
Qed.

Lemma shift_left_lookup {A} n i (q : list A) k :
  (i + n < length q)%nat →
  shift_left n i q !! k = if decide (i <= k < i + n)%nat then q !! S k else q !! k.
Proof.
  revert i q. induction n as [|n IH]; intros i q Hlt; cbn [shift_left].
  { by rewrite decide_False by lia. }
  destruct (lookup_lt_is_Some_2 q (S i)) as [x Hx]; [lia|]. rewrite Hx.
  rewrite IH by (rewrite length_insert; lia).
  destruct (decide (k = i)) as [->|Hk].
  - rewrite (decide_False (P := (S i <= i < _)%nat)), (decide_True (P := (i <= i < _)%nat)) by lia.
    by rewrite list_lookup_insert_eq by lia.
  - repeat case_decide; try lia; by rewrite list_lookup_insert_ne by lia.
Qed.

(** On the live prefix the loop deletes one element. *)
Lemma shift_left_delete {A} (q : list A) count i :
  (i < count)%nat → (count <= length q)%nat →
  take (count - 1) (shift_left (count - 1 - i) i q) = delete i (take count q).
Proof.
  intros Hi Hc. apply list_eq. intros k. rewrite lookup_take.
  destruct (decide (k < i)%nat) as [Hk|Hk].
  - rewrite list_lookup_delete_lt, lookup_take by done.
    rewrite !decide_True by lia. by rewrite shift_left_lookup, decide_False by lia.
  - rewrite list_lookup_delete_ge, lookup_take by lia.
    case_decide; [|by rewrite decide_False by lia].
    by rewrite shift_left_lookup, !decide_True by lia.
Qed.

(** ** C strings *)

(** The bytes before the terminating NUL. *)
Definition bytes_of (s : string) : list Z := (λ c, Z.of_N (N_of_ascii c)) <$> String.list_ascii_of_string s.

(** A string with the given bytes. *)
Definition chars (l : list Z) : string := String.string_of_list_ascii ((λ z, ascii_of_N (Z.to_N z)) <$> l).

Lemma bytes_of_chars l : Forall (in_width 8) l → bytes_of (chars l) = l.
Proof.
  intros Hl. unfold bytes_of, chars. rewrite String.list_ascii_of_string_of_list_ascii, <- list_fmap_compose.
  induction Hl as [|z l [Hz Hz'] _ IH]; [done|]. rewrite fmap_cons, IH. f_equal. unfold compose.
  rewrite N_ascii_embedding by (change 256%N with (Z.to_N 256); lia). lia.
Qed.

Lemma bytes_of_range s : Forall (in_width 8) (bytes_of s).
Proof.
  apply Forall_fmap, Forall_forall. intros c _. unfold compose, in_width. pose proof (N_ascii_bounded c). change (2 ^ 8) with 256. lia.
Qed.

Lemma bytes_of_app s t : bytes_of (s ++ t) = bytes_of s ++ bytes_of t.
Proof.
  induction s as [|c s IH]; [done|]. change (String c s +:+ t) with (String c (s +:+ t)).
  unfold bytes_of in *. cbn. by rewrite IH.
Qed.

(** The C string at the start of a buffer. *)
Fixpoint c_string (l : list Z) : list Z :=
  match l with [] => [] | c :: l' => if c =? 0 then [] else c :: c_string l' end.

Lemma c_string_app l rest : 0 ∉ l → c_string (l ++ 0 :: rest) = l.
Proof.
  induction l as [|c l IH]; intros H; [done|]. apply not_elem_of_cons in H as [Hc H].
  cbn. rewrite (proj2 (Z.eqb_neq c 0)) by congruence. by rewrite IH.
Qed.

(** ** Parts of the kernel state

    Code that calls back through function pointers runs on the whole kernel
    state; a component reaches its own globals through a lens. *)

Class Lens (W S : Type) := {
  view : W → S;
  upd : S → W → W;
  view_upd s w : view (upd s w) = s;
  upd_view w : upd (view w) w = w;
  upd_upd s t w : upd s (upd t w) = upd s w
}.
#[export] Hint Mode Lens ! - : typeclass_instances.

(** Two components that share no globals. *)
Class DisjointLens (W S T : Type) `{Lens W S} `{Lens W T} :=
  upd_comm (s : S) (t : T) (w : W) : upd s (upd t w) = upd t (upd s w).

Lemma view_other {W S T} `{DisjointLens W S T} (t : T) (w : W) : view (S := S) (upd t w) = view w.
Proof. rewrite <- (upd_view (S := S) w) at 1. rewrite <- upd_comm. apply view_upd. Qed.

Lemma view_other' {W S T} `{DisjointLens W S T} (s : S) (w : W) : view (S := T) (upd s w) = view w.
Proof. rewrite <- (upd_view (S := T) w) at 1. rewrite upd_comm. apply view_upd. Qed.

Definition fst_lens {A B} : Lens (A * B) A.
Proof. by refine {| view := fst; upd a w := (a, w.2) |}; intros; repeat match goal with w : _ * _ |- _ => destruct w end. Defined.

Definition snd_lens {A B} : Lens (A * B) B.
Proof. by refine {| view := snd; upd b w := (w.1, b) |}; intros; repeat match goal with w : _ * _ |- _ => destruct w end. Defined.

(** Code that neither reads nor writes a component commutes with its updates. *)
Definition frames {W S} `{Lens W S} (f : W → W) : Prop := ∀ s w, f (upd s w) = upd s (f w).

Lemma frames_view {W S} `{Lens W S} (f : W → W) w : frames (S := S) f → view (S := S) (f w) = view w.
Proof. intros Hf. rewrite <- (upd_view (S := S) w) at 1. rewrite Hf. apply view_upd. Qed.

(** Calls through function pointers, in order. *)
Definition run_calls {W} (call : Z → Z → W → W) (cs : list (Z * Z)) (w : W) : W :=
  foldl (λ w '(fn, ctx), call fn ctx w) w cs.

Lemma run_calls_frames {W S} `{Lens W S} (call : Z → Z → W → W) cs :
  (∀ fn ctx, frames (S := S) (call fn ctx)) → frames (S := S) (run_calls call cs).
Proof.
  intros Hf. induction cs as [|[fn ctx] cs IH]; intros s w; [done|]. unfold run_calls in *. simpl.
  by rewrite Hf, IH.
Qed.

Lemma run_calls_app {W} (call : Z → Z → W → W) cs1 cs2 w :
  run_calls call (cs1 ++ cs2) w = run_calls call cs2 (run_calls call cs1 w).
Proof. apply foldl_app. Qed.

(** ** Tactics *)

(** Splits every [if] and [match] of the goal and hypotheses, cleaning up. *)
Ltac split_ifs :=
  repeat first
    [ progress simplify_eq/=
    | case_match
    | case_bool_decide ].

(** Turns boolean comparisons in the context into propositions. *)
Ltac b2p :=
  repeat match goal with
  | H : (_ && _)%bool = true |- _ => apply andb_true_iff in H as [? ?]
  | H : (_ || _)%bool = false |- _ => apply orb_false_iff in H as [? ?]
  | H : negb _ = true |- _ => apply negb_true_iff in H
  | H : negb _ = false |- _ => apply negb_false_iff in H
  | H : (_ =? _) = true |- _ => apply Z.eqb_eq in H
  | H : (_ =? _) = false |- _ => apply Z.eqb_neq in H
  | H : (_ <? _) = true |- _ => apply Z.ltb_lt in H
  | H : (_ <? _) = false |- _ => apply Z.ltb_ge in H
  | H : (_ <=? _) = true |- _ => apply Z.leb_le in H
  | H : (_ <=? _) = false |- _ => apply Z.leb_gt in H
  | H : bool_decide _ = true |- _ => apply bool_decide_eq_true in H
  | H : bool_decide _ = false |- _ => apply bool_decide_eq_false in H
  end.
