(* ===== verification/SlotTable.v ===== *)
(** * Slot tables

    Most kernel components keep a fixed array of slots with a [used] flag and
    a key (a pid, a path, an address, an identifier), allocate the first free
    slot, look a key up by a linear scan and release a slot by clearing the
    flag.  This file models the three scans once and relates a table to the
    finite map from keys to live slots: allocation is map insertion, release
    is deletion, lookup is map lookup. *)

From S2P Require Import Prelude.

(** The [used] flag of a slot type. *)
Class Slotted (A : Type) := slot_used : A → bool.
(** The key a live slot is looked up by. *)
Class Keyed (A K : Type) := slot_key : A → K.
#[export] Hint Mode Keyed ! - : typeclass_instances.

Section table.
Context {A K : Type} `{Slotted A, Keyed A K, Countable K}.
Implicit Types (l : list A) (a b : A) (k : K) (i j : nat).

(** [if (used[i] != 0 && key[i] == k) return i;] *)
Definition find_key k l : option nat :=
  first_index (λ a, slot_used a && bool_decide (slot_key a = k)) l.

(** [if (used[i] == 0) return i;] *)
Definition free_slot l : option nat := first_index (λ a, negb (slot_used a)) l.

Definition count_used l : nat := count_if slot_used l.

(** No two live slots carry the same key. *)
Definition unique_keys l : Prop :=
  ∀ i j a b, l !! i = Some a → l !! j = Some b →
    slot_used a = true → slot_used b = true → slot_key a = slot_key b → i = j.

(** The finite map a table stands for. *)
Definition table_map l : gmap K A :=
  foldr (λ a m, if slot_used a then <[slot_key a := a]> m else m) ∅ l.

Lemma find_key_Some k l i :
  find_key k l = Some i →
  ∃ a, l !! i = Some a ∧ slot_used a = true ∧ slot_key a = k.
Proof.
  intros (a & ? & Hp)%first_index_lookup. b2p. eauto.
Qed.

Lemma find_key_None k l :
  find_key k l = None ↔
  ∀ i a, l !! i = Some a → slot_used a = true → slot_key a ≠ k.
Proof.
  unfold find_key. rewrite first_index_None. split.
  - intros H' i a Ha Hu Hk. specialize (H' i a Ha). rewrite Hu in H'. by case_bool_decide.
  - intros H' i a Ha. destruct (slot_used a) eqn:Hu; [|done].
    apply bool_decide_eq_false. by eapply H'.
Qed.

Lemma free_slot_Some l i :
  free_slot l = Some i → ∃ a, l !! i = Some a ∧ slot_used a = false.
Proof. intros (a & ? & Hp)%first_index_lookup. b2p. eauto. Qed.

Lemma free_slot_lt l i : free_slot l = Some i → (i < length l)%nat.
Proof. apply first_index_lt. Qed.

Lemma find_key_lt k l i : find_key k l = Some i → (i < length l)%nat.
Proof. apply first_index_lt. Qed.

(** Allocation fails exactly when every slot is live. *)
Lemma free_slot_None l : free_slot l = None ↔ count_used l = length l.
Proof.
  unfold free_slot, count_used. rewrite first_index_None, count_if_full.
  split; intros H' i a Ha; specialize (H' i a Ha); by destruct (slot_used a).
Qed.

(** The scan returns the slot the map holds. *)
Lemma table_map_lookup l k : table_map l !! k = find_key k l ≫= (l !!.).
Proof.
  unfold find_key. induction l as [|x l IH]; simpl; [done|].
  destruct (slot_used x) eqn:Hu; simpl.
  - rewrite lookup_insert. case_bool_decide; simplify_eq/=.
    + by rewrite decide_True.
    + rewrite decide_False by done. rewrite IH. by destruct (first_index _ l).
  - rewrite IH. by destruct (first_index _ l).
Qed.

Lemma table_map_None l k : table_map l !! k = None ↔ find_key k l = None.
Proof.
  rewrite table_map_lookup. split; [|by intros ->].
  destruct (find_key k l) as [i|] eqn:E; simpl; [|done].
  apply find_key_Some in E as (a & -> & _). done.
Qed.

(** Whether the scan finds a key. *)
Lemma find_key_dom l k : match find_key k l with Some _ => true | None => false end = bool_decide (k ∈ dom (table_map l)).
Proof.
  pose proof (table_map_None l k) as HN. destruct (find_key k l) as [i|]; symmetry.
  - apply bool_decide_eq_true_2. rewrite elem_of_dom. destruct (table_map l !! k); [eauto|].
    by discriminate (proj1 HN eq_refl).
  - apply bool_decide_eq_false_2. rewrite not_elem_of_dom. by apply HN.
Qed.

(** Under unique keys the map is a pointwise description of the live slots. *)
Lemma table_map_spec l k a :
  unique_keys l →
  table_map l !! k = Some a ↔ ∃ i, l !! i = Some a ∧ slot_used a = true ∧ slot_key a = k.
Proof.
  intros Hu. rewrite table_map_lookup. split.
  - destruct (find_key k l) as [i|] eqn:E; simpl; [|done]. intros Ha.
    apply find_key_Some in E as (b & ? & ? & ?). simplify_eq. eauto.
  - intros (i & Ha & Hua & Hk). destruct (find_key k l) as [j|] eqn:E; simpl.
    + apply find_key_Some in E as (b & Hb & ? & ?).
      by rewrite <- (Hu i j a b) by congruence.
    + exfalso. rewrite find_key_None in E. by eapply E.
Qed.

Lemma find_key_unique k l i a :
  unique_keys l → l !! i = Some a → slot_used a = true → slot_key a = k →
  find_key k l = Some i.
Proof.
  intros Hu Ha Hua Hk. destruct (find_key k l) as [j|] eqn:E.
  - apply find_key_Some in E as (b & Hb & ? & ?). f_equal. by eapply Hu; eauto; congruence.
  - exfalso. rewrite find_key_None in E. by eapply E.
Qed.

Lemma unique_keys_insert l i a :
  unique_keys l →
  (∀ j b, j ≠ i → l !! j = Some b → slot_used a = true → slot_used b = true →
          slot_key b ≠ slot_key a) →
  unique_keys (<[i:=a]> l).
Proof.
  intros Hu Hne i1 i2 a1 a2 H1' H2' Hu1 Hu2 Hk.
  apply list_lookup_insert_Some in H1' as [(-> & -> & _)|(? & H1')],
    H2' as [(-> & -> & _)|(? & H2')]; [done|..].
  - exfalso. by eapply (Hne i2 a2).
  - exfalso. by eapply (Hne i1 a1).
  - by eapply Hu.
Qed.

Lemma unique_keys_replicate n a : slot_used a = false → unique_keys (replicate n a).
Proof.
  intros Hf i j b c [-> _]%lookup_replicate _ Hu. congruence.
Qed.

(** Allocation: writing a live slot with a fresh key into a free position. *)
Lemma table_map_alloc l i b a :
  unique_keys l → l !! i = Some b → slot_used b = false →
  slot_used a = true → find_key (slot_key a) l = None →
  unique_keys (<[i:=a]> l) ∧
  table_map (<[i:=a]> l) = <[slot_key a := a]> (table_map l).
Proof.
  intros Hu Hb Hub Hua Hfresh.
  assert (unique_keys (<[i:=a]> l)) as Hu'.
  { apply unique_keys_insert; [done|]. intros j c _ Hc _ Huc.
    rewrite find_key_None in Hfresh. by eapply Hfresh. }
  split; [done|]. apply map_eq. intros k. rewrite lookup_insert.
  pose proof (lookup_lt_Some _ _ _ Hb) as Hlt.
  assert (<[i:=a]> l !! i = Some a) as Hia by (by apply list_lookup_insert_eq).
  apply option_eq. intros c. rewrite table_map_spec by done. case_decide as Hk.
  - split; [|intros [= <-]; exists i; naive_solver].
    intros (j & Hj & Huc & Hkc). assert (j = i) as ->; [|congruence].
    eapply (Hu' j i); eauto. congruence.
  - rewrite table_map_spec by done. split; intros (j & Hj & Huc & Hkc).
    + apply list_lookup_insert_Some in Hj as [(-> & -> & _)|(? & Hj)]; [done|]. eauto.
    + exists j. split; [|done]. rewrite list_lookup_insert_ne; [done|].
      intros ->. congruence.
Qed.

(** Release: overwriting the slot of a key by a dead one. *)
Lemma table_map_release l i k a :
  unique_keys l → find_key k l = Some i → slot_used a = false →
  unique_keys (<[i:=a]> l) ∧ table_map (<[i:=a]> l) = delete k (table_map l).
Proof.
  intros Hu Hf Hua. apply find_key_Some in Hf as (b & Hb & Hub & Hkb).
  assert (unique_keys (<[i:=a]> l)) as Hu'.
  { apply unique_keys_insert; [done|]. congruence. }
  split; [done|]. apply map_eq. intros k'. apply option_eq. intros c.
  rewrite table_map_spec, lookup_delete_Some, table_map_spec by done. split.
  - intros (j & Hj & Huc & Hkc).
    apply list_lookup_insert_Some in Hj as [(-> & -> & _)|(Hij & Hj)]; [congruence|].
    split; [|eauto]. intros ->. apply Hij. eapply Hu; eauto. congruence.
  - intros (Hne & j & Hj & Huc & Hkc). exists j. split; [|done].
    rewrite list_lookup_insert_ne; [done|]. intros ->. congruence.
Qed.

(** In-place update: the slot stays live under the same key. *)
Lemma table_map_update l i k a :
  unique_keys l → find_key k l = Some i → slot_used a = true → slot_key a = k →
  unique_keys (<[i:=a]> l) ∧ table_map (<[i:=a]> l) = <[k := a]> (table_map l).
Proof.
  intros Hu Hf Hua Hka. apply find_key_Some in Hf as (b & Hb & Hub & Hkb).
  assert (unique_keys (<[i:=a]> l)) as Hu'.
  { apply unique_keys_insert; [done|]. intros j c Hne Hc _ Huc Heq.
    apply Hne. eapply Hu; eauto. congruence. }
  split; [done|]. apply map_eq. intros k'. apply option_eq. intros c.
  rewrite lookup_insert, table_map_spec by done.
  pose proof (lookup_lt_Some _ _ _ Hb) as Hlt.
  assert (<[i:=a]> l !! i = Some a) as Hia by (by apply list_lookup_insert_eq).
  case_decide as Hk.
  - split; [|intros [= <-]; exists i; naive_solver].
    intros (j & Hj & Huc & Hkc). assert (j = i) as ->; [|congruence].
    eapply (Hu' j i); eauto. congruence.
  - rewrite table_map_spec by done. split; intros (j & Hj & Huc & Hkc).
    + apply list_lookup_insert_Some in Hj as [(-> & -> & _)|(? & Hj)]; [congruence|]. eauto.
    + exists j. split; [|done]. rewrite list_lookup_insert_ne; [done|].
      intros ->. congruence.
Qed.

(** The scan finds the updated slot again. *)
Lemma find_key_update l i k a :
  find_key k l = Some i → slot_used a = true → slot_key a = k → find_key k (<[i:=a]> l) = Some i.
Proof.
  intros Hf Hu Hk. unfold find_key in *. apply first_index_Some in Hf as (b & Hb & _ & Hlt).
  apply first_index_Some. exists a. pose proof (lookup_lt_Some _ _ _ Hb).
  split; [by apply list_lookup_insert_eq|]. split; [by rewrite Hu, bool_decide_eq_true_2|].
  intros j c Hj Hc. rewrite list_lookup_insert_ne in Hc by lia. by eapply Hlt.
Qed.

Lemma count_used_alloc l i b a :
  l !! i = Some b → slot_used b = false → slot_used a = true →
  count_used (<[i:=a]> l) = S (count_used l).
Proof.
  intros Hb Hub Hua. unfold count_used.
  pose proof (count_if_insert slot_used l i b a Hb) as Hc. rewrite Hub, Hua in Hc. lia.
Qed.

Lemma count_used_release l i b a :
  l !! i = Some b → slot_used b = true → slot_used a = false →
  count_used l = S (count_used (<[i:=a]> l)).
Proof.
  intros Hb Hub Hua. unfold count_used.
  pose proof (count_if_insert slot_used l i b a Hb) as Hc. rewrite Hub, Hua in Hc. lia.
Qed.

Lemma count_used_update l i b a :
  l !! i = Some b → slot_used b = slot_used a → count_used (<[i:=a]> l) = count_used l.
Proof.
  intros Hb Hub. unfold count_used.
  pose proof (count_if_insert slot_used l i b a Hb) as Hc. rewrite Hub in Hc. lia.
Qed.
End table.

Lemma table_map_replicate {A K} `{Slotted A, Keyed A K, Countable K} n (a : A) :
  slot_used a = false → table_map (replicate n a) = (∅ : gmap K A).
Proof. intros Hf. induction n; simpl; [done|]. by rewrite Hf. Qed.

(** The map has as many keys as the table has live slots. *)
Lemma table_map_size {A K} `{Slotted A, Keyed A K, Countable K} (l : list A) :
  unique_keys l → size (table_map l : gmap K A) = count_used l.
Proof.
  unfold count_used. induction l as [|x l IH]; intros Hu; simpl; [apply map_size_empty|].
  assert (unique_keys l) as Hu'.
  { intros i j a b Ha Hb ???. specialize (Hu (S i) (S j) a b Ha Hb). naive_solver. }
  specialize (IH Hu'). destruct (slot_used x) eqn:Hx; [|done].
  rewrite map_size_insert_None, IH; [done|].
  apply table_map_None, find_key_None. intros i a Ha Hua Hk.
  specialize (Hu (S i) 0%nat a x Ha eq_refl). naive_solver.
Qed.
