(* ===== verification/RingQueue.v ===== *)
(** * Ring buffers

    The packet queue (net.c), the work queue (workqueue.c) and the pending
    queue of a listening socket (syscall.c) are arrays with a head index, a
    tail index and a count.  [ring_list] reads the live elements in pop
    order; pushing appends to that list and popping removes its head. *)

From S2P Require Import Prelude.

Section ring.
Context {A : Type}.
Implicit Types (buf : list A) (head tail count : nat) (x : A).

Definition ring_list buf head count : list A :=
  omap (λ k, buf !! ((head + k) mod length buf)%nat) (seq 0 count).

(** Index invariant of a ring of capacity [length buf]. *)
Definition ring_wf buf head tail count : Prop :=
  (head < length buf ∧ count <= length buf ∧ tail = (head + count) mod length buf)%nat.

Lemma omap_seq_shift (f : nat → option A) s n :
  omap f (seq (S s) n) = omap (λ k, f (S k)) (seq s n).
Proof.
  revert s. induction n as [|n IH]; intros s; [done|]. cbn. by rewrite IH.
Qed.

Lemma omap_ext_seq (f g : nat → option A) s n :
  (∀ k, (s <= k < s + n)%nat → f k = g k) → omap f (seq s n) = omap g (seq s n).
Proof.
  revert s. induction n as [|n IH]; intros s H; [done|]. cbn.
  rewrite (H s), (IH (S s)) by (intros; try apply H; lia). done.
Qed.

Lemma ring_list_length buf head count :
  (0 < length buf)%nat → length (ring_list buf head count) = count.
Proof.
  intros Hpos. unfold ring_list.
  assert (∀ s, length (omap (λ k, buf !! ((head + k) mod length buf)%nat) (seq s count)) = count) as H;
    [|apply H].
  induction count as [|n IH]; intros s; [done|]. cbn.
  destruct (lookup_lt_is_Some_2 buf ((head + s) mod length buf)%nat) as [x ->].
  { apply Nat.mod_upper_bound. lia. }
  simpl. by rewrite IH.
Qed.

Lemma ring_mod_inj head i j n :
  (i < n → j < n → (head + i) mod n = (head + j) mod n → i = j)%nat.
Proof.
  intros Hi Hj H.
  pose proof (Nat.div_mod_eq (head + i) n). pose proof (Nat.div_mod_eq (head + j) n).
  set (q := ((head + i) / n)%nat) in *. set (q' := ((head + j) / n)%nat) in *.
  destruct (lt_eq_lt_dec q q') as [[Hq|Hq]|Hq]; [|rewrite Hq in *; lia|]; exfalso.
  - assert (n * S q <= n * q')%nat by (apply Nat.mul_le_mono_l; lia). lia.
  - assert (n * S q' <= n * q)%nat by (apply Nat.mul_le_mono_l; lia). lia.
Qed.

(** Pushing at the tail appends. *)
Lemma ring_list_push buf head tail count x :
  ring_wf buf head tail count → (count < length buf)%nat →
  ring_list (<[tail:=x]> buf) head (S count) = ring_list buf head count ++ [x].
Proof.
  intros (Hh & Hc & ->) Hlt. unfold ring_list. rewrite length_insert.
  rewrite seq_S, omap_app. simpl. f_equal.
  - apply omap_ext_seq. intros k Hk. apply list_lookup_insert_ne.
    intros Heq%ring_mod_inj; lia.
  - rewrite list_lookup_insert_eq; [done|]. apply Nat.mod_upper_bound. lia.
Qed.

Lemma ring_wf_push buf head tail count x :
  ring_wf buf head tail count → (count < length buf)%nat →
  ring_wf (<[tail:=x]> buf) head ((tail + 1) mod length buf) (S count).
Proof.
  intros (Hh & Hc & ->) Hlt. split_and!; rewrite ?length_insert; try lia.
  rewrite Nat.Div0.add_mod_idemp_l. f_equal. lia.
Qed.

(** Popping at the head removes the oldest element. *)
Lemma ring_list_pop buf head tail count x :
  ring_wf buf head tail (S count) → buf !! head = Some x →
  ring_list buf head (S count) = x :: ring_list buf ((head + 1) mod length buf) count.
Proof.
  intros (Hh & Hc & _) Hx. unfold ring_list. cbn.
  rewrite Nat.add_0_r, Nat.mod_small, Hx by done. f_equal.
  rewrite omap_seq_shift. apply omap_ext_seq. intros k _. f_equal.
  rewrite Nat.Div0.add_mod_idemp_l. f_equal. lia.
Qed.

Lemma ring_wf_pop buf head tail count :
  ring_wf buf head tail (S count) → ring_wf buf ((head + 1) mod length buf) tail count.
Proof.
  intros (Hh & Hc & ->). split_and!; [apply Nat.mod_upper_bound; lia|lia|].
  rewrite Nat.Div0.add_mod_idemp_l. f_equal. lia.
Qed.

(** Overwriting a position that is not live does not change the contents. *)
Lemma ring_list_insert_dead buf head count i x :
  (∀ k, (k < count)%nat → i ≠ (head + k) mod length buf)%nat →
  ring_list (<[i:=x]> buf) head count = ring_list buf head count.
Proof.
  intros H. unfold ring_list. rewrite length_insert. apply omap_ext_seq.
  intros k Hk. apply list_lookup_insert_ne. apply H. lia.
Qed.
End ring.
