(* ===== verification/Pmm.v ===== *)
(** * Physical page allocator (c-os/kernel/mm/mm.c, boot/boot_info.h)

    The allocator's state is the live prefix of [g_frames]/[g_used] (indices
    below [g_frame_count]) and the free counter [g_free_count]. *)

From S2P Require Import Prelude.

Definition QOS_PAGE_SIZE : Z := 4096.
Definition QOS_PMM_MAX_PAGES : nat := 4096.
Definition QOS_PMM_PAGE_NONE : Z := 2 ^ 64 - 1.
Definition QOS_BOOT_MAGIC : Z := 0x514F53424F4F5400.
Definition QOS_MMAP_MAX_ENTRIES : Z := 128.

Record mmap_entry := { mmap_base : Z; mmap_length : Z; mmap_type : Z }.

(** The fields of [boot_info_t] the kernel reads. *)
Record boot_info := {
  magic : Z;
  mmap_entry_count : Z;
  mmap_entries : list mmap_entry;
  initramfs_addr : Z;
  initramfs_size : Z
}.

(** [sizeof(boot_info_t)]: 16 + 128 * 24 + 24 + 32 bytes. *)
Definition sizeof_boot_info : Z := 3144.

Record frame := { f_addr : Z; f_used : bool }.
Record pmm := { frames : list frame; free_count : Z }.

(** [(value + (QOS_PAGE_SIZE - 1)) & ~(QOS_PAGE_SIZE - 1)] *)
Definition align_up (value : Z) : Z :=
  Z.land (u64 (value + (QOS_PAGE_SIZE - 1))) (bnot 64 (QOS_PAGE_SIZE - 1)).

Definition align_down (value : Z) : Z := Z.land value (bnot 64 (QOS_PAGE_SIZE - 1)).

Definition qos_pmm_reset : pmm := {| frames := []; free_count := 0 |}.

(** The loop of [pmm_add_range]; [room] is [QOS_PMM_MAX_PAGES - g_frame_count],
    so running out of it is the loop's own second exit condition. *)
Fixpoint add_range_loop (room : nat) (start stop : Z) (s : pmm) : pmm :=
  match room with
  | O => s
  | S room' =>
      if start <? stop then
        add_range_loop room' (u64 (start + QOS_PAGE_SIZE)) stop
          {| frames := frames s ++ [{| f_addr := start; f_used := false |}];
             free_count := u32 (free_count s + 1) |}
      else s
  end.

Definition pmm_add_range (base length' : Z) (s : pmm) : pmm :=
  let start := align_up base in
  let stop := align_down (u64 (base + length')) in
  add_range_loop (QOS_PMM_MAX_PAGES - length (frames s)) start stop s.

Fixpoint reserve_loop (base stop : Z) (fs : list frame) (free : Z) : list frame * Z :=
  match fs with
  | [] => ([], free)
  | f :: fs' =>
      let hit := (base <=? f_addr f) && (f_addr f <? stop) && negb (f_used f) in
      let f' := if hit then {| f_addr := f_addr f; f_used := true |} else f in
      let free' := if hit then u32 (free - 1) else free in
      let '(rest, free'') := reserve_loop base stop fs' free' in
      (f' :: rest, free'')
  end.

Definition pmm_reserve_range (base length' : Z) (s : pmm) : pmm :=
  if length' =? 0 then s
  else
    let '(fs, free) := reserve_loop base (u64 (base + length')) (frames s) (free_count s) in
    {| frames := fs; free_count := free |}.

(** [kstart], [kend]: the linker symbols [__kernel_phys_start] and
    [__kernel_phys_end], zero when undefined. *)
Definition pmm_reserve_kernel_image (kstart kend : Z) (s : pmm) : pmm :=
  if negb (kstart =? 0) && (kstart <? kend) then pmm_reserve_range kstart (kend - kstart) s
  else s.

Definition add_entry (e : mmap_entry) (s : pmm) : pmm :=
  if (mmap_type e =? 1) && (QOS_PAGE_SIZE <=? mmap_length e)
  then pmm_add_range (mmap_base e) (mmap_length e) s else s.

(** [boot] is the pointer argument: its address and the structure behind it,
    or [None] for NULL. *)
Definition qos_pmm_init (kstart kend : Z) (boot : option (Z * boot_info)) : Z * pmm :=
  let s := qos_pmm_reset in
  match boot with
  | None => (-1, s)
  | Some (addr, bi) =>
      if negb (magic bi =? QOS_BOOT_MAGIC) then (-1, s)
      else if (mmap_entry_count bi =? 0) || (QOS_MMAP_MAX_ENTRIES <? mmap_entry_count bi)
      then (-1, s)
      else
        let s1 := fold_left (λ s e, add_entry e s)
                    (take (Z.to_nat (mmap_entry_count bi)) (mmap_entries bi)) s in
        if (length (frames s1) =? 0)%nat then (-1, s1)
        else
          let s2 := pmm_reserve_range 0 0x100000 s1 in
          let s3 := pmm_reserve_kernel_image kstart kend s2 in
          let s4 := pmm_reserve_range addr sizeof_boot_info s3 in
          let s5 := if negb (initramfs_size bi =? 0)
                    then pmm_reserve_range (initramfs_addr bi) (initramfs_size bi) s4
                    else s4 in
          (0, s5)
  end.

Definition qos_pmm_total_pages (s : pmm) : Z := Z.of_nat (length (frames s)).
Definition qos_pmm_free_pages (s : pmm) : Z := free_count s.

(** [g_used[i] = u] *)
Definition set_used (i : nat) (u : bool) (fs : list frame) : list frame :=
  match fs !! i with
  | Some f => <[i := {| f_addr := f_addr f; f_used := u |}]> fs
  | None => fs
  end.

Definition qos_pmm_alloc_page (s : pmm) : Z * pmm :=
  match first_index (λ f, negb (f_used f)) (frames s) with
  | Some i =>
      (match frames s !! i with Some f => f_addr f | None => QOS_PMM_PAGE_NONE end,
       {| frames := set_used i true (frames s); free_count := u32 (free_count s - 1) |})
  | None => (QOS_PMM_PAGE_NONE, s)
  end.

Definition qos_pmm_free_page (page : Z) (s : pmm) : Z * pmm :=
  if negb (Z.land page (QOS_PAGE_SIZE - 1) =? 0) then (-1, s)
  else
    match first_index (λ f, f_addr f =? page) (frames s) with
    | Some i =>
        match frames s !! i with
        | Some f =>
            if negb (f_used f) then (-1, s)
            else (0, {| frames := set_used i false (frames s);
                        free_count := u32 (free_count s + 1) |})
        | None => (-1, s)
        end
    | None => (-1, s)
    end.

(** ** Alignment *)

Lemma land_page_mask x : 0 <= x → Z.land x (QOS_PAGE_SIZE - 1) = x mod QOS_PAGE_SIZE.
Proof. intros. change (QOS_PAGE_SIZE - 1) with (Z.ones 12). by rewrite Z.land_ones. Qed.

Lemma align_down_eq v : in_width 64 v → align_down v = QOS_PAGE_SIZE * (v / QOS_PAGE_SIZE).
Proof.
  intros Hv. unfold align_down. change (QOS_PAGE_SIZE - 1) with (Z.ones 12). by rewrite land_bnot_ones by (lia || done).
Qed.

Lemma align_up_eq v :
  0 <= v → v + 4095 < 2 ^ 64 →
  align_up v = QOS_PAGE_SIZE * ((v + 4095) / QOS_PAGE_SIZE).
Proof.
  intros H0 H1. unfold align_up. fold (align_down (u64 (v + (QOS_PAGE_SIZE - 1)))).
  rewrite wrap_small by (unfold in_width, QOS_PAGE_SIZE; lia).
  rewrite align_down_eq; [done|]. unfold in_width, QOS_PAGE_SIZE. lia.
Qed.

(** ** Filling the frame table *)

Definition page_aligned (a : Z) : Prop := a mod QOS_PAGE_SIZE = 0.

(** [n] consecutive pages from [start]. *)
Fixpoint page_run (start : Z) (n : nat) : list Z :=
  match n with
  | O => []
  | S n' => start :: page_run (start + QOS_PAGE_SIZE) n'
  end.

Definition fresh_frame (a : Z) : frame := {| f_addr := a; f_used := false |}.

Lemma elem_of_page_run a start n :
  a ∈ page_run start n ↔ ∃ i, (i < n)%nat ∧ a = start + QOS_PAGE_SIZE * Z.of_nat i.
Proof.
  revert start. induction n as [|n IH]; intros start; simpl.
  { split; [by intros ?%elem_of_nil|]. intros (i & ? & _). lia. }
  rewrite elem_of_cons, IH. split.
  - intros [->|(i & Hi & ->)]; [exists 0%nat; lia|]. exists (S i). lia.
  - intros ([|i] & Hi & ->); [left; lia|]. right. exists i. lia.
Qed.

Lemma page_aligned_add a n : page_aligned a → page_aligned (a + QOS_PAGE_SIZE * n).
Proof.
  unfold page_aligned, QOS_PAGE_SIZE. intros Ha.
  rewrite Z.mul_comm, Z_mod_plus_full. done.
Qed.

Lemma add_range_loop_spec room start n s :
  page_aligned start → 0 <= start → start + QOS_PAGE_SIZE * Z.of_nat n < 2 ^ 64 →
  in_width 32 (free_count s) →
  let k := (room `min` n)%nat in
  add_range_loop room start (start + QOS_PAGE_SIZE * Z.of_nat n) s =
  {| frames := frames s ++ (fresh_frame <$> page_run start k);
     free_count := u32 (free_count s + Z.of_nat k) |}.
Proof.
  unfold QOS_PAGE_SIZE. revert start n s.
  induction room as [|room IH]; intros start n s Ha H0 H1 Hf; simpl.
  { rewrite app_nil_r, Z.add_0_r, wrap_small by done. by destruct s. }
  destruct (Z.ltb_spec start (start + 4096 * Z.of_nat n)) as [Hlt|Hge].
  - destruct n as [|n]; [lia|].
    unfold QOS_PAGE_SIZE. rewrite (wrap_small 64) by (unfold in_width; lia).
    replace (start + 4096 * Z.of_nat (S n)) with (start + 4096 + 4096 * Z.of_nat n) by lia.
    rewrite IH; [|by apply (page_aligned_add _ 1)|lia|lia|by apply wrap_range].
    simpl. f_equal.
    + by rewrite <- (assoc_L (++)).
    + unfold wrap. rewrite Z.add_mod_idemp_l by lia. f_equal. lia.
  - assert (n = 0%nat) as -> by lia. simpl.
    rewrite app_nil_r, Z.add_0_r, wrap_small by done. by destruct s.
Qed.

(** ** Invariant *)

Definition free_frame (f : frame) : bool := negb (f_used f).

(** The free counter counts the unused frames, frames are page-aligned
    physical addresses and the table does not overflow. *)
Record pmm_wf (s : pmm) : Prop := {
  wf_len : (length (frames s) <= QOS_PMM_MAX_PAGES)%nat;
  wf_free : free_count s = Z.of_nat (count_if free_frame (frames s));
  wf_addr : Forall (λ f, page_aligned (f_addr f) ∧ in_width 64 (f_addr f)) (frames s)
}.

Lemma pmm_wf_free_range s : pmm_wf s → in_width 32 (free_count s).
Proof.
  intros [Hl Hf _]. rewrite Hf. pose proof (count_if_le free_frame (frames s)).
  unfold in_width, QOS_PMM_MAX_PAGES in *. lia.
Qed.

(** A usable memory-map entry that does not wrap around the address space. *)
Definition entry_ok (base len : Z) : Prop :=
  0 <= base ∧ QOS_PAGE_SIZE <= len ∧ base + len < 2 ^ 64.

(** The pages wholly inside [base, base + len): first page and number. *)
Definition first_page (base : Z) : Z := QOS_PAGE_SIZE * ((base + 4095) / QOS_PAGE_SIZE).
Definition num_pages (base len : Z) : nat :=
  Z.to_nat ((base + len) / QOS_PAGE_SIZE - (base + 4095) / QOS_PAGE_SIZE).

Lemma pmm_add_range_spec base len s :
  entry_ok base len → pmm_wf s →
  let k := ((QOS_PMM_MAX_PAGES - length (frames s)) `min` num_pages base len)%nat in
  pmm_add_range base len s =
  {| frames := frames s ++ (fresh_frame <$> page_run (first_page base) k);
     free_count := free_count s + Z.of_nat k |}.
Proof.
  intros (H0 & Hl & Hw) Hwf k. unfold QOS_PAGE_SIZE in Hl.
  unfold pmm_add_range. rewrite align_up_eq by lia.
  rewrite (wrap_small 64) by (unfold in_width; lia).
  rewrite align_down_eq by (unfold in_width; lia).
  fold (first_page base).
  assert ((base + 4095) / QOS_PAGE_SIZE <= (base + len) / QOS_PAGE_SIZE) as Hle
    by (apply Z.div_le_mono; unfold QOS_PAGE_SIZE; lia).
  replace (QOS_PAGE_SIZE * ((base + len) / QOS_PAGE_SIZE))
    with (first_page base + QOS_PAGE_SIZE * Z.of_nat (num_pages base len)).
  2:{ unfold first_page, num_pages. rewrite Z2Nat.id by lia. lia. }
  pose proof (Z.mul_div_le (base + len) QOS_PAGE_SIZE eq_refl).
  rewrite add_range_loop_spec; [f_equal|..].
  - apply wrap_small. destruct (pmm_wf_free_range s Hwf). destruct Hwf as [Hlen Hf _].
    pose proof (count_if_le free_frame (frames s)).
    unfold in_width, k, QOS_PMM_MAX_PAGES in *. lia.
  - unfold page_aligned, first_page. rewrite Z.mul_comm. by apply Z.mod_mul.
  - unfold first_page, QOS_PAGE_SIZE. pose proof (Z.div_pos (base + 4095) 4096). lia.
  - unfold first_page, num_pages in *. rewrite Z2Nat.id by lia. lia.
  - by apply pmm_wf_free_range.
Qed.

Lemma first_page_run_inside base len a :
  entry_ok base len → a ∈ page_run (first_page base) (num_pages base len) ↔
  page_aligned a ∧ base <= a ∧ a + QOS_PAGE_SIZE <= base + len.
Proof.
  intros (H0 & Hl & Hw). rewrite elem_of_page_run.
  unfold first_page, num_pages, page_aligned, QOS_PAGE_SIZE in *.
  pose proof (Z.div_mod (base + 4095) 4096 ltac:(lia)).
  pose proof (Z.mod_pos_bound (base + 4095) 4096 ltac:(lia)).
  pose proof (Z.div_mod (base + len) 4096 ltac:(lia)).
  pose proof (Z.mod_pos_bound (base + len) 4096 ltac:(lia)).
  set (q := (base + 4095) / 4096) in *. set (q' := (base + len) / 4096) in *. split.
  - intros (i & Hi & ->). split_and!; [|lia|lia].
    rewrite <- Z.mul_add_distr_l, Z.mul_comm. by apply Z.mod_mul.
  - intros (Ha & Hlo & Hhi). exists (Z.to_nat (a / 4096 - q)).
    pose proof (Z.div_mod a 4096 ltac:(lia)). lia.
Qed.

Lemma page_run_length a n : length (page_run a n) = n.
Proof. revert a. induction n; intros; simpl; [done|]. by rewrite IHn. Qed.

Lemma page_run_NoDup a n : NoDup (page_run a n).
Proof.
  revert a. induction n as [|n IH]; intros a; simpl; constructor; [|done].
  intros (i & _ & H)%elem_of_page_run. unfold QOS_PAGE_SIZE in H. lia.
Qed.

Lemma page_run_mono a b k n : (k <= n)%nat → b ∈ page_run a k → b ∈ page_run a n.
Proof. rewrite !elem_of_page_run. intros ? (i & ? & ->). exists i. lia. Qed.

Lemma count_if_fresh l : count_if free_frame (fresh_frame <$> l) = length l.
Proof. induction l as [|x l IH]; [done|]. rewrite fmap_cons. simpl. by rewrite IH. Qed.

(** Entries of the memory map the allocator takes frames from. *)
Definition usable (e : mmap_entry) : bool :=
  (mmap_type e =? 1) && (QOS_PAGE_SIZE <=? mmap_length e).

Definition entry_wf (e : mmap_entry) : Prop :=
  0 <= mmap_base e ∧ mmap_base e + mmap_length e < 2 ^ 64.

(** Page [a] lies wholly inside entry [e]. *)
Definition page_in_entry (a : Z) (e : mmap_entry) : Prop :=
  usable e = true ∧ page_aligned a ∧ mmap_base e <= a ∧
  a + QOS_PAGE_SIZE <= mmap_base e + mmap_length e.

Definition frame_addrs (s : pmm) : list Z := f_addr <$> frames s.

(** One entry appends pages of that entry, all of them unless the table is
    full afterwards. *)
Lemma add_entry_spec e s :
  entry_wf e → pmm_wf s →
  pmm_wf (add_entry e s) ∧
  ∃ new, frames (add_entry e s) = frames s ++ (fresh_frame <$> new) ∧ NoDup new ∧
    (∀ a, a ∈ new → page_in_entry a e) ∧
    ((length (frames (add_entry e s)) < QOS_PMM_MAX_PAGES)%nat →
     ∀ a, page_in_entry a e → a ∈ new).
Proof.
  intros (H0 & Hw) Hwf. unfold add_entry. fold (usable e).
  destruct (usable e) eqn:Hu.
  2:{ split; [done|]. exists []. rewrite app_nil_r. split_and!; [done|constructor|set_solver|].
      intros _ a (? & _). congruence. }
  assert (entry_ok (mmap_base e) (mmap_length e)) as Hok.
  { unfold usable in Hu. b2p. split_and!; done. }
  rewrite pmm_add_range_spec by done.
  set (n := num_pages _ _). set (k := (_ `min` n)%nat). set (new := page_run _ k).
  assert (k <= QOS_PMM_MAX_PAGES - length (frames s) ∧ k <= n ∧
          (k < QOS_PMM_MAX_PAGES - length (frames s) → k = n))%nat as Hk by (unfold k; lia).
  assert (∀ a, a ∈ new → page_in_entry a e) as Hin.
  { intros a Ha. split; [done|]. apply first_page_run_inside; [done|].
    eapply page_run_mono; [|done]. lia. }
  split.
  - destruct Hwf as [Hl Hf Ha]. split; simpl.
    + rewrite length_app, length_fmap. unfold new. rewrite page_run_length. lia.
    + rewrite count_if_app, count_if_fresh. unfold new. rewrite page_run_length. lia.
    + apply Forall_app. split; [done|]. apply Forall_fmap, Forall_forall. simpl.
      intros a (_ & Hal & Hlo & Hhi)%Hin. unfold in_width, QOS_PAGE_SIZE in *. split; [done|lia].
  - exists new. split_and!; [done|apply page_run_NoDup|done|]. simpl.
    rewrite length_app, length_fmap. unfold new. rewrite page_run_length. intros Hlt a (_ & Hpa).
    replace k with n by lia. by apply first_page_run_inside.
Qed.

(** ** Reserving ranges *)

Definition in_range (base stop : Z) (f : frame) : bool :=
  (base <=? f_addr f) && (f_addr f <? stop).

Definition reserve_frame (base stop : Z) (f : frame) : frame :=
  {| f_addr := f_addr f; f_used := f_used f || in_range base stop f |}.

Lemma reserve_loop_spec base stop fs free :
  free = Z.of_nat (count_if free_frame fs) →
  ∀ extra, 0 <= extra → Z.of_nat (length fs) + extra <= Z.of_nat QOS_PMM_MAX_PAGES →
  reserve_loop base stop fs (free + extra) =
  (reserve_frame base stop <$> fs,
   Z.of_nat (count_if free_frame (reserve_frame base stop <$> fs)) + extra).
Proof.
  revert free. induction fs as [|f fs IH]; intros free -> extra He Hl; [done|].
  rewrite fmap_cons. cbn [reserve_loop count_if length] in *.
  fold (in_range base stop f).
  pose proof (count_if_le free_frame fs). unfold QOS_PMM_MAX_PAGES in *.
  pose proof (count_if_le free_frame (reserve_frame base stop <$> fs)) as Hl'.
  rewrite length_fmap in Hl'.
  assert (free_frame (reserve_frame base stop f)
          = negb (f_used f) && negb (in_range base stop f)) as Hff.
  { unfold free_frame, reserve_frame. simpl. by rewrite negb_orb. }
  rewrite Hff. change (free_frame f) with (negb (f_used f)).
  assert (reserve_frame base stop f
          = if in_range base stop f && negb (f_used f)
            then {| f_addr := f_addr f; f_used := true |} else f) as Hrf.
  { unfold reserve_frame. destruct f as [a u]; simpl.
    by destruct u, (in_range base stop {| f_addr := a; f_used := _ |}). }
  rewrite Hrf. clear Hff Hrf.
  set (n := count_if free_frame fs) in *. clearbody n.
  destruct (in_range base stop f), (f_used f); cbn [andb negb orb Nat.add];
    rewrite ?(wrap_small 32) by (unfold in_width; lia);
    match goal with
    | |- context [reserve_loop _ _ fs (Z.of_nat n + extra)] =>
        rewrite (IH _ eq_refl) by lia
    | |- context [reserve_loop _ _ fs (_ - 1)] =>
        replace (Z.of_nat (S n) + extra - 1) with (Z.of_nat n + extra) by lia;
        rewrite (IH _ eq_refl) by lia
    | |- _ =>
        replace (Z.of_nat (S n) + extra) with (Z.of_nat n + (extra + 1)) by lia;
        rewrite (IH _ eq_refl) by lia
    end; f_equal; lia.
Qed.

Lemma pmm_reserve_range_spec base len s :
  pmm_wf s → len ≠ 0 →
  pmm_reserve_range base len s =
  let fs := reserve_frame base (u64 (base + len)) <$> frames s in
  {| frames := fs; free_count := Z.of_nat (count_if free_frame fs) |}.
Proof.
  intros [Hl Hf _] Hne. unfold pmm_reserve_range. destruct (Z.eqb_spec len 0); [done|].
  pose proof (reserve_loop_spec base (u64 (base + len)) (frames s) (free_count s) Hf 0) as H.
  rewrite !Z.add_0_r in H. by rewrite H by lia.
Qed.

(** [s ⊑ s']: the same frames, and every reserved frame stays reserved. *)
Definition pmm_le (s s' : pmm) : Prop :=
  frame_addrs s' = frame_addrs s ∧
  ∀ f', f' ∈ frames s' → f_used f' = false → f' ∈ frames s.

#[export] Instance pmm_le_preorder : PreOrder pmm_le.
Proof.
  split.
  - intros s. by split.
  - intros s1 s2 s3 [Ha Hu] [Ha' Hu']. split; [congruence|eauto].
Qed.

Definition reserved (base stop : Z) (s : pmm) : Prop :=
  ∀ f, f ∈ frames s → base <= f_addr f < stop → f_used f = true.

Lemma reserved_mono base stop s s' : pmm_le s s' → reserved base stop s → reserved base stop s'.
Proof.
  intros [_ Hu] Hr f Hf Hin. destruct (f_used f) eqn:E; [done|].
  rewrite <- E. by apply (Hr f); [apply Hu|].
Qed.

Lemma pmm_reserve_range_ok base len s :
  pmm_wf s → 0 <= len → in_width 64 (base + len) →
  let s' := pmm_reserve_range base len s in
  pmm_wf s' ∧ pmm_le s s' ∧ reserved base (base + len) s'.
Proof.
  intros Hwf Hlen Hw. destruct (decide (len = 0)) as [->|Hne].
  { simpl. split_and!; [done..|]. intros f _ ?. lia. }
  simpl. rewrite pmm_reserve_range_spec, wrap_small by done. simpl. split_and!.
  - destruct Hwf as [Hl Hf Ha]. split; simpl; [by rewrite length_fmap|done|].
    apply Forall_fmap. eapply Forall_impl; [done|]. by intros [].
  - split.
    + unfold frame_addrs. simpl. rewrite <- list_fmap_compose. done.
    + intros f' (f & -> & Hf)%list_elem_of_fmap. simpl. intros [Hu Hr]%orb_false_iff.
      unfold reserve_frame. rewrite Hu, Hr. destruct f; simpl in *; by subst.
  - intros f' (f & -> & Hf)%list_elem_of_fmap. simpl. intros [? ?].
    unfold in_range. rewrite (proj2 (Z.leb_le _ _)), (proj2 (Z.ltb_lt _ _)) by done.
    apply orb_true_r.
Qed.

(** ** Boot-time initialisation *)

Definition entries_disjoint (es : list mmap_entry) : Prop :=
  ∀ i j e e' a, es !! i = Some e → es !! j = Some e' →
    page_in_entry a e → page_in_entry a e' → i = j.

Lemma add_entries_spec es s :
  Forall entry_wf es → pmm_wf s →
  let s' := fold_left (λ s e, add_entry e s) es s in
  pmm_wf s' ∧
  ∃ new, frames s' = frames s ++ (fresh_frame <$> new) ∧
    (∀ a, a ∈ new → ∃ e, e ∈ es ∧ page_in_entry a e) ∧
    ((length (frames s') < QOS_PMM_MAX_PAGES)%nat →
     ∀ e a, e ∈ es → page_in_entry a e → a ∈ new) ∧
    (entries_disjoint es → NoDup new).
Proof.
  revert s. induction es as [|e es IH]; intros s Hes Hwf; simpl.
  { split; [done|]. exists []. rewrite app_nil_r. split_and!; [done|set_solver|set_solver|constructor]. }
  apply Forall_cons in Hes as [He Hes].
  destruct (add_entry_spec e s He Hwf) as (Hwf1 & new1 & Hf1 & Hnd1 & Hin1 & Hall1).
  destruct (IH (add_entry e s) Hes Hwf1) as (Hwf2 & new2 & Hf2 & Hin2 & Hall2 & Hnd2).
  split; [done|]. exists (new1 ++ new2). rewrite Hf2, Hf1, fmap_app, (assoc_L (++)). split_and!.
  - done.
  - intros a [Ha|Ha]%elem_of_app.
    + exists e. split; [apply elem_of_cons; by left|by apply Hin1].
    + destruct (Hin2 a Ha) as (e' & ? & ?). exists e'. split; [apply elem_of_cons; by right|done].
  - intros Hlt e' a [->|He']%elem_of_cons Hp; apply elem_of_app.
    + left. apply Hall1; [|done]. rewrite Hf1. rewrite length_app in Hlt. lia.
    + right. apply (Hall2 ltac:(by rewrite Hf2, Hf1) e' a He' Hp).
  - intros Hd. apply NoDup_app. split_and!; [done| |].
    + intros a Ha1 Ha2. destruct (Hin2 a Ha2) as (e' & He' & Hp').
      apply list_elem_of_lookup in He' as (j & Hj).
      specialize (Hd 0%nat (S j) e e' a eq_refl Hj (Hin1 a Ha1) Hp'). done.
    + apply Hnd2. intros i j e1 e2 a H1 H2 Hp1 Hp2.
      specialize (Hd (S i) (S j) e1 e2 a H1 H2 Hp1 Hp2). lia.
Qed.

(** The memory-map entries [qos_pmm_init] walks. *)
Definition boot_entries (bi : boot_info) : list mmap_entry :=
  take (Z.to_nat (mmap_entry_count bi)) (mmap_entries bi).

(** What the boot loader guarantees about the handover structure: entries,
    kernel image, boot structure and initramfs do not wrap around. *)
Record boot_ok (kstart kend addr : Z) (bi : boot_info) : Prop := {
  boot_entries_ok : Forall entry_wf (boot_entries bi);
  boot_kernel_ok : 0 <= kstart ∧ kend < 2 ^ 64;
  boot_addr_ok : 0 <= addr ∧ addr + sizeof_boot_info < 2 ^ 64;
  boot_initramfs_ok :
    0 <= initramfs_addr bi ∧ 0 <= initramfs_size bi ∧
    initramfs_addr bi + initramfs_size bi < 2 ^ 64
}.

Lemma pmm_wf_reset : pmm_wf qos_pmm_reset.
Proof. split; simpl; [lia|done|constructor]. Qed.

Lemma pmm_reserve_kernel_image_ok kstart kend s :
  pmm_wf s → 0 <= kstart → kend < 2 ^ 64 →
  let s' := pmm_reserve_kernel_image kstart kend s in
  pmm_wf s' ∧ pmm_le s s' ∧ (kstart ≠ 0 → reserved kstart kend s').
Proof.
  intros Hwf H0 H1. unfold pmm_reserve_kernel_image.
  destruct (Z.eqb_spec kstart 0) as [->|Hne]; simpl; [by split_and!|].
  destruct (Z.ltb_spec kstart kend).
  - destruct (pmm_reserve_range_ok kstart (kend - kstart) s) as (? & ? & Hr);
      [done|lia|unfold in_width; lia|].
    replace (kstart + (kend - kstart)) with kend in Hr by lia. done.
  - split_and!; [done..|]. intros _ f _ ?. lia.
Qed.

(** The four reservations at the end of [qos_pmm_init]. *)
Definition reserve_all (kstart kend addr : Z) (bi : boot_info) (s1 : pmm) : pmm :=
  let s2 := pmm_reserve_range 0 0x100000 s1 in
  let s3 := pmm_reserve_kernel_image kstart kend s2 in
  let s4 := pmm_reserve_range addr sizeof_boot_info s3 in
  if negb (initramfs_size bi =? 0)
  then pmm_reserve_range (initramfs_addr bi) (initramfs_size bi) s4 else s4.

Lemma reserve_all_ok kstart kend addr bi s1 :
  boot_ok kstart kend addr bi → pmm_wf s1 →
  let s := reserve_all kstart kend addr bi s1 in
  pmm_wf s ∧ pmm_le s1 s ∧ reserved 0 0x100000 s ∧
  (kstart ≠ 0 → reserved kstart kend s) ∧
  reserved addr (addr + sizeof_boot_info) s ∧
  reserved (initramfs_addr bi) (initramfs_addr bi + initramfs_size bi) s.
Proof.
  intros [_ [Hk0 Hk1] [Ha0 Ha1] (Hi0 & Hi1 & Hi2)] Hwf1 s. unfold reserve_all in s.
  destruct (pmm_reserve_range_ok 0 0x100000 s1) as (Hwf2 & Hle2 & Hr2);
    [done|lia|unfold in_width; lia|].
  set (s2 := pmm_reserve_range 0 _ s1) in *.
  destruct (pmm_reserve_kernel_image_ok kstart kend s2) as (Hwf3 & Hle3 & Hr3); [done..|].
  set (s3 := pmm_reserve_kernel_image _ _ s2) in *. unfold sizeof_boot_info in *.
  destruct (pmm_reserve_range_ok addr 3144 s3) as (Hwf4 & Hle4 & Hr4);
    [done|lia|unfold in_width; lia|].
  set (s4 := pmm_reserve_range addr _ s3) in *.
  assert (pmm_wf s ∧ pmm_le s4 s ∧
          reserved (initramfs_addr bi) (initramfs_addr bi + initramfs_size bi) s)
    as (Hwf5 & Hle5 & Hr5).
  { unfold s. destruct (Z.eqb_spec (initramfs_size bi) 0) as [Hz|]; simpl.
    - split_and!; [done..|]. rewrite Hz. intros f _ ?. lia.
    - apply pmm_reserve_range_ok; [done|lia|unfold in_width; lia]. }
  clearbody s s4 s3 s2.
  assert (pmm_le s3 s) as L3 by (by etrans). assert (pmm_le s2 s) as L2 by (by etrans).
  split_and!; [done|by etrans|by apply (reserved_mono _ _ s2)| |by apply (reserved_mono _ _ s4)|done].
  intros Hne. by apply (reserved_mono _ _ s3), Hr3.
Qed.

(** What a successful initialisation went through: frames collected from the
    entries, then the reservations. *)
Lemma pmm_init_inv kstart kend addr bi s :
  boot_ok kstart kend addr bi →
  qos_pmm_init kstart kend (Some (addr, bi)) = (0, s) →
  ∃ s1, s = reserve_all kstart kend addr bi s1 ∧ pmm_wf s1 ∧
    length (frames s) = length (frames s1) ∧
    (∀ a, a ∈ frame_addrs s → ∃ e, e ∈ boot_entries bi ∧ page_in_entry a e) ∧
    ((length (frames s1) < QOS_PMM_MAX_PAGES)%nat →
     ∀ e a, e ∈ boot_entries bi → page_in_entry a e → a ∈ frame_addrs s) ∧
    (entries_disjoint (boot_entries bi) → NoDup (frame_addrs s)).
Proof.
  intros Hok. unfold qos_pmm_init. destruct (negb (magic _ =? _)); [done|].
  destruct (_ || _)%bool; [done|]. fold (boot_entries bi).
  destruct (add_entries_spec (boot_entries bi) qos_pmm_reset) as (Hwf1 & new & Hf1 & Hin & Hall & Hnd);
    [apply Hok|apply pmm_wf_reset|].
  set (s1 := fold_left _ _ _) in *. clearbody s1.
  destruct (_ =? _)%nat; [done|]. intros [= Hs].
  destruct (reserve_all_ok kstart kend addr bi s1 Hok Hwf1) as (Hwf & [Hle _] & _).
  change (reserve_all kstart kend addr bi s1 = s) in Hs. rewrite Hs in *.
  assert (frame_addrs s = new) as Hfa.
  { rewrite Hle. unfold frame_addrs. rewrite Hf1. simpl.
    rewrite <- list_fmap_compose. apply list_fmap_id. }
  exists s1. rewrite Hfa. split_and!; try done.
  rewrite Hf1. simpl. rewrite length_fmap, <- Hfa. unfold frame_addrs. by rewrite length_fmap.
Qed.

(** C9: initialisation from a boot structure that does not wrap around: on
    success the free counter is exact, every frame in the table is a page
    lying wholly inside a usable memory-map entry, every such page is in the
    table unless the table is full, no page occurs twice when the entries do
    not overlap, and no frame whose first byte is below 1 MiB, in the kernel
    image, in the boot structure or in the initramfs is free. *)
Theorem pmm_init_sound kstart kend addr bi s :
  boot_ok kstart kend addr bi →
  qos_pmm_init kstart kend (Some (addr, bi)) = (0, s) →
  pmm_wf s ∧
  (∀ a, a ∈ frame_addrs s → ∃ e, e ∈ boot_entries bi ∧ page_in_entry a e) ∧
  ((length (frames s) < QOS_PMM_MAX_PAGES)%nat →
   ∀ e a, e ∈ boot_entries bi → page_in_entry a e → a ∈ frame_addrs s) ∧
  (entries_disjoint (boot_entries bi) → NoDup (frame_addrs s)) ∧
  reserved 0 0x100000 s ∧
  (kstart ≠ 0 → reserved kstart kend s) ∧
  reserved addr (addr + sizeof_boot_info) s ∧
  reserved (initramfs_addr bi) (initramfs_addr bi + initramfs_size bi) s.
Proof.
  intros Hok Hs. destruct (pmm_init_inv _ _ _ _ _ Hok Hs) as (s1 & -> & Hwf1 & -> & Hin & Hall & Hnd).
  destruct (reserve_all_ok kstart kend addr bi s1 Hok Hwf1) as (Hwf & _ & Hres).
  split_and!; (done || apply Hres).
Qed.

(** ** Allocation and release against a map of pages *)

(** The abstract allocator: each managed page is free ([false]) or handed out
    ([true]). *)
Definition page_map (s : pmm) : gmap Z bool :=
  list_to_map ((λ f, (f_addr f, f_used f)) <$> frames s).

Record pmm_ok (s : pmm) : Prop := {
  ok_wf : pmm_wf s;
  ok_nodup : NoDup (frame_addrs s)
}.

Lemma page_map_lookup s a u :
  NoDup (frame_addrs s) →
  page_map s !! a = Some u ↔ {| f_addr := a; f_used := u |} ∈ frames s.
Proof.
  intros Hnd. unfold page_map. rewrite <- elem_of_list_to_map.
  - rewrite list_elem_of_fmap. split.
    + intros ([a' u'] & [= -> ->] & ?). done.
    + intros Hin. by exists {| f_addr := a; f_used := u |}.
  - rewrite <- list_fmap_compose. done.
Qed.

Lemma set_used_eq i u fs f :
  fs !! i = Some f → set_used i u fs = <[i := {| f_addr := f_addr f; f_used := u |}]> fs.
Proof. unfold set_used. by intros ->. Qed.

Lemma frame_addrs_set_used i u s c :
  frame_addrs {| frames := set_used i u (frames s); free_count := c |} = frame_addrs s.
Proof.
  unfold frame_addrs. simpl. unfold set_used. destruct (frames s !! i) as [f|] eqn:Hf; [|done].
  rewrite list_fmap_insert. apply list_insert_id. rewrite list_lookup_fmap, Hf. done.
Qed.

Lemma page_map_set_used i u s c f :
  NoDup (frame_addrs s) → frames s !! i = Some f →
  page_map {| frames := set_used i u (frames s); free_count := c |}
  = <[f_addr f := u]> (page_map s).
Proof.
  intros Hnd Hf. apply map_eq. intros a. apply option_eq. intros v.
  rewrite page_map_lookup by (by rewrite frame_addrs_set_used). simpl.
  rewrite (set_used_eq _ _ _ _ Hf), lookup_insert. pose proof (lookup_lt_Some _ _ _ Hf).
  rewrite list_elem_of_lookup. case_decide as Ha; subst.
  - split; [|intros [= <-]; exists i; by apply list_lookup_insert_eq].
    intros (j & [(<- & [= ->] & _)|(Hij & Hj)]%list_lookup_insert_Some); [done|].
    exfalso. apply Hij. eapply (NoDup_lookup _ i j (f_addr f) Hnd);
      unfold frame_addrs; rewrite list_lookup_fmap; [by rewrite Hf|by rewrite Hj].
  - rewrite page_map_lookup, list_elem_of_lookup by done. split; intros (j & Hj); exists j.
    + apply list_lookup_insert_Some in Hj as [(<- & Heq & _)|(_ & Hj)]; [|done]. by simplify_eq.
    + rewrite list_lookup_insert_ne; [done|]. intros <-. rewrite Hf in Hj. by simplify_eq.
Qed.

Lemma pmm_ok_set_used i u s f d :
  pmm_ok s → frames s !! i = Some f → f_used f = negb u →
  d = (if u then -1 else 1) →
  pmm_ok {| frames := set_used i u (frames s); free_count := u32 (free_count s + d) |}.
Proof.
  intros [Hwf Hnd] Hf Hu ->. pose proof (pmm_wf_free_range _ Hwf) as [Hr0 Hr1].
  destruct Hwf as [Hl Hfc Ha].
  split; [|by rewrite frame_addrs_set_used]. split; simpl.
  - rewrite (set_used_eq _ _ _ _ Hf), length_insert. done.
  - rewrite (set_used_eq _ _ _ _ Hf).
    pose proof (count_if_insert free_frame (frames s) i f {| f_addr := f_addr f; f_used := u |} Hf) as Hc.
    pose proof (count_if_le free_frame (<[i:={| f_addr := f_addr f; f_used := u |}]> (frames s))) as Hle.
    rewrite length_insert in Hle. unfold free_frame at 2 4 in Hc. simpl in Hc. rewrite Hu in Hc.
    rewrite wrap_small; unfold in_width, QOS_PMM_MAX_PAGES in *; destruct u; simpl in Hc; lia.
  - rewrite (set_used_eq _ _ _ _ Hf). apply Forall_insert; [done|]. simpl.
    by apply (Forall_lookup_1 _ _ _ _ Ha Hf).
Qed.

(** Allocation returns a page that was free and marks exactly that page as
    handed out, or, when no page is free, returns [QOS_PMM_PAGE_NONE]. *)
Lemma pmm_alloc_spec s :
  pmm_ok s →
  let '(p, s') := qos_pmm_alloc_page s in
  pmm_ok s' ∧
  ((page_map s !! p = Some false ∧ p ≠ QOS_PMM_PAGE_NONE ∧
    page_map s' = <[p := true]> (page_map s)) ∨
   (p = QOS_PMM_PAGE_NONE ∧ s' = s ∧ ∀ a, page_map s !! a ≠ Some false)).
Proof.
  intros Hok. pose proof Hok as [Hwf Hnd]. unfold qos_pmm_alloc_page.
  destruct (first_index _ _) as [i|] eqn:E.
  - apply first_index_lookup in E as ([a u] & Hf & Hu). rewrite Hf. simpl in *. b2p. subst u.
    split; [by eapply pmm_ok_set_used|]. left. split_and!.
    + apply page_map_lookup; [done|]. by eapply list_elem_of_lookup_2.
    + pose proof (Forall_lookup_1 _ _ _ _ (wf_addr _ Hwf) Hf) as [Hal _]. simpl in Hal.
      intros ->. done.
    + by apply (page_map_set_used i true s _ _ Hnd Hf).
  - split; [done|]. right. split_and!; [done..|]. intros a Ha.
    apply page_map_lookup in Ha as (i & Hi)%list_elem_of_lookup; [|done].
    rewrite first_index_None in E. by specialize (E _ _ Hi).
Qed.

(** Release succeeds exactly on a page that is handed out; any other argument
    (unaligned, unknown, already free) is refused with [-1]. *)
Lemma pmm_free_spec s p :
  pmm_ok s → in_width 64 p →
  let '(r, s') := qos_pmm_free_page p s in
  pmm_ok s' ∧
  ((r = 0 ∧ page_map s !! p = Some true ∧ page_map s' = <[p := false]> (page_map s)) ∨
   (r = -1 ∧ page_map s !! p ≠ Some true ∧ s' = s)).
Proof.
  intros Hok [Hp _]. pose proof Hok as [Hwf Hnd]. unfold qos_pmm_free_page.
  rewrite land_page_mask by done. destruct (Z.eqb_spec (p mod QOS_PAGE_SIZE) 0) as [Hal|Hal]; simpl.
  2:{ split; [done|]. right. split_and!; [done| |done]. intros Hm.
      apply page_map_lookup in Hm as (i & Hi)%list_elem_of_lookup; [|done].
      pose proof (Forall_lookup_1 _ _ _ _ (wf_addr _ Hwf) Hi) as [H _]. done. }
  destruct (first_index _ _) as [i|] eqn:E.
  - apply first_index_lookup in E as ([a u] & Hf & Ha). rewrite Hf. simpl in *. b2p. subst a.
    assert (page_map s !! p = Some u) as Hm.
    { apply page_map_lookup; [done|]. by eapply list_elem_of_lookup_2. }
    destruct u; simpl.
    + split; [by eapply pmm_ok_set_used|]. left. split_and!; [done..|].
      by apply (page_map_set_used i false s _ _ Hnd Hf).
    + split; [done|]. right. split_and!; [done|congruence|done].
  - split; [done|]. right. split_and!; [done| |done]. intros Hm.
    apply page_map_lookup in Hm as (i & Hi)%list_elem_of_lookup; [|done].
    rewrite first_index_None in E. specialize (E _ _ Hi). simpl in E. b2p. done.
Qed.

(** ** Sequences of allocator calls *)

Inductive pmm_call := Alloc | Free (p : Z).

Definition pmm_exec (c : pmm_call) (s : pmm) : Z * pmm :=
  match c with
  | Alloc => qos_pmm_alloc_page s
  | Free p => qos_pmm_free_page p s
  end.

(** The page-map specification: call, result and the maps before and after. *)
Inductive page_spec (m : gmap Z bool) : pmm_call → Z → gmap Z bool → Prop :=
| spec_alloc p :
    m !! p = Some false → p ≠ QOS_PMM_PAGE_NONE → page_spec m Alloc p (<[p := true]> m)
| spec_alloc_none :
    (∀ a, m !! a ≠ Some false) → page_spec m Alloc QOS_PMM_PAGE_NONE m
| spec_free p : m !! p = Some true → page_spec m (Free p) 0 (<[p := false]> m)
| spec_free_refused p : m !! p ≠ Some true → page_spec m (Free p) (-1) m.

Definition call_ok (c : pmm_call) : Prop :=
  match c with Alloc => True | Free p => in_width 64 p end.

Lemma pmm_exec_refines c s :
  pmm_ok s → call_ok c →
  let '(r, s') := pmm_exec c s in
  pmm_ok s' ∧ page_spec (page_map s) c r (page_map s').
Proof.
  intros Hok Hc. destruct c as [|p]; simpl.
  - pose proof (pmm_alloc_spec s Hok) as H. destruct (qos_pmm_alloc_page s) as [p s'].
    destruct H as (? & [(? & ? & ->)|(-> & -> & ?)]); (split; [done|by constructor]).
  - pose proof (pmm_free_spec s p Hok Hc) as H. destruct (qos_pmm_free_page p s) as [r s'].
    destruct H as (? & [(-> & ? & ->)|(-> & ? & ->)]); (split; [done|by constructor]).
Qed.

(** Running a list of calls; the trace pairs each call with its result. *)
Fixpoint pmm_run (cs : list pmm_call) (s : pmm) : list (pmm_call * Z) * pmm :=
  match cs with
  | [] => ([], s)
  | c :: cs' =>
      let '(r, s1) := pmm_exec c s in
      let '(tr, s2) := pmm_run cs' s1 in ((c, r) :: tr, s2)
  end.

Inductive page_run_spec (m : gmap Z bool) : list (pmm_call * Z) → gmap Z bool → Prop :=
| prs_nil : page_run_spec m [] m
| prs_cons c r m1 tr m2 :
    page_spec m c r m1 → page_run_spec m1 tr m2 → page_run_spec m ((c, r) :: tr) m2.

Lemma pmm_run_refines cs s :
  pmm_ok s → Forall call_ok cs →
  let '(tr, s') := pmm_run cs s in pmm_ok s' ∧ page_run_spec (page_map s) tr (page_map s').
Proof.
  revert s. induction cs as [|c cs IH]; intros s Hok Hcs; simpl; [split; [done|constructor]|].
  apply Forall_cons in Hcs as [Hc Hcs]. pose proof (pmm_exec_refines c s Hok Hc) as He.
  destruct (pmm_exec c s) as [r s1]. destruct He as [Hok1 Hspec].
  specialize (IH s1 Hok1 Hcs). destruct (pmm_run cs s1) as [tr s2].
  destruct IH. split; [done|]. by econstructor.
Qed.

(** In the specification, a page that is out is not handed out again before
    it is released. *)
Lemma page_run_spec_taken m tr m' p :
  page_run_spec m tr m' → m !! p = Some true → (Free p, 0) ∉ tr →
  p ≠ QOS_PMM_PAGE_NONE → (Alloc, p) ∉ tr.
Proof.
  induction 1 as [m|m c r m1 tr m2 Hs _ IH]; intros Hp Hnf Hne; [by intros ?%elem_of_nil|].
  assert ((Free p, 0) ∉ tr) as Hnf' by set_solver.
  rewrite elem_of_cons. intros [[= <- <-]|Hin].
  - inversion Hs; simplify_eq.
  - revert Hin. apply IH; [|done..].
    inversion Hs; subst; rewrite ?lookup_insert; try case_decide; subst; try done. set_solver.
Qed.

Lemma pmm_init_ok kstart kend addr bi s :
  boot_ok kstart kend addr bi → entries_disjoint (boot_entries bi) →
  qos_pmm_init kstart kend (Some (addr, bi)) = (0, s) → pmm_ok s.
Proof.
  intros Hok Hd Hs. destruct (pmm_init_inv _ _ _ _ _ Hok Hs) as (s1 & -> & Hwf1 & _ & _ & _ & Hnd).
  split; [by apply reserve_all_ok|by apply Hnd].
Qed.

(** C10: from a successful boot with non-overlapping memory-map entries, every
    sequence of allocations and releases behaves as the page-map
    specification: an allocation returns a page that is free or reports that
    none is, a release succeeds exactly on pages that are out. (The boot
    structure itself does not run past the end of the address space.) *)
Theorem pmm_refines_page_map kstart kend addr bi s cs :
  boot_ok kstart kend addr bi → entries_disjoint (boot_entries bi) →
  qos_pmm_init kstart kend (Some (addr, bi)) = (0, s) → Forall call_ok cs →
  let '(tr, s') := pmm_run cs s in
  page_run_spec (page_map s) tr (page_map s') ∧
  qos_pmm_free_pages s' = Z.of_nat (count_if free_frame (frames s')).
Proof.
  intros Hok Hd Hs Hcs. pose proof (pmm_run_refines cs s (pmm_init_ok _ _ _ _ _ Hok Hd Hs) Hcs) as H.
  destruct (pmm_run cs s) as [tr s']. destruct H as [[Hwf _] ?]. split; [done|apply Hwf].
Qed.

(** exclusive ownership: along any sequence of allocator calls, a page
    that has been handed out is not handed out again unless it has been
    released in between. *)
Theorem pmm_no_double_alloc s cs tr1 p tr2 s' :
  pmm_ok s → Forall call_ok cs → p ≠ QOS_PMM_PAGE_NONE →
  pmm_run cs s = (tr1 ++ (Alloc, p) :: tr2, s') →
  (Free p, 0) ∉ tr2 → (Alloc, p) ∉ tr2.
Proof.
  intros Hok Hcs Hp Hr Hnf. pose proof (pmm_run_refines cs s Hok Hcs) as H. rewrite Hr in H.
  destruct H as [_ H]. revert H. generalize (page_map s). clear Hr Hok.
  induction tr1 as [|[c r] tr1 IH]; intros m H; inversion H as [|? ? m1 ? ? Hs Hrun]; subst.
  - eapply page_run_spec_taken; [done| |done..].
    inversion Hs; subst; [apply lookup_insert_eq|done].
  - by eapply IH.
Qed.

(** ** Concrete runs *)

(** 4 MiB at 0 and 64 KiB at 16 MiB usable, an ACPI region in between. *)
Definition demo_boot (initrd : Z) : boot_info :=
  {| magic := QOS_BOOT_MAGIC; mmap_entry_count := 3;
     mmap_entries :=
       [ {| mmap_base := 0; mmap_length := 0x400000; mmap_type := 1 |};
         {| mmap_base := 0x400000; mmap_length := 0x10000; mmap_type := 3 |};
         {| mmap_base := 0x1000000; mmap_length := 0x10000; mmap_type := 1 |} ];
     initramfs_addr := initrd; initramfs_size := 0x3000 |}.

Definition demo_pmm (addr initrd : Z) : pmm :=
  (qos_pmm_init 0x100000 0x180000 (Some (addr, demo_boot initrd))).2.

Lemma demo_boot_ok addr initrd :
  0 <= addr < 0x400000 → 0 <= initrd < 0x400000 →
  boot_ok 0x100000 0x180000 addr (demo_boot initrd).
Proof.
  intros. split; simpl; [|lia|unfold sizeof_boot_info; lia|lia].
  repeat constructor; simpl; lia.
Qed.

Lemma demo_entries_disjoint initrd : entries_disjoint (boot_entries (demo_boot initrd)).
Proof.
  intros i j e e' a Hi Hj (Hu & _ & Hlo & Hhi) (Hu' & _ & Hlo' & Hhi').
  unfold QOS_PAGE_SIZE, boot_entries in *. simpl in Hi, Hj.
  destruct i as [|[|[|i]]], j as [|[|[|j]]]; simplify_eq/=; (done || lia).
Qed.

Lemma demo_pmm_ok : pmm_ok (demo_pmm 0x200000 0x300000).
Proof.
  apply (pmm_init_ok 0x100000 0x180000 0x200000 (demo_boot 0x300000)).
  - by apply demo_boot_ok.
  - apply demo_entries_disjoint.
  - by vm_compute.
Qed.

Lemma pmm_init_sound_witness :
  qos_pmm_free_pages (demo_pmm 0x200000 0x300000) = 652 ∧
  reserved 0x200000 (0x200000 + sizeof_boot_info) (demo_pmm 0x200000 0x300000).
Proof.
  split; [by vm_compute|].
  apply (pmm_init_sound 0x100000 0x180000 0x200000 (demo_boot 0x300000)).
  - by apply demo_boot_ok.
  - by vm_compute.
Defined.

(** Two allocations, a release, a double release. *)
Definition demo_calls : list pmm_call :=
  [Alloc; Alloc; Free 0x180000; Alloc; Free 0x181000; Free 0x181000].

Lemma demo_calls_ok : Forall call_ok demo_calls.
Proof. repeat constructor; simpl; unfold in_width; lia. Qed.

Lemma pmm_refines_page_map_witness :
  page_run_spec (page_map (demo_pmm 0x200000 0x300000))
    [(Alloc, 0x180000); (Alloc, 0x181000); (Free 0x180000, 0); (Alloc, 0x180000);
     (Free 0x181000, 0); (Free 0x181000, -1)]
    (page_map (pmm_run demo_calls (demo_pmm 0x200000 0x300000)).2).
Proof.
  pose proof (pmm_refines_page_map 0x100000 0x180000 0x200000 (demo_boot 0x300000)
    (demo_pmm 0x200000 0x300000) demo_calls
    ltac:(by apply demo_boot_ok) (demo_entries_disjoint _)
    ltac:(by vm_compute) demo_calls_ok) as H.
  assert ((pmm_run demo_calls (demo_pmm 0x200000 0x300000)).1 =
    [(Alloc, 0x180000); (Alloc, 0x181000); (Free 0x180000, 0); (Alloc, 0x180000);
     (Free 0x181000, 0); (Free 0x181000, -1)]) as <- by (by vm_compute).
  destruct (pmm_run demo_calls (demo_pmm 0x200000 0x300000)). apply H.
Defined.

Lemma pmm_no_double_alloc_witness :
  (Alloc, 0x181000) ∉ [(Free 0x180000, 0); (Alloc, 0x180000)].
Proof.
  apply (pmm_no_double_alloc (demo_pmm 0x200000 0x300000) (take 4 demo_calls)
           [(Alloc, 0x180000)] 0x181000 _
           (pmm_run (take 4 demo_calls) (demo_pmm 0x200000 0x300000)).2).
  - apply demo_pmm_ok.
  - apply Forall_take, demo_calls_ok.
  - done.
  - by vm_compute.
  - rewrite !not_elem_of_cons. split_and!; [done..|apply not_elem_of_nil].
Defined.

(** reservations only look at a frame's first byte.  A boot structure that
    does not start on a page boundary leaves the frame holding its first bytes
    free: the very first allocation hands out a page that overlaps it. *)
Theorem pmm_unaligned_boot_info_handed_out :
  ∃ addr bi s p s',
    boot_ok 0x100000 0x180000 addr bi ∧
    qos_pmm_init 0x100000 0x180000 (Some (addr, bi)) = (0, s) ∧
    qos_pmm_alloc_page s = (p, s') ∧
    p < addr + sizeof_boot_info ∧ addr < p + QOS_PAGE_SIZE.
Proof.
  exists 0x180010, (demo_boot 0x300000), (demo_pmm 0x180010 0x300000), 0x180000,
    (qos_pmm_alloc_page (demo_pmm 0x180010 0x300000)).2.
  split_and!; [by apply demo_boot_ok|by vm_compute..].
Qed.
