(* ===== verification/Vmm.v ===== *)
(** * Virtual mappings per address space (c-os/kernel/mm/mm.c)

    The parallel arrays [g_vas], [g_pas], [g_vflags], [g_vused] are one list
    of slots per address space. *)

From S2P Require Import Prelude SlotTable Pmm.

Definition QOS_VMM_MAX_MAPPINGS : nat := 2048.
Definition QOS_VMM_MAX_AS : nat := 64.

Record mapping := { v_used : bool; v_va : Z; v_pa : Z; v_flags : Z }.

#[export] Instance mapping_slotted : Slotted mapping := v_used.
#[export] Instance mapping_keyed : Keyed mapping Z := v_va.

Record vmm := { spaces : list (list mapping); vmm_asid : Z }.

Definition mapping_zero : mapping := {| v_used := false; v_va := 0; v_pa := 0; v_flags := 0 |}.

Definition qos_vmm_reset : vmm :=
  {| spaces := replicate QOS_VMM_MAX_AS (replicate QOS_VMM_MAX_MAPPINGS mapping_zero);
     vmm_asid := 0 |}.

Definition asid_valid (asid : Z) : bool := asid <? Z.of_nat QOS_VMM_MAX_AS.

Definition qos_vmm_set_asid (asid : Z) (s : vmm) : vmm :=
  if asid_valid asid then {| spaces := spaces s; vmm_asid := asid |} else s.

Definition qos_vmm_get_asid (s : vmm) : Z := vmm_asid s.

(** Row [asid] of the arrays. *)
Definition row (asid : Z) (s : vmm) : list mapping :=
  default [] (spaces s !! Z.to_nat asid).

Definition set_row (asid : Z) (r : list mapping) (s : vmm) : vmm :=
  {| spaces := <[Z.to_nat asid := r]> (spaces s); vmm_asid := vmm_asid s |}.

Definition vmm_find (asid page_va : Z) (s : vmm) : option nat :=
  if negb (asid_valid asid) then None else find_key page_va (row asid s).

Definition vmm_free_slot (asid : Z) (s : vmm) : option nat :=
  if negb (asid_valid asid) then None else free_slot (row asid s).

Definition offset_of (va : Z) : Z := Z.land va (QOS_PAGE_SIZE - 1).

Definition qos_vmm_map_as (asid va pa flags : Z) (s : vmm) : Z * vmm :=
  let page_va := align_down va in
  if negb (asid_valid asid) then (-1, s)
  else if flags =? 0 then (-1, s)
  else if negb (offset_of va =? 0) || negb (offset_of pa =? 0) then (-1, s)
  else
    match vmm_find asid page_va s with
    | Some idx =>
        match row asid s !! idx with
        | Some m =>
            (0, set_row asid (<[idx := {| v_used := v_used m; v_va := v_va m;
                                          v_pa := pa; v_flags := flags |}]> (row asid s)) s)
        | None => (-1, s)
        end
    | None =>
        match vmm_free_slot asid s with
        | Some idx =>
            (0, set_row asid (<[idx := {| v_used := true; v_va := page_va;
                                          v_pa := pa; v_flags := flags |}]> (row asid s)) s)
        | None => (-1, s)
        end
    end.

Definition qos_vmm_map (va pa flags : Z) (s : vmm) : Z * vmm :=
  qos_vmm_map_as (vmm_asid s) va pa flags s.

Definition qos_vmm_unmap_as (asid va : Z) (s : vmm) : Z * vmm :=
  let page_va := align_down va in
  if negb (asid_valid asid) then (-1, s)
  else if negb (offset_of va =? 0) then (-1, s)
  else
    match vmm_find asid page_va s with
    | Some idx => (0, set_row asid (<[idx := mapping_zero]> (row asid s)) s)
    | None => (-1, s)
    end.

Definition qos_vmm_unmap (va : Z) (s : vmm) : Z * vmm := qos_vmm_unmap_as (vmm_asid s) va s.

Definition qos_vmm_translate_as (asid va : Z) (s : vmm) : Z :=
  let page_va := align_down va in
  let offset := offset_of va in
  if negb (asid_valid asid) then 0
  else
    match vmm_find asid page_va s ≫= (row asid s !!.) with
    | Some m => u64 (v_pa m + offset)
    | None => 0
    end.

Definition qos_vmm_translate (va : Z) (s : vmm) : Z := qos_vmm_translate_as (vmm_asid s) va s.

Definition qos_vmm_flags_as (asid va : Z) (s : vmm) : Z :=
  let page_va := align_down va in
  if negb (asid_valid asid) then 0
  else
    match vmm_find asid page_va s ≫= (row asid s !!.) with
    | Some m => v_flags m
    | None => 0
    end.

Definition qos_vmm_flags (va : Z) (s : vmm) : Z := qos_vmm_flags_as (vmm_asid s) va s.

Definition qos_vmm_mapping_count_as (asid : Z) (s : vmm) : Z :=
  if negb (asid_valid asid) then 0 else Z.of_nat (count_used (row asid s)).

Definition qos_vmm_mapping_count (s : vmm) : Z := qos_vmm_mapping_count_as (vmm_asid s) s.

(** The scan of [qos_vmm_mapping_get_as] with its [seen] counter. *)
Fixpoint mapping_scan (ordinal seen : Z) (r : list mapping) : option mapping :=
  match r with
  | [] => None
  | m :: r' =>
      if v_used m then
        if seen =? ordinal then Some m else mapping_scan ordinal (u32 (seen + 1)) r'
      else mapping_scan ordinal seen r'
  end.

(** [outs]: whether all three output pointers are non-NULL; on success the
    written triple is returned. *)
Definition qos_vmm_mapping_get_as (asid ordinal : Z) (outs : bool) (s : vmm)
  : Z * option (Z * Z * Z) :=
  if negb (asid_valid asid) || negb outs then (-1, None)
  else
    match mapping_scan ordinal 0 (row asid s) with
    | Some m => (0, Some (v_va m, v_pa m, v_flags m))
    | None => (-1, None)
    end.

Definition qos_vmm_mapping_get (ordinal : Z) (outs : bool) (s : vmm) : Z * option (Z * Z * Z) :=
  qos_vmm_mapping_get_as (vmm_asid s) ordinal outs s.

(** ** Specification: one finite map per address space *)

(** Page address to physical page and flags. *)
Abbreviation pagemap := (gmap Z (Z * Z)).

Record vspec := { vs_maps : list pagemap; vs_cur : Z }.

Definition entry_of (m : mapping) : Z * Z := (v_pa m, v_flags m).
Definition row_map (r : list mapping) : pagemap := entry_of <$> (table_map r : gmap Z mapping).
Definition vmm_abs (s : vmm) : vspec :=
  {| vs_maps := row_map <$> spaces s; vs_cur := vmm_asid s |}.

Definition spec_row (asid : Z) (S : vspec) : pagemap := default ∅ (vs_maps S !! Z.to_nat asid).
Definition spec_set (asid : Z) (m : pagemap) (S : vspec) : vspec :=
  {| vs_maps := <[Z.to_nat asid := m]> (vs_maps S); vs_cur := vs_cur S |}.

Inductive vmm_op :=
| OpSetAsid (asid : Z)
| OpMap (asid va pa flags : Z)
| OpUnmap (asid va : Z).

Definition vmm_exec (op : vmm_op) (s : vmm) : Z * vmm :=
  match op with
  | OpSetAsid asid => (0, qos_vmm_set_asid asid s)
  | OpMap asid va pa flags => qos_vmm_map_as asid va pa flags s
  | OpUnmap asid va => qos_vmm_unmap_as asid va s
  end.

Definition aligned_b (a : Z) : bool := a mod QOS_PAGE_SIZE =? 0.

Definition spec_exec (op : vmm_op) (S : vspec) : Z * vspec :=
  match op with
  | OpSetAsid asid =>
      (0, if asid <? 64 then {| vs_maps := vs_maps S; vs_cur := asid |} else S)
  | OpMap asid va pa flags =>
      let m := spec_row asid S in
      if (asid <? 64) && negb (flags =? 0) && aligned_b va && aligned_b pa &&
         (bool_decide (is_Some (m !! va)) || (size m <? 2048)%nat)
      then (0, spec_set asid (<[va := (pa, flags)]> m) S)
      else (-1, S)
  | OpUnmap asid va =>
      let m := spec_row asid S in
      if (asid <? 64) && aligned_b va && bool_decide (is_Some (m !! va))
      then (0, spec_set asid (delete va m) S)
      else (-1, S)
  end.

(** ** Invariant *)

Record mapping_wf (m : mapping) : Prop := {
  mw_va : page_aligned (v_va m) ∧ in_width 64 (v_va m);
  mw_pa : page_aligned (v_pa m) ∧ in_width 64 (v_pa m);
  mw_flags : v_flags m ≠ 0
}.

Record row_wf (r : list mapping) : Prop := {
  rw_len : length r = QOS_VMM_MAX_MAPPINGS;
  rw_unique : unique_keys r;
  rw_live : ∀ i m, r !! i = Some m → v_used m = true → mapping_wf m
}.

Record vmm_wf (s : vmm) : Prop := {
  vw_len : length (spaces s) = QOS_VMM_MAX_AS;
  vw_rows : ∀ i r, spaces s !! i = Some r → row_wf r;
  vw_cur : 0 <= vmm_asid s < Z.of_nat QOS_VMM_MAX_AS
}.

Definition op_ok (op : vmm_op) : Prop :=
  match op with
  | OpSetAsid asid => 0 <= asid
  | OpMap asid va pa _ => 0 <= asid ∧ in_width 64 va ∧ in_width 64 pa
  | OpUnmap asid va => 0 <= asid ∧ in_width 64 va
  end.

Lemma row_wf_reset : row_wf (replicate QOS_VMM_MAX_MAPPINGS mapping_zero).
Proof.
  split.
  - apply length_replicate.
  - by apply unique_keys_replicate.
  - by intros i m [-> _]%lookup_replicate.
Qed.

Lemma vmm_wf_reset : vmm_wf qos_vmm_reset.
Proof.
  split; [apply length_replicate| |done].
  intros i r [-> _]%lookup_replicate. apply row_wf_reset.
Qed.

Lemma asid_valid_row asid s :
  vmm_wf s → 0 <= asid → asid_valid asid = true →
  spaces s !! Z.to_nat asid = Some (row asid s) ∧ row_wf (row asid s).
Proof.
  intros Hwf H0 Hv. unfold asid_valid in Hv. b2p. unfold row.
  destruct (lookup_lt_is_Some_2 (spaces s) (Z.to_nat asid)) as [r Hr].
  { rewrite (vw_len _ Hwf). lia. }
  rewrite Hr. split; [done|]. by eapply vw_rows.
Qed.

Lemma spec_row_abs asid s : vmm_wf s → 0 <= asid → asid_valid asid = true →
  spec_row asid (vmm_abs s) = row_map (row asid s).
Proof.
  intros Hwf H0 Hv. destruct (asid_valid_row asid s Hwf H0 Hv) as [Hr _].
  unfold spec_row. simpl. by rewrite list_lookup_fmap, Hr.
Qed.

Lemma vmm_wf_set_row asid r s : vmm_wf s → row_wf r → vmm_wf (set_row asid r s).
Proof.
  intros [Hl Hr Hc] Hwf. split; simpl; [by rewrite length_insert| |done].
  intros i r' [(_ & <- & _)|(_ & Hi)]%list_lookup_insert_Some; eauto.
Qed.

Lemma vmm_abs_set_row asid r s :
  vmm_abs (set_row asid r s) = spec_set asid (row_map r) (vmm_abs s).
Proof. unfold vmm_abs, spec_set, set_row. simpl. by rewrite list_fmap_insert. Qed.

Lemma offset_of_aligned a : in_width 64 a → (offset_of a =? 0) = aligned_b a.
Proof. intros [? _]. unfold offset_of. by rewrite land_page_mask. Qed.

Lemma align_down_aligned a : in_width 64 a → aligned_b a = true → align_down a = a.
Proof.
  intros Ha Hal. unfold aligned_b in Hal. b2p. rewrite align_down_eq by done.
  pose proof (Z.div_mod a QOS_PAGE_SIZE ltac:(done)). lia.
Qed.

(** Reading the page map of a row through the scan of the code. *)
Lemma row_map_lookup r va :
  row_map r !! va = entry_of <$> (find_key va r ≫= (r !!.)).
Proof. unfold row_map. by rewrite lookup_fmap, table_map_lookup. Qed.

Lemma row_map_is_Some r va : is_Some (row_map r !! va) ↔ is_Some (find_key va r).
Proof.
  unfold row_map. rewrite lookup_fmap, fmap_is_Some, <- !not_eq_None_Some.
  by rewrite table_map_None.
Qed.

Lemma row_map_size r : row_wf r → size (row_map r) = count_used r.
Proof. intros Hr. unfold row_map. rewrite map_size_fmap. apply table_map_size, Hr. Qed.

Lemma row_wf_insert r i m :
  row_wf r → unique_keys (<[i:=m]> r) → (v_used m = true → mapping_wf m) →
  row_wf (<[i:=m]> r).
Proof.
  intros [Hl Hu Hm] Hu' Hw. split; [by rewrite length_insert|done|].
  intros j m' [(_ & <- & _)|(_ & Hj)]%list_lookup_insert_Some; eauto.
Qed.

(** A row has room exactly when fewer than 2048 pages are mapped. *)
Lemma row_full r : row_wf r → free_slot r = None ↔ (size (row_map r) <? 2048)%nat = false.
Proof.
  intros Hr. rewrite free_slot_None, row_map_size, (rw_len _ Hr) by done.
  rewrite Nat.ltb_ge. pose proof (count_if_le slot_used r) as Hle.
  rewrite (rw_len _ Hr) in Hle. unfold count_used, QOS_VMM_MAX_MAPPINGS in *. lia.
Qed.

(** Mapping at the level of a row: in place when the page is mapped, in a
    free slot otherwise. *)
Lemma row_remap r i va pa flags m :
  row_wf r → find_key va r = Some i → r !! i = Some m →
  page_aligned pa → in_width 64 pa → flags ≠ 0 →
  let r' := <[i := {| v_used := v_used m; v_va := v_va m; v_pa := pa; v_flags := flags |}]> r in
  row_wf r' ∧ row_map r' = <[va := (pa, flags)]> (row_map r).
Proof.
  intros Hr Hf Hm Hal Hpa Hfl r'. pose proof Hf as (m0 & Hm0 & Hu & Hk)%find_key_Some.
  assert (m0 = m) as -> by congruence. subst va. destruct (rw_live _ Hr _ _ Hm Hu) as [Hva _ _].
  set (m' := {| v_used := v_used m; v_va := v_va m; v_pa := pa; v_flags := flags |}) in r'.
  destruct (table_map_update r i (slot_key m) m' (rw_unique _ Hr) Hf Hu eq_refl) as [Hu' Hmap].
  split; [apply row_wf_insert; [done..|]; by split|].
  unfold row_map, r'. rewrite Hmap, fmap_insert. done.
Qed.

Lemma row_map_new r i va pa flags :
  row_wf r → find_key va r = None → free_slot r = Some i →
  page_aligned va → in_width 64 va → page_aligned pa → in_width 64 pa → flags ≠ 0 →
  let r' := <[i := {| v_used := true; v_va := va; v_pa := pa; v_flags := flags |}]> r in
  row_wf r' ∧ row_map r' = <[va := (pa, flags)]> (row_map r).
Proof.
  intros Hr Hf (b & Hb & Hub)%free_slot_Some Hva1 Hva2 Hpa1 Hpa2 Hfl r'.
  set (m' := {| v_used := true; v_va := va; v_pa := pa; v_flags := flags |}) in r'.
  destruct (table_map_alloc r i b m' (rw_unique _ Hr) Hb Hub eq_refl Hf) as [Hu' Hmap].
  split; [apply row_wf_insert; [done..|]; by split|].
  unfold row_map, r'. rewrite Hmap, fmap_insert. done.
Qed.

Lemma row_unmap r i va :
  row_wf r → find_key va r = Some i →
  let r' := <[i := mapping_zero]> r in
  row_wf r' ∧ row_map r' = delete va (row_map r).
Proof.
  intros Hr Hf r'.
  destruct (table_map_release r i va mapping_zero (rw_unique _ Hr) Hf eq_refl) as [Hu' Hmap].
  split; [by apply row_wf_insert|]. unfold row_map, r'. by rewrite Hmap, fmap_delete.
Qed.

Lemma vmm_map_refines asid va pa flags s :
  vmm_wf s → op_ok (OpMap asid va pa flags) →
  let '(r, s') := qos_vmm_map_as asid va pa flags s in
  vmm_wf s' ∧ spec_exec (OpMap asid va pa flags) (vmm_abs s) = (r, vmm_abs s').
Proof.
  intros Hwf (H0 & Hva & Hpa). unfold qos_vmm_map_as. simpl.
  change (asid <? 64) with (asid_valid asid).
  destruct (asid_valid asid) eqn:Hv; simpl; [|done].
  destruct (Z.eqb_spec flags 0) as [|Hfl]; simpl; [done|].
  rewrite !offset_of_aligned by done.
  destruct (aligned_b va) eqn:Ha; simpl; [|done].
  destruct (aligned_b pa) eqn:Hp; simpl; [|done].
  destruct (asid_valid_row asid s Hwf H0 Hv) as [_ Hr].
  rewrite align_down_aligned, spec_row_abs by done. unfold vmm_find, vmm_free_slot. rewrite Hv. simpl.
  unfold aligned_b in Ha, Hp. b2p.
  destruct (find_key va (row asid s)) as [i|] eqn:Hf.
  - rewrite bool_decide_true by (apply row_map_is_Some; by rewrite Hf). simpl.
    destruct (find_key_Some _ _ _ Hf) as (m & Hm & _). rewrite Hm.
    destruct (row_remap _ i va pa flags m Hr Hf Hm) as [Hr' <-]; [done..|].
    rewrite vmm_abs_set_row. split; [by apply vmm_wf_set_row|done].
  - rewrite bool_decide_false by (rewrite row_map_is_Some, Hf; by intros []). simpl.
    destruct (free_slot (row asid s)) as [i|] eqn:Hs.
    + destruct (Nat.ltb _ _) eqn:Hlt; [|apply row_full in Hlt; [congruence|done]].
      destruct (row_map_new _ i va pa flags Hr Hf Hs) as [Hr' <-]; [done..|].
      rewrite vmm_abs_set_row. split; [by apply vmm_wf_set_row|done].
    + rewrite (proj1 (row_full _ Hr) Hs). done.
Qed.

Lemma vmm_unmap_refines asid va s :
  vmm_wf s → op_ok (OpUnmap asid va) →
  let '(r, s') := qos_vmm_unmap_as asid va s in
  vmm_wf s' ∧ spec_exec (OpUnmap asid va) (vmm_abs s) = (r, vmm_abs s').
Proof.
  intros Hwf (H0 & Hva). unfold qos_vmm_unmap_as. simpl.
  change (asid <? 64) with (asid_valid asid).
  destruct (asid_valid asid) eqn:Hv; simpl; [|done]. rewrite offset_of_aligned by done.
  destruct (aligned_b va) eqn:Ha; simpl; [|done].
  destruct (asid_valid_row asid s Hwf H0 Hv) as [_ Hr].
  rewrite align_down_aligned, spec_row_abs by done. unfold vmm_find. rewrite Hv. simpl.
  destruct (find_key va (row asid s)) as [i|] eqn:Hf.
  - rewrite bool_decide_true by (apply row_map_is_Some; by rewrite Hf).
    destruct (row_unmap _ i va Hr Hf) as [Hr' <-].
    rewrite vmm_abs_set_row. split; [by apply vmm_wf_set_row|done].
  - rewrite bool_decide_false by (rewrite row_map_is_Some, Hf; by intros []). done.
Qed.

(** C11: the mapping tables refine one finite map per address space: every
    [set_asid], [map] and [unmap] call returns the specified code and changes
    only the page and address space it names; a call is refused exactly for an
    invalid address space, zero flags, an unaligned address, an unmapped page
    (unmap) or a full table (2048 mappings). *)
Theorem vmm_refines op s :
  vmm_wf s → op_ok op →
  let '(r, s') := vmm_exec op s in
  vmm_wf s' ∧ spec_exec op (vmm_abs s) = (r, vmm_abs s').
Proof.
  intros Hwf Hop. destruct op as [asid|asid va pa flags|asid va]; simpl vmm_exec.
  - simpl in *. unfold qos_vmm_set_asid. change (asid <? 64) with (asid_valid asid).
    destruct (asid_valid asid) eqn:Hv; [|done].
    split; [|done]. split; simpl; [apply Hwf..|]. unfold asid_valid in Hv. b2p. lia.
  - by apply vmm_map_refines.
  - by apply vmm_unmap_refines.
Qed.

(** address translation and flag queries read the specification: a mapped
    virtual address translates to its physical page plus the page offset,
    without wrapping; anything else gives 0. *)
Theorem vmm_translate_spec asid va s :
  vmm_wf s → 0 <= asid < 64 → in_width 64 va →
  let page := va - va mod QOS_PAGE_SIZE in
  qos_vmm_translate_as asid va s =
    match spec_row asid (vmm_abs s) !! page with
    | Some (pa, _) => pa + va mod QOS_PAGE_SIZE
    | None => 0
    end ∧
  qos_vmm_flags_as asid va s =
    match spec_row asid (vmm_abs s) !! page with Some (_, fl) => fl | None => 0 end.
Proof.
  intros Hwf Ha Hva page.
  assert (asid_valid asid = true) as Hv.
  { unfold asid_valid. apply Z.ltb_lt. unfold QOS_VMM_MAX_AS. lia. }
  assert (align_down va = page) as Hpage.
  { rewrite align_down_eq by done. unfold page. pose proof (Z.div_mod va QOS_PAGE_SIZE ltac:(done)). lia. }
  destruct (asid_valid_row asid s Hwf ltac:(lia) Hv) as [_ Hr].
  unfold qos_vmm_translate_as, qos_vmm_flags_as, vmm_find, offset_of.
  rewrite Hv, Hpage, land_page_mask by apply Hva. simpl.
  rewrite spec_row_abs, row_map_lookup by (done || lia).
  destruct (find_key page (row asid s)) as [i|] eqn:Hf; simpl; [|done].
  destruct (find_key_Some _ _ _ Hf) as (m & Hm & Hu & _). rewrite Hm. simpl. split; [|done].
  destruct (rw_live _ Hr _ _ Hm Hu) as [_ [Hpa1 Hpa2] _]. apply wrap_small.
  unfold page_aligned, in_width, QOS_PAGE_SIZE in *.
  pose proof (Z.mod_pos_bound va 4096 ltac:(lia)).
  pose proof (Z.div_mod (v_pa m) 4096 ltac:(lia)). lia.
Qed.

(** ** Enumeration *)

Definition live (r : list mapping) : list mapping := filter (λ m, v_used m = true) r.

Lemma mapping_scan_live ordinal seen r :
  0 <= seen <= ordinal → ordinal < 2 ^ 32 →
  mapping_scan ordinal seen r = live r !! Z.to_nat (ordinal - seen).
Proof.
  intros Hs Ho. revert seen Hs. induction r as [|m r IH]; intros seen Hs; [done|].
  simpl. unfold live. rewrite filter_cons. destruct (v_used m) eqn:Hu; simpl; [|by apply IH].
  destruct (Z.eqb_spec seen ordinal) as [->|].
  - by rewrite Z.sub_diag.
  - rewrite wrap_small by (unfold in_width; lia). rewrite IH by lia.
    replace (Z.to_nat (ordinal - seen)) with (S (Z.to_nat (ordinal - (seen + 1)))) by lia. done.
Qed.

Lemma live_length r : length (live r) = count_used r.
Proof.
  unfold live, count_used. induction r as [|m r IH]; [done|]. rewrite filter_cons. simpl.
  unfold slot_used at 1, mapping_slotted. by destruct (v_used m); simpl; rewrite IH.
Qed.

Lemma live_NoDup_keys r : unique_keys r → NoDup (v_va <$> live r).
Proof.
  unfold live. induction r as [|m r IH]; intros Hu; [constructor|].
  assert (unique_keys r) as Hu'.
  { intros i j a b Ha Hb ???. specialize (Hu (S i) (S j) a b Ha Hb). naive_solver. }
  rewrite filter_cons. destruct (decide (v_used m = true)) as [Hm|]; [|by apply IH].
  simpl. constructor; [|by apply IH].
  intros (m' & Hk & [Hm' (j & Hj)%list_elem_of_lookup]%list_elem_of_filter)%list_elem_of_fmap.
  specialize (Hu 0%nat (S j) m m' eq_refl Hj Hm Hm' Hk). done.
Qed.

(** The call as a lookup in the live mappings of the row. *)
Lemma mapping_get_live asid n s va pa fl :
  asid_valid asid = true → in_width 32 n →
  qos_vmm_mapping_get_as asid n true s = (0, Some (va, pa, fl)) ↔
  live (row asid s) !! Z.to_nat n
  = Some {| v_used := true; v_va := va; v_pa := pa; v_flags := fl |}.
Proof.
  intros Hv Hn. unfold qos_vmm_mapping_get_as. rewrite Hv. simpl.
  rewrite mapping_scan_live, Z.sub_0_r by (unfold in_width in *; lia).
  destruct (live _ !! Z.to_nat n) as [[u va' pa' fl']|] eqn:E; [|done]. simpl.
  assert (u = true) as ->; [|split; by intros [= -> -> ->]].
  apply list_elem_of_lookup_2, list_elem_of_filter in E. apply E.
Qed.

Lemma mapping_get_ok asid n s :
  asid_valid asid = true → in_width 32 n →
  (qos_vmm_mapping_get_as asid n true s).1 = 0 ↔ n < qos_vmm_mapping_count_as asid s.
Proof.
  intros Hv Hn. unfold qos_vmm_mapping_get_as, qos_vmm_mapping_count_as. rewrite Hv. simpl.
  rewrite mapping_scan_live, Z.sub_0_r, <- live_length by (unfold in_width in *; lia).
  unfold in_width in Hn. destruct (live _ !! Z.to_nat n) eqn:E; simpl.
  - apply lookup_lt_Some in E. split; [lia|done].
  - apply lookup_ge_None in E. split; [done|lia].
Qed.

(** Live mappings are the entries of the page map. *)
Lemma row_map_live r va pa fl :
  row_wf r →
  row_map r !! va = Some (pa, fl) ↔
  {| v_used := true; v_va := va; v_pa := pa; v_flags := fl |} ∈ live r.
Proof.
  intros Hr. unfold row_map, live. rewrite lookup_fmap, fmap_Some, list_elem_of_filter.
  setoid_rewrite table_map_spec; [|apply Hr]. rewrite list_elem_of_lookup. split.
  - intros ([u va' pa' fl'] & (i & Hi & Hu & Hk) & [= -> ->]).
    unfold slot_used, mapping_slotted, slot_key, mapping_keyed in *. simpl in *. subst. eauto.
  - intros (_ & i & Hi). by eexists; split; [exists i|].
Qed.

(** [qos_vmm_mapping_get_as] enumerates an address space: the ordinals
    below [qos_vmm_mapping_count_as] return exactly the entries of its page
    map, each page at one ordinal, and every other ordinal is refused. *)
Theorem vmm_mapping_get_enumerates asid s :
  vmm_wf s → 0 <= asid < 64 →
  let m := spec_row asid (vmm_abs s) in
  qos_vmm_mapping_count_as asid s = Z.of_nat (size m) ∧
  (∀ n, in_width 32 n →
    (qos_vmm_mapping_get_as asid n true s).1 = 0 ↔ n < qos_vmm_mapping_count_as asid s) ∧
  (∀ va pa fl, m !! va = Some (pa, fl) ↔
    ∃ n, in_width 32 n ∧ qos_vmm_mapping_get_as asid n true s = (0, Some (va, pa, fl))) ∧
  (∀ n n' va pa fl pa' fl', in_width 32 n → in_width 32 n' →
    qos_vmm_mapping_get_as asid n true s = (0, Some (va, pa, fl)) →
    qos_vmm_mapping_get_as asid n' true s = (0, Some (va, pa', fl')) → n = n').
Proof.
  intros Hwf Ha m.
  assert (asid_valid asid = true) as Hv.
  { unfold asid_valid. apply Z.ltb_lt. unfold QOS_VMM_MAX_AS. lia. }
  destruct (asid_valid_row asid s Hwf ltac:(lia) Hv) as [_ Hr].
  assert (m = row_map (row asid s)) as Hm by (apply spec_row_abs; [done|lia|done]).
  split_and!.
  - unfold qos_vmm_mapping_count_as. by rewrite Hv, Hm, row_map_size.
  - intros n Hn. by apply mapping_get_ok.
  - intros va pa fl. rewrite Hm, row_map_live, list_elem_of_lookup by done. split.
    + intros (n & Hn). exists (Z.of_nat n).
      assert (in_width 32 (Z.of_nat n)).
      { apply lookup_lt_Some in Hn. rewrite live_length in Hn.
        pose proof (count_if_le slot_used (row asid s)) as Hle. rewrite (rw_len _ Hr) in Hle.
        unfold in_width, count_used, QOS_VMM_MAX_MAPPINGS in *. lia. }
      split; [done|]. apply mapping_get_live; [done..|]. by rewrite Nat2Z.id.
    + intros (n & Hn & Hg%mapping_get_live); [eauto|done..].
  - intros n n' va pa fl pa' fl' Hn Hn' Hg%mapping_get_live Hg'%mapping_get_live; [|done..].
    assert (Z.to_nat n = Z.to_nat n') as Heq; [|unfold in_width in *; lia].
    eapply (NoDup_lookup _ _ _ va (live_NoDup_keys _ (rw_unique _ Hr)));
      rewrite list_lookup_fmap; [by rewrite Hg|by rewrite Hg'].
Qed.

(** ** Concrete runs *)

(** Two pages mapped in address space 3, one remapped. *)
Definition demo_ops : list vmm_op :=
  [OpMap 3 0x400000 0x9000 7; OpMap 3 0x401000 0xA000 3; OpMap 3 0x400000 0xB000 1].

Definition vmm_run (ops : list vmm_op) (s : vmm) : vmm := foldl (λ s op, (vmm_exec op s).2) s ops.

Lemma vmm_run_wf ops s : vmm_wf s → Forall op_ok ops → vmm_wf (vmm_run ops s).
Proof.
  revert s. induction ops as [|op ops IH]; intros s Hwf Hops; [done|].
  apply Forall_cons in Hops as [Hop Hops]. apply IH; [|done].
  destruct op as [asid|asid va pa flags|asid va]; simpl.
  - unfold qos_vmm_set_asid. destruct (asid_valid asid) eqn:Hv; [|done].
    split; simpl; [apply Hwf..|]. unfold asid_valid in Hv. b2p. done.
  - pose proof (vmm_map_refines asid va pa flags s Hwf Hop).
    destruct (qos_vmm_map_as asid va pa flags s). tauto.
  - pose proof (vmm_unmap_refines asid va s Hwf Hop).
    destruct (qos_vmm_unmap_as asid va s). tauto.
Qed.

Definition demo_vmm : vmm := vmm_run demo_ops qos_vmm_reset.

Lemma demo_vmm_wf : vmm_wf demo_vmm.
Proof.
  apply vmm_run_wf; [apply vmm_wf_reset|]. repeat constructor; simpl; unfold in_width; lia.
Qed.

Lemma vmm_refines_witness :
  vmm_wf (vmm_exec (OpUnmap 3 0x400000) demo_vmm).2 ∧
  (vmm_exec (OpUnmap 3 0x400000) demo_vmm).1 = 0 ∧
  (vmm_exec (OpUnmap 3 0x400000) (vmm_exec (OpUnmap 3 0x400000) demo_vmm).2).1 = -1.
Proof.
  split; [|split; vm_compute; reflexivity].
  pose proof (vmm_refines (OpUnmap 3 0x400000) demo_vmm demo_vmm_wf
    ltac:(simpl; unfold in_width; lia)) as H.
  destruct (vmm_exec (OpUnmap 3 0x400000) demo_vmm) as [r s']. exact (proj1 H).
Defined.

Lemma vmm_translate_spec_witness :
  qos_vmm_translate_as 3 0x400ABC demo_vmm = 0xBABC ∧
  spec_row 3 (vmm_abs demo_vmm) !! 0x400000 = Some (0xB000, 1) ∧
  0xB000 + 0x400ABC mod QOS_PAGE_SIZE = 0xBABC.
Proof.
  assert (spec_row 3 (vmm_abs demo_vmm) !! 0x400000 = Some (0xB000, 1)) as Hm by (by vm_compute).
  destruct (vmm_translate_spec 3 0x400ABC demo_vmm demo_vmm_wf ltac:(lia)
    ltac:(unfold in_width; lia)) as [H _].
  change (0x400ABC - 0x400ABC mod QOS_PAGE_SIZE) with 0x400000 in H. rewrite Hm in H.
  split_and!; [exact H|exact Hm|reflexivity].
Defined.

Lemma vmm_mapping_get_enumerates_witness :
  qos_vmm_mapping_get_as 3 1 true demo_vmm = (0, Some (0x401000, 0xA000, 3)) ∧
  spec_row 3 (vmm_abs demo_vmm) !! 0x401000 = Some (0xA000, 3).
Proof.
  assert (qos_vmm_mapping_get_as 3 1 true demo_vmm = (0, Some (0x401000, 0xA000, 3))) as Hg
    by (by vm_compute).
  split; [done|].
  destruct (vmm_mapping_get_enumerates 3 demo_vmm demo_vmm_wf ltac:(lia)) as (_ & _ & H & _).
  apply H. exists 1. split; [unfold in_width; lia|exact Hg].
Defined.
