(* ===== verification/Sched.v ===== *)
(** * Priority scheduler (c-os/kernel/sched/sched.c)

    Four priority levels, each a 64-entry array with a count and a
    round-robin cursor, the total task count and the current pid. *)

From S2P Require Import Prelude.

Definition QOS_SCHED_MAX_TASKS : nat := 64.
Definition QOS_SCHED_LEVELS : nat := 4.
Definition QOS_SCHED_PRIO_NORMAL : Z := 2.
Definition QOS_SCHED_PRIO_HIGH : Z := 3.

(** [g_queues[p]], [g_counts[p]], [g_rr_cursor[p]]. *)
Record level := { q_tasks : list Z; q_count : nat; q_cursor : nat }.

Record sched := { levels : list level; total_count : Z; current_pid : Z }.

Definition level_zero : level :=
  {| q_tasks := replicate QOS_SCHED_MAX_TASKS 0; q_count := 0; q_cursor := 0 |}.

Definition get_level (p : nat) (s : sched) : level := default level_zero (levels s !! p).

Definition put_level (p : nat) (l : level) (total : Z) (s : sched) : sched :=
  {| levels := <[p := l]> (levels s); total_count := total; current_pid := current_pid s |}.

Definition priority_valid (priority : Z) : bool := priority <=? QOS_SCHED_PRIO_HIGH.

(** The scan of one level's array, below its count. *)
Definition find_pid_in_priority (p : nat) (pid : Z) (s : sched) : option nat :=
  if negb (priority_valid (Z.of_nat p)) then None
  else first_index (λ x, x =? pid) (take (q_count (get_level p s)) (q_tasks (get_level p s))).

(** Levels are tried in ascending order; [fuel] is the number of levels left. *)
Fixpoint find_pid_from (fuel p : nat) (pid : Z) (s : sched) : option (nat * nat) :=
  match fuel with
  | O => None
  | S fuel' =>
      match find_pid_in_priority p pid s with
      | Some idx => Some (p, idx)
      | None => find_pid_from fuel' (S p) pid s
      end
  end.

Definition find_pid (pid : Z) (s : sched) : option (nat * nat) :=
  find_pid_from QOS_SCHED_LEVELS 0 pid s.

Definition queue_append (priority : Z) (pid : Z) (s : sched) : Z * sched :=
  if negb (priority_valid priority) then (-1, s)
  else
    let p := Z.to_nat priority in
    let l := get_level p s in
    let count := q_count l in
    if (QOS_SCHED_MAX_TASKS <=? count)%nat then (-1, s)
    else
      (0, put_level p {| q_tasks := <[count := pid]> (q_tasks l);
                         q_count := count + 1; q_cursor := q_cursor l |}
            (u32 (total_count s + 1)) s).

(** [while (i > index) { q[i] = q[i - 1]; i--; }] with [n = i - index]. *)
Fixpoint shift_right (n index : nat) (q : list Z) : list Z :=
  match n with
  | O => q
  | S n' =>
      shift_right n' index (<[(index + n)%nat := default 0 (q !! (index + n - 1)%nat)]> q)
  end.

Definition queue_insert_at (priority : Z) (index : nat) (pid : Z) (s : sched) : Z * sched :=
  if negb (priority_valid priority) then (-1, s)
  else
    let p := Z.to_nat priority in
    let l := get_level p s in
    let count := q_count l in
    if (QOS_SCHED_MAX_TASKS <=? count)%nat then (-1, s)
    else
      let index := if (count <? index)%nat then count else index in
      let q := shift_right (count - index) index (q_tasks l) in
      (0, put_level p {| q_tasks := <[index := pid]> q; q_count := count + 1;
                         q_cursor := if (index <? q_cursor l)%nat then q_cursor l + 1
                                     else q_cursor l |}
            (u32 (total_count s + 1)) s).

(** The cursor after removing [index] from a level that now has [count] tasks. *)
Definition cursor_after_remove (index count cursor : nat) : nat :=
  if (count =? 0)%nat then 0%nat
  else
    let cursor := if (count <=? cursor)%nat then 0%nat else cursor in
    if (index <? cursor)%nat && (0 <? cursor)%nat then cursor - 1 else cursor.

Definition queue_remove_at (p : nat) (index : nat) (s : sched) : sched :=
  let l := get_level p s in
  if negb (priority_valid (Z.of_nat p)) || (q_count l <=? index)%nat then s
  else
    (* while (i + 1 < count) { q[i] = q[i + 1]; i++; } *)
    let q := shift_left (q_count l - 1 - index) index (q_tasks l) in
    let count := (q_count l - 1)%nat in
    put_level p {| q_tasks := <[count := 0]> q; q_count := count;
                   q_cursor := cursor_after_remove index count (q_cursor l) |}
      (u32 (total_count s - 1)) s.

Definition qos_sched_reset : sched :=
  {| levels := replicate QOS_SCHED_LEVELS level_zero; total_count := 0; current_pid := 0 |}.

Definition qos_sched_add_task_prio (pid priority : Z) (s : sched) : Z * sched :=
  if (pid =? 0) || negb (priority_valid priority) then (-1, s)
  else
    match find_pid pid s with
    | Some _ => (-1, s)
    | None =>
        if Z.of_nat QOS_SCHED_MAX_TASKS <=? total_count s then (-1, s)
        else queue_append priority pid s
    end.

Definition qos_sched_add_task (pid : Z) (s : sched) : Z * sched :=
  qos_sched_add_task_prio pid QOS_SCHED_PRIO_NORMAL s.

Definition qos_sched_remove_task (pid : Z) (s : sched) : Z * sched :=
  match find_pid pid s with
  | None => (-1, s)
  | Some (priority, index) => (0, queue_remove_at priority index s)
  end.

Definition qos_sched_set_priority (pid priority : Z) (s : sched) : Z * sched :=
  if negb (priority_valid priority) then (-1, s)
  else
    match find_pid pid s with
    | None => (-1, s)
    | Some (old_priority, old_index) =>
        if Z.of_nat old_priority =? priority then (0, s)
        else
          let s1 := queue_remove_at old_priority old_index s in
          let '(r, s2) := queue_append priority pid s1 in
          if negb (r =? 0) then
            (-1, (queue_insert_at (Z.of_nat old_priority) old_index pid s2).2)
          else (0, s2)
    end.

(** [out] tells whether the output pointer is non-NULL. *)
Definition qos_sched_get_priority (pid : Z) (out : bool) (s : sched) : Z * option Z :=
  if negb out then (-1, None)
  else
    match find_pid pid s with
    | None => (-1, None)
    | Some (priority, _) => (0, Some (Z.of_nat priority))
    end.

Definition qos_sched_count (s : sched) : Z := total_count s.

(** The loop over levels from the highest; [n] levels are left. *)
Fixpoint next_from (n : nat) (s : sched) : Z * sched :=
  match n with
  | O => (0, {| levels := levels s; total_count := total_count s; current_pid := 0 |})
  | S p =>
      let l := get_level p s in
      if negb (q_count l =? 0)%nat then
        let idx := (q_cursor l mod q_count l)%nat in
        let pid := default 0 (q_tasks l !! idx) in
        (pid, {| levels := <[p := {| q_tasks := q_tasks l; q_count := q_count l;
                                     q_cursor := (idx + 1) mod q_count l |}]> (levels s);
                 total_count := total_count s; current_pid := pid |})
      else next_from p s
  end.

Definition qos_sched_next (s : sched) : Z * sched :=
  if total_count s =? 0
  then (0, {| levels := levels s; total_count := total_count s; current_pid := 0 |})
  else next_from QOS_SCHED_LEVELS s.

Definition qos_sched_current (s : sched) : Z := current_pid s.

(** ** Queues as lists *)

(** The live part of a level. *)
Definition tasks (l : level) : list Z := take (q_count l) (q_tasks l).

(** What the scheduler holds: one task list per level. *)
Definition queues (s : sched) : list (list Z) := tasks <$> levels s.
Definition all_tasks (s : sched) : list Z := concat (queues s).

Record level_wf (l : level) : Prop := {
  lw_len : length (q_tasks l) = QOS_SCHED_MAX_TASKS;
  lw_count : (q_count l <= QOS_SCHED_MAX_TASKS)%nat;
  lw_cursor : (q_cursor l < q_count l)%nat ∨ q_cursor l = 0%nat ∧ q_count l = 0%nat
}.

Record sched_wf (s : sched) : Prop := {
  sw_levels : length (levels s) = QOS_SCHED_LEVELS;
  sw_level : ∀ p l, levels s !! p = Some l → level_wf l;
  sw_total : total_count s = Z.of_nat (length (all_tasks s));
  sw_bound : (length (all_tasks s) <= QOS_SCHED_MAX_TASKS)%nat;
  sw_nodup : NoDup (all_tasks s);
  sw_nonzero : 0 ∉ all_tasks s
}.

Lemma tasks_length l : level_wf l → length (tasks l) = q_count l.
Proof. intros Hl. unfold tasks. rewrite length_take, (lw_len _ Hl). pose proof (lw_count _ Hl). lia. Qed.

Lemma shift_right_lookup n index q k :
  (index + n < length q)%nat →
  shift_right n index q !! k =
  if decide (index < k <= index + n)%nat then q !! (k - 1)%nat else q !! k.
Proof.
  revert q. induction n as [|n IH]; intros q Hlt; cbn [shift_right].
  { by rewrite decide_False by lia. }
  rewrite IH by (rewrite length_insert; lia).
  destruct (lookup_lt_is_Some_2 q (index + S n - 1)) as [x Hx]; [lia|]. rewrite Hx. simpl.
  destruct (decide (k = index + S n)%nat) as [->|Hk].
  - rewrite (decide_False (P := (_ < _ <= index + n)%nat)), (decide_True (P := (_ < _ <= index + S n)%nat)) by lia.
    rewrite list_lookup_insert_eq by lia. done.
  - repeat case_decide; try lia; by rewrite list_lookup_insert_ne by lia.
Qed.

Lemma shift_right_length n index q : length (shift_right n index q) = length q.
Proof. revert q. induction n; intros; cbn [shift_right]; [done|]. by rewrite IHn, length_insert. Qed.

(** The removal loop deletes one element of the live list. *)
Lemma tasks_remove l index :
  level_wf l → (index < q_count l)%nat →
  take (q_count l - 1) (<[(q_count l - 1)%nat := 0]> (shift_left (q_count l - 1 - index) index (q_tasks l)))
  = delete index (tasks l).
Proof.
  intros [Hl Hc _] Hi. rewrite take_insert_ge by lia. apply shift_left_delete; lia.
Qed.

(** The insertion loop puts an element into the live list. *)
Lemma tasks_insert l index pid :
  level_wf l → (index <= q_count l)%nat → (q_count l < QOS_SCHED_MAX_TASKS)%nat →
  take (q_count l + 1) (<[index := pid]> (shift_right (q_count l - index) index (q_tasks l)))
  = take index (tasks l) ++ pid :: drop index (tasks l).
Proof.
  intros [Hl Hc _] Hi Hlt.
  assert (length (take index (tasks l)) = index) as Hti.
  { rewrite length_take. unfold tasks. rewrite length_take. lia. }
  apply list_eq. intros k. rewrite lookup_take.
  destruct (decide (k < index)%nat) as [Hk|Hk].
  - rewrite decide_True, list_lookup_insert_ne, shift_right_lookup, decide_False by lia.
    rewrite lookup_app_l, lookup_take, decide_True by lia.
    unfold tasks. by rewrite lookup_take, decide_True by lia.
  - rewrite lookup_app_r, Hti by lia. destruct (decide (k = index)) as [->|Hne].
    + rewrite decide_True, list_lookup_insert_eq, Nat.sub_diag by (rewrite ?shift_right_length; lia). done.
    + replace (k - index)%nat with (S (k - 1 - index)) by lia. simpl. rewrite lookup_drop.
      replace (index + (k - 1 - index))%nat with (k - 1)%nat by lia. unfold tasks. rewrite lookup_take.
      case_decide; [|by rewrite decide_False by lia].
      rewrite (decide_True (P := (k - 1 < _)%nat)), list_lookup_insert_ne by lia.
      by rewrite shift_right_lookup, decide_True by lia.
Qed.

(** ** Bookkeeping of the task lists *)

Lemma concat_insert_perm {A} (qs : list (list A)) p q q' :
  qs !! p = Some q → concat (<[p := q']> qs) ++ q ≡ₚ concat qs ++ q'.
Proof.
  revert p. induction qs as [|x qs IH]; intros p H; [by rewrite lookup_nil in H|].
  destruct p as [|p]; simplify_eq/=.
  - solve_Permutation.
  - rewrite <- !(assoc_L (++)). apply Permutation_app_head. by apply IH.
Qed.

Lemma all_tasks_put p l l0 total s :
  levels s !! p = Some l0 → all_tasks (put_level p l total s) ++ tasks l0 ≡ₚ all_tasks s ++ tasks l.
Proof.
  intros H. unfold all_tasks, queues. simpl. rewrite list_fmap_insert. apply concat_insert_perm.
  by rewrite list_lookup_fmap, H.
Qed.

Lemma get_level_lookup p s :
  sched_wf s → (p < QOS_SCHED_LEVELS)%nat →
  levels s !! p = Some (get_level p s) ∧ level_wf (get_level p s).
Proof.
  intros Hwf Hp. unfold get_level. destruct (lookup_lt_is_Some_2 (levels s) p) as [l Hl].
  { by rewrite (sw_levels _ Hwf). }
  rewrite Hl. split; [done|]. by eapply sw_level.
Qed.

Lemma elem_of_all_tasks pid s :
  pid ∈ all_tasks s ↔ ∃ p l, levels s !! p = Some l ∧ pid ∈ tasks l.
Proof.
  unfold all_tasks, queues. rewrite list_elem_of_In, in_concat. setoid_rewrite <- list_elem_of_In.
  split.
  - intros (q & (l & -> & (p & Hp)%list_elem_of_lookup)%list_elem_of_fmap & Hin). eauto.
  - intros (p & l & Hp & Hin). exists (tasks l). split; [|done].
    apply list_elem_of_fmap. exists l. split; [done|]. by eapply list_elem_of_lookup_2.
Qed.

Lemma find_pid_from_Some n p pid s p' i :
  find_pid_from n p pid s = Some (p', i) →
  (p <= p' < p + n)%nat ∧ tasks (get_level p' s) !! i = Some pid.
Proof.
  revert p. induction n as [|n IH]; intros p; simpl; [done|].
  destruct (find_pid_in_priority p pid s) as [idx|] eqn:E; intros H; simplify_eq.
  - unfold find_pid_in_priority in E. case_match; [done|].
    apply first_index_lookup in E as (a & Ha & ->%Z.eqb_eq). split; [lia|done].
  - apply IH in H as [? ?]. split; [lia|done].
Qed.

Lemma find_pid_from_None n p pid s :
  (p + n <= QOS_SCHED_LEVELS)%nat → find_pid_from n p pid s = None →
  ∀ p', (p <= p' < p + n)%nat → pid ∉ tasks (get_level p' s).
Proof.
  revert p. induction n as [|n IH]; intros p Hle; simpl; [intros; lia|].
  destruct (find_pid_in_priority p pid s) as [idx|] eqn:E; intros H; simplify_eq.
  intros p' Hp'. destruct (decide (p' = p)) as [->|]; [|apply (IH (S p)); (done || lia)].
  unfold find_pid_in_priority, priority_valid, QOS_SCHED_PRIO_HIGH in E.
  rewrite (proj2 (Z.leb_le _ _)) in E by (unfold QOS_SCHED_LEVELS in Hle; lia). cbn [negb] in E.
  intros [i Hi]%list_elem_of_lookup. eapply first_index_None in E; [|exact Hi]. lia.
Qed.

(** [find_pid] finds exactly the queued pids. *)
Lemma find_pid_spec pid s :
  sched_wf s →
  match find_pid pid s with
  | Some (p, i) => (p < QOS_SCHED_LEVELS)%nat ∧ tasks (get_level p s) !! i = Some pid
                   ∧ pid ∈ all_tasks s
  | None => pid ∉ all_tasks s
  end.
Proof.
  intros Hwf. destruct (find_pid pid s) as [[p i]|] eqn:E.
  - apply find_pid_from_Some in E as [? Hi].
    destruct (get_level_lookup p s Hwf) as [Hl _]; [unfold QOS_SCHED_LEVELS in *; lia|].
    split; [unfold QOS_SCHED_LEVELS in *; lia|]. split; [done|]. apply elem_of_all_tasks.
    exists p, (get_level p s). split; [done|]. by eapply list_elem_of_lookup_2.
  - intros (p & l & Hl & Hin)%elem_of_all_tasks.
    pose proof (lookup_lt_Some _ _ _ Hl) as Hlt. rewrite (sw_levels _ Hwf) in Hlt.
    apply (find_pid_from_None QOS_SCHED_LEVELS 0 pid s ltac:(lia) E p); [lia|]. unfold get_level. by rewrite Hl.
Qed.

(** A well-formed state after replacing one level. *)
Lemma put_level_wf p l s total :
  sched_wf s → (p < QOS_SCHED_LEVELS)%nat → level_wf l →
  let s' := put_level p l total s in
  total = Z.of_nat (length (all_tasks s')) →
  (length (all_tasks s') <= QOS_SCHED_MAX_TASKS)%nat →
  NoDup (all_tasks s') → 0 ∉ all_tasks s' → sched_wf s'.
Proof.
  intros Hwf Hp Hl s' Ht Hb Hnd Hz. split; try done.
  - unfold s'. simpl. rewrite length_insert. apply Hwf.
  - intros p' l' H. unfold s' in H. simpl in H.
    apply list_lookup_insert_Some in H as [(-> & -> & _)|(_ & H)]; [done|]. by eapply sw_level.
Qed.

Lemma level_count_le p s :
  sched_wf s → (p < QOS_SCHED_LEVELS)%nat →
  (q_count (get_level p s) <= length (all_tasks s))%nat.
Proof.
  intros Hwf Hp. destruct (get_level_lookup p s Hwf Hp) as [Hl Hlw].
  rewrite <- (tasks_length _ Hlw).
  pose proof (all_tasks_put p level_zero _ 0 s Hl) as HP%Permutation_length.
  rewrite !length_app in HP. simpl in HP. lia.
Qed.

Lemma put_level_queues p l total s : queues (put_level p l total s) = <[p := tasks l]> (queues s).
Proof. unfold queues. simpl. by rewrite list_fmap_insert. Qed.

Lemma queue_append_ok prio pid s :
  sched_wf s → 0 <= prio <= 3 → pid ≠ 0 → pid ∉ all_tasks s →
  (length (all_tasks s) < QOS_SCHED_MAX_TASKS)%nat →
  let '(r, s') := queue_append prio pid s in
  let p := Z.to_nat prio in
  r = 0 ∧ sched_wf s' ∧ queues s' = <[p := tasks (get_level p s) ++ [pid]]> (queues s).
Proof.
  intros Hwf Hp Hnz Hni Hlt. unfold queue_append, priority_valid, QOS_SCHED_PRIO_HIGH.
  rewrite (proj2 (Z.leb_le prio 3)) by lia. cbn [negb].
  assert (Z.to_nat prio < QOS_SCHED_LEVELS)%nat as Hp4 by (unfold QOS_SCHED_LEVELS; lia).
  pose proof (level_count_le _ _ Hwf Hp4) as Hcl.
  destruct (get_level_lookup _ s Hwf Hp4) as [Hl Hlw]. set (l := get_level (Z.to_nat prio) s) in *.
  rewrite (proj2 (Nat.leb_gt _ _)) by lia.
  set (l' := {| q_tasks := <[q_count l := pid]> (q_tasks l); q_count := q_count l + 1; q_cursor := q_cursor l |}).
  assert (tasks l' = tasks l ++ [pid]) as Ht'.
  { unfold tasks, l'. simpl. rewrite Nat.add_1_r, (take_S_r _ _ pid), take_insert_ge; [done|lia|].
    apply list_lookup_insert_eq. rewrite (lw_len _ Hlw). lia. }
  pose proof (all_tasks_put _ l' _ (u32 (total_count s + 1)) s Hl) as HP.
  rewrite Ht', (assoc_L (++)), (Permutation_app_comm (all_tasks s)), <- (assoc_L (++)),
    Permutation_app_comm in HP. apply Permutation_app_inv_l in HP.
  rewrite Permutation_app_comm in HP. simpl in HP.
  split; [done|]. split; [|by rewrite put_level_queues, Ht'].
  apply put_level_wf; rewrite ?HP; try done.
  - split; simpl; [by rewrite length_insert, (lw_len _ Hlw)|lia|].
    destruct (lw_cursor _ Hlw); [left|left]; lia.
  - rewrite (sw_total _ Hwf), wrap_small by (unfold in_width, QOS_SCHED_MAX_TASKS in *; lia). cbn [length]. lia.
  - apply NoDup_cons. split; [done|apply Hwf].
  - apply not_elem_of_cons. split; [done|apply Hwf].
Qed.

Lemma cursor_after_remove_lt index count cursor :
  (cursor <= count)%nat →
  (cursor_after_remove index count cursor < count)%nat
  ∨ cursor_after_remove index count cursor = 0%nat ∧ count = 0%nat.
Proof.
  intros H. unfold cursor_after_remove.
  destruct (Nat.eqb_spec count 0), (Nat.leb_spec count cursor); try lia; case_match; lia.
Qed.

Lemma filter_notin (q : list Z) x : x ∉ q → filter (λ y, y ≠ x) q = q.
Proof.
  induction q as [|y q IH]; intros H; [done|]. apply not_elem_of_cons in H as [??].
  by rewrite filter_cons_True, IH by congruence.
Qed.

Lemma delete_filter (q : list Z) i x :
  NoDup q → q !! i = Some x → delete i q = filter (λ y, y ≠ x) q.
Proof.
  revert i. induction q as [|y q IH]; intros i Hnd Hi; [done|].
  apply NoDup_cons in Hnd as [Hy Hnd]. destruct i as [|i]; simplify_eq/=.
  - rewrite filter_cons_False by naive_solver. by rewrite filter_notin.
  - rewrite filter_cons_True, <- (IH i) by (try done; intros ->; apply Hy; by eapply list_elem_of_lookup_2).
    done.
Qed.

Lemma queue_remove_at_ok p i pid s :
  sched_wf s → (p < QOS_SCHED_LEVELS)%nat → tasks (get_level p s) !! i = Some pid →
  let s' := queue_remove_at p i s in
  sched_wf s' ∧ pid :: all_tasks s' ≡ₚ all_tasks s
  ∧ queues s' = <[p := delete i (tasks (get_level p s))]> (queues s).
Proof.
  intros Hwf Hp Hi. unfold queue_remove_at, priority_valid, QOS_SCHED_PRIO_HIGH.
  destruct (get_level_lookup p s Hwf Hp) as [Hl Hlw]. set (l := get_level p s) in *.
  pose proof (lookup_lt_Some _ _ _ Hi) as Hlt. rewrite (tasks_length _ Hlw) in Hlt.
  rewrite (proj2 (Z.leb_le _ 3)), (proj2 (Nat.leb_gt _ _)) by (unfold QOS_SCHED_LEVELS in Hp; lia).
  cbn [negb orb].
  set (l' := {| q_tasks := _; q_count := _; q_cursor := _ |}).
  assert (tasks l' = delete i (tasks l)) as Ht' by by apply tasks_remove.
  assert (pid :: all_tasks (put_level p l' (u32 (total_count s - 1)) s) ≡ₚ all_tasks s) as HP.
  { apply (Permutation_app_inv_r (delete i (tasks l))). rewrite <- Ht' at 2.
    rewrite <- (all_tasks_put p l' _ (u32 (total_count s - 1)) s Hl). fold l.
    etrans; [|apply Permutation_app_head; symmetry; exact (delete_Permutation _ _ _ Hi)].
    apply Permutation_middle. }
  pose proof (sw_nodup _ Hwf) as Hnd. rewrite <- HP in Hnd. apply NoDup_cons in Hnd as [_ Hnd].
  pose proof (Permutation_length HP) as Hlen. cbn [length] in Hlen.
  pose proof (sw_bound _ Hwf) as Hb.
  split; [|split; [done|by rewrite put_level_queues, Ht']].
  apply put_level_wf; try done.
  - split; cbn [l' q_tasks q_count q_cursor];
      [by rewrite length_insert, shift_left_length, (lw_len _ Hlw)|pose proof (lw_count _ Hlw); lia|].
    apply cursor_after_remove_lt. destruct (lw_cursor _ Hlw); lia.
  - pose proof (sw_total _ Hwf). unfold QOS_SCHED_MAX_TASKS in *.
    etrans; [apply wrap_small; unfold in_width|]; lia.
  - lia.
  - intros Hz. apply (sw_nonzero _ Hwf). rewrite <- HP. by right.
Qed.

(** ** The abstract scheduler

    A level is the list of its tasks and the task whose turn it is. *)

Inductive sched_op :=
| SAdd (pid prio : Z) | SRemove (pid : Z) | SSetPriority (pid prio : Z) | SNext.

Definition sched_exec (o : sched_op) (s : sched) : Z * sched :=
  match o with
  | SAdd pid prio => qos_sched_add_task_prio pid prio s
  | SRemove pid => qos_sched_remove_task pid s
  | SSetPriority pid prio => qos_sched_set_priority pid prio s
  | SNext => qos_sched_next s
  end.

Definition sched_op_ok (o : sched_op) : Prop :=
  match o with SAdd _ prio | SSetPriority _ prio => 0 <= prio | _ => True end.

Abbreviation alevel := (list Z * option Z)%type.

Definition level_abs (l : level) : alevel := (tasks l, tasks l !! q_cursor l).

Definition sched_abs (s : sched) : list alevel := level_abs <$> levels s.

(** The task behind [x], if [x] is not the last. *)
Fixpoint after_in (x : Z) (q : list Z) : option Z :=
  match q with
  | [] => None
  | y :: q' => if y =? x then head q' else after_in x q'
  end.

(** Behind the last task comes the first. *)
Definition following (x : Z) (q : list Z) : option Z :=
  match after_in x q with Some y => Some y | None => head q end.

(** A new task goes to the end; in an empty level it has the turn. *)
Definition enqueue (pid : Z) (a : alevel) : alevel :=
  (a.1 ++ [pid], match a.2 with Some x => Some x | None => Some pid end).

(** Whose turn it is in [q] without [pid].  When the last task has the turn, it goes to the
    first; otherwise it stays, or goes to the task behind [pid] when [pid] had it. *)
Definition turn_without (pid : Z) (q : list Z) (turn : option Z) : option Z :=
  x ← turn;
  match after_in x q with
  | None => head (filter (λ y, y ≠ pid) q)
  | Some y => if x =? pid then Some y else Some x
  end.

Definition dequeue (pid : Z) (a : alevel) : alevel :=
  if bool_decide (pid ∈ a.1) then (filter (λ y, y ≠ pid) a.1, turn_without pid a.1 a.2) else a.

(** The task with the turn in the highest level that has one; the turn moves on. *)
Fixpoint spec_next (L : list alevel) : option (Z * list alevel) :=
  match L with
  | [] => None
  | a :: L' =>
      match spec_next L' with
      | Some (pid, L'') => Some (pid, a :: L'')
      | None => x ← a.2; Some (x, (a.1, following x a.1) :: L')
      end
  end.

Definition all_of (L : list alevel) : list Z := concat (fst <$> L).

Definition sched_spec (o : sched_op) (L : list alevel) : Z * list alevel :=
  match o with
  | SAdd pid prio =>
      if bool_decide (pid ≠ 0 ∧ prio <= 3 ∧ (pid ∉ all_of L) ∧ (length (all_of L) < 64)%nat)
      then (0, alter (enqueue pid) (Z.to_nat prio) L) else (-1, L)
  | SRemove pid =>
      if bool_decide (pid ∈ all_of L) then (0, dequeue pid <$> L) else (-1, L)
  | SSetPriority pid prio =>
      if bool_decide (prio <= 3 ∧ pid ∈ all_of L) then
        if bool_decide (pid ∈ default [] (fst <$> L !! Z.to_nat prio)) then (0, L)
        else (0, alter (enqueue pid) (Z.to_nat prio) (dequeue pid <$> L))
      else (-1, L)
  | SNext => match spec_next L with Some (pid, L') => (pid, L') | None => (0, L) end
  end.

Lemma abs_queues s : fst <$> sched_abs s = queues s.
Proof. unfold sched_abs, queues. by rewrite <- list_fmap_compose. Qed.

Lemma abs_all s : all_of (sched_abs s) = all_tasks s.
Proof. unfold all_of. by rewrite abs_queues. Qed.

Definition spec_dequeue (pid : Z) (qs : list (list Z)) : list (list Z) :=
  filter (λ y, y ≠ pid) <$> qs.

Lemma queues_lookup p s :
  sched_wf s → (p < QOS_SCHED_LEVELS)%nat → queues s !! p = Some (tasks (get_level p s)).
Proof.
  intros Hwf Hp. unfold queues. rewrite list_lookup_fmap.
  by rewrite (proj1 (get_level_lookup p s Hwf Hp)).
Qed.

Lemma spec_dequeue_notin pid qs : pid ∉ concat qs → spec_dequeue pid qs = qs.
Proof.
  induction qs as [|q qs IH]; intros H; [done|]. cbn [concat] in H. unfold spec_dequeue in *.
  rewrite fmap_cons, filter_notin, IH; set_solver.
Qed.

Lemma spec_dequeue_eq pid qs p q i :
  NoDup (concat qs) → qs !! p = Some q → q !! i = Some pid →
  <[p := delete i q]> qs = spec_dequeue pid qs.
Proof.
  intros Hnd Hp Hi. revert p Hnd Hp. induction qs as [|x qs IH]; intros p Hnd Hp; [done|].
  cbn [concat] in Hnd. apply NoDup_app in Hnd as (Hnx & Hd & Hnq).
  pose proof (list_elem_of_lookup_2 _ _ _ Hi) as Hin.
  unfold spec_dequeue in *. rewrite fmap_cons. destruct p as [|p]; simplify_eq/=.
  - f_equal; [by apply delete_filter|]. symmetry. apply spec_dequeue_notin. by apply Hd.
  - f_equal; [|by apply IH]. symmetry. apply filter_notin. intros Hx. apply (Hd _ Hx).
    rewrite list_elem_of_In, in_concat. exists q. rewrite <- !list_elem_of_In.
    split; [by eapply list_elem_of_lookup_2|done].
Qed.

(** A task is in one level only. *)
Lemma level_unique (pid : Z) qs p p' q q' :
  NoDup (concat qs) → qs !! p = Some q → qs !! p' = Some q' → pid ∈ q → pid ∈ q' → p = p'.
Proof.
  intros Hnd Hp Hp' [i Hi]%list_elem_of_lookup Hin'. destruct (decide (p = p')) as [|Hne]; [done|].
  pose proof (spec_dequeue_eq _ _ _ _ _ Hnd Hp Hi) as E.
  assert (<[p := delete i q]> qs !! p' = Some q') as H by by rewrite list_lookup_insert_ne.
  rewrite E in H. unfold spec_dequeue in H. rewrite list_lookup_fmap, Hp' in H. simplify_eq/=.
  rewrite <- H in Hin'. apply list_elem_of_filter in Hin' as [? ?]. done.
Qed.

Lemma NoDup_concat_level (qs : list (list Z)) p q : NoDup (concat qs) → qs !! p = Some q → NoDup q.
Proof.
  revert p. induction qs as [|x qs IH]; intros p Hnd Hp; [done|]. cbn [concat] in Hnd.
  apply NoDup_app in Hnd as (? & _ & ?). destruct p; simplify_eq/=; [done|by eapply IH].
Qed.

Lemma next_from_ok n s :
  sched_wf s → (n <= QOS_SCHED_LEVELS)%nat →
  sched_wf (next_from n s).2 ∧ queues (next_from n s).2 = queues s.
Proof.
  intros Hwf. induction n as [|n IH]; intros Hn; cbn [next_from].
  { split; [split; apply Hwf|done]. }
  case_match eqn:Hc; [|by apply IH; lia].
  destruct (get_level_lookup n s Hwf) as [Hl Hlw]; [lia|]. set (l := get_level n s) in *.
  set (s' := (_, _).2). assert (queues s' = queues s) as Hq.
  { unfold queues, s'. simpl. rewrite list_fmap_insert. apply list_insert_id.
    by rewrite list_lookup_fmap, Hl. }
  split; [|done]. split; unfold all_tasks; rewrite ?Hq; try apply Hwf.
  - simpl. rewrite length_insert. apply Hwf.
  - intros p l' H. simpl in H. apply list_lookup_insert_Some in H as [(-> & <- & _)|(_ & H)].
    + split; try apply Hlw. simpl. left. apply Nat.mod_upper_bound. by apply negb_true_iff, Nat.eqb_neq in Hc.
    + by eapply sw_level.
Qed.

Lemma qos_sched_next_ok s :
  sched_wf s → sched_wf (qos_sched_next s).2 ∧ queues (qos_sched_next s).2 = queues s.
Proof.
  intros Hwf. unfold qos_sched_next. case_match; [|by apply next_from_ok].
  split; [split; apply Hwf|done].
Qed.

(** *** The turn *)

Lemma after_in_lookup q c x : NoDup q → q !! c = Some x → after_in x q = q !! S c.
Proof.
  revert c. induction q as [|y q IH]; intros c Hnd Hc; [done|]. apply NoDup_cons in Hnd as [Hy Hnd]. cbn [after_in].
  destruct c as [|c]; simplify_eq/=; [by rewrite Z.eqb_refl; destruct q|].
  rewrite (proj2 (Z.eqb_neq y x)) by (intros ->; apply Hy; by eapply list_elem_of_lookup_2). by apply IH.
Qed.

Lemma following_lookup q c x :
  NoDup q → q !! c = Some x → following x q = q !! ((c + 1) mod length q)%nat.
Proof.
  intros Hnd Hc. unfold following. rewrite (after_in_lookup q c) by done. pose proof (lookup_lt_Some _ _ _ Hc).
  destruct (decide (c + 1 = length q)%nat) as [E|E].
  - rewrite E, Nat.Div0.mod_same, (lookup_ge_None_2 q (S c)) by lia. by destruct q.
  - rewrite Nat.mod_small, Nat.add_1_r by lia. destruct (lookup_lt_is_Some_2 q (S c)) as [y ->]; [lia|done].
Qed.

Lemma turn_without_lookup q i c pid :
  NoDup q → q !! i = Some pid → (c < length q)%nat →
  delete i q !! cursor_after_remove i (length q - 1) c = turn_without pid q (q !! c).
Proof.
  intros Hnd Hi Hc. destruct (lookup_lt_is_Some_2 q c Hc) as [x Hx]. rewrite Hx. cbn [turn_without mbind option_bind].
  rewrite (after_in_lookup q c), <- (delete_filter q i pid) by done. pose proof (lookup_lt_Some _ _ _ Hi).
  unfold cursor_after_remove. destruct (decide (c + 1 = length q)%nat) as [E|E].
  - rewrite (lookup_ge_None_2 q (S c)) by lia. destruct (_ =? _)%nat; [by destruct (delete i q)|].
    rewrite (proj2 (Nat.leb_le _ c)), andb_false_r by lia. by destruct (delete i q).
  - destruct (lookup_lt_is_Some_2 q (S c)) as [y Hy]; [lia|]. rewrite Hy.
    rewrite (proj2 (Nat.eqb_neq _ 0)), (proj2 (Nat.leb_gt _ c)) by lia.
    destruct (Nat.ltb_spec i c) as [Hlt|Hge]; cbn [andb].
    + rewrite (proj2 (Nat.ltb_lt 0 c)), list_lookup_delete_ge by lia. replace (S (c - 1)) with c by lia. rewrite Hx.
      rewrite (proj2 (Z.eqb_neq x pid)); [done|]. intros ->. by pose proof (NoDup_lookup _ _ _ _ Hnd Hi Hx); lia.
    + destruct (decide (i = c)) as [->|Hne].
      * simplify_eq. by rewrite Z.eqb_refl, list_lookup_delete_ge by lia.
      * rewrite list_lookup_delete_lt by lia. rewrite (proj2 (Z.eqb_neq x pid)); [done|]. intros ->.
        by pose proof (NoDup_lookup _ _ _ _ Hnd Hi Hx).
Qed.

(** *** Each operation *)

Lemma level_lookup p s :
  sched_wf s → (p < QOS_SCHED_LEVELS)%nat → sched_abs s !! p = Some (level_abs (get_level p s)).
Proof. intros Hwf Hp. unfold sched_abs. by rewrite list_lookup_fmap, (proj1 (get_level_lookup p s Hwf Hp)). Qed.

Lemma level_nodup p s : sched_wf s → (p < QOS_SCHED_LEVELS)%nat → NoDup (tasks (get_level p s)).
Proof. intros Hwf Hp. apply (NoDup_concat_level (queues s) p); [apply Hwf|by apply queues_lookup]. Qed.

Lemma alter_insert {A} (f : A → A) i (l : list A) x : l !! i = Some x → alter f i l = <[i := f x]> l.
Proof. intros Hx. rewrite list_insert_alter. apply list_alter_ext; [|done]. intros y Hy. by simplify_eq. Qed.

Lemma put_level_abs p l total s : sched_abs (put_level p l total s) = <[p := level_abs l]> (sched_abs s).
Proof. unfold sched_abs. simpl. by rewrite list_fmap_insert. Qed.

Lemma queue_append_abs prio pid s :
  sched_wf s → 0 <= prio <= 3 → (q_count (get_level (Z.to_nat prio) s) < QOS_SCHED_MAX_TASKS)%nat →
  sched_abs (queue_append prio pid s).2 = alter (enqueue pid) (Z.to_nat prio) (sched_abs s).
Proof.
  intros Hwf Hp Hc. assert (Z.to_nat prio < QOS_SCHED_LEVELS)%nat as Hp4 by (unfold QOS_SCHED_LEVELS; lia).
  rewrite (alter_insert _ _ _ _ (level_lookup _ s Hwf Hp4)). unfold queue_append, priority_valid, QOS_SCHED_PRIO_HIGH.
  rewrite (proj2 (Z.leb_le prio 3)), (proj2 (Nat.leb_gt _ _)) by lia. cbn [negb snd]. rewrite put_level_abs. f_equal.
  destruct (get_level_lookup _ s Hwf Hp4) as [_ Hlw]. set (l := get_level (Z.to_nat prio) s) in *.
  unfold level_abs, enqueue. cbn [fst snd q_cursor].
  assert (tasks {| q_tasks := <[q_count l := pid]> (q_tasks l); q_count := q_count l + 1; q_cursor := q_cursor l |}
          = tasks l ++ [pid]) as ->.
  { unfold tasks. simpl. rewrite Nat.add_1_r, (take_S_r _ _ pid), take_insert_ge; [done|lia|].
    apply list_lookup_insert_eq. rewrite (lw_len _ Hlw). lia. }
  pose proof (tasks_length _ Hlw) as Hl. f_equal. destruct (lw_cursor _ Hlw) as [Hcur|[Hcur H0]].
  - rewrite lookup_app_l by lia. destruct (lookup_lt_is_Some_2 (tasks l) (q_cursor l)) as [x ->]; [lia|done].
  - rewrite H0 in Hl. apply nil_length_inv in Hl. by rewrite Hl, Hcur.
Qed.

(** The other levels do not have the task. *)
Lemma dequeue_one pid p s :
  sched_wf s → (p < QOS_SCHED_LEVELS)%nat → pid ∈ tasks (get_level p s) →
  dequeue pid <$> sched_abs s = <[p := dequeue pid (level_abs (get_level p s))]> (sched_abs s).
Proof.
  intros Hwf Hp Hin. apply list_eq. intros j. rewrite list_lookup_fmap.
  pose proof (level_lookup p s Hwf Hp) as Hlp. destruct (decide (j = p)) as [->|Hne].
  { rewrite list_lookup_insert_eq by (by eapply lookup_lt_Some). by rewrite Hlp. }
  rewrite list_lookup_insert_ne by done. destruct (sched_abs s !! j) as [a|] eqn:Ha; [|done]. cbn. f_equal.
  unfold dequeue. rewrite bool_decide_eq_false_2; [done|]. intros Hj. apply Hne.
  assert (queues s !! j = Some a.1) as Hq by (by rewrite <- abs_queues, list_lookup_fmap, Ha).
  eapply (level_unique pid (queues s)); [apply Hwf|exact Hq|by apply queues_lookup|done|done].
Qed.

Lemma queue_remove_at_abs p i pid s :
  sched_wf s → (p < QOS_SCHED_LEVELS)%nat → tasks (get_level p s) !! i = Some pid →
  sched_abs (queue_remove_at p i s) = dequeue pid <$> sched_abs s.
Proof.
  intros Hwf Hp Hi. pose proof (list_elem_of_lookup_2 _ _ _ Hi) as Hin. rewrite (dequeue_one pid p s) by done.
  destruct (get_level_lookup p s Hwf Hp) as [_ Hlw]. pose proof (level_nodup p s Hwf Hp) as Hnd.
  pose proof (tasks_length _ Hlw) as Hlen. pose proof (lookup_lt_Some _ _ _ Hi) as Hlt. rewrite Hlen in Hlt.
  unfold queue_remove_at, priority_valid, QOS_SCHED_PRIO_HIGH. set (l := get_level p s) in *.
  rewrite (proj2 (Z.leb_le _ 3)), (proj2 (Nat.leb_gt _ _)) by (unfold QOS_SCHED_LEVELS in Hp; lia).
  cbn [negb orb]. rewrite put_level_abs. f_equal. unfold level_abs, dequeue. cbn [fst snd q_cursor].
  rewrite bool_decide_eq_true_2 by done. set (l' := {| q_tasks := _ |}).
  assert (tasks l' = delete i (tasks l)) as -> by by apply tasks_remove.
  rewrite <- (delete_filter _ i pid) by done. f_equal. rewrite <- Hlen. apply turn_without_lookup; [done|done|].
  destruct (lw_cursor _ Hlw); lia.
Qed.

(** *** Next *)

Lemma spec_next_snoc L a :
  spec_next (L ++ [a])
  = match a.2 with
    | Some x => Some (x, L ++ [(a.1, following x a.1)])
    | None => '(pid, L') ← spec_next L; Some (pid, L' ++ [a])
    end.
Proof.
  induction L as [|b L IH]; cbn [spec_next app].
  - by destruct a as [q [x|]].
  - rewrite IH. destruct (a.2) as [x|]; [done|]. destruct (spec_next L) as [[pid L']|]; cbn; [done|]. by destruct (b.2).
Qed.

(** The scan over [n] levels is the specification on them. *)
Lemma next_from_abs n s :
  sched_wf s → (n <= QOS_SCHED_LEVELS)%nat →
  match spec_next (take n (sched_abs s)) with
  | Some (pid, L) => (next_from n s).1 = pid ∧ sched_abs (next_from n s).2 = L ++ drop n (sched_abs s)
  | None => (next_from n s).1 = 0 ∧ sched_abs (next_from n s).2 = sched_abs s
  end.
Proof.
  intros Hwf. induction n as [|n IH]; intros Hn; [done|]. specialize (IH ltac:(lia)).
  pose proof (level_lookup n s Hwf ltac:(lia)) as Ha. destruct (get_level_lookup n s Hwf) as [Hl Hlw]; [lia|].
  pose proof (tasks_length _ Hlw) as Hlen. pose proof (level_nodup n s Hwf ltac:(lia)) as Hnd.
  rewrite (take_S_r _ _ _ Ha), spec_next_snoc. cbn [next_from]. set (l := get_level n s) in *.
  destruct (Nat.eqb_spec (q_count l) 0) as [E|E]; cbn [negb level_abs fst snd].
  - rewrite E in Hlen. apply nil_length_inv in Hlen. rewrite Hlen, lookup_nil.
    destruct (spec_next (take n (sched_abs s))) as [[pid L]|]; cbn [mbind option_bind]; [|done].
    destruct IH as [? IH]. split; [done|]. rewrite IH, <- (assoc_L (++)). f_equal. rewrite (drop_S _ _ _ Ha).
    unfold level_abs. by rewrite Hlen, lookup_nil.
  - destruct (lw_cursor _ Hlw) as [Hc|[_ ?]]; [|done]. rewrite (Nat.mod_small _ _ Hc).
    destruct (lookup_lt_is_Some_2 (tasks l) (q_cursor l)) as [x Hx]; [lia|]. rewrite Hx.
    assert (q_tasks l !! q_cursor l = Some x) as Hx'.
    { unfold tasks in Hx. by apply lookup_take_Some in Hx as [? _]. }
    rewrite Hx'. split; [done|]. cbn [snd]. unfold sched_abs. cbn [levels]. rewrite list_fmap_insert.
    fold (sched_abs s). rewrite (insert_take_drop _ _ _ (lookup_lt_Some _ _ _ Ha)), <- (assoc_L (++)). do 2 f_equal.
    unfold level_abs. cbn [q_cursor]. change (tasks {| q_tasks := q_tasks l; q_count := _; q_cursor := _ |}) with (tasks l).
    by rewrite (following_lookup _ _ _ Hnd Hx), Hlen.
Qed.

Lemma next_from_empty n s : (∀ p, (p < n)%nat → q_count (get_level p s) = 0%nat) →
  next_from n s = (0, {| levels := levels s; total_count := total_count s; current_pid := 0 |}).
Proof.
  induction n as [|n IH]; intros H; [done|]. cbn [next_from]. rewrite H by lia. cbn [Nat.eqb negb]. apply IH. intros. apply H. lia.
Qed.

Lemma next_scans s : sched_wf s → qos_sched_next s = next_from QOS_SCHED_LEVELS s.
Proof.
  intros Hwf. unfold qos_sched_next. destruct (Z.eqb_spec (total_count s) 0) as [E|E]; [|done].
  symmetry. apply next_from_empty. intros p Hp. pose proof (level_count_le p s Hwf Hp) as Hle.
  rewrite (sw_total _ Hwf) in E. lia.
Qed.

Lemma sched_next_refines s :
  sched_wf s →
  let '(r, s') := qos_sched_next s in sched_wf s' ∧ (r, sched_abs s') = sched_spec SNext (sched_abs s).
Proof.
  intros Hwf. pose proof (qos_sched_next_ok s Hwf) as [Hwf' _]. rewrite next_scans in * by done.
  pose proof (next_from_abs QOS_SCHED_LEVELS s Hwf ltac:(lia)) as H. cbn [sched_spec].
  assert (length (sched_abs s) = QOS_SCHED_LEVELS) as Hl by (unfold sched_abs; rewrite length_fmap; apply Hwf).
  rewrite take_ge, drop_ge in H by lia. destruct (next_from QOS_SCHED_LEVELS s) as [r s']. cbn [fst snd] in *.
  split; [done|]. destruct (spec_next (sched_abs s)) as [[pid L]|]; destruct H as [-> ->]; by rewrite ?app_nil_r.
Qed.

Lemma set_priority_refines pid prio s :
  sched_wf s → 0 <= prio →
  let '(r, s') := qos_sched_set_priority pid prio s in
  sched_wf s' ∧ (r, sched_abs s') = sched_spec (SSetPriority pid prio) (sched_abs s).
Proof.
  intros Hwf H0. unfold qos_sched_set_priority, sched_spec, priority_valid, QOS_SCHED_PRIO_HIGH. rewrite abs_all.
  destruct (Z.leb_spec prio 3) as [Hp|Hp]; cbn [negb];
    [|by rewrite bool_decide_eq_false_2 by (intros [??]; lia)].
  pose proof (find_pid_spec pid s Hwf) as Hf. destruct (find_pid pid s) as [[p i]|];
    [|by rewrite bool_decide_eq_false_2 by (intros [??]; done)].
  destruct Hf as (Hp4 & Hi & Hin). rewrite bool_decide_eq_true_2 by done.
  assert (Z.to_nat prio < QOS_SCHED_LEVELS)%nat as Hpn by (unfold QOS_SCHED_LEVELS; lia).
  rewrite (level_lookup _ _ Hwf Hpn). cbn [fmap option_fmap option_map default level_abs fst].
  pose proof (list_elem_of_lookup_2 _ _ _ Hi) as Hint.
  destruct (Z.eqb_spec (Z.of_nat p) prio) as [<-|Hne].
  { rewrite Nat2Z.id. by rewrite bool_decide_eq_true_2. }
  rewrite bool_decide_eq_false_2; last first.
  { intros Hin'. apply Hne. assert (p = Z.to_nat prio) as ->; [|lia].
    by eapply (level_unique pid (queues s)); [apply Hwf|apply queues_lookup|apply queues_lookup|exact Hint|exact Hin']. }
  destruct (queue_remove_at_ok p i pid s Hwf Hp4 Hi) as (Hwf1 & HP & _).
  rewrite <- (queue_remove_at_abs p i pid s Hwf Hp4 Hi). set (s1 := queue_remove_at p i s) in *.
  assert (pid ∉ all_tasks s1) as Hni.
  { pose proof (sw_nodup _ Hwf) as Hnd. rewrite <- HP in Hnd. by apply NoDup_cons in Hnd as [? _]. }
  assert (pid ≠ 0) as Hnz by (intros ->; by apply (sw_nonzero _ Hwf)).
  pose proof (Permutation_length HP) as Hlen. cbn [length] in Hlen. pose proof (sw_bound _ Hwf).
  pose proof (level_count_le _ _ Hwf1 Hpn) as Hcl.
  pose proof (queue_append_ok prio pid s1 Hwf1 ltac:(lia) Hnz Hni ltac:(lia)) as Ha.
  pose proof (queue_append_abs prio pid s1 Hwf1 ltac:(lia) ltac:(lia)) as Hab.
  destruct (queue_append prio pid s1) as [r s2]. destruct Ha as (-> & Hwf2 & _). cbn [negb Z.eqb snd] in *.
  by rewrite Hab.
Qed.

Lemma sched_add_refines pid prio s :
  sched_wf s → 0 <= prio →
  let '(r, s') := qos_sched_add_task_prio pid prio s in
  sched_wf s' ∧ (r, sched_abs s') = sched_spec (SAdd pid prio) (sched_abs s).
Proof.
  intros Hwf Ho. unfold qos_sched_add_task_prio, sched_spec, priority_valid, QOS_SCHED_PRIO_HIGH. rewrite abs_all.
  pose proof (find_pid_spec pid s Hwf) as Hf. case_bool_decide as Hc.
  - destruct Hc as (Hnz & Hp & Hni & Hlt). rewrite (proj2 (Z.eqb_neq _ _)), (proj2 (Z.leb_le _ _)) by done.
    destruct (find_pid pid s) as [[p i]|]; [naive_solver|]. cbn [negb orb].
    rewrite (proj2 (Z.leb_gt _ _)) by (rewrite (sw_total _ Hwf); unfold QOS_SCHED_MAX_TASKS; lia).
    assert (Z.to_nat prio < QOS_SCHED_LEVELS)%nat as Hpn by (unfold QOS_SCHED_LEVELS; lia).
    pose proof (level_count_le _ _ Hwf Hpn) as Hcl.
    pose proof (queue_append_ok prio pid s Hwf ltac:(lia) Hnz Hni Hlt) as Ha.
    pose proof (queue_append_abs prio pid s Hwf ltac:(lia) ltac:(unfold QOS_SCHED_MAX_TASKS; lia)) as Hab.
    destruct (queue_append prio pid s) as [r s2]. destruct Ha as (-> & Hwf2 & _). cbn [snd] in Hab. by rewrite Hab.
  - destruct (_ || _) eqn:E1; [done|]. destruct (find_pid pid s) as [[p i]|]; [done|].
    rewrite (proj2 (Z.leb_le _ _)); [done|]. rewrite (sw_total _ Hwf). unfold QOS_SCHED_MAX_TASKS.
    apply orb_false_iff in E1 as [?%Z.eqb_neq ?%negb_false_iff%Z.leb_le].
    destruct (decide (length (all_tasks s) < 64)%nat); [|lia]. exfalso. by apply Hc.
Qed.

Lemma sched_step_refines o s :
  sched_wf s → sched_op_ok o →
  let '(r, s') := sched_exec o s in
  sched_wf s' ∧ (r, sched_abs s') = sched_spec o (sched_abs s).
Proof.
  intros Hwf Ho. destruct o as [pid prio|pid|pid prio|]; cbn [sched_exec].
  - by apply sched_add_refines.
  - unfold qos_sched_remove_task, sched_spec. rewrite abs_all.
    pose proof (find_pid_spec pid s Hwf) as Hf. destruct (find_pid pid s) as [[p i]|].
    + destruct Hf as (Hp4 & Hi & Hin). rewrite bool_decide_eq_true_2 by done.
      destruct (queue_remove_at_ok p i pid s Hwf Hp4 Hi) as (Hwf1 & _ & _). split; [done|].
      by rewrite (queue_remove_at_abs p i pid).
    + by rewrite bool_decide_eq_false_2.
  - by apply set_priority_refines.
  - by apply sched_next_refines.
Qed.

Fixpoint sched_run (ops : list sched_op) (s : sched) : list Z * sched :=
  match ops with
  | [] => ([], s)
  | o :: ops' => let '(r, s1) := sched_exec o s in
                 let '(rs, s2) := sched_run ops' s1 in (r :: rs, s2)
  end.

Fixpoint sched_spec_run (ops : list sched_op) (L : list alevel) : list Z * list alevel :=
  match ops with
  | [] => ([], L)
  | o :: ops' => let '(r, L1) := sched_spec o L in
                 let '(rs, L2) := sched_spec_run ops' L1 in (r :: rs, L2)
  end.

Lemma sched_run_refines ops s :
  sched_wf s → Forall sched_op_ok ops →
  let '(rs, s') := sched_run ops s in
  sched_wf s' ∧ (rs, sched_abs s') = sched_spec_run ops (sched_abs s).
Proof.
  revert s. induction ops as [|o ops IH]; intros s Hwf Hok; cbn [sched_run sched_spec_run]; [done|].
  apply Forall_cons in Hok as [Ho Hok]. pose proof (sched_step_refines o s Hwf Ho) as Hs.
  destruct (sched_exec o s) as [r s1]. destruct Hs as [Hwf1 E]. rewrite <- E.
  specialize (IH s1 Hwf1 Hok). destruct (sched_run ops s1) as [rs s2]. destruct IH as [? E2].
  by rewrite <- E2.
Qed.

Lemma sched_reset_wf : sched_wf qos_sched_reset.
Proof.
  split; try done.
  - intros p l H. apply lookup_replicate in H as [-> _]. split; simpl; [done|lia|by right].
  - vm_compute. lia.
  - vm_compute. constructor.
  - vm_compute. intros H. inversion H.
Qed.

(** ** Who runs next *)

(** [p] is the highest level with a task. *)
Definition top_level (p : nat) (s : sched) : Prop :=
  (p < QOS_SCHED_LEVELS)%nat ∧ tasks (get_level p s) ≠ [] ∧
  ∀ p', (p < p' < QOS_SCHED_LEVELS)%nat → tasks (get_level p' s) = [].

Definition advance (p : nat) (pid : Z) (s : sched) : sched :=
  let l := get_level p s in
  {| levels := <[p := {| q_tasks := q_tasks l; q_count := q_count l;
                         q_cursor := (q_cursor l + 1) mod q_count l |}]> (levels s);
     total_count := total_count s; current_pid := pid |}.

Lemma next_from_top n p s :
  sched_wf s → top_level p s → (p < n <= QOS_SCHED_LEVELS)%nat →
  let l := get_level p s in
  let pid := default 0 (tasks l !! q_cursor l) in
  next_from n s = (pid, advance p pid s).
Proof.
  intros Hwf (Hp & Hne & Hhi) Hn. destruct (get_level_lookup p s Hwf Hp) as [_ Hlw].
  induction n as [|n IH]; [lia|]. cbn [next_from].
  destruct (decide (n = p)) as [->|Hnp].
  - pose proof (tasks_length _ Hlw) as Hlen. set (l := get_level p s) in *.
    destruct (Nat.eqb_spec (q_count l) 0) as [E|E].
    { rewrite E in Hlen. by apply nil_length_inv in Hlen. }
    cbn [negb]. destruct (lw_cursor _ Hlw) as [Hc|[_ ?]]; [|lia].
    rewrite (Nat.mod_small _ _ Hc). unfold tasks. rewrite lookup_take, decide_True by done. done.
  - destruct (get_level_lookup n s Hwf) as [_ Hnw]; [lia|].
    rewrite <- (tasks_length _ Hnw), Hhi by lia. apply IH. lia.
Qed.

(** The next task is the one under the cursor of the highest non-empty level. *)
Lemma next_top p s :
  sched_wf s → top_level p s →
  let l := get_level p s in
  let pid := default 0 (tasks l !! q_cursor l) in
  qos_sched_next s = (pid, advance p pid s).
Proof.
  intros Hwf Ht. unfold qos_sched_next. pose proof Ht as (Hp & Hne & _).
  pose proof (level_count_le p s Hwf Hp) as Hle. destruct (get_level_lookup p s Hwf Hp) as [_ Hlw].
  rewrite <- (tasks_length _ Hlw) in Hle.
  destruct (Z.eqb_spec (total_count s) 0) as [E|E]; [|by apply next_from_top].
  rewrite (sw_total _ Hwf) in E. destruct (tasks (get_level p s)); [done|]. simpl in Hle. lia.
Qed.

Lemma advance_level p pid s p' :
  sched_wf s → (p < QOS_SCHED_LEVELS)%nat →
  tasks (get_level p' (advance p pid s)) = tasks (get_level p' s)
  ∧ (q_cursor (get_level p (advance p pid s))
     = (q_cursor (get_level p s) + 1) mod length (tasks (get_level p s)))%nat.
Proof.
  intros Hwf Hp. destruct (get_level_lookup p s Hwf Hp) as [Hl Hlw].
  pose proof (sw_levels _ Hwf) as H4. split.
  - unfold get_level at 1. simpl. destruct (decide (p' = p)) as [->|].
    + rewrite list_lookup_insert_eq by (rewrite H4; done). done.
    + by rewrite list_lookup_insert_ne by done.
  - unfold get_level at 1. simpl. rewrite list_lookup_insert_eq by (rewrite H4; done).
    simpl. by rewrite (tasks_length _ Hlw).
Qed.

Fixpoint next_run (n : nat) (s : sched) : list Z * sched :=
  match n with
  | O => ([], s)
  | S n' => let '(pid, s1) := qos_sched_next s in
            let '(pids, s2) := next_run n' s1 in (pid :: pids, s2)
  end.

Lemma next_run_lookup n p s :
  sched_wf s → top_level p s →
  let l := get_level p s in
  length (next_run n s).1 = n
  ∧ (∀ j, (j < n)%nat → (next_run n s).1 !! j = tasks l !! ((q_cursor l + j) mod length (tasks l))%nat)
  ∧ q_cursor (get_level p (next_run n s).2) = ((q_cursor l + n) mod length (tasks l))%nat
  ∧ queues (next_run n s).2 = queues s.
Proof.
  revert s. induction n as [|n IH]; intros s Hwf Ht; pose proof Ht as (Hp & Hne & Hhi);
    destruct (get_level_lookup p s Hwf Hp) as [_ Hlw]; pose proof (tasks_length _ Hlw) as Hlen.
  { cbn [next_run fst snd]. split; [done|]. split; [lia|]. split; [|done].
    rewrite Nat.add_0_r, Nat.mod_small; [done|].
    destruct (lw_cursor _ Hlw); [lia|]. destruct (tasks _); [done|simpl in *; lia]. }
  cbn [next_run]. pose proof (next_top p s Hwf Ht) as E. cbv zeta in E.
  pose proof (qos_sched_next_ok s Hwf) as [Hwf1 Hq1]. rewrite E in Hwf1, Hq1 |- *. cbn [snd] in Hwf1, Hq1.
  set (pid := default 0 _) in *. set (s1 := advance p pid s) in *.
  assert (∀ p', tasks (get_level p' s1) = tasks (get_level p' s)) as Htk.
  { intros p'. by apply (advance_level p pid s p' Hwf Hp). }
  destruct (advance_level p pid s p Hwf Hp) as [_ Hcur]. fold s1 in Hcur.
  assert (top_level p s1) as Ht1.
  { split; [done|]. rewrite Htk. split; [done|]. intros p' ?. rewrite Htk. by apply Hhi. }
  destruct (IH s1 Hwf1 Ht1) as (IHl & IHj & IHc & IHq). rewrite Htk, Hcur in IHj, IHc.
  destruct (next_run n s1) as [pids s2]. cbn [fst snd] in *.
  set (k := length (tasks (get_level p s))) in *.
  assert (k ≠ 0%nat) as Hk by (unfold k; destruct (tasks _); done).
  split; [by simpl; rewrite IHl|]. split; [|split; [|by rewrite IHq]].
  - intros [|j] Hj; simpl.
    + assert (q_cursor (get_level p s) < k)%nat as Hc by (destruct (lw_cursor _ Hlw); lia).
      rewrite Nat.add_0_r, (Nat.mod_small _ _ Hc). unfold pid.
      destruct (lookup_lt_is_Some_2 _ _ Hc) as [x Hx]. by rewrite Hx.
    + rewrite IHj, Nat.Div0.add_mod_idemp_l by lia. do 2 f_equal. lia.
  - rewrite IHc, Nat.Div0.add_mod_idemp_l. f_equal. lia.
Qed.

Lemma remove_at_cursor p i s :
  sched_wf s → (p < QOS_SCHED_LEVELS)%nat → (i < length (tasks (get_level p s)))%nat →
  q_cursor (get_level p (queue_remove_at p i s))
  = cursor_after_remove i (length (tasks (get_level p s)) - 1) (q_cursor (get_level p s)).
Proof.
  intros Hwf Hp Hi. destruct (get_level_lookup p s Hwf Hp) as [_ Hlw].
  rewrite (tasks_length _ Hlw) in *. unfold queue_remove_at, priority_valid, QOS_SCHED_PRIO_HIGH.
  rewrite (proj2 (Z.leb_le _ 3)), (proj2 (Nat.leb_gt _ _)) by (unfold QOS_SCHED_LEVELS in Hp; lia).
  cbn [negb orb]. unfold get_level at 1. simpl.
  rewrite list_lookup_insert_eq by by rewrite (sw_levels _ Hwf). done.
Qed.

Lemma remove_turn_lookup (q : list Z) c i t x :
  q !! i = Some x → q !! c = Some t → i ≠ c →
  default 0 (delete i q !! cursor_after_remove i (length q - 1) c)
  = if (c + 1 <? length q)%nat then t else default 0 (head (delete i q)).
Proof.
  intros Hi%lookup_lt_Some Hc Hne. pose proof (lookup_lt_Some _ _ _ Hc) as Hcl. unfold cursor_after_remove.
  rewrite (proj2 (Nat.eqb_neq (length q - 1) 0)) by lia.
  destruct (Nat.ltb_spec (c + 1) (length q)).
  - rewrite (proj2 (Nat.leb_gt _ c)) by lia. destruct (Nat.ltb_spec i c); cbn [andb].
    + rewrite (proj2 (Nat.ltb_lt 0 c)) by lia.
      rewrite list_lookup_delete_ge, <- Nat.sub_succ_l, Nat.sub_1_r by lia. simpl. by rewrite Hc.
    + rewrite list_lookup_delete_lt by lia. by rewrite Hc.
  - rewrite (proj2 (Nat.leb_le _ c)), andb_false_r by lia. by destruct (delete i q).
Qed.

(** ** Correctness *)

(** C15: the scheduler is four lists of tasks, each with one task whose turn it is.  From reset,
    every sequence of add, remove, set-priority and next operations, with non-negative
    priorities, returns the results and leaves the lists and turns of that specification:
    next returns the task with the turn in the highest level that has tasks, or 0, and
    passes the turn to the task behind it, from the last to the first; a pid is queued
    once, at the tail; a change of priority moves it to the tail of its new level and
    never fails half-way (the rollback is dead code); a removal leaves the turn where it
    is, or passes it on when the removed task had it, but when the last task of a level has
    the turn the first gets it; at most 64 tasks are queued and all array invariants hold. *)
Theorem sched_refines_task_lists ops :
  Forall sched_op_ok ops →
  let '(rs, s') := sched_run ops qos_sched_reset in
  sched_wf s' ∧ (rs, sched_abs s') = sched_spec_run ops (replicate 4 ([], None)).
Proof. intros Hok. exact (sched_run_refines ops _ sched_reset_wf Hok). Qed.

Definition demo_sched_ops : list sched_op := [SAdd 7 2; SAdd 8 2; SAdd 9 2; SNext; SSetPriority 7 1; SNext; SRemove 8; SNext; SAdd 7 3].

Lemma sched_refines_task_lists_witness :
  (sched_run demo_sched_ops qos_sched_reset).1 = [0; 0; 0; 7; 0; 8; 0; 9; -1]
  ∧ sched_abs (sched_run demo_sched_ops qos_sched_reset).2 = [([], None); ([7], Some 7); ([9], Some 9); ([], None)].
Proof.
  assert (Forall sched_op_ok demo_sched_ops) as H by (repeat constructor; simpl; lia).
  pose proof (sched_refines_task_lists demo_sched_ops H) as HT.
  destruct (sched_run demo_sched_ops qos_sched_reset) as [rs s']. destruct HT as [_ HT]. cbn [fst snd].
  split; [exact (f_equal fst HT)|exact (f_equal snd HT)].
Defined.

(** Round robin. If level [p] is the highest one with tasks, as many calls
    of next as it has tasks return every one of them exactly once, in queue
    order from the cursor, change no queue and bring the cursor back. *)
Theorem sched_round_robin p s :
  sched_wf s → top_level p s →
  let q := tasks (get_level p s) in
  let c := q_cursor (get_level p s) in
  let '(pids, s') := next_run (length q) s in
  pids = rotate c q ∧ pids ≡ₚ q ∧ queues s' = queues s ∧ q_cursor (get_level p s') = c.
Proof.
  intros Hwf Ht. pose proof (next_run_lookup (length (tasks (get_level p s))) p s Hwf Ht) as H.
  cbv zeta in *. destruct (next_run _ s) as [pids s']. cbn [fst snd] in H.
  destruct H as (Hl & Hj & Hc & Hq). destruct Ht as (Hp & Hne & _).
  destruct (get_level_lookup p s Hwf Hp) as [_ Hlw]. pose proof (tasks_length _ Hlw) as Hlen.
  set (q := tasks (get_level p s)) in *. set (c := q_cursor (get_level p s)) in *.
  assert (length q ≠ 0%nat) as Hk by (destruct q; done).
  assert (c < length q)%nat as Hcl by (destruct (lw_cursor _ Hlw); lia).
  assert (pids = rotate c q) as ->.
  { apply list_eq. intros j. destruct (decide (j < length q)%nat) as [Hlt|Hge].
    - rewrite Hj, lookup_rotate_r by done. f_equal. unfold rotate_nat_add.
      by rewrite <- Nat2Z.inj_add, <- Nat2Z.inj_mod, Nat2Z.id.
    - rewrite !lookup_ge_None_2 by (rewrite ?length_rotate; lia). done. }
  split; [done|]. split; [|split; [done|]].
  - unfold rotate. rewrite Permutation_app_comm. by rewrite take_drop.
  - rewrite Hc. rewrite <- (Nat.mul_1_l (length q)) at 1. by rewrite Nat.Div0.mod_add, Nat.mod_small.
Qed.

Definition demo_sched : sched := (sched_run [SAdd 1 2; SAdd 2 2; SAdd 3 2; SNext; SNext] qos_sched_reset).2.

Lemma demo_sched_ok : sched_wf demo_sched ∧ top_level 2 demo_sched.
Proof.
  split.
  - pose proof (sched_run_refines [SAdd 1 2; SAdd 2 2; SAdd 3 2; SNext; SNext] _ sched_reset_wf) as H.
    unfold demo_sched. destruct (sched_run _ _) as [rs s']. apply H. repeat constructor; simpl; lia.
  - split; [unfold QOS_SCHED_LEVELS; lia|]. split; [done|]. intros p' Hp'.
    assert (p' = 3%nat) as -> by (unfold QOS_SCHED_LEVELS in Hp'; lia). reflexivity.
Qed.

Lemma sched_round_robin_witness : (next_run 3 demo_sched).1 = [3; 1; 2].
Proof.
  destruct demo_sched_ok as [Hwf Ht]. pose proof (sched_round_robin 2 demo_sched Hwf Ht) as H.
  vm_compute in H. exact (proj1 H).
Defined.

(** The effect of a removal on whose turn it is. When a task other than
    the one under the cursor of the highest level is removed, the task under
    the cursor still runs next, except when it is the last of its queue: then
    the scan restarts at the front and the last task loses its turn. *)
Theorem sched_remove_turn p s i pid t :
  sched_wf s → top_level p s →
  let q := tasks (get_level p s) in
  let c := q_cursor (get_level p s) in
  q !! i = Some pid → q !! c = Some t → i ≠ c →
  (qos_sched_next (qos_sched_remove_task pid s).2).1 =
  if (c + 1 <? length q)%nat then t else default 0 (head (delete i q)).
Proof.
  intros Hwf Ht q c Hi Hc Hne. pose proof Ht as (Hp & _ & Hhi).
  pose proof (lookup_lt_Some _ _ _ Hi) as Hil. pose proof (lookup_lt_Some _ _ _ Hc) as Hcl.
  unfold qos_sched_remove_task. pose proof (find_pid_spec pid s Hwf) as Hf.
  destruct (get_level_lookup p s Hwf Hp) as [Hl Hlw]. pose proof (tasks_length _ Hlw) as Hlen. fold q in Hlen.
  pose proof (list_elem_of_lookup_2 _ _ _ Hi) as Hin.
  destruct (find_pid pid s) as [[p0 i0]|]; last first.
  { exfalso. apply Hf, elem_of_all_tasks. eauto. }
  destruct Hf as (Hp0 & Hi0 & _).
  assert (p0 = p) as ->.
  { eapply (level_unique pid (queues s)); [apply Hwf|by apply queues_lookup..| |exact Hin].
    by eapply list_elem_of_lookup_2. }
  assert (i0 = i) as ->.
  { eapply (NoDup_lookup q); try done. apply (NoDup_concat_level (queues s) p); [apply Hwf|].
    by apply queues_lookup. }
  cbn [snd]. destruct (queue_remove_at_ok p i pid s Hwf Hp Hi) as (Hwf' & _ & Hq').
  pose proof (remove_at_cursor p i s Hwf Hp Hil) as Hcur.
  set (s' := queue_remove_at p i s) in *.
  assert (tasks (get_level p s') = delete i q) as Htk.
  { pose proof (queues_lookup p s' Hwf' Hp) as H. rewrite Hq', list_lookup_insert_eq in H; [by injection H|].
    by eapply lookup_lt_Some, queues_lookup. }
  pose proof (length_delete q i ltac:(eauto)) as Hdl.
  assert (top_level p s') as Ht'.
  { split; [done|]. rewrite Htk. split; [intros E; rewrite E in Hdl; simpl in Hdl; lia|].
    intros p' Hp'. pose proof (queues_lookup p' s' Hwf' ltac:(lia)) as H.
    rewrite Hq', list_lookup_insert_ne, queues_lookup in H by (done || lia).
    injection H as <-. by apply Hhi. }
  pose proof (next_top p s' Hwf' Ht') as ->. cbn [fst]. rewrite Htk, Hcur. fold q c.
  by eapply remove_turn_lookup.
Qed.

Lemma sched_remove_turn_witness : (qos_sched_next (qos_sched_remove_task 1 demo_sched).2).1 = 2.
Proof.
  destruct demo_sched_ok as [Hwf Ht].
  exact (sched_remove_turn 2 demo_sched 0 1 3 Hwf Ht eq_refl eq_refl ltac:(done)).
Defined.
