(* ===== verification/Sync.v ===== *)
(** * Locks and semaphores (c-os/kernel/sync/sync.c)

    Module [Spin]: the spinlock, its sequential operations and the interleaving
    of any number of threads that use them, as a step relation whose steps are
    the accesses the code makes (the atomic exchange of
    [__sync_lock_test_and_set], the read of [qos_spin_unlock] and the store of
    [__sync_lock_release]).  [Mutex] and [Sem]: the try-style mutex and the
    counting semaphore.  A pointer argument is an [option]: [None] is NULL. *)

From S2P Require Import Prelude.

Module Spin.

Record qos_spinlock_t := { locked : Z }.

(** [__sync_lock_test_and_set(&lock->locked, v)]: the old value and the new word. *)
Definition test_and_set (v : Z) (l : qos_spinlock_t) : Z * qos_spinlock_t :=
  (locked l, {| locked := v |}).

Definition qos_spin_init (lock : option qos_spinlock_t) : Z * option qos_spinlock_t :=
  match lock with
  | None => (-1, None)
  | Some _ => (0, Some {| locked := 0 |})
  end.

Definition qos_spin_trylock (lock : option qos_spinlock_t) : Z * option qos_spinlock_t :=
  match lock with
  | None => (-1, None)
  | Some l => let '(old, l') := test_and_set 1 l in (if old =? 0 then 0 else -1, Some l')
  end.

(** The busy-wait loop; [None] when [fuel] attempts were not enough. *)
Fixpoint spin_loop (fuel : nat) (lock : option qos_spinlock_t) : option (Z * option qos_spinlock_t) :=
  match fuel with
  | O => None
  | S fuel' =>
      let '(r, lock') := qos_spin_trylock lock in
      if negb (r =? 0) then spin_loop fuel' lock' else Some (0, lock')
  end.

Definition qos_spin_lock (fuel : nat) (lock : option qos_spinlock_t) : option (Z * option qos_spinlock_t) :=
  match lock with
  | None => Some (-1, None)
  | Some _ => spin_loop fuel lock
  end.

Definition qos_spin_unlock (lock : option qos_spinlock_t) : Z * option qos_spinlock_t :=
  match lock with
  | None => (-1, None)
  | Some l => if locked l =? 0 then (-1, lock) else (0, Some {| locked := 0 |})
  end.

Definition qos_spin_is_locked (lock : option qos_spinlock_t) : Z :=
  match lock with
  | None => -1
  | Some l => if negb (locked l =? 0) then 1 else 0
  end.

(** ** Interleaving *)

(** Where a thread is: outside, in the loop of [qos_spin_lock], returned from
    it, or between the check and the store of [qos_spin_unlock]. *)
Inductive pc := Outside | Spinning | Holding | Releasing | UnlockFailed.

Definition is_owner (p : pc) : bool := match p with Holding | Releasing => true | _ => false end.

(** The lock word and the threads. *)
Record machine := { word : qos_spinlock_t; threads : list pc }.

Definition set_thread (t : nat) (p : pc) (w : qos_spinlock_t) (m : machine) : machine :=
  {| word := w; threads := <[t := p]> (threads m) |}.

Inductive step : machine → machine → Prop :=
| step_call_lock m t :
    threads m !! t = Some Outside → step m (set_thread t Spinning (word m) m)
| step_acquire m t l' :
    threads m !! t = Some Spinning →
    qos_spin_trylock (Some (word m)) = (0, Some l') →
    step m (set_thread t Holding l' m)
| step_retry m t l' :
    threads m !! t = Some Spinning →
    qos_spin_trylock (Some (word m)) = (-1, Some l') →
    step m (set_thread t Spinning l' m)
| step_unlock_check m t :
    threads m !! t = Some Holding →
    step m (set_thread t (if locked (word m) =? 0 then UnlockFailed else Releasing) (word m) m)
| step_unlock_store m t :
    threads m !! t = Some Releasing →
    step m (set_thread t Outside {| locked := 0 |} m).

Inductive reachable (n : nat) : machine → Prop :=
| reach_init : reachable n {| word := {| locked := 0 |}; threads := replicate n Outside |}
| reach_step m m' : reachable n m → step m m' → reachable n m'.

(** The word says whether there is an owner, there is at most one, and no
    unlock has failed. *)
Record machine_inv (m : machine) : Prop := {
  mi_word : (locked (word m) = 0 ∧ count_if is_owner (threads m) = 0%nat)
            ∨ (locked (word m) = 1 ∧ count_if is_owner (threads m) = 1%nat);
  mi_ok : UnlockFailed ∉ threads m
}.

Lemma set_thread_count t p p' w m :
  threads m !! t = Some p →
  (count_if is_owner (threads (set_thread t p' w m)) + (if is_owner p then 1 else 0)
   = count_if is_owner (threads m) + (if is_owner p' then 1 else 0))%nat.
Proof. apply count_if_insert. Qed.

Lemma set_thread_ok t p w m :
  UnlockFailed ∉ threads m → p ≠ UnlockFailed → UnlockFailed ∉ threads (set_thread t p w m).
Proof.
  intros H Hp [i Hi]%list_elem_of_lookup. simpl in Hi.
  apply list_lookup_insert_Some in Hi as [(_ & ? & _)|(_ & Hi)]; [done|].
  by eapply H, list_elem_of_lookup_2.
Qed.

Lemma trylock_result l r l' :
  qos_spin_trylock (Some l) = (r, Some l') →
  l' = {| locked := 1 |} ∧ (r = 0 → locked l = 0) ∧ (r = -1 → locked l ≠ 0).
Proof. simpl. destruct (Z.eqb_spec (locked l) 0); intros H; simplify_eq; split; done. Qed.

Lemma step_inv m m' : machine_inv m → step m m' → machine_inv m'.
Proof.
  intros [Hw Hok] Hs. destruct Hs as [m t Ht|m t l' Ht Hl|m t l' Ht Hl|m t Ht|m t Ht].
  - pose proof (set_thread_count t _ Spinning (word m) m Ht) as HC. simpl in HC.
    split; [|by apply set_thread_ok]. simpl. destruct Hw; [left|right]; split; try tauto; simpl; lia.
  - apply trylock_result in Hl as (-> & H0 & _). specialize (H0 eq_refl).
    pose proof (set_thread_count t _ Holding {| locked := 1 |} m Ht) as HC. simpl in HC.
    split; [|by apply set_thread_ok]. right. simpl. destruct Hw; [split; [done|lia]|lia].
  - apply trylock_result in Hl as (-> & _ & H0). specialize (H0 eq_refl).
    pose proof (set_thread_count t _ Spinning {| locked := 1 |} m Ht) as HC. simpl in HC.
    split; [|by apply set_thread_ok]. right. simpl. destruct Hw; [lia|split; [done|lia]].
  - pose proof (count_if_pos is_owner _ _ _ Ht eq_refl).
    destruct Hw as [?|[Hl Hc]]; [lia|]. rewrite Hl. simpl.
    pose proof (set_thread_count t _ Releasing (word m) m Ht) as HC. simpl in HC.
    split; [|by apply set_thread_ok]. right. simpl. split; [done|lia].
  - pose proof (set_thread_count t _ Outside {| locked := 0 |} m Ht) as HC. simpl in HC.
    split; [|by apply set_thread_ok]. left. simpl. destruct Hw; [lia|split; [done|lia]].
Qed.

Lemma reachable_inv n m : reachable n m → machine_inv m.
Proof.
  induction 1; [|by eapply step_inv].
  split; simpl; [left; by rewrite count_if_replicate|]. by intros [? _]%elem_of_replicate.
Qed.

Lemma count_if_two {A} (p : A → bool) l i j a b :
  l !! i = Some a → l !! j = Some b → p a = true → p b = true → i ≠ j → (2 <= count_if p l)%nat.
Proof.
  revert i j. induction l as [|x l IH]; intros i j Hi Hj Ha Hb Hne; [done|].
  destruct i as [|i], j as [|j]; simplify_eq/=.
  - rewrite Ha. pose proof (count_if_pos p l j b Hj Hb). lia.
  - rewrite Hb. pose proof (count_if_pos p l i a Hi Ha). lia.
  - pose proof (IH i j Hi Hj Ha Hb ltac:(lia)). lia.
Qed.

(** C18: Mutual exclusion of the spinlock. In every interleaving of any number
    of threads that lock and unlock it, two threads are never both between the
    return of [qos_spin_lock] and the release; the owner's unlock never takes
    the error return; and whenever no thread owns the lock, the next attempt
    of a spinning thread succeeds. *)
Theorem spin_mutual_exclusion n m :
  reachable n m →
  (∀ i j p q, threads m !! i = Some p → threads m !! j = Some q →
              is_owner p = true → is_owner q = true → i = j)
  ∧ (UnlockFailed ∉ threads m)
  ∧ ((∀ i p, threads m !! i = Some p → is_owner p = false) →
     qos_spin_trylock (Some (word m)) = (0, Some {| locked := 1 |})).
Proof.
  intros Hr. destruct (reachable_inv n m Hr) as [Hw Hok]. split; [|split; [done|]].
  - intros i j p q Hi Hj Hp Hq. destruct (decide (i = j)) as [|Hne]; [done|].
    pose proof (count_if_two is_owner _ _ _ _ _ Hi Hj Hp Hq Hne). lia.
  - intros Hno. destruct Hw as [[H0 _]|[_ Hc]]; simpl; [by rewrite H0|]. exfalso.
    destruct (first_index is_owner (threads m)) as [i|] eqn:E.
    + apply first_index_lookup in E as (a & Ha & Hp). by rewrite (Hno _ _ Ha) in Hp.
    + assert (count_if is_owner (threads m) = 0%nat); [|lia].
      clear -Hno. induction (threads m) as [|x l IH]; [done|]. simpl. rewrite (Hno 0%nat x eq_refl).
      apply IH. intros i p Hi. by apply (Hno (S i)).
Qed.

Definition demo_machine : machine := {| word := {| locked := 1 |}; threads := [Holding; Spinning] |}.

Lemma demo_reachable : reachable 2 demo_machine.
Proof.
  pose proof (reach_init 2) as H.
  eapply reach_step in H; [|by apply (step_call_lock _ 0)].
  eapply reach_step in H; [|by apply (step_acquire _ 0 {| locked := 1 |})].
  eapply reach_step in H; [|by apply (step_call_lock _ 1)]. exact H.
Qed.

Lemma spin_mutual_exclusion_witness : UnlockFailed ∉ threads demo_machine.
Proof. exact (proj1 (proj2 (spin_mutual_exclusion 2 demo_machine demo_reachable))). Defined.

End Spin.

Module Mutex.

Record qos_mutex_t := { locked : Z; waiters : Z }.

Definition qos_mutex_init (mutex : option qos_mutex_t) : Z * option qos_mutex_t :=
  match mutex with
  | None => (-1, None)
  | Some _ => (0, Some {| locked := 0; waiters := 0 |})
  end.

Definition qos_mutex_lock (mutex : option qos_mutex_t) : Z * option qos_mutex_t :=
  match mutex with
  | None => (-1, None)
  | Some m =>
      if locked m =? 0 then (0, Some {| locked := 1; waiters := waiters m |})
      else (-1, Some {| locked := locked m; waiters := u32 (waiters m + 1) |})
  end.

Definition qos_mutex_trylock (mutex : option qos_mutex_t) : Z * option qos_mutex_t :=
  match mutex with
  | None => (-1, None)
  | Some m =>
      if locked m =? 0 then (0, Some {| locked := 1; waiters := waiters m |})
      else (-1, mutex)
  end.

Definition qos_mutex_unlock (mutex : option qos_mutex_t) : Z * option qos_mutex_t :=
  match mutex with
  | None => (-1, None)
  | Some m =>
      if locked m =? 0 then (-1, mutex)
      else (0, Some {| locked := 0;
                       waiters := if 0 <? waiters m then waiters m - 1 else waiters m |})
  end.

Definition qos_mutex_waiters (mutex : option qos_mutex_t) : Z :=
  match mutex with None => 0 | Some m => waiters m end.

Definition qos_mutex_is_locked (mutex : option qos_mutex_t) : Z :=
  match mutex with None => -1 | Some m => if negb (locked m =? 0) then 1 else 0 end.

Inductive mutex_op := MLock | MTryLock | MUnlock.

Definition mutex_exec (o : mutex_op) : option qos_mutex_t → Z * option qos_mutex_t :=
  match o with
  | MLock => qos_mutex_lock | MTryLock => qos_mutex_trylock | MUnlock => qos_mutex_unlock
  end.

(** The results of a sequence of calls, each with the operation it answers. *)
Fixpoint mutex_run (ops : list mutex_op) (m : option qos_mutex_t) : list (mutex_op * Z) * option qos_mutex_t :=
  match ops with
  | [] => ([], m)
  | o :: ops' => let '(r, m1) := mutex_exec o m in
                 let '(rs, m2) := mutex_run ops' m1 in ((o, r) :: rs, m2)
  end.

(** The successful calls of a run: [true] acquires, [false] releases. *)
Definition successes (rs : list (mutex_op * Z)) : list bool :=
  omap (λ '(o, r), if r =? 0 then Some (match o with MUnlock => false | _ => true end) else None) rs.

(** Acquire and release alternate, starting from [held]. *)
Fixpoint alternates (held : bool) (l : list bool) : bool :=
  match l with
  | [] => true
  | b :: l' => Bool.eqb b (negb held) && alternates b l'
  end.

Definition last_state (held : bool) (l : list bool) : bool := default held (last l).

Definition acquires (o : mutex_op) : bool := match o with MUnlock => false | _ => true end.

Lemma mutex_step o m held :
  locked m = Z.b2z held →
  ∃ r m1 b, mutex_exec o (Some m) = (r, Some m1) ∧ locked m1 = Z.b2z b
            ∧ (r = 0 ∧ b = negb held ∧ b = acquires o ∨ r = -1 ∧ b = held).
Proof.
  intros Hl. destruct o, held; simpl in *; rewrite Hl; simpl; do 2 eexists;
    ((exists true; split; [done|]; split; [simpl; lia|]; tauto) ||
     (exists false; split; [done|]; split; [simpl; lia|]; tauto)).
Qed.

Lemma last_state_cons held b l : last_state held (b :: l) = last_state b l.
Proof. unfold last_state. rewrite last_cons. by destruct (last l). Qed.

Lemma mutex_run_alternates ops m held :
  locked m = Z.b2z held →
  let '(rs, m') := mutex_run ops (Some m) in
  alternates held (successes rs) = true
  ∧ qos_mutex_is_locked m' = Z.b2z (last_state held (successes rs)).
Proof.
  revert m held. induction ops as [|o ops IH]; intros m held Hl; cbn [mutex_run].
  { split; [done|]. simpl. rewrite Hl. by destruct held. }
  destruct (mutex_step o m held Hl) as (r & m1 & b & E & Hl1 & Hr). rewrite E.
  specialize (IH m1 b Hl1). destruct (mutex_run ops (Some m1)) as [rs m2]. destruct IH as [IHa IHl].
  destruct Hr as [(-> & Hb & Hb2)|[-> ->]]; [|done].
  change (successes ((o, 0) :: rs)) with (acquires o :: successes rs).
  rewrite <- Hb2, last_state_cons. cbn [alternates]. by rewrite Hb, eqb_reflx, <- Hb.
Qed.

(** After [qos_mutex_init], in every sequence of lock, trylock and unlock
    calls the successful acquisitions and releases alternate, starting with an
    acquisition, and the mutex reports locked exactly when the last successful
    call was an acquisition. *)
Theorem mutex_alternates ops m0 :
  let '(rs, m) := mutex_run ops (qos_mutex_init (Some m0)).2 in
  alternates false (successes rs) = true
  ∧ qos_mutex_is_locked m = Z.b2z (last_state false (successes rs)).
Proof. exact (mutex_run_alternates ops {| locked := 0; waiters := 0 |} false eq_refl). Qed.

End Mutex.

Module Sem.

Record qos_semaphore_t := { value : Z; waiters : Z }.

Definition qos_sem_init (sem : option qos_semaphore_t) (initial : Z) : Z * option qos_semaphore_t :=
  match sem with
  | None => (-1, None)
  | Some _ => if initial <? 0 then (-1, sem) else (0, Some {| value := initial; waiters := 0 |})
  end.

Definition qos_sem_wait (sem : option qos_semaphore_t) : Z * option qos_semaphore_t :=
  match sem with
  | None => (-1, None)
  | Some s =>
      if 0 <? value s then (0, Some {| value := value s - 1; waiters := waiters s |})
      else (-1, Some {| value := value s; waiters := u32 (waiters s + 1) |})
  end.

Definition qos_sem_post (sem : option qos_semaphore_t) : Z * option qos_semaphore_t :=
  match sem with
  | None => (-1, None)
  | Some s =>
      if 0 <? waiters s then (1, Some {| value := value s; waiters := waiters s - 1 |})
      else (0, Some {| value := i32 (value s + 1); waiters := waiters s |})
  end.

Definition qos_sem_value (sem : option qos_semaphore_t) : Z :=
  match sem with None => -1 | Some s => value s end.

Definition qos_sem_waiters (sem : option qos_semaphore_t) : Z :=
  match sem with None => 0 | Some s => waiters s end.

Inductive sem_op := SWait | SPost.

Definition sem_exec (o : sem_op) : option qos_semaphore_t → Z * option qos_semaphore_t :=
  match o with SWait => qos_sem_wait | SPost => qos_sem_post end.

Fixpoint sem_run (ops : list sem_op) (s : option qos_semaphore_t) : list (sem_op * Z) * option qos_semaphore_t :=
  match ops with
  | [] => ([], s)
  | o :: ops' => let '(r, s1) := sem_exec o s in
                 let '(rs, s2) := sem_run ops' s1 in ((o, r) :: rs, s2)
  end.

(** Units handed out: a wait that succeeds, or a post that wakes a waiter. *)
Definition granted (e : sem_op * Z) : bool :=
  match e with (SWait, r) => r =? 0 | (SPost, r) => r =? 1 end.
Definition posted (e : sem_op * Z) : bool := match e with (SPost, _) => true | _ => false end.
Definition blocked (e : sem_op * Z) : bool := match e with (SWait, r) => r =? -1 | _ => false end.
Definition woken (e : sem_op * Z) : bool := match e with (SPost, r) => r =? 1 | _ => false end.

Lemma sem_run_conserves ops s :
  0 <= value s → 0 <= waiters s → (value s = 0 ∨ waiters s = 0) →
  value s + Z.of_nat (length ops) < 2 ^ 31 → waiters s + Z.of_nat (length ops) < 2 ^ 32 →
  let '(rs, s') := sem_run ops (Some s) in
  ∃ s1, s' = Some s1 ∧ 0 <= value s1 ∧ (value s1 = 0 ∨ waiters s1 = 0)
  ∧ value s1 + Z.of_nat (count_if granted rs) = value s + Z.of_nat (count_if posted rs)
  ∧ waiters s1 + Z.of_nat (count_if woken rs) = waiters s + Z.of_nat (count_if blocked rs).
Proof.
  revert s. induction ops as [|o ops IH]; intros s Hv Hw Hd Hbv Hbw; cbn [sem_run].
  { exists s. simpl. repeat split; lia || done. }
  cbn [length] in *.
  assert (∀ r s1, sem_exec o (Some s) = (r, Some s1) →
    0 <= value s1 <= value s + 1 → 0 <= waiters s1 <= waiters s + 1 → (value s1 = 0 ∨ waiters s1 = 0) →
    value s1 + Z.b2z (granted (o, r)) = value s + Z.b2z (posted (o, r)) →
    waiters s1 + Z.b2z (woken (o, r)) = waiters s + Z.b2z (blocked (o, r)) →
    let '(rs, s') := let '(r, s1) := sem_exec o (Some s) in
                     let '(rs, s2) := sem_run ops s1 in ((o, r) :: rs, s2) in
    ∃ s1, s' = Some s1 ∧ 0 <= value s1 ∧ (value s1 = 0 ∨ waiters s1 = 0)
    ∧ value s1 + Z.of_nat (count_if granted rs) = value s + Z.of_nat (count_if posted rs)
    ∧ waiters s1 + Z.of_nat (count_if woken rs) = waiters s + Z.of_nat (count_if blocked rs)) as Hstep.
  { intros r s1 E Hv1 Hw1 Hd1 Hc1 Hc2. rewrite E.
    specialize (IH s1 ltac:(lia) ltac:(lia) Hd1 ltac:(lia) ltac:(lia)).
    destruct (sem_run ops (Some s1)) as [rs s2]. destruct IH as (s3 & -> & H1 & H2 & H3 & H4).
    exists s3. cbn [count_if].
    destruct (granted (o, r)), (posted (o, r)), (woken (o, r)), (blocked (o, r));
      cbn [Z.b2z] in *; repeat split; try done; lia. }
  destruct o; cbn [sem_exec qos_sem_wait qos_sem_post] in *; revert Hstep.
  - destruct (Z.ltb_spec 0 (value s)); intros Hstep; (eapply Hstep; [reflexivity|..]); simpl;
      rewrite ?wrap_small by (unfold in_width; lia); lia.
  - destruct (Z.ltb_spec 0 (waiters s)); intros Hstep; (eapply Hstep; [reflexivity|..]); simpl;
      rewrite ?sext_small by lia; lia.
Qed.

(** The semaphore conserves its units. After [qos_sem_init] with [initial],
    in every sequence of waits and posts (shorter than the counter widths
    allow) the value never goes negative, units granted plus the value equal
    the initial units plus the posts, the waiter count is the blocked waits not
    yet woken, and units and waiters are never present together. *)
Theorem sem_conserves_units ops s0 initial :
  0 <= initial → initial + Z.of_nat (length ops) < 2 ^ 31 →
  let '(rs, s') := sem_run ops (qos_sem_init (Some s0) initial).2 in
  0 <= qos_sem_value s'
  ∧ (qos_sem_value s' = 0 ∨ qos_sem_waiters s' = 0)
  ∧ qos_sem_value s' + Z.of_nat (count_if granted rs) = initial + Z.of_nat (count_if posted rs)
  ∧ qos_sem_waiters s' + Z.of_nat (count_if woken rs) = Z.of_nat (count_if blocked rs).
Proof.
  intros H0 Hb. unfold qos_sem_init. rewrite (proj2 (Z.ltb_ge _ _)) by done. cbn [snd].
  pose proof (sem_run_conserves ops {| value := initial; waiters := 0 |}) as H. simpl in H.
  specialize (H H0 ltac:(lia) ltac:(lia) ltac:(lia) ltac:(lia)).
  destruct (sem_run ops _) as [rs s']. destruct H as (s1 & -> & ? & ? & ? & ?). simpl. tauto.
Qed.

Lemma sem_conserves_units_witness :
  0 <= qos_sem_value (sem_run [SWait; SWait; SWait; SPost; SPost] (Some {| value := 1; waiters := 0 |})).2.
Proof.
  exact (proj1 (sem_conserves_units [SWait; SWait; SWait; SPost; SPost] {| value := 0; waiters := 0 |} 1
    ltac:(lia) ltac:(simpl; lia))).
Defined.

End Sem.
