(* ===== verification/Softirq.v ===== *)
(** * Deferred interrupts (c-os/kernel/irq/softirq.c)

    The handler table and the pending mask.  A handler is a code address
    ([0] is NULL) that is called on the whole kernel state [W]; the softirq
    globals are reached through a lens. *)

From S2P Require Import Prelude.

Definition QOS_SOFTIRQ_MAX : nat := 8.
Definition QOS_SOFTIRQ_TIMER : Z := 0.
Definition QOS_SOFTIRQ_NET_RX : Z := 1.
Definition QOS_SOFTIRQ_WORKQUEUE : Z := 2.

Record softirq := { handlers : list Z; handler_ctx : list Z; pending_mask : Z }.

Definition set_mask (m : Z) (s : softirq) : softirq :=
  {| handlers := handlers s; handler_ctx := handler_ctx s; pending_mask := m |}.

Definition vector_valid (vector : Z) : bool := vector <? Z.of_nat QOS_SOFTIRQ_MAX.

Definition qos_softirq_reset : softirq :=
  {| handlers := replicate QOS_SOFTIRQ_MAX 0; handler_ctx := replicate QOS_SOFTIRQ_MAX 0;
     pending_mask := 0 |}.

Definition qos_softirq_register (vector handler ctx : Z) (s : softirq) : Z * softirq :=
  if negb (vector_valid vector) || (handler =? 0) then (-1, s)
  else (0, {| handlers := <[Z.to_nat vector := handler]> (handlers s);
              handler_ctx := <[Z.to_nat vector := ctx]> (handler_ctx s);
              pending_mask := pending_mask s |}).

Definition qos_softirq_raise (vector : Z) (s : softirq) : Z * softirq :=
  if negb (vector_valid vector) then (-1, s)
  else (0, set_mask (Z.lor (pending_mask s) (bit vector)) s).

Definition qos_softirq_pending_mask (s : softirq) : Z := pending_mask s.

Definition softirq_init : softirq := qos_softirq_reset.

(** The inner scan of [qos_softirq_run]: the lowest pending vector. *)
Definition lowest_pending (m : Z) : option nat :=
  first_index (λ i, negb (Z.land m (bit (Z.of_nat i)) =? 0)) (seq 0 QOS_SOFTIRQ_MAX).

Section run.
Context {W : Type} `{Lens W softirq} (call : Z → Z → W → W).

(** One turn of the outer loop: clear the vector, then call its handler. *)
Definition softirq_dispatch (handled : Z) (w : W) : Z * W :=
  let s := view w in
  match lowest_pending (pending_mask s) with
  | None => (handled, w)
  | Some i =>
      let fn := default 0 (handlers s !! i) in
      let ctx := default 0 (handler_ctx s !! i) in
      let w1 := upd (set_mask (Z.land (pending_mask s) (bnot 32 (bit (Z.of_nat i)))) s) w in
      if negb (fn =? 0) then (u32 (handled + 1), call fn ctx w1) else (handled, w1)
  end.

(** The outer loop; [None] when [fuel] turns were not enough. *)
Fixpoint softirq_loop (fuel : nat) (handled : Z) (w : W) : option (Z * W) :=
  match fuel with
  | O => None
  | S fuel' =>
      if negb (pending_mask (view w) =? 0) then
        let '(handled', w') := softirq_dispatch handled w in softirq_loop fuel' handled' w'
      else Some (handled, w)
  end.

Definition qos_softirq_run (fuel : nat) (w : W) : option (Z * W) := softirq_loop fuel 0 w.

End run.

(** ** The pending vectors *)

Record softirq_wf (s : softirq) : Prop := {
  sq_handlers : length (handlers s) = QOS_SOFTIRQ_MAX;
  sq_ctx : length (handler_ctx s) = QOS_SOFTIRQ_MAX;
  sq_mask : in_width 8 (pending_mask s)
}.

(** Pending vectors in ascending order. *)
Definition pending (m : Z) : list nat :=
  filter (λ i, Z.testbit m (Z.of_nat i) = true) (seq 0 QOS_SOFTIRQ_MAX).

Definition clear_vector (m : Z) (i : nat) : Z := Z.land m (bnot 32 (bit (Z.of_nat i))).

Lemma clear_vector_testbit m i n :
  (i < 32)%nat → 0 <= n < 32 →
  Z.testbit (clear_vector m i) n = Z.testbit m n && negb (bool_decide (n = Z.of_nat i)).
Proof.
  intros Hi Hn. unfold clear_vector. rewrite Z.land_spec, bnot_testbit, bit_testbit by lia.
  rewrite (bool_decide_eq_true_2 (n < 32)) by lia. by destruct (bool_decide (n = _)).
Qed.

Lemma clear_vector_width m i : in_width 8 m → (i < 32)%nat → in_width 8 (clear_vector m i).
Proof.
  intros Hm Hi. apply land_in_width; [lia|done|]. apply bnot_in_width; [lia|].
  apply bit_in_width. lia.
Qed.

Lemma first_index_filter {A} (P : A → Prop) `{∀ a, Decision (P a)} (p : A → bool) (l : list A) :
  (∀ a, a ∈ l → p a = true ↔ P a) →
  first_index p l ≫= (l !!.) = head (filter P l).
Proof.
  induction l as [|x l IH]; intros Hp; simpl; [done|].
  destruct (p x) eqn:E.
  - rewrite filter_cons_True; [done|]. apply Hp; [left|done].
  - rewrite filter_cons_False by (rewrite <- Hp by left; congruence).
    rewrite <- IH by (intros a ?; apply Hp; by right). by destruct (first_index p l).
Qed.

Lemma lowest_pending_head m : lowest_pending m = head (pending m).
Proof.
  pose proof (first_index_filter (λ i, Z.testbit m (Z.of_nat i) = true)
    (λ i, negb (Z.land m (bit (Z.of_nat i)) =? 0)) (seq 0 QOS_SOFTIRQ_MAX)) as E.
  unfold pending. rewrite <- E.
  2:{ intros i _. rewrite land_bit_nonzero by lia. by rewrite negb_involutive. }
  unfold lowest_pending. destruct (first_index _ _) as [i|] eqn:Ei; [|done].
  pose proof (first_index_lt _ _ _ Ei). cbn [mbind option_bind]. by rewrite lookup_seq_lt by (rewrite length_seq in *; done).
Qed.

Lemma pending_clear m i rest :
  pending m = i :: rest → pending (clear_vector m i) = rest.
Proof.
  intros E. assert (NoDup (pending m)) as Hnd by apply NoDup_filter, NoDup_seq.
  assert (pending (clear_vector m i) = filter (λ j, j ≠ i) (pending m)) as ->.
  - assert (i < 8)%nat as Hi.
    { assert (i ∈ pending m) as [_ Hi]%list_elem_of_filter by (rewrite E; left).
      apply elem_of_seq in Hi. unfold QOS_SOFTIRQ_MAX in Hi. lia. }
    unfold pending. rewrite list_filter_filter. apply filter_ext_in.
    intros j [_ Hj]%elem_of_seq. unfold QOS_SOFTIRQ_MAX in Hj.
    rewrite clear_vector_testbit by lia. rewrite andb_true_iff, negb_true_iff, bool_decide_eq_false.
    split; intros [? ?]; split; (done || lia).
  - rewrite E in Hnd |- *. apply NoDup_cons in Hnd as [Hni _]. rewrite filter_cons_False by naive_solver.
    clear -Hni. induction rest as [|j rest IH]; [done|]. apply not_elem_of_cons in Hni as [??].
    by rewrite filter_cons_True, IH by done.
Qed.

Lemma pending_nil m : in_width 8 m → pending m = [] → m = 0.
Proof.
  intros Hm E. apply Z.bits_inj'. intros n Hn. rewrite Z.bits_0.
  destruct (Z.testbit m n) eqn:Eb; [|done]. destruct (decide (n < 8)) as [Hlt|Hge].
  - exfalso. assert (Z.to_nat n ∈ pending m) as Hin; [|by rewrite E in Hin; inversion Hin].
    apply list_elem_of_filter. rewrite Z2Nat.id by done. split; [done|].
    apply elem_of_seq. unfold QOS_SOFTIRQ_MAX. lia.
  - rewrite <- Eb. eapply testbit_high; [|done|]; lia.
Qed.

Lemma pending_zero : pending 0 = [].
Proof. reflexivity. Qed.

(** ** Running the handlers *)

Section runs.
Context {W : Type} `{Lens W softirq} (call : Z → Z → W → W).

(** The calls a run makes for a list of vectors, in order. *)
Definition calls_of (s : softirq) (vs : list nat) : list (Z * Z) :=
  filter (λ '(fn, _), fn ≠ 0) ((λ i, (default 0 (handlers s !! i), default 0 (handler_ctx s !! i))) <$> vs).

Hypothesis call_frames : ∀ fn ctx, frames (S := softirq) (call fn ctx).

Lemma softirq_loop_framed vs fuel handled w :
  in_width 8 (pending_mask (view w)) → pending (pending_mask (view w)) = vs →
  (length vs < fuel)%nat →
  softirq_loop call fuel handled w
  = Some (foldl (λ h _, u32 (h + 1)) handled (calls_of (view w) vs),
          upd (set_mask 0 (view w)) (run_calls call (calls_of (view w) vs) w)).
Proof.
  revert fuel handled w. induction vs as [|i vs IH]; intros [|fuel] handled w Hm Hp Hf; simpl in Hf; try lia.
  - cbn [softirq_loop]. pose proof (pending_nil _ Hm Hp) as H0. rewrite H0. simpl.
    unfold set_mask. destruct (view w) as [hs cs m] eqn:E. simpl in H0. subst m. cbn [handlers handler_ctx].
    by rewrite <- E, upd_view.
  - cbn [softirq_loop]. destruct (Z.eqb_spec (pending_mask (view w)) 0) as [E0|_].
    { rewrite E0, pending_zero in Hp. done. }
    cbn [negb]. unfold softirq_dispatch. rewrite lowest_pending_head, Hp. cbn [head].
    fold (clear_vector (pending_mask (view w)) i).
    assert (i < 8)%nat as Hi.
    { assert (i ∈ pending (pending_mask (view w))) as [_ Hi]%list_elem_of_filter by (rewrite Hp; left).
      apply elem_of_seq in Hi. unfold QOS_SOFTIRQ_MAX in Hi. lia. }
    pose proof (clear_vector_width _ i Hm ltac:(lia)) as Hm'.
    pose proof (pending_clear _ _ _ Hp) as Hp'.
    set (s1 := set_mask (clear_vector (pending_mask (view w)) i) (view w)).
    unfold calls_of. rewrite fmap_cons.
    destruct (Z.eqb_spec (default 0 (handlers (view w) !! i)) 0) as [En|En]; cbn [negb].
    + rewrite filter_cons_False by (intros ?; done).
      rewrite IH; rewrite ?view_upd; try done; [|lia].
      f_equal. f_equal. rewrite (run_calls_frames call _ call_frames), upd_upd. done.
    + rewrite filter_cons_True by done. cbn [foldl]. unfold run_calls. cbn [foldl].
      set (w1 := call _ _ (upd s1 w)).
      assert (view w1 = s1) as Hw1 by (unfold w1; rewrite frames_view by done; apply view_upd).
      rewrite IH; rewrite ?Hw1; try done; [|lia]. f_equal. f_equal. unfold w1.
      rewrite call_frames. fold (run_calls call).
      rewrite (run_calls_frames call _ call_frames), upd_upd. done.
Qed.

End runs.

Section termination.
Context {W : Type} `{Lens W softirq} (call : Z → Z → W → W) (budget : W → nat).

(** Handlers keep the table well formed and may raise again, but each time
    they do they use up part of a budget. *)
Definition bounded_raises : Prop :=
  (∀ s w, budget (upd s w) = budget w)
  ∧ ∀ fn ctx w, softirq_wf (view w) →
      softirq_wf (view (call fn ctx w))
      ∧ (pending_mask (view (call fn ctx w)) = pending_mask (view w) ∧ (budget (call fn ctx w) <= budget w)%nat
         ∨ (budget (call fn ctx w) < budget w)%nat).

Lemma pending_length m : (length (pending m) <= 8)%nat.
Proof. etrans; [apply length_filter|]. by rewrite length_seq. Qed.

Lemma softirq_loop_terminates fuel handled w :
  bounded_raises → softirq_wf (view w) →
  (8 * budget w + length (pending (pending_mask (view w))) < fuel)%nat →
  ∃ h' w', softirq_loop call fuel handled w = Some (h', w') ∧ pending_mask (view w') = 0.
Proof.
  intros [Hbu Hb]. revert handled w. induction fuel as [|fuel IH]; intros handled w Hwf Hf; [lia|].
  cbn [softirq_loop]. destruct (Z.eqb_spec (pending_mask (view w)) 0) as [E0|E0]; cbn [negb]; [eauto|].
  unfold softirq_dispatch. rewrite lowest_pending_head.
  destruct (pending (pending_mask (view w))) as [|i vs] eqn:Hp.
  { by apply (pending_nil _ (sq_mask _ Hwf)) in Hp. }
  assert (i < 8)%nat as Hi.
  { assert (i ∈ pending (pending_mask (view w))) as [_ Hi]%list_elem_of_filter by (rewrite Hp; left).
    apply elem_of_seq in Hi. unfold QOS_SOFTIRQ_MAX in Hi. lia. }
  cbn [head]. fold (clear_vector (pending_mask (view w)) i).
  set (s1 := set_mask (clear_vector (pending_mask (view w)) i) (view w)).
  assert (softirq_wf s1) as Hwf1.
  { split; try apply Hwf. apply clear_vector_width; [apply Hwf|lia]. }
  assert (pending (pending_mask s1) = vs) as Hp1 by by apply pending_clear. simpl in Hf.
  destruct (negb _).
  - set (w1 := upd s1 w). assert (view w1 = s1) as Hv by apply view_upd.
    destruct (Hb (default 0 (handlers (view w) !! i)) (default 0 (handler_ctx (view w) !! i)) w1)
      as [Hwf2 Hm2]; [by rewrite Hv|].
    apply IH; [done|]. unfold w1 in Hm2. rewrite Hbu in Hm2. fold w1 in Hm2.
    destruct Hm2 as [[-> ?]|?]; [rewrite Hv, Hp1; lia|].
    pose proof (pending_length (pending_mask (view (call (default 0 (handlers (view w) !! i))
      (default 0 (handler_ctx (view w) !! i)) w1)))). lia.
  - apply IH; rewrite ?view_upd; [done|]. rewrite Hbu, Hp1. lia.
Qed.

End termination.

(** The counter of handled vectors. *)
Lemma handled_count (cs : list (Z * Z)) h :
  0 <= h → h + Z.of_nat (length cs) <= 16 →
  foldl (λ h (_ : Z * Z), u32 (h + 1)) h cs = h + Z.of_nat (length cs).
Proof.
  revert h. induction cs as [|c cs IH]; intros h H0 Hb; cbn [foldl length] in *; [lia|].
  rewrite wrap_small by (unfold in_width; lia). rewrite IH; lia.
Qed.

(** Delivery. When handlers leave the softirq globals alone, nine turns are
    enough for [qos_softirq_run]: it calls the registered handler of every
    pending vector exactly once, in ascending vector order and with its
    context, returns how many it called and leaves nothing pending. *)
Theorem softirq_run_delivers {W} `{Lens W softirq} (call : Z → Z → W → W) (w : W) :
  (∀ fn ctx, frames (S := softirq) (call fn ctx)) → softirq_wf (view w) →
  let cs := calls_of (view w) (pending (pending_mask (view w))) in
  qos_softirq_run call 9 w
  = Some (Z.of_nat (length cs), upd (set_mask 0 (view w)) (run_calls call cs w)).
Proof.
  intros Hf Hwf cs. unfold qos_softirq_run.
  pose proof (pending_length (pending_mask (view w))) as Hl.
  rewrite (softirq_loop_framed call Hf (pending (pending_mask (view w)))); [|apply Hwf|done|lia].
  fold cs. do 2 f_equal. assert (length cs <= 8)%nat as Hc.
  { unfold cs, calls_of. etrans; [apply length_filter|]. by rewrite length_fmap. }
  by rewrite handled_count by lia.
Qed.

(** A kernel state of the softirq globals and a log of the calls made. *)
Definition log_call (fn ctx : Z) (w : softirq * list (Z * Z)) : softirq * list (Z * Z) :=
  (w.1, w.2 ++ [(fn, ctx)]).

Definition demo_softirq : softirq :=
  {| handlers := [10; 11; 0; 13; 0; 0; 0; 0]; handler_ctx := [1; 2; 3; 4; 0; 0; 0; 0];
     pending_mask := 13 |}.

Lemma demo_softirq_wf : softirq_wf demo_softirq.
Proof. split; [done..|]. unfold in_width. simpl. lia. Qed.

Lemma softirq_run_delivers_witness :
  @qos_softirq_run _ fst_lens log_call 9 (demo_softirq, [])
  = Some (2, (set_mask 0 demo_softirq, [(10, 1); (13, 4)])).
Proof.
  rewrite (@softirq_run_delivers _ fst_lens log_call (demo_softirq, []));
    [reflexivity|done|exact demo_softirq_wf].
Defined.

(** C37: Termination. If handlers may raise vectors again but every call that
    does uses up part of a finite budget, [qos_softirq_run] returns after at
    most eight turns per unit of budget and pending vector, with nothing left
    pending. *)
Theorem softirq_run_terminates {W} `{Lens W softirq} (call : Z → Z → W → W) (budget : W → nat) (w : W) :
  bounded_raises call budget → softirq_wf (view w) →
  ∃ handled w', qos_softirq_run call (8 * budget w + length (pending (pending_mask (view w))) + 1) w
                = Some (handled, w') ∧ pending_mask (view w') = 0.
Proof. intros Hb Hwf. eapply softirq_loop_terminates; [done|done|lia]. Qed.

(** A handler that raises its vector again as long as it has work left. *)
Definition reraise_call (fn ctx : Z) (w : softirq * nat) : softirq * nat :=
  match w with
  | (s, S n) => ((qos_softirq_raise 1 s).2, n)
  | (s, O) => (s, O)
  end.

Lemma softirq_run_terminates_witness :
  ∃ handled w', @qos_softirq_run _ fst_lens reraise_call 28 (demo_softirq, 3%nat) = Some (handled, w')
                ∧ pending_mask w'.1 = 0.
Proof.
  refine (@softirq_run_terminates _ fst_lens reraise_call snd (demo_softirq, 3%nat) _ demo_softirq_wf).
  split; [done|]. intros fn ctx [s [|n]] Hwf; simpl in *; [by split; [|left]|].
  split; [|right; lia]. split; try apply Hwf. simpl. apply lor_in_width; [lia|apply Hwf|].
  apply bit_in_width. lia.
Defined.

(** ** What the softirq layer promises to its clients

    A component with globals [S] raises vectors through this interface only. *)
Class SoftirqPort (W S : Type) `{Lens W S} := {
  raise : Z → W → Z * W;
  raised : W → Z;
  raise_ok v w : 0 <= v < 8 →
    (raise v w).1 = 0 ∧ raised (raise v w).2 = Z.lor (raised w) (bit v);
  raise_view v w : view (S := S) (raise v w).2 = view (S := S) w;
  raised_upd (s : S) w : raised (upd s w) = raised w
}.

Lemma vector_valid_lt v : 0 <= v < 8 → vector_valid v = true.
Proof. intros ?. unfold vector_valid, QOS_SOFTIRQ_MAX. apply Z.ltb_lt. lia. Qed.

(** The implementation discharges it. *)
#[export] Program Instance softirq_port (W S : Type) `{Lens W softirq} `{Lens W S}
    `{!DisjointLens W S softirq} : SoftirqPort W S := {|
  raise v w := ((qos_softirq_raise v (view w)).1, upd (qos_softirq_raise v (view w)).2 w);
  raised w := qos_softirq_pending_mask (view w)
|}.
Next Obligation.
  intros W S ? ? ? v w Hv. unfold qos_softirq_raise, qos_softirq_pending_mask.
  rewrite vector_valid_lt by done. simpl. by rewrite view_upd.
Qed.
Next Obligation. intros W S ? ? ? v w. simpl. apply view_other. Qed.
Next Obligation. intros W S ? ? ? s w. simpl. f_equal. apply view_other'. Qed.

(** ** A concrete kernel state

    One component's globals, the softirq globals and a log of the calls made
    through function pointers. *)
Definition world (S : Type) : Type := (S * (softirq * list (Z * Z)))%type.

Definition boot_world {S} (s : S) : world S := (s, (qos_softirq_reset, [])).

#[export] Instance world_lens S : Lens (world S) S := fst_lens.

#[export] Instance world_softirq S : Lens (world S) softirq.
Proof.
  by refine {| view := λ w : world S, w.2.1; upd s := λ w : world S, (w.1, (s, w.2.2)) |};
    intros; repeat match goal with w : world S |- _ => destruct w as [? [? ?]] end.
Defined.

#[export] Instance world_disjoint S : DisjointLens (world S) S softirq.
Proof. by intros s t [? [? ?]]. Defined.

Definition world_log {S} (fn ctx : Z) (w : world S) : world S := (w.1, (w.2.1, w.2.2 ++ [(fn, ctx)])).

Lemma world_log_frames S fn ctx : frames (S := S) (world_log fn ctx).
Proof. by intros s [? [? ?]]. Qed.
