(* ===== verification/Timer.v ===== *)
(** * Kernel timers (c-os/kernel/timer/timer.c)

    128 timer slots and the jiffies counter.  Callbacks are code addresses
    called on the whole kernel state, so the handler re-reads its slot after
    each of them, as the code does. *)

From S2P Require Import Prelude SlotTable Softirq.

Definition QOS_TIMER_MAX : nat := 128.

Record qos_timer_entry_t := {
  used : bool; periodic : bool; pending : bool;
  expires : Z; interval : Z; callback : Z; ctx : Z
}.

Record timers := { g_timers : list qos_timer_entry_t; g_jiffies : Z }.

#[export] Instance timer_slotted : Slotted qos_timer_entry_t := used.

Definition timer_zero : qos_timer_entry_t :=
  {| used := false; periodic := false; pending := false;
     expires := 0; interval := 0; callback := 0; ctx := 0 |}.

Definition get_timer (i : nat) (s : timers) : qos_timer_entry_t := default timer_zero (g_timers s !! i).

Definition put_timer (i : nat) (t : qos_timer_entry_t) (s : timers) : timers :=
  {| g_timers := <[i := t]> (g_timers s); g_jiffies := g_jiffies s |}.

Definition set_pending (b : bool) (t : qos_timer_entry_t) : qos_timer_entry_t :=
  {| used := used t; periodic := periodic t; pending := b;
     expires := expires t; interval := interval t; callback := callback t; ctx := ctx t |}.

Definition set_expires (e : Z) (t : qos_timer_entry_t) : qos_timer_entry_t :=
  {| used := used t; periodic := periodic t; pending := pending t;
     expires := e; interval := interval t; callback := callback t; ctx := ctx t |}.

(** The one-shot branch of the handler: [periodic] and [pending] are kept. *)
Definition retire (t : qos_timer_entry_t) : qos_timer_entry_t :=
  {| used := false; periodic := periodic t; pending := pending t;
     expires := 0; interval := 0; callback := 0; ctx := 0 |}.

Definition timer_id_valid (timer_id : Z) : bool :=
  (0 <? timer_id) && (u32 timer_id <=? Z.of_nat QOS_TIMER_MAX).

Definition qos_timer_reset : timers :=
  {| g_timers := replicate QOS_TIMER_MAX timer_zero; g_jiffies := 0 |}.

Definition qos_timer_jiffies (s : timers) : Z := g_jiffies s.

Definition qos_timer_add (delay_ticks interval_ticks cb cb_ctx : Z) (s : timers) : Z * timers :=
  if (delay_ticks =? 0) || (cb =? 0) then (-1, s)
  else
    match free_slot (g_timers s) with
    | None => (-1, s)
    | Some i =>
        (Z.of_nat i + 1,
         put_timer i {| used := true; periodic := negb (interval_ticks =? 0); pending := false;
                        expires := u64 (g_jiffies s + delay_ticks); interval := interval_ticks;
                        callback := cb; ctx := cb_ctx |} s)
    end.

Definition qos_timer_cancel (timer_id : Z) (s : timers) : Z * timers :=
  if negb (timer_id_valid timer_id) then (-1, s)
  else
    let idx := Z.to_nat (timer_id - 1) in
    if negb (used (get_timer idx s)) then (-1, s)
    else (0, put_timer idx timer_zero s).

(** The body of the marking loop of [qos_timer_tick]. *)
Definition newly_due (now : Z) (t : qos_timer_entry_t) : bool :=
  used t && negb (pending t) && (expires t <=? now).

Definition qos_timer_active_count (s : timers) : Z := Z.of_nat (count_if used (g_timers s)).

Definition qos_timer_pending_count (s : timers) : Z :=
  Z.of_nat (count_if (λ t, used t && pending t) (g_timers s)).

(** [while (t->expires <= now) t->expires += interval;] *)
Fixpoint catch_up (fuel : nat) (now step e : Z) : option Z :=
  match fuel with
  | O => None
  | S fuel' => if e <=? now then catch_up fuel' now step (u64 (e + step)) else Some e
  end.

Section kernel.
Context {W : Type} `{Lens W timers} `{!SoftirqPort W timers} (call : Z → Z → W → W).

Definition qos_timer_tick (elapsed_ticks : Z) (w : W) : W :=
  if elapsed_ticks =? 0 then w
  else
    let s := view w in
    let now := u64 (g_jiffies s + elapsed_ticks) in
    let need_softirq := existsb (newly_due now) (g_timers s) in
    let w1 := upd {| g_timers := (λ t, if newly_due now t then set_pending true t else t) <$> g_timers s;
                     g_jiffies := now |} w in
    if need_softirq then (raise QOS_SOFTIRQ_TIMER w1).2 else w1.

(** One slot of the handler's scan. *)
Definition fire_slot (fuel : nat) (now : Z) (i : nat) (w : W) : option W :=
  let t := get_timer i (view w) in
  if used t && pending t && (expires t <=? now) then
    let w1 := upd (put_timer i (set_pending false t) (view w)) w in
    let w2 := if negb (callback t =? 0) then call (callback t) (ctx t) w1 else w1 in
    let t2 := get_timer i (view w2) in
    if used t2 then
      if periodic t2 && negb (interval t2 =? 0) then
        match catch_up fuel now (interval t2) (expires t2) with
        | None => None
        | Some e => Some (upd (put_timer i (set_expires e t2) (view w2)) w2)
        end
      else Some (upd (put_timer i (retire t2) (view w2)) w2)
    else Some w2
  else Some w.

Fixpoint fire_slots (fuel : nat) (now : Z) (slots : list nat) (w : W) : option W :=
  match slots with
  | [] => Some w
  | i :: slots' =>
      match fire_slot fuel now i w with
      | None => None
      | Some w' => fire_slots fuel now slots' w'
      end
  end.

Definition timer_softirq_handler (fuel : nat) (w : W) : option W :=
  fire_slots fuel (g_jiffies (view w)) (seq 0 QOS_TIMER_MAX) w.

End kernel.

(** [timer_init] with the address of [timer_softirq_handler]. *)
Definition timer_init (handler : Z) (q : softirq) : timers * softirq :=
  (qos_timer_reset, (qos_softirq_register QOS_SOFTIRQ_TIMER handler 0 q).2).

(** ** Rescheduling *)

(** Closed form of [catch_up]: the first point of the period after [now]. *)
Definition next_after (now step e : Z) : Z :=
  if e <=? now then e + ((now - e) / step + 1) * step else e.

Lemma next_after_step now step e :
  0 < step → e <= now → next_after now step (e + step) = next_after now step e.
Proof.
  intros Hs He. unfold next_after. rewrite (proj2 (Z.leb_le e now)) by done.
  replace (now - e) with ((now - (e + step)) + 1 * step) by lia. rewrite Z.div_add by lia.
  destruct (Z.leb_spec (e + step) now); [lia|].
  assert ((now - (e + step)) / step = -1) as ->; [|lia].
  symmetry. apply (Z.div_unique _ _ _ (now - e)); lia.
Qed.

Lemma catch_up_spec fuel now step e :
  0 < step → 0 <= e → now + step < 2 ^ 64 → now - e + 1 < Z.of_nat fuel →
  (0 < fuel)%nat → catch_up fuel now step e = Some (next_after now step e).
Proof.
  intros Hs. revert e. induction fuel as [|fuel IH]; intros e He Hn Hf H0; [lia|]. cbn [catch_up].
  destruct (Z.leb_spec e now) as [Hle|Hgt].
  - rewrite wrap_small by (unfold in_width; lia). rewrite IH by lia. by rewrite next_after_step.
  - unfold next_after. by rewrite (proj2 (Z.leb_gt _ _)).
Qed.

Lemma next_after_bounds now step e :
  0 < step → e <= now →
  now < next_after now step e <= now + step ∧ (next_after now step e - e) mod step = 0.
Proof.
  intros Hs He. unfold next_after. rewrite (proj2 (Z.leb_le _ _)) by done.
  pose proof (Z.div_mod (now - e) step ltac:(lia)). pose proof (Z.mod_pos_bound (now - e) step Hs).
  split; [nia|]. replace (_ - e) with (((now - e) / step + 1) * step) by lia.
  apply Z.mod_mul. lia.
Qed.

(** ** The handler on well-behaved callbacks *)

Definition due (now : Z) (t : qos_timer_entry_t) : bool :=
  used t && pending t && (expires t <=? now).

(** What one run of the handler does to a slot. *)
Definition fired (now : Z) (t : qos_timer_entry_t) : qos_timer_entry_t :=
  if due now t then
    if periodic t && negb (interval t =? 0)
    then set_expires (next_after now (interval t) (expires t)) (set_pending false t)
    else retire (set_pending false t)
  else t.

(** The callback it makes for a slot. *)
Definition fired_calls (now : Z) (t : qos_timer_entry_t) : list (Z * Z) :=
  if due now t && negb (callback t =? 0) then [(callback t, ctx t)] else [].

(** The field ranges of the C types. *)
Definition timer_ok (t : qos_timer_entry_t) : Prop :=
  in_width 64 (expires t) ∧ in_width 32 (interval t).

#[export] Instance timer_ok_dec t : Decision (timer_ok t).
Proof. unfold timer_ok. apply _. Defined.

Section fire.
Context {W : Type} `{Lens W timers} (call : Z → Z → W → W).
Hypothesis call_frames : ∀ fn c, frames (S := timers) (call fn c).
Variables (fuel : nat) (now : Z).
Hypothesis now_bound : now + 2 ^ 32 <= 2 ^ 64.

Definition fuel_ok (t : qos_timer_entry_t) : Prop := now - expires t + 1 < Z.of_nat fuel.

Lemma fire_slot_framed l1 t l2 w :
  g_timers (view w) = l1 ++ t :: l2 → timer_ok t → fuel_ok t → (0 < fuel)%nat →
  fire_slot call fuel now (length l1) w
  = Some (upd {| g_timers := l1 ++ fired now t :: l2; g_jiffies := g_jiffies (view w) |}
            (run_calls call (fired_calls now t) w)).
Proof.
  intros Hl [Hte Hti] Hfu Hf0.
  assert (∀ s u, g_timers s = l1 ++ u :: l2 → get_timer (length l1) s = u) as Hget.
  { intros s u Hs. unfold get_timer. rewrite Hs. by rewrite list_lookup_middle. }
  assert (∀ s u v, g_timers s = l1 ++ u :: l2 →
            put_timer (length l1) v s = {| g_timers := l1 ++ v :: l2; g_jiffies := g_jiffies s |}) as Hput.
  { intros s u v Hs. unfold put_timer. rewrite Hs. by rewrite insert_app_r_alt, Nat.sub_diag by reflexivity. }
  unfold fire_slot, fired, fired_calls. rewrite (Hget _ _ Hl). fold (due now t).
  destruct (due now t) eqn:Hd; cbn [andb]; last first.
  { rewrite <- Hl. simpl. destruct (view w) as [l j] eqn:E. cbn [g_timers g_jiffies]. by rewrite <- E, upd_view. }
  rewrite (Hput _ _ _ Hl). set (s1 := {| g_timers := l1 ++ set_pending false t :: l2; g_jiffies := g_jiffies (view w) |}).
  assert (∃ w2, (if negb (callback t =? 0) then call (callback t) (ctx t) (upd s1 w) else upd s1 w) = upd s1 w2
                ∧ w2 = run_calls call (if negb (callback t =? 0) then [(callback t, ctx t)] else []) w)
    as (w2 & -> & <-) by (destruct (negb _); eexists; split; [by rewrite call_frames|done|done|done]).
  rewrite view_upd, (Hget s1 (set_pending false t)) by done.
  assert (used (set_pending false t) = true) as -> by (apply andb_true_iff in Hd as [[? ?]%andb_true_iff ?]; done).
  cbn [periodic interval set_pending]. destruct (periodic t && negb (interval t =? 0)) eqn:Hp.
  - rewrite catch_up_spec; [|b2p; unfold in_width, fuel_ok in *; cbn [expires set_pending]; lia..|done].
    rewrite (Hput s1 (set_pending false t)), upd_upd by done. done.
  - rewrite (Hput s1 (set_pending false t)), upd_upd by done. done.
Qed.

Lemma fire_slots_framed l2 l1 w :
  g_timers (view w) = l1 ++ l2 → Forall timer_ok l2 → Forall fuel_ok l2 → (0 < fuel)%nat →
  fire_slots call fuel now (seq (length l1) (length l2)) w
  = Some (upd {| g_timers := l1 ++ (fired now <$> l2); g_jiffies := g_jiffies (view w) |}
            (run_calls call (mjoin (fired_calls now <$> l2)) w)).
Proof.
  intros Hl Hok Hfu Hf0. revert l1 w Hl. induction l2 as [|t l2 IH]; intros l1 w Hl; cbn [seq length fire_slots].
  { simpl. rewrite <- Hl. destruct (view w) as [l j] eqn:E. cbn [g_timers g_jiffies]. by rewrite <- E, upd_view. }
  apply Forall_cons in Hok as [Ht Hok]. apply Forall_cons in Hfu as [Hft Hfu].
  rewrite (fire_slot_framed l1 t l2 w Hl Ht Hft Hf0).
  set (w1 := upd _ _). assert (g_timers (view w1) = (l1 ++ [fired now t]) ++ l2) as Hl1.
  { unfold w1. rewrite view_upd. cbn [g_timers]. by rewrite <- (assoc_L (++)). }
  pose proof (IH Hok Hfu (l1 ++ [fired now t]) w1 Hl1) as E.
  rewrite length_app in E. cbn [length] in E. rewrite Nat.add_1_r in E. rewrite E.
  unfold w1. rewrite view_upd. cbn [g_jiffies]. rewrite (run_calls_frames call _ call_frames), upd_upd.
  rewrite !fmap_cons, <- (assoc_L (++)). cbn [mjoin list_join app]. by rewrite run_calls_app.
Qed.

End fire.

(** ** Invariant *)

Record timers_wf (s : timers) : Prop := {
  tw_len : length (g_timers s) = QOS_TIMER_MAX;
  tw_ok : Forall timer_ok (g_timers s);
  tw_now : in_width 64 (g_jiffies s)
}.

(** What a tick to [now] followed by the handler does to a slot: a live timer
    whose deadline has come is rescheduled or released. *)
Definition after_tick (now : Z) (t : qos_timer_entry_t) : qos_timer_entry_t :=
  if used t && (expires t <=? now) then
    if periodic t && negb (interval t =? 0)
    then set_expires (next_after now (interval t) (expires t)) (set_pending false t)
    else retire (set_pending false t)
  else t.

Definition expired_calls (now : Z) (t : qos_timer_entry_t) : list (Z * Z) :=
  if used t && (expires t <=? now) && negb (callback t =? 0) then [(callback t, ctx t)] else [].

Definition mark (now : Z) (t : qos_timer_entry_t) : qos_timer_entry_t :=
  if newly_due now t then set_pending true t else t.

Lemma fired_mark now t : fired now (mark now t) = after_tick now t.
Proof.
  unfold fired, due, after_tick, mark, newly_due.
  destruct (used t) eqn:Hu, (pending t) eqn:Hp, (expires t <=? now) eqn:He; cbn [andb negb];
    try (rewrite ?Hu, ?Hp, ?He; cbn [andb]; done).
  cbn [used pending expires set_pending]. rewrite Hu, He. done.
Qed.

Lemma fired_calls_mark now t : fired_calls now (mark now t) = expired_calls now t.
Proof.
  unfold fired_calls, due, expired_calls, mark, newly_due.
  destruct (used t) eqn:Hu, (pending t) eqn:Hp, (expires t <=? now) eqn:He; cbn [andb negb];
    try (rewrite ?Hu, ?Hp, ?He; cbn [andb]; done).
  cbn [used pending expires set_pending]. rewrite Hu, He. done.
Qed.

Lemma mark_fields now t : expires (mark now t) = expires t ∧ interval (mark now t) = interval t.
Proof. unfold mark. by destruct (newly_due now t). Qed.

(** The handler on the table a tick to [now] leaves. *)
Lemma handler_after_mark {W} `{Lens W timers} (call : Z → Z → W → W) (ts : list qos_timer_entry_t) now fuel (w : W) :
  (∀ fn c, frames (S := timers) (call fn c)) →
  length ts = QOS_TIMER_MAX → Forall timer_ok ts → 0 <= now → now + 2 ^ 32 <= 2 ^ 64 → now + 1 < Z.of_nat fuel →
  view w = {| g_timers := mark now <$> ts; g_jiffies := now |} →
  timer_softirq_handler call fuel w
  = Some (upd {| g_timers := after_tick now <$> ts; g_jiffies := now |}
            (run_calls call (mjoin (expired_calls now <$> ts)) w)).
Proof.
  intros Hf Hl Hok Hn0 Hn Hfu Hv. unfold timer_softirq_handler. rewrite Hv. cbn [g_jiffies].
  pose proof (fire_slots_framed call Hf fuel now Hn (mark now <$> ts) [] w) as E.
  rewrite Hv in E. cbn [g_timers length app g_jiffies] in E.
  rewrite length_fmap, Hl in E. rewrite E; clear E; [| done | | | clear -Hfu Hn0; lia].
  - rewrite <- !list_fmap_compose.
    rewrite (list_fmap_ext (fired now ∘ mark now) (after_tick now)) by (intros; apply fired_mark).
    rewrite (list_fmap_ext (fired_calls now ∘ mark now) (expired_calls now)) by (intros; apply fired_calls_mark).
    done.
  - apply Forall_fmap. eapply Forall_impl; [exact Hok|]. intros t [? ?].
    unfold compose, timer_ok. destruct (mark_fields now t) as [-> ->]. done.
  - apply Forall_fmap. eapply Forall_impl; [exact Hok|]. intros t [[? ?] ?].
    unfold compose, fuel_ok. destruct (mark_fields now t) as [-> _]. lia.
Qed.

(** A tick followed by the timer softirq. The tick raises the timer vector
    exactly when some live, unmarked timer has reached its deadline; the
    handler then returns, having called the callback of every live timer whose
    deadline has come exactly once, in slot order, rescheduled the periodic
    ones, released the one-shot ones and left every other timer alone.
    (Callbacks leave the timer table alone; see [timer_self_rearm_lost].) *)
Theorem timer_tick_fires {W} `{Lens W timers} `{!SoftirqPort W timers}
    (call : Z → Z → W → W) (elapsed : Z) (fuel : nat) (w : W) :
  (∀ fn c, frames (S := timers) (call fn c)) → timers_wf (view w) →
  let s := view w in
  let now := g_jiffies s + elapsed in
  0 < elapsed → now + 2 ^ 32 <= 2 ^ 64 → now + 1 < Z.of_nat fuel →
  let w1 := qos_timer_tick elapsed w in
  raised w1 = (if existsb (newly_due now) (g_timers s) then Z.lor (raised w) (bit 0) else raised w)
  ∧ timer_softirq_handler call fuel w1
    = Some (upd {| g_timers := after_tick now <$> g_timers s; g_jiffies := now |}
              (run_calls call (mjoin (expired_calls now <$> g_timers s)) w1)).
Proof.
  intros Hf Hwf s now He Hn Hfu w1. destruct (tw_now _ Hwf) as [Hj0 _].
  assert (view w1 = {| g_timers := mark now <$> g_timers s; g_jiffies := now |}
          ∧ raised w1 = (if existsb (newly_due now) (g_timers s) then Z.lor (raised w) (bit 0) else raised w))
    as [Hv Hr].
  { unfold w1, qos_timer_tick. rewrite (proj2 (Z.eqb_neq _ _)) by lia.
    rewrite wrap_small by (unfold in_width, now, s in *; lia). fold s now. fold (mark now).
    destruct (existsb _ _).
    - rewrite raise_view, view_upd. split; [done|].
      rewrite (proj2 (raise_ok QOS_SOFTIRQ_TIMER _ ltac:(unfold QOS_SOFTIRQ_TIMER; lia))). by rewrite raised_upd.
    - rewrite view_upd. split; [done|]. apply raised_upd. }
  assert (0 <= now) as Hn0 by (unfold now, s; lia).
  split; [done|]. by apply handler_after_mark; try apply Hwf.
Qed.

Definition demo_start : world timers :=
  let s := (qos_timer_add 3 2 100 1 qos_timer_reset).2 in
  let s := (qos_timer_add 2 0 200 2 s).2 in
  boot_world (qos_timer_add 9 0 300 3 s).2.

Lemma demo_start_wf : timers_wf demo_start.1.
Proof.
  split; [done| |unfold in_width; simpl; lia].
  apply (bool_decide_unpack _). vm_compute. exact I.
Qed.

Lemma timer_tick_fires_witness :
  (w ← timer_softirq_handler world_log 12 (qos_timer_tick 4 demo_start); Some w.2.2)
  = Some [(100, 1); (200, 2)].
Proof.
  rewrite (proj2 (timer_tick_fires world_log 4 12 demo_start (world_log_frames timers) demo_start_wf
    ltac:(lia) ltac:(simpl; lia) ltac:(simpl; lia))). reflexivity.
Defined.

(** Rescheduling. For a deadline that has passed, the loop of the handler
    stops at the only point of the timer's period in [(now, now + interval]],
    so periodic timers keep their phase and skip missed periods; when jiffies
    is the largest 64-bit value no deadline is later and the loop never ends. *)
Theorem timer_catch_up fuel now step e :
  0 < step → 0 <= e <= now → now < 2 ^ 64 → now - e + 1 < Z.of_nat fuel →
  (now + step < 2 ^ 64 →
   ∃ e', catch_up fuel now step e = Some e' ∧ now < e' <= now + step ∧ (e' - e) mod step = 0)
  ∧ (now = 2 ^ 64 - 1 → ∀ fuel', catch_up fuel' now step e = None).
Proof.
  intros Hs He Hnow Hf. split.
  - intros Hn. exists (next_after now step e). rewrite catch_up_spec by lia.
    destruct (next_after_bounds now step e) as [? ?]; [lia..|]. done.
  - intros ->. assert (in_width 64 e) as Hw by (unfold in_width; lia). clear -Hw. intros fuel.
    revert e Hw. induction fuel as [|fuel IH]; intros e Hw; cbn [catch_up]; [done|].
    rewrite (proj2 (Z.leb_le _ _)) by (unfold in_width in Hw; lia). apply IH. apply wrap_range. lia.
Qed.

Lemma timer_catch_up_witness : ∃ e', catch_up 12 10 4 1 = Some e' ∧ 10 < e' <= 14 ∧ (e' - 1) mod 4 = 0.
Proof. exact (proj1 (timer_catch_up 12 10 4 1 ltac:(lia) ltac:(lia) ltac:(lia) ltac:(lia)) ltac:(lia)). Defined.

Lemma add_spec delay step cb c s i :
  free_slot (g_timers s) = Some i → delay ≠ 0 → cb ≠ 0 →
  qos_timer_add delay step cb c s =
  (Z.of_nat i + 1,
   put_timer i {| used := true; periodic := negb (step =? 0); pending := false;
                  expires := u64 (g_jiffies s + delay); interval := step; callback := cb; ctx := c |} s).
Proof.
  intros Hi Hd Hc. unfold qos_timer_add. rewrite !(proj2 (Z.eqb_neq _ 0)) by done. simpl. by rewrite Hi.
Qed.

(** Adding and cancelling. [qos_timer_add] fails exactly for a zero delay, a
    NULL callback or 128 live timers. Otherwise it returns an id between 1 and
    128 whose slot was free; the timer is live with deadline [jiffies + delay],
    no other slot changes, cancelling the id succeeds once, restores the number
    of live timers and a second cancel fails. *)
Theorem timer_add_cancel delay step cb c s :
  timers_wf s →
  let '(id, s1) := qos_timer_add delay step cb c s in
  let '(r, s2) := qos_timer_cancel id s1 in
  (id = -1 ↔ delay = 0 ∨ cb = 0 ∨ qos_timer_active_count s = 128)
  ∧ (id ≠ -1 →
     let i := Z.to_nat (id - 1) in
     1 <= id <= 128 ∧ used (get_timer i s) = false ∧ used (get_timer i s1) = true
     ∧ expires (get_timer i s1) = u64 (g_jiffies s + delay)
     ∧ (∀ j, j ≠ i → get_timer j s1 = get_timer j s)
     ∧ qos_timer_active_count s1 = qos_timer_active_count s + 1
     ∧ r = 0 ∧ qos_timer_active_count s2 = qos_timer_active_count s
     ∧ (qos_timer_cancel id s2).1 = -1).
Proof.
  intros Hwf. pose proof (tw_len _ Hwf) as Hlen. unfold QOS_TIMER_MAX in Hlen.
  pose proof (free_slot_None (g_timers s)) as HN. unfold count_used in HN.
  change slot_used with used in HN. rewrite Hlen in HN.
  destruct (decide (delay = 0 ∨ cb = 0 ∨ free_slot (g_timers s) = None)) as [Hbad|Hgood].
  { assert (qos_timer_add delay step cb c s = (-1, s)) as ->.
    { unfold qos_timer_add. destruct Hbad as [->|[->|E]]; [done| |].
      - by rewrite orb_true_r.
      - rewrite E. by destruct (_ || _). }
    simpl. split; [|done]. split; [intros _|done]. unfold qos_timer_active_count.
    destruct Hbad as [?|[?|E]]; [tauto..|]. right. right. apply HN in E. rewrite E. done. }
  destruct (free_slot (g_timers s)) as [i|] eqn:Ei; [|exfalso; tauto].
  pose proof (free_slot_lt _ _ Ei) as Hi. rewrite Hlen in Hi.
  apply free_slot_Some in Ei as Hb. destruct Hb as (b & Hb & Hub). change slot_used with used in Hub.
  rewrite (add_spec _ _ _ _ _ _ Ei) by tauto. set (t := {| used := true |}). unfold qos_timer_cancel.
  assert (timer_id_valid (Z.of_nat i + 1) = true) as Hv.
  { unfold timer_id_valid, QOS_TIMER_MAX. rewrite wrap_small by (unfold in_width; lia).
    rewrite (proj2 (Z.ltb_lt _ _)), (proj2 (Z.leb_le _ _)) by lia. done. }
  rewrite Hv. replace (Z.to_nat (Z.of_nat i + 1 - 1)) with i by lia. cbn [negb].
  assert (∀ u s', length (g_timers s') = 128%nat → get_timer i (put_timer i u s') = u) as Hgp.
  { intros u s' Hl. unfold get_timer. cbn [put_timer g_timers]. by rewrite list_lookup_insert_eq by lia. }
  assert (length (g_timers (put_timer i t s)) = 128%nat) as Hl1 by (cbn; by rewrite length_insert).
  rewrite !Hgp by done. cbn [used t negb]. rewrite Hgp by done.
  pose proof (count_if_insert used (g_timers s) i b t Hb) as C1.
  pose proof (count_if_insert used (g_timers (put_timer i t s)) i t timer_zero) as C2.
  cbn [put_timer g_timers] in C2. rewrite list_lookup_insert_eq in C2 by lia. specialize (C2 eq_refl).
  rewrite Hub in C1. simpl in C1, C2.
  assert (count_if used (g_timers s) ≠ 128%nat) as H128 by (intros E; by apply HN in E).
  split; [unfold qos_timer_active_count; split; [lia|intros [?|[?|?]]; [tauto..|lia]]|].
  intros _. repeat split; try lia; try done.
  - unfold get_timer. by rewrite Hb.
  - intros j Hj. unfold get_timer. cbn [put_timer g_timers]. by rewrite list_lookup_insert_ne.
  - unfold qos_timer_active_count. cbn [put_timer g_timers]. lia.
  - unfold qos_timer_active_count. cbn [put_timer g_timers]. lia.
Qed.

Lemma timer_add_cancel_witness :
  let '(id, s1) := qos_timer_add 5 0 42 7 qos_timer_reset in
  let '(r, s2) := qos_timer_cancel id s1 in
  id = -1 ↔ 5 = 0 ∨ 42 = 0 ∨ qos_timer_active_count qos_timer_reset = 128.
Proof.
  assert (timers_wf qos_timer_reset) as Hwf.
  { split; [done| |unfold in_width; simpl; lia]. apply (bool_decide_unpack _). vm_compute. exact I. }
  pose proof (timer_add_cancel 5 0 42 7 qos_timer_reset Hwf) as H.
  destruct (qos_timer_add _ _ _ _ _) as [id s1]. destruct (qos_timer_cancel id s1) as [r s2]. exact (proj1 H).
Defined.

(** A callback that cancels its own one-shot timer [1] and arms a new one. *)
Definition rearm_call (fn c : Z) (w : world timers) : world timers :=
  let s := (qos_timer_cancel 1 w.1).2 in
  let '(id, s') := qos_timer_add 5 0 fn c s in (s', (w.2.1, w.2.2 ++ [(id, c)])).

(** A callback may not re-arm its own slot. When the callback of a one-shot
    timer cancels that timer and adds a new one, the add reports success (id 1,
    the slot just freed), but on return the handler takes the slot for the
    fired timer and releases it: no timer is left and the new one never fires. *)
Theorem timer_self_rearm_lost :
  ∃ w, timer_softirq_handler rearm_call 12
         (qos_timer_tick 4 (boot_world (qos_timer_add 4 0 200 2 qos_timer_reset).2))
       = Some w
       ∧ w.2.2 = [(1, 2)] ∧ qos_timer_active_count w.1 = 0.
Proof. eexists. split; [vm_compute; reflexivity|]. split; reflexivity. Qed.
