(* ===== verification/Workqueue.v ===== *)
(** * Work queue (c-os/kernel/workqueue/workqueue.c)

    128 work entries and a ring of the slot numbers in enqueue order.  The
    handler runs work functions on the whole kernel state and re-reads the
    ring and the entries after each of them. *)

From S2P Require Import Prelude SlotTable RingQueue Softirq.

Definition QOS_WORKQUEUE_MAX : nat := 128.

Record qos_workqueue_entry_t := { used : bool; pending : bool; id : Z; fn : Z; arg : Z }.

#[export] Instance work_slotted : Slotted qos_workqueue_entry_t := used.
#[export] Instance work_keyed : Keyed qos_workqueue_entry_t Z := id.

Record workqueue := {
  g_entries : list qos_workqueue_entry_t;
  g_queue : list nat; g_qhead : nat; g_qtail : nat; g_qcount : nat;
  g_next_id : Z; g_completed : Z
}.

Definition work_zero : qos_workqueue_entry_t :=
  {| used := false; pending := false; id := 0; fn := 0; arg := 0 |}.

Definition set_entry (slot : nat) (e : qos_workqueue_entry_t) (s : workqueue) : workqueue :=
  {| g_entries := <[slot := e]> (g_entries s); g_queue := g_queue s; g_qhead := g_qhead s;
     g_qtail := g_qtail s; g_qcount := g_qcount s; g_next_id := g_next_id s;
     g_completed := g_completed s |}.

Definition set_next_id (n : Z) (s : workqueue) : workqueue :=
  {| g_entries := g_entries s; g_queue := g_queue s; g_qhead := g_qhead s;
     g_qtail := g_qtail s; g_qcount := g_qcount s; g_next_id := n; g_completed := g_completed s |}.

Definition set_completed (n : Z) (s : workqueue) : workqueue :=
  {| g_entries := g_entries s; g_queue := g_queue s; g_qhead := g_qhead s;
     g_qtail := g_qtail s; g_qcount := g_qcount s; g_next_id := g_next_id s; g_completed := n |}.

Definition find_slot_by_id (work_id : Z) (s : workqueue) : option nat := find_key work_id (g_entries s).

Definition queue_push (slot : nat) (s : workqueue) : Z * workqueue :=
  if (QOS_WORKQUEUE_MAX <=? g_qcount s)%nat then (-1, s)
  else (0, {| g_entries := g_entries s; g_queue := <[g_qtail s := slot]> (g_queue s);
              g_qhead := g_qhead s; g_qtail := (g_qtail s + 1) mod QOS_WORKQUEUE_MAX;
              g_qcount := g_qcount s + 1; g_next_id := g_next_id s; g_completed := g_completed s |}).

(** The popped slot, when there is one. *)
Definition queue_pop (s : workqueue) : option nat * workqueue :=
  if (g_qcount s =? 0)%nat then (None, s)
  else (Some (default 0%nat (g_queue s !! g_qhead s)),
        {| g_entries := g_entries s; g_queue := g_queue s;
           g_qhead := (g_qhead s + 1) mod QOS_WORKQUEUE_MAX; g_qtail := g_qtail s;
           g_qcount := g_qcount s - 1; g_next_id := g_next_id s; g_completed := g_completed s |}).

Definition qos_workqueue_reset : workqueue :=
  {| g_entries := replicate QOS_WORKQUEUE_MAX work_zero; g_queue := replicate QOS_WORKQUEUE_MAX 0%nat;
     g_qhead := 0; g_qtail := 0; g_qcount := 0; g_next_id := 1; g_completed := 0 |}.

(** [id = g_next_id++; if (id == 0) id = g_next_id++;] *)
Definition fresh_id (n : Z) : Z * Z :=
  if n =? 0 then (u32 (n + 1), u32 (u32 (n + 1) + 1)) else (n, u32 (n + 1)).

Definition qos_workqueue_cancel (work_id : Z) (s : workqueue) : Z * workqueue :=
  if work_id =? 0 then (-1, s)
  else
    match find_slot_by_id work_id s with
    | None => (-1, s)
    | Some slot => (0, set_entry slot work_zero s)
    end.

Definition qos_workqueue_pending_count (s : workqueue) : Z :=
  Z.of_nat (count_if (λ e, used e && pending e) (g_entries s)).

Definition qos_workqueue_completed_count (s : workqueue) : Z := g_completed s.

(** The store effects of [qos_workqueue_enqueue] up to the raise; the id is
    what is written to [out_work_id]. *)
Definition enqueue_entry (f a : Z) (s : workqueue) : Z * option Z * workqueue :=
  if f =? 0 then (-1, None, s)
  else
    match free_slot (g_entries s) with
    | None => (-1, None, s)
    | Some i =>
        let '(wid, next) := fresh_id (g_next_id s) in
        let s1 := set_entry i {| used := true; pending := true; id := wid; fn := f; arg := a |}
                    (set_next_id next s) in
        let '(r, s2) := queue_push i s1 in
        if negb (r =? 0) then (-1, None, set_entry i work_zero s2) else (0, Some wid, s2)
    end.

Section kernel.
Context {W : Type} `{Lens W workqueue} `{!SoftirqPort W workqueue} (call : Z → Z → W → W).

Definition qos_workqueue_enqueue (f a : Z) (w : W) : Z * option Z * W :=
  let '(r, wid, s) := enqueue_entry f a (view w) in
  let w1 := upd s w in
  if r =? 0 then (r, wid, (raise QOS_SOFTIRQ_WORKQUEUE w1).2) else (r, wid, w1).

(** The loop of [workqueue_softirq_handler]; [None] when the fuel runs out. *)
Fixpoint handler_loop (fuel : nat) (w : W) : option W :=
  match fuel with
  | O => None
  | S fuel' =>
      if (g_qcount (view w) =? 0)%nat then Some w
      else
        let '(popped, s1) := queue_pop (view w) in
        match popped with
        | None => Some w
        | Some slot =>
            if (QOS_WORKQUEUE_MAX <=? slot)%nat then handler_loop fuel' (upd s1 w)
            else
              let e := default work_zero (g_entries s1 !! slot) in
              let w1 := upd (set_entry slot work_zero s1) w in
              if negb (used e) || negb (pending e) || (fn e =? 0) then handler_loop fuel' w1
              else
                let w2 := call (fn e) (arg e) w1 in
                handler_loop fuel' (upd (set_completed (u32 (g_completed (view w2) + 1)) (view w2)) w2)
        end
  end.

Definition workqueue_softirq_handler (fuel : nat) (w : W) : option W := handler_loop fuel w.

End kernel.

(** [workqueue_init] with the address of [workqueue_softirq_handler]. *)
Definition workqueue_init (handler : Z) (q : softirq) : workqueue * softirq :=
  (qos_workqueue_reset, (qos_softirq_register QOS_SOFTIRQ_WORKQUEUE handler 0 q).2).

(** ** Invariant *)

Definition slots (s : workqueue) : list nat := ring_list (g_queue s) (g_qhead s) (g_qcount s).

(** The entry is as [qos_workqueue_enqueue] leaves it while it is live. *)
Definition entry_ok (e : qos_workqueue_entry_t) : Prop :=
  used e = true → pending e = true ∧ fn e ≠ 0.

Record wq_wf (s : workqueue) : Prop := {
  wq_entries : length (g_entries s) = QOS_WORKQUEUE_MAX;
  wq_queue : length (g_queue s) = QOS_WORKQUEUE_MAX;
  wq_ring : ring_wf (g_queue s) (g_qhead s) (g_qtail s) (g_qcount s);
  wq_slots : Forall (λ i, (i < QOS_WORKQUEUE_MAX)%nat) (slots s);
  wq_ok : Forall entry_ok (g_entries s);
  wq_queued : ∀ i e, g_entries s !! i = Some e → used e = true → i ∈ slots s;
  wq_done : in_width 32 (g_completed s)
}.

(** Live work in the table. *)
Definition live_work (es : list qos_workqueue_entry_t) : list (Z * Z) :=
  omap (λ e, if used e then Some (fn e, arg e) else None) es.

(** ** Ring operations *)

Lemma slots_length s : wq_wf s → length (slots s) = g_qcount s.
Proof. intros Hwf. apply ring_list_length. rewrite (wq_queue _ Hwf). unfold QOS_WORKQUEUE_MAX. lia. Qed.

Lemma queue_pop_spec s i q :
  length (g_queue s) = QOS_WORKQUEUE_MAX → ring_wf (g_queue s) (g_qhead s) (g_qtail s) (g_qcount s) →
  slots s = i :: q →
  ∃ s1, queue_pop s = (Some i, s1) ∧ slots s1 = q ∧ g_qcount s = S (g_qcount s1)
        ∧ ring_wf (g_queue s1) (g_qhead s1) (g_qtail s1) (g_qcount s1)
        ∧ s1 = {| g_entries := g_entries s; g_queue := g_queue s;
                  g_qhead := (g_qhead s + 1) mod QOS_WORKQUEUE_MAX; g_qtail := g_qtail s;
                  g_qcount := g_qcount s1; g_next_id := g_next_id s; g_completed := g_completed s |}.
Proof.
  intros Hq Hr Hs. unfold queue_pop. unfold slots in Hs |- *.
  destruct (g_qcount s) as [|n]; [done|]. cbn [Nat.eqb]. rewrite (Nat.sub_succ n 0), Nat.sub_0_r.
  destruct (lookup_lt_is_Some_2 (g_queue s) (g_qhead s)) as [x Hx]; [apply Hr|].
  rewrite (ring_list_pop _ _ _ _ _ Hr Hx), Hq in Hs. injection Hs as -> <-. rewrite Hx.
  apply ring_wf_pop in Hr. rewrite Hq in Hr. eexists. split; [done|]. done.
Qed.

Lemma queue_push_spec i s :
  length (g_queue s) = QOS_WORKQUEUE_MAX → ring_wf (g_queue s) (g_qhead s) (g_qtail s) (g_qcount s) →
  (g_qcount s < QOS_WORKQUEUE_MAX)%nat →
  ∃ s1, queue_push i s = (0, s1) ∧ slots s1 = slots s ++ [i] ∧ g_entries s1 = g_entries s
        ∧ length (g_queue s1) = QOS_WORKQUEUE_MAX
        ∧ ring_wf (g_queue s1) (g_qhead s1) (g_qtail s1) (g_qcount s1)
        ∧ g_completed s1 = g_completed s ∧ g_next_id s1 = g_next_id s.
Proof.
  intros Hq Hr Hlt. unfold queue_push. rewrite (proj2 (Nat.leb_gt _ _)) by done.
  eexists. split; [done|]. unfold slots. cbn [g_queue g_qhead g_qtail g_qcount g_entries g_completed g_next_id].
  rewrite Nat.add_1_r.
  split; [by apply (ring_list_push _ _ (g_qtail s)); [|rewrite Hq]|].
  split; [done|]. split; [by rewrite length_insert|]. split; [|done].
  rewrite <- Hq. apply ring_wf_push; [done|by rewrite Hq].
Qed.

(** ** Draining *)

(** The calls for the slots of the ring in order, and the entries afterwards. *)
Fixpoint drain (q : list nat) (es : list qos_workqueue_entry_t) : list (Z * Z) * list qos_workqueue_entry_t :=
  match q with
  | [] => ([], es)
  | i :: q' =>
      let e := default work_zero (es !! i) in
      let '(cs, es') := drain q' (<[i := work_zero]> es) in
      (if negb (used e) || negb (pending e) || (fn e =? 0) then cs else (fn e, arg e) :: cs, es')
  end.

Definition drained (es : list qos_workqueue_entry_t) (done : Z) (s : workqueue) : workqueue :=
  {| g_entries := es; g_queue := g_queue s; g_qhead := g_qtail s; g_qtail := g_qtail s;
     g_qcount := 0; g_next_id := g_next_id s; g_completed := done |}.

Section drains.
Context {W : Type} `{Lens W workqueue} (call : Z → Z → W → W).
Hypothesis call_frames : ∀ f a, frames (S := workqueue) (call f a).

Lemma handler_loop_framed q fuel w :
  let s := view w in
  length (g_queue s) = QOS_WORKQUEUE_MAX → ring_wf (g_queue s) (g_qhead s) (g_qtail s) (g_qcount s) →
  Forall (λ i, (i < QOS_WORKQUEUE_MAX)%nat) q → in_width 32 (g_completed s) →
  slots s = q → (length q < fuel)%nat →
  handler_loop call fuel w
  = Some (upd (drained (drain q (g_entries s)).2 (u32 (g_completed s + Z.of_nat (length (drain q (g_entries s)).1))) s)
            (run_calls call (drain q (g_entries s)).1 w)).
Proof.
  revert fuel w. induction q as [|i q IH]; intros [|fuel] w s Hq Hr Hb Hd Hs Hf; cbn [length] in Hf; try lia.
  - cbn [handler_loop drain fst snd length]. fold s.
    assert (g_qcount s = 0%nat) as Hc.
    { assert (length (slots s) = g_qcount s) as <-; [|by rewrite Hs].
      apply ring_list_length. rewrite Hq. unfold QOS_WORKQUEUE_MAX. lia. }
    rewrite Hc. cbn [Nat.eqb]. rewrite Z.add_0_r, wrap_small by done. destruct Hr as (Hh & _ & Ht).
    rewrite Hc, Nat.add_0_r, Nat.mod_small in Ht by done.
    assert (drained (g_entries s) (g_completed s) s = s) as ->; [|unfold s; by rewrite upd_view].
    unfold drained. rewrite Ht. destruct s as [? ? ? ? ? ? ?]; cbn in *. by subst.
  - apply Forall_cons in Hb as [Hi Hb].
    destruct (queue_pop_spec s i q Hq Hr Hs) as (s1 & Hp & Hs1 & Hc1 & Hr1 & E1).
    cbn [handler_loop]. fold s. rewrite Hp, Hc1. cbn [Nat.eqb]. rewrite (proj2 (Nat.leb_gt _ _)) by done.
    assert (g_entries s1 = g_entries s ∧ g_completed s1 = g_completed s
            ∧ length (g_queue s1) = QOS_WORKQUEUE_MAX
            ∧ ∀ es d, drained es d s1 = drained es d s) as (He1 & Hd1 & Hq1 & Hdr) by by rewrite E1.
    rewrite He1. set (e := default work_zero (g_entries s !! i)).
    set (s2 := set_entry i work_zero s1).
    cbn [drain]. fold e. set (es2 := <[i:=work_zero]> (g_entries s)).
    assert (g_entries s2 = es2) as He2 by by (unfold s2, es2; cbn; rewrite He1).
    destruct (negb (used e) || negb (pending e) || (fn e =? 0)).
    + pose proof (IH fuel (upd s2 w)) as IHq. cbv zeta in IHq. rewrite view_upd in IHq.
      rewrite IHq; [|done..|cbn; by rewrite Hd1|done|lia]. rewrite He2. cbn [g_completed s2 set_entry]. rewrite Hd1.
      rewrite (run_calls_frames call _ call_frames), upd_upd. destruct (drain q es2) as [cs es'].
      cbn [fst snd]. change (drained ?es ?d s2) with (drained es d s1). by rewrite Hdr.
    + set (w2 := call (fn e) (arg e) (upd s2 w)).
      assert (view w2 = s2) as Hv2 by (unfold w2; rewrite frames_view by done; apply view_upd).
      rewrite Hv2. set (s3 := set_completed (u32 (g_completed s2 + 1)) s2).
      pose proof (IH fuel (upd s3 w2)) as IHq. cbv zeta in IHq. rewrite view_upd in IHq.
      rewrite IHq; [|done..|cbn; apply wrap_range; lia|done|lia].
      change (g_entries s3) with (g_entries s2). rewrite He2. destruct (drain q es2) as [cs es'].
      cbn [fst snd length]. rewrite (run_calls_frames call _ call_frames), upd_upd.
      unfold w2. rewrite call_frames, (run_calls_frames call _ call_frames), upd_upd.
      change (drained ?es ?d s3) with (drained es d s1). rewrite Hdr. f_equal. f_equal. f_equal.
      cbn [g_completed s3 set_completed s2 set_entry]. rewrite Hd1. unfold wrap.
      rewrite Zplus_mod_idemp_l. f_equal. lia.
Qed.

End drains.

(** ** What draining does *)

Fixpoint works_at (es : list qos_workqueue_entry_t) (q : list nat) : list (Z * Z) :=
  match q with
  | [] => []
  | i :: q' =>
      match es !! i with
      | Some e => (if used e then [(fn e, arg e)] else []) ++ works_at es q'
      | None => works_at es q'
      end
  end.

Lemma works_at_insert_ne es i e q : i ∉ q → works_at (<[i := e]> es) q = works_at es q.
Proof.
  induction q as [|j q IH]; intros H; [done|]. apply not_elem_of_cons in H as [? ?]. cbn [works_at].
  rewrite list_lookup_insert_ne by done. by rewrite IH.
Qed.

Lemma works_at_app es q1 q2 : works_at es (q1 ++ q2) = works_at es q1 ++ works_at es q2.
Proof.
  induction q1 as [|i q1 IH]; [done|]. simpl. rewrite IH.
  destruct (es !! i) as [e|]; [|done]. by rewrite (assoc_L (++)).
Qed.

Lemma live_work_cons e es :
  live_work (e :: es) = (if used e then [(fn e, arg e)] else []) ++ live_work es.
Proof. unfold live_work. cbn. by destruct (used e). Qed.

Lemma live_work_insert es i e :
  es !! i = Some e →
  live_work es ≡ₚ (if used e then [(fn e, arg e)] else []) ++ live_work (<[i := work_zero]> es).
Proof.
  revert i. induction es as [|x es IH]; intros i Hi; [done|].
  destruct i as [|i]; simpl in Hi; simplify_eq.
  - change (<[0%nat:=work_zero]> (e :: es)) with (work_zero :: es). by rewrite !live_work_cons.
  - change (<[S i:=work_zero]> (x :: es)) with (x :: <[i:=work_zero]> es).
    rewrite !live_work_cons, (IH i Hi). apply Permutation_app_swap_app.
Qed.

Lemma live_work_none es : (∀ i e, es !! i = Some e → used e = false) → live_work es = [].
Proof.
  induction es as [|x es IH]; intros H; [done|]. unfold live_work in *. simpl.
  rewrite (H 0%nat x) by done. apply IH. intros i e Hi. by apply (H (S i)).
Qed.

Lemma entry_ok_skip e :
  entry_ok e → negb (used e) || negb (pending e) || (fn e =? 0) = negb (used e).
Proof.
  unfold entry_ok. destruct (used e); [|done]. intros [-> Hf]; [done|]. simpl. by apply Z.eqb_neq.
Qed.

Lemma zero_insert_ok es i : Forall entry_ok es → Forall entry_ok (<[i := work_zero]> es).
Proof. intros H. by apply Forall_insert. Qed.

(** Draining runs every live entry once and leaves none. *)
Lemma drain_live q es :
  Forall (λ i, (i < length es)%nat) q → Forall entry_ok es →
  (∀ i e, es !! i = Some e → used e = true → i ∈ q) →
  (drain q es).1 ≡ₚ live_work es
  ∧ length (drain q es).2 = length es
  ∧ (∀ i e, (drain q es).2 !! i = Some e → used e = false)
  ∧ Forall entry_ok (drain q es).2.
Proof.
  revert es. induction q as [|i q IH]; intros es Hb Hok Hq; cbn [drain].
  { assert (∀ i e, es !! i = Some e → used e = false) as Hn.
    { intros i e Hi. destruct (used e) eqn:Hu; [|done]. specialize (Hq i e Hi Hu). inversion Hq. }
    cbn [fst snd]. by rewrite live_work_none. }
  apply Forall_cons in Hb as [Hi Hb].
  destruct (lookup_lt_is_Some_2 es i Hi) as [e He]. rewrite He.
  change (default work_zero (Some e)) with e.
  destruct (IH (<[i:=work_zero]> es)) as (IHp & IHl & IHn & IHo).
  - eapply Forall_impl; [exact Hb|]. intros j. by rewrite length_insert.
  - by apply zero_insert_ok.
  - intros j x Hx Hu. apply list_lookup_insert_Some in Hx as [(_ & <- & _)|(Hne & Hx)]; [done|].
    specialize (Hq j x Hx Hu). apply elem_of_cons in Hq as [->|?]; done.
  - destruct (drain q (<[i:=work_zero]> es)) as [cs es']. cbn [fst snd] in *.
    rewrite length_insert in IHl.
    rewrite (entry_ok_skip e) by exact (Forall_lookup_1 _ _ _ _ Hok He).
    rewrite (live_work_insert es i e He), <- IHp. by destruct (used e).
Qed.

(** Without repeated slots the order of the ring is the order of execution. *)
Lemma drain_fifo q es :
  Forall (λ i, (i < length es)%nat) q → Forall entry_ok es → NoDup q →
  (drain q es).1 = works_at es q.
Proof.
  revert es. induction q as [|i q IH]; intros es Hb Hok Hnd; cbn [drain]; [done|].
  apply Forall_cons in Hb as [Hi Hb]. apply NoDup_cons in Hnd as [Hni Hnd].
  destruct (lookup_lt_is_Some_2 es i Hi) as [e He].
  specialize (IH (<[i:=work_zero]> es)). destruct (drain q (<[i:=work_zero]> es)) as [cs es'].
  cbn [fst snd works_at] in *. rewrite He. change (default work_zero (Some e)) with e.
  rewrite (entry_ok_skip e) by exact (Forall_lookup_1 _ _ _ _ Hok He). rewrite IH; [|..|done].
  - rewrite works_at_insert_ne by done. by destruct (used e).
  - eapply Forall_impl; [exact Hb|]. intros j. by rewrite length_insert.
  - by apply zero_insert_ok.
Qed.

(** ** The operations keep the invariant *)

Lemma set_entry_slots i e s : slots (set_entry i e s) = slots s.
Proof. done. Qed.

Lemma set_zero_wf i s : wq_wf s → wq_wf (set_entry i work_zero s).
Proof.
  intros [He Hq Hr Hs Ho Hu Hd]. split; try done.
  - cbn. by rewrite length_insert.
  - by apply zero_insert_ok.
  - intros j e Hj Hue. cbn in Hj. rewrite set_entry_slots.
    apply list_lookup_insert_Some in Hj as [(_ & <- & _)|(_ & Hj)]; [done|]. by eapply Hu.
Qed.

(** A successful enqueue fills a free slot and appends it to the ring. *)
Lemma enqueue_entry_ok f a s i :
  wq_wf s → f ≠ 0 → free_slot (g_entries s) = Some i → (g_qcount s < QOS_WORKQUEUE_MAX)%nat →
  ∃ s', enqueue_entry f a s = (0, Some (fresh_id (g_next_id s)).1, s') ∧ wq_wf s'
        ∧ slots s' = slots s ++ [i]
        ∧ g_entries s' = <[i := {| used := true; pending := true; id := (fresh_id (g_next_id s)).1;
                                   fn := f; arg := a |}]> (g_entries s).
Proof.
  intros Hwf Hf Hi Hlt. pose proof (free_slot_lt _ _ Hi) as Hil. rewrite (wq_entries _ Hwf) in Hil.
  unfold enqueue_entry. rewrite (proj2 (Z.eqb_neq _ _)), Hi by done.
  destruct (fresh_id (g_next_id s)) as [wid next]. cbn [fst].
  set (s1 := set_entry i _ _).
  destruct (queue_push_spec i s1) as (s2 & -> & Hs2 & He2 & Hq2 & Hr2 & Hd2 & _); [apply Hwf..|done|].
  exists s2. change (slots s1) with (slots s) in Hs2. split; [done|]. split; [|done].
  split; [rewrite He2; cbn; rewrite length_insert; apply Hwf|done|done| | | |rewrite Hd2; apply Hwf].
  - rewrite Hs2. apply Forall_app. split; [apply Hwf|by apply Forall_singleton].
  - rewrite He2. cbn. apply Forall_insert; [apply Hwf|]. intros _. done.
  - intros j e Hj Hu. rewrite Hs2. apply elem_of_app. rewrite He2 in Hj. cbn in Hj.
    apply list_lookup_insert_Some in Hj as [(<- & _)|(_ & Hj)]; [right; by left|left].
    by eapply (wq_queued _ Hwf).
Qed.

Lemma set_next_id_wf n s : wq_wf s → wq_wf (set_next_id n s).
Proof. by intros []. Qed.

(** A refused enqueue changes no live work. *)
Lemma enqueue_entry_fail f a s :
  wq_wf s → f = 0 ∨ free_slot (g_entries s) = None ∨ (QOS_WORKQUEUE_MAX <= g_qcount s)%nat →
  ∃ s', enqueue_entry f a s = (-1, None, s') ∧ wq_wf s' ∧ live_work (g_entries s') ≡ₚ live_work (g_entries s).
Proof.
  intros Hwf Hbad. unfold enqueue_entry. destruct (Z.eqb_spec f 0) as [Hf|Hf]; [by eexists|].
  destruct (free_slot (g_entries s)) as [i|] eqn:Hi; [|by eexists].
  destruct Hbad as [?|[?|Hc]]; [done..|]. destruct (fresh_id (g_next_id s)) as [wid next].
  unfold queue_push. cbn [set_entry set_next_id g_qcount]. rewrite (proj2 (Nat.leb_le _ _)) by done. cbn [negb Z.eqb].
  eexists. split; [done|]. cbn [g_entries set_entry set_next_id]. rewrite list_insert_insert_eq.
  apply free_slot_Some in Hi as (b & Hb & Hub). change slot_used with used in Hub. split.
  - pose proof (set_zero_wf i _ (set_next_id_wf next _ Hwf)) as Hz. destruct Hz as [z1 z2 z3 z4 z5 z6 z7].
    split; cbn in *; rewrite ?list_insert_insert_eq; done.
  - rewrite (live_work_insert _ i b Hb). by rewrite Hub.
Qed.

Inductive wq_op := WEnqueue (f a : Z) | WCancel (work_id : Z).

Definition wq_exec (o : wq_op) (s : workqueue) : workqueue :=
  match o with
  | WEnqueue f a => (enqueue_entry f a s).2
  | WCancel work_id => (qos_workqueue_cancel work_id s).2
  end.

Lemma wq_exec_wf o s : wq_wf s → wq_wf (wq_exec o s).
Proof.
  intros Hwf. destruct o as [f a|work_id]; cbn [wq_exec].
  - destruct (decide (f = 0 ∨ free_slot (g_entries s) = None ∨ (QOS_WORKQUEUE_MAX <= g_qcount s)%nat)) as [Hb|Hg].
    + destruct (enqueue_entry_fail f a s Hwf Hb) as (s' & -> & ? & _). done.
    + destruct (free_slot (g_entries s)) as [i|] eqn:Hi; [|exfalso; tauto].
      destruct (enqueue_entry_ok f a s i Hwf) as (s' & -> & ? & _); [tauto|done|lia|done].
  - unfold qos_workqueue_cancel. repeat case_match; try done. by apply set_zero_wf.
Qed.

Lemma wq_reset_wf : wq_wf qos_workqueue_reset.
Proof.
  split; try done.
  - unfold ring_wf. split_and!; [cbn; lia|cbn; lia|reflexivity].
  - apply Forall_replicate. done.
  - intros i e Hi Hu. apply lookup_replicate in Hi as [-> _]. done.
Qed.

Definition wq_run (ops : list wq_op) : workqueue := foldl (λ s o, wq_exec o s) qos_workqueue_reset ops.

Lemma wq_run_wf ops : wq_wf (wq_run ops).
Proof.
  unfold wq_run. assert (∀ s, wq_wf s → wq_wf (foldl (λ s o, wq_exec o s) s ops)) as H; [|apply H, wq_reset_wf].
  induction ops as [|o ops IH]; intros s Hs; [done|]. simpl. by apply IH, wq_exec_wf.
Qed.

(** ** Correctness *)

(** C36: No live work is lost or run twice. After any sequence of enqueues and
    cancels, and with work functions that leave the queue alone, the handler
    returns (129 turns are enough): it has called each live item exactly once,
    has called nothing else, has counted the calls, and leaves no live item,
    an empty ring and a well-formed queue. *)
Theorem workqueue_drains {W} `{Lens W workqueue} (call : Z → Z → W → W) ops (w : W) :
  (∀ f a, frames (S := workqueue) (call f a)) →
  view w = wq_run ops →
  ∃ cs s', workqueue_softirq_handler call 129 w = Some (upd s' (run_calls call cs w))
           ∧ cs ≡ₚ live_work (g_entries (view w))
           ∧ wq_wf s' ∧ live_work (g_entries s') = [] ∧ slots s' = []
           ∧ g_completed s' = u32 (g_completed (view w) + Z.of_nat (length cs)).
Proof.
  intros Hf Hv. assert (wq_wf (view w)) as Hwf by (rewrite Hv; apply wq_run_wf).
  set (s := view w) in *. set (d := drain (slots s) (g_entries s)).
  destruct (drain_live (slots s) (g_entries s)) as (Hp & Hl & Hn & Ho);
    [rewrite (wq_entries _ Hwf); apply Hwf|apply Hwf..|]. fold d in Hp, Hl, Hn, Ho.
  set (s' := drained d.2 (u32 (g_completed s + Z.of_nat (length d.1))) s).
  exists d.1, s'. unfold workqueue_softirq_handler.
  pose proof (slots_length _ Hwf) as Hsl. destruct (wq_ring _ Hwf) as (Hh & Hc & Ht).
  rewrite (wq_queue _ Hwf) in Hh, Hc, Ht. split; [|split; [done|]].
  { unfold s', d, s. apply (handler_loop_framed call Hf); try apply Hwf; [done|].
    fold s. rewrite Hsl. unfold QOS_WORKQUEUE_MAX in Hc. lia. }
  assert (slots s' = []) as Hs0 by done.
  split; [|split; [by apply live_work_none|done]].
  split; rewrite ?Hs0; cbn [s' drained g_entries g_queue g_completed g_qhead g_qtail g_qcount].
  - rewrite Hl. apply Hwf.
  - apply Hwf.
  - unfold ring_wf. rewrite (wq_queue _ Hwf). unfold QOS_WORKQUEUE_MAX in *.
    assert (g_qtail s < 128)%nat by (rewrite Ht; apply Nat.mod_upper_bound; lia).
    split_and!; [done|lia|]. rewrite Nat.add_0_r, Nat.mod_small by done. done.
  - constructor.
  - done.
  - intros i e Hi Hu. by rewrite (Hn i e Hi) in Hu.
  - apply wrap_range. lia.
Qed.

Definition demo_ops : list wq_op := [WEnqueue 10 1; WEnqueue 11 2; WCancel 1; WEnqueue 12 3].

Definition demo_world : world workqueue := upd (wq_run demo_ops) (boot_world qos_workqueue_reset).

Lemma workqueue_drains_witness :
  live_work (g_entries (wq_run demo_ops)) = [(12, 3); (11, 2)]
  ∧ ∃ cs (s' : workqueue), workqueue_softirq_handler world_log 129 demo_world = Some (upd s' (run_calls world_log cs demo_world))
             ∧ cs ≡ₚ live_work (g_entries (view (S := workqueue) demo_world)).
Proof.
  split; [vm_compute; reflexivity|].
  destruct (workqueue_drains world_log demo_ops demo_world
    (world_log_frames workqueue) (view_upd _ _)) as (cs & s' & H1 & H2 & _).
  exists cs, s'. split; [exact H1|exact H2].
Defined.

(** Live slots are in the ring, so there are at most as many. *)
Lemma count_used_slots (es : list qos_workqueue_entry_t) (q : list nat) :
  (∀ i e, es !! i = Some e → used e = true → i ∈ q) → (count_used es <= length q)%nat.
Proof.
  intros Hq. set (idx := filter (λ i, is_true (default false (used <$> es !! i))) (seq 0 (length es))).
  assert (count_used es = length idx) as ->.
  { unfold idx, count_used. change slot_used with used. clear. induction es as [|x es IH] using rev_ind; [done|].
    rewrite count_if_app, length_app, seq_app, filter_app, length_app. cbn [length seq count_if]. f_equal.
    - rewrite IH. f_equal. apply filter_ext_in. intros i [_ Hi]%elem_of_seq.
      by rewrite lookup_app_l by lia.
    - rewrite Nat.add_0_l, filter_cons, list_lookup_middle by done. cbn [fmap option_fmap option_map].
      destruct (used x); case_decide as Hd; (done || (exfalso; by apply Hd)). }
  apply submseteq_length, NoDup_submseteq; [apply NoDup_filter, NoDup_seq|].
  intros i [Hu _]%list_elem_of_filter. destruct (es !! i) as [e|] eqn:He; [|done].
  eapply Hq; [done|]. revert Hu. cbn. by destruct (used e).
Qed.

(** Enqueues a list of works. *)
Definition enqueue_all {W} `{Lens W workqueue} `{!SoftirqPort W workqueue} (works : list (Z * Z)) (w : W) : W :=
  foldl (λ w '(f, a), (qos_workqueue_enqueue f a w).2) w works.

(** A ring without stale slots: what the queue is while nothing is cancelled. *)
Record fifo_wf (works : list (Z * Z)) (s : workqueue) : Prop := {
  ff_wf : wq_wf s;
  ff_nodup : NoDup (slots s);
  ff_used : ∀ i, i ∈ slots s → ∃ e, g_entries s !! i = Some e ∧ used e = true;
  ff_works : works_at (g_entries s) (slots s) = works
}.

Lemma fifo_enqueue works f a s :
  fifo_wf works s → f ≠ 0 → (length works < 128)%nat →
  ∃ wid s', enqueue_entry f a s = (0, Some wid, s') ∧ fifo_wf (works ++ [(f, a)]) s'.
Proof.
  intros [Hwf Hnd Hu Hw] Hf Hlen. pose proof (slots_length _ Hwf) as Hsl.
  assert (length works = length (slots s)) as Hwl.
  { rewrite <- Hw. clear -Hu. induction (slots s) as [|i q IH]; [done|]. cbn [works_at].
    destruct (Hu i) as (e & -> & ->); [left|]. cbn [app length]. rewrite IH; [done|]. intros. apply Hu. by right. }
  assert (count_used (g_entries s) <= length (slots s))%nat as Hcu by by apply count_used_slots, Hwf.
  destruct (free_slot (g_entries s)) as [i|] eqn:Hi; last first.
  { apply free_slot_None in Hi. rewrite (wq_entries _ Hwf) in Hi. unfold QOS_WORKQUEUE_MAX in Hi. lia. }
  destruct (enqueue_entry_ok f a s i Hwf Hf Hi) as (s' & -> & Hwf' & Hs' & He');
    [unfold QOS_WORKQUEUE_MAX; lia|].
  apply free_slot_Some in Hi as Hb. destruct Hb as (b & Hb & Hub). change slot_used with used in Hub.
  assert (i ∉ slots s) as Hni.
  { intros Hin. destruct (Hu i Hin) as (e & He & Hue). congruence. }
  pose proof (lookup_lt_Some _ _ _ Hb) as Hil.
  eexists _, s'. split; [done|]. split; [done|..].
  - rewrite Hs'. apply NoDup_app. split; [done|]. split; [|apply NoDup_singleton].
    intros j Hj ->%list_elem_of_singleton. done.
  - intros j Hj. rewrite Hs' in Hj. rewrite He'. apply elem_of_app in Hj as [Hj| ->%list_elem_of_singleton].
    + rewrite list_lookup_insert_ne by (intros ->; done). by apply Hu.
    + rewrite list_lookup_insert_eq by done. eauto.
  - rewrite Hs', He', works_at_app, works_at_insert_ne, Hw by done. cbn [works_at].
    by rewrite list_lookup_insert_eq by done.
Qed.

Lemma enqueue_all_fifo {W} `{Lens W workqueue} `{!SoftirqPort W workqueue} works done (w : W) :
  fifo_wf done (view w) → (length done + length works <= 128)%nat → Forall (λ '(f, _), f ≠ 0) works →
  fifo_wf (done ++ works) (view (enqueue_all works w))
  ∧ (works ≠ [] → Z.testbit (raised (enqueue_all works w)) QOS_SOFTIRQ_WORKQUEUE = true).
Proof.
  revert done w. induction works as [|[f a] works IH] using rev_ind; intros dn w Hff Hlen Hnz.
  { by rewrite app_nil_r. }
  rewrite length_app in Hlen. cbn [length] in Hlen. apply Forall_app in Hnz as [Hnz [Hf _]%Forall_cons].
  destruct (IH dn w Hff ltac:(lia) Hnz) as [IHf _].
  unfold enqueue_all in *. rewrite foldl_app. cbn [foldl].
  set (w1 := foldl _ w works) in *.
  destruct (fifo_enqueue (dn ++ works) f a (view w1) IHf Hf) as (wid & s' & E & Hff');
    [rewrite length_app; lia|].
  unfold qos_workqueue_enqueue. rewrite E. cbn [Z.eqb snd].
  rewrite raise_view, view_upd, (assoc_L (++)). split; [done|]. intros _.
  rewrite (proj2 (raise_ok QOS_SOFTIRQ_WORKQUEUE _ ltac:(unfold QOS_SOFTIRQ_WORKQUEUE; lia))).
  rewrite Z.lor_spec, bit_testbit, bool_decide_eq_true_2 by (unfold QOS_SOFTIRQ_WORKQUEUE; lia). apply orb_true_r.
Qed.

(** First in, first out. Starting from an empty queue, any list of at most
    128 works with non-NULL functions is accepted; the softirq is raised, and
    the handler then runs exactly these works in the order they were enqueued. *)
Theorem workqueue_fifo {W} `{Lens W workqueue} `{!SoftirqPort W workqueue}
    (call : Z → Z → W → W) (works : list (Z * Z)) (w : W) :
  (∀ f a, frames (S := workqueue) (call f a)) →
  view w = qos_workqueue_reset → (length works <= 128)%nat → Forall (λ '(f, _), f ≠ 0) works →
  let w1 := enqueue_all works w in
  (works ≠ [] → Z.testbit (raised w1) QOS_SOFTIRQ_WORKQUEUE = true)
  ∧ ∃ s' : workqueue, workqueue_softirq_handler call 129 w1 = Some (upd s' (run_calls call works w1)).
Proof.
  intros Hf Hv Hlen Hnz w1.
  destruct (enqueue_all_fifo works [] w) as [Hff Hr]; [|done|done|].
  { rewrite Hv. split; [apply wq_reset_wf|constructor| |done]. intros i Hi. inversion Hi. }
  split; [done|]. destruct Hff as [Hwf Hnd Hu Hw]. cbn [app] in Hw. fold w1 in Hwf, Hnd, Hw.
  pose proof (slots_length _ Hwf) as Hsl. destruct (wq_ring _ Hwf) as (_ & Hc & _).
  rewrite (wq_queue _ Hwf) in Hc. unfold QOS_WORKQUEUE_MAX in Hc. unfold workqueue_softirq_handler.
  rewrite (handler_loop_framed call Hf (slots (view w1))); try apply Hwf; [|done|lia].
  rewrite (drain_fifo (slots (view w1))), Hw by (try done; rewrite ?(wq_entries _ Hwf); apply Hwf). eauto.
Qed.

Lemma workqueue_fifo_witness :
  ∃ s' : workqueue, workqueue_softirq_handler world_log 129 (enqueue_all [(5, 1); (6, 2); (5, 3)] (boot_world qos_workqueue_reset))
        = Some (upd s' (run_calls world_log [(5, 1); (6, 2); (5, 3)]
                          (enqueue_all [(5, 1); (6, 2); (5, 3)] (boot_world qos_workqueue_reset)))).
Proof.
  refine (proj2 (workqueue_fifo world_log [(5, 1); (6, 2); (5, 3)] (boot_world qos_workqueue_reset)
    (world_log_frames workqueue) eq_refl _ _)); [simpl; lia|repeat constructor; lia].
Defined.

(** A cancelled item keeps its place in the ring. The slot of a cancelled
    item is reused while its old ring entry is still queued, so later work can
    run before earlier work (the third item here runs before the second); and
    after 128 enqueue/cancel pairs the ring is full of such entries: there is no
    pending work, yet every enqueue is refused. *)
Theorem workqueue_cancel_leaves_ring_entry :
  (w ← workqueue_softirq_handler world_log 129 (boot_world (wq_run [WEnqueue 10 1; WEnqueue 11 2; WCancel 1; WEnqueue 12 3]));
   Some w.2.2) = Some [(12, 3); (11, 2)]
  ∧ let s := wq_run (mjoin ((λ n, [WEnqueue 10 1; WCancel (Z.of_nat n)]) <$> seq 1 128)) in
    qos_workqueue_pending_count s = 0 ∧ (enqueue_entry 10 1 s).1 = (-1, None).
Proof. split; [vm_compute; reflexivity|]. split; vm_compute; reflexivity. Qed.
