(* ===== verification/Napi.v ===== *)
(** * Network receive polling (c-os/kernel/net/napi.c)

    32 poll instances; a scheduled one is polled with a budget by the NET_RX
    softirq.  A poll function is called on the whole kernel state and returns
    the work it did, so the handler re-reads its slot after each call. *)

From S2P Require Import Prelude SlotTable Softirq.

Definition QOS_NAPI_MAX : nat := 32.

Record qos_napi_t := {
  used : bool; scheduled : bool; id : Z; weight : Z; poll : Z; ctx : Z; run_count : Z
}.

#[export] Instance napi_slotted : Slotted qos_napi_t := used.
#[export] Instance napi_keyed : Keyed qos_napi_t Z := id.

Record napi := { g_napi : list qos_napi_t; g_next_napi_id : Z }.

Definition napi_zero : qos_napi_t :=
  {| used := false; scheduled := false; id := 0; weight := 0; poll := 0; ctx := 0; run_count := 0 |}.

Definition get_napi (i : nat) (s : napi) : qos_napi_t := default napi_zero (g_napi s !! i).

Definition put_napi (i : nat) (n : qos_napi_t) (s : napi) : napi :=
  {| g_napi := <[i := n]> (g_napi s); g_next_napi_id := g_next_napi_id s |}.

Definition set_scheduled (b : bool) (n : qos_napi_t) : qos_napi_t :=
  {| used := used n; scheduled := b; id := id n; weight := weight n; poll := poll n;
     ctx := ctx n; run_count := run_count n |}.

Definition count_run (n : qos_napi_t) : qos_napi_t :=
  {| used := used n; scheduled := scheduled n; id := id n; weight := weight n; poll := poll n;
     ctx := ctx n; run_count := u32 (run_count n + 1) |}.

Definition find_slot (napi_id : Z) (s : napi) : option nat := find_key napi_id (g_napi s).

Definition qos_napi_reset : napi :=
  {| g_napi := replicate QOS_NAPI_MAX napi_zero; g_next_napi_id := 1 |}.

(** The result carries what is written to [out_id]. *)
Definition qos_napi_register (w p c : Z) (s : napi) : Z * option Z * napi :=
  if (p =? 0) || (w =? 0) then (-1, None, s)
  else
    match free_slot (g_napi s) with
    | None => (-1, None, s)
    | Some i =>
        let n := g_next_napi_id s in
        let '(nid, next) := if n =? 0 then (u32 (n + 1), u32 (u32 (n + 1) + 1)) else (n, u32 (n + 1)) in
        (0, Some nid,
         {| g_napi := <[i := {| used := true; scheduled := false; id := nid; weight := w; poll := p;
                                ctx := c; run_count := 0 |}]> (g_napi s);
            g_next_napi_id := next |})
    end.

Definition qos_napi_complete (napi_id : Z) (s : napi) : Z * napi :=
  match find_slot napi_id s with
  | None => (-1, s)
  | Some i => (0, put_napi i (set_scheduled false (get_napi i s)) s)
  end.

Definition qos_napi_pending_count (s : napi) : Z :=
  Z.of_nat (count_if (λ n, used n && scheduled n) (g_napi s)).

Definition qos_napi_run_count (napi_id : Z) (s : napi) : Z :=
  match find_slot napi_id s with None => 0 | Some i => run_count (get_napi i s) end.

(** The condition under which the handler polls a slot, and its budget. *)
Definition active (n : qos_napi_t) : bool := used n && scheduled n && negb (poll n =? 0).
Definition budget (n : qos_napi_t) : Z := if weight n =? 0 then 1 else weight n.

Section kernel.
Context {W : Type} `{Lens W napi} `{!SoftirqPort W napi}.
(** [do_poll fn ctx budget] calls a poll function: the work done and the new state. *)
Variable do_poll : Z → Z → Z → W → Z * W.

Definition qos_napi_schedule (napi_id : Z) (w : W) : Z * W :=
  match find_slot napi_id (view w) with
  | None => (-1, w)
  | Some i =>
      raise QOS_SOFTIRQ_NET_RX (upd (put_napi i (set_scheduled true (get_napi i (view w))) (view w)) w)
  end.

(** One slot of the handler's scan; the flag is [need_reschedule]. *)
Definition poll_slot (i : nat) (need : bool) (w : W) : bool * W :=
  let n := get_napi i (view w) in
  if active n then
    let '(work, w1) := do_poll (poll n) (ctx n) (budget n) w in
    let w2 := upd (put_napi i (count_run (get_napi i (view w1))) (view w1)) w1 in
    if work <? budget n
    then (need, upd (put_napi i (set_scheduled false (get_napi i (view w2))) (view w2)) w2)
    else (true, w2)
  else (need, w).

Fixpoint poll_slots (slots : list nat) (need : bool) (w : W) : bool * W :=
  match slots with
  | [] => (need, w)
  | i :: slots' => let '(need', w') := poll_slot i need w in poll_slots slots' need' w'
  end.

Definition napi_softirq_handler (w : W) : W :=
  let '(need, w') := poll_slots (seq 0 QOS_NAPI_MAX) false w in
  if need then (raise QOS_SOFTIRQ_NET_RX w').2 else w'.

(** ** One round, without touching the table *)

(** The instances polled in order, each with its budget; what they become, the
    state their poll functions leave, and whether one used up its budget. *)
Fixpoint round (ns : list qos_napi_t) (w : W) : list qos_napi_t * bool * W :=
  match ns with
  | [] => ([], false, w)
  | n :: ns' =>
      if active n then
        let '(work, w1) := do_poll (poll n) (ctx n) (budget n) w in
        let '(ns'', full, w2) := round ns' w1 in
        (set_scheduled (budget n <=? work) (count_run n) :: ns'', (budget n <=? work) || full, w2)
      else
        let '(ns'', full, w2) := round ns' w in (n :: ns'', full, w2)
  end.

Hypothesis poll_frames : ∀ fn c b (s : napi) w,
  do_poll fn c b (upd s w) = ((do_poll fn c b w).1, upd s (do_poll fn c b w).2).

Lemma round_frames ns (s : napi) w :
  round ns (upd s w) = ((round ns w).1, upd s (round ns w).2).
Proof.
  revert w. induction ns as [|n ns IH]; intros w; cbn [round]; [done|].
  destruct (active n).
  - rewrite poll_frames. destruct (do_poll (poll n) (ctx n) (budget n) w) as [work w1]. cbn [fst snd].
    rewrite IH. by destruct (round ns w1) as [[? ?] ?].
  - rewrite IH. by destruct (round ns w) as [[? ?] ?].
Qed.

Lemma poll_view fn c b w : view (S := napi) (do_poll fn c b w).2 = view w.
Proof.
  rewrite <- (upd_view (S := napi) w) at 1. rewrite poll_frames. cbn [snd]. apply view_upd.
Qed.

Lemma poll_slots_round l2 l1 need w :
  g_napi (view w) = l1 ++ l2 →
  poll_slots (seq (length l1) (length l2)) need w
  = let '(ns, full, w') := round l2 w in
    (need || full, upd {| g_napi := l1 ++ ns; g_next_napi_id := g_next_napi_id (view w) |} w').
Proof.
  revert l1 need w. induction l2 as [|n l2 IH]; intros l1 need w Hl; cbn [seq length poll_slots round].
  { rewrite orb_false_r, <- Hl. destruct (view w) as [l j] eqn:E. cbn [g_napi g_next_napi_id].
    by rewrite <- E, upd_view. }
  assert (∀ s u, g_napi s = l1 ++ u :: l2 → get_napi (length l1) s = u) as Hget.
  { intros s u Hs. unfold get_napi. rewrite Hs. by rewrite list_lookup_middle. }
  assert (∀ s u v, g_napi s = l1 ++ u :: l2 → put_napi (length l1) v s
            = {| g_napi := l1 ++ v :: l2; g_next_napi_id := g_next_napi_id s |}) as Hput.
  { intros s u v Hs. unfold put_napi. rewrite Hs. by rewrite insert_app_r_alt, Nat.sub_diag by reflexivity. }
  assert (∀ v need1 w1, let s1 := {| g_napi := l1 ++ v :: l2; g_next_napi_id := g_next_napi_id (view w) |} in
            poll_slots (seq (S (length l1)) (length l2)) need1 (upd s1 w1)
            = let '(ns, full, w') := round l2 w1 in
              (need1 || full, upd {| g_napi := l1 ++ v :: ns; g_next_napi_id := g_next_napi_id (view w) |} w')) as Hrest.
  { intros v need1 w1 s1. pose proof (IH (l1 ++ [v]) need1 (upd s1 w1)) as E. rewrite view_upd in E.
    rewrite length_app in E. cbn [length] in E. rewrite Nat.add_1_r in E. rewrite E.
    2:{ cbn. by rewrite <- (assoc_L (++)). }
    rewrite round_frames. destruct (round l2 w1) as [[ns full] w']. cbn [fst snd]. rewrite upd_upd.
    cbn. by rewrite <- (assoc_L (++)). }
  unfold poll_slot. rewrite (Hget _ _ Hl). destruct (active n) eqn:Ha.
  - pose proof (poll_view (poll n) (ctx n) (budget n) w) as Hv.
    destruct (do_poll (poll n) (ctx n) (budget n) w) as [work w1]. cbn [snd] in Hv.
    rewrite Hv, (Hget _ _ Hl), (Hput _ _ _ Hl), view_upd, (Hget _ (count_run n)) by done.
    rewrite (Hput _ (count_run n)), upd_upd, Z.ltb_antisym by done.
    destruct (budget n <=? work); cbn [negb].
    + assert (set_scheduled true (count_run n) = count_run n) as ->.
      { unfold active in Ha. b2p. unfold set_scheduled, count_run. cbn. by f_equal. }
      rewrite Hrest. destruct (round l2 w1) as [[ns full] w']. by rewrite orb_true_r.
    + rewrite Hrest. by destruct (round l2 w1) as [[ns full] w'].
  - pose proof (Hrest n need w) as E. cbv zeta in E. rewrite <- Hl in E.
    assert (upd {| g_napi := g_napi (view w); g_next_napi_id := g_next_napi_id (view w) |} w = w) as Hid.
    { destruct (view w) as [l j] eqn:Ew. cbn. by rewrite <- Ew, upd_view. }
    rewrite Hid in E. rewrite E. by destruct (round l2 w) as [[ns full] w'].
Qed.

End kernel.

(** [napi_init] with the address of [napi_softirq_handler]. *)
Definition napi_init (handler : Z) (q : softirq) : napi * softirq :=
  (qos_napi_reset, (qos_softirq_register QOS_SOFTIRQ_NET_RX handler 0 q).2).

(** One NET_RX softirq is one round. With poll functions that leave the
    table alone, the handler polls every scheduled instance exactly once, in
    slot order and with its weight as budget; an instance that did less work
    than its budget is unscheduled, one that used it up stays scheduled, and
    the softirq is raised again exactly when there is such an instance. *)
Theorem napi_handler_round {W} `{Lens W napi} `{!SoftirqPort W napi}
    (do_poll : Z → Z → Z → W → Z * W) (w : W) :
  (∀ fn c b (s : napi) w, do_poll fn c b (upd s w) = ((do_poll fn c b w).1, upd s (do_poll fn c b w).2)) →
  length (g_napi (view w)) = QOS_NAPI_MAX →
  napi_softirq_handler do_poll w
  = let '(ns, full, w1) := round do_poll (g_napi (view w)) w in
    let w2 := upd {| g_napi := ns; g_next_napi_id := g_next_napi_id (view w) |} w1 in
    if full then (raise QOS_SOFTIRQ_NET_RX w2).2 else w2.
Proof.
  intros Hf Hl. unfold napi_softirq_handler.
  pose proof (poll_slots_round do_poll Hf (g_napi (view w)) [] false w eq_refl) as E.
  cbn [length] in E. rewrite Hl in E. rewrite E. by destruct (round do_poll _ w) as [[ns full] w'].
Qed.

(** A poll function that takes packets from a backlog of [ctx] packets. *)
Definition demo_poll (fn c b : Z) (w : world napi) : Z * world napi :=
  (Z.min c b, (w.1, (w.2.1, w.2.2 ++ [(fn, Z.min c b)]))).

Definition demo_napi : napi :=
  let s := (qos_napi_register 8 50 3 qos_napi_reset).2 in
  let s := (qos_napi_register 4 60 9 s).2 in
  {| g_napi := set_scheduled true <$> g_napi s; g_next_napi_id := g_next_napi_id s |}.

Lemma napi_handler_round_witness :
  (napi_softirq_handler demo_poll (boot_world demo_napi)).2.2 = [(50, 3); (60, 4)].
Proof.
  rewrite (napi_handler_round demo_poll (boot_world demo_napi)); [reflexivity| |reflexivity].
  by intros fn c b s [? [? ?]].
Defined.
