(* ===== verification/NameBuf.v ===== *)
(** * Generated names

    Kernel threads and processes are named by a fixed prefix and the decimal
    digits of an identifier, written into a 32-byte buffer by two copies of the
    same routine (kthread.c [write_u32_ascii], proc.c [write_u32_ascii]).  This
    file models the routine once and shows what the buffer holds. *)

From S2P Require Import Prelude.

(** [QOS_KTHREAD_NAME_MAX] and [QOS_PROC_NAME_MAX]. *)
Definition NAME_MAX : nat := 32.

(** [tmp[n++] = '0' + value % 10; value /= 10;] while value is not zero, at most
    [room] times: the digits, least significant first. *)
Fixpoint digits (room : nat) (value : Z) : list Z :=
  match room with
  | O => []
  | S room' => if value =? 0 then [] else (48 + value mod 10) :: digits room' (value / 10)
  end.

(** [while (i < n && i + 1 < cap) { out[i] = ...; i++; }] *)
Fixpoint copy_chars (i cap : nat) (cs : list Z) (off : nat) (buf : list Z) : list Z :=
  match cs with
  | [] => buf
  | c :: cs' =>
      if (i + 1 <? cap)%nat then copy_chars (S i) cap cs' off (<[(off + i)%nat := c]> buf) else buf
  end.

(** [write_u32_ascii(buf + off, cap, value)]: the count returned, the buffer. *)
Definition write_u32_ascii (buf : list Z) (off cap : nat) (value : Z) : nat * list Z :=
  if (cap =? 0)%nat then (0%nat, buf)
  else if value =? 0 then
    (1%nat, if (1 <? cap)%nat then <[off := 48]> buf else buf)
  else
    let tmp := digits 16 value in
    (length tmp, copy_chars 0 cap (reverse tmp) off buf).

(** The name buffer and its length after the prefix, the identifier and the
    final NUL are written. *)
Definition init_name (prefix buf : list Z) (id : Z) : list Z * Z :=
  let buf1 := copy_chars 0 NAME_MAX prefix 0 buf in
  let off := Nat.min (length prefix) (NAME_MAX - 1) in
  let '(n, buf2) := write_u32_ascii buf1 off (NAME_MAX - off) id in
  let off := (off + n)%nat in
  let off := if (NAME_MAX <=? off)%nat then (NAME_MAX - 1)%nat else off in
  (<[off := 0]> buf2, u8 (Z.of_nat off)).


Definition parse (ds : list Z) : Z := foldl (λ v d, v * 10 + (d - 48)) 0 ds.

Definition is_digit (d : Z) : Prop := 48 <= d <= 57.

(** The decimal digits the code prints for an id. *)
Definition decimal (v : Z) : list Z := reverse (digits 16 v).

Lemma digits_parse room v :
  0 <= v < 10 ^ Z.of_nat room → parse (reverse (digits room v)) = v ∧ Forall is_digit (digits room v).
Proof.
  revert v. induction room as [|room IH]; intros v Hv; cbn [digits].
  { split; [|constructor]. unfold parse. simpl. change (10 ^ Z.of_nat 0) with 1 in Hv. lia. }
  destruct (Z.eqb_spec v 0) as [->|Hne]; [done|].
  rewrite Nat2Z.inj_succ, Z.pow_succ_r in Hv by lia.
  pose proof (Z.mod_pos_bound v 10 ltac:(lia)). pose proof (Z.div_mod v 10 ltac:(lia)).
  destruct (IH (v / 10)) as [IHp IHd].
  { split; [apply Z.div_pos; lia|]. apply Z.div_lt_upper_bound; lia. }
  split; [|constructor; [unfold is_digit; lia|done]].
  unfold parse in *. rewrite reverse_cons, foldl_app, IHp. cbn [foldl]. lia.
Qed.

Lemma digits_length room k v : 0 <= v < 10 ^ Z.of_nat k → (length (digits room v) <= k)%nat.
Proof.
  revert k v. induction room as [|room IH]; intros k v Hv; cbn [digits length]; [lia|].
  destruct (Z.eqb_spec v 0) as [->|Hne]; cbn [length]; [lia|].
  destruct k as [|k]; [change (10 ^ Z.of_nat 0) with 1 in Hv; lia|].
  rewrite Nat2Z.inj_succ, Z.pow_succ_r in Hv by lia. apply le_n_S, IH.
  split; [apply Z.div_pos; lia|]. apply Z.div_lt_upper_bound; lia.
Qed.

Lemma digits_pos room v : 0 < v → (0 < room)%nat → (0 < length (digits room v))%nat.
Proof. intros Hv Hr. destruct room; [lia|]. cbn [digits]. rewrite (proj2 (Z.eqb_neq _ _)) by lia. simpl. lia. Qed.

Lemma copy_chars_spec cs i cap off buf :
  (i + length cs < cap)%nat → (off + i + length cs <= length buf)%nat →
  copy_chars i cap cs off buf = take (off + i) buf ++ cs ++ drop (off + i + length cs) buf.
Proof.
  revert i buf. induction cs as [|c cs IH]; intros i buf Hc Hb; cbn [copy_chars length app] in *.
  { by rewrite Nat.add_0_r, take_drop. }
  rewrite (proj2 (Nat.ltb_lt _ _)) by lia. rewrite IH by (rewrite ?length_insert; lia).
  rewrite drop_insert_lt by lia. replace (off + S i)%nat with (S (off + i)) by lia.
  rewrite (take_S_r _ _ c) by (rewrite list_lookup_insert_eq by lia; done).
  rewrite take_insert_ge, <- (assoc_L (++)) by lia.
  by replace (S (off + i) + length cs)%nat with (off + i + S (length cs))%nat by lia.
Qed.

Lemma init_name_spec prefix buf t :
  (length prefix <= 8)%nat → length buf = NAME_MAX → 0 < t < 2 ^ 32 →
  ∃ rest, init_name prefix buf t
          = (prefix ++ decimal t ++ 0 :: rest, Z.of_nat (length prefix + length (decimal t)))
          ∧ length (prefix ++ decimal t ++ 0 :: rest) = NAME_MAX.
Proof.
  intros Hp Hb Ht. unfold init_name, NAME_MAX in *. rewrite Nat.min_l by lia.
  pose proof (digits_length 16 10 t ltac:(lia)) as Hd.
  assert (length (decimal t) = length (digits 16 t)) as Hld by apply length_reverse.
  rewrite copy_chars_spec by (rewrite ?Hb; lia). change (take (0 + 0) buf) with (@nil Z). cbn [Nat.add app]. set (p := length prefix) in *.
  set (buf1 := prefix ++ drop p buf).
  assert (length buf1 = 32%nat) as Hb1 by (unfold buf1; rewrite length_app, length_drop, Hb; fold p; lia).
  unfold write_u32_ascii. rewrite (proj2 (Nat.eqb_neq (32 - p) 0)), (proj2 (Z.eqb_neq _ _)) by lia.
  fold (decimal t).
  rewrite copy_chars_spec by (rewrite ?Hb1; lia). rewrite (proj2 (Nat.leb_gt _ _)) by lia.
  rewrite Nat.add_0_r, <- Hld. set (n := length (decimal t)) in *.
  assert (take p buf1 = prefix) as -> by (unfold buf1; by rewrite take_app_length' by done).
  rewrite wrap_small by (unfold in_width; lia).
  destruct (drop (p + n) buf1) as [|x rest] eqn:Ed.
  { apply (f_equal length) in Ed. rewrite length_drop, Hb1 in Ed. cbn [length] in Ed. lia. }
  exists rest. rewrite !insert_app_r_alt by (fold p; lia).
  fold p. fold n. replace (p + n - p - n)%nat with 0%nat by lia. cbn [insert list_insert].
  split; [done|]. rewrite !length_app. cbn [length]. apply (f_equal length) in Ed.
  rewrite length_drop, Hb1 in Ed. cbn [length] in Ed. fold n p. lia.
Qed.

(** Reading a generated name back: the bytes up to and including the NUL. *)
Lemma name_take (prefix rest : list Z) t :
  take (Z.to_nat (Z.of_nat (length prefix + length (decimal t)) + 1)) (prefix ++ decimal t ++ 0 :: rest)
  = prefix ++ decimal t ++ [0].
Proof.
  replace (Z.to_nat _) with (length (prefix ++ decimal t ++ [0])) by
    (rewrite !length_app; cbn [length]; lia).
  change (0 :: rest) with ([0] ++ rest). rewrite !(assoc_L (++)). by rewrite take_app_length.
Qed.

Lemma decimal_length t : 0 < t < 2 ^ 32 → (0 < length (decimal t) <= 10)%nat.
Proof.
  intros Ht. unfold decimal. rewrite length_reverse. split; [apply digits_pos; lia|].
  apply digits_length. lia.
Qed.

(** The digits read back as the identifier. *)
Lemma decimal_parse t : 0 < t < 2 ^ 32 → parse (decimal t) = t ∧ Forall is_digit (decimal t).
Proof.
  intros Ht. destruct (digits_parse 16 t ltac:(lia)) as [? ?]. split; [done|].
  unfold decimal. by apply Forall_reverse.
Qed.
