(* ===== verification/Kthread.v ===== *)
(** * Kernel threads (c-os/kernel/kthread/kthread.c)

    64 thread slots run round robin, each with the name buffer the code fills
    with "kthread-" and the decimal thread id.  A thread's entry function is
    called on the whole kernel state. *)

From S2P Require Import Prelude SlotTable Softirq NameBuf.

Definition QOS_KTHREAD_MAX : nat := 64.
Definition QOS_KTHREAD_NAME_MAX : nat := NAME_MAX.

(** A row of [g_threads] with its row of [g_names] and [g_name_len]. *)
Record qos_kthread_t := {
  used : bool; runnable : bool; tid : Z; entry : Z; arg : Z; run_count : Z;
  name : list Z; name_len : Z
}.

#[export] Instance kthread_slotted : Slotted qos_kthread_t := used.
#[export] Instance kthread_keyed : Keyed qos_kthread_t Z := tid.

Record kthreads := {
  g_threads : list qos_kthread_t; g_next_tid : Z; g_cursor : nat; g_current_tid : Z
}.

Definition prefix : list Z := [107; 116; 104; 114; 101; 97; 100; 45].

Definition init_name_slot : list Z → Z → list Z * Z := init_name prefix.

Definition find_slot_by_tid (t : Z) (s : kthreads) : option nat := find_key t (g_threads s).

(** Reset clears the first name byte only; [names] is what the buffers held. *)
Definition qos_kthread_reset (names : list (list Z)) : kthreads :=
  {| g_threads := (λ b, {| used := false; runnable := false; tid := 0; entry := 0; arg := 0;
                           run_count := 0; name := <[0%nat := 0]> b; name_len := 0 |}) <$> names;
     g_next_tid := 1; g_cursor := 0; g_current_tid := 0 |}.

Definition kthread_init : list (list Z) → kthreads := qos_kthread_reset.

Definition qos_kthread_create (e a : Z) (s : kthreads) : Z * option Z * kthreads :=
  if e =? 0 then (-1, None, s)
  else
    match free_slot (g_threads s) with
    | None => (-1, None, s)
    | Some i =>
        let n := g_next_tid s in
        let '(t, next) := if n =? 0 then (u32 (n + 1), u32 (u32 (n + 1) + 1)) else (n, u32 (n + 1)) in
        let '(nm, len) := init_name_slot (default [] (name <$> g_threads s !! i)) t in
        (0, Some t,
         {| g_threads := <[i := {| used := true; runnable := true; tid := t; entry := e; arg := a;
                                   run_count := 0; name := nm; name_len := len |}]> (g_threads s);
            g_next_tid := next; g_cursor := g_cursor s; g_current_tid := g_current_tid s |})
    end.

Definition set_runnable (b : bool) (k : qos_kthread_t) : qos_kthread_t :=
  {| used := used k; runnable := b; tid := tid k; entry := entry k; arg := arg k;
     run_count := run_count k; name := name k; name_len := name_len k |}.

Definition count_run (k : qos_kthread_t) : qos_kthread_t :=
  {| used := used k; runnable := runnable k; tid := tid k; entry := entry k; arg := arg k;
     run_count := u32 (run_count k + 1); name := name k; name_len := name_len k |}.

Definition with_threads (l : list qos_kthread_t) (s : kthreads) : kthreads :=
  {| g_threads := l; g_next_tid := g_next_tid s; g_cursor := g_cursor s; g_current_tid := g_current_tid s |}.

Definition qos_kthread_wake (t : Z) (s : kthreads) : Z * kthreads :=
  match find_slot_by_tid t s with
  | None => (-1, s)
  | Some i => (0, with_threads (alter (set_runnable true) i (g_threads s)) s)
  end.

Definition qos_kthread_stop (t : Z) (s : kthreads) : Z * kthreads :=
  match find_slot_by_tid t s with
  | None => (-1, s)
  | Some i => (0, with_threads (alter (set_runnable false) i (g_threads s)) s)
  end.

Definition qos_kthread_count (s : kthreads) : Z := Z.of_nat (count_if used (g_threads s)).

Definition qos_kthread_run_count (t : Z) (s : kthreads) : Z :=
  match find_slot_by_tid t s with
  | None => 0
  | Some i => default 0 (run_count <$> g_threads s !! i)
  end.

Definition qos_kthread_current_tid (s : kthreads) : Z := g_current_tid s.

(** The bytes copied to [out], when [out] is not NULL. *)
Definition qos_kthread_name_get (t : Z) (out : bool) (out_len : Z) (s : kthreads) : Z * option (list Z) :=
  match find_slot_by_tid t s with
  | None => (-1, None)
  | Some i =>
      if negb out || (out_len =? 0) then (-1, None)
      else
        let len := default 0 (name_len <$> g_threads s !! i) in
        if out_len <? len + 1 then (-1, None)
        else (len, Some (take (Z.to_nat (len + 1)) (default [] (name <$> g_threads s !! i))))
  end.

Definition ready (k : qos_kthread_t) : bool := used k && runnable k && negb (entry k =? 0).

(** Slots in the order of the scan from the cursor. *)
Definition scan_order (cursor : nat) : list nat :=
  (λ k, (cursor + k) mod QOS_KTHREAD_MAX)%nat <$> seq 0 QOS_KTHREAD_MAX.

Definition ready_at (s : kthreads) (i : nat) : bool := default false (ready <$> g_threads s !! i).

Section kernel.
Context {W : Type} `{Lens W kthreads} (call : Z → Z → W → W).

Definition qos_kthread_run_next (w : W) : Z * W :=
  let s := view w in
  match first_index (ready_at s) (scan_order (g_cursor s)) with
  | None => (0, upd {| g_threads := g_threads s; g_next_tid := g_next_tid s; g_cursor := g_cursor s;
                       g_current_tid := 0 |} w)
  | Some scanned =>
      let idx := ((g_cursor s + scanned) mod QOS_KTHREAD_MAX)%nat in
      let t := default 0 (tid <$> g_threads s !! idx) in
      let fn := default 0 (entry <$> g_threads s !! idx) in
      let a := default 0 (arg <$> g_threads s !! idx) in
      let w1 := upd {| g_threads := alter count_run idx (g_threads s); g_next_tid := g_next_tid s;
                       g_cursor := (idx + 1) mod QOS_KTHREAD_MAX; g_current_tid := t |} w in
      (t, call fn a w1)
  end.

Fixpoint run_next_n (n : nat) (w : W) : list Z * W :=
  match n with
  | O => ([], w)
  | S n' => let '(t, w1) := qos_kthread_run_next w in
            let '(ts, w2) := run_next_n n' w1 in (t :: ts, w2)
  end.

End kernel.

(** ** Round robin *)

Lemma scan_order_length c : length (scan_order c) = QOS_KTHREAD_MAX.
Proof. unfold scan_order. by rewrite length_fmap, length_seq. Qed.

Lemma scan_order_lookup c j :
  (j < QOS_KTHREAD_MAX)%nat → scan_order c !! j = Some ((c + j) mod QOS_KTHREAD_MAX)%nat.
Proof. intros Hj. unfold scan_order. rewrite list_lookup_fmap, lookup_seq_lt by done. done. Qed.

(** Moving the cursor rotates the scan. *)
Lemma scan_order_rotate c k :
  (k <= QOS_KTHREAD_MAX)%nat →
  scan_order ((c + k) mod QOS_KTHREAD_MAX) = drop k (scan_order c) ++ take k (scan_order c).
Proof.
  intros Hk. apply list_eq. intros j. pose proof (scan_order_length c) as Hl.
  destruct (decide (j < QOS_KTHREAD_MAX)%nat) as [Hj|Hj]; last first.
  { rewrite !lookup_ge_None_2; [done|..]; rewrite ?length_app, ?length_take, ?length_drop, ?scan_order_length; lia. }
  rewrite scan_order_lookup by done. rewrite Nat.Div0.add_mod_idemp_l.
  destruct (decide (j < QOS_KTHREAD_MAX - k)%nat) as [Hlt|Hge].
  - rewrite lookup_app_l by (rewrite length_drop; lia). rewrite lookup_drop, scan_order_lookup by lia.
    do 2 f_equal. lia.
  - rewrite lookup_app_r by (rewrite length_drop; lia). rewrite length_drop, Hl.
    rewrite lookup_take, decide_True, scan_order_lookup by lia. f_equal.
    replace (c + k + j)%nat with (c + (j - (QOS_KTHREAD_MAX - k)) + 1 * QOS_KTHREAD_MAX)%nat by lia.
    apply Nat.Div0.mod_add.
Qed.

Definition ready_order (s : kthreads) : list nat :=
  filter (λ i, ready_at s i = true) (scan_order (g_cursor s)).

Definition tid_at (s : kthreads) (i : nat) : Z := default 0 (tid <$> g_threads s !! i).

(** The first ready slot of the scan. *)
Lemma first_ready {A} (p : A → bool) (l : list A) i rest :
  filter (λ a, p a = true) l = i :: rest →
  ∃ k, first_index p l = Some k ∧ l !! k = Some i
       ∧ filter (λ a, p a = true) (take (S k) l) = [i] ∧ filter (λ a, p a = true) (drop (S k) l) = rest.
Proof.
  induction l as [|x l IH]; intros E; [done|]. cbn [first_index].
  destruct (p x) eqn:Hx.
  - rewrite filter_cons_True in E by done. simplify_eq. exists 0%nat. cbn [take drop].
    rewrite filter_cons_True by done. done.
  - rewrite filter_cons_False in E by congruence. destruct (IH E) as (k & -> & Hk & Ht & Hd).
    exists (S k). split; [done|]. split; [done|]. cbn [take drop] in *.
    rewrite filter_cons_False by congruence. done.
Qed.

Lemma alter_ready s idx i l :
  l = alter count_run idx (g_threads s) →
  default false (ready <$> l !! i) = ready_at s i ∧ default 0 (tid <$> l !! i) = tid_at s i.
Proof.
  intros ->. unfold ready_at, tid_at. destruct (decide (i = idx)) as [->|Hne].
  - rewrite list_lookup_alter_eq. by destruct (g_threads s !! idx).
  - by rewrite list_lookup_alter_ne.
Qed.

Section round.
Context {W : Type} `{Lens W kthreads} (call : Z → Z → W → W).
Hypothesis call_frames : ∀ fn a, frames (S := kthreads) (call fn a).

Lemma run_next_spec w idx rest :
  ready_order (view w) = idx :: rest →
  let '(t, w1) := qos_kthread_run_next call w in
  t = tid_at (view w) idx
  ∧ ready_order (view w1) = rest ++ [idx]
  ∧ g_threads (view w1) = alter count_run idx (g_threads (view w))
  ∧ g_current_tid (view w1) = t.
Proof.
  intros E. unfold qos_kthread_run_next. set (s := view w) in *. unfold ready_order in E.
  destruct (first_ready (ready_at s) _ _ _ E) as (k & -> & Hk & Ht & Hd).
  pose proof (lookup_lt_Some _ _ _ Hk) as Hlt. rewrite scan_order_length in Hlt.
  rewrite scan_order_lookup in Hk by done. apply (inj Some) in Hk. rewrite Hk.
  split; [done|]. rewrite !frames_view by apply call_frames. rewrite view_upd.
  split; [|done]. unfold ready_order. cbn [g_cursor].
  rewrite <- Hk, Nat.Div0.add_mod_idemp_l, <- (assoc_L Nat.add), Nat.add_1_r, scan_order_rotate by lia.
  rewrite Hk, filter_app.
  rewrite !(filter_ext_in (λ i, ready_at {| g_threads := _ |} i = true) (λ i, ready_at s i = true)).
  - by rewrite Ht, Hd.
  - intros i _. unfold ready_at at 1. cbn [g_threads].
    by rewrite (proj1 (alter_ready s idx i _ eq_refl)).
  - intros i _. unfold ready_at at 1. cbn [g_threads].
    by rewrite (proj1 (alter_ready s idx i _ eq_refl)).
Qed.

Lemma run_next_n_spec l1 l2 w :
  ready_order (view w) = l1 ++ l2 →
  let '(ts, w1) := run_next_n call (length l1) w in
  ts = tid_at (view w) <$> l1
  ∧ ready_order (view w1) = l2 ++ l1
  ∧ g_threads (view w1) = foldl (λ l i, alter count_run i l) (g_threads (view w)) l1.
Proof.
  revert l2 w. induction l1 as [|i l1 IH]; intros l2 w E; cbn [length run_next_n].
  { by rewrite app_nil_r. }
  pose proof (run_next_spec w i (l1 ++ l2) E) as Hs.
  destruct (qos_kthread_run_next call w) as [t w1]. destruct Hs as (-> & Hr & Ht & _).
  rewrite <- (assoc_L (++)) in Hr. specialize (IH (l2 ++ [i]) w1 Hr).
  destruct (run_next_n call (length l1) w1) as [ts w2]. destruct IH as (-> & Hr2 & Ht2).
  rewrite fmap_cons. split; [|split].
  - f_equal. apply list_fmap_ext. intros _ j _. unfold tid_at at 1. rewrite Ht.
    apply (proj2 (alter_ready (view w) i j _ eq_refl)).
  - by rewrite Hr2, <- (assoc_L (++)).
  - by rewrite Ht2, Ht.
Qed.

End round.

(** ** Invariant *)

Record thread_ok (k : qos_kthread_t) : Prop := {
  to_buf : length (name k) = QOS_KTHREAD_NAME_MAX;
  to_live : used k = true →
    0 < tid k < 2 ^ 32 ∧ (∃ rest, name k = prefix ++ decimal (tid k) ++ 0 :: rest)
    ∧ name_len k = Z.of_nat (8 + length (decimal (tid k)))
}.

Record kt_wf (s : kthreads) : Prop := {
  kw_len : length (g_threads s) = QOS_KTHREAD_MAX;
  kw_ok : Forall thread_ok (g_threads s);
  kw_next : in_width 32 (g_next_tid s);
  kw_cursor : (g_cursor s < QOS_KTHREAD_MAX)%nat
}.

Inductive kt_op := KCreate (e a : Z) | KWake (t : Z) | KStop (t : Z).

Definition kt_exec (o : kt_op) (s : kthreads) : kthreads :=
  match o with
  | KCreate e a => (qos_kthread_create e a s).2
  | KWake t => (qos_kthread_wake t s).2
  | KStop t => (qos_kthread_stop t s).2
  end.

Lemma set_runnable_ok b k : thread_ok k → thread_ok (set_runnable b k).
Proof. by intros []. Qed.

Lemma alter_wf b i s : kt_wf s → kt_wf (with_threads (alter (set_runnable b) i (g_threads s)) s).
Proof.
  intros [Hl Ho Hn Hc]. split; try done; cbn [g_threads with_threads].
  - by rewrite length_alter.
  - apply Forall_alter; [done|]. intros k _. apply set_runnable_ok.
Qed.

(** The id handed out is never zero and fits 32 bits. *)
Lemma fresh_tid_range n :
  in_width 32 n →
  let '(t, next) := if n =? 0 then (u32 (n + 1), u32 (u32 (n + 1) + 1)) else (n, u32 (n + 1)) in
  0 < t < 2 ^ 32 ∧ in_width 32 next.
Proof.
  intros Hn. destruct (Z.eqb_spec n 0) as [->|Hne].
  - split; [by vm_compute|apply wrap_range; lia].
  - split; [unfold in_width in Hn; lia|apply wrap_range; lia].
Qed.

Lemma create_wf e a s : kt_wf s → kt_wf (qos_kthread_create e a s).2.
Proof.
  intros Hwf. unfold qos_kthread_create. destruct (e =? 0); [done|].
  destruct (free_slot (g_threads s)) as [i|] eqn:Hi; [|done].
  pose proof (fresh_tid_range _ (kw_next _ Hwf)) as Hr. destruct (if g_next_tid s =? 0 then _ else _) as [t next].
  destruct Hr as [Ht Hnx]. apply free_slot_Some in Hi as (b & Hb & _). rewrite Hb. cbn [fmap option_fmap option_map].
  pose proof (Forall_lookup_1 _ _ _ _ (kw_ok _ Hwf) Hb) as Hbo.
  destruct (init_name_spec prefix (name b) t ltac:(cbn; lia) (to_buf _ Hbo) Ht) as (rest & E & Hlen).
  change (default [] (Some (name b))) with (name b). unfold init_name_slot. rewrite E. cbn [snd].
  split; cbn [g_threads g_next_tid g_cursor]; try apply Hwf; [by rewrite length_insert; apply Hwf| |done].
  apply Forall_insert; [apply Hwf|]. split; cbn [name tid name_len]; [done|]. intros _. eauto.
Qed.

Lemma kt_exec_wf o s : kt_wf s → kt_wf (kt_exec o s).
Proof.
  intros Hwf. destruct o; cbn [kt_exec].
  - by apply create_wf.
  - unfold qos_kthread_wake. destruct (find_slot_by_tid t s); [by apply alter_wf|done].
  - unfold qos_kthread_stop. destruct (find_slot_by_tid t s); [by apply alter_wf|done].
Qed.

Definition kt_run (names : list (list Z)) (ops : list kt_op) : kthreads :=
  foldl (λ s o, kt_exec o s) (qos_kthread_reset names) ops.

Lemma kt_reset_wf names :
  length names = QOS_KTHREAD_MAX → Forall (λ b, length b = QOS_KTHREAD_NAME_MAX) names →
  kt_wf (qos_kthread_reset names).
Proof.
  intros Hl Hn. split; cbn [qos_kthread_reset g_threads g_next_tid g_cursor]; [by rewrite length_fmap| |done|].
  - apply Forall_fmap. eapply Forall_impl; [exact Hn|]. intros b Hb. split; [|done].
    cbn. by rewrite length_insert.
  - unfold QOS_KTHREAD_MAX. lia.
Qed.

Lemma kt_run_wf names ops :
  length names = QOS_KTHREAD_MAX → Forall (λ b, length b = QOS_KTHREAD_NAME_MAX) names →
  kt_wf (kt_run names ops).
Proof.
  intros Hl Hn. unfold kt_run. generalize (kt_reset_wf names Hl Hn).
  generalize (qos_kthread_reset names). induction ops as [|o ops IH]; intros s Hs; [done|].
  simpl. by apply IH, kt_exec_wf.
Qed.

(** ** Correctness *)

(** Round robin over kernel threads. If the entry functions leave the
    thread table alone, as many calls of [qos_kthread_run_next] as there are
    ready threads run each of them exactly once, in slot order from the
    cursor, count one run for each, and end with the same order again. *)
Theorem kthread_round_robin {W} `{Lens W kthreads} (call : Z → Z → W → W) (w : W) :
  (∀ fn a, frames (S := kthreads) (call fn a)) →
  let s := view w in
  let order := ready_order s in
  let '(ts, w1) := run_next_n call (length order) w in
  ts = tid_at s <$> order
  ∧ ready_order (view w1) = order
  ∧ g_threads (view w1) = foldl (λ l i, alter count_run i l) (g_threads s) order.
Proof.
  intros Hf s order. pose proof (run_next_n_spec call Hf order [] w) as Hrun.
  rewrite app_nil_r in Hrun. specialize (Hrun eq_refl).
  destruct (run_next_n call (length order) w) as [ts w1]. done.
Qed.

Definition demo_kthreads : kthreads :=
  kt_run (replicate 64 (replicate 32 0)) [KCreate 7 1; KCreate 8 2; KCreate 9 3; KStop 2].

Lemma kthread_round_robin_witness :
  (run_next_n world_log 2 (boot_world demo_kthreads)).1 = [1; 3].
Proof.
  pose proof (kthread_round_robin world_log (boot_world demo_kthreads) (world_log_frames kthreads)) as H.
  cbv zeta in H. change (length (ready_order (view (boot_world demo_kthreads)))) with 2%nat in H.
  destruct (run_next_n world_log 2 (boot_world demo_kthreads)) as [ts w1].
  destruct H as [H _]. rewrite H. vm_compute. reflexivity.
Defined.

(** Names. After any sequence of creates, wakes and stops, every live thread
    id is positive, and [qos_kthread_name_get] into a buffer that is large
    enough (19 bytes always are) copies "kthread-", the decimal digits of the
    id and a NUL, and returns the length; the digits read back as the id. *)
Theorem kthread_name_is_decimal_tid names ops t i cap :
  length names = QOS_KTHREAD_MAX → Forall (λ b, length b = QOS_KTHREAD_NAME_MAX) names →
  let s := kt_run names ops in
  find_slot_by_tid t s = Some i → 19 <= cap →
  0 < t
  ∧ qos_kthread_name_get t true cap s
    = (Z.of_nat (8 + length (decimal t)), Some (prefix ++ decimal t ++ [0]))
  ∧ parse (decimal t) = t ∧ Forall is_digit (decimal t).
Proof.
  intros Hl Hn s Hi Hc. pose proof (kt_run_wf names ops Hl Hn) as Hwf. fold s in Hwf.
  pose proof Hi as Hk. unfold find_slot_by_tid in Hk. apply find_key_Some in Hk as (k & Hk & Hu & Ht).
  change (slot_key k) with (tid k) in Ht. change (slot_used k) with (used k) in Hu. subst t.
  destruct (Forall_lookup_1 _ _ _ _ (kw_ok _ Hwf) Hk) as [_ Hlv].
  destruct (Hlv Hu) as (Hr & (rest & Hnm) & Hln).
  pose proof (decimal_length (tid k) Hr) as Hd.
  split; [lia|]. split; [|by apply decimal_parse].
  unfold qos_kthread_name_get. rewrite Hi, Hk. cbn [negb orb]. rewrite (proj2 (Z.eqb_neq _ _)) by lia.
  change (default 0 (name_len <$> Some k)) with (name_len k).
  change (default [] (name <$> Some k)) with (name k).
  rewrite Hln, Hnm, (proj2 (Z.ltb_ge _ _)) by lia. do 2 f_equal. exact (name_take prefix rest (tid k)).
Qed.

Lemma kthread_name_is_decimal_tid_witness :
  parse (decimal 3) = 3 ∧ qos_kthread_name_get 3 true 32 demo_kthreads
    = (9, Some [107; 116; 104; 114; 101; 97; 100; 45; 51; 0]).
Proof.
  destruct (kthread_name_is_decimal_tid (replicate 64 (replicate 32 0))
    [KCreate 7 1; KCreate 8 2; KCreate 9 3; KStop 2] 3 2 32) as (_ & H & Hp & _); [done| |done|lia|].
  - apply Forall_replicate. done.
  - split; [exact Hp|]. fold demo_kthreads in H. rewrite H. reflexivity.
Defined.
