(* ===== verification/Vfs.v ===== *)
(** * Path nodes (c-os/kernel/fs/vfs.c)

    The table of 128 path nodes.  A [char *] argument is an [option string]
    ([None] is NULL, the string is what precedes the NUL). *)

From Stdlib Require Import Ascii.
From S2P Require Import Prelude SlotTable.

Definition QOS_VFS_MAX_NODES : nat := 128.
Definition QOS_VFS_PATH_MAX : nat := 128.

Definition QOS_VFS_FS_INITRAMFS : Z := 1.
Definition QOS_VFS_FS_TMPFS : Z := 2.
Definition QOS_VFS_FS_PROCFS : Z := 3.
Definition QOS_VFS_FS_EXT2 : Z := 4.

(** [g_used[i]] and [g_paths[i]]. *)
Record node := { n_used : bool; n_path : string }.

#[export] Instance node_slotted : Slotted node := n_used.
#[export] Instance node_keyed : Keyed node string := n_path.

Record vfs := { nodes : list node; g_count : Z }.

Definition node_zero : node := {| n_used := false; n_path := "" |}.

(** [strncmp(path, mount, strlen(mount)) == 0] and the character after it. *)
Definition path_is_mount_or_child (path mount_path : string) : bool :=
  String.prefix mount_path path &&
  match String.get (String.length mount_path) path with
  | None => true
  | Some c => Ascii.eqb c "/"%char
  end.

Definition path_valid (path : option string) : bool :=
  match path with
  | None => false
  | Some p =>
      match String.get 0 p with
      | Some c =>
          Ascii.eqb c "/"%char &&
          negb ((String.length p =? 0)%nat || (QOS_VFS_PATH_MAX <=? String.length p)%nat)
      | None => false
      end
  end.

Definition find_path (path : string) (s : vfs) : option nat := find_key path (nodes s).

Definition find_free_slot (s : vfs) : option nat := free_slot (nodes s).

Definition qos_vfs_reset : vfs :=
  {| nodes := replicate QOS_VFS_MAX_NODES node_zero; g_count := 0 |}.

Definition qos_vfs_create (path : option string) (s : vfs) : Z * vfs :=
  match path with
  | Some p =>
      if negb (path_valid path) then (-1, s)
      else
        match find_path p s with
        | Some _ => (-1, s)
        | None =>
            match find_free_slot s with
            | None => (-1, s)
            | Some idx =>
                (0, {| nodes := <[idx := {| n_used := true; n_path := p |}]> (nodes s);
                       g_count := u32 (g_count s + 1) |})
            end
        end
  | None => (-1, s)
  end.

Definition qos_vfs_exists (path : option string) (s : vfs) : Z :=
  match path with
  | Some p =>
      if negb (path_valid path) then 0
      else match find_path p s with Some _ => 1 | None => 0 end
  | None => 0
  end.

Definition qos_vfs_remove (path : option string) (s : vfs) : Z * vfs :=
  match path with
  | Some p =>
      if negb (path_valid path) then (-1, s)
      else
        match find_path p s with
        | None => (-1, s)
        | Some idx => (0, {| nodes := <[idx := node_zero]> (nodes s); g_count := u32 (g_count s - 1) |})
        end
  | None => (-1, s)
  end.

Definition qos_vfs_count (s : vfs) : Z := g_count s.

Definition qos_vfs_fs_kind (path : option string) : Z :=
  match path with
  | Some p =>
      if negb (path_valid path) then -1
      else if path_is_mount_or_child p "/tmp" then QOS_VFS_FS_TMPFS
      else if path_is_mount_or_child p "/proc" then QOS_VFS_FS_PROCFS
      else if path_is_mount_or_child p "/data" then QOS_VFS_FS_EXT2
      else QOS_VFS_FS_INITRAMFS
  | None => -1
  end.

Definition qos_vfs_is_read_only (path : option string) : Z :=
  let kind := qos_vfs_fs_kind path in
  if kind <? 0 then -1
  else if (kind =? QOS_VFS_FS_INITRAMFS) || (kind =? QOS_VFS_FS_PROCFS) then 1 else 0.

(** ** Specification: a bounded set of paths *)

Inductive vfs_op := VCreate (p : option string) | VExists (p : option string) | VRemove (p : option string).

Definition vfs_exec (o : vfs_op) (s : vfs) : Z * vfs :=
  match o with
  | VCreate p => qos_vfs_create p s
  | VExists p => (qos_vfs_exists p s, s)
  | VRemove p => qos_vfs_remove p s
  end.

(** A non-empty absolute path of at most 127 characters. *)
Definition good_path (p : string) : bool :=
  String.prefix "/" p && (String.length p <? 128)%nat.

Definition vfs_spec (o : vfs_op) (S : gset string) : Z * gset string :=
  match o with
  | VCreate (Some p) =>
      if good_path p && bool_decide (p ∉ S) && (size S <? 128)%nat then (0, {[p]} ∪ S) else (-1, S)
  | VExists (Some p) => (if good_path p && bool_decide (p ∈ S) then 1 else 0, S)
  | VRemove (Some p) => if good_path p && bool_decide (p ∈ S) then (0, S ∖ {[p]}) else (-1, S)
  | VCreate None | VRemove None => (-1, S)
  | VExists None => (0, S)
  end.

Definition vfs_abs (s : vfs) : gset string := dom (table_map (nodes s)).

Record vfs_wf (s : vfs) : Prop := {
  vw_len : length (nodes s) = QOS_VFS_MAX_NODES;
  vw_unique : unique_keys (nodes s);
  vw_count : g_count s = Z.of_nat (count_used (nodes s))
}.

Lemma path_valid_good p : path_valid (Some p) = good_path p.
Proof.
  unfold path_valid, good_path, QOS_VFS_PATH_MAX. destruct p as [|c p]; [done|]. cbn [String.get String.length].
  change (String.prefix "/" (String c p)) with (if Ascii.ascii_dec "/"%char c then String.prefix "" p else false).
  destruct (Ascii.ascii_dec "/"%char c) as [<-|Hne].
  - rewrite Ascii.eqb_refl. cbn [andb]. assert (String.prefix "" p = true) as -> by by destruct p.
    cbn [andb orb Nat.eqb]. by rewrite Nat.ltb_antisym.
  - rewrite (proj2 (Ascii.eqb_neq c "/")); [done|]. congruence.
Qed.

Lemma abs_find p s : p ∈ vfs_abs s ↔ is_Some (find_path p s).
Proof.
  unfold vfs_abs, find_path. rewrite elem_of_dom. pose proof (table_map_None (nodes s) p) as HN.
  destruct (table_map (nodes s) !! p), (find_key p (nodes s)); split; intros [? ?]; naive_solver.
Qed.

Lemma abs_size s : vfs_wf s → size (vfs_abs s) = count_used (nodes s).
Proof. intros Hwf. unfold vfs_abs. rewrite size_dom. apply table_map_size, Hwf. Qed.

Lemma count_le s : vfs_wf s → (count_used (nodes s) <= 128)%nat.
Proof. intros Hwf. etrans; [apply count_if_le|]. by rewrite (vw_len _ Hwf). Qed.

Lemma vfs_create_refines p s :
  vfs_wf s →
  let '(r, s') := qos_vfs_create (Some p) s in
  vfs_wf s' ∧ vfs_spec (VCreate (Some p)) (vfs_abs s) = (r, vfs_abs s').
Proof.
  intros Hwf. unfold qos_vfs_create, vfs_spec. rewrite path_valid_good.
  destruct (good_path p) eqn:Hg; cbn [negb andb]; [|done].
  pose proof (abs_find p s) as Hf. destruct (find_path p s) as [i|] eqn:Hp.
  { by rewrite bool_decide_eq_false_2 by (rewrite Hf; intros Hn; by apply Hn). }
  rewrite bool_decide_eq_true_2 by (rewrite Hf; by intros [? ?]). cbn [andb].
  rewrite abs_size by done. unfold find_free_slot.
  pose proof (free_slot_None (nodes s)) as HN. pose proof (count_le s Hwf) as Hc.
  rewrite (vw_len _ Hwf) in HN. unfold QOS_VFS_MAX_NODES in HN.
  destruct (free_slot (nodes s)) as [i|] eqn:Hi; last first.
  { assert (count_used (nodes s) = 128%nat) as -> by by apply HN. done. }
  assert (count_used (nodes s) ≠ 128%nat) as Hne by (intros E; by apply HN in E).
  rewrite (proj2 (Nat.ltb_lt _ _)) by lia. destruct (free_slot_Some _ _ Hi) as (b & Hb & Hub).
  set (n := {| n_used := true; n_path := p |}).
  destruct (table_map_alloc (nodes s) i b n (vw_unique _ Hwf) Hb Hub eq_refl Hp) as [Hu' Hm'].
  split; [|unfold vfs_abs; cbn [nodes]; by rewrite Hm', dom_insert_L].
  split; cbn [nodes g_count]; [by rewrite length_insert; apply Hwf|done|].
  rewrite (count_used_alloc _ _ _ n Hb Hub eq_refl), (vw_count _ Hwf), wrap_small by (unfold in_width; lia). lia.
Qed.

Lemma vfs_remove_refines p s :
  vfs_wf s →
  let '(r, s') := qos_vfs_remove (Some p) s in
  vfs_wf s' ∧ vfs_spec (VRemove (Some p)) (vfs_abs s) = (r, vfs_abs s').
Proof.
  intros Hwf. unfold qos_vfs_remove, vfs_spec. rewrite path_valid_good.
  destruct (good_path p) eqn:Hg; cbn [negb andb]; [|done].
  pose proof (abs_find p s) as Hf. destruct (find_path p s) as [i|] eqn:Hp; last first.
  { by rewrite bool_decide_eq_false_2 by (rewrite Hf; by intros [? ?]). }
  rewrite bool_decide_eq_true_2 by (rewrite Hf; eauto).
  destruct (find_key_Some _ _ _ Hp) as (b & Hb & Hub & _). pose proof (count_le s Hwf) as Hc.
  destruct (table_map_release (nodes s) i p node_zero (vw_unique _ Hwf) Hp eq_refl) as [Hu' Hm'].
  split; [|unfold vfs_abs; cbn [nodes]; by rewrite Hm', dom_delete_L].
  split; cbn [nodes g_count]; [by rewrite length_insert; apply Hwf|done|].
  pose proof (count_used_release _ _ _ node_zero Hb Hub eq_refl) as Hcr.
  rewrite (vw_count _ Hwf), wrap_small by (unfold in_width; lia). lia.
Qed.

Lemma vfs_step_refines o s :
  vfs_wf s →
  let '(r, s') := vfs_exec o s in vfs_wf s' ∧ vfs_spec o (vfs_abs s) = (r, vfs_abs s').
Proof.
  intros Hwf. destruct o as [[p|]|[p|]|[p|]]; cbn [vfs_exec]; try done.
  - by apply vfs_create_refines.
  - split; [done|]. unfold qos_vfs_exists, vfs_spec. rewrite path_valid_good.
    destruct (good_path p); cbn [negb andb]; [|done]. pose proof (abs_find p s) as Hf.
    destruct (find_path p s).
    + by rewrite bool_decide_eq_true_2 by (rewrite Hf; eauto).
    + by rewrite bool_decide_eq_false_2 by (rewrite Hf; by intros [? ?]).
  - by apply vfs_remove_refines.
Qed.

Fixpoint vfs_run (ops : list vfs_op) (s : vfs) : list Z * vfs :=
  match ops with
  | [] => ([], s)
  | o :: ops' => let '(r, s1) := vfs_exec o s in
                 let '(rs, s2) := vfs_run ops' s1 in (r :: rs, s2)
  end.

Fixpoint vfs_spec_run (ops : list vfs_op) (S : gset string) : list Z * gset string :=
  match ops with
  | [] => ([], S)
  | o :: ops' => let '(r, S1) := vfs_spec o S in
                 let '(rs, S2) := vfs_spec_run ops' S1 in (r :: rs, S2)
  end.

Lemma vfs_run_refines ops s :
  vfs_wf s →
  let '(rs, s') := vfs_run ops s in
  vfs_wf s' ∧ vfs_spec_run ops (vfs_abs s) = (rs, vfs_abs s').
Proof.
  revert s. induction ops as [|o ops IH]; intros s Hwf; cbn [vfs_run vfs_spec_run]; [done|].
  pose proof (vfs_step_refines o s Hwf) as Hs. destruct (vfs_exec o s) as [r s1]. destruct Hs as [Hwf1 ->].
  specialize (IH s1 Hwf1). destruct (vfs_run ops s1) as [rs s2]. destruct IH as [? ->]. done.
Qed.

Lemma vfs_reset_wf : vfs_wf qos_vfs_reset.
Proof. split; [done|by apply unique_keys_replicate|reflexivity]. Qed.

(** The node table is a set of paths. From reset, any sequence of create,
    exists and remove calls returns what a set of at most 128 absolute paths
    shorter than 128 characters would, and the count is the size of the set. *)
Theorem vfs_refines_path_set ops :
  let '(rs, s) := vfs_run ops qos_vfs_reset in
  vfs_spec_run ops ∅ = (rs, vfs_abs s) ∧ qos_vfs_count s = Z.of_nat (size (vfs_abs s)).
Proof.
  pose proof (vfs_run_refines ops _ vfs_reset_wf) as H.
  destruct (vfs_run ops qos_vfs_reset) as [rs s]. destruct H as [Hwf H].
  assert (vfs_abs qos_vfs_reset = ∅) as E0.
  { unfold vfs_abs. cbn [qos_vfs_reset nodes]. by rewrite table_map_replicate, dom_empty_L. }
  rewrite E0 in H. split; [done|]. rewrite abs_size by done. apply Hwf.
Qed.

(** ** Mount points *)

Definition under (mount p : string) : Prop :=
  p = mount ∨ ∃ rest, p = (mount +:+ String "/" rest)%string.

Lemma append_nil_l (r : string) : (("" : string) +:+ r)%string = r.
Proof. done. Qed.

Lemma append_cons_l c (m r : string) : (String c m +:+ r)%string = String c (m +:+ r).
Proof. done. Qed.

Lemma under_cons a m c p : under (String a m) (String c p) ↔ a = c ∧ under m p.
Proof.
  unfold under. split.
  - intros [H|[rest H]]; [|rewrite append_cons_l in H]; injection H as -> H; split; eauto.
  - intros [-> [->|[rest ->]]]; [by left|]. right. exists rest. by rewrite append_cons_l.
Qed.

Lemma under_nil m : m ≠ ""%string → ¬ under m "".
Proof. intros Hm [H|[rest H]]; [congruence|]. by destruct m. Qed.

Lemma mount_or_child_under m p : path_is_mount_or_child p m = true ↔ under m p.
Proof.
  unfold path_is_mount_or_child. revert p. induction m as [|a m IH]; intros p.
  - destruct p as [|c p]; cbn [String.prefix String.get String.length andb]; [split; [by left|done]|].
    rewrite Ascii.eqb_eq. split.
    + intros ->. right. by exists p.
    + intros [H|[rest H]]; [done|]. rewrite append_nil_l in H. by injection H.
  - destruct p as [|c p]; cbn [String.prefix String.get String.length andb].
    { split; [done|]. intros H. by apply under_nil in H. }
    rewrite under_cons, <- IH. destruct (Ascii.ascii_dec a c) as [->|Hne]; [tauto|].
    split; [done|]. tauto.
Qed.

Lemma under_disjoint m1 m2 p :
  under m1 p → under m2 p → String.length m1 = String.length m2 → m1 = m2.
Proof.
  revert m2 p. induction m1 as [|a m1 IH]; intros [|b m2] p H1 H2 Hl; try done.
  destruct p as [|c p]; [by apply under_nil in H1|].
  apply under_cons in H1 as [-> H1]. apply under_cons in H2 as [-> H2]. f_equal.
  eapply IH; [done..|]. by injection Hl.
Qed.

(** Mount points. A valid path is on tmpfs, procfs or ext2 exactly when it is
    the mount point [/tmp], [/proc] or [/data] itself or lies below it (after a
    slash: [/tmpfile] does not); every other valid path is on the initramfs; and
    exactly the initramfs and procfs are read-only. *)
Theorem vfs_fs_kind_mounts p :
  good_path p = true →
  let k := qos_vfs_fs_kind (Some p) in
  (k = QOS_VFS_FS_TMPFS ↔ under "/tmp" p)
  ∧ (k = QOS_VFS_FS_PROCFS ↔ under "/proc" p)
  ∧ (k = QOS_VFS_FS_EXT2 ↔ under "/data" p)
  ∧ (k = QOS_VFS_FS_INITRAMFS ↔ ¬ under "/tmp" p ∧ ¬ under "/proc" p ∧ ¬ under "/data" p)
  ∧ (qos_vfs_is_read_only (Some p) = 1 ↔ k = QOS_VFS_FS_INITRAMFS ∨ k = QOS_VFS_FS_PROCFS).
Proof.
  intros Hg k. unfold k, qos_vfs_is_read_only, qos_vfs_fs_kind. rewrite path_valid_good, Hg. cbn [negb].
  pose proof (mount_or_child_under "/tmp" p) as Ht. pose proof (mount_or_child_under "/proc" p) as Hp.
  pose proof (mount_or_child_under "/data" p) as Hd.
  assert (∀ c q c' q', under (String "/" (String c q)) p → under (String "/" (String c' q')) p → c = c') as Hex.
  { assert (∀ c q, under (String "/" (String c q)) p → String.get 1 p = Some c) as Hc.
    { intros c q [->|[rest ->]]; done. }
    intros c q c' q' H1%Hc H2%Hc. congruence. }
  assert (¬ (under "/tmp" p ∧ under "/proc" p)) as H1.
  { intros [H1 H2]. by pose proof (Hex _ _ _ _ H1 H2). }
  assert (¬ (under "/tmp" p ∧ under "/data" p)) as H2.
  { intros [H2 H3]. by pose proof (Hex _ _ _ _ H2 H3). }
  assert (¬ (under "/proc" p ∧ under "/data" p)) as H3.
  { intros [H3 H4]. by pose proof (Hex _ _ _ _ H3 H4). }
  clear Hex. unfold QOS_VFS_FS_TMPFS, QOS_VFS_FS_PROCFS, QOS_VFS_FS_EXT2, QOS_VFS_FS_INITRAMFS.
  destruct (path_is_mount_or_child p "/tmp"); [|destruct (path_is_mount_or_child p "/proc");
    [|destruct (path_is_mount_or_child p "/data")]]; cbn; intuition (lia || congruence).
Qed.

Lemma vfs_fs_kind_mounts_witness : qos_vfs_fs_kind (Some "/tmp/a"%string) = QOS_VFS_FS_TMPFS.
Proof. apply (proj1 (vfs_fs_kind_mounts "/tmp/a" eq_refl)). right. exists "a"%string. reflexivity. Defined.
