(* ===== verification/Drivers.v ===== *)
(** * Driver registry (c-os/kernel/drivers/drivers.c)

    64 named drivers, some with the descriptor rings of a network card. *)

From S2P Require Import Prelude SlotTable.

Definition QOS_DRIVERS_MAX : nat := 64.
Definition QOS_DRIVER_NAME_MAX : nat := 64.

Record qos_nic_desc_t := {
  mmio_base : Z; irq : Z; tx_desc_count : Z; rx_desc_count : Z;
  tx_head : Z; tx_tail : Z; rx_head : Z; rx_tail : Z
}.

(** Rows of [g_names], [g_used], [g_nic_present] and [g_nics]. *)
Record driver := { d_used : bool; d_name : string; d_nic_present : bool; d_nic : qos_nic_desc_t }.

#[export] Instance driver_slotted : Slotted driver := d_used.
#[export] Instance driver_keyed : Keyed driver string := d_name.

Record drivers := { table : list driver; g_count : Z }.

Definition nic_zero : qos_nic_desc_t :=
  {| mmio_base := 0; irq := 0; tx_desc_count := 0; rx_desc_count := 0;
     tx_head := 0; tx_tail := 0; rx_head := 0; rx_tail := 0 |}.

Definition driver_zero : driver :=
  {| d_used := false; d_name := ""; d_nic_present := false; d_nic := nic_zero |}.

Definition name_valid (name : option string) : bool :=
  match name with
  | None => false
  | Some n => negb ((String.length n =? 0)%nat || (QOS_DRIVER_NAME_MAX <=? String.length n)%nat)
  end.

Definition find_name (name : string) (s : drivers) : option nat := find_key name (table s).

Definition qos_drivers_reset : drivers :=
  {| table := replicate QOS_DRIVERS_MAX driver_zero; g_count := 0 |}.

Definition get_driver (i : nat) (s : drivers) : driver := default driver_zero (table s !! i).

Definition add_driver (i : nat) (d : driver) (s : drivers) : drivers :=
  {| table := <[i := d]> (table s); g_count := u32 (g_count s + 1) |}.

Definition set_driver (i : nat) (d : driver) (s : drivers) : drivers :=
  {| table := <[i := d]> (table s); g_count := g_count s |}.

(** The old descriptor of the slot stays; only the flag is cleared. *)
Definition qos_drivers_register (name : option string) (s : drivers) : Z * drivers :=
  match name with
  | Some n =>
      if negb (name_valid name) then (-1, s)
      else
        match find_name n s with
        | Some _ => (-1, s)
        | None =>
            match free_slot (table s) with
            | None => (-1, s)
            | Some i =>
                (0, add_driver i {| d_used := true; d_name := n; d_nic_present := false;
                                    d_nic := d_nic (get_driver i s) |} s)
            end
        end
  | None => (-1, s)
  end.

Definition qos_drivers_loaded (name : option string) (s : drivers) : Z :=
  match name with
  | Some n =>
      if negb (name_valid name) then 0
      else match find_name n s with Some _ => 1 | None => 0 end
  | None => 0
  end.

Definition qos_drivers_count (s : drivers) : Z := g_count s.

Definition fresh_nic (mmio irq_line tx rx : Z) : qos_nic_desc_t :=
  {| mmio_base := mmio; irq := irq_line; tx_desc_count := tx; rx_desc_count := rx;
     tx_head := 0; tx_tail := 0; rx_head := 0; rx_tail := 0 |}.

Definition qos_drivers_register_nic (name : option string) (mmio irq_line tx rx : Z) (s : drivers) : Z * drivers :=
  match name with
  | Some n =>
      if negb (name_valid name) || (tx =? 0) || (rx =? 0) then (-1, s)
      else
        match find_name n s with
        | Some _ => (-1, s)
        | None =>
            match free_slot (table s) with
            | None => (-1, s)
            | Some i =>
                (0, add_driver i {| d_used := true; d_name := n; d_nic_present := true;
                                    d_nic := fresh_nic mmio irq_line tx rx |} s)
            end
        end
  | None => (-1, s)
  end.

(** [out] tells whether [out_desc] is not NULL. *)
Definition qos_drivers_get_nic (name : option string) (out : bool) (s : drivers) : Z * option qos_nic_desc_t :=
  match name with
  | Some n =>
      if negb (name_valid name) || negb out then (-1, None)
      else
        match find_name n s with
        | None => (-1, None)
        | Some i => if d_nic_present (get_driver i s) then (0, Some (d_nic (get_driver i s))) else (-1, None)
        end
  | None => (-1, None)
  end.

Definition with_nic (d : driver) (nic : qos_nic_desc_t) : driver :=
  {| d_used := d_used d; d_name := d_name d; d_nic_present := d_nic_present d; d_nic := nic |}.

Definition advance_tx (nic : qos_nic_desc_t) (produced : Z) : qos_nic_desc_t :=
  {| mmio_base := mmio_base nic; irq := irq nic; tx_desc_count := tx_desc_count nic;
     rx_desc_count := rx_desc_count nic; tx_head := tx_head nic;
     tx_tail := u16 ((tx_tail nic + produced) mod tx_desc_count nic);
     rx_head := rx_head nic; rx_tail := rx_tail nic |}.

Definition consume_rx (nic : qos_nic_desc_t) (consumed : Z) : qos_nic_desc_t :=
  {| mmio_base := mmio_base nic; irq := irq nic; tx_desc_count := tx_desc_count nic;
     rx_desc_count := rx_desc_count nic; tx_head := tx_head nic; tx_tail := tx_tail nic;
     rx_head := u16 ((rx_head nic + consumed) mod rx_desc_count nic); rx_tail := rx_tail nic |}.

Definition qos_drivers_nic_advance_tx (name : option string) (produced : Z) (s : drivers) : Z * drivers :=
  match name with
  | Some n =>
      if negb (name_valid name) then (-1, s)
      else
        match find_name n s with
        | None => (-1, s)
        | Some i =>
            let d := get_driver i s in
            if negb (d_nic_present d) then (-1, s)
            else if tx_desc_count (d_nic d) =? 0 then (-1, s)
            else (0, set_driver i (with_nic d (advance_tx (d_nic d) produced)) s)
        end
  | None => (-1, s)
  end.

Definition qos_drivers_nic_consume_rx (name : option string) (consumed : Z) (s : drivers) : Z * drivers :=
  match name with
  | Some n =>
      if negb (name_valid name) then (-1, s)
      else
        match find_name n s with
        | None => (-1, s)
        | Some i =>
            let d := get_driver i s in
            if negb (d_nic_present d) then (-1, s)
            else if rx_desc_count (d_nic d) =? 0 then (-1, s)
            else (0, set_driver i (with_nic d (consume_rx (d_nic d) consumed)) s)
        end
  | None => (-1, s)
  end.

(** ** Specification: a map from names to optional descriptors *)

Definition nic_of (d : driver) : option qos_nic_desc_t := if d_nic_present d then Some (d_nic d) else None.

Definition drivers_abs (s : drivers) : gmap string (option qos_nic_desc_t) := nic_of <$> table_map (table s).

Inductive drv_op :=
| DRegister (n : string)
| DRegisterNic (n : string) (mmio irq_line tx rx : Z)
| DAdvanceTx (n : string) (produced : Z)
| DConsumeRx (n : string) (consumed : Z).

Definition drv_exec (o : drv_op) (s : drivers) : Z * drivers :=
  match o with
  | DRegister n => qos_drivers_register (Some n) s
  | DRegisterNic n mmio irq_line tx rx => qos_drivers_register_nic (Some n) mmio irq_line tx rx s
  | DAdvanceTx n p => qos_drivers_nic_advance_tx (Some n) p s
  | DConsumeRx n c => qos_drivers_nic_consume_rx (Some n) c s
  end.

Definition good_name (n : string) : bool := (0 <? String.length n)%nat && (String.length n <? 64)%nat.

Definition spec_add (n : string) (v : option qos_nic_desc_t) (ok : bool)
    (m : gmap string (option qos_nic_desc_t)) : Z * gmap string (option qos_nic_desc_t) :=
  if good_name n && ok && bool_decide (m !! n = None) && (size m <? 64)%nat
  then (0, <[n := v]> m) else (-1, m).

Definition spec_update (n : string) (f : qos_nic_desc_t → qos_nic_desc_t)
    (m : gmap string (option qos_nic_desc_t)) : Z * gmap string (option qos_nic_desc_t) :=
  match m !! n with
  | Some (Some nic) => if good_name n then (0, <[n := Some (f nic)]> m) else (-1, m)
  | _ => (-1, m)
  end.

Definition drv_spec (o : drv_op) (m : gmap string (option qos_nic_desc_t)) :
    Z * gmap string (option qos_nic_desc_t) :=
  match o with
  | DRegister n => spec_add n None true m
  | DRegisterNic n mmio irq_line tx rx =>
      spec_add n (Some (fresh_nic mmio irq_line tx rx)) (negb (tx =? 0) && negb (rx =? 0)) m
  | DAdvanceTx n p => spec_update n (λ nic, advance_tx nic p) m
  | DConsumeRx n c => spec_update n (λ nic, consume_rx nic c) m
  end.

(** Ring indices stay inside their rings. *)
Record nic_ok (nic : qos_nic_desc_t) : Prop := {
  no_tx : 0 < tx_desc_count nic < 2 ^ 16; no_rx : 0 < rx_desc_count nic < 2 ^ 16;
  no_txh : 0 <= tx_head nic < tx_desc_count nic; no_txt : 0 <= tx_tail nic < tx_desc_count nic;
  no_rxh : 0 <= rx_head nic < rx_desc_count nic; no_rxt : 0 <= rx_tail nic < rx_desc_count nic
}.

Record drv_wf (s : drivers) : Prop := {
  dw_len : length (table s) = QOS_DRIVERS_MAX;
  dw_unique : unique_keys (table s);
  dw_count : g_count s = Z.of_nat (count_used (table s));
  dw_nics : map_Forall (λ _ v, ∀ nic, v = Some nic → nic_ok nic) (drivers_abs s)
}.

Lemma name_valid_good n : name_valid (Some n) = good_name n.
Proof.
  unfold name_valid, good_name, QOS_DRIVER_NAME_MAX.
  destruct (String.length n) as [|k]; [done|]. change (0 <? S k)%nat with true. cbn [Nat.eqb orb andb].
  by rewrite (Nat.ltb_antisym 64 (S k)).
Qed.

Lemma abs_lookup n s : drivers_abs s !! n = nic_of <$> (find_name n s ≫= (table s !!.)).
Proof. unfold drivers_abs. by rewrite lookup_fmap, table_map_lookup. Qed.

Lemma drv_abs_size s : drv_wf s → size (drivers_abs s) = count_used (table s).
Proof. intros Hwf. unfold drivers_abs. rewrite map_size_fmap. apply table_map_size, Hwf. Qed.

Lemma drv_count_le s : drv_wf s → (count_used (table s) <= 64)%nat.
Proof. intros Hwf. etrans; [apply count_if_le|]. by rewrite (dw_len _ Hwf). Qed.

(** Both registrations: a valid fresh name takes the first free slot. *)
Lemma add_refines n ok d s :
  drv_wf s →
  (∀ i, d_used (d i) = true ∧ d_name (d i) = n) →
  ∀ v, (∀ i, nic_of (d i) = v) → (∀ nic, ok = true → v = Some nic → nic_ok nic) →
  let '(r, s') :=
    (if negb (name_valid (Some n)) || negb ok then (-1, s)
     else match find_name n s with
          | Some _ => (-1, s)
          | None => match free_slot (table s) with
                    | None => (-1, s)
                    | Some i => (0, add_driver i (d i) s)
                    end
          end) in
  drv_wf s' ∧ spec_add n v ok (drivers_abs s) = (r, drivers_abs s').
Proof.
  intros Hwf Hd v Hv Hok. unfold spec_add. rewrite name_valid_good.
  destruct (good_name n); cbn [negb andb orb]; [|done].
  destruct ok; cbn [negb andb]; [|done].
  pose proof (abs_lookup n s) as Hl. destruct (find_name n s) as [j|] eqn:Hn.
  { destruct (find_key_Some _ _ _ Hn) as (b & Hb & _). cbn in Hl. rewrite Hb in Hl. cbn in Hl.
    by rewrite bool_decide_eq_false_2 by (rewrite Hl; done). }
  cbn in Hl. rewrite bool_decide_eq_true_2, drv_abs_size by done. cbn [andb].
  pose proof (free_slot_None (table s)) as HN. pose proof (drv_count_le s Hwf) as Hc.
  rewrite (dw_len _ Hwf) in HN. unfold QOS_DRIVERS_MAX in HN.
  destruct (free_slot (table s)) as [i|] eqn:Hi; last first.
  { assert (count_used (table s) = 64%nat) as -> by by apply HN. done. }
  assert (count_used (table s) ≠ 64%nat) as Hne by (intros E; by apply HN in E).
  rewrite (proj2 (Nat.ltb_lt _ _)) by lia. destruct (free_slot_Some _ _ Hi) as (b & Hb & Hub).
  destruct (Hd i) as [Hdu Hdn].
  destruct (table_map_alloc (table s) i b (d i) (dw_unique _ Hwf) Hb Hub) as [Hu' Hm'];
    [done|change (slot_key (d i)) with (d_name (d i)); by rewrite Hdn|].
  change (slot_key (d i)) with (d_name (d i)) in Hm'. rewrite Hdn in Hm'.
  assert (drivers_abs (add_driver i (d i) s) = <[n := v]> (drivers_abs s)) as Habs.
  { unfold drivers_abs. cbn [add_driver table]. by rewrite Hm', fmap_insert, Hv. }
  split; [|by rewrite Habs]. split; cbn [add_driver table g_count]; [by rewrite length_insert; apply Hwf|done| |].
  - rewrite (count_used_alloc _ _ _ (d i) Hb Hub Hdu), (dw_count _ Hwf), wrap_small by (unfold in_width; lia). lia.
  - rewrite Habs. apply map_Forall_insert_2; [|apply Hwf]. intros nic ->. by apply Hok.
Qed.

(** Both ring updates: a registered card's descriptor is replaced. *)
Lemma update_refines n (f : qos_nic_desc_t → qos_nic_desc_t) (zero : qos_nic_desc_t → bool) s :
  drv_wf s → (∀ nic, nic_ok nic → zero nic = false ∧ nic_ok (f nic)) →
  let '(r, s') :=
    (if negb (name_valid (Some n)) then (-1, s)
     else match find_name n s with
          | None => (-1, s)
          | Some i =>
              let d := get_driver i s in
              if negb (d_nic_present d) then (-1, s)
              else if zero (d_nic d) then (-1, s)
              else (0, set_driver i (with_nic d (f (d_nic d))) s)
          end) in
  drv_wf s' ∧ spec_update n f (drivers_abs s) = (r, drivers_abs s').
Proof.
  intros Hwf Hf. unfold spec_update. rewrite name_valid_good.
  pose proof (abs_lookup n s) as Hl. destruct (find_name n s) as [i|] eqn:Hn; last first.
  { cbn in Hl. rewrite Hl. by destruct (negb _). }
  destruct (find_key_Some _ _ _ Hn) as (d & Hd & Hdu & Hdn). cbn in Hl. rewrite Hd in Hl. cbn in Hl. rewrite Hl.
  unfold get_driver. rewrite Hd. change (default driver_zero (Some d)) with d. unfold nic_of in *.
  destruct (d_nic_present d) eqn:Hp; cbn [negb]; [|by destruct (negb (good_name n))].
  destruct (good_name n); cbn [negb]; [|done].
  assert (nic_ok (d_nic d)) as Hok by exact (dw_nics _ Hwf n _ Hl _ eq_refl).
  destruct (Hf _ Hok) as [-> Hok'].
  destruct (table_map_update (table s) i n (with_nic d (f (d_nic d))) (dw_unique _ Hwf) Hn Hdu Hdn) as [Hu' Hm'].
  assert (drivers_abs (set_driver i (with_nic d (f (d_nic d))) s)
          = <[n := Some (f (d_nic d))]> (drivers_abs s)) as Habs.
  { unfold drivers_abs. cbn [set_driver table]. rewrite Hm', fmap_insert. unfold nic_of at 1. cbn. by rewrite Hp. }
  split; [|by rewrite Habs]. split; cbn [set_driver table g_count]; [by rewrite length_insert; apply Hwf|done| |].
  - rewrite (count_used_update _ _ d); [apply Hwf|done|done].
  - rewrite Habs. apply map_Forall_insert_2; [|apply Hwf]. by intros nic [= <-].
Qed.

Definition drv_op_ok (o : drv_op) : Prop :=
  match o with
  | DRegisterNic _ _ _ tx rx => in_width 16 tx ∧ in_width 16 rx
  | DAdvanceTx _ k | DConsumeRx _ k => in_width 16 k
  | DRegister _ => True
  end.

Lemma advance_tx_ok nic k : in_width 16 k → nic_ok nic → (tx_desc_count nic =? 0) = false ∧ nic_ok (advance_tx nic k).
Proof.
  intros Hk [? ? ? ? ? ?]. split; [apply Z.eqb_neq; lia|].
  pose proof (Z.mod_pos_bound (tx_tail nic + k) (tx_desc_count nic) ltac:(lia)).
  split; cbn; try done; rewrite ?wrap_small by (unfold in_width in *; lia); lia.
Qed.

Lemma consume_rx_ok nic k : in_width 16 k → nic_ok nic → (rx_desc_count nic =? 0) = false ∧ nic_ok (consume_rx nic k).
Proof.
  intros Hk [? ? ? ? ? ?]. split; [apply Z.eqb_neq; lia|].
  pose proof (Z.mod_pos_bound (rx_head nic + k) (rx_desc_count nic) ltac:(lia)).
  split; cbn; try done; rewrite ?wrap_small by (unfold in_width in *; lia); lia.
Qed.

Lemma drv_step_refines o s :
  drv_wf s → drv_op_ok o →
  let '(r, s') := drv_exec o s in drv_wf s' ∧ drv_spec o (drivers_abs s) = (r, drivers_abs s').
Proof.
  intros Hwf Ho. destruct o as [n|n mmio ir tx rx|n k|n k]; cbn [drv_exec drv_spec drv_op_ok] in *.
  - pose proof (add_refines n true (λ i, {| d_used := true; d_name := n; d_nic_present := false;
      d_nic := d_nic (get_driver i s) |}) s Hwf ltac:(done) None ltac:(done) ltac:(done)) as H.
    rewrite orb_false_r in H. exact H.
  - pose proof (add_refines n (negb (tx =? 0) && negb (rx =? 0)) (λ i, {| d_used := true; d_name := n;
      d_nic_present := true; d_nic := fresh_nic mmio ir tx rx |}) s Hwf ltac:(done)
      (Some (fresh_nic mmio ir tx rx)) ltac:(done)) as H.
    rewrite negb_andb, !negb_involutive, orb_assoc in H. apply H.
    intros nic Hnz [= <-]. unfold in_width in Ho. b2p. split; cbn; lia.
  - apply (update_refines n (λ nic, advance_tx nic k) (λ nic, tx_desc_count nic =? 0) s Hwf).
    intros nic. by apply advance_tx_ok.
  - apply (update_refines n (λ nic, consume_rx nic k) (λ nic, rx_desc_count nic =? 0) s Hwf).
    intros nic. by apply consume_rx_ok.
Qed.

Fixpoint drv_run (ops : list drv_op) (s : drivers) : list Z * drivers :=
  match ops with
  | [] => ([], s)
  | o :: ops' => let '(r, s1) := drv_exec o s in
                 let '(rs, s2) := drv_run ops' s1 in (r :: rs, s2)
  end.

Fixpoint drv_spec_run (ops : list drv_op) (m : gmap string (option qos_nic_desc_t)) :
    list Z * gmap string (option qos_nic_desc_t) :=
  match ops with
  | [] => ([], m)
  | o :: ops' => let '(r, m1) := drv_spec o m in
                 let '(rs, m2) := drv_spec_run ops' m1 in (r :: rs, m2)
  end.

Lemma drv_run_refines ops s :
  drv_wf s → Forall drv_op_ok ops →
  let '(rs, s') := drv_run ops s in
  drv_wf s' ∧ drv_spec_run ops (drivers_abs s) = (rs, drivers_abs s').
Proof.
  revert s. induction ops as [|o ops IH]; intros s Hwf Hok; cbn [drv_run drv_spec_run]; [done|].
  apply Forall_cons in Hok as [Ho Hok].
  pose proof (drv_step_refines o s Hwf Ho) as Hs. destruct (drv_exec o s) as [r s1]. destruct Hs as [Hwf1 ->].
  specialize (IH s1 Hwf1 Hok). destruct (drv_run ops s1) as [rs s2]. destruct IH as [? ->]. done.
Qed.

Lemma drv_reset_abs : drivers_abs qos_drivers_reset = ∅.
Proof. unfold drivers_abs. cbn [qos_drivers_reset table]. by rewrite table_map_replicate, fmap_empty. Qed.

Lemma drv_reset_wf : drv_wf qos_drivers_reset.
Proof.
  split; [done|by apply unique_keys_replicate|reflexivity|]. rewrite drv_reset_abs. apply map_Forall_empty.
Qed.

(** The registry is a map from names to optional card descriptors. From
    reset, any sequence of registrations and ring updates returns the codes of,
    and leaves, that map (64 names of 1 to 63 characters, none registered
    twice); queries read it, and the ring indices of every card stay inside its
    rings. *)
Theorem drivers_refine_name_map ops n :
  Forall drv_op_ok ops →
  let '(rs, s) := drv_run ops qos_drivers_reset in
  let m := drivers_abs s in
  drv_spec_run ops ∅ = (rs, m)
  ∧ qos_drivers_count s = Z.of_nat (size m)
  ∧ qos_drivers_loaded (Some n) s = (if good_name n && bool_decide (is_Some (m !! n)) then 1 else 0)
  ∧ qos_drivers_get_nic (Some n) true s
    = match m !! n with
      | Some (Some nic) => if good_name n then (0, Some nic) else (-1, None)
      | _ => (-1, None)
      end
  ∧ (∀ nic, m !! n = Some (Some nic) → nic_ok nic).
Proof.
  intros Hok. pose proof (drv_run_refines ops _ drv_reset_wf Hok) as H. rewrite drv_reset_abs in H.
  destruct (drv_run ops qos_drivers_reset) as [rs s]. destruct H as [Hwf H]. cbv zeta.
  split; [done|]. split; [rewrite drv_abs_size by done; apply Hwf|].
  split; [|split].
  - unfold qos_drivers_loaded. rewrite name_valid_good. destruct (good_name n); cbn [negb andb]; [|done].
    rewrite abs_lookup. destruct (find_name n s) as [i|] eqn:Hn; [|done].
    destruct (find_key_Some _ _ _ Hn) as (d & Hd & _). cbn [mbind option_bind]. rewrite Hd.
    by rewrite bool_decide_eq_true_2 by (cbn; eauto).
  - unfold qos_drivers_get_nic. rewrite name_valid_good, abs_lookup.
    destruct (find_name n s) as [i|] eqn:Hn; cbn [mbind option_bind fmap option_fmap option_map].
    + destruct (find_key_Some _ _ _ Hn) as (d & Hd & _). unfold get_driver. rewrite Hd.
      change (default driver_zero (Some d)) with d. cbn [fmap option_fmap option_map]. unfold nic_of.
      destruct (d_nic_present d), (good_name n); done.
    + by destruct (_ || _).
  - intros nic Hn. exact (dw_nics _ Hwf n _ Hn nic eq_refl).
Qed.

Definition demo_drv_ops : list drv_op :=
  [DRegister "uart"; DRegisterNic "e1000" 4096 11 8 4; DRegister "uart"; DAdvanceTx "e1000" 11].

Lemma drivers_refine_name_map_witness :
  Forall drv_op_ok demo_drv_ops
  ∧ qos_drivers_loaded (Some "uart"%string) (drv_run demo_drv_ops qos_drivers_reset).2
    = (if bool_decide (is_Some (drivers_abs (drv_run demo_drv_ops qos_drivers_reset).2 !! "uart"%string)) then 1 else 0).
Proof.
  assert (Forall drv_op_ok demo_drv_ops) as Hok by (repeat constructor; unfold in_width; lia).
  split; [exact Hok|]. pose proof (drivers_refine_name_map demo_drv_ops "uart" Hok) as H.
  destruct (drv_run demo_drv_ops qos_drivers_reset) as [rs s]. exact (proj1 (proj2 (proj2 H))).
Defined.
