(* ===== verification/Packet.v ===== *)
(** * Packet queue, ARP cache, routing and ICMP (c-os/kernel/net/net.c)

    The ring of raw packets, the ARP table and the two stateless functions of
    the IPv4 layer.  A data pointer is an [option] of the bytes readable
    through it; a NULL-able output pointer is a [bool]. *)

From S2P Require Import Prelude SlotTable RingQueue.

Definition QOS_NET_MAX_QUEUE : nat := 32.
Definition QOS_NET_MAX_PACKET : Z := 1500.
Definition QOS_NET_ARP_MAX : nat := 32.
Definition QOS_NET_IPV4_LOCAL : Z := 0x0A00020F.
Definition QOS_NET_IPV4_GATEWAY : Z := 0x0A000202.
Definition QOS_NET_IPV4_SUBNET_MASK : Z := 0xFFFFFF00.

(** ** The packet ring *)

(** A row of [g_packets] and [g_lens]. *)
Record slot := { p_data : list Z; p_len : Z }.

Record packets := { ring : list slot; g_head : nat; g_tail : nat; g_count : nat }.

Definition slot_zero : slot := {| p_data := replicate (Z.to_nat QOS_NET_MAX_PACKET) 0; p_len := 0 |}.

Definition packets_reset : packets :=
  {| ring := replicate QOS_NET_MAX_QUEUE slot_zero; g_head := 0; g_tail := 0; g_count := 0 |}.

(** [memcpy(dst, src, n)] *)
Definition memcpy (dst src : list Z) (n : nat) : list Z := take n src ++ drop n dst.

Definition qos_net_enqueue_packet (data : option (list Z)) (len : Z) (s : packets) : Z * packets :=
  match data with
  | None => (-1, s)
  | Some bytes =>
      if (len =? 0) || (QOS_NET_MAX_PACKET <? len) then (-1, s)
      else if (QOS_NET_MAX_QUEUE <=? g_count s)%nat then (-1, s)
      else
        let old := default slot_zero (ring s !! g_tail s) in
        (0, {| ring := <[g_tail s := {| p_data := memcpy (p_data old) bytes (Z.to_nat len);
                                        p_len := u16 len |}]> (ring s);
               g_head := g_head s; g_tail := (g_tail s + 1) mod QOS_NET_MAX_QUEUE;
               g_count := g_count s + 1 |})
  end.

(** The bytes copied to [out]. *)
Definition qos_net_dequeue_packet (out : bool) (cap : Z) (s : packets) : Z * list Z * packets :=
  if negb out || (cap =? 0) then (-1, [], s)
  else if (g_count s =? 0)%nat then (-1, [], s)
  else
    let p := default slot_zero (ring s !! g_head s) in
    let len := p_len p in
    if cap <? len then (-1, [], s)
    else
      (len, take (Z.to_nat len) (p_data p),
       {| ring := <[g_head s := {| p_data := p_data p; p_len := 0 |}]> (ring s);
          g_head := (g_head s + 1) mod QOS_NET_MAX_QUEUE; g_tail := g_tail s; g_count := g_count s - 1 |}).

Definition qos_net_queue_len (s : packets) : Z := Z.of_nat (g_count s).

(** ** The ARP cache *)

Record arp_entry_t := { a_used : bool; a_ip : Z; a_mac : list Z; a_ttl : Z }.

#[export] Instance arp_slotted : Slotted arp_entry_t := a_used.
#[export] Instance arp_keyed : Keyed arp_entry_t Z := a_ip.

Definition arp_zero : arp_entry_t := {| a_used := false; a_ip := 0; a_mac := replicate 6 0; a_ttl := 0 |}.

Definition arp_reset : list arp_entry_t := replicate QOS_NET_ARP_MAX arp_zero.

(** The scan updates a live entry for the address, else takes the first free one. *)
Definition qos_net_arp_put (ip : Z) (mac : option (list Z)) (ttl_secs : Z) (s : list arp_entry_t) :
    Z * list arp_entry_t :=
  match mac with
  | None => (-1, s)
  | Some m =>
      if (ip =? 0) || (ttl_secs =? 0) then (-1, s)
      else
        match find_key ip s with
        | Some i => (0, <[i := {| a_used := true; a_ip := ip; a_mac := m; a_ttl := ttl_secs |}]> s)
        | None =>
            match free_slot s with
            | None => (-1, s)
            | Some i => (0, <[i := {| a_used := true; a_ip := ip; a_mac := m; a_ttl := ttl_secs |}]> s)
            end
        end
  end.

Definition qos_net_arp_lookup (ip : Z) (out : bool) (s : list arp_entry_t) : Z * option (list Z) :=
  if (ip =? 0) || negb out then (-1, None)
  else
    match first_index (λ e, a_used e && (a_ip e =? ip) && negb (a_ttl e =? 0)) s with
    | Some i => (0, a_mac <$> s !! i)
    | None => (-1, None)
    end.

Definition age (elapsed : Z) (e : arp_entry_t) : arp_entry_t :=
  if a_used e then
    if a_ttl e <=? elapsed then arp_zero
    else {| a_used := a_used e; a_ip := a_ip e; a_mac := a_mac e; a_ttl := a_ttl e - elapsed |}
  else e.

Definition qos_net_arp_tick (elapsed : Z) (s : list arp_entry_t) : list arp_entry_t :=
  if elapsed =? 0 then s else age elapsed <$> s.

Definition qos_net_arp_count (s : list arp_entry_t) : Z := Z.of_nat (count_used s).

(** ** IPv4 and ICMP *)

Definition same_subnet (a b : Z) : bool :=
  Z.land a QOS_NET_IPV4_SUBNET_MASK =? Z.land b QOS_NET_IPV4_SUBNET_MASK.

Definition qos_net_ipv4_route (dst_ip : Z) (out : bool) : Z * option Z :=
  if (dst_ip =? 0) || negb out then (-1, None)
  else (0, Some (if same_subnet dst_ip QOS_NET_IPV4_LOCAL then dst_ip else QOS_NET_IPV4_GATEWAY)).

(** Result, reply bytes and source address; [ident] and [seq] are unused. *)
Definition qos_net_icmp_echo (dst_ip : Z) (payload : option (list Z)) (len : Z) (out : bool) (cap : Z) :
    Z * list Z * option Z :=
  match payload with
  | None => (-1, [], None)
  | Some bytes =>
      if (dst_ip =? 0) || negb out || (len =? 0) || (QOS_NET_MAX_PACKET <? len) || (cap <? len)
      then (-1, [], None)
      else if negb ((qos_net_ipv4_route dst_ip true).1 =? 0) then (-1, [], None)
      else if negb (dst_ip =? QOS_NET_IPV4_GATEWAY) && negb (dst_ip =? QOS_NET_IPV4_LOCAL)
      then (-1, [], None)
      else (len, take (Z.to_nat len) bytes, Some dst_ip)
  end.

(** ** The packet ring is a FIFO of byte strings *)

Definition payload (p : slot) : list Z := take (Z.to_nat (p_len p)) (p_data p).

Definition contents (s : packets) : list (list Z) := payload <$> ring_list (ring s) (g_head s) (g_count s).

Record packets_wf (s : packets) : Prop := {
  pw_ring : length (ring s) = QOS_NET_MAX_QUEUE;
  pw_idx : ring_wf (ring s) (g_head s) (g_tail s) (g_count s);
  pw_buf : Forall (λ p, length (p_data p) = Z.to_nat QOS_NET_MAX_PACKET) (ring s);
  pw_len : Forall (λ p, 0 < p_len p <= QOS_NET_MAX_PACKET) (ring_list (ring s) (g_head s) (g_count s))
}.

Inductive pk_op := PEnqueue (bytes : list Z) (len : Z) | PDequeue (cap : Z).

(** [len] bytes are readable at the data pointer. *)
Definition pk_op_ok (o : pk_op) : Prop :=
  match o with
  | PEnqueue bytes len => 0 <= len <= Z.of_nat (length bytes)
  | PDequeue cap => 0 <= cap
  end.

Definition pk_exec (o : pk_op) (s : packets) : Z * list Z * packets :=
  match o with
  | PEnqueue bytes len => let '(r, s') := qos_net_enqueue_packet (Some bytes) len s in (r, [], s')
  | PDequeue cap => qos_net_dequeue_packet true cap s
  end.

Definition pk_spec (o : pk_op) (q : list (list Z)) : Z * list Z * list (list Z) :=
  match o with
  | PEnqueue bytes len =>
      if (0 <? len) && (len <=? 1500) && (length q <? 32)%nat
      then (0, [], q ++ [take (Z.to_nat len) bytes]) else (-1, [], q)
  | PDequeue cap =>
      match q with
      | p :: q' => if Z.of_nat (length p) <=? cap then (Z.of_nat (length p), p, q') else (-1, [], q)
      | [] => (-1, [], q)
      end
  end.

Lemma contents_length s : packets_wf s → length (contents s) = g_count s.
Proof.
  intros Hwf. unfold contents. rewrite length_fmap. apply ring_list_length.
  rewrite (pw_ring _ Hwf). unfold QOS_NET_MAX_QUEUE. lia.
Qed.

Lemma memcpy_take dst src n : (n <= length src)%nat → take n (memcpy dst src n) = take n src.
Proof. intros H. unfold memcpy. rewrite take_app_le by (rewrite length_take; lia). by rewrite take_take, Nat.min_id. Qed.

Lemma memcpy_length dst src n :
  (n <= length src)%nat → (n <= length dst)%nat → length (memcpy dst src n) = length dst.
Proof. intros H1 H2. unfold memcpy. rewrite length_app, length_take, length_drop. lia. Qed.

Lemma enqueue_refines bytes len s :
  packets_wf s → pk_op_ok (PEnqueue bytes len) →
  let '(r, out, s') := pk_exec (PEnqueue bytes len) s in
  packets_wf s' ∧ pk_spec (PEnqueue bytes len) (contents s) = (r, out, contents s').
Proof.
  intros Hwf Hlen. cbn [pk_op_ok] in Hlen. cbn [pk_exec pk_spec]. unfold qos_net_enqueue_packet, QOS_NET_MAX_PACKET.
  rewrite contents_length by done.
  destruct (Z.eqb_spec len 0) as [->|Hne]; [done|]. rewrite (proj2 (Z.ltb_lt 0 len)) by lia.
  rewrite (Z.ltb_antisym len). destruct (Z.leb_spec len 1500) as [Hle|Hgt]; cbn [negb orb andb]; [|done].
  unfold QOS_NET_MAX_QUEUE. rewrite (Nat.ltb_antisym 32). destruct (Nat.leb_spec 32 (g_count s)) as [Hf|Hf]; cbn [negb]; [done|].
  set (old := default slot_zero (ring s !! g_tail s)).
  set (p := {| p_data := memcpy (p_data old) bytes (Z.to_nat len); p_len := u16 len |}).
  pose proof (pw_ring _ Hwf) as Hr. unfold QOS_NET_MAX_QUEUE in Hr.
  assert (g_tail s < 32)%nat as Ht.
  { destruct (pw_idx _ Hwf) as (_ & _ & ->). rewrite Hr. apply Nat.mod_upper_bound. lia. }
  assert (length (p_data old) = 1500%nat) as Hold.
  { destruct (lookup_lt_is_Some_2 (ring s) (g_tail s)) as [x Hx]; [lia|]. unfold old. rewrite Hx.
    exact (Forall_lookup_1 _ _ _ _ (pw_buf _ Hwf) Hx). }
  assert (p_len p = len) as Hpl by (cbn; apply wrap_small; unfold in_width; lia).
  pose proof (ring_list_push (ring s) (g_head s) (g_tail s) (g_count s) p (pw_idx _ Hwf) ltac:(lia)) as Hpush.
  pose proof (ring_wf_push (ring s) (g_head s) (g_tail s) (g_count s) p (pw_idx _ Hwf) ltac:(lia)) as Hwp.
  rewrite Hr in Hwp. split.
  - split; cbn [ring g_head g_tail g_count]; rewrite ?(Nat.add_1_r (g_count s)).
    + by rewrite length_insert.
    + done.
    + apply Forall_insert; [apply Hwf|]. cbn [p p_data]. rewrite memcpy_length by lia. done.
    + rewrite Hpush. apply Forall_app. split; [apply Hwf|]. apply Forall_singleton. rewrite Hpl.
      unfold QOS_NET_MAX_PACKET. lia.
  - unfold contents. cbn [ring g_head g_count]. rewrite Nat.add_1_r, Hpush, fmap_app. do 3 f_equal.
    cbn [fmap list_fmap]. unfold payload at 1. rewrite Hpl. cbn [p p_data]. by rewrite memcpy_take by lia.
Qed.

Lemma dequeue_refines cap s :
  packets_wf s → pk_op_ok (PDequeue cap) →
  let '(r, out, s') := pk_exec (PDequeue cap) s in
  packets_wf s' ∧ pk_spec (PDequeue cap) (contents s) = (r, out, contents s').
Proof.
  intros Hwf Hcap. cbn [pk_op_ok] in Hcap. cbn [pk_exec pk_spec]. unfold qos_net_dequeue_packet. cbn [negb orb].
  pose proof (pw_ring _ Hwf) as Hr. unfold QOS_NET_MAX_QUEUE in Hr.
  pose proof (contents_length s Hwf) as Hcl. destruct (g_count s) as [|n] eqn:Hc.
  { apply nil_length_inv in Hcl. destruct (cap =? 0); cbn [Nat.eqb]; by rewrite Hcl. }
  cbn [Nat.eqb]. pose proof (pw_idx _ Hwf) as Hidx. rewrite Hc in Hidx.
  destruct (lookup_lt_is_Some_2 (ring s) (g_head s)) as [p Hp]; [apply Hidx|]. rewrite Hp.
  change (default slot_zero (Some p)) with p.
  pose proof (ring_list_pop _ _ _ _ _ Hidx Hp) as Hpop. pose proof (ring_wf_pop _ _ _ _ Hidx) as Hwp.
  rewrite Hr in Hpop, Hwp. pose proof (pw_len _ Hwf) as Hlens. rewrite Hc, Hpop in Hlens.
  apply Forall_cons in Hlens as [Hpl Hlens].
  assert (contents s = payload p :: (payload <$> ring_list (ring s) ((g_head s + 1) mod 32) n)) as Hcs.
  { unfold contents. by rewrite Hc, Hpop, fmap_cons. }
  assert (Z.of_nat (length (payload p)) = p_len p) as Hlp.
  { unfold payload. rewrite length_take, (Forall_lookup_1 _ _ _ _ (pw_buf _ Hwf) Hp). lia. }
  rewrite Hcs, Hlp. destruct (Z.eqb_spec cap 0) as [->|Hcap0].
  { rewrite (proj2 (Z.leb_gt _ _)) by lia. by rewrite <- Hcs. }
  rewrite (Z.ltb_antisym (p_len p)). destruct (Z.leb_spec (p_len p) cap); cbn [negb]; [|by rewrite <- Hcs].
  assert (ring_list (<[g_head s := {| p_data := p_data p; p_len := 0 |}]> (ring s)) ((g_head s + 1) mod 32) n
          = ring_list (ring s) ((g_head s + 1) mod 32) n) as Hdead.
  { apply ring_list_insert_dead. intros k Hk E. rewrite Hr in E.
    destruct Hidx as (Hh & Hcn & _). rewrite Hr in Hh, Hcn.
    rewrite Nat.Div0.add_mod_idemp_l in E.
    assert ((g_head s + 0) mod 32 = (g_head s + (1 + k)) mod 32)%nat as E2.
    { rewrite Nat.add_0_r, (Nat.mod_small (g_head s)) by done. rewrite E at 1. f_equal. lia. }
    apply ring_mod_inj in E2; lia. }
  replace (S n - 1)%nat with n by lia. split.
  - split; cbn [ring g_head g_tail g_count]; unfold QOS_NET_MAX_QUEUE.
    + by rewrite length_insert.
    + destruct Hwp as (? & ? & ?). unfold ring_wf. by rewrite length_insert, Hr in *.
    + apply Forall_insert; [apply Hwf|]. exact (Forall_lookup_1 _ _ _ _ (pw_buf _ Hwf) Hp).
    + by rewrite Hdead.
  - unfold contents. cbn [ring g_head g_count]. unfold QOS_NET_MAX_QUEUE. by rewrite Hdead.
Qed.

Fixpoint pk_run (ops : list pk_op) (s : packets) : list (Z * list Z) * packets :=
  match ops with
  | [] => ([], s)
  | o :: ops' => let '(r, out, s1) := pk_exec o s in
                 let '(rs, s2) := pk_run ops' s1 in ((r, out) :: rs, s2)
  end.

Fixpoint pk_spec_run (ops : list pk_op) (q : list (list Z)) : list (Z * list Z) * list (list Z) :=
  match ops with
  | [] => ([], q)
  | o :: ops' => let '(r, out, q1) := pk_spec o q in
                 let '(rs, q2) := pk_spec_run ops' q1 in ((r, out) :: rs, q2)
  end.

Lemma pk_run_refines ops s :
  packets_wf s → Forall pk_op_ok ops →
  let '(rs, s') := pk_run ops s in
  packets_wf s' ∧ pk_spec_run ops (contents s) = (rs, contents s').
Proof.
  revert s. induction ops as [|o ops IH]; intros s Hwf Hok; cbn [pk_run pk_spec_run]; [done|].
  apply Forall_cons in Hok as [Ho Hok].
  assert (let '(r, out, s') := pk_exec o s in
          packets_wf s' ∧ pk_spec o (contents s) = (r, out, contents s')) as Hs.
  { destruct o; [by apply enqueue_refines|by apply dequeue_refines]. }
  destruct (pk_exec o s) as [[r out] s1]. destruct Hs as [Hwf1 ->].
  specialize (IH s1 Hwf1 Hok). destruct (pk_run ops s1) as [rs s2]. destruct IH as [? ->]. done.
Qed.

Lemma packets_reset_wf : packets_wf packets_reset.
Proof.
  split; [done| |by apply Forall_replicate|constructor].
  unfold ring_wf. split_and!; [cbn; lia|cbn; lia|reflexivity].
Qed.

(** The packet ring is a FIFO of byte strings. From reset, every sequence of
    enqueues and dequeues returns the codes and bytes of a queue of at most 32
    packets of 1 to 1500 bytes: packets come out whole, unchanged and in order,
    and one that does not fit the caller's buffer stays at the head. *)
Theorem packet_queue_is_fifo ops :
  Forall pk_op_ok ops →
  let '(rs, s) := pk_run ops packets_reset in
  pk_spec_run ops [] = (rs, contents s) ∧ qos_net_queue_len s = Z.of_nat (length (contents s)).
Proof.
  intros Hok. pose proof (pk_run_refines ops _ packets_reset_wf Hok) as H.
  destruct (pk_run ops packets_reset) as [rs s]. destruct H as [Hwf H]. split; [exact H|].
  unfold qos_net_queue_len. by rewrite contents_length.
Qed.

Lemma packet_queue_is_fifo_witness :
  (pk_run [PEnqueue [1; 2; 3] 3; PEnqueue [9] 1; PDequeue 2; PDequeue 4; PDequeue 4] packets_reset).1
  = [(0, []); (0, []); (-1, []); (3, [1; 2; 3]); (1, [9])].
Proof.
  assert (Forall pk_op_ok [PEnqueue [1; 2; 3] 3; PEnqueue [9] 1; PDequeue 2; PDequeue 4; PDequeue 4]) as H
    by (repeat constructor; simpl; lia).
  pose proof (packet_queue_is_fifo _ H) as HT. destruct (pk_run _ _) as [rs s]. destruct HT as [HT _].
  apply (f_equal fst) in HT. exact (eq_sym HT).
Defined.

(** ** The ARP cache is a map with lifetimes *)

Definition arp_val (e : arp_entry_t) : list Z * Z := (a_mac e, a_ttl e).
Definition arp_abs (s : list arp_entry_t) : gmap Z (list Z * Z) := arp_val <$> table_map s.

Record arp_wf (s : list arp_entry_t) : Prop := {
  aw_len : length s = QOS_NET_ARP_MAX;
  aw_unique : unique_keys s;
  aw_ttl : ∀ i e, s !! i = Some e → a_used e = true → 0 < a_ttl e
}.

Inductive arp_op := APut (ip : Z) (mac : list Z) (ttl : Z) | ALookup (ip : Z) | ATick (elapsed : Z).

Definition arp_op_ok (o : arp_op) : Prop :=
  match o with APut _ _ ttl => 0 <= ttl | ATick e => 0 <= e | ALookup _ => True end.

Definition arp_exec (o : arp_op) (s : list arp_entry_t) : Z * option (list Z) * list arp_entry_t :=
  match o with
  | APut ip mac ttl => let '(r, s') := qos_net_arp_put ip (Some mac) ttl s in (r, None, s')
  | ALookup ip => (qos_net_arp_lookup ip true s, s)
  | ATick e => (0, None, qos_net_arp_tick e s)
  end.

(** Entries live for their lifetime and no longer. *)
Definition expire (elapsed : Z) (v : list Z * Z) : option (list Z * Z) :=
  if v.2 <=? elapsed then None else Some (v.1, v.2 - elapsed).

Definition arp_spec (o : arp_op) (m : gmap Z (list Z * Z)) : Z * option (list Z) * gmap Z (list Z * Z) :=
  match o with
  | APut ip mac ttl =>
      if negb (ip =? 0) && negb (ttl =? 0) && (bool_decide (is_Some (m !! ip)) || (size m <? 32)%nat)
      then (0, None, <[ip := (mac, ttl)]> m) else (-1, None, m)
  | ALookup ip =>
      match m !! ip with
      | Some (mac, _) => if ip =? 0 then (-1, None, m) else (0, Some mac, m)
      | None => (-1, None, m)
      end
  | ATick e => (0, None, omap (expire e) m)
  end.

Lemma unique_keys_cons (x : arp_entry_t) l :
  unique_keys (x :: l) → unique_keys l ∧ (a_used x = true → table_map l !! a_ip x = None).
Proof.
  intros Hu. split.
  - intros i j a b Ha Hb Hua Hub Hk. specialize (Hu (S i) (S j) a b Ha Hb Hua Hub Hk). lia.
  - intros Hx. apply table_map_None, find_key_None. intros i a Ha Hua Hk.
    by specialize (Hu 0%nat (S i) x a eq_refl Ha Hx Hua (eq_sym Hk)).
Qed.

Lemma age_key e x : a_used (age e x) = true → a_used x = true ∧ a_ip (age e x) = a_ip x ∧ a_ttl x > e.
Proof. unfold age. destruct (a_used x) eqn:Hu; [|congruence]. destruct (Z.leb_spec (a_ttl x) e); [done|]. intros _. cbn. lia. Qed.

Lemma arp_abs_age e s : unique_keys s → arp_abs (age e <$> s) = omap (expire e) (arp_abs s).
Proof.
  unfold arp_abs. induction s as [|x s IH]; intros Hu.
  { apply map_eq. intros i. by rewrite lookup_omap, !lookup_fmap. }
  destruct (unique_keys_cons x s Hu) as [Hus Hx]. specialize (IH Hus). rewrite fmap_cons. cbn [table_map foldr].
  change (foldr _ ∅ (age e <$> s)) with (table_map (age e <$> s)). change (foldr _ ∅ s) with (table_map s).
  change (slot_used x) with (a_used x). change (slot_key x) with (a_ip x).
  change (slot_used (age e x)) with (a_used (age e x)). change (slot_key (age e x)) with (a_ip (age e x)).
  unfold age at 1 2 3. destruct (a_used x) eqn:Hux; [|by rewrite Hux].
  rewrite (fmap_insert arp_val (table_map s)). destruct (Z.leb_spec (a_ttl x) e) as [Hle|Hgt].
  - cbn [arp_zero a_used]. rewrite IH, omap_insert_None.
    + rewrite delete_id; [done|]. by rewrite lookup_omap, lookup_fmap, Hx.
    + unfold expire. cbn. by rewrite (proj2 (Z.leb_le _ _)).
  - cbn [a_used a_ip]. rewrite fmap_insert, IH.
    erewrite omap_insert_Some; [done|]. unfold expire. cbn. by rewrite (proj2 (Z.leb_gt _ _)).
Qed.

Lemma arp_abs_lookup ip s : arp_abs s !! ip = arp_val <$> (find_key ip s ≫= (s !!.)).
Proof. unfold arp_abs. by rewrite lookup_fmap, table_map_lookup. Qed.

Lemma arp_put_refines ip mac ttl s :
  arp_wf s → 0 <= ttl →
  let '(r, s') := qos_net_arp_put ip (Some mac) ttl s in
  arp_wf s' ∧ arp_spec (APut ip mac ttl) (arp_abs s) = (r, None, arp_abs s').
Proof.
  intros Hwf Ht. unfold qos_net_arp_put, arp_spec.
  destruct (Z.eqb_spec ip 0) as [|Hip]; cbn [negb andb orb]; [done|].
  destruct (Z.eqb_spec ttl 0) as [|Httl]; cbn [negb andb]; [done|].
  set (e := {| a_used := true; a_ip := ip; a_mac := mac; a_ttl := ttl |}).
  assert (∀ i, unique_keys (<[i:=e]> s) → arp_wf (<[i:=e]> s)) as Hins.
  { intros i Hu. split; [by rewrite length_insert; apply Hwf|done|].
    intros j x Hj Hx. apply list_lookup_insert_Some in Hj as [(_ & <- & _)|(_ & Hj)]; [cbn; lia|].
    by eapply (aw_ttl _ Hwf). }
  pose proof (arp_abs_lookup ip s) as Hl. destruct (find_key ip s) as [i|] eqn:Hf.
  - destruct (find_key_Some _ _ _ Hf) as (b & Hb & _). cbn [mbind option_bind] in Hl. rewrite Hb in Hl.
    rewrite bool_decide_eq_true_2 by (rewrite Hl; eauto). cbn [orb].
    destruct (table_map_update s i ip e (aw_unique _ Hwf) Hf eq_refl eq_refl) as [Hu' Hm'].
    split; [by apply Hins|]. unfold arp_abs at 2. by rewrite Hm', fmap_insert.
  - cbn in Hl. rewrite bool_decide_eq_false_2 by (rewrite Hl; by intros [? ?]). cbn [orb].
    assert (size (arp_abs s) = count_used s) as ->.
    { unfold arp_abs. rewrite map_size_fmap. apply table_map_size, Hwf. }
    pose proof (free_slot_None s) as HN. rewrite (aw_len _ Hwf) in HN. unfold QOS_NET_ARP_MAX in HN.
    assert (count_used s <= 32)%nat as Hc by (etrans; [apply count_if_le|]; by rewrite (aw_len _ Hwf)).
    destruct (free_slot s) as [i|] eqn:Hi; last first.
    { assert (count_used s = 32%nat) as -> by by apply HN. done. }
    assert (count_used s ≠ 32%nat) as Hne by (intros E; by apply HN in E).
    rewrite (proj2 (Nat.ltb_lt _ _)) by lia. destruct (free_slot_Some _ _ Hi) as (b & Hb & Hub).
    destruct (table_map_alloc s i b e (aw_unique _ Hwf) Hb Hub eq_refl Hf) as [Hu' Hm'].
    split; [by apply Hins|]. unfold arp_abs at 2. by rewrite Hm', fmap_insert.
Qed.

Lemma arp_lookup_refines ip s :
  arp_wf s → arp_spec (ALookup ip) (arp_abs s) = (qos_net_arp_lookup ip true s, arp_abs s).
Proof.
  intros Hwf. unfold qos_net_arp_lookup, arp_spec. rewrite arp_abs_lookup. rewrite orb_false_r.
  assert (first_index (λ e, a_used e && (a_ip e =? ip) && negb (a_ttl e =? 0)) s = find_key ip s) as ->.
  { unfold find_key. apply first_index_ext. intros e [i Hi]%list_elem_of_lookup.
    change (slot_used e) with (a_used e). change (slot_key e) with (a_ip e).
    destruct (a_used e) eqn:Hu; [|done]. pose proof (aw_ttl _ Hwf i e Hi Hu).
    rewrite (proj2 (Z.eqb_neq (a_ttl e) 0)) by lia. cbn [andb negb]. rewrite andb_true_r.
    destruct (Z.eqb_spec (a_ip e) ip); [by rewrite bool_decide_eq_true_2|by rewrite bool_decide_eq_false_2]. }
  destruct (find_key ip s) as [i|] eqn:Hf; cbn [mbind option_bind].
  - destruct (find_key_Some _ _ _ Hf) as (b & -> & _). cbn. by destruct (ip =? 0).
  - cbn. by destruct (ip =? 0).
Qed.

Lemma arp_tick_refines e s :
  arp_wf s → 0 <= e → arp_wf (qos_net_arp_tick e s) ∧ omap (expire e) (arp_abs s) = arp_abs (qos_net_arp_tick e s).
Proof.
  intros Hwf He. unfold qos_net_arp_tick. destruct (Z.eqb_spec e 0) as [->|Hne].
  - split; [done|]. apply map_eq. intros ip. rewrite lookup_omap, arp_abs_lookup.
    destruct (find_key ip s) as [i|] eqn:Hf; [|done]. destruct (find_key_Some _ _ _ Hf) as (b & Hb & Hu & _).
    cbn [mbind option_bind]. rewrite Hb. cbn. unfold expire. cbn.
    pose proof (aw_ttl _ Hwf i b Hb Hu). rewrite (proj2 (Z.leb_gt _ _)), Z.sub_0_r by lia. done.
  - split; [|symmetry; apply arp_abs_age, Hwf]. split; [by rewrite length_fmap; apply Hwf| |].
    + intros i j a b Ha Hb Hua Hub Hk. rewrite list_lookup_fmap in Ha, Hb.
      destruct (s !! i) as [x|] eqn:Hx; [|done]. destruct (s !! j) as [y|] eqn:Hy; [|done]. cbn in Ha, Hb. simplify_eq.
      apply age_key in Hua as Hka. apply age_key in Hub as Hkb. destruct Hka as (? & Hkx & _), Hkb as (? & Hky & _).
      eapply (aw_unique _ Hwf); [exact Hx|exact Hy|done|done|].
      change (a_ip x = a_ip y). rewrite <- Hkx, <- Hky. exact Hk.
    + intros i a Ha Hua. rewrite list_lookup_fmap in Ha. destruct (s !! i) as [x|] eqn:Hx; [|done]. cbn in Ha. simplify_eq.
      apply age_key in Hua as Hk. destruct Hk as (Hux & _ & Hgt). unfold age. rewrite Hux.
      rewrite (proj2 (Z.leb_gt _ _)) by lia. cbn. lia.
Qed.

Fixpoint arp_run (ops : list arp_op) (s : list arp_entry_t) : list (Z * option (list Z)) * list arp_entry_t :=
  match ops with
  | [] => ([], s)
  | o :: ops' => let '(r, out, s1) := arp_exec o s in
                 let '(rs, s2) := arp_run ops' s1 in ((r, out) :: rs, s2)
  end.

Fixpoint arp_spec_run (ops : list arp_op) (m : gmap Z (list Z * Z)) :
    list (Z * option (list Z)) * gmap Z (list Z * Z) :=
  match ops with
  | [] => ([], m)
  | o :: ops' => let '(r, out, m1) := arp_spec o m in
                 let '(rs, m2) := arp_spec_run ops' m1 in ((r, out) :: rs, m2)
  end.

Lemma arp_run_refines ops s :
  arp_wf s → Forall arp_op_ok ops →
  let '(rs, s') := arp_run ops s in arp_wf s' ∧ arp_spec_run ops (arp_abs s) = (rs, arp_abs s').
Proof.
  revert s. induction ops as [|o ops IH]; intros s Hwf Hok; cbn [arp_run arp_spec_run]; [done|].
  apply Forall_cons in Hok as [Ho Hok].
  assert (let '(r, out, s') := arp_exec o s in
          arp_wf s' ∧ arp_spec o (arp_abs s) = (r, out, arp_abs s')) as Hs.
  { destruct o as [ip mac ttl|ip|e]; cbn [arp_exec arp_op_ok] in *.
    - pose proof (arp_put_refines ip mac ttl s Hwf Ho) as H. by destruct (qos_net_arp_put ip (Some mac) ttl s).
    - pose proof (arp_lookup_refines ip s Hwf) as H. destruct (qos_net_arp_lookup ip true s). done.
    - destruct (arp_tick_refines e s Hwf Ho) as [? E]. split; [done|]. cbn [arp_spec]. by rewrite E. }
  destruct (arp_exec o s) as [[r out] s1]. destruct Hs as [Hwf1 ->].
  specialize (IH s1 Hwf1 Hok). destruct (arp_run ops s1) as [rs s2]. destruct IH as [? ->]. done.
Qed.

(** The ARP cache is a map from addresses to hardware addresses with a
    remaining lifetime. From reset, every sequence of puts, lookups and ticks
    returns what that map would: a put refreshes or adds an entry (32 at most),
    a lookup finds exactly the entries whose lifetime has not run out, and the
    count is the number of live entries. *)
Theorem arp_cache_refines_lifetime_map ops :
  Forall arp_op_ok ops →
  let '(rs, s) := arp_run ops arp_reset in
  arp_spec_run ops ∅ = (rs, arp_abs s) ∧ qos_net_arp_count s = Z.of_nat (size (arp_abs s)).
Proof.
  intros Hok.
  assert (arp_wf arp_reset) as Hwf.
  { split; [done|by apply unique_keys_replicate|]. intros i e [-> _]%lookup_replicate. done. }
  pose proof (arp_run_refines ops _ Hwf Hok) as H.
  assert (arp_abs arp_reset = ∅) as E0 by (unfold arp_abs, arp_reset; by rewrite table_map_replicate, fmap_empty).
  rewrite E0 in H. destruct (arp_run ops arp_reset) as [rs s]. destruct H as [Hwf' H]. split; [done|].
  unfold arp_abs. rewrite map_size_fmap, table_map_size by apply Hwf'. done.
Qed.

Definition demo_arp_ops : list arp_op :=
  [APut 7 [1; 2; 3; 4; 5; 6] 10; ATick 9; ALookup 7; ATick 1; ALookup 7].

Lemma arp_cache_refines_lifetime_map_witness :
  (arp_run demo_arp_ops arp_reset).1
  = [(0, None); (0, None); (0, Some [1; 2; 3; 4; 5; 6]); (0, None); (-1, None)].
Proof.
  assert (Forall arp_op_ok demo_arp_ops) as H by (repeat constructor; simpl; lia).
  pose proof (arp_cache_refines_lifetime_map demo_arp_ops H) as HT.
  destruct (arp_run demo_arp_ops arp_reset) as [rs s]. destruct HT as [HT _].
  apply (f_equal fst) in HT. exact (eq_sym HT).
Defined.

(** ** Routing *)

Lemma land_subnet_mask a : in_width 32 a → Z.land a QOS_NET_IPV4_SUBNET_MASK = a / 256 * 256.
Proof.
  intros Ha. change (a / 256 * 256) with (a / 2 ^ 8 * 2 ^ 8).
  rewrite <- Z.shiftr_div_pow2, <- Z.shiftl_mul_pow2 by lia.
  apply Z.bits_inj'. intros n Hn. rewrite Z.land_spec.
  change QOS_NET_IPV4_SUBNET_MASK with (Z.shiftl (Z.ones 24) 8).
  rewrite !Z.shiftl_spec by done. destruct (decide (n < 8)) as [Hlt|Hge].
  { rewrite !(Z.testbit_neg_r _ (n - 8)) by lia. apply andb_false_r. }
  rewrite Z.shiftr_spec by lia. replace (n - 8 + 8) with n by lia.
  destruct (decide (n < 32)) as [Hlt|Hge'].
  - rewrite Z.ones_spec_low by lia. apply andb_true_r.
  - rewrite (testbit_high 32 a n) by (done || lia). done.
Qed.

Lemma same_subnet_div a b : in_width 32 a → in_width 32 b → same_subnet a b = (a / 256 =? b / 256).
Proof.
  intros Ha Hb. unfold same_subnet. rewrite !land_subnet_mask by done.
  destruct (Z.eqb_spec (a / 256) (b / 256)) as [->|Hne]; [apply Z.eqb_refl|]. apply Z.eqb_neq. lia.
Qed.

(** Routing is on-link. For every destination but 0 the next hop lies in the
    local /24 network: it is the destination itself exactly when that network
    contains it, and the gateway otherwise. *)
Theorem ipv4_route_on_link dst :
  in_width 32 dst → dst ≠ 0 →
  ∃ hop, qos_net_ipv4_route dst true = (0, Some hop)
         ∧ hop / 256 = QOS_NET_IPV4_LOCAL / 256
         ∧ (dst / 256 = QOS_NET_IPV4_LOCAL / 256 → hop = dst)
         ∧ (dst / 256 ≠ QOS_NET_IPV4_LOCAL / 256 → hop = QOS_NET_IPV4_GATEWAY).
Proof.
  intros Hd Hnz. unfold qos_net_ipv4_route. rewrite (proj2 (Z.eqb_neq _ _)) by done. cbn [negb orb].
  rewrite same_subnet_div by (done || (unfold in_width, QOS_NET_IPV4_LOCAL; lia)).
  eexists. split; [done|]. destruct (Z.eqb_spec (dst / 256) (QOS_NET_IPV4_LOCAL / 256)) as [E|E]; split; done.
Qed.

Lemma ipv4_route_on_link_witness :
  ∃ hop, qos_net_ipv4_route 0x08080808 true = (0, Some hop) ∧ hop / 256 = QOS_NET_IPV4_LOCAL / 256.
Proof.
  destruct (ipv4_route_on_link 0x08080808 ltac:(unfold in_width; lia) ltac:(lia)) as (hop & H & Hl & _).
  exists hop. split; [exact H|exact Hl].
Defined.
