(* ===== verification/Udp.v ===== *)
(** * UDP ports and datagrams (c-os/kernel/net/net.c)

    The table of bound ports and the array of queued datagrams, whose first
    [g_udp_count] entries are in use. *)

From S2P Require Import Prelude SlotTable.

Definition QOS_NET_MAX_PACKET : Z := 1500.
Definition QOS_NET_UDP_PORT_MAX : nat := 64.
Definition QOS_NET_UDP_MAX_DATAGRAMS : nat := 64.
Definition QOS_NET_PORT_MIN_DYNAMIC : Z := 1024.

Record udp_port_t := { u_used : bool; u_port : Z }.

#[export] Instance port_slotted : Slotted udp_port_t := u_used.
#[export] Instance port_keyed : Keyed udp_port_t Z := u_port.

Record udp_datagram_t := {
  d_used : bool; d_dst_port : Z; d_src_port : Z; d_src_ip : Z; d_len : Z; d_data : list Z
}.

Record udp := { ports : list udp_port_t; datagrams : list udp_datagram_t; g_udp_count : nat }.

Definition port_zero : udp_port_t := {| u_used := false; u_port := 0 |}.

Definition datagram_zero : udp_datagram_t :=
  {| d_used := false; d_dst_port := 0; d_src_port := 0; d_src_ip := 0; d_len := 0;
     d_data := replicate (Z.to_nat QOS_NET_MAX_PACKET) 0 |}.

Definition udp_reset : udp :=
  {| ports := replicate QOS_NET_UDP_PORT_MAX port_zero;
     datagrams := replicate QOS_NET_UDP_MAX_DATAGRAMS datagram_zero; g_udp_count := 0 |}.

Definition udp_port_is_bound (port : Z) (s : udp) : bool :=
  match find_key port (ports s) with Some _ => true | None => false end.

Definition matches (port : Z) (d : udp_datagram_t) : bool := d_used d && (d_dst_port d =? port).

(** The compaction loop: [n] entries are left, the next is [src]. *)
Fixpoint drop_loop (n src dst : nat) (port : Z) (ds : list udp_datagram_t) : nat * list udp_datagram_t :=
  match n with
  | O => (dst, ds)
  | S n' =>
      let d := default datagram_zero (ds !! src) in
      if matches port d then drop_loop n' (S src) dst port ds
      else drop_loop n' (S src) (S dst) port (if negb (dst =? src)%nat then <[dst := d]> ds else ds)
  end.

(** The clearing loop; it leaves [dst] at the old count. *)
Fixpoint clear_loop (n dst : nat) (ds : list udp_datagram_t) : nat * list udp_datagram_t :=
  match n with
  | O => (dst, ds)
  | S n' => clear_loop n' (S dst) (<[dst := datagram_zero]> ds)
  end.

Definition udp_drop_port_datagrams (port : Z) (s : udp) : udp :=
  let '(dst, ds) := drop_loop (g_udp_count s) 0 0 port (datagrams s) in
  let '(dst', ds') := clear_loop (g_udp_count s - dst) dst ds in
  {| ports := ports s; datagrams := ds'; g_udp_count := dst' |}.

Definition qos_net_udp_bind (port : Z) (s : udp) : Z * udp :=
  if (port <? QOS_NET_PORT_MIN_DYNAMIC) || udp_port_is_bound port s then (-1, s)
  else
    match free_slot (ports s) with
    | None => (-1, s)
    | Some i =>
        (0, {| ports := <[i := {| u_used := true; u_port := port |}]> (ports s);
               datagrams := datagrams s; g_udp_count := g_udp_count s |})
    end.

Definition qos_net_udp_unbind (port : Z) (s : udp) : Z * udp :=
  match find_key port (ports s) with
  | None => (-1, s)
  | Some i =>
      (0, udp_drop_port_datagrams port
            {| ports := <[i := port_zero]> (ports s); datagrams := datagrams s;
               g_udp_count := g_udp_count s |})
  end.

(** [data] is the bytes readable at the data pointer, [None] is NULL. *)
Definition qos_net_udp_send (src_port src_ip dst_port : Z) (data : option (list Z)) (len : Z) (s : udp) : Z * udp :=
  match data with
  | None => (-1, s)
  | Some bytes =>
      if (src_port <? QOS_NET_PORT_MIN_DYNAMIC) || (src_ip =? 0) || (dst_port =? 0) || (len =? 0)
         || (QOS_NET_MAX_PACKET <? len)
      then (-1, s)
      else if negb (udp_port_is_bound dst_port s) then (len, s)
      else if (QOS_NET_UDP_MAX_DATAGRAMS <=? g_udp_count s)%nat then (-1, s)
      else
        let old := default datagram_zero (datagrams s !! g_udp_count s) in
        (len,
         {| ports := ports s;
            datagrams := <[g_udp_count s :=
              {| d_used := true; d_dst_port := dst_port; d_src_port := src_port; d_src_ip := src_ip;
                 d_len := u16 len;
                 d_data := take (Z.to_nat len) bytes ++ drop (Z.to_nat len) (d_data old) |}]> (datagrams s);
            g_udp_count := g_udp_count s + 1 |})
  end.

(** What [qos_net_udp_recv] writes through its pointers: the bytes, the source
    address and the source port. *)
Definition received (d : udp_datagram_t) : list Z * Z * Z :=
  (take (Z.to_nat (d_len d)) (d_data d), d_src_ip d, d_src_port d).

Definition qos_net_udp_recv (dst_port : Z) (out : bool) (cap : Z) (s : udp) : Z * option (list Z * Z * Z) * udp :=
  if (dst_port =? 0) || negb out || (cap =? 0) then (-1, None, s)
  else
    match first_index (matches dst_port) (take (g_udp_count s) (datagrams s)) with
    | None => (-1, None, s)
    | Some i =>
        let d := default datagram_zero (datagrams s !! i) in
        if cap <? d_len d then (-1, None, s)
        else
          let ds := shift_left (g_udp_count s - 1 - i) i (datagrams s) in
          (d_len d, Some (received d),
           {| ports := ports s; datagrams := <[(g_udp_count s - 1)%nat := datagram_zero]> ds;
              g_udp_count := g_udp_count s - 1 |})
    end.

(** ** Dropping a port's datagrams *)

Definition keeps (port : Z) (d : udp_datagram_t) : Prop := matches port d = false.

#[export] Instance keeps_dec port d : Decision (keeps port d).
Proof. unfold keeps. apply _. Defined.

Lemma drop_loop_spec port C A B E :
  ∃ B', drop_loop (length C) (length A + length B) (length A) port (A ++ B ++ C ++ E)
        = (length (A ++ filter (keeps port) C), (A ++ filter (keeps port) C) ++ B' ++ E)
        ∧ (length (filter (keeps port) C) + length B' = length B + length C)%nat.
Proof.
  revert A B. induction C as [|c C IH]; intros A B; cbn [length drop_loop].
  { exists B. rewrite filter_nil, !app_nil_r. cbn [length app]. split; [done|lia]. }
  rewrite (lookup_app_r A), (lookup_app_r B) by lia.
  replace (length A + length B - length A - length B)%nat with 0%nat by lia. cbn [lookup list_lookup app].
  change (default datagram_zero (Some c)) with c. destruct (matches port c) eqn:Hm.
  - destruct (IH A (B ++ [c])) as (B' & E1 & E2). exists B'.
    rewrite filter_cons_False by (unfold keeps; congruence).
    rewrite length_app, <- !(assoc_L (++)) in E1. cbn [length app] in E1.
    rewrite (assoc_L Nat.add), Nat.add_1_r in E1. rewrite E1, <- !(assoc_L (++)). split; [done|].
    rewrite length_app in E2. cbn [length] in E2. lia.
  - rewrite filter_cons_True by done. destruct B as [|b B].
    + cbn [length app]. rewrite Nat.add_0_r, Nat.eqb_refl. cbn [negb].
      destruct (IH (A ++ [c]) []) as (B' & E1 & E2). exists B'.
      rewrite length_app, <- !(assoc_L (++)) in E1. cbn [length app] in E1.
      rewrite Nat.add_0_r, Nat.add_1_r in E1. rewrite E1, <- !(assoc_L (++)). cbn [app length] in *. split; [done|lia].
    + cbn [length app]. rewrite (proj2 (Nat.eqb_neq _ _)) by lia. cbn [negb].
      rewrite insert_app_r_alt, Nat.sub_diag by reflexivity. cbn [insert list_insert].
      destruct (IH (A ++ [c]) (B ++ [c])) as (B' & E1 & E2). exists B'.
      rewrite !length_app, <- !(assoc_L (++)) in E1. cbn [length app] in E1.
      replace (length A + 1 + (length B + 1))%nat with (S (length A + S (length B))) in E1 by lia.
      rewrite Nat.add_1_r in E1. rewrite E1, <- !(assoc_L (++)). cbn [app].
      rewrite length_app in E2. cbn [length] in *.
      split; [f_equal; rewrite ?length_app; cbn [length]; lia|lia].
Qed.

Lemma clear_loop_spec B A E :
  clear_loop (length B) (length A) (A ++ B ++ E)
  = ((length A + length B)%nat, A ++ replicate (length B) datagram_zero ++ E).
Proof.
  revert A. induction B as [|b B IH]; intros A; cbn [length clear_loop replicate app].
  { by rewrite Nat.add_0_r. }
  rewrite insert_app_r_alt, Nat.sub_diag by reflexivity. cbn [insert list_insert app].
  pose proof (IH (A ++ [datagram_zero])) as H. rewrite length_app, <- !(assoc_L (++)) in H. cbn [length app] in H.
  rewrite Nat.add_1_r in H. rewrite H. f_equal. lia.
Qed.

(** What the two loops do: the kept datagrams move to the front, the rest of
    the used part is cleared, and the count stays what it was. *)
Lemma udp_drop_spec port s :
  (g_udp_count s <= length (datagrams s))%nat →
  let kept := filter (keeps port) (take (g_udp_count s) (datagrams s)) in
  udp_drop_port_datagrams port s
  = {| ports := ports s;
       datagrams := kept ++ replicate (g_udp_count s - length kept) datagram_zero
                    ++ drop (g_udp_count s) (datagrams s);
       g_udp_count := g_udp_count s |}.
Proof.
  intros Hc kept. unfold udp_drop_port_datagrams.
  set (C := take (g_udp_count s) (datagrams s)) in *. set (E := drop (g_udp_count s) (datagrams s)).
  assert (length C = g_udp_count s) as HC by (unfold C; rewrite length_take; lia).
  destruct (drop_loop_spec port C [] [] E) as (B' & E1 & E2). cbn [length app Nat.add] in E1, E2.
  rewrite <- (take_drop (g_udp_count s) (datagrams s)) at 1. fold C E. rewrite <- HC at 1. rewrite E1.
  rewrite <- HC, <- E2. replace (length (filter (keeps port) C) + length B' - length (filter (keeps port) C))%nat
    with (length B') by lia.
  rewrite clear_loop_spec, E2. fold kept. rewrite HC. f_equal. 
  rewrite <- HC, <- E2. fold kept. by replace (length kept + length B' - length kept)%nat with (length B') by lia.
Qed.

(** ** Specification: bound ports, a queue of messages, and lost places *)

Record msg := { m_dst : Z; m_src : Z; m_ip : Z; m_bytes : list Z }.

Definition msg_of (d : udp_datagram_t) : msg :=
  {| m_dst := d_dst_port d; m_src := d_src_port d; m_ip := d_src_ip d;
     m_bytes := take (Z.to_nat (d_len d)) (d_data d) |}.

(** The queue has 64 places, less those lost: [unbind] clears the entries of the messages it
    drops but does not give them back. *)
Record uspec := { us_bound : gset Z; us_queue : list msg; us_lost : nat }.

Fixpoint take_first (port : Z) (q : list msg) : option (msg * list msg) :=
  match q with
  | [] => None
  | m :: q' =>
      if m_dst m =? port then Some (m, q')
      else match take_first port q' with
           | Some (m', q'') => Some (m', m :: q'')
           | None => None
           end
  end.

Inductive udp_op :=
| UBind (port : Z) | UUnbind (port : Z)
| USend (src_port src_ip dst_port : Z) (bytes : list Z)
| URecv (port cap : Z).

Definition udp_exec (o : udp_op) (s : udp) : Z * option (list Z * Z * Z) * udp :=
  match o with
  | UBind p => let '(r, s') := qos_net_udp_bind p s in (r, None, s')
  | UUnbind p => let '(r, s') := qos_net_udp_unbind p s in (r, None, s')
  | USend sp ip dp bytes =>
      let '(r, s') := qos_net_udp_send sp ip dp (Some bytes) (Z.of_nat (length bytes)) s in (r, None, s')
  | URecv p cap => qos_net_udp_recv p true cap s
  end.

Definition udp_spec (o : udp_op) (S : uspec) : Z * option (list Z * Z * Z) * uspec :=
  match o with
  | UBind p =>
      if (1024 <=? p) && bool_decide (p ∉ us_bound S) && (size (us_bound S) <? 64)%nat
      then (0, None, {| us_bound := {[p]} ∪ us_bound S; us_queue := us_queue S; us_lost := us_lost S |})
      else (-1, None, S)
  | UUnbind p =>
      if bool_decide (p ∈ us_bound S)
      then (0, None, {| us_bound := us_bound S ∖ {[p]};
                        us_queue := filter (λ m, m_dst m ≠ p) (us_queue S);
                        us_lost := us_lost S + length (filter (λ m, m_dst m = p) (us_queue S)) |})
      else (-1, None, S)
  | USend sp ip dp bytes =>
      let len := Z.of_nat (length bytes) in
      if (1024 <=? sp) && negb (ip =? 0) && negb (dp =? 0) && (1 <=? len) && (len <=? 1500) then
        if bool_decide (dp ∈ us_bound S) then
          if (length (us_queue S) + us_lost S <? 64)%nat then
            (len, None,
             {| us_bound := us_bound S;
                us_queue := us_queue S ++ [{| m_dst := dp; m_src := sp; m_ip := ip; m_bytes := bytes |}];
                us_lost := us_lost S |})
          else (-1, None, S)
        else (len, None, S)
      else (-1, None, S)
  | URecv p cap =>
      match take_first p (us_queue S) with
      | Some (m, q) =>
          let len := Z.of_nat (length (m_bytes m)) in
          if negb (p =? 0) && (len <=? cap)
          then (len, Some (m_bytes m, m_ip m, m_src m),
                {| us_bound := us_bound S; us_queue := q; us_lost := us_lost S |})
          else (-1, None, S)
      | None => (-1, None, S)
      end
  end.

Definition live (ds : list udp_datagram_t) : list msg := msg_of <$> filter (λ d, d_used d = true) ds.

Definition udp_abs (s : udp) : uspec :=
  {| us_bound := dom (table_map (ports s)); us_queue := live (take (g_udp_count s) (datagrams s));
     us_lost := g_udp_count s - length (live (take (g_udp_count s) (datagrams s))) |}.

Definition datagram_ok (d : udp_datagram_t) : Prop :=
  length (d_data d) = 1500%nat ∧ (d_used d = true → 1 <= d_len d <= 1500).

Record udp_wf (s : udp) : Prop := {
  uw_ports : length (ports s) = QOS_NET_UDP_PORT_MAX;
  uw_unique : unique_keys (ports s);
  uw_len : length (datagrams s) = QOS_NET_UDP_MAX_DATAGRAMS;
  uw_count : (g_udp_count s <= QOS_NET_UDP_MAX_DATAGRAMS)%nat;
  uw_ok : Forall datagram_ok (datagrams s)
}.

Lemma datagram_zero_ok : datagram_ok datagram_zero.
Proof. split; [cbn [d_data datagram_zero]; by rewrite length_replicate|done]. Qed.

(** ** Lemmas on the queue *)

Lemma live_app l1 l2 : live (l1 ++ l2) = live l1 ++ live l2.
Proof. unfold live. by rewrite filter_app, fmap_app. Qed.

Lemma live_le n ds : (length (live (take n ds)) <= n)%nat.
Proof. unfold live. rewrite length_fmap. etrans; [apply length_filter|]. rewrite length_take. lia. Qed.

Lemma filter_split_length (port : Z) (q : list msg) :
  (length (filter (λ m, m_dst m ≠ port) q) + length (filter (λ m, m_dst m = port) q) = length q)%nat.
Proof.
  induction q as [|m q IH]; [done|]. rewrite !filter_cons. repeat case_decide; cbn [length]; [tauto|lia|lia|tauto].
Qed.

Lemma take_first_length port q m q' : take_first port q = Some (m, q') → length q = S (length q').
Proof.
  revert q'. induction q as [|x q IH]; intros q' H; [done|]. cbn [take_first] in H. destruct (_ =? _); [by simplify_eq|].
  destruct (take_first port q) as [[m' q'']|]; [|done]. simplify_eq. cbn [length]. f_equal. by apply IH.
Qed.

Lemma live_zeros n : live (replicate n datagram_zero) = [].
Proof. induction n as [|n IH]; [done|]. cbn [replicate]. unfold live in *. by rewrite filter_cons_False. Qed.

Lemma live_kept port ds : live (filter (keeps port) ds) = filter (λ m, m_dst m ≠ port) (live ds).
Proof.
  unfold live. induction ds as [|d ds IH]; [done|].
  rewrite (filter_cons (keeps port)). case_decide as Hk; unfold keeps, matches in Hk; destruct (d_used d) eqn:Hu.
  - rewrite !(filter_cons_True (λ d, d_used d = true)), !fmap_cons by done.
    rewrite filter_cons_True, IH by (cbn; by apply Z.eqb_neq). done.
  - by rewrite !(filter_cons_False (λ d, d_used d = true)) by congruence.
  - rewrite (filter_cons_True (λ d, d_used d = true)), fmap_cons, IH by done.
    rewrite filter_cons_False; [done|]. cbn. intros Hne. apply Hk. by apply Z.eqb_neq.
  - by rewrite (filter_cons_False (λ d, d_used d = true)) by congruence.
Qed.

Lemma live_take_first port ds i d :
  first_index (matches port) ds = Some i → ds !! i = Some d →
  take_first port (live ds) = Some (msg_of d, live (delete i ds)).
Proof.
  revert i. induction ds as [|x ds IH]; intros i Hf Hi; [done|]. cbn [first_index] in Hf. unfold live in *.
  destruct (matches port x) eqn:Hm.
  - simplify_eq/=. unfold matches in Hm. apply andb_true_iff in Hm as [Hu Hd].
    rewrite filter_cons_True, fmap_cons by done. cbn [take_first m_dst msg_of]. by rewrite Hd.
  - destruct (first_index (matches port) ds) as [j|] eqn:Hj; [|done]. simplify_eq/=.
    specialize (IH j eq_refl Hi). rewrite !filter_cons. destruct (d_used x) eqn:Hu.
    + rewrite !decide_True by done. rewrite !fmap_cons. cbn [take_first].
      unfold matches in Hm. rewrite Hu in Hm. cbn [andb] in Hm. cbn [m_dst msg_of]. rewrite Hm, IH. done.
    + rewrite !decide_False by congruence. done.
Qed.

Lemma live_take_first_None port ds :
  first_index (matches port) ds = None → take_first port (live ds) = None.
Proof.
  unfold live. induction ds as [|x ds IH]; intros Hf; [done|]. cbn [first_index] in Hf.
  destruct (matches port x) eqn:Hm; [done|]. destruct (first_index (matches port) ds); [done|].
  rewrite filter_cons. destruct (d_used x) eqn:Hu.
  - rewrite decide_True, fmap_cons by done. cbn [take_first m_dst msg_of].
    unfold matches in Hm. rewrite Hu in Hm. cbn [andb] in Hm. by rewrite Hm, IH.
  - rewrite decide_False by congruence. by apply IH.
Qed.

(** ** Each operation refines its specification *)

Lemma bound_spec port s : udp_port_is_bound port s = bool_decide (port ∈ us_bound (udp_abs s)).
Proof. apply find_key_dom. Qed.

Lemma bind_refines port s :
  udp_wf s →
  let '(r, s') := qos_net_udp_bind port s in
  udp_wf s' ∧ udp_spec (UBind port) (udp_abs s) = (r, None, udp_abs s').
Proof.
  intros Hwf. unfold qos_net_udp_bind, QOS_NET_PORT_MIN_DYNAMIC. cbn [udp_spec].
  rewrite (Z.ltb_antisym 1024). destruct (1024 <=? port); cbn [negb orb andb]; [|done].
  rewrite bound_spec. rewrite bool_decide_not. destruct (bool_decide (port ∈ _)) eqn:Hb; cbn [negb andb]; [done|].
  assert (find_key port (ports s) = None) as Hf.
  { pose proof (bound_spec port s) as E. rewrite Hb in E. unfold udp_port_is_bound in E. by destruct (find_key port (ports s)). }
  assert (size (us_bound (udp_abs s)) = count_used (ports s)) as ->.
  { cbn. rewrite size_dom. apply table_map_size, Hwf. }
  pose proof (free_slot_None (ports s)) as HN. rewrite (uw_ports _ Hwf) in HN. unfold QOS_NET_UDP_PORT_MAX in HN.
  assert (count_used (ports s) <= 64)%nat as Hc by (etrans; [apply count_if_le|]; by rewrite (uw_ports _ Hwf)).
  destruct (free_slot (ports s)) as [i|] eqn:Hi; last first.
  { assert (count_used (ports s) = 64%nat) as -> by by apply HN. done. }
  assert (count_used (ports s) ≠ 64%nat) as Hne by (intros E; by apply HN in E).
  rewrite (proj2 (Nat.ltb_lt _ _)) by lia. destruct (free_slot_Some _ _ Hi) as (b & Hbb & Hub).
  destruct (table_map_alloc (ports s) i b {| u_used := true; u_port := port |} (uw_unique _ Hwf) Hbb Hub eq_refl Hf)
    as [Hu' Hm'].
  split; [split; cbn; try apply Hwf; [by rewrite length_insert; apply Hwf|done]|].
  unfold udp_abs. cbn [ports datagrams g_udp_count us_bound us_queue us_lost]. by rewrite Hm', dom_insert_L.
Qed.

Lemma unbind_refines port s :
  udp_wf s →
  let '(r, s') := qos_net_udp_unbind port s in
  udp_wf s' ∧ udp_spec (UUnbind port) (udp_abs s) = (r, None, udp_abs s').
Proof.
  intros Hwf. cbn [udp_spec]. rewrite <- bound_spec. unfold qos_net_udp_unbind, udp_port_is_bound.
  destruct (find_key port (ports s)) as [i|] eqn:Hf; [|done].
  pose proof (uw_len _ Hwf) as Hl. pose proof (uw_count _ Hwf) as Hc. unfold QOS_NET_UDP_MAX_DATAGRAMS in *.
  rewrite udp_drop_spec by (cbn; lia). cbn [ports datagrams g_udp_count].
  set (kept := filter (keeps port) (take (g_udp_count s) (datagrams s))).
  assert (length kept <= g_udp_count s)%nat as Hk.
  { unfold kept. etrans; [apply length_filter|]. rewrite length_take. lia. }
  destruct (table_map_release (ports s) i port port_zero (uw_unique _ Hwf) Hf eq_refl) as [Hu' Hm'].
  pose proof (uw_ok _ Hwf) as Hok. rewrite <- (take_drop (g_udp_count s) (datagrams s)) in Hok.
  apply Forall_app in Hok as [Hok1 Hok2]. split.
  - split; cbn [ports datagrams g_udp_count]; try done.
    + rewrite length_insert. apply Hwf.
    + rewrite !length_app, length_replicate, length_drop. unfold QOS_NET_UDP_MAX_DATAGRAMS. lia.
    + apply Forall_app. split.
      { apply Forall_forall. intros d [_ Hd]%list_elem_of_filter. by eapply Forall_forall in Hok1. }
       apply Forall_app. split; [|done].
      apply Forall_replicate, datagram_zero_ok.
  - unfold udp_abs. cbn [ports datagrams g_udp_count us_bound us_queue us_lost].
    rewrite Hm', dom_delete_L. rewrite (assoc_L (++)), take_app_length' by (rewrite length_app, length_replicate; lia).
    rewrite live_app, live_zeros, app_nil_r. pose proof (live_le (g_udp_count s) (datagrams s)) as Hle.
    pose proof (filter_split_length port (live (take (g_udp_count s) (datagrams s)))) as Hsp.
    rewrite <- live_kept in *. fold kept in Hsp |- *. do 2 f_equal. lia.
Qed.

Lemma send_refines sp ip dp bytes s :
  udp_wf s →
  let '(r, s') := qos_net_udp_send sp ip dp (Some bytes) (Z.of_nat (length bytes)) s in
  udp_wf s' ∧ udp_spec (USend sp ip dp bytes) (udp_abs s) = (r, None, udp_abs s').
Proof.
  intros Hwf. cbn [udp_spec]. rewrite <- bound_spec. cbn [us_lost us_queue udp_abs].
  pose proof (live_le (g_udp_count s) (datagrams s)) as Hle.
  replace (length (live (take (g_udp_count s) (datagrams s))) + (g_udp_count s - length (live (take (g_udp_count s) (datagrams s)))))%nat
    with (g_udp_count s) by lia.
  unfold qos_net_udp_send, QOS_NET_PORT_MIN_DYNAMIC, QOS_NET_MAX_PACKET, QOS_NET_UDP_MAX_DATAGRAMS.
  set (len := Z.of_nat (length bytes)).
  rewrite (Z.ltb_antisym 1024), (Z.ltb_antisym len 1500).
  destruct (1024 <=? sp), (ip =? 0), (dp =? 0); cbn [negb orb andb]; try done.
  destruct (Z.eqb_spec len 0) as [E0|E0], (Z.leb_spec 1 len) as [E1|E1]; try lia; cbn [orb andb]; try done.
  destruct (Z.leb_spec len 1500) as [E2|E2]; cbn [negb orb]; [|done].
  destruct (udp_port_is_bound dp s); cbn [negb]; [|done].
  rewrite (Nat.ltb_antisym 64). destruct (Nat.leb_spec 64 (g_udp_count s)) as [Hf|Hf]; cbn [negb]; [done|].
  set (old := default datagram_zero (datagrams s !! g_udp_count s)).
  set (d := {| d_used := true |}).
  pose proof (uw_len _ Hwf) as Hl. unfold QOS_NET_UDP_MAX_DATAGRAMS in Hl.
  destruct (lookup_lt_is_Some_2 (datagrams s) (g_udp_count s)) as [x Hx]; [lia|].
  assert (length (d_data old) = 1500%nat) as Hold.
  { unfold old. rewrite Hx. apply (Forall_lookup_1 _ _ _ _ (uw_ok _ Hwf) Hx). }
  assert (d_len d = len) as Hdl by (cbn; apply wrap_small; unfold in_width; lia).
  assert (Z.to_nat len = length bytes) as Hlb by lia.
  split.
  - split; cbn [ports datagrams g_udp_count]; try apply Hwf; [by rewrite length_insert| |].
    + unfold QOS_NET_UDP_MAX_DATAGRAMS. lia.
    + apply Forall_insert; [apply Hwf|]. split; [|intros _; rewrite Hdl; lia].
      cbn. rewrite length_app, length_take, length_drop, Hold, Hlb. lia.
  - unfold udp_abs. cbn [ports datagrams g_udp_count us_bound us_queue us_lost].
    rewrite Nat.add_1_r, (take_S_r _ _ d) by (apply list_lookup_insert_eq; lia).
    rewrite take_insert_ge, live_app by lia.
    assert (live [d] = [{| m_dst := dp; m_src := sp; m_ip := ip; m_bytes := bytes |}]) as ->.
    { unfold live. rewrite filter_cons_True by done. cbn. unfold msg_of. rewrite Hdl. cbn.
      rewrite Hlb, take_app_le by (rewrite length_take; lia). by rewrite take_take, Nat.min_id, firstn_all. }
    rewrite length_app. do 2 f_equal. cbn [length]. lia.
Qed.

Lemma recv_refines port cap s :
  udp_wf s → 0 <= cap →
  let '(r, out, s') := qos_net_udp_recv port true cap s in
  udp_wf s' ∧ udp_spec (URecv port cap) (udp_abs s) = (r, out, udp_abs s').
Proof.
  intros Hwf Hcap. cbn [udp_spec us_queue udp_abs us_bound us_lost]. unfold qos_net_udp_recv.
  pose proof (uw_len _ Hwf) as Hl. pose proof (uw_count _ Hwf) as Hc. unfold QOS_NET_UDP_MAX_DATAGRAMS in *.
  destruct (first_index (matches port) (take (g_udp_count s) (datagrams s))) as [i|] eqn:Hi; last first.
  { rewrite (live_take_first_None _ _ Hi). by destruct (_ || _). }
  destruct (first_index_lookup _ _ _ Hi) as (d & Hd & Hm).
  pose proof (lookup_lt_Some _ _ _ Hd) as Hlt. rewrite length_take in Hlt.
  pose proof (live_take_first _ _ _ _ Hi Hd) as Htf. rewrite Htf.
  rewrite lookup_take, decide_True in Hd by lia. rewrite Hd. change (default datagram_zero (Some d)) with d.
  destruct (Forall_lookup_1 _ _ _ _ (uw_ok _ Hwf) Hd) as [Hdl Hdu].
  unfold matches in Hm. apply andb_true_iff in Hm as [Hu _]. specialize (Hdu Hu).
  assert (Z.of_nat (length (m_bytes (msg_of d))) = d_len d) as Hmb by (cbn; rewrite length_take, Hdl; lia).
  rewrite Hmb. cbn [negb]. rewrite orb_false_r.
  destruct (port =? 0); cbn [negb orb andb]; [done|].
  destruct (Z.eqb_spec cap 0) as [->|Hc0].
  { by rewrite (proj2 (Z.leb_gt _ _)) by lia. }
  rewrite (Z.ltb_antisym (d_len d)). destruct (Z.leb_spec (d_len d) cap); cbn [negb]; [|done]. split.
  - split; cbn [ports datagrams g_udp_count]; try apply Hwf;
      [by rewrite length_insert, shift_left_length|unfold QOS_NET_UDP_MAX_DATAGRAMS; lia|].
    apply Forall_insert; [|apply datagram_zero_ok].
    apply Forall_lookup. intros k x Hk. rewrite shift_left_lookup in Hk by lia.
    case_decide; exact (Forall_lookup_1 _ _ _ _ (uw_ok _ Hwf) Hk).
  - unfold udp_abs. cbn [ports datagrams g_udp_count us_bound us_queue us_lost received msg_of m_bytes m_ip m_src].
    rewrite take_insert_ge, shift_left_delete by lia. pose proof (live_le (g_udp_count s) (datagrams s)) as Hle.
    pose proof (take_first_length _ _ _ _ Htf) as Hlf. do 2 f_equal. lia.
Qed.

Definition udp_op_ok (o : udp_op) : Prop := match o with URecv _ cap => 0 <= cap | _ => True end.

Lemma udp_step_refines o s :
  udp_wf s → udp_op_ok o →
  let '(r, out, s') := udp_exec o s in
  udp_wf s' ∧ udp_spec o (udp_abs s) = (r, out, udp_abs s').
Proof.
  intros Hwf Ho. destruct o as [p|p|sp ip dp bytes|p cap]; cbn [udp_exec].
  - pose proof (bind_refines p s Hwf) as H. by destruct (qos_net_udp_bind p s).
  - pose proof (unbind_refines p s Hwf) as H. by destruct (qos_net_udp_unbind p s).
  - pose proof (send_refines sp ip dp bytes s Hwf) as H. by destruct (qos_net_udp_send _ _ _ _ _ s).
  - by apply recv_refines.
Qed.

Fixpoint udp_run (ops : list udp_op) (s : udp) : list (Z * option (list Z * Z * Z)) * udp :=
  match ops with
  | [] => ([], s)
  | o :: ops' => let '(r, out, s1) := udp_exec o s in
                 let '(rs, s2) := udp_run ops' s1 in ((r, out) :: rs, s2)
  end.

Fixpoint udp_spec_run (ops : list udp_op) (S : uspec) : list (Z * option (list Z * Z * Z)) * uspec :=
  match ops with
  | [] => ([], S)
  | o :: ops' => let '(r, out, S1) := udp_spec o S in
                 let '(rs, S2) := udp_spec_run ops' S1 in ((r, out) :: rs, S2)
  end.

Lemma udp_run_refines ops s :
  udp_wf s → Forall udp_op_ok ops →
  let '(rs, s') := udp_run ops s in udp_wf s' ∧ udp_spec_run ops (udp_abs s) = (rs, udp_abs s').
Proof.
  revert s. induction ops as [|o ops IH]; intros s Hwf Hok; cbn [udp_run udp_spec_run]; [done|].
  apply Forall_cons in Hok as [Ho Hok]. pose proof (udp_step_refines o s Hwf Ho) as Hs.
  destruct (udp_exec o s) as [[r out] s1]. destruct Hs as [Hwf1 ->].
  specialize (IH s1 Hwf1 Hok). destruct (udp_run ops s1) as [rs s2]. destruct IH as [? ->]. done.
Qed.

Lemma udp_reset_wf : udp_wf udp_reset.
Proof.
  split; [done|by apply unique_keys_replicate|done|cbn; lia|]. apply Forall_replicate, datagram_zero_ok.
Qed.

Definition uspec_empty : uspec := {| us_bound := ∅; us_queue := []; us_lost := 0 |}.

Lemma udp_reset_abs : udp_abs udp_reset = uspec_empty.
Proof. unfold udp_abs, udp_reset. cbn [ports]. by rewrite table_map_replicate, dom_empty_L. Qed.

(** ** Correctness *)

(** C32: UDP is a set of bound ports and one queue of messages with 64 places, some of which get
    lost.  From reset, every sequence of bind, unbind, send and receive returns the codes
    and data of that specification: a receive returns, whole and with its source, the
    oldest message for its port and leaves the order of the others; a message that does
    not fit the receiver stays; a message to a port nobody has bound is dropped and counts
    as sent; unbinding removes exactly the port's messages, and each of them takes one
    place of the queue away for good; a send to a bound port fails when the messages and the
    lost places together are 64. *)
Theorem udp_refines_message_queue ops :
  Forall udp_op_ok ops →
  let '(rs, s) := udp_run ops udp_reset in
  udp_wf s ∧ udp_spec_run ops uspec_empty = (rs, udp_abs s).
Proof.
  intros Hok. pose proof (udp_run_refines ops _ udp_reset_wf Hok) as H. by rewrite udp_reset_abs in H.
Qed.

Definition demo_udp_ops : list udp_op :=
  [UBind 5000; UBind 6000; USend 2000 7 5000 [1; 2]; USend 2001 8 6000 [3]; USend 2002 9 5000 [4];
   URecv 5000 16; UUnbind 6000; URecv 6000 16; URecv 5000 16].

Lemma udp_refines_message_queue_witness :
  (udp_run demo_udp_ops udp_reset).1
  = [(0, None); (0, None); (2, None); (1, None); (1, None); (2, Some ([1; 2], 7, 2000)); (0, None);
     (-1, None); (1, Some ([4], 9, 2002))].
Proof.
  assert (Forall udp_op_ok demo_udp_ops) as Hok by (repeat constructor; simpl; lia).
  pose proof (udp_refines_message_queue demo_udp_ops Hok) as H.
  destruct (udp_run demo_udp_ops udp_reset) as [rs s]. destruct H as [_ H].
  apply (f_equal fst) in H. cbn [fst] in *. vm_compute in H. exact (eq_sym H).
Defined.

(** A queue that is full although it holds no message stays so. *)
Lemma dead_queue_step o S :
  us_queue S = [] → us_lost S = 64%nat →
  let '(r, out, S') := udp_spec o S in
  us_queue S' = [] ∧ us_lost S' = 64%nat
  ∧ match o with USend _ _ dp _ => dp ∈ us_bound S → r = -1 | _ => True end.
Proof.
  intros Hq Ho. destruct o as [p|p|sp ip dp bytes|p cap]; cbn [udp_spec].
  - by destruct (_ && _).
  - case_bool_decide; [|done]. cbn [us_queue us_lost]. by rewrite Hq, Ho, !filter_nil.
  - destruct (_ && _); [|done]. rewrite Hq, Ho. case_bool_decide as Hb; cbn; [done|]. done.
  - by rewrite Hq.
Qed.

Lemma dead_queue_run ops S :
  us_queue S = [] → us_lost S = 64%nat →
  us_queue (udp_spec_run ops S).2 = [] ∧ us_lost (udp_spec_run ops S).2 = 64%nat.
Proof.
  revert S. induction ops as [|o ops IH]; intros S Hq Ho; cbn [udp_spec_run]; [done|].
  pose proof (dead_queue_step o S Hq Ho) as H. destruct (udp_spec o S) as [[r out] S1]. destruct H as (H1 & H2 & _).
  specialize (IH S1 H1 H2). by destruct (udp_spec_run ops S1).
Qed.

(** Binding a port, sending it 64 messages and unbinding it. *)
Definition fill_and_unbind : list udp_op := UBind 5000 :: replicate 64 (USend 2000 7 5000 [1]) ++ [UUnbind 5000].

(** Unbinding a port never gives back the queue entries of its messages: the
    compaction clears them but leaves the count where it was. After one port
    was filled and unbound, the queue holds no message, and whatever happens
    next every send to a bound port fails. *)
Theorem udp_unbind_leaks_queue ops sp ip dp bytes :
  Forall udp_op_ok ops →
  let '(_, s0) := udp_run fill_and_unbind udp_reset in
  let '(_, s) := udp_run ops s0 in
  us_queue (udp_abs s) = [] ∧ g_udp_count s = 64%nat
  ∧ (udp_port_is_bound dp s = true →
     (qos_net_udp_send sp ip dp (Some bytes) (Z.of_nat (length bytes)) s).1 = -1).
Proof.
  intros Hok.
  assert (Forall udp_op_ok fill_and_unbind) as Hok0.
  { unfold fill_and_unbind. constructor; [done|]. apply Forall_app. split; [by apply Forall_replicate|by repeat constructor]. }
  pose proof (udp_run_refines fill_and_unbind _ udp_reset_wf Hok0) as H0. rewrite udp_reset_abs in H0.
  destruct (udp_run fill_and_unbind udp_reset) as [rs0 s0]. destruct H0 as [Hwf0 H0].
  assert (us_queue (udp_abs s0) = [] ∧ us_lost (udp_abs s0) = 64%nat) as [Hq0 Ho0].
  { assert (udp_abs s0 = (udp_spec_run fill_and_unbind uspec_empty).2) as -> by by rewrite H0.
    split; vm_compute; reflexivity. }
  pose proof (udp_run_refines ops s0 Hwf0 Hok) as H1. destruct (dead_queue_run ops _ Hq0 Ho0) as [Hq Ho].
  destruct (udp_run ops s0) as [rs s]. destruct H1 as [Hwf H1]. rewrite H1 in Hq, Ho. cbn [snd] in Hq, Ho.
  split; [done|]. split.
  { cbn [udp_abs us_queue us_lost] in Hq, Ho. rewrite Hq in Ho. cbn [length] in Ho. lia. }
  intros Hb. rewrite bound_spec in Hb. apply bool_decide_eq_true in Hb.
  pose proof (dead_queue_step (USend sp ip dp bytes) _ Hq Ho) as Hs. pose proof (send_refines sp ip dp bytes s Hwf) as Hr.
  destruct (qos_net_udp_send _ _ _ _ _ s) as [r s']. destruct Hr as [_ Hr]. rewrite Hr in Hs. by apply Hs.
Qed.

Lemma udp_unbind_leaks_queue_witness :
  let '(_, s0) := udp_run fill_and_unbind udp_reset in
  let '(_, s) := udp_run [UBind 6000] s0 in g_udp_count s = 64%nat.
Proof.
  pose proof (udp_unbind_leaks_queue [UBind 6000] 2000 7 6000 [1] ltac:(by repeat constructor)) as H.
  destruct (udp_run fill_and_unbind udp_reset) as [rs0 s0]. destruct (udp_run [UBind 6000] s0) as [rs s].
  exact (proj1 (proj2 H)).
Defined.
