(* ===== verification/Tcp.v ===== *)
(** * TCP listeners and connections (c-os/kernel/net/net.c)

    The listener table, the 128 connection slots and the connection state
    machine driven by [qos_net_tcp_step]. *)

From S2P Require Import Prelude SlotTable.

Definition QOS_NET_TCP_MAX_LISTENERS : nat := 64.
Definition QOS_NET_TCP_MAX_CONNS : nat := 128.
Definition QOS_NET_PORT_MIN_DYNAMIC : Z := 1024.

Inductive tcp_state :=
| CLOSED | LISTEN | SYN_SENT | SYN_RECEIVED | ESTABLISHED | FIN_WAIT_1 | FIN_WAIT_2
| CLOSE_WAIT | CLOSING | LAST_ACK | TIME_WAIT.

#[export] Instance tcp_state_eq_dec : EqDecision tcp_state.
Proof. solve_decision. Defined.

Definition state_code (st : tcp_state) : Z :=
  match st with
  | CLOSED => 0 | LISTEN => 1 | SYN_SENT => 2 | SYN_RECEIVED => 3 | ESTABLISHED => 4 | FIN_WAIT_1 => 5
  | FIN_WAIT_2 => 6 | CLOSE_WAIT => 7 | CLOSING => 8 | LAST_ACK => 9 | TIME_WAIT => 10
  end.

Definition EVT_RX_SYN : Z := 1.
Definition EVT_RX_SYN_ACK : Z := 2.
Definition EVT_RX_ACK : Z := 3.
Definition EVT_APP_CLOSE : Z := 4.
Definition EVT_RX_FIN : Z := 5.
Definition EVT_TIMEOUT : Z := 6.

Record listener := { l_used : bool; l_port : Z }.

#[export] Instance listener_slotted : Slotted listener := l_used.
#[export] Instance listener_keyed : Keyed listener Z := l_port.

Record tcp_conn_t := {
  c_used : bool; c_state : tcp_state; c_local_port : Z; c_remote_port : Z; c_remote_ip : Z;
  c_rto_ms : Z; c_retries : Z
}.

#[export] Instance conn_slotted : Slotted tcp_conn_t := c_used.

Record tcp := { listeners : list listener; conns : list tcp_conn_t }.

Definition listener_zero : listener := {| l_used := false; l_port := 0 |}.

Definition conn_zero : tcp_conn_t :=
  {| c_used := false; c_state := CLOSED; c_local_port := 0; c_remote_port := 0; c_remote_ip := 0;
     c_rto_ms := 0; c_retries := 0 |}.

Definition tcp_reset : tcp :=
  {| listeners := replicate QOS_NET_TCP_MAX_LISTENERS listener_zero;
     conns := replicate QOS_NET_TCP_MAX_CONNS conn_zero |}.

Definition tcp_listener_exists (port : Z) (s : tcp) : bool :=
  match find_key port (listeners s) with Some _ => true | None => false end.

Definition tcp_next_rto (rto_ms : Z) : Z :=
  if 60000 <=? rto_ms then 60000
  else if 30000 <? rto_ms then 60000
  else u32 (rto_ms * 2).

Definition qos_net_tcp_next_rto_ms (current_rto_ms : Z) : Z := tcp_next_rto current_rto_ms.

Definition qos_net_tcp_listen (port : Z) (s : tcp) : Z * tcp :=
  if (port <? QOS_NET_PORT_MIN_DYNAMIC) || tcp_listener_exists port s then (-1, s)
  else
    match free_slot (listeners s) with
    | None => (-1, s)
    | Some i => (Z.of_nat i, {| listeners := <[i := {| l_used := true; l_port := port |}]> (listeners s);
                                conns := conns s |})
    end.

Definition qos_net_tcp_unlisten (port : Z) (s : tcp) : Z * tcp :=
  match find_key port (listeners s) with
  | None => (-1, s)
  | Some i => (0, {| listeners := <[i := listener_zero]> (listeners s); conns := conns s |})
  end.

Definition fresh_conn (local_port remote_ip remote_port : Z) : tcp_conn_t :=
  {| c_used := true; c_state := SYN_SENT; c_local_port := local_port; c_remote_port := remote_port;
     c_remote_ip := remote_ip; c_rto_ms := 500; c_retries := 0 |}.

Definition qos_net_tcp_connect (local_port remote_ip remote_port : Z) (s : tcp) : Z * tcp :=
  if (local_port <? QOS_NET_PORT_MIN_DYNAMIC) || (remote_ip =? 0) || (remote_port =? 0)
     || negb (tcp_listener_exists remote_port s)
  then (-1, s)
  else
    match free_slot (conns s) with
    | None => (-1, s)
    | Some i => (Z.of_nat i, {| listeners := listeners s;
                                conns := <[i := fresh_conn local_port remote_ip remote_port]> (conns s) |})
    end.

Definition set_state (st : tcp_state) (c : tcp_conn_t) : tcp_conn_t :=
  {| c_used := c_used c; c_state := st; c_local_port := c_local_port c; c_remote_port := c_remote_port c;
     c_remote_ip := c_remote_ip c; c_rto_ms := c_rto_ms c; c_retries := c_retries c |}.

(** [conn->retries++; conn->rto_ms = tcp_next_rto(conn->rto_ms);] *)
Definition back_off (c : tcp_conn_t) : tcp_conn_t :=
  {| c_used := c_used c; c_state := c_state c; c_local_port := c_local_port c; c_remote_port := c_remote_port c;
     c_remote_ip := c_remote_ip c; c_rto_ms := tcp_next_rto (c_rto_ms c); c_retries := u8 (c_retries c + 1) |}.

(** The [switch] of [qos_net_tcp_step]: the next state, if the event is accepted. *)
Definition switch (st : tcp_state) (event : Z) : option tcp_state :=
  match st with
  | LISTEN => if event =? EVT_RX_SYN then Some SYN_RECEIVED else None
  | SYN_SENT => if event =? EVT_RX_SYN_ACK then Some ESTABLISHED else None
  | SYN_RECEIVED => if event =? EVT_RX_ACK then Some ESTABLISHED else None
  | ESTABLISHED =>
      if event =? EVT_APP_CLOSE then Some FIN_WAIT_1
      else if event =? EVT_RX_FIN then Some CLOSE_WAIT else None
  | FIN_WAIT_1 =>
      if event =? EVT_RX_ACK then Some FIN_WAIT_2
      else if event =? EVT_RX_FIN then Some CLOSING else None
  | FIN_WAIT_2 => if event =? EVT_RX_FIN then Some TIME_WAIT else None
  | CLOSE_WAIT => if event =? EVT_APP_CLOSE then Some LAST_ACK else None
  | CLOSING => if event =? EVT_RX_ACK then Some TIME_WAIT else None
  | LAST_ACK => if event =? EVT_RX_ACK then Some CLOSED else None
  | CLOSED | TIME_WAIT => None
  end.

(** The step on one connection: the return code and the new record. *)
Definition conn_step (event : Z) (c : tcp_conn_t) : Z * tcp_conn_t :=
  if (event =? EVT_TIMEOUT) && bool_decide (c_state c = TIME_WAIT) then (0, set_state CLOSED c)
  else if (event =? EVT_TIMEOUT) && bool_decide (c_state c = SYN_SENT) then
    if 5 <=? c_retries c then (0, set_state CLOSED c) else (0, back_off c)
  else
    match switch (c_state c) event with
    | Some st => (0, set_state st c)
    | None => (-1, c)
    end.

(** [conn_id < 0 || conn_id >= MAX || !used] *)
Definition live_conn (conn_id : Z) (s : tcp) : option (nat * tcp_conn_t) :=
  if (conn_id <? 0) || (Z.of_nat QOS_NET_TCP_MAX_CONNS <=? u32 conn_id) then None
  else
    match conns s !! Z.to_nat conn_id with
    | Some c => if c_used c then Some (Z.to_nat conn_id, c) else None
    | None => None
    end.

Definition qos_net_tcp_step (conn_id event : Z) (s : tcp) : Z * tcp :=
  match live_conn conn_id s with
  | None => (-1, s)
  | Some (i, c) =>
      let '(r, c') := conn_step event c in
      (r, {| listeners := listeners s; conns := <[i := c']> (conns s) |})
  end.

Definition qos_net_tcp_state (conn_id : Z) (s : tcp) : Z :=
  match live_conn conn_id s with None => -1 | Some (_, c) => state_code (c_state c) end.

Definition qos_net_tcp_rto (conn_id : Z) (s : tcp) : Z :=
  match live_conn conn_id s with None => -1 | Some (_, c) => i32 (c_rto_ms c) end.

Definition qos_net_tcp_retries (conn_id : Z) (s : tcp) : Z :=
  match live_conn conn_id s with None => -1 | Some (_, c) => c_retries c end.

(** ** One connection *)

(** The invariant of a live connection: the retransmission timeout doubles with
    each retry, and the passive states are never entered. *)
Record conn_ok (c : tcp_conn_t) : Prop := {
  co_retries : 0 <= c_retries c <= 5;
  co_rto : c_rto_ms c = 500 * 2 ^ c_retries c;
  co_state : c_state c ≠ LISTEN ∧ c_state c ≠ SYN_RECEIVED
}.

Lemma tcp_next_rto_double r : 0 <= r <= 30000 → tcp_next_rto r = 2 * r.
Proof.
  intros Hr. unfold tcp_next_rto. rewrite (proj2 (Z.leb_gt _ _)), (proj2 (Z.ltb_ge _ _)) by lia.
  rewrite wrap_small by (unfold in_width; lia). lia.
Qed.

Lemma switch_active st event st' :
  st ≠ LISTEN → st ≠ SYN_RECEIVED → switch st event = Some st' → st' ≠ LISTEN ∧ st' ≠ SYN_RECEIVED.
Proof. intros H1 H2 H. destruct st; simpl in H; repeat case_match; simplify_eq; done. Qed.

Lemma conn_step_ok event c : conn_ok c → conn_ok (conn_step event c).2.
Proof.
  intros [Hr Ht [Hs1 Hs2]]. unfold conn_step. destruct (_ && _); [by split|].
  destruct (_ && bool_decide (c_state c = SYN_SENT)) eqn:E.
  - destruct (Z.leb_spec 5 (c_retries c)); [by split|]. cbn [snd].
    rewrite andb_true_iff, bool_decide_eq_true in E. destruct E as [_ E].
    assert (c_rto_ms c <= 500 * 2 ^ 4) as Hb.
    { rewrite Ht. apply Z.mul_le_mono_nonneg_l; [lia|]. apply Z.pow_le_mono_r; lia. }
    assert (0 <= c_rto_ms c) as Hnn by (rewrite Ht; apply Z.mul_nonneg_nonneg; [lia|apply Z.pow_nonneg; lia]).
    split; cbn; [rewrite wrap_small by (unfold in_width; lia); lia| |done].
    rewrite tcp_next_rto_double, wrap_small by (unfold in_width; lia). rewrite Z.pow_add_r, Ht by lia. lia.
  - destruct (switch (c_state c) event) as [st|] eqn:Hsw; [|by split].
    split; [done|done|]. by apply (switch_active (c_state c) event).
Qed.

(** Steps left before a connection is closed for good. *)
Definition state_rank (st : tcp_state) : Z :=
  match st with
  | CLOSED => 0 | TIME_WAIT | LAST_ACK => 1 | FIN_WAIT_2 | CLOSING | CLOSE_WAIT => 2
  | FIN_WAIT_1 => 3 | ESTABLISHED => 4 | SYN_RECEIVED | SYN_SENT => 5 | LISTEN => 6
  end.

Definition rank (c : tcp_conn_t) : Z :=
  state_rank (c_state c) + (if bool_decide (c_state c = SYN_SENT) then 5 - c_retries c else 0).

Lemma switch_rank st event st' :
  switch st event = Some st' → 0 <= state_rank st' < state_rank st ∧ st' ≠ SYN_SENT.
Proof. intros H. destruct st; simpl in H; repeat case_match; simplify_eq; split; (done || (cbn; lia)). Qed.

Lemma rank_nonneg c : conn_ok c → 0 <= rank c.
Proof.
  intros [Hr _ _]. unfold rank. assert (0 <= state_rank (c_state c)) by by destruct (c_state c).
  case_bool_decide; lia.
Qed.

Lemma rank_other c : c_state c ≠ SYN_SENT → rank c = state_rank (c_state c).
Proof. intros H. unfold rank. rewrite bool_decide_eq_false_2 by done. lia. Qed.

Lemma rank_syn c : c_state c = SYN_SENT → rank c = 10 - c_retries c.
Proof. intros H. unfold rank. rewrite bool_decide_eq_true_2, H by done. cbn [state_rank]. lia. Qed.

Lemma conn_step_rank event c r c' :
  conn_ok c → conn_step event c = (r, c') → rank c' + (if r =? 0 then 1 else 0) <= rank c.
Proof.
  intros [Hr _ _] E. unfold conn_step in E.
  destruct ((event =? EVT_TIMEOUT) && bool_decide (c_state c = TIME_WAIT)) eqn:E1.
  { simplify_eq. rewrite andb_true_iff, bool_decide_eq_true in E1. destruct E1 as [_ E1].
    rewrite (rank_other c) by congruence. rewrite rank_other by done. rewrite E1. done. }
  destruct ((event =? EVT_TIMEOUT) && bool_decide (c_state c = SYN_SENT)) eqn:E2.
  { rewrite andb_true_iff, bool_decide_eq_true in E2. destruct E2 as [_ E2]. rewrite (rank_syn c) by done.
    destruct (Z.leb_spec 5 (c_retries c)); simplify_eq.
    - rewrite rank_other by done. cbn. lia.
    - rewrite rank_syn by done. cbn. rewrite wrap_small by (unfold in_width; lia). lia. }
  destruct (switch (c_state c) event) as [st|] eqn:Hsw; simplify_eq; [|cbn; lia].
  apply switch_rank in Hsw as [? Hns]. rewrite (rank_other (set_state st c)) by done. cbn [c_state set_state Z.eqb].
  unfold rank. case_bool_decide; lia.
Qed.

(** ** Runs *)

Fixpoint conn_run (events : list Z) (c : tcp_conn_t) : list Z * tcp_conn_t :=
  match events with
  | [] => ([], c)
  | e :: events' => let '(r, c1) := conn_step e c in
                    let '(rs, c2) := conn_run events' c1 in (r :: rs, c2)
  end.

(** The number of accepted events. *)
Definition accepted (rs : list Z) : nat := count_if (λ r, r =? 0) rs.

Lemma conn_run_rank events c :
  conn_ok c →
  let '(rs, c') := conn_run events c in
  conn_ok c' ∧ rank c' + Z.of_nat (accepted rs) <= rank c.
Proof.
  revert c. induction events as [|e events IH]; intros c Hok; cbn [conn_run]; [cbn; split; [done|lia]|].
  pose proof (conn_step_ok e c Hok) as Hok1. destruct (conn_step e c) as [r c1] eqn:E. cbn [snd] in Hok1.
  pose proof (conn_step_rank e c r c1 Hok E). specialize (IH c1 Hok1). destruct (conn_run events c1) as [rs c2].
  destruct IH as [? ?]. split; [done|]. unfold accepted in *. cbn [count_if]. destruct (r =? 0); lia.
Qed.

Lemma fresh_conn_ok lp ip rp : conn_ok (fresh_conn lp ip rp).
Proof. split; cbn; [lia|done|done]. Qed.

(** C38: A connection lives a bounded number of transitions. From connect, every
    sequence of events makes at most ten accepted transitions (five
    retransmissions and five state changes); the retransmission timeout is
    always 500 ms doubled per retry, at most 16 s, the retries never exceed
    five, the passive states are never entered, and a closed connection
    accepts no event at all. *)
Theorem tcp_connection_bounded events lp ip rp (e : Z) :
  let '(rs, c) := conn_run events (fresh_conn lp ip rp) in
  (accepted rs <= 10)%nat
  ∧ 0 <= c_retries c <= 5 ∧ c_rto_ms c = 500 * 2 ^ c_retries c ∧ c_rto_ms c <= 16000
  ∧ c_state c ≠ LISTEN ∧ c_state c ≠ SYN_RECEIVED
  ∧ (c_state c = CLOSED → conn_step e c = (-1, c)).
Proof.
  pose proof (conn_run_rank events _ (fresh_conn_ok lp ip rp)) as H.
  destruct (conn_run events (fresh_conn lp ip rp)) as [rs c]. destruct H as [Hok Hr].
  pose proof (rank_nonneg c Hok). change (rank (fresh_conn lp ip rp)) with 10 in Hr.
  destruct Hok as [H1 H2 [H3 H4]]. split; [lia|]. split; [done|]. split; [done|]. split; [|split; [done|split; [done|]]].
  - rewrite H2. change 16000 with (500 * 2 ^ 5). apply Z.mul_le_mono_nonneg_l; [lia|]. apply Z.pow_le_mono_r; lia.
  - intros Hc. unfold conn_step. rewrite Hc. by destruct (e =? EVT_TIMEOUT).
Qed.

Lemma conn_step_closed e c : c_state c = CLOSED → conn_step e c = (-1, c).
Proof. intros Hc. unfold conn_step. rewrite Hc. by destruct (e =? EVT_TIMEOUT). Qed.

Lemma conn_run_closed events c : c_state c = CLOSED → (conn_run events c).2 = c.
Proof.
  intros Hc. induction events as [|e events IH]; cbn [conn_run]; [done|].
  rewrite conn_step_closed by done. by destruct (conn_run events c).
Qed.

(** While no SYN-ACK arrives only timeouts count. *)
Lemma conn_run_unanswered evs c :
  EVT_RX_SYN_ACK ∉ evs → conn_ok c → c_state c = SYN_SENT →
  let k := Z.of_nat (count_if (λ e, e =? EVT_TIMEOUT) evs) in
  let c' := (conn_run evs c).2 in
  conn_ok c' ∧ if c_retries c + k <=? 5
               then c_state c' = SYN_SENT ∧ c_retries c' = c_retries c + k
               else c_state c' = CLOSED.
Proof.
  revert c. induction evs as [|e evs IH]; intros c Hni Hok Hs; cbn [conn_run count_if].
  { pose proof (co_retries _ Hok). rewrite (proj2 (Z.leb_le _ _)) by (cbn; lia). cbn [snd]. split_and!; [done..|lia]. }
  apply not_elem_of_cons in Hni as [Hne Hni]. pose proof (conn_step_ok e c Hok) as Hok1.
  pose proof (co_retries _ Hok) as Hr. unfold conn_step in *. rewrite Hs in *.
  rewrite (bool_decide_eq_false_2 (SYN_SENT = TIME_WAIT)), andb_false_r in * by done.
  rewrite (bool_decide_eq_true_2 (SYN_SENT = SYN_SENT)), andb_true_r in * by done.
  destruct (Z.eqb_spec e EVT_TIMEOUT) as [->|Hnt].
  - destruct (Z.leb_spec 5 (c_retries c)) as [H5|H5].
    + rewrite (proj2 (Z.leb_gt _ _)) by lia. pose proof (conn_run_closed evs (set_state CLOSED c) eq_refl) as E.
      destruct (conn_run evs (set_state CLOSED c)) as [rs c']. cbn [snd] in *. by subst c'.
    + specialize (IH (back_off c) Hni Hok1 Hs). destruct (conn_run evs (back_off c)) as [rs c'].
      cbn [snd fst c_retries back_off] in *. rewrite wrap_small in IH by (unfold in_width; lia).
      by replace (c_retries c + Z.of_nat (1 + count_if (λ e, e =? EVT_TIMEOUT) evs))
        with (c_retries c + 1 + Z.of_nat (count_if (λ e, e =? EVT_TIMEOUT) evs)) by lia.
  - cbn [switch] in *. rewrite (proj2 (Z.eqb_neq e EVT_RX_SYN_ACK)) in * by congruence.
    specialize (IH c Hni Hok Hs). by destruct (conn_run evs c).
Qed.

(** A connection gets established only by a SYN-ACK: if it is ever in a state
    other than SYN_SENT and CLOSED, the events contain one. Without one, [k]
    timeouts leave it retrying with a timeout of [500 * 2^k] ms as long as
    [k <= 5], and the sixth closes it. *)
Theorem tcp_handshake events lp ip rp :
  let c := (conn_run events (fresh_conn lp ip rp)).2 in
  let k := Z.of_nat (count_if (λ e, e =? EVT_TIMEOUT) events) in
  (c_state c ≠ SYN_SENT → c_state c ≠ CLOSED → EVT_RX_SYN_ACK ∈ events)
  ∧ (EVT_RX_SYN_ACK ∉ events →
     if k <=? 5 then c_state c = SYN_SENT ∧ c_retries c = k ∧ c_rto_ms c = 500 * 2 ^ k
     else c_state c = CLOSED).
Proof.
  intros c k.
  assert (EVT_RX_SYN_ACK ∉ events →
     if k <=? 5 then c_state c = SYN_SENT ∧ c_retries c = k ∧ c_rto_ms c = 500 * 2 ^ k
     else c_state c = CLOSED) as H.
  { intros Hni. pose proof (conn_run_unanswered events (fresh_conn lp ip rp) Hni (fresh_conn_ok lp ip rp) eq_refl) as [Hok H].
    fold c k in Hok, H. change (c_retries (fresh_conn lp ip rp)) with 0 in H. rewrite Z.add_0_l in H.
    destruct (k <=? 5); [|done]. destruct H as [H1 H2]. split; [done|]. split; [done|].
    rewrite <- H2. apply Hok. }
  split; [|done]. intros H1 H2. destruct (decide (EVT_RX_SYN_ACK ∈ events)) as [|Hni]; [done|].
  specialize (H Hni). destruct (k <=? 5); naive_solver.
Qed.

(** ** The tables *)

Inductive tcp_op :=
| TListen (port : Z) | TUnlisten (port : Z) | TConnect (lp ip rp : Z) | TStep (conn_id event : Z).

Definition tcp_exec (o : tcp_op) (s : tcp) : Z * tcp :=
  match o with
  | TListen p => qos_net_tcp_listen p s
  | TUnlisten p => qos_net_tcp_unlisten p s
  | TConnect lp ip rp => qos_net_tcp_connect lp ip rp s
  | TStep i e => qos_net_tcp_step i e s
  end.

Definition tcp_run (ops : list tcp_op) (s : tcp) : tcp := foldl (λ s o, (tcp_exec o s).2) s ops.

Lemma live_conn_Some conn_id s i c :
  live_conn conn_id s = Some (i, c) → i = Z.to_nat conn_id ∧ conns s !! i = Some c ∧ c_used c = true.
Proof. unfold live_conn. intros H. repeat case_match; simplify_eq. done. Qed.

Lemma conn_step_used e c : c_used (conn_step e c).2 = c_used c.
Proof. unfold conn_step. repeat case_match; done. Qed.

Lemma tcp_exec_conns o s :
  length (conns (tcp_exec o s).2) = length (conns s)
  ∧ (count_used (conns s) <= count_used (conns (tcp_exec o s).2))%nat.
Proof.
  destruct o as [p|p|lp ip rp|i e]; cbn [tcp_exec].
  - unfold qos_net_tcp_listen. repeat case_match; cbn; done.
  - unfold qos_net_tcp_unlisten. repeat case_match; cbn; done.
  - unfold qos_net_tcp_connect. destruct (_ || _); [done|].
    destruct (free_slot (conns s)) as [j|] eqn:Hj; [|done]. cbn [snd conns]. rewrite length_insert. split; [done|].
    apply free_slot_Some in Hj as (b & Hb & Hub).
    rewrite (count_used_alloc _ _ _ (fresh_conn lp ip rp) Hb Hub eq_refl). lia.
  - unfold qos_net_tcp_step. destruct (live_conn i s) as [[j c]|] eqn:Hl; [|done].
    apply live_conn_Some in Hl as (_ & Hc & _). pose proof (conn_step_used e c) as Hu.
    destruct (conn_step e c) as [r c']. cbn [snd conns] in *. rewrite length_insert. split; [done|].
    rewrite (count_used_update (conns s) j c c' Hc) by (symmetry; exact Hu). done.
Qed.

Lemma tcp_run_conns ops s :
  length (conns (tcp_run ops s)) = length (conns s)
  ∧ (count_used (conns s) <= count_used (conns (tcp_run ops s)))%nat.
Proof.
  revert s. induction ops as [|o ops IH]; intros s; [done|]. unfold tcp_run in *. cbn [foldl].
  destruct (IH (tcp_exec o s).2) as [H1 H2]. destruct (tcp_exec_conns o s) as [H3 H4]. split; [congruence|lia].
Qed.

(** Connection slots are never released. No sequence of operations lowers the
    number of used slots, closed connections included, so once 128 connections
    have been made every later connect fails. *)
Theorem tcp_slots_never_released ops s :
  length (conns s) = QOS_NET_TCP_MAX_CONNS →
  (count_used (conns s) <= count_used (conns (tcp_run ops s)))%nat
  ∧ (count_used (conns s) = QOS_NET_TCP_MAX_CONNS →
     ∀ lp ip rp, (qos_net_tcp_connect lp ip rp (tcp_run ops s)).1 = -1).
Proof.
  intros Hl. destruct (tcp_run_conns ops s) as [Hl' Hc]. split; [done|]. intros H128 lp ip rp.
  unfold qos_net_tcp_connect. destruct (_ || _); [done|].
  assert (free_slot (conns (tcp_run ops s)) = None) as ->; [|done]. apply free_slot_None.
  pose proof (count_if_le slot_used (conns (tcp_run ops s))). unfold count_used in *. lia.
Qed.

(** One listener, 128 connects and a close of each of them. *)
Definition full_tcp : tcp :=
  tcp_run (TListen 2000 :: replicate 128 (TConnect 3000 1 2000)) tcp_reset.

Lemma tcp_slots_never_released_witness :
  (qos_net_tcp_connect 3000 1 2000 (tcp_run (replicate 6 (TStep 5 EVT_TIMEOUT)) full_tcp)).1 = -1.
Proof.
  refine (proj2 (tcp_slots_never_released (replicate 6 (TStep 5 EVT_TIMEOUT)) full_tcp _) _ 3000 1 2000);
    vm_compute; reflexivity.
Defined.

(** The events a sequence of steps delivers to one connection. *)
Definition events_for (i : nat) (steps : list (Z * Z)) : list Z :=
  omap (λ '(conn_id, e), if bool_decide (conn_id = Z.of_nat i) then Some e else None) steps.

Definition step_all (steps : list (Z * Z)) (s : tcp) : tcp :=
  foldl (λ s '(conn_id, e), (qos_net_tcp_step conn_id e s).2) s steps.

Lemma step_other conn_id e s i :
  conn_id ≠ Z.of_nat i → conns (qos_net_tcp_step conn_id e s).2 !! i = conns s !! i.
Proof.
  intros Hne. unfold qos_net_tcp_step. destruct (live_conn conn_id s) as [[j c]|] eqn:Hl; [|done].
  assert (0 <= conn_id) as H0.
  { unfold live_conn in Hl. destruct (Z.ltb_spec conn_id 0); [done|lia]. }
  apply live_conn_Some in Hl as (-> & _ & _). destruct (conn_step e c) as [r c']. cbn.
  by rewrite list_lookup_insert_ne by lia.
Qed.

Lemma step_self e s i c :
  length (conns s) = QOS_NET_TCP_MAX_CONNS → conns s !! i = Some c → c_used c = true →
  qos_net_tcp_step (Z.of_nat i) e s
  = ((conn_step e c).1, {| listeners := listeners s; conns := <[i := (conn_step e c).2]> (conns s) |}).
Proof.
  intros Hl Hc Hu. pose proof (lookup_lt_Some _ _ _ Hc) as Hi. rewrite Hl in Hi.
  unfold qos_net_tcp_step, live_conn, QOS_NET_TCP_MAX_CONNS in *.
  rewrite (proj2 (Z.ltb_ge _ _)), wrap_small, (proj2 (Z.leb_gt _ _)) by (unfold in_width; lia). cbn [orb].
  rewrite Nat2Z.id, Hc, Hu. by destruct (conn_step e c).
Qed.

(** Connections are independent. After any interleaving of steps on any ids,
    a live connection is where its own events alone would have brought it. *)
Theorem tcp_connections_independent steps s i c :
  length (conns s) = QOS_NET_TCP_MAX_CONNS → conns s !! i = Some c → c_used c = true →
  conns (step_all steps s) !! i = Some (conn_run (events_for i steps) c).2.
Proof.
  revert s c. induction steps as [|[conn_id e] steps IH]; intros s c Hl Hc Hu; [done|].
  unfold step_all in *. cbn [foldl]. unfold events_for in *. cbn [omap list_omap].
  pose proof (tcp_exec_conns (TStep conn_id e) s) as [Hl1 _]. cbn [tcp_exec] in Hl1.
  case_bool_decide as Hid.
  - subst conn_id. pose proof (conn_step_used e c) as Hu1.
    rewrite (step_self e s i c Hl Hc Hu) in Hl1 |- *. cbn [conn_run].
    destruct (conn_step e c) as [r c1]. cbn [fst snd] in *.
    rewrite (IH _ c1); [|by rewrite Hl1| |by rewrite Hu1].
    + by destruct (conn_run _ c1).
    + cbn. apply list_lookup_insert_eq. by eapply lookup_lt_Some.
  - apply IH; [congruence| |done]. by rewrite step_other.
Qed.

Lemma tcp_connections_independent_witness :
  conns (step_all [(0, EVT_RX_SYN_ACK); (1, EVT_TIMEOUT); (0, EVT_APP_CLOSE)] full_tcp) !! 0%nat
  = Some (conn_run [EVT_RX_SYN_ACK; EVT_APP_CLOSE] (fresh_conn 3000 1 2000)).2.
Proof.
  refine (tcp_connections_independent [(0, EVT_RX_SYN_ACK); (1, EVT_TIMEOUT); (0, EVT_APP_CLOSE)] full_tcp 0
    (fresh_conn 3000 1 2000) _ _ _); vm_compute; reflexivity.
Defined.
