(* ===== verification/Proc.v ===== *)
(** * Processes and signals (c-os/kernel/proc/proc.c)

    256 process slots with identity, exit status, working directory, generated
    name, signal state and the image of the last exec.  The file models every
    operation of proc.c, shows that the table refines a map from pids to
    process control blocks, and states what signal delivery, exit and wait do. *)

From Stdlib Require Import Ascii.
From S2P Require Import Prelude SlotTable NameBuf.

Definition QOS_PROC_MAX : nat := 256.
Definition QOS_SIGNAL_MAX : nat := 32.
Definition QOS_WAIT_WNOHANG : Z := 1.
Definition QOS_PROC_CWD_MAX : nat := 128.
Definition QOS_PROC_NAME_MAX : nat := NAME_MAX.
Definition QOS_SIG_TRAMPOLINE_VA : Z := 0x00007FFF00000000.

Definition QOS_SIG_DFL : Z := 0.
Definition QOS_SIG_IGN : Z := 1.
Definition QOS_SIGKILL : Z := 9.
Definition QOS_SIGSTOP : Z := 19.

Record qos_sigaltstack_t := { alt_sp : Z; alt_size : Z; alt_flags : Z }.

Record qos_sigframe_t := { pretcode : Z; signum : Z; saved_mask : Z; saved_handler : Z }.

Record qos_proc_exec_image_t := {
  entry : Z; phoff : Z; phentsize : Z; phnum : Z; load_count : Z; has_interp : Z;
  interp_off : Z; interp_len : Z
}.

(** [g_exited], [g_stopped], [g_exit_code]. *)
Record life := { exited : bool; stopped : bool; exit_code : Z }.

(** [g_sig_handlers], [g_sig_pending], [g_sig_blocked], [g_sig_altstack_*]. *)
Record signals := {
  sig_handlers : list Z; sig_pending : Z; sig_blocked : Z; sig_altstack : qos_sigaltstack_t
}.

(** One index of the parallel arrays.  A working-directory row is the C string
    it holds; a name row is its 32 bytes. *)
Record proc := {
  p_used : bool; p_pid : Z; p_ppid : Z; p_life : life;
  p_cwd : string; p_cwd_len : Z; p_name : list Z; p_name_len : Z;
  p_sig : signals; p_exec : qos_proc_exec_image_t
}.

#[export] Instance proc_slotted : Slotted proc := p_used.
#[export] Instance proc_keyed : Keyed proc Z := p_pid.

Record procs := { table : list proc; g_count : Z }.

Definition signum_valid (sg : Z) : bool := (0 <? sg) && (sg <? Z.of_nat QOS_SIGNAL_MAX).

Definition signum_bit (sg : Z) : Z := bit sg.

Definition unmaskable_bits : Z := Z.lor (signum_bit QOS_SIGKILL) (signum_bit QOS_SIGSTOP).

Definition altstack_zero : qos_sigaltstack_t := {| alt_sp := 0; alt_size := 0; alt_flags := 0 |}.

Definition init_signal_state : signals :=
  {| sig_handlers := replicate QOS_SIGNAL_MAX 0; sig_pending := 0; sig_blocked := 0;
     sig_altstack := altstack_zero |}.

Definition init_exec_image_state : qos_proc_exec_image_t :=
  {| entry := 0; phoff := 0; phentsize := 0; phnum := 0; load_count := 0; has_interp := 0;
     interp_off := 0; interp_len := 0 |}.

Definition life_zero : life := {| exited := false; stopped := false; exit_code := 0 |}.

Definition proc_zero : proc :=
  {| p_used := false; p_pid := 0; p_ppid := 0; p_life := life_zero; p_cwd := ""; p_cwd_len := 0;
     p_name := replicate QOS_PROC_NAME_MAX 0; p_name_len := 0;
     p_sig := init_signal_state; p_exec := init_exec_image_state |}.

Definition get_proc (i : nat) (s : procs) : proc := default proc_zero (table s !! i).

Definition set_proc (i : nat) (p : proc) (s : procs) : procs :=
  {| table := <[i := p]> (table s); g_count := g_count s |}.

Definition set_count (n : Z) (s : procs) : procs := {| table := table s; g_count := n |}.

Definition with_life (l : life) (p : proc) : proc :=
  {| p_used := p_used p; p_pid := p_pid p; p_ppid := p_ppid p; p_life := l; p_cwd := p_cwd p;
     p_cwd_len := p_cwd_len p; p_name := p_name p; p_name_len := p_name_len p;
     p_sig := p_sig p; p_exec := p_exec p |}.

Definition with_cwd (c : string) (n : Z) (p : proc) : proc :=
  {| p_used := p_used p; p_pid := p_pid p; p_ppid := p_ppid p; p_life := p_life p; p_cwd := c;
     p_cwd_len := n; p_name := p_name p; p_name_len := p_name_len p;
     p_sig := p_sig p; p_exec := p_exec p |}.

Definition with_sig (sg : signals) (p : proc) : proc :=
  {| p_used := p_used p; p_pid := p_pid p; p_ppid := p_ppid p; p_life := p_life p; p_cwd := p_cwd p;
     p_cwd_len := p_cwd_len p; p_name := p_name p; p_name_len := p_name_len p;
     p_sig := sg; p_exec := p_exec p |}.

Definition with_exec (im : qos_proc_exec_image_t) (p : proc) : proc :=
  {| p_used := p_used p; p_pid := p_pid p; p_ppid := p_ppid p; p_life := p_life p; p_cwd := p_cwd p;
     p_cwd_len := p_cwd_len p; p_name := p_name p; p_name_len := p_name_len p;
     p_sig := p_sig p; p_exec := im |}.

Definition set_handlers (h : list Z) (g : signals) : signals :=
  {| sig_handlers := h; sig_pending := sig_pending g; sig_blocked := sig_blocked g; sig_altstack := sig_altstack g |}.

Definition set_pending (b : Z) (g : signals) : signals :=
  {| sig_handlers := sig_handlers g; sig_pending := b; sig_blocked := sig_blocked g; sig_altstack := sig_altstack g |}.

Definition set_blocked (b : Z) (g : signals) : signals :=
  {| sig_handlers := sig_handlers g; sig_pending := sig_pending g; sig_blocked := b; sig_altstack := sig_altstack g |}.

Definition set_altstack (a : qos_sigaltstack_t) (g : signals) : signals :=
  {| sig_handlers := sig_handlers g; sig_pending := sig_pending g; sig_blocked := sig_blocked g; sig_altstack := a |}.

(** ** Operations *)

(** [path == 0 || path[0] != '/'], then the length test. *)
Definition cwd_set_idx (i : nat) (path : option string) (s : procs) : Z * procs :=
  match path with
  | Some (String c rest) =>
      if negb (Ascii.eqb c "/") then (-1, s)
      else
        let len := String.length (String c rest) in
        if (len =? 0)%nat || (QOS_PROC_CWD_MAX <=? len)%nat then (-1, s)
        else (0, set_proc i (with_cwd (String c rest) (u8 (Z.of_nat len)) (get_proc i s)) s)
  | _ => (-1, s)
  end.

(** "proc-" *)
Definition prefix : list Z := [112; 114; 111; 99; 45].

Definition write_u32_ascii : list Z → nat → nat → Z → nat * list Z := NameBuf.write_u32_ascii.

Definition init_name_idx (i : nat) (pid : Z) (s : procs) : procs :=
  let p := get_proc i s in
  let '(nm, len) := init_name prefix (p_name p) pid in
  set_proc i {| p_used := p_used p; p_pid := p_pid p; p_ppid := p_ppid p; p_life := p_life p;
                p_cwd := p_cwd p; p_cwd_len := p_cwd_len p; p_name := nm; p_name_len := len;
                p_sig := p_sig p; p_exec := p_exec p |} s.

Definition find_pid (pid : Z) (s : procs) : option nat := find_key pid (table s).

Definition qos_proc_reset : procs :=
  {| table := replicate QOS_PROC_MAX proc_zero; g_count := 0 |}.

(** The stores common to create and fork: the slot is live, running, with the
    given identity. *)
Definition claim_slot (i : nat) (pid ppid : Z) (s : procs) : procs :=
  let p := get_proc i s in
  set_proc i {| p_used := true; p_pid := pid; p_ppid := ppid; p_life := life_zero;
                p_cwd := p_cwd p; p_cwd_len := p_cwd_len p; p_name := p_name p;
                p_name_len := p_name_len p; p_sig := p_sig p; p_exec := p_exec p |} s.

Definition qos_proc_create (pid ppid : Z) (s : procs) : Z * procs :=
  if pid =? 0 then (-1, s)
  else
    match find_pid pid s with
    | Some _ => (-1, s)
    | None =>
        match free_slot (table s) with
        | None => (-1, s)
        | Some i =>
            let s1 := claim_slot i pid ppid s in
            let '(r, s2) := cwd_set_idx i (Some "/"%string) s1 in
            if negb (r =? 0) then (-1, s2)
            else
              let s3 := init_name_idx i pid s2 in
              let s4 := set_proc i (with_sig init_signal_state (get_proc i s3)) s3 in
              let s5 := set_proc i (with_exec init_exec_image_state (get_proc i s4)) s4 in
              (0, set_count (u32 (g_count s5 + 1)) s5)
        end
    end.

(** Handlers, mask and alternate stack are copied; nothing is pending. *)
Definition fork_signals (g : signals) : signals :=
  {| sig_handlers := sig_handlers g; sig_pending := 0; sig_blocked := sig_blocked g;
     sig_altstack := sig_altstack g |}.

Definition qos_proc_fork (parent_pid child_pid : Z) (s : procs) : Z * procs :=
  if (child_pid =? 0) || bool_decide (is_Some (find_pid child_pid s)) then (-1, s)
  else
    match find_pid parent_pid s with
    | None => (-1, s)
    | Some parent_idx =>
        match free_slot (table s) with
        | None => (-1, s)
        | Some child_idx =>
            let s1 := claim_slot child_idx child_pid parent_pid s in
            let par := get_proc parent_idx s1 in
            let s2 := set_proc child_idx (with_cwd (p_cwd par) (p_cwd_len par) (get_proc child_idx s1)) s1 in
            let s3 := init_name_idx child_idx child_pid s2 in
            let par := get_proc parent_idx s3 in
            let s4 := set_proc child_idx (with_sig (fork_signals (p_sig par)) (get_proc child_idx s3)) s3 in
            let s5 := set_proc child_idx (with_exec (p_exec par) (get_proc child_idx s4)) s4 in
            (0, set_count (u32 (g_count s5 + 1)) s5)
        end
    end.

(** Name buffers keep what follows the first byte. *)
Definition qos_proc_remove (pid : Z) (s : procs) : Z * procs :=
  match find_pid pid s with
  | None => (-1, s)
  | Some i =>
      let p := get_proc i s in
      (0, set_count (u32 (g_count s - 1))
            (set_proc i {| p_used := false; p_pid := 0; p_ppid := 0; p_life := life_zero;
                           p_cwd := ""; p_cwd_len := 0; p_name := <[0%nat := 0]> (p_name p);
                           p_name_len := 0; p_sig := init_signal_state;
                           p_exec := init_exec_image_state |} s))
  end.

Definition qos_proc_parent (pid : Z) (s : procs) : Z :=
  match find_pid pid s with None => -1 | Some i => i32 (p_ppid (get_proc i s)) end.

Definition qos_proc_alive (pid : Z) (s : procs) : Z :=
  match find_pid pid s with
  | None => 0
  | Some i => if exited (p_life (get_proc i s)) then 0 else 1
  end.

Definition qos_proc_count (s : procs) : Z := g_count s.

(** [out] tells whether the out pointer is not NULL; the bytes copied. *)
Definition qos_proc_name_get (pid : Z) (out : bool) (out_len : Z) (s : procs) : Z * option (list Z) :=
  match find_pid pid s with
  | None => (-1, None)
  | Some i =>
      if negb out || (out_len =? 0) then (-1, None)
      else
        let len := p_name_len (get_proc i s) in
        if out_len <? len + 1 then (-1, None)
        else (len, Some (take (Z.to_nat (len + 1)) (p_name (get_proc i s))))
  end.

Definition qos_proc_exit (pid code : Z) (s : procs) : Z * procs :=
  match find_pid pid s with
  | None => (-1, s)
  | Some i =>
      let p := get_proc i s in
      if exited (p_life p) then (-1, s)
      else (0, set_proc i (with_life {| exited := true; stopped := false; exit_code := code |} p) s)
  end.

Definition is_zombie_child (parent_pid : Z) (p : proc) : bool :=
  p_used p && (p_ppid p =? parent_pid) && exited (p_life p).

Definition no_hang (options : Z) : Z := if negb (Z.land options QOS_WAIT_WNOHANG =? 0) then 0 else -1.

(** The tail of wait: report the status, remove the process, return its pid. *)
Definition reap (i : nat) (out : bool) (s : procs) : Z * option Z * procs :=
  let p := get_proc i s in
  let pid := i32 (p_pid p) in
  let '(_, s') := qos_proc_remove (u32 pid) s in
  (pid, if out then Some (exit_code (p_life p)) else None, s').

(** [pid] is an int32; the status written through [out_status] when not NULL. *)
Definition qos_proc_wait (parent_pid pid : Z) (out : bool) (options : Z) (s : procs) : Z * option Z * procs :=
  match find_pid parent_pid s with
  | None => (-1, None, s)
  | Some _ =>
      if pid =? -1 then
        match first_index (is_zombie_child parent_pid) (table s) with
        | None => (no_hang options, None, s)
        | Some i => reap i out s
        end
      else
        match find_pid (u32 pid) s with
        | None => (no_hang options, None, s)
        | Some i =>
            if negb (p_ppid (get_proc i s) =? parent_pid) then (-1, None, s)
            else if negb (exited (p_life (get_proc i s))) then (no_hang options, None, s)
            else reap i out s
        end
  end.

Definition qos_proc_cwd_set (pid : Z) (path : option string) (s : procs) : Z * procs :=
  match find_pid pid s with None => (-1, s) | Some i => cwd_set_idx i path s end.

Definition qos_proc_cwd_get (pid : Z) (out : bool) (out_len : Z) (s : procs) : Z * option string :=
  match find_pid pid s with
  | None => (-1, None)
  | Some i =>
      if negb out || (out_len =? 0) then (-1, None)
      else
        let len := p_cwd_len (get_proc i s) in
        if out_len <? len + 1 then (-1, None) else (len, Some (p_cwd (get_proc i s)))
  end.

(** [for (s = 1; s < QOS_SIGNAL_MAX; s++)] over the handler row. *)
Definition keep_ignored (h : list Z) : list Z :=
  imap (λ n v, if (n =? 0)%nat then v else if v =? QOS_SIG_IGN then v else QOS_SIG_DFL) h.

Definition qos_proc_exec_signal_reset (pid : Z) (s : procs) : Z * procs :=
  match find_pid pid s with
  | None => (-1, s)
  | Some i =>
      let g := p_sig (get_proc i s) in
      (0, set_proc i (with_sig {| sig_handlers := keep_ignored (sig_handlers g); sig_pending := 0;
                                  sig_blocked := Z.land (sig_blocked g) (bnot 32 unmaskable_bits);
                                  sig_altstack := sig_altstack g |} (get_proc i s)) s)
  end.

Definition qos_proc_exec_image_set (pid : Z) (image : option qos_proc_exec_image_t) (s : procs) : Z * procs :=
  match find_pid pid s, image with
  | Some i, Some im => (0, set_proc i (with_exec im (get_proc i s)) s)
  | _, _ => (-1, s)
  end.

Definition qos_proc_exec_image_get (pid : Z) (out : bool) (s : procs) : Z * option qos_proc_exec_image_t :=
  match find_pid pid s with
  | Some i => if out then (0, Some (p_exec (get_proc i s))) else (-1, None)
  | None => (-1, None)
  end.

Definition handler_at (sg : Z) (p : proc) : Z := nth (Z.to_nat sg) (sig_handlers (p_sig p)) 0.

Definition qos_proc_signal_set_handler (pid sg handler : Z) (s : procs) : Z * procs :=
  match find_pid pid s with
  | None => (-1, s)
  | Some i =>
      if negb (signum_valid sg) then (-1, s)
      else if ((sg =? QOS_SIGKILL) || (sg =? QOS_SIGSTOP)) && negb (handler =? QOS_SIG_DFL) then (-1, s)
      else
        let p := get_proc i s in
        (0, set_proc i (with_sig (set_handlers (<[Z.to_nat sg := handler]> (sig_handlers (p_sig p))) (p_sig p)) p) s)
  end.

Definition qos_proc_signal_get_handler (pid sg : Z) (out : bool) (s : procs) : Z * option Z :=
  match find_pid pid s with
  | None => (-1, None)
  | Some i => if negb (signum_valid sg) || negb out then (-1, None) else (0, Some (handler_at sg (get_proc i s)))
  end.

Definition qos_proc_signal_set_mask (pid mask : Z) (s : procs) : Z * procs :=
  match find_pid pid s with
  | None => (-1, s)
  | Some i =>
      let p := get_proc i s in
      (0, set_proc i (with_sig (set_blocked (Z.land mask (bnot 32 unmaskable_bits)) (p_sig p)) p) s)
  end.

Definition qos_proc_signal_mask (pid : Z) (out : bool) (s : procs) : Z * option Z :=
  match find_pid pid s with
  | Some i => if out then (0, Some (sig_blocked (p_sig (get_proc i s)))) else (-1, None)
  | None => (-1, None)
  end.

Definition qos_proc_signal_pending (pid : Z) (out : bool) (s : procs) : Z * option Z :=
  match find_pid pid s with
  | Some i => if out then (0, Some (sig_pending (p_sig (get_proc i s)))) else (-1, None)
  | None => (-1, None)
  end.

Definition qos_proc_signal_send (pid sg : Z) (s : procs) : Z * procs :=
  match find_pid pid s with
  | None => (-1, s)
  | Some i =>
      if negb (signum_valid sg) then (-1, s)
      else
        let p := get_proc i s in
        (0, set_proc i (with_sig (set_pending (Z.lor (sig_pending (p_sig p)) (signum_bit sg)) (p_sig p)) p) s)
  end.

(** What the default action of a signal does to a process: 17 nothing, 18
    continues, 19 to 22 stop, every other one terminates. *)
Definition default_life (sg : Z) (l : life) : life :=
  if sg =? 17 then l
  else if sg =? 18 then {| exited := exited l; stopped := false; exit_code := exit_code l |}
  else if (sg =? QOS_SIGSTOP) || (sg =? 20) || (sg =? 21) || (sg =? 22)
  then {| exited := exited l; stopped := true; exit_code := exit_code l |}
  else {| exited := true; stopped := false; exit_code := 128 + sg |}.

Definition qos_proc_signal_apply_default (pid sg : Z) (s : procs) : Z * procs :=
  match find_pid pid s with
  | None => (-1, s)
  | Some i =>
      if negb (signum_valid sg) then (-1, s)
      else (0, set_proc i (with_life (default_life sg (p_life (get_proc i s))) (get_proc i s)) s)
  end.

(** [(pending & ~blocked) | (pending & unmaskable_bits())] *)
Definition deliverable (pending blocked : Z) : Z :=
  Z.lor (Z.land pending (bnot 32 blocked)) (Z.land pending unmaskable_bits).

(** [for (s = 1; s < QOS_SIGNAL_MAX; s++)] with its [continue] and [return]. *)
Fixpoint next_loop (pid : Z) (i : nat) (d : Z) (sgs : list Z) (s : procs) : Z * procs :=
  match sgs with
  | [] => (0, s)
  | sg :: sgs' =>
      if negb (Z.land d (signum_bit sg) =? 0) then
        let p := get_proc i s in
        let handler := handler_at sg p in
        let s1 := set_proc i (with_sig (set_pending (Z.land (sig_pending (p_sig p)) (bnot 32 (signum_bit sg))) (p_sig p)) p) s in
        if handler =? QOS_SIG_IGN then next_loop pid i d sgs' s1
        else if handler =? QOS_SIG_DFL then (sg, (qos_proc_signal_apply_default pid sg s1).2)
        else (sg, s1)
      else next_loop pid i d sgs' s
  end.

Definition signums : list Z := seqZ 1 31.

Definition qos_proc_signal_next (pid : Z) (s : procs) : Z * procs :=
  match find_pid pid s with
  | None => (-1, s)
  | Some i =>
      let g := p_sig (get_proc i s) in
      if sig_pending g =? 0 then (0, s)
      else
        let d := deliverable (sig_pending g) (sig_blocked g) in
        if d =? 0 then (0, s) else next_loop pid i d signums s
  end.

Definition qos_proc_signal_prepare_frame (pid sg : Z) (out : bool) (s : procs) : Z * option qos_sigframe_t :=
  match find_pid pid s with
  | None => (-1, None)
  | Some i =>
      if negb (signum_valid sg) || negb out then (-1, None)
      else
        let handler := handler_at sg (get_proc i s) in
        if (handler =? QOS_SIG_DFL) || (handler =? QOS_SIG_IGN) then (-1, None)
        else (0, Some {| pretcode := QOS_SIG_TRAMPOLINE_VA; signum := sg;
                         saved_mask := sig_blocked (p_sig (get_proc i s)); saved_handler := handler |})
  end.

Definition qos_proc_signal_sigreturn (pid : Z) (frame : option qos_sigframe_t) (s : procs) : Z * procs :=
  match find_pid pid s, frame with
  | Some i, Some f =>
      let p := get_proc i s in
      (0, set_proc i (with_sig (set_blocked (Z.land (saved_mask f) (bnot 32 unmaskable_bits)) (p_sig p)) p) s)
  | _, _ => (-1, s)
  end.

Definition qos_proc_signal_altstack_set (pid a_sp a_size a_flags : Z) (s : procs) : Z * procs :=
  match find_pid pid s with
  | None => (-1, s)
  | Some i =>
      let p := get_proc i s in
      (0, set_proc i (with_sig (set_altstack {| alt_sp := a_sp; alt_size := a_size; alt_flags := a_flags |} (p_sig p)) p) s)
  end.

Definition qos_proc_signal_altstack_get (pid : Z) (out : bool) (s : procs) : Z * option qos_sigaltstack_t :=
  match find_pid pid s with
  | Some i => if out then (0, Some (sig_altstack (p_sig (get_proc i s)))) else (-1, None)
  | None => (-1, None)
  end.

Definition qos_proc_is_stopped (pid : Z) (s : procs) : Z :=
  match find_pid pid s with None => 0 | Some i => if stopped (p_life (get_proc i s)) then 1 else 0 end.

(** ** Specification: a map from pids to process control blocks *)

Record pcb := {
  b_parent : Z; b_life : life; b_cwd : string; b_sig : signals; b_exec : qos_proc_exec_image_t
}.

Definition pcb_of (p : proc) : pcb :=
  {| b_parent := p_ppid p; b_life := p_life p; b_cwd := p_cwd p; b_sig := p_sig p; b_exec := p_exec p |}.

Definition procs_abs (s : procs) : gmap Z pcb := pcb_of <$> table_map (table s).

Definition new_pcb (ppid : Z) : pcb :=
  {| b_parent := ppid; b_life := life_zero; b_cwd := "/"; b_sig := init_signal_state;
     b_exec := init_exec_image_state |}.

(** A child keeps directory, handlers, mask, alternate stack and image. *)
Definition forked_pcb (ppid : Z) (b : pcb) : pcb :=
  {| b_parent := ppid; b_life := life_zero; b_cwd := b_cwd b; b_sig := fork_signals (b_sig b);
     b_exec := b_exec b |}.

Definition b_with_life (l : life) (b : pcb) : pcb :=
  {| b_parent := b_parent b; b_life := l; b_cwd := b_cwd b; b_sig := b_sig b; b_exec := b_exec b |}.
Definition b_with_cwd (c : string) (b : pcb) : pcb :=
  {| b_parent := b_parent b; b_life := b_life b; b_cwd := c; b_sig := b_sig b; b_exec := b_exec b |}.
Definition b_with_sig (g : signals) (b : pcb) : pcb :=
  {| b_parent := b_parent b; b_life := b_life b; b_cwd := b_cwd b; b_sig := g; b_exec := b_exec b |}.
Definition b_with_exec (im : qos_proc_exec_image_t) (b : pcb) : pcb :=
  {| b_parent := b_parent b; b_life := b_life b; b_cwd := b_cwd b; b_sig := b_sig b; b_exec := im |}.

Definition good_cwd (c : string) : bool :=
  match c with
  | String a _ => Ascii.eqb a "/" && (String.length c <? QOS_PROC_CWD_MAX)%nat
  | EmptyString => false
  end.

Definition unmaskable (n : Z) : bool := (n =? QOS_SIGKILL) || (n =? QOS_SIGSTOP).

(** A mask as the set of blocked signals, SIGKILL and SIGSTOP left out. *)
Definition sanitised (mask mask' : Z) : Prop :=
  in_width 32 mask' ∧ ∀ n, 0 <= n < 32 → Z.testbit mask' n = Z.testbit mask n && negb (unmaskable n).

Definition handler_of (g : signals) (n : Z) : Z := nth (Z.to_nat n) (sig_handlers g) 0.

Definition can_deliver (g : signals) (n : Z) : bool :=
  (0 <? n) && (n <? 32) && Z.testbit (sig_pending g) n && (negb (Z.testbit (sig_blocked g) n) || unmaskable n).

(** Delivery: [r] is the lowest deliverable signal that is not ignored, or 0;
    the deliverable signals up to it (all of them when there is none) are
    consumed; the default action is taken where no handler is set. *)
Record delivers (b : pcb) (r : Z) (b' : pcb) : Prop := {
  dl_choice :
    (r = 0 ∧ ∀ n, can_deliver (b_sig b) n = true → handler_of (b_sig b) n = QOS_SIG_IGN)
    ∨ (can_deliver (b_sig b) r = true ∧ handler_of (b_sig b) r ≠ QOS_SIG_IGN
       ∧ ∀ n, can_deliver (b_sig b) n = true → n < r → handler_of (b_sig b) n = QOS_SIG_IGN);
  dl_pending : in_width 32 (sig_pending (b_sig b')) ∧
    ∀ n, 0 <= n < 32 → Z.testbit (sig_pending (b_sig b')) n
      = Z.testbit (sig_pending (b_sig b)) n && negb (can_deliver (b_sig b) n && ((r =? 0) || (n <=? r)));
  dl_life : b_life b' = if negb (r =? 0) && (handler_of (b_sig b) r =? QOS_SIG_DFL)
                        then default_life r (b_life b) else b_life b;
  dl_rest : b' = b_with_life (b_life b') (b_with_sig (set_pending (sig_pending (b_sig b')) (b_sig b)) b)
}.

Inductive proc_op :=
| PCreate (pid ppid : Z) | PFork (parent child : Z) | PRemove (pid : Z) | PExit (pid code : Z)
| PWait (parent pid options : Z) | PCwd (pid : Z) (path : string)
| PExecReset (pid : Z) | PExecImage (pid : Z) (im : qos_proc_exec_image_t)
| PHandler (pid sg h : Z) | PMask (pid mask : Z) | PSend (pid sg : Z) | PNext (pid : Z)
| PDefault (pid sg : Z) | PSigreturn (pid : Z) (f : qos_sigframe_t)
| PAltstack (pid : Z) (a : qos_sigaltstack_t).

Definition proc_exec (o : proc_op) (s : procs) : Z * option Z * procs :=
  let plain (x : Z * procs) := (x.1, None, x.2) in
  match o with
  | PCreate pid ppid => plain (qos_proc_create pid ppid s)
  | PFork parent child => plain (qos_proc_fork parent child s)
  | PRemove pid => plain (qos_proc_remove pid s)
  | PExit pid code => plain (qos_proc_exit pid code s)
  | PWait parent pid options => qos_proc_wait parent pid true options s
  | PCwd pid path => plain (qos_proc_cwd_set pid (Some path) s)
  | PExecReset pid => plain (qos_proc_exec_signal_reset pid s)
  | PExecImage pid im => plain (qos_proc_exec_image_set pid (Some im) s)
  | PHandler pid sg h => plain (qos_proc_signal_set_handler pid sg h s)
  | PMask pid mask => plain (qos_proc_signal_set_mask pid mask s)
  | PSend pid sg => plain (qos_proc_signal_send pid sg s)
  | PNext pid => plain (qos_proc_signal_next pid s)
  | PDefault pid sg => plain (qos_proc_signal_apply_default pid sg s)
  | PSigreturn pid f => plain (qos_proc_signal_sigreturn pid (Some f) s)
  | PAltstack pid a => plain (qos_proc_signal_altstack_set pid (alt_sp a) (alt_size a) (alt_flags a) s)
  end.

(** A live process is replaced by one related to it; nothing else changes. *)
Definition updates (pid : Z) (ok : pcb → bool) (R : pcb → pcb → Prop) (m : gmap Z pcb)
    (r : Z) (m' : gmap Z pcb) : Prop :=
  match m !! pid with
  | Some b => if ok b then r = 0 ∧ ∃ b', R b b' ∧ m' = <[pid := b']> m else r = -1 ∧ m' = m
  | None => r = -1 ∧ m' = m
  end.

Definition zombie_of (parent : Z) (b : pcb) : Prop := b_parent b = parent ∧ exited (b_life b) = true.

Definition wait_spec (parent pid options : Z) (m : gmap Z pcb) (r : Z) (st : option Z) (m' : gmap Z pcb) : Prop :=
  (∃ c b, m !! c = Some b ∧ is_Some (m !! parent) ∧ zombie_of parent b ∧ (pid = -1 ∨ c = u32 pid)
          ∧ r = i32 c ∧ st = Some (exit_code (b_life b)) ∧ m' = delete c m)
  ∨ ((∀ c b, m !! c = Some b → pid = -1 ∨ c = u32 pid → zombie_of parent b → m !! parent = None)
     ∧ st = None ∧ m' = m
     ∧ r = if bool_decide (m !! parent = None) then -1
           else if pid =? -1 then no_hang options
           else match m !! u32 pid with
                | Some b => if b_parent b =? parent then no_hang options else -1
                | None => no_hang options
                end).

Definition proc_spec (o : proc_op) (m : gmap Z pcb) (r : Z) (st : option Z) (m' : gmap Z pcb) : Prop :=
  match o with
  | PCreate pid ppid =>
      if negb (pid =? 0) && bool_decide (m !! pid = None) && (size m <? QOS_PROC_MAX)%nat
      then r = 0 ∧ m' = <[pid := new_pcb ppid]> m else r = -1 ∧ m' = m
  | PFork parent child =>
      match m !! parent with
      | Some b =>
          if negb (child =? 0) && bool_decide (m !! child = None) && (size m <? QOS_PROC_MAX)%nat
          then r = 0 ∧ m' = <[child := forked_pcb parent b]> m else r = -1 ∧ m' = m
      | None => r = -1 ∧ m' = m
      end
  | PRemove pid => if bool_decide (m !! pid = None) then r = -1 ∧ m' = m else r = 0 ∧ m' = delete pid m
  | PExit pid code =>
      updates pid (λ b, negb (exited (b_life b)))
        (λ b b', b' = b_with_life {| exited := true; stopped := false; exit_code := code |} b) m r m'
  | PWait parent pid options => wait_spec parent pid options m r st m'
  | PCwd pid path => updates pid (λ _, good_cwd path) (λ b b', b' = b_with_cwd path b) m r m'
  | PExecReset pid =>
      updates pid (λ _, true) (λ b b', ∃ mask, sanitised (sig_blocked (b_sig b)) mask ∧
        b' = b_with_sig {| sig_handlers := keep_ignored (sig_handlers (b_sig b)); sig_pending := 0;
                           sig_blocked := mask; sig_altstack := sig_altstack (b_sig b) |} b) m r m'
  | PExecImage pid im => updates pid (λ _, true) (λ b b', b' = b_with_exec im b) m r m'
  | PHandler pid sg h =>
      updates pid (λ _, signum_valid sg && (negb (unmaskable sg) || (h =? QOS_SIG_DFL)))
        (λ b b', b' = b_with_sig (set_handlers (<[Z.to_nat sg := h]> (sig_handlers (b_sig b))) (b_sig b)) b) m r m'
  | PMask pid mask =>
      updates pid (λ _, true) (λ b b', ∃ mask', sanitised mask mask' ∧ b' = b_with_sig (set_blocked mask' (b_sig b)) b) m r m'
  | PSend pid sg =>
      updates pid (λ _, signum_valid sg)
        (λ b b', b' = b_with_sig (set_pending (Z.lor (sig_pending (b_sig b)) (signum_bit sg)) (b_sig b)) b) m r m'
  | PNext pid =>
      match m !! pid with
      | Some b => ∃ b', delivers b r b' ∧ m' = <[pid := b']> m
      | None => r = -1 ∧ m' = m
      end
  | PDefault pid sg =>
      updates pid (λ _, signum_valid sg) (λ b b', b' = b_with_life (default_life sg (b_life b)) b) m r m'
  | PSigreturn pid f =>
      updates pid (λ _, true) (λ b b', ∃ mask', sanitised (saved_mask f) mask' ∧ b' = b_with_sig (set_blocked mask' (b_sig b)) b) m r m'
  | PAltstack pid a => updates pid (λ _, true) (λ b b', b' = b_with_sig (set_altstack a (b_sig b)) b) m r m'
  end.

(** ** Invariant *)

Record sig_ok (g : signals) : Prop := {
  so_len : length (sig_handlers g) = QOS_SIGNAL_MAX;
  so_kill : sig_handlers g !! 9%nat = Some QOS_SIG_DFL;
  so_stop : sig_handlers g !! 19%nat = Some QOS_SIG_DFL;
  so_pending : in_width 32 (sig_pending g);
  so_zero : Z.testbit (sig_pending g) 0 = false;
  so_blocked : in_width 32 (sig_blocked g);
  so_masked : ∀ n, unmaskable n = true → Z.testbit (sig_blocked g) n = false
}.

Record proc_ok (p : proc) : Prop := {
  po_pid : 0 < p_pid p < 2 ^ 32;
  po_cwd : good_cwd (p_cwd p) = true;
  po_cwd_len : p_cwd_len p = Z.of_nat (String.length (p_cwd p));
  po_name : ∃ rest, p_name p = prefix ++ decimal (p_pid p) ++ 0 :: rest;
  po_name_len : p_name_len p = Z.of_nat (5 + length (decimal (p_pid p)));
  po_sig : sig_ok (p_sig p)
}.

Record slot_ok (p : proc) : Prop := {
  sl_name : length (p_name p) = QOS_PROC_NAME_MAX;
  sl_live : p_used p = true → proc_ok p
}.

Record proc_wf (s : procs) : Prop := {
  pw_len : length (table s) = QOS_PROC_MAX;
  pw_unique : unique_keys (table s);
  pw_count : g_count s = Z.of_nat (count_used (table s));
  pw_slots : Forall slot_ok (table s)
}.

Lemma proc_reset_abs : procs_abs qos_proc_reset = ∅.
Proof. unfold procs_abs. cbn [qos_proc_reset table]. by rewrite table_map_replicate, fmap_empty. Qed.

Lemma proc_reset_wf : proc_wf qos_proc_reset.
Proof.
  split; [done|by apply unique_keys_replicate|reflexivity|]. by apply Forall_replicate.
Qed.

Lemma procs_abs_size s : proc_wf s → size (procs_abs s) = count_used (table s).
Proof. intros Hwf. unfold procs_abs. rewrite map_size_fmap. apply table_map_size, Hwf. Qed.

(** What the scan for a pid tells about the map. *)
Lemma find_pid_abs pid s :
  proc_wf s →
  match find_pid pid s with
  | None => procs_abs s !! pid = None
  | Some i => ∃ p, table s !! i = Some p ∧ get_proc i s = p ∧ p_used p = true ∧ p_pid p = pid
                   ∧ proc_ok p ∧ length (p_name p) = QOS_PROC_NAME_MAX
                   ∧ procs_abs s !! pid = Some (pcb_of p)
  end.
Proof.
  intros Hwf. unfold procs_abs. rewrite lookup_fmap, table_map_lookup. fold (find_pid pid s).
  destruct (find_pid pid s) as [i|] eqn:Hi; [|done].
  destruct (find_key_Some _ _ _ Hi) as (p & Hp & Hu & Hk). exists p.
  destruct (Forall_lookup_1 _ _ _ _ (pw_slots _ Hwf) Hp) as [Hn Hl].
  cbn [mbind option_bind]. unfold get_proc. rewrite Hp. eauto 10.
Qed.

(** Replacing the record of a live process. *)
Lemma set_proc_refines pid i p' s :
  proc_wf s → find_pid pid s = Some i → p_used p' = true → p_pid p' = pid →
  length (p_name p') = QOS_PROC_NAME_MAX → proc_ok p' →
  proc_wf (set_proc i p' s) ∧ procs_abs (set_proc i p' s) = <[pid := pcb_of p']> (procs_abs s).
Proof.
  intros Hwf Hi Hu Hk Hn Hok. destruct (find_key_Some _ _ _ Hi) as (p & Hp & Hpu & Hpk).
  destruct (table_map_update (table s) i pid p' (pw_unique _ Hwf) Hi Hu Hk) as [Hu' Hm'].
  split; [split; cbn [set_proc table g_count]|].
  - rewrite length_insert. apply Hwf.
  - done.
  - rewrite (count_used_update _ _ p); [apply Hwf|done|]. by rewrite Hpu.
  - apply Forall_insert; [apply Hwf|]. by split.
  - unfold procs_abs. cbn [set_proc table]. by rewrite Hm', fmap_insert.
Qed.

Lemma unmaskable_bits_spec n : 0 <= n → Z.testbit unmaskable_bits n = unmaskable n.
Proof.
  intros Hn. unfold unmaskable_bits, unmaskable, signum_bit.
  rewrite Z.lor_spec, !bit_testbit by (unfold QOS_SIGKILL, QOS_SIGSTOP; lia).
  destruct (Z.eqb_spec n QOS_SIGKILL), (Z.eqb_spec n QOS_SIGSTOP); repeat case_bool_decide; done.
Qed.

Lemma unmaskable_width : in_width 32 unmaskable_bits.
Proof. vm_compute. split; [discriminate|reflexivity]. Qed.

Lemma unmaskable_cases n : unmaskable n = true → n = 9 ∨ n = 19.
Proof. unfold unmaskable, QOS_SIGKILL, QOS_SIGSTOP. intros H. b2p. lia. Qed.

(** Every mask the operations store. *)
Lemma mask_sanitised mask : in_width 32 mask → sanitised mask (Z.land mask (bnot 32 unmaskable_bits)).
Proof.
  intros Hm. pose proof (bnot_in_width 32 unmaskable_bits ltac:(lia) unmaskable_width) as Hb.
  split; [apply land_in_width; [lia|done|apply Hb]|].
  intros n Hn. rewrite Z.land_spec, bnot_testbit, unmaskable_bits_spec by lia.
  by rewrite bool_decide_eq_true_2, xorb_true_r by lia.
Qed.

Lemma sanitised_masked mask mask' n : sanitised mask mask' → unmaskable n = true → Z.testbit mask' n = false.
Proof. intros [_ H] Hn. rewrite H by (apply unmaskable_cases in Hn; lia). rewrite Hn. apply andb_false_r. Qed.

Lemma set_blocked_ok mask mask' g : sig_ok g → sanitised mask mask' → sig_ok (set_blocked mask' g).
Proof. intros [] Hs. split; try done; [apply Hs|]. intros n Hn. by eapply sanitised_masked. Qed.

Lemma set_pending_ok b g : sig_ok g → in_width 32 b → Z.testbit b 0 = false → sig_ok (set_pending b g).
Proof. by intros [] Hb Hz. Qed.

Lemma with_sig_ok g p : proc_ok p → sig_ok g → proc_ok (with_sig g p).
Proof. by intros [] Hg. Qed.

Lemma with_life_ok l p : proc_ok p → proc_ok (with_life l p).
Proof. by intros []. Qed.

Lemma with_exec_ok im p : proc_ok p → proc_ok (with_exec im p).
Proof. by intros []. Qed.

Lemma signum_valid_range sg : signum_valid sg = true → 0 < sg < 32.
Proof. unfold signum_valid. intros H. b2p. change (Z.of_nat QOS_SIGNAL_MAX) with 32 in *. lia. Qed.

(** An operation on one live process refines [updates]. *)
Lemma updates_intro pid (ok : pcb → bool) (R : pcb → pcb → Prop) (f : proc → proc) s x :
  proc_wf s →
  x = match find_pid pid s with
      | None => (-1, s)
      | Some i => if ok (pcb_of (get_proc i s)) then (0, set_proc i (f (get_proc i s)) s) else (-1, s)
      end →
  (∀ p, proc_ok p → ok (pcb_of p) = true →
     p_used (f p) = p_used p ∧ p_pid (f p) = p_pid p ∧ p_name (f p) = p_name p
     ∧ proc_ok (f p) ∧ R (pcb_of p) (pcb_of (f p))) →
  proc_wf x.2 ∧ updates pid ok R (procs_abs s) x.1 (procs_abs x.2).
Proof.
  intros Hwf -> Hf. unfold updates. pose proof (find_pid_abs pid s Hwf) as Hp.
  destruct (find_pid pid s) as [i|] eqn:Hi; [|by rewrite Hp].
  destruct Hp as (p & Hl & -> & Hu & Hk & Hok & Hn & ->).
  destruct (ok (pcb_of p)) eqn:Ho; [|done].
  destruct (Hf p Hok Ho) as (Hu' & Hk' & Hn' & Hok' & HR).
  destruct (set_proc_refines pid i (f p) s Hwf Hi) as [Hwf' Ha]; [congruence..|done|].
  cbn [fst snd]. rewrite Ha. split; [done|]. split; [done|]. eauto.
Qed.

(** ** Delivery *)

(** The loop of [qos_proc_signal_next] on the record of the process. *)
Fixpoint deliver (d : Z) (sgs : list Z) (p : proc) : Z * proc :=
  match sgs with
  | [] => (0, p)
  | sg :: sgs' =>
      if negb (Z.land d (signum_bit sg) =? 0) then
        let p1 := with_sig (set_pending (Z.land (sig_pending (p_sig p)) (bnot 32 (signum_bit sg))) (p_sig p)) p in
        if handler_at sg p =? QOS_SIG_IGN then deliver d sgs' p1
        else (sg, if handler_at sg p =? QOS_SIG_DFL then with_life (default_life sg (p_life p1)) p1 else p1)
      else deliver d sgs' p
  end.

Lemma set_proc_twice i p q s : set_proc i p (set_proc i q s) = set_proc i p s.
Proof. unfold set_proc. cbn [table g_count]. by rewrite list_insert_insert_eq. Qed.

Lemma get_set_proc i p q s : table s !! i = Some q → get_proc i (set_proc i p s) = p.
Proof.
  intros Hq. unfold get_proc, set_proc. cbn [table].
  by rewrite list_lookup_insert_eq by (by eapply lookup_lt_Some).
Qed.

Lemma next_loop_deliver pid i d sgs p s :
  find_pid pid s = Some i → table s !! i = Some p → p_used p = true → p_pid p = pid →
  Forall (λ sg, signum_valid sg = true) sgs →
  next_loop pid i d sgs s = let '(r, p') := deliver d sgs p in (r, set_proc i p' s).
Proof.
  intros Hi Hp Hu Hk Hsg. revert p s Hi Hp Hu Hk.
  induction sgs as [|sg sgs IH]; intros p s Hi Hp Hu Hk; cbn [next_loop deliver].
  { unfold set_proc. rewrite list_insert_id by done. by destruct s. }
  apply Forall_cons in Hsg as [Hv Hsg].
  destruct (negb _); [|by apply IH].
  assert (get_proc i s = p) as -> by (unfold get_proc; by rewrite Hp).
  set (p1 := with_sig _ p). pose proof (lookup_lt_Some _ _ _ Hp) as Hlt.
  assert (find_pid pid (set_proc i p1 s) = Some i) as Hi1 by (by apply find_key_update).
  destruct (handler_at sg p =? QOS_SIG_IGN).
  - rewrite (IH Hsg p1); [|done|by apply list_lookup_insert_eq|done|done].
    destruct (deliver d sgs p1). by rewrite set_proc_twice.
  - destruct (handler_at sg p =? QOS_SIG_DFL); [|done].
    unfold qos_proc_signal_apply_default. rewrite Hi1, Hv. cbn [negb snd].
    by rewrite !(get_set_proc i p1 p), set_proc_twice by done.
Qed.

(** What the loop does from signal [a] on. *)
Record delivered (d a : Z) (p : proc) (r : Z) (p' : proc) : Prop := {
  de_choice :
    (r = 0 ∧ ∀ n, a <= n < 32 → Z.testbit d n = true → handler_at n p = QOS_SIG_IGN)
    ∨ (a <= r < 32 ∧ Z.testbit d r = true ∧ handler_at r p ≠ QOS_SIG_IGN
       ∧ ∀ n, a <= n < r → Z.testbit d n = true → handler_at n p = QOS_SIG_IGN);
  de_width : in_width 32 (sig_pending (p_sig p'));
  de_pending : ∀ n, 0 <= n < 32 →
    Z.testbit (sig_pending (p_sig p')) n
    = Z.testbit (sig_pending (p_sig p)) n && negb (Z.testbit d n && (a <=? n) && ((r =? 0) || (n <=? r)));
  de_life : p_life p' = if negb (r =? 0) && (handler_at r p =? QOS_SIG_DFL)
                        then default_life r (p_life p) else p_life p;
  de_rest : p' = with_life (p_life p') (with_sig (set_pending (sig_pending (p_sig p')) (p_sig p)) p)
}.

Definition take_signal (sg : Z) (p : proc) : proc :=
  with_sig (set_pending (Z.land (sig_pending (p_sig p)) (bnot 32 (signum_bit sg))) (p_sig p)) p.

Lemma take_signal_pending sg p n :
  1 <= sg < 32 → 0 <= n < 32 →
  Z.testbit (sig_pending (p_sig (take_signal sg p))) n
  = Z.testbit (sig_pending (p_sig p)) n && negb (n =? sg).
Proof.
  intros Hs Hn. cbn [take_signal with_sig p_sig set_pending sig_pending]. unfold signum_bit.
  rewrite Z.land_spec, bnot_testbit, bit_testbit, (bool_decide_eq_true_2 (n < 32)), xorb_true_r by lia.
  by destruct (Z.eqb_spec n sg); case_bool_decide.
Qed.

Lemma take_signal_width sg p :
  1 <= sg < 32 → in_width 32 (sig_pending (p_sig p)) → in_width 32 (sig_pending (p_sig (take_signal sg p))).
Proof.
  intros Hs Hp. apply land_in_width; [lia|done|]. apply bnot_in_width, bit_in_width; lia.
Qed.

(** A signal the loop skips. *)
Lemma delivered_skip d a p r p' :
  1 <= a < 32 → Z.testbit d a = false → delivered d (a + 1) p r p' → delivered d a p r p'.
Proof.
  intros Ha Hd [Hc Hw Hp Hl Hr]. split; try done.
  - destruct Hc as [[-> Hc]|(Hr' & Hdr & Hh & Hc)]; [left|right].
    + split; [done|]. intros n Hn Hb. apply Hc; [|done]. assert (n ≠ a) by (intros ->; congruence). lia.
    + split; [lia|]. split; [done|]. split; [done|]. intros n Hn Hb. apply Hc; [|done].
      assert (n ≠ a) by (intros ->; congruence). lia.
  - intros n Hn. rewrite Hp by done. destruct (Z.eqb_spec n a) as [->|Hne]; [by rewrite Hd|].
    by replace (a + 1 <=? n) with (a <=? n) by (apply eq_true_iff_eq; rewrite !Z.leb_le; lia).
Qed.

(** An ignored signal is consumed and the loop goes on. *)
Lemma delivered_ignored d a p r p' :
  1 <= a < 32 → Z.testbit d a = true → handler_at a p = QOS_SIG_IGN →
  delivered d (a + 1) (take_signal a p) r p' → delivered d a p r p'.
Proof.
  intros Ha Hd Hi [Hc Hw Hp Hl Hr]. split; try done.
  - destruct Hc as [[-> Hc]|(Hr' & Hdr & Hh & Hc)]; [left|right].
    + split; [done|]. intros n Hn Hb. destruct (decide (n = a)) as [->|]; [done|]. apply Hc; [lia|done].
    + split; [lia|]. split; [done|]. split; [done|]. intros n Hn Hb.
      destruct (decide (n = a)) as [->|]; [done|]. apply Hc; [lia|done].
  - intros n Hn. rewrite Hp, take_signal_pending by lia. destruct (Z.eqb_spec n a) as [->|Hne].
    + rewrite Hd, Z.leb_refl, andb_false_r. cbn [andb].
      assert ((r =? 0) || (a <=? r) = true) as ->; [|by rewrite andb_false_r].
      destruct Hc as [[-> _]|(Hr' & _)]; [done|]. apply orb_true_iff. right. apply Z.leb_le. lia.
    + rewrite andb_true_r.
      by replace (a + 1 <=? n) with (a <=? n) by (apply eq_true_iff_eq; rewrite !Z.leb_le; lia).
Qed.

(** The signal the loop returns. *)
Lemma delivered_here d a p :
  1 <= a < 32 → Z.testbit d a = true → handler_at a p ≠ QOS_SIG_IGN → in_width 32 (sig_pending (p_sig p)) →
  delivered d a p a (if handler_at a p =? QOS_SIG_DFL
                     then with_life (default_life a (p_life p)) (take_signal a p) else take_signal a p).
Proof.
  intros Ha Hd Hi Hw. pose proof (take_signal_width a p Ha Hw) as Hw'.
  match goal with |- delivered _ _ _ _ ?x => set (p' := x) end.
  assert (p_sig p' = p_sig (take_signal a p)) as Hs by (unfold p'; by destruct (_ =? _)).
  assert ((a =? 0) = false) as Ha0 by (apply Z.eqb_neq; lia). split; rewrite ?Hs, ?Ha0.
  - right. split; [lia|]. split; [done|]. split; [done|]. intros n Hn. lia.
  - done.
  - intros n Hn. rewrite take_signal_pending by done. cbn [orb].
    destruct (Z.eqb_spec n a) as [->|Hne]; [by rewrite Hd, Z.leb_refl|].
    assert ((a <=? n) && (n <=? a) = false) as E.
    { apply andb_false_iff. rewrite !Z.leb_gt. lia. }
    by rewrite <- andb_assoc, E, andb_false_r.
  - unfold p'. by destruct (_ =? _).
  - unfold p'. by destruct (_ =? _).
Qed.

Lemma deliver_spec d k a p :
  1 <= a → a + Z.of_nat k = 32 → in_width 32 (sig_pending (p_sig p)) →
  let '(r, p') := deliver d (seqZ a (Z.of_nat k)) p in delivered d a p r p'.
Proof.
  revert a p. induction k as [|k IH]; intros a p Ha Hk Hw.
  { change (seqZ a (Z.of_nat 0)) with (@nil Z). cbn [deliver]. split; [|done| |done|by destruct p, p_sig0].
    - left. split; [done|]. lia.
    - intros n Hn. rewrite (proj2 (Z.leb_gt a n)) by lia. by rewrite andb_false_r, andb_true_r. }
  rewrite seqZ_cons by lia. rewrite <- (Nat2Z.inj_pred (S k)) by lia. cbn [Nat.pred deliver].
  unfold signum_bit. rewrite land_bit_nonzero, negb_involutive by lia. fold (signum_bit a). fold (take_signal a p).
  change (Z.succ a) with (a + 1).
  destruct (Z.testbit d a) eqn:Hd.
  - destruct (Z.eqb_spec (handler_at a p) QOS_SIG_IGN) as [Hi|Hi].
    + specialize (IH (a + 1) (take_signal a p) ltac:(lia) ltac:(lia) (take_signal_width a p ltac:(lia) Hw)).
      destruct (deliver _ _ _) as [r p']. by apply delivered_ignored; [lia|..].
    + exact (delivered_here d a p ltac:(lia) Hd Hi Hw).
  - specialize (IH (a + 1) p ltac:(lia) ltac:(lia) Hw). destruct (deliver _ _ _) as [r p'].
    by apply delivered_skip; [lia|..].
Qed.

Lemma deliverable_testbit g n :
  0 <= n < 32 →
  Z.testbit (deliverable (sig_pending g) (sig_blocked g)) n
  = Z.testbit (sig_pending g) n && (negb (Z.testbit (sig_blocked g) n) || unmaskable n).
Proof.
  intros Hn. unfold deliverable.
  rewrite Z.lor_spec, !Z.land_spec, bnot_testbit, unmaskable_bits_spec, bool_decide_eq_true_2, xorb_true_r by lia.
  by rewrite <- andb_orb_distrib_r.
Qed.

Lemma can_deliver_testbit g n :
  0 <= n < 32 →
  can_deliver g n = Z.testbit (deliverable (sig_pending g) (sig_blocked g)) n && (1 <=? n).
Proof.
  intros Hn. rewrite deliverable_testbit by done. unfold can_deliver.
  rewrite (proj2 (Z.ltb_lt n 32)), andb_true_r by lia.
  replace (0 <? n) with (1 <=? n) by (apply eq_true_iff_eq; rewrite Z.leb_le, Z.ltb_lt; lia).
  destruct (1 <=? n); cbn [andb]; by rewrite ?andb_true_r, ?andb_false_r.
Qed.

Lemma can_deliver_range g n : can_deliver g n = true → 0 < n < 32.
Proof. unfold can_deliver. intros H. b2p. lia. Qed.

Lemma delivered_delivers p r p' :
  delivered (deliverable (sig_pending (p_sig p)) (sig_blocked (p_sig p))) 1 p r p' →
  delivers (pcb_of p) r (pcb_of p').
Proof.
  intros [Hc Hw Hp Hl Hr]. set (g := p_sig p) in *.
  assert (∀ n, can_deliver g n = true → 1 <= n < 32 ∧ Z.testbit (deliverable (sig_pending g) (sig_blocked g)) n = true) as Hcd.
  { intros n Hn. pose proof (can_deliver_range _ _ Hn). rewrite can_deliver_testbit in Hn by lia. b2p. split; [lia|done]. }
  split; cbn [pcb_of b_sig b_life].
  - destruct Hc as [[-> Hc]|(Hr' & Hdr & Hh & Hc)]; [left|right].
    + split; [done|]. intros n [? ?]%Hcd. by apply Hc.
    + split; [|split; [done|]].
      * fold g. rewrite can_deliver_testbit, Hdr, (proj2 (Z.leb_le 1 r)) by lia. done.
      * intros n [? ?]%Hcd ?. apply Hc; [lia|done].
  - split; [done|]. intros n Hn. rewrite Hp by done. fold g. by rewrite can_deliver_testbit by done.
  - done.
  - by rewrite Hr at 1.
Qed.

Lemma delivered_ok d p r p' : proc_ok p → delivered d 1 p r p' → proc_ok p'.
Proof.
  intros Hok [_ Hw Hp _ ->]. apply with_life_ok, with_sig_ok; [done|].
  apply set_pending_ok; [apply Hok|done|]. rewrite Hp by lia. by rewrite (so_zero _ (po_sig _ Hok)).
Qed.

Lemma signums_valid : Forall (λ sg, signum_valid sg = true) signums.
Proof. apply Forall_forall. intros n [? ?]%elem_of_seqZ. unfold signum_valid. change (Z.of_nat QOS_SIGNAL_MAX) with 32.
  rewrite (proj2 (Z.ltb_lt _ _)), (proj2 (Z.ltb_lt _ _)) by lia. done.
Qed.

Lemma delivered_none p : in_width 32 (sig_pending (p_sig p)) → delivered 0 1 p 0 p.
Proof.
  intros Hw. split; [|done| |done|by destruct p, p_sig0].
  - left. split; [done|]. intros n _. by rewrite Z.bits_0.
  - intros n Hn. by rewrite Z.bits_0, andb_true_r.
Qed.

(** [qos_proc_signal_next] on every branch. *)
Lemma signal_next_spec pid i p s :
  proc_wf s → find_pid pid s = Some i → table s !! i = Some p → p_used p = true → p_pid p = pid → proc_ok p →
  ∃ r p', qos_proc_signal_next pid s = (r, set_proc i p' s) ∧ delivers (pcb_of p) r (pcb_of p')
          ∧ proc_ok p' ∧ p_used p' = true ∧ p_pid p' = pid ∧ p_name p' = p_name p.
Proof.
  intros Hwf Hi Hp Hu Hk Hok. pose proof (so_pending _ (po_sig _ Hok)) as Hw.
  set (d := deliverable (sig_pending (p_sig p)) (sig_blocked (p_sig p))).
  assert (∃ r p', qos_proc_signal_next pid s = (r, set_proc i p' s) ∧ delivered d 1 p r p') as (r & p' & E & Hd).
  { unfold qos_proc_signal_next. rewrite Hi. assert (get_proc i s = p) as -> by (unfold get_proc; by rewrite Hp).
    fold d. assert ((0, s) = (0, set_proc i p s)) as E.
    { unfold set_proc. rewrite list_insert_id by done. by destruct s. }
    destruct (Z.eqb_spec (sig_pending (p_sig p)) 0) as [Hz|_].
    { exists 0, p. split; [done|]. assert (d = 0) as ->; [|by apply delivered_none].
      unfold d, deliverable. by rewrite Hz, !Z.land_0_l. }
    destruct (Z.eqb_spec d 0) as [Hz|_].
    { exists 0, p. split; [done|]. rewrite Hz. by apply delivered_none. }
    rewrite (next_loop_deliver pid i d signums p s) by (done || apply signums_valid).
    pose proof (deliver_spec d 31 1 p ltac:(lia) ltac:(lia) Hw) as Hs. change (seqZ 1 (Z.of_nat 31)) with signums in Hs.
    destruct (deliver d signums p) as [r p']. eauto. }
  exists r, p'. split; [done|]. split; [by apply delivered_delivers|]. split; [by eapply delivered_ok|].
  rewrite (de_rest _ _ _ _ _ Hd). done.
Qed.

(** ** Creation and removal *)

Lemma proc_count_le s : proc_wf s → (count_used (table s) <= 256)%nat.
Proof. intros Hwf. etrans; [apply count_if_le|]. by rewrite (pw_len _ Hwf). Qed.

Lemma alloc_refines pid i p' s :
  proc_wf s → find_pid pid s = None → free_slot (table s) = Some i →
  p_used p' = true → p_pid p' = pid → length (p_name p') = QOS_PROC_NAME_MAX → proc_ok p' →
  let s' := set_count (u32 (g_count s + 1)) (set_proc i p' s) in
  proc_wf s' ∧ procs_abs s' = <[pid := pcb_of p']> (procs_abs s) ∧ (size (procs_abs s) < QOS_PROC_MAX)%nat.
Proof.
  intros Hwf Hn Hi Hu Hk Hnm Hok. destruct (free_slot_Some _ _ Hi) as (b & Hb & Hub).
  destruct (table_map_alloc (table s) i b p' (pw_unique _ Hwf) Hb Hub Hu) as [Hu' Hm'].
  { change (slot_key p') with (p_pid p'). by rewrite Hk. }
  pose proof (proc_count_le s Hwf) as Hc. rewrite procs_abs_size by done.
  assert (count_used (table s) ≠ 256%nat) as Hne.
  { intros E. pose proof (proj2 (free_slot_None (table s))) as HN. rewrite (pw_len _ Hwf), Hi in HN. by specialize (HN E). }
  split; [|split; [|unfold QOS_PROC_MAX; lia]].
  - split; cbn [set_count set_proc table g_count]; [by rewrite length_insert; apply Hwf|done| |].
    + rewrite (count_used_alloc _ _ _ p' Hb Hub Hu), (pw_count _ Hwf), wrap_small by (unfold in_width; lia). lia.
    + apply Forall_insert; [apply Hwf|]. by split.
  - unfold procs_abs. cbn [set_count set_proc table]. rewrite Hm', fmap_insert.
    change (slot_key p') with (p_pid p'). by rewrite Hk.
Qed.

Lemma alloc_full s : proc_wf s → free_slot (table s) = None → size (procs_abs s) = QOS_PROC_MAX.
Proof. intros Hwf Hn. rewrite procs_abs_size by done. rewrite <- (pw_len _ Hwf). by apply free_slot_None. Qed.

(** The record a new process gets; [b] is what the slot held. *)
Definition born (pid ppid : Z) (c : string) (clen : Z) (g : signals) (im : qos_proc_exec_image_t) (b : proc) : proc :=
  let '(nm, len) := init_name prefix (p_name b) pid in
  {| p_used := true; p_pid := pid; p_ppid := ppid; p_life := life_zero; p_cwd := c; p_cwd_len := clen;
     p_name := nm; p_name_len := len; p_sig := g; p_exec := im |}.

Lemma born_ok pid ppid c clen g im b :
  0 < pid < 2 ^ 32 → good_cwd c = true → clen = Z.of_nat (String.length c) → sig_ok g →
  length (p_name b) = QOS_PROC_NAME_MAX →
  let p := born pid ppid c clen g im b in
  p_used p = true ∧ p_pid p = pid ∧ length (p_name p) = QOS_PROC_NAME_MAX ∧ proc_ok p
  ∧ pcb_of p = {| b_parent := ppid; b_life := life_zero; b_cwd := c; b_sig := g; b_exec := im |}.
Proof.
  intros Hp Hc -> Hg Hn. unfold born.
  destruct (init_name_spec prefix (p_name b) pid ltac:(cbn; lia) Hn Hp) as (rest & E & Hlen). rewrite E.
  do 2 (split; [done|]). split; [exact Hlen|]. split; [|done]. split; cbn [p_pid p_cwd p_cwd_len p_name p_name_len p_sig]; eauto.
Qed.

Lemma set_proc_length i p s : length (table (set_proc i p s)) = length (table s).
Proof. apply length_insert. Qed.

Lemma get_set_proc_lt i p s : (i < length (table s))%nat → get_proc i (set_proc i p s) = p.
Proof. intros Hi. unfold get_proc, set_proc. cbn [table]. by rewrite list_lookup_insert_eq. Qed.

Lemma get_set_proc_ne i j p s : i ≠ j → get_proc j (set_proc i p s) = get_proc j s.
Proof. intros Hi. unfold get_proc, set_proc. cbn [table]. by rewrite list_lookup_insert_ne. Qed.

Definition named (pid : Z) (p : proc) : proc :=
  let '(nm, len) := init_name prefix (p_name p) pid in
  {| p_used := p_used p; p_pid := p_pid p; p_ppid := p_ppid p; p_life := p_life p;
     p_cwd := p_cwd p; p_cwd_len := p_cwd_len p; p_name := nm; p_name_len := len;
     p_sig := p_sig p; p_exec := p_exec p |}.

Lemma init_name_idx_named i pid s : init_name_idx i pid s = set_proc i (named pid (get_proc i s)) s.
Proof. unfold init_name_idx, named. by destruct (init_name _ _ _). Qed.

(** A chain of stores to one slot is the last store. *)
Ltac slot_simpl :=
  cbv zeta; repeat first
    [ rewrite set_proc_twice
    | rewrite get_set_proc_lt by (rewrite ?set_proc_length; done)
    | rewrite get_set_proc_ne by done ].

Lemma create_slot pid ppid i b s :
  free_slot (table s) = Some i → table s !! i = Some b → pid ≠ 0 → find_pid pid s = None →
  qos_proc_create pid ppid s
  = (0, set_count (u32 (g_count s + 1))
          (set_proc i (born pid ppid "/" 1 init_signal_state init_exec_image_state b) s)).
Proof.
  intros Hi Hb Hz Hn. unfold qos_proc_create. rewrite (proj2 (Z.eqb_neq _ _)) by done. rewrite Hn, Hi.
  unfold cwd_set_idx. change (negb (Ascii.eqb "/" "/")) with false.
  change ((String.length "/" =? 0)%nat || (QOS_PROC_CWD_MAX <=? String.length "/")%nat) with false.
  assert (get_proc i s = b) as Hg by (unfold get_proc; by rewrite Hb). pose proof (lookup_lt_Some _ _ _ Hb) as Hlt.
  unfold claim_slot. cbn [negb Z.eqb]. rewrite Hg, init_name_idx_named. slot_simpl.
  unfold born, named. cbn [with_cwd p_name]. by destruct (init_name prefix (p_name b) pid) as [nm len].
Qed.

Lemma fork_slot parent child i j b q s :
  free_slot (table s) = Some i → table s !! i = Some b → child ≠ 0 → find_pid child s = None →
  find_pid parent s = Some j → table s !! j = Some q → i ≠ j →
  qos_proc_fork parent child s
  = (0, set_count (u32 (g_count s + 1))
          (set_proc i (born child parent (p_cwd q) (p_cwd_len q) (fork_signals (p_sig q)) (p_exec q) b) s)).
Proof.
  intros Hi Hb Hz Hn Hj Hq Hne. unfold qos_proc_fork. rewrite (proj2 (Z.eqb_neq _ _)) by done.
  rewrite Hn, Hj, Hi. rewrite bool_decide_eq_false_2 by (by intros []). cbn [orb].
  assert (get_proc i s = b) as Hg by (unfold get_proc; by rewrite Hb).
  assert (get_proc j s = q) as Hgj by (unfold get_proc; by rewrite Hq).
  pose proof (lookup_lt_Some _ _ _ Hb) as Hlt. unfold claim_slot. rewrite Hg, init_name_idx_named. slot_simpl.
  rewrite !Hgj. unfold born, named. cbn [with_cwd p_name]. by destruct (init_name prefix (p_name b) child) as [nm len].
Qed.

Lemma init_signal_ok : sig_ok init_signal_state.
Proof. split; try done. intros n _. apply Z.bits_0. Qed.

Lemma fork_signals_ok g : sig_ok g → sig_ok (fork_signals g).
Proof. by intros []. Qed.

Lemma slot_name_length i b s : proc_wf s → table s !! i = Some b → length (p_name b) = QOS_PROC_NAME_MAX.
Proof. intros Hwf Hb. apply (sl_name _ (Forall_lookup_1 _ _ _ _ (pw_slots _ Hwf) Hb)). Qed.

(** Both ways of making a process: a fresh non-zero pid takes the first free
    slot, and fails when there is none. *)
Lemma birth_refines pid ppid c clen g im (b' : pcb) s x :
  proc_wf s → in_width 32 pid →
  b' = {| b_parent := ppid; b_life := life_zero; b_cwd := c; b_sig := g; b_exec := im |} →
  good_cwd c = true → clen = Z.of_nat (String.length c) → sig_ok g →
  (pid = 0 → x = (-1, s)) → (is_Some (find_pid pid s) → x = (-1, s)) → (free_slot (table s) = None → x = (-1, s)) →
  (∀ i b, free_slot (table s) = Some i → table s !! i = Some b → pid ≠ 0 → find_pid pid s = None →
     x = (0, set_count (u32 (g_count s + 1)) (set_proc i (born pid ppid c clen g im b) s))) →
  proc_wf x.2 ∧
  if negb (pid =? 0) && bool_decide (procs_abs s !! pid = None) && (size (procs_abs s) <? QOS_PROC_MAX)%nat
  then x.1 = 0 ∧ procs_abs x.2 = <[pid := b']> (procs_abs s) else x.1 = -1 ∧ procs_abs x.2 = procs_abs s.
Proof.
  intros Hwf Hw -> Hc Hcl Hg H0 Hdup Hfull Hx. pose proof (find_pid_abs pid s Hwf) as Hp.
  destruct (Z.eqb_spec pid 0) as [Hz|Hz]; cbn [negb andb]; [by rewrite (H0 Hz)|].
  destruct (find_pid pid s) as [k|] eqn:Hk.
  { destruct Hp as (p & _ & _ & _ & _ & _ & _ & ->). rewrite Hdup by eauto.
    by rewrite bool_decide_eq_false_2. }
  rewrite bool_decide_eq_true_2 by done. cbn [andb].
  destruct (free_slot (table s)) as [i|] eqn:Hi; last first.
  { rewrite (alloc_full s Hwf Hi), (Hfull eq_refl), Nat.ltb_irrefl. done. }
  destruct (free_slot_Some _ _ Hi) as (b & Hb & _). rewrite (Hx i b) by done.
  destruct (born_ok pid ppid c clen g im b ltac:(unfold in_width in Hw; lia) Hc Hcl Hg (slot_name_length i b s Hwf Hb))
    as (Hbu & Hbk & Hbn & Hbo & Hbp).
  destruct (alloc_refines pid i _ s Hwf Hk Hi Hbu Hbk Hbn Hbo) as (Hwf' & Ha & Hs).
  cbn [fst snd]. rewrite (proj2 (Nat.ltb_lt _ _)) by done. by rewrite Ha, Hbp.
Qed.

Lemma create_refines pid ppid s :
  proc_wf s → in_width 32 pid →
  let '(r, s') := qos_proc_create pid ppid s in
  proc_wf s' ∧ proc_spec (PCreate pid ppid) (procs_abs s) r None (procs_abs s').
Proof.
  intros Hwf Hw. cbn [proc_spec].
  pose proof (birth_refines pid ppid "/" 1 init_signal_state init_exec_image_state (new_pcb ppid) s
    (qos_proc_create pid ppid s) Hwf Hw eq_refl eq_refl eq_refl init_signal_ok) as H.
  destruct (qos_proc_create pid ppid s) as [r s'] eqn:E. apply H; unfold qos_proc_create in E.
  - intros ->. done.
  - intros [k Hk]. rewrite Hk in E. by destruct (pid =? 0).
  - intros Hf. rewrite Hf in E. by destruct (pid =? 0), (find_pid pid s).
  - intros i b Hi Hb Hz Hn. fold (qos_proc_create pid ppid s) in E. rewrite <- E. by apply create_slot.
Qed.

Lemma fork_refines parent child s :
  proc_wf s → in_width 32 child →
  let '(r, s') := qos_proc_fork parent child s in
  proc_wf s' ∧ proc_spec (PFork parent child) (procs_abs s) r None (procs_abs s').
Proof.
  intros Hwf Hw. cbn [proc_spec]. pose proof (find_pid_abs parent s Hwf) as Hp.
  destruct (qos_proc_fork parent child s) as [r s'] eqn:E.
  destruct (find_pid parent s) as [j|] eqn:Hj; last first.
  { unfold qos_proc_fork in E. rewrite Hj in E. rewrite Hp. by destruct (_ || _); simplify_eq. }
  destruct Hp as (q & Hq & _ & Hqu & _ & Hqo & _ & ->).
  apply (birth_refines child parent (p_cwd q) (p_cwd_len q) (fork_signals (p_sig q)) (p_exec q)
    (forked_pcb parent (pcb_of q)) s (r, s') Hwf Hw eq_refl (po_cwd _ Hqo) (po_cwd_len _ Hqo) (fork_signals_ok _ (po_sig _ Hqo)));
    rewrite <- E; clear E; unfold qos_proc_fork.
  - intros ->. done.
  - intros Hk. by rewrite (bool_decide_eq_true_2 _ Hk), orb_true_r.
  - intros Hf. rewrite Hj, Hf. by destruct (_ || _).
  - intros i b Hi Hb Hz Hn. apply (fork_slot parent child i j b q); try done.
    intros ->. destruct (free_slot_Some _ _ Hi) as (b' & Hb' & Hf). rewrite Hq in Hb'. simplify_eq.
    change (slot_used b') with (p_used b') in Hf. congruence.
Qed.

Lemma remove_refines pid s :
  proc_wf s →
  let '(r, s') := qos_proc_remove pid s in
  proc_wf s' ∧ proc_spec (PRemove pid) (procs_abs s) r None (procs_abs s').
Proof.
  intros Hwf. cbn [proc_spec]. unfold qos_proc_remove. pose proof (find_pid_abs pid s Hwf) as Hp.
  destruct (find_pid pid s) as [i|] eqn:Hi; [|by rewrite Hp].
  destruct Hp as (p & Hl & -> & Hu & Hk & _ & Hn & ->).
  match goal with |- context [set_proc i ?q s] => set (z := q) end.
  destruct (table_map_release (table s) i pid z (pw_unique _ Hwf) Hi eq_refl) as [Hu' Hm'].
  rewrite bool_decide_eq_false_2 by done.
  split; [split; cbn [set_count set_proc table g_count]|split; [done|]].
  - rewrite length_insert. apply Hwf.
  - done.
  - assert (count_used (table s) = S (count_used (<[i:=z]> (table s)))) as Hc by (by apply (count_used_release _ _ p)). pose proof (proc_count_le s Hwf).
    rewrite (pw_count _ Hwf), wrap_small by (unfold in_width; lia). lia.
  - apply Forall_insert; [apply Hwf|]. split; [|done]. cbn. by rewrite length_insert.
  - unfold procs_abs. cbn [set_count set_proc table]. by rewrite Hm', fmap_delete.
Qed.

(** ** Wait *)

Lemma live_slot_abs i p s :
  proc_wf s → table s !! i = Some p → p_used p = true →
  find_pid (p_pid p) s = Some i ∧ procs_abs s !! p_pid p = Some (pcb_of p) ∧ proc_ok p.
Proof.
  intros Hwf Hp Hu.
  assert (find_pid (p_pid p) s = Some i) as Hi by (by apply (find_key_unique _ _ _ p); [apply Hwf|..]).
  pose proof (find_pid_abs (p_pid p) s Hwf) as H. rewrite Hi in H.
  destruct H as (q & Hq & _ & _ & _ & Hok & _ & Ha). rewrite Hp in Hq. by simplify_eq.
Qed.

Lemma abs_live c b s :
  proc_wf s → procs_abs s !! c = Some b →
  ∃ i p, find_pid c s = Some i ∧ table s !! i = Some p ∧ p_used p = true ∧ p_pid p = c ∧ b = pcb_of p.
Proof.
  intros Hwf Hb. pose proof (find_pid_abs c s Hwf) as H.
  destruct (find_pid c s) as [i|] eqn:Hi; [|congruence].
  destruct H as (p & Hp & _ & Hu & Hk & _ & _ & Ha). rewrite Hb in Ha. simplify_eq. eauto 10.
Qed.

Lemma reap_refines i p s :
  proc_wf s → table s !! i = Some p → p_used p = true →
  let '(r, st, s') := reap i true s in
  proc_wf s' ∧ r = i32 (p_pid p) ∧ st = Some (exit_code (p_life p)) ∧ procs_abs s' = delete (p_pid p) (procs_abs s).
Proof.
  intros Hwf Hp Hu. destruct (live_slot_abs i p s Hwf Hp Hu) as (Hi & Ha & Hok).
  unfold reap. assert (get_proc i s = p) as -> by (unfold get_proc; by rewrite Hp).
  rewrite wrap_sext, wrap_small by (try lia; pose proof (po_pid _ Hok); unfold in_width; lia).
  pose proof (remove_refines (p_pid p) s Hwf) as Hr. destruct (qos_proc_remove (p_pid p) s) as [r s'].
  destruct Hr as [Hwf' Hr]. cbn [proc_spec] in Hr. rewrite Ha in Hr.
  rewrite bool_decide_eq_false_2 in Hr by done. by destruct Hr.
Qed.

Lemma zombie_child_spec parent p : is_zombie_child parent p = true ↔ p_used p = true ∧ zombie_of parent (pcb_of p).
Proof.
  unfold is_zombie_child, zombie_of. cbn [pcb_of b_parent b_life].
  rewrite !andb_true_iff, Z.eqb_eq. tauto.
Qed.

Lemma wait_refines parent pid options s :
  proc_wf s → - 2 ^ 31 <= pid < 2 ^ 31 →
  let '(r, st, s') := qos_proc_wait parent pid true options s in
  proc_wf s' ∧ wait_spec parent pid options (procs_abs s) r st (procs_abs s').
Proof.
  intros Hwf Hpid. unfold qos_proc_wait, wait_spec. pose proof (find_pid_abs parent s Hwf) as Hpar.
  destruct (find_pid parent s) as [j|].
  2:{ split; [done|]. right. rewrite bool_decide_eq_true_2 by done. naive_solver. }
  destruct Hpar as (q & _ & _ & _ & _ & _ & _ & Hq). rewrite Hq.
  rewrite bool_decide_eq_false_2 by done.
  destruct (Z.eqb_spec pid (-1)) as [->|Hne].
  - destruct (first_index (is_zombie_child parent) (table s)) as [i|] eqn:Hz.
    + apply first_index_lookup in Hz as (p & Hp & [Hu Hzm]%zombie_child_spec).
      destruct (live_slot_abs i p s Hwf Hp Hu) as (_ & Ha & _).
      pose proof (reap_refines i p s Hwf Hp Hu) as Hr. destruct (reap i true s) as [[r st] s'].
      destruct Hr as (Hwf' & -> & -> & ->). split; [done|]. left. exists (p_pid p), (pcb_of p). eauto 10.
    + split; [done|]. right. split; [|done]. intros c b Hb _ Hzm.
      destruct (abs_live c b s Hwf Hb) as (i & p & _ & Hp & Hu & _ & ->).
      assert (is_zombie_child parent p = true) as E by by apply zombie_child_spec.
      rewrite (proj1 (first_index_None _ _) Hz i p Hp) in E. done.
  - pose proof (find_pid_abs (u32 pid) s Hwf) as Hc. destruct (find_pid (u32 pid) s) as [i|] eqn:Hi.
    2:{ split; [done|]. right. rewrite Hc. split; [|done]. intros c b Hb [?| ->]; congruence. }
    destruct Hc as (p & Hp & -> & Hu & Hk & Hok & _ & Ha). rewrite Ha.
    assert (¬ zombie_of parent (pcb_of p) → ∀ c b, procs_abs s !! c = Some b → pid = -1 ∨ c = u32 pid →
            zombie_of parent b → Some (pcb_of q) = None) as Hno by (intros Hn c b Hb [?| ->] ?; congruence).
    unfold zombie_of in *. cbn [pcb_of b_parent b_life] in *.
    destruct (Z.eqb_spec (p_ppid p) parent) as [Hpp|Hpp]; cbn [negb].
    2:{ split; [done|]. right. split; [|done]. apply Hno. naive_solver. }
    destruct (exited (p_life p)) eqn:Hex; cbn [negb].
    2:{ split; [done|]. right. split; [|done]. apply Hno. naive_solver. }
    pose proof (reap_refines i p s Hwf Hp Hu) as Hr. destruct (reap i true s) as [[r st] s'].
    destruct Hr as (Hwf' & -> & -> & ->). split; [done|]. left. exists (p_pid p), (pcb_of p). rewrite Hk. eauto 10.
Qed.

(** ** Refinement *)

Definition proc_op_ok (o : proc_op) : Prop :=
  match o with
  | PCreate pid _ => in_width 32 pid
  | PFork _ child => in_width 32 child
  | PWait _ pid _ => - 2 ^ 31 <= pid < 2 ^ 31
  | PMask _ mask => in_width 32 mask
  | PSigreturn _ f => in_width 32 (saved_mask f)
  | _ => True
  end.

Lemma keep_ignored_ok g mask :
  sig_ok g → sanitised (sig_blocked g) mask →
  sig_ok {| sig_handlers := keep_ignored (sig_handlers g); sig_pending := 0; sig_blocked := mask;
            sig_altstack := sig_altstack g |}.
Proof.
  intros [] Hm. split; cbn [sig_handlers sig_pending sig_blocked]; try done.
  - unfold keep_ignored. by rewrite length_imap.
  - unfold keep_ignored. by rewrite list_lookup_imap, so_kill0.
  - unfold keep_ignored. by rewrite list_lookup_imap, so_stop0.
  - apply Hm.
  - intros n Hn. by eapply sanitised_masked.
Qed.

Lemma handler_insert_ok g sg h :
  sig_ok g → signum_valid sg = true → negb (unmaskable sg) || (h =? QOS_SIG_DFL) = true →
  sig_ok (set_handlers (<[Z.to_nat sg := h]> (sig_handlers g)) g).
Proof.
  intros [] Hv Hh. apply signum_valid_range in Hv.
  assert (∀ k, (k = 9 ∨ k = 19)%nat → sig_handlers g !! k = Some QOS_SIG_DFL →
               <[Z.to_nat sg:=h]> (sig_handlers g) !! k = Some QOS_SIG_DFL) as Hk.
  { intros k Hk Hl. destruct (decide (Z.to_nat sg = k)) as [E|Hne]; [|by rewrite list_lookup_insert_ne].
    rewrite E, list_lookup_insert_eq by (by eapply lookup_lt_Some). f_equal.
    assert (unmaskable sg = true) as Hun.
    { unfold unmaskable, QOS_SIGKILL, QOS_SIGSTOP. apply orb_true_iff. rewrite !Z.eqb_eq. lia. }
    rewrite Hun in Hh. cbn in Hh. by apply Z.eqb_eq in Hh. }
  split; cbn [set_handlers sig_handlers sig_pending sig_blocked]; try done; [by rewrite length_insert|auto..].
Qed.

Lemma send_ok g sg :
  sig_ok g → signum_valid sg = true → sig_ok (set_pending (Z.lor (sig_pending g) (signum_bit sg)) g).
Proof.
  intros Hg Hv. apply signum_valid_range in Hv. apply set_pending_ok; [done|..].
  - apply lor_in_width; [lia|apply Hg|apply bit_in_width; lia].
  - unfold signum_bit. rewrite Z.lor_spec, bit_testbit, (so_zero _ Hg) by lia. by case_bool_decide; [lia|].
Qed.

Lemma cwd_set_idx_good i path s :
  cwd_set_idx i (Some path) s
  = if good_cwd path
    then (0, set_proc i (with_cwd path (Z.of_nat (String.length path)) (get_proc i s)) s) else (-1, s).
Proof.
  unfold cwd_set_idx, good_cwd. destruct path as [|c rest]; [done|]. destruct (Ascii.eqb c "/"); [|done].
  cbn [negb andb]. change ((String.length (String c rest) =? 0)%nat) with false. cbn [orb].
  unfold QOS_PROC_CWD_MAX. rewrite (Nat.ltb_antisym 128). destruct (Nat.leb_spec 128 (String.length (String c rest))); [done|].
  by rewrite wrap_small by (unfold in_width; lia).
Qed.

Lemma good_cwd_ok path p :
  good_cwd path = true → proc_ok p → proc_ok (with_cwd path (Z.of_nat (String.length path)) p).
Proof. by intros Hg []. Qed.

(** Updates of the signal state, and of the exit state. *)
Lemma updates_sig pid (ok : bool) (R : pcb → pcb → Prop) (F : signals → signals) s x :
  proc_wf s →
  x = match find_pid pid s with
      | None => (-1, s)
      | Some i => if ok then (0, set_proc i (with_sig (F (p_sig (get_proc i s))) (get_proc i s)) s) else (-1, s)
      end →
  (∀ b, sig_ok (b_sig b) → ok = true → sig_ok (F (b_sig b)) ∧ R b (b_with_sig (F (b_sig b)) b)) →
  proc_wf x.2 ∧ updates pid (λ _, ok) R (procs_abs s) x.1 (procs_abs x.2).
Proof.
  intros Hwf Hx HF. apply (updates_intro pid _ _ (λ p, with_sig (F (p_sig p)) p) s); [done|done|].
  intros p Hok Ho. destruct (HF (pcb_of p) (po_sig _ Hok) Ho) as [Hs HR].
  do 3 (split; [done|]). split; [by apply with_sig_ok|done].
Qed.

Lemma updates_life pid (ok : pcb → bool) (F : life → life) s x :
  proc_wf s →
  x = match find_pid pid s with
      | None => (-1, s)
      | Some i => if ok (pcb_of (get_proc i s))
                  then (0, set_proc i (with_life (F (p_life (get_proc i s))) (get_proc i s)) s) else (-1, s)
      end →
  proc_wf x.2 ∧ updates pid ok (λ b b', b' = b_with_life (F (b_life b)) b) (procs_abs s) x.1 (procs_abs x.2).
Proof.
  intros Hwf Hx. apply (updates_intro pid _ _ (λ p, with_life (F (p_life p)) p) s); [done|done|].
  intros p Hok _. do 3 (split; [done|]). split; [by apply with_life_ok|done].
Qed.

Lemma set_mask_refines pid mask s x :
  proc_wf s → in_width 32 mask →
  x = match find_pid pid s with
      | None => (-1, s)
      | Some i => (0, set_proc i (with_sig (set_blocked (Z.land mask (bnot 32 unmaskable_bits)) (p_sig (get_proc i s)))
                                           (get_proc i s)) s)
      end →
  proc_wf x.2 ∧
  updates pid (λ _, true) (λ b b', ∃ mask', sanitised mask mask' ∧ b' = b_with_sig (set_blocked mask' (b_sig b)) b)
    (procs_abs s) x.1 (procs_abs x.2).
Proof.
  intros Hwf Hm Hx. apply (updates_sig pid true _ (set_blocked (Z.land mask (bnot 32 unmaskable_bits))) s); [done|done|].
  intros b Hg _. pose proof (mask_sanitised _ Hm). split; [by eapply set_blocked_ok|by eexists].
Qed.

Lemma exec_reset_refines pid s :
  proc_wf s →
  let '(r, s') := qos_proc_exec_signal_reset pid s in
  proc_wf s' ∧ proc_spec (PExecReset pid) (procs_abs s) r None (procs_abs s').
Proof.
  intros Hwf.
  pose proof (updates_sig pid true (λ b b', ∃ mask, sanitised (sig_blocked (b_sig b)) mask ∧
      b' = b_with_sig {| sig_handlers := keep_ignored (sig_handlers (b_sig b)); sig_pending := 0;
                         sig_blocked := mask; sig_altstack := sig_altstack (b_sig b) |} b)
    (λ g, {| sig_handlers := keep_ignored (sig_handlers g); sig_pending := 0;
             sig_blocked := Z.land (sig_blocked g) (bnot 32 unmaskable_bits);
             sig_altstack := sig_altstack g |}) s (qos_proc_exec_signal_reset pid s) Hwf eq_refl) as H.
  destruct (qos_proc_exec_signal_reset pid s) as [r s']. apply H.
  intros b Hg _. pose proof (mask_sanitised _ (so_blocked _ Hg)) as Hm. split; [by apply keep_ignored_ok|by eexists].
Qed.

Lemma handler_refines pid sg h s :
  proc_wf s →
  let '(r, s') := qos_proc_signal_set_handler pid sg h s in
  proc_wf s' ∧ proc_spec (PHandler pid sg h) (procs_abs s) r None (procs_abs s').
Proof.
  intros Hwf. pose proof (updates_sig pid (signum_valid sg && (negb (unmaskable sg) || (h =? QOS_SIG_DFL)))
    (λ b b', b' = b_with_sig (set_handlers (<[Z.to_nat sg := h]> (sig_handlers (b_sig b))) (b_sig b)) b)
    (λ g, set_handlers (<[Z.to_nat sg := h]> (sig_handlers g)) g) s (qos_proc_signal_set_handler pid sg h s) Hwf) as H.
  destruct (qos_proc_signal_set_handler pid sg h s) as [r s'] eqn:E. apply H.
  - rewrite <- E. unfold qos_proc_signal_set_handler, unmaskable. destruct (find_pid pid s); [|done].
    destruct (signum_valid sg); [|done]. cbn [negb andb].
    by destruct ((sg =? QOS_SIGKILL) || (sg =? QOS_SIGSTOP)), (h =? QOS_SIG_DFL).
  - intros b Hg [Hv Hh]%andb_true_iff. split; [by apply handler_insert_ok|done].
Qed.

Lemma next_refines pid s :
  proc_wf s →
  let '(r, s') := qos_proc_signal_next pid s in
  proc_wf s' ∧ proc_spec (PNext pid) (procs_abs s) r None (procs_abs s').
Proof.
  intros Hwf. pose proof (find_pid_abs pid s Hwf) as Hp. cbn [proc_spec].
  destruct (find_pid pid s) as [i|] eqn:Hi; [|by unfold qos_proc_signal_next; rewrite Hi, Hp].
  destruct Hp as (p & Hl & _ & Hu & Hk & Hok & Hn & ->).
  destruct (signal_next_spec pid i p s Hwf Hi Hl Hu Hk Hok) as (r & p' & -> & Hd & Hok' & Hu' & Hk' & Hn').
  destruct (set_proc_refines pid i p' s Hwf Hi Hu' Hk') as [Hwf' Ha]; [congruence|done|].
  rewrite Ha. eauto.
Qed.

Lemma proc_step_refines o s :
  proc_wf s → proc_op_ok o →
  let '(r, st, s') := proc_exec o s in proc_wf s' ∧ proc_spec o (procs_abs s) r st (procs_abs s').
Proof.
  intros Hwf Ho. destruct o as [pid ppid|parent child|pid|pid code|parent pid options|pid path|pid|pid im
    |pid sg h|pid mask|pid sg|pid|pid sg|pid f|pid a]; cbn [proc_exec proc_op_ok] in *.
  - pose proof (create_refines pid ppid s Hwf Ho) as H. by destruct (qos_proc_create pid ppid s).
  - pose proof (fork_refines parent child s Hwf Ho) as H. by destruct (qos_proc_fork parent child s).
  - pose proof (remove_refines pid s Hwf) as H. by destruct (qos_proc_remove pid s).
  - apply (updates_life pid _ (λ _, {| exited := true; stopped := false; exit_code := code |}) s); [done|].
    unfold qos_proc_exit. destruct (find_pid pid s); [|done]. cbn [pcb_of b_life]. by destruct (exited _).
  - by apply wait_refines.
  - apply (updates_intro pid _ _ (with_cwd path (Z.of_nat (String.length path))) s); [done| |].
    + unfold qos_proc_cwd_set. destruct (find_pid pid s); [|done]. apply cwd_set_idx_good.
    + intros p Hok Hg. do 3 (split; [done|]). split; [by apply good_cwd_ok|done].
  - pose proof (exec_reset_refines pid s Hwf) as H. by destruct (qos_proc_exec_signal_reset pid s).
  - apply (updates_intro pid _ _ (with_exec im) s); [done|by unfold qos_proc_exec_image_set; destruct (find_pid pid s)|].
    intros p Hok _. do 3 (split; [done|]). split; [by apply with_exec_ok|done].
  - pose proof (handler_refines pid sg h s Hwf) as H. by destruct (qos_proc_signal_set_handler pid sg h s).
  - by apply (set_mask_refines pid mask s).
  - apply (updates_sig pid _ _ (λ g, set_pending (Z.lor (sig_pending g) (signum_bit sg)) g) s); [done| |].
    + unfold qos_proc_signal_send. destruct (find_pid pid s); [|done]. by destruct (signum_valid sg).
    + intros b Hg Hv. split; [by apply send_ok|done].
  - pose proof (next_refines pid s Hwf) as H. by destruct (qos_proc_signal_next pid s).
  - apply (updates_life pid _ (default_life sg) s); [done|].
    unfold qos_proc_signal_apply_default. destruct (find_pid pid s); [|done]. by destruct (signum_valid sg).
  - apply (set_mask_refines pid (saved_mask f) s); [done|done|].
    unfold qos_proc_signal_sigreturn. by destruct (find_pid pid s).
  - apply (updates_sig pid true _ (set_altstack a) s); [done|by destruct a|]. by intros b [] _.
Qed.

Fixpoint proc_run (ops : list proc_op) (s : procs) : list (Z * option Z) * procs :=
  match ops with
  | [] => ([], s)
  | o :: ops' => let '(r, st, s1) := proc_exec o s in
                 let '(rs, s2) := proc_run ops' s1 in ((r, st) :: rs, s2)
  end.

(** The results and the final map of a sequence of specified steps. *)
Fixpoint proc_spec_run (ops : list proc_op) (m : gmap Z pcb) (rs : list (Z * option Z)) (m' : gmap Z pcb) : Prop :=
  match ops, rs with
  | [], [] => m' = m
  | o :: ops', (r, st) :: rs' => ∃ m1, proc_spec o m r st m1 ∧ proc_spec_run ops' m1 rs' m'
  | _, _ => False
  end.

Lemma proc_run_refines ops s :
  proc_wf s → Forall proc_op_ok ops →
  let '(rs, s') := proc_run ops s in proc_wf s' ∧ proc_spec_run ops (procs_abs s) rs (procs_abs s').
Proof.
  revert s. induction ops as [|o ops IH]; intros s Hwf Hok; cbn [proc_run proc_spec_run]; [done|].
  apply Forall_cons in Hok as [Ho Hok].
  pose proof (proc_step_refines o s Hwf Ho) as Hs. destruct (proc_exec o s) as [[r st] s1]. destruct Hs as [Hwf1 Hs].
  specialize (IH s1 Hwf1 Hok). destruct (proc_run ops s1) as [rs s2]. destruct IH as [? ?]. eauto.
Qed.

(** ** Correctness *)

(** What the read-only operations return for a pid whose block is [v]. *)
Definition queries_read (pid : Z) (v : option pcb) (s : procs) : Prop :=
  match v with
  | None =>
      qos_proc_parent pid s = -1 ∧ qos_proc_alive pid s = 0 ∧ qos_proc_is_stopped pid s = 0
      ∧ qos_proc_name_get pid true 32 s = (-1, None) ∧ qos_proc_cwd_get pid true 128 s = (-1, None)
      ∧ qos_proc_signal_mask pid true s = (-1, None) ∧ qos_proc_signal_pending pid true s = (-1, None)
      ∧ qos_proc_exec_image_get pid true s = (-1, None) ∧ qos_proc_signal_altstack_get pid true s = (-1, None)
  | Some b =>
      qos_proc_parent pid s = i32 (b_parent b)
      ∧ qos_proc_alive pid s = (if exited (b_life b) then 0 else 1)
      ∧ qos_proc_is_stopped pid s = (if stopped (b_life b) then 1 else 0)
      ∧ qos_proc_name_get pid true 32 s
        = (Z.of_nat (5 + length (decimal pid)), Some (prefix ++ decimal pid ++ [0]))
      ∧ qos_proc_cwd_get pid true 128 s = (Z.of_nat (String.length (b_cwd b)), Some (b_cwd b))
      ∧ qos_proc_signal_mask pid true s = (0, Some (sig_blocked (b_sig b)))
      ∧ qos_proc_signal_pending pid true s = (0, Some (sig_pending (b_sig b)))
      ∧ qos_proc_exec_image_get pid true s = (0, Some (b_exec b))
      ∧ qos_proc_signal_altstack_get pid true s = (0, Some (sig_altstack (b_sig b)))
  end.

Lemma good_cwd_length c : good_cwd c = true → (String.length c < 128)%nat.
Proof. destruct c as [|a c]; [done|]. cbn [good_cwd]. intros [_ H]%andb_true_iff. by apply Nat.ltb_lt in H. Qed.

Lemma queries_read_abs pid s : proc_wf s → queries_read pid (procs_abs s !! pid) s.
Proof.
  intros Hwf. pose proof (find_pid_abs pid s Hwf) as Hp.
  destruct (find_pid pid s) as [i|] eqn:Hi; last first.
  { rewrite Hp. unfold queries_read, qos_proc_parent, qos_proc_alive, qos_proc_is_stopped, qos_proc_name_get,
      qos_proc_cwd_get, qos_proc_signal_mask, qos_proc_signal_pending, qos_proc_exec_image_get, qos_proc_signal_altstack_get.
    rewrite Hi. done. }
  destruct Hp as (p & _ & Hg & _ & Hk & Hok & _ & ->).
  unfold queries_read, qos_proc_parent, qos_proc_alive, qos_proc_is_stopped, qos_proc_name_get,
    qos_proc_cwd_get, qos_proc_signal_mask, qos_proc_signal_pending, qos_proc_exec_image_get, qos_proc_signal_altstack_get.
  rewrite Hi, Hg. cbn [negb orb Z.eqb]. do 3 (split; [done|]).
  destruct (po_name _ Hok) as [rest Hnm]. rewrite Hk in Hnm.
  pose proof (decimal_length pid ltac:(rewrite <- Hk; apply Hok)) as Hd.
  rewrite (po_name_len _ Hok), (po_cwd_len _ Hok), Hnm, Hk. cbn [pcb_of b_cwd].
  pose proof (good_cwd_length _ (po_cwd _ Hok)).
  rewrite (proj2 (Z.ltb_ge 32 _)), (proj2 (Z.ltb_ge 128 _)) by lia.
  split; [|done]. do 2 f_equal. exact (name_take prefix rest pid).
Qed.

(** C4: The process table is a map from pids to process control blocks. From
    reset, any sequence of the fifteen state-changing operations returns what
    the specification allows and leaves the specified map: pids are unique and
    not 0, at most 256 live, fork copies the parent's directory, signal
    dispositions and image, wait reaps a zombie child, signal delivery follows
    [delivers]. The queries read the map, names are "proc-" and the pid, and no
    process ever blocks, ignores or catches SIGKILL or SIGSTOP. *)
Theorem proc_refines_pcb_map ops pid :
  Forall proc_op_ok ops →
  let '(rs, s) := proc_run ops qos_proc_reset in
  let m := procs_abs s in
  proc_spec_run ops ∅ rs m
  ∧ qos_proc_count s = Z.of_nat (size m) ∧ (size m <= 256)%nat ∧ m !! 0 = None
  ∧ queries_read pid (m !! pid) s
  ∧ (∀ b n, m !! pid = Some b → n = QOS_SIGKILL ∨ n = QOS_SIGSTOP →
       Z.testbit (sig_blocked (b_sig b)) n = false ∧ handler_of (b_sig b) n = QOS_SIG_DFL).
Proof.
  intros Hok. pose proof (proc_run_refines ops _ proc_reset_wf Hok) as H. rewrite proc_reset_abs in H.
  destruct (proc_run ops qos_proc_reset) as [rs s]. destruct H as [Hwf H]. cbv zeta.
  split; [done|]. rewrite procs_abs_size by done. split; [apply Hwf|]. split; [by apply proc_count_le|].
  split; [|split; [by apply queries_read_abs|]].
  - destruct (procs_abs s !! 0) as [b|] eqn:Hb; [|done].
    destruct (abs_live 0 b s Hwf Hb) as (i & p & _ & Hp & Hu & Hk & _).
    destruct (live_slot_abs i p s Hwf Hp Hu) as (_ & _ & Hpo). pose proof (po_pid _ Hpo). lia.
  - intros b n Hb Hn. destruct (abs_live pid b s Hwf Hb) as (i & p & _ & Hp & Hu & _ & ->).
    destruct (live_slot_abs i p s Hwf Hp Hu) as (_ & _ & Hpo). destruct (po_sig _ Hpo).
    split; [apply so_masked0; by destruct Hn as [-> | ->]|].
    unfold handler_of. cbn [pcb_of b_sig].
    by destruct Hn as [-> | ->]; apply nth_lookup_Some.
Qed.

Definition demo_procs : list proc_op :=
  [PCreate 1 0; PFork 1 2; PHandler 2 10 4096; PMask 2 (2 ^ 32 - 1); PSend 2 10; PSend 2 9; PNext 2; PWait 1 (-1) 0].

Lemma proc_refines_pcb_map_witness :
  Forall proc_op_ok demo_procs ∧ queries_read 1 (procs_abs (proc_run demo_procs qos_proc_reset).2 !! 1)
                                   (proc_run demo_procs qos_proc_reset).2.
Proof.
  assert (Forall proc_op_ok demo_procs) as Hok by (repeat constructor; unfold in_width; lia).
  split; [exact Hok|]. pose proof (proc_refines_pcb_map demo_procs 1 Hok) as H.
  destruct (proc_run demo_procs qos_proc_reset) as [rs s]. exact (proj1 (proj2 (proj2 (proj2 (proj2 H))))).
Defined.

Fixpoint after_nexts (k : nat) (pid : Z) (s : procs) : procs :=
  match k with
  | O => s
  | S k' => after_nexts k' pid (qos_proc_signal_next pid s).2
  end.

Lemma sig_ok_abs pid b s : proc_wf s → procs_abs s !! pid = Some b → sig_ok (b_sig b).
Proof.
  intros Hwf Hb. destruct (abs_live pid b s Hwf Hb) as (i & p & _ & Hp & Hu & _ & ->).
  destruct (live_slot_abs i p s Hwf Hp Hu) as (_ & _ & Hpo). apply (po_sig _ Hpo).
Qed.

(** Delivery moves up: a pending SIGKILL comes after at most the signals below it. *)
Lemma kill_within fuel a pid b s :
  proc_wf s → procs_abs s !! pid = Some b → Z.testbit (sig_pending (b_sig b)) 9 = true →
  1 <= a <= 9 → 9 - a <= Z.of_nat fuel →
  (∀ n, n < a → can_deliver (b_sig b) n = true → handler_of (b_sig b) n = QOS_SIG_IGN) →
  ∃ k b', (k <= fuel)%nat
    ∧ (qos_proc_signal_next pid (after_nexts k pid s)).1 = 9
    ∧ procs_abs (qos_proc_signal_next pid (after_nexts k pid s)).2 !! pid = Some b'
    ∧ b_life b' = {| exited := true; stopped := false; exit_code := 137 |}.
Proof.
  revert a b s. induction fuel as [fuel IH] using lt_wf_ind. intros a b s Hwf Hb H9 Ha Hf Hlow.
  pose proof (next_refines pid s Hwf) as Hn. destruct (qos_proc_signal_next pid s) as [r s'] eqn:E.
  destruct Hn as [Hwf' Hn]. cbn [proc_spec] in Hn. rewrite Hb in Hn. destruct Hn as (b' & Hd & Hm).
  destruct (sig_ok_abs pid b s Hwf Hb) as [_ Hk _ _ _ _ Hmask].
  assert (handler_of (b_sig b) 9 = QOS_SIG_DFL) as H9h by (by apply nth_lookup_Some).
  assert (can_deliver (b_sig b) 9 = true) as H9c by (unfold can_deliver; rewrite H9, Hmask; done).
  assert (procs_abs s' !! pid = Some b') as Hb' by (rewrite Hm; apply lookup_insert_eq).
  assert (a <= r <= 9 ∧ handler_of (b_sig b) r ≠ QOS_SIG_IGN) as [Hr Hri].
  { destruct (dl_choice _ _ _ Hd) as [[-> Hc]|(Hc & Hh & Hmin)]; [by specialize (Hc 9 H9c); rewrite H9h in Hc|].
    split; [|done]. split.
    - destruct (Z.le_gt_cases a r); [done|]. by specialize (Hlow r ltac:(done) Hc).
    - destruct (Z.le_gt_cases r 9); [done|]. by specialize (Hmin 9 H9c ltac:(lia)); rewrite H9h in Hmin. }
  destruct (decide (r = 9)) as [->|Hne].
  - exists 0%nat, b'. change (after_nexts 0 pid s) with s. rewrite E. split; [lia|]. split; [done|]. split; [done|].
    rewrite (dl_life _ _ _ Hd), H9h. done.
  - pose proof (dl_rest _ _ _ Hd) as Hrest.
    assert (sig_handlers (b_sig b') = sig_handlers (b_sig b) ∧ sig_blocked (b_sig b') = sig_blocked (b_sig b)) as [Hh Hbl]
      by (by rewrite Hrest).
    destruct (IH (fuel - 1)%nat ltac:(lia) (r + 1) b' s') as (k & b2 & Hk2 & E2); [done|done| |lia|lia| |].
    + rewrite (proj2 (dl_pending _ _ _ Hd)) by lia. rewrite H9, H9c. cbn [andb].
      rewrite (proj2 (Z.eqb_neq r 0)), (proj2 (Z.leb_gt 9 r)) by lia. done.
    + intros n Hn Hc. exfalso. pose proof (can_deliver_range _ _ Hc) as Hrg. unfold can_deliver in Hc.
      rewrite (proj2 (dl_pending _ _ _ Hd)), Hbl in Hc by lia.
      destruct (can_deliver (b_sig b) n) eqn:Hcn.
      * rewrite (proj2 (Z.leb_le n r)), orb_true_r in Hc by lia. cbn [andb negb] in Hc.
        by rewrite !andb_false_r in Hc.
      * unfold can_deliver in Hcn. cbn [andb negb] in Hc. rewrite andb_true_r in Hc. congruence.
    + exists (S k), b2. cbn [after_nexts]. rewrite E. split; [lia|done].
Qed.

(** SIGKILL always takes effect. In any state reached from reset, once
    [qos_proc_signal_send] has posted SIGKILL to a process, whatever its mask
    and handlers, one of the next nine calls of [qos_proc_signal_next] delivers
    it (only signals 1 to 8 can come before) and leaves the process exited with
    code 137. *)
Theorem proc_sigkill_delivered ops pid b :
  Forall proc_op_ok ops →
  let s := (proc_run ops qos_proc_reset).2 in
  procs_abs s !! pid = Some b →
  let s1 := (qos_proc_signal_send pid QOS_SIGKILL s).2 in
  ∃ k b', (k <= 8)%nat
    ∧ (qos_proc_signal_next pid (after_nexts k pid s1)).1 = QOS_SIGKILL
    ∧ procs_abs (qos_proc_signal_next pid (after_nexts k pid s1)).2 !! pid = Some b'
    ∧ b_life b' = {| exited := true; stopped := false; exit_code := 137 |}.
Proof.
  intros Hok s Hb s1. pose proof (proc_run_refines ops _ proc_reset_wf Hok) as H.
  assert (proc_wf s) as Hwf by (unfold s; destruct (proc_run ops qos_proc_reset); apply H). clear H.
  pose proof (proc_step_refines (PSend pid QOS_SIGKILL) s Hwf I) as H. cbn [proc_exec proc_spec] in H.
  unfold updates in H. rewrite Hb in H. fold s1 in H. destruct H as (Hwf1 & _ & b1 & -> & Ha).
  eapply (kill_within 8 1); [done|by rewrite Ha, lookup_insert_eq| |lia|lia|].
  - cbn [b_sig b_with_sig set_pending sig_pending]. unfold signum_bit, QOS_SIGKILL.
    rewrite Z.lor_spec, bit_testbit by lia. apply orb_true_r.
  - intros n Hn Hc. pose proof (can_deliver_range _ _ Hc). lia.
Qed.

Definition demo_blocked : list proc_op :=
  [PCreate 1 0; PMask 1 (2 ^ 32 - 1); PHandler 1 5 4096; PHandler 1 9 1; PSend 1 5].

Lemma proc_sigkill_delivered_witness :
  ∃ k, (k <= 8)%nat ∧
  (qos_proc_signal_next 1 (after_nexts k 1 (qos_proc_signal_send 1 QOS_SIGKILL (proc_run demo_blocked qos_proc_reset).2).2)).1 = 9.
Proof.
  assert (Forall proc_op_ok demo_blocked) as Hok by (repeat constructor; unfold in_width; lia).
  destruct (procs_abs (proc_run demo_blocked qos_proc_reset).2 !! 1) as [b|] eqn:Hb; [|vm_compute in Hb; discriminate].
  destruct (proc_sigkill_delivered demo_blocked 1 b Hok Hb) as (k & b' & Hk & H & _). exists k. split; [exact Hk|exact H].
Defined.

Lemma i32_range x : in_width 32 x → - 2 ^ 31 <= i32 x < 2 ^ 31 ∧ u32 (i32 x) = x ∧ (x ≠ 2 ^ 32 - 1 → i32 x ≠ -1).
Proof.
  unfold in_width. intros Hx. rewrite wrap_sext, wrap_small by (unfold in_width; lia).
  unfold sext. rewrite Z.mod_small by lia. destruct (Z.ltb_spec x (2 ^ (32 - 1))); lia.
Qed.

(** Wait for one given child. *)
Lemma wait_child_spec parent c options s :
  proc_wf s → 0 < c < 2 ^ 32 - 1 → is_Some (procs_abs s !! parent) →
  let '(r, st, s') := qos_proc_wait parent (i32 c) true options s in
  proc_wf s' ∧
  match procs_abs s !! c with
  | Some b =>
      if b_parent b =? parent then
        if exited (b_life b) then r = i32 c ∧ st = Some (exit_code (b_life b)) ∧ procs_abs s' = delete c (procs_abs s)
        else r = no_hang options ∧ st = None ∧ procs_abs s' = procs_abs s
      else r = -1 ∧ st = None ∧ procs_abs s' = procs_abs s
  | None => r = no_hang options ∧ st = None ∧ procs_abs s' = procs_abs s
  end.
Proof.
  intros Hwf Hc [q Hq]. destruct (i32_range c ltac:(unfold in_width; lia)) as (Hrg & Hu & Hne).
  specialize (Hne ltac:(lia)). pose proof (wait_refines parent (i32 c) options s Hwf Hrg) as H.
  destruct (qos_proc_wait parent (i32 c) true options s) as [[r st] s']. destruct H as [Hwf' H]. split; [done|].
  unfold wait_spec, zombie_of in H. rewrite Hu, Hq in H. rewrite (proj2 (Z.eqb_neq _ _)) in H by done.
  rewrite bool_decide_eq_false_2 in H by done.
  destruct H as [(c' & b & Hb & _ & [Hp Hz] & [?| ->] & -> & -> & ->)|(Hno & -> & -> & ->)]; [done| |].
  - rewrite Hb, Hp, Z.eqb_refl, Hz. done.
  - destruct (procs_abs s !! c) as [b|] eqn:Hb; [|done].
    destruct (Z.eqb_spec (b_parent b) parent) as [Hp|Hp]; [|done].
    destruct (exited (b_life b)) eqn:He; [|done]. by specialize (Hno c b Hb ltac:(by right) ltac:(done)).
Qed.

(** C34: Fork, exit and wait. In any state reached from reset, forking a live
    parent into a fresh pid, neither 0 nor 2^32 - 1, when there is room succeeds;
    until the child exits a wait for it that must not hang returns 0; after the child
    exits with a code, wait returns the child's pid, read as a signed 32-bit number
    (so the pid itself below 2^31), and that code, and the table stands for the same
    processes as before the fork; a second wait fails. The wait too is given the pid
    as a signed 32-bit number; 2^32 - 1 is left out because it would be -1, any child. *)
Theorem proc_fork_exit_wait ops parent child code :
  Forall proc_op_ok ops → 0 < child < 2 ^ 32 - 1 →
  let s := (proc_run ops qos_proc_reset).2 in
  let m := procs_abs s in
  is_Some (m !! parent) → m !! child = None → (size m < QOS_PROC_MAX)%nat →
  let '(r1, s1) := qos_proc_fork parent child s in
  let '(r2, s2) := qos_proc_exit child code s1 in
  let '(r3, st, s3) := qos_proc_wait parent (i32 child) true 0 s2 in
  r1 = 0 ∧ (qos_proc_wait parent (i32 child) true QOS_WAIT_WNOHANG s1).1 = (0, None)
  ∧ r2 = 0 ∧ r3 = i32 child ∧ st = Some code ∧ procs_abs s3 = m
  ∧ (qos_proc_wait parent (i32 child) true 0 s3).1 = (-1, None).
Proof.
  intros Hok Hch s m [b Hb] Hc Hsz. pose proof (proc_run_refines ops _ proc_reset_wf Hok) as H.
  assert (proc_wf s) as Hwf by (unfold s; destruct (proc_run ops qos_proc_reset); apply H). clear H.
  assert (parent ≠ child) as Hpc by congruence.
  pose proof (fork_refines parent child s Hwf ltac:(unfold in_width; lia)) as H1.
  destruct (qos_proc_fork parent child s) as [r1 s1]. destruct H1 as [Hwf1 H1]. cbn [proc_spec] in H1. fold m in H1.
  rewrite Hb, bool_decide_eq_true_2, (proj2 (Z.eqb_neq _ _)), (proj2 (Nat.ltb_lt _ _)) in H1 by (done || lia).
  destruct H1 as [-> H1]. cbn [negb andb] in H1.
  pose proof (proc_step_refines (PExit child code) s1 Hwf1 I) as H2. cbn [proc_exec proc_spec] in H2. unfold updates in H2.
  destruct (qos_proc_exit child code s1) as [r2 s2]. cbn [fst snd] in H2. rewrite H1, lookup_insert_eq in H2.
  destruct H2 as (Hwf2 & -> & b2 & -> & H2). rewrite insert_insert_eq in H2.
  pose proof (wait_child_spec parent child 0 s2 Hwf2 ltac:(lia)) as H3.
  rewrite H2, lookup_insert_ne, lookup_insert_eq in H3 by done. specialize (H3 ltac:(eauto)).
  destruct (qos_proc_wait parent (i32 child) true 0 s2) as [[r3 st] s3]. cbn in H3. rewrite Z.eqb_refl in H3.
  destruct H3 as (Hwf3 & -> & -> & H3). rewrite delete_insert_eq, delete_id in H3 by done.
  pose proof (wait_child_spec parent child QOS_WAIT_WNOHANG s1 Hwf1 ltac:(lia)) as H4.
  rewrite H1, lookup_insert_ne, lookup_insert_eq in H4 by done. specialize (H4 ltac:(eauto)).
  destruct (qos_proc_wait parent (i32 child) true QOS_WAIT_WNOHANG s1) as [[r4 st4] s4]. cbn in H4. rewrite Z.eqb_refl in H4.
  destruct H4 as (_ & -> & -> & _).
  pose proof (wait_child_spec parent child 0 s3 Hwf3 ltac:(lia)) as H5. rewrite H3, Hc in H5. specialize (H5 ltac:(eauto)).
  destruct (qos_proc_wait parent (i32 child) true 0 s3) as [[r5 st5] s5]. destruct H5 as (_ & -> & -> & _). done.
Qed.

Lemma proc_fork_exit_wait_witness :
  (qos_proc_wait 1 2 true 0 (qos_proc_exit 2 7 (qos_proc_fork 1 2 (proc_run [PCreate 1 0] qos_proc_reset).2).2).2).1
  = (2, Some 7).
Proof.
  pose proof (proc_fork_exit_wait [PCreate 1 0] 1 2 7) as H. cbv zeta in H.
  specialize (H ltac:(repeat constructor; unfold in_width; lia) ltac:(lia) ltac:(vm_compute; eauto)
    ltac:(vm_compute; reflexivity) ltac:(apply Nat.ltb_lt; vm_compute; reflexivity)).
  destruct (qos_proc_fork 1 2 _) as [r1 s1]. cbn [snd]. destruct (qos_proc_exit 2 7 s1) as [r2 s2]. cbn [snd].
  change (i32 2) with 2 in H. destruct (qos_proc_wait 1 2 true 0 s2) as [[r3 st] s3].
  destruct H as (_ & _ & _ & -> & -> & _). reflexivity.
Defined.

(** A signal changes the status of a process that has already exited: the
    default action is applied to a zombie as well, so the code reported by wait
    is not the one given to exit. *)
Theorem proc_signal_rewrites_exit_status code :
  (proc_run [PCreate 1 0; PFork 1 2; PExit 2 code; PSend 2 15; PNext 2; PWait 1 2 0] qos_proc_reset).1
  = [(0, None); (0, None); (0, None); (0, None); (15, None); (2, Some 143)].
Proof. vm_compute. reflexivity. Qed.
