(* ===== verification/Elf.v ===== *)
(** * ELF images (c-os/kernel/syscall/syscall.c, [parse_exec_elf_image])

    exec and dlopen accept a file when this parser does.  A byte read outside
    the image is undefined in C; here it makes the parser return [None], so that
    memory safety is the theorem that [None] never comes out. *)

From S2P Require Import Prelude Proc.

Definition QOS_ELF_CLASS_64 : Z := 2.
Definition QOS_ELF_DATA_LSB : Z := 1.
Definition QOS_ELF_ET_EXEC : Z := 2.
Definition QOS_ELF_ET_DYN : Z := 3.
Definition QOS_ELF_EM_X86_64 : Z := 0x3E.
Definition QOS_ELF_EM_AARCH64 : Z := 0xB7.
Definition QOS_ELF_PT_LOAD : Z := 1.
Definition QOS_ELF_PT_INTERP : Z := 3.
Definition UINT64_MAX : Z := 2 ^ 64 - 1.

(** [image[i]]; the image is the list of its [image_len] bytes. *)
Definition byte_at (image : list Z) (i : Z) : option Z :=
  if i <? 0 then None else image !! Z.to_nat i.

(** [p[0] | p[1] << 8 | ...] over [n] bytes at [p]. *)
Fixpoint load_le (image : list Z) (p : Z) (n : nat) (shift : Z) : option Z :=
  match n with
  | O => Some 0
  | S n' => b ← byte_at image p; r ← load_le image (p + 1) n' (shift + 8); Some (Z.lor (Z.shiftl b shift) r)
  end.

Definition elf_u16 (image : list Z) (p : Z) : option Z := load_le image p 2 0.
Definition elf_u32 (image : list Z) (p : Z) : option Z := load_le image p 4 0.
Definition elf_u64 (image : list Z) (p : Z) : option Z := load_le image p 8 0.

(** The locals the program-header loop updates. *)
Record ph_acc := { pa_loads : Z; pa_has_interp : Z; pa_interp_off : Z; pa_interp_len : Z }.

Definition image_len (image : list Z) : Z := Z.of_nat (length image).

(** One round of the loop: [None] undefined, [Some None] the [return -1]. *)
Definition ph_step (image : list Z) (phoff : Z) (acc : ph_acc) : option (option ph_acc) :=
  p_type ← elf_u32 image phoff;
  p_offset ← elf_u64 image (phoff + 8);
  p_vaddr ← elf_u64 image (phoff + 16);
  p_filesz ← elf_u64 image (phoff + 32);
  p_memsz ← elf_u64 image (phoff + 40);
  p_align ← elf_u64 image (phoff + 48);
  let len := image_len image in
  if p_type =? QOS_ELF_PT_LOAD then
    if p_memsz <? p_filesz then Some None
    else if negb (p_filesz =? 0) && ((len <? p_offset) || (u64 (len - p_offset) <? p_filesz)) then Some None
    else if negb (p_align =? 0) && negb (p_vaddr mod p_align =? p_offset mod p_align) then Some None
    else Some (Some {| pa_loads := u16 (pa_loads acc + 1); pa_has_interp := pa_has_interp acc;
                       pa_interp_off := pa_interp_off acc; pa_interp_len := pa_interp_len acc |})
  else if p_type =? QOS_ELF_PT_INTERP then
    if (p_filesz =? 0) || (len <? p_offset) || (u64 (len - p_offset) <? p_filesz) then Some None
    else
      last ← byte_at image (u64 (p_offset + p_filesz - 1));
      if negb (last =? 0) then Some None
      else Some (Some {| pa_loads := pa_loads acc; pa_has_interp := 1;
                         pa_interp_off := p_offset; pa_interp_len := p_filesz |})
  else Some (Some acc).

(** [for (i = 0; i < e_phnum; i++)], from index [i], [n] rounds left. *)
Fixpoint ph_loop (image : list Z) (e_phoff e_phentsize : Z) (i : Z) (n : nat) (acc : ph_acc) :
    option (option ph_acc) :=
  match n with
  | O => Some (Some acc)
  | S n' =>
      r ← ph_step image (u64 (e_phoff + u64 (i * e_phentsize))) acc;
      match r with
      | None => Some None
      | Some acc' => ph_loop image e_phoff e_phentsize (i + 1) n' acc'
      end
  end.

Definition parse_exec_elf_image (image : list Z) : option (option qos_proc_exec_image_t) :=
  if image_len image <? 64 then Some None
  else
    m0 ← byte_at image 0; m1 ← byte_at image 1; m2 ← byte_at image 2; m3 ← byte_at image 3;
    if negb (m0 =? 0x7F) || negb (m1 =? 69) || negb (m2 =? 76) || negb (m3 =? 70) then Some None
    else
      c ← byte_at image 4; d ← byte_at image 5; v ← byte_at image 6;
      if negb (c =? QOS_ELF_CLASS_64) || negb (d =? QOS_ELF_DATA_LSB) || negb (v =? 1) then Some None
      else
        e_type ← elf_u16 image 16;
        e_machine ← elf_u16 image 18;
        e_phoff ← elf_u64 image 32;
        e_phentsize ← elf_u16 image 54;
        e_phnum ← elf_u16 image 56;
        if (negb (e_type =? QOS_ELF_ET_EXEC) && negb (e_type =? QOS_ELF_ET_DYN))
           || (negb (e_machine =? QOS_ELF_EM_X86_64) && negb (e_machine =? QOS_ELF_EM_AARCH64)) then Some None
        else if (e_phnum =? 0) || (e_phentsize <? 56) then Some None
        else if image_len image <? e_phoff then Some None
        else if u64 (UINT64_MAX - e_phoff) / e_phentsize <? e_phnum then Some None
        else if image_len image <? u64 (e_phoff + u64 (e_phnum * e_phentsize)) then Some None
        else
          r ← ph_loop image e_phoff e_phentsize 0 (Z.to_nat e_phnum)
                {| pa_loads := 0; pa_has_interp := 0; pa_interp_off := 0; pa_interp_len := 0 |};
          match r with
          | None => Some None
          | Some acc =>
              if pa_loads acc =? 0 then Some None
              else
                e_entry ← elf_u64 image 24;
                Some (Some {| entry := e_entry; phoff := e_phoff; phentsize := e_phentsize; phnum := e_phnum;
                              load_count := pa_loads acc; has_interp := pa_has_interp acc;
                              interp_off := pa_interp_off acc; interp_len := pa_interp_len acc |})
          end.

Definition parse_shared_elf_image (image : list Z) : option Z :=
  if image_len image <? 64 then Some (-1)
  else
    e_type ← elf_u16 image 16;
    if negb (e_type =? QOS_ELF_ET_DYN) then Some (-1)
    else r ← parse_exec_elf_image image; Some (match r with Some _ => 0 | None => -1 end).

(** ** Specification *)

(** Little-endian value of a byte string. *)
Definition le (bs : list Z) : Z := foldr (λ b acc, b + 256 * acc) 0 bs.

(** The [n]-byte field at an offset. *)
Definition field (image : list Z) (p : Z) (n : nat) : Z := le (take n (drop (Z.to_nat p) image)).

Definition is_load (image : list Z) (ph : Z) : bool := field image ph 4 =? QOS_ELF_PT_LOAD.
Definition is_interp (image : list Z) (ph : Z) : bool := field image ph 4 =? QOS_ELF_PT_INTERP.
Definition seg_offset (image : list Z) (ph : Z) : Z := field image (ph + 8) 8.
Definition seg_vaddr (image : list Z) (ph : Z) : Z := field image (ph + 16) 8.
Definition seg_filesz (image : list Z) (ph : Z) : Z := field image (ph + 32) 8.
Definition seg_memsz (image : list Z) (ph : Z) : Z := field image (ph + 40) 8.
Definition seg_align (image : list Z) (ph : Z) : Z := field image (ph + 48) 8.

(** A program header is acceptable: a loadable segment's file part lies in the
    image, is no larger than its memory, and is congruent to its address; an
    interpreter name lies in the image and ends in NUL. *)
Definition seg_ok (image : list Z) (ph : Z) : bool :=
  if is_load image ph then
    (seg_filesz image ph <=? seg_memsz image ph)
    && ((seg_filesz image ph =? 0) || (seg_offset image ph + seg_filesz image ph <=? image_len image))
    && ((seg_align image ph =? 0) || (seg_vaddr image ph mod seg_align image ph =? seg_offset image ph mod seg_align image ph))
  else if is_interp image ph then
    negb (seg_filesz image ph =? 0) && (seg_offset image ph + seg_filesz image ph <=? image_len image)
    && bool_decide (image !! Z.to_nat (seg_offset image ph + seg_filesz image ph - 1) = Some 0)
  else true.

(** The offsets of the program headers. *)
Definition headers (image : list Z) : list Z :=
  (λ i, field image 32 8 + i * field image 54 2) <$> seqZ 0 (field image 56 2).

Definition elf_valid (image : list Z) : bool :=
  (64 <=? image_len image)
  && bool_decide (take 4 image = [0x7F; 69; 76; 70])
  && bool_decide (take 3 (drop 4 image) = [QOS_ELF_CLASS_64; QOS_ELF_DATA_LSB; 1])
  && ((field image 16 2 =? QOS_ELF_ET_EXEC) || (field image 16 2 =? QOS_ELF_ET_DYN))
  && ((field image 18 2 =? QOS_ELF_EM_X86_64) || (field image 18 2 =? QOS_ELF_EM_AARCH64))
  && negb (field image 56 2 =? 0) && (56 <=? field image 54 2)
  && (field image 32 8 + field image 56 2 * field image 54 2 <=? image_len image)
  && forallb (seg_ok image) (headers image) && existsb (is_load image) (headers image).

(** What is recorded of a valid image: the last interpreter wins. *)
Definition elf_describe (image : list Z) : qos_proc_exec_image_t :=
  let interp := last (filter (λ ph, is_interp image ph = true) (headers image)) in
  {| entry := field image 24 8; phoff := field image 32 8; phentsize := field image 54 2;
     phnum := field image 56 2; load_count := Z.of_nat (count_if (is_load image) (headers image));
     has_interp := match interp with Some _ => 1 | None => 0 end;
     interp_off := default 0 (seg_offset image <$> interp);
     interp_len := default 0 (seg_filesz image <$> interp) |}.

(** ** Fields *)

Definition is_bytes (image : list Z) : Prop := Forall (in_width 8) image.

Lemma lor_shift b r : in_width 8 b → Z.lor b (Z.shiftl r 8) = b + 256 * r.
Proof. by apply lor_low. Qed.

Lemma le_range bs : is_bytes bs → 0 <= le bs < 256 ^ Z.of_nat (length bs).
Proof.
  induction 1 as [|b bs Hb _ IH]; [done|]. cbn [le foldr length]. fold (le bs).
  rewrite Nat2Z.inj_succ, Z.pow_succ_r by lia. unfold in_width in Hb. lia.
Qed.

Lemma field_range image p n : is_bytes image → 0 <= field image p n < 256 ^ Z.of_nat n.
Proof.
  intros Hi. unfold field. pose proof (le_range (take n (drop (Z.to_nat p) image))) as H.
  assert (256 ^ Z.of_nat (length (take n (drop (Z.to_nat p) image))) <= 256 ^ Z.of_nat n).
  { apply Z.pow_le_mono_r; [lia|]. rewrite length_take. lia. }
  specialize (H ltac:(by apply Forall_take, Forall_drop)). lia.
Qed.

Lemma byte_at_lookup image i b : 0 <= i → image !! Z.to_nat i = Some b → byte_at image i = Some b.
Proof. intros Hi Hb. unfold byte_at. by rewrite (proj2 (Z.ltb_ge i 0)) by lia. Qed.

(** A load inside the image is the field, at its shift. *)
Lemma load_le_spec image n p sh :
  is_bytes image → 0 <= p → p + Z.of_nat n <= image_len image → 0 <= sh →
  load_le image p n sh = Some (Z.shiftl (field image p n) sh).
Proof.
  intros Hi. revert p sh. induction n as [|n IH]; intros p sh Hp Hl Hs; cbn [load_le].
  { unfold field. rewrite take_0. cbn [le foldr]. by rewrite Z.shiftl_0_l. }
  unfold image_len in Hl. destruct (lookup_lt_is_Some_2 image (Z.to_nat p) ltac:(lia)) as [b Hb].
  rewrite (byte_at_lookup _ _ b) by done. cbn [mbind option_bind].
  rewrite IH by (unfold image_len; lia). cbn [mbind option_bind]. f_equal.
  unfold field at 2. rewrite (drop_S _ _ _ Hb). cbn [take le foldr].
  fold (le (take n (drop (S (Z.to_nat p)) image))).
  replace (S (Z.to_nat p)) with (Z.to_nat (p + 1)) by lia. fold (field image (p + 1) n).
  rewrite <- lor_shift by (exact (Forall_lookup_1 _ _ _ _ Hi Hb)).
  rewrite Z.shiftl_lor, Z.shiftl_shiftl by lia. by rewrite (Z.add_comm 8 sh).
Qed.

Lemma elf_u16_field image p : is_bytes image → 0 <= p → p + 2 <= image_len image → elf_u16 image p = Some (field image p 2).
Proof. intros. unfold elf_u16. rewrite load_le_spec by (done || lia). by rewrite Z.shiftl_0_r. Qed.

Lemma elf_u32_field image p : is_bytes image → 0 <= p → p + 4 <= image_len image → elf_u32 image p = Some (field image p 4).
Proof. intros. unfold elf_u32. rewrite load_le_spec by (done || lia). by rewrite Z.shiftl_0_r. Qed.

Lemma elf_u64_field image p : is_bytes image → 0 <= p → p + 8 <= image_len image → elf_u64 image p = Some (field image p 8).
Proof. intros. unfold elf_u64. rewrite load_le_spec by (done || lia). by rewrite Z.shiftl_0_r. Qed.

(** ** Program headers *)

(** What an accepted header adds to the locals. *)
Definition ph_add (image : list Z) (acc : ph_acc) (ph : Z) : ph_acc :=
  if is_load image ph then
    {| pa_loads := u16 (pa_loads acc + 1); pa_has_interp := pa_has_interp acc;
       pa_interp_off := pa_interp_off acc; pa_interp_len := pa_interp_len acc |}
  else if is_interp image ph then
    {| pa_loads := pa_loads acc; pa_has_interp := 1;
       pa_interp_off := seg_offset image ph; pa_interp_len := seg_filesz image ph |}
  else acc.

(** The range test of the code, without wrap-around. *)
Lemma out_of_range len off sz :
  0 <= len < 2 ^ 64 → 0 <= off →
  ((len <? off) || (u64 (len - off) <? sz)) = negb (off + sz <=? len) || (len <? off).
Proof.
  intros Hl Ho. destruct (Z.ltb_spec len off); cbn [orb]; [by rewrite orb_true_r|].
  rewrite wrap_small by (unfold in_width; lia). rewrite orb_false_r.
  destruct (Z.leb_spec (off + sz) len), (Z.ltb_spec (len - off) sz); try done; lia.
Qed.

Lemma ph_step_spec image ph acc :
  is_bytes image → image_len image < 2 ^ 64 → 0 <= ph → ph + 56 <= image_len image →
  ph_step image ph acc = Some (if seg_ok image ph then Some (ph_add image acc ph) else None).
Proof.
  intros Hi Hlen Hp Hb. unfold ph_step.
  rewrite elf_u32_field, !elf_u64_field by (done || lia). cbn [mbind option_bind].
  fold (seg_offset image ph) (seg_vaddr image ph) (seg_filesz image ph) (seg_memsz image ph) (seg_align image ph).
  fold (is_load image ph) (is_interp image ph). unfold seg_ok, ph_add.
  pose proof (field_range image (ph + 8) 8 Hi) as Ho. fold (seg_offset image ph) in Ho.
  pose proof (field_range image (ph + 32) 8 Hi) as Hf. fold (seg_filesz image ph) in Hf.
  assert (0 <= image_len image) as Hl0 by (unfold image_len; lia).
  set (off := seg_offset image ph) in *. set (sz := seg_filesz image ph) in *. set (len := image_len image) in *.
  destruct (is_load image ph).
  - rewrite out_of_range by lia. rewrite Z.ltb_antisym. destruct (sz <=? seg_memsz image ph); cbn [negb andb]; [|done].
    assert (negb (sz =? 0) && (negb (off + sz <=? len) || (len <? off)) = negb ((sz =? 0) || (off + sz <=? len))) as ->.
    { destruct (Z.eqb_spec sz 0); [done|]. cbn [negb andb orb].
      destruct (Z.leb_spec (off + sz) len), (Z.ltb_spec len off); try done; lia. }
    destruct ((sz =? 0) || (off + sz <=? len)); cbn [negb andb]; [|done].
    rewrite <- negb_orb. by destruct ((seg_align image ph =? 0) || _).
  - destruct (is_interp image ph); [|done]. rewrite <- orb_assoc, out_of_range by lia.
    destruct (Z.eqb_spec sz 0) as [|Hz]; cbn [negb andb orb]; [done|].
    assert (negb (off + sz <=? len) || (len <? off) = negb (off + sz <=? len)) as ->.
    { destruct (Z.leb_spec (off + sz) len), (Z.ltb_spec len off); try done; lia. }
    destruct (Z.leb_spec (off + sz) len) as [Hr|]; cbn [negb andb]; [|done].
    rewrite wrap_small by (unfold in_width; lia).
    destruct (lookup_lt_is_Some_2 image (Z.to_nat (off + sz - 1))) as [b Hb'].
    { unfold len, image_len in Hr. lia. }
    rewrite (byte_at_lookup _ _ b), Hb' by (done || lia). cbn [mbind option_bind].
    destruct (Z.eqb_spec b 0) as [->|Hb0]; cbn [negb]; [by rewrite bool_decide_eq_true_2|].
    by rewrite bool_decide_eq_false_2 by congruence.
Qed.

Lemma ph_loop_spec image e_phoff es n i acc :
  is_bytes image → image_len image < 2 ^ 64 → 0 <= e_phoff → 56 <= es → 0 <= i →
  e_phoff + (i + Z.of_nat n) * es <= image_len image →
  let hs := (λ j, e_phoff + j * es) <$> seqZ i (Z.of_nat n) in
  ph_loop image e_phoff es i n acc
  = Some (if forallb (seg_ok image) hs then Some (foldl (ph_add image) acc hs) else None).
Proof.
  intros Hi Hlen Hp He. revert i acc. induction n as [|n IH]; intros i acc Hi0 Hb; [done|].
  cbv zeta. rewrite seqZ_cons by lia. rewrite <- (Nat2Z.inj_pred (S n)) by lia.
  change (Nat.pred (S n)) with n. cbn [ph_loop fmap list_fmap forallb foldl].
  rewrite Nat2Z.inj_succ in Hb.
  assert (0 <= i * es ∧ i * es + es <= (i + Z.succ (Z.of_nat n)) * es) as [? ?] by nia.
  rewrite !wrap_small by (unfold in_width; rewrite ?wrap_small by (unfold in_width; lia); lia).
  rewrite ph_step_spec by (done || lia). cbn [mbind option_bind].
  destruct (seg_ok image (e_phoff + i * es)); cbn [andb]; [|done].
  replace (Z.succ i) with (i + 1) by lia. apply IH; [lia|]. lia.
Qed.

Lemma interp_not_load image ph : is_interp image ph = true → is_load image ph = false.
Proof. unfold is_interp, is_load. intros H%Z.eqb_eq. rewrite H. done. Qed.

Definition last_interp (image : list Z) (hs : list Z) : option Z := last (filter (λ ph, is_interp image ph = true) hs).

Lemma ph_fold_spec image hs acc :
  0 <= pa_loads acc → pa_loads acc + Z.of_nat (length hs) < 2 ^ 16 →
  foldl (ph_add image) acc hs
  = {| pa_loads := pa_loads acc + Z.of_nat (count_if (is_load image) hs);
       pa_has_interp := match last_interp image hs with Some _ => 1 | None => pa_has_interp acc end;
       pa_interp_off := match last_interp image hs with Some ph => seg_offset image ph | None => pa_interp_off acc end;
       pa_interp_len := match last_interp image hs with Some ph => seg_filesz image ph | None => pa_interp_len acc end |}.
Proof.
  revert acc. induction hs as [|ph hs IH]; intros acc H0 Hl.
  { cbn. rewrite Z.add_0_r. by destruct acc. }
  cbn [length] in Hl. cbn [foldl count_if]. unfold ph_add at 2. unfold last_interp. rewrite filter_cons.
  destruct (is_load image ph) eqn:E1.
  - rewrite IH by (cbn [pa_loads]; rewrite ?wrap_small by (unfold in_width; lia); lia).
    cbn [pa_loads pa_has_interp pa_interp_off pa_interp_len].
    rewrite decide_False by (intros E; apply interp_not_load in E; congruence).
    fold (last_interp image hs). rewrite wrap_small by (unfold in_width; lia). f_equal. lia.
  - destruct (is_interp image ph) eqn:E2.
    + rewrite IH by (cbn [pa_loads]; lia). cbn [pa_loads pa_has_interp pa_interp_off pa_interp_len].
      rewrite decide_True by done. rewrite last_cons. fold (last_interp image hs).
      by destruct (last_interp image hs).
    + rewrite IH by lia. rewrite decide_False by done. done.
Qed.

(** The three tests on the program-header table, without wrap-around. *)
Lemma table_range {A} len off num es (bad good : A) :
  0 <= len < 2 ^ 64 → 0 <= off < 2 ^ 64 → 0 <= num < 2 ^ 16 → 56 <= es < 2 ^ 16 →
  (if len <? off then bad
   else if u64 (UINT64_MAX - off) / es <? num then bad
   else if len <? u64 (off + u64 (num * es)) then bad else good)
  = if off + num * es <=? len then good else bad.
Proof.
  intros Hl Ho Hn He. unfold UINT64_MAX. assert (0 <= num * es < 2 ^ 32) by nia.
  rewrite !(wrap_small 64 (2 ^ 64 - 1 - off)), !(wrap_small 64 (num * es)) by (unfold in_width; lia).
  destruct (Z.ltb_spec len off); [by rewrite (proj2 (Z.leb_gt _ _)) by lia|].
  destruct (Z.ltb_spec ((2 ^ 64 - 1 - off) / es) num) as [Hd|Hd].
  - assert (2 ^ 64 - 1 - off < num * es) by (pose proof (Z.mul_succ_div_gt (2 ^ 64 - 1 - off) es); nia).
    by rewrite (proj2 (Z.leb_gt _ _)) by lia.
  - assert (num * es <= 2 ^ 64 - 1 - off) by (pose proof (Z.mul_div_le (2 ^ 64 - 1 - off) es); nia).
    rewrite wrap_small by (unfold in_width; lia). rewrite Z.ltb_antisym. by destruct (_ <=? len).
Qed.

Lemma headers_length image : is_bytes image → Z.of_nat (length (headers image)) < 2 ^ 16.
Proof.
  intros Hi. unfold headers. rewrite length_fmap, length_seqZ. pose proof (field_range image 56 2 Hi). lia.
Qed.

Lemma count_if_zero {A} (p : A → bool) l : (Z.of_nat (count_if p l) =? 0) = negb (existsb p l).
Proof.
  induction l as [|a l IH]; [done|]. cbn [count_if existsb]. destruct (p a); [apply Z.eqb_neq; lia|done].
Qed.

(** Everything after the identification bytes. *)
Lemma parse_tail image :
  is_bytes image → 64 <= image_len image < 2 ^ 64 →
  let num := field image 56 2 in let es := field image 54 2 in let off := field image 32 8 in
  num ≠ 0 → 56 <= es → off + num * es <= image_len image →
  (r ← ph_loop image off es 0 (Z.to_nat num)
         {| pa_loads := 0; pa_has_interp := 0; pa_interp_off := 0; pa_interp_len := 0 |};
   match r with
   | None => Some None
   | Some acc =>
       if pa_loads acc =? 0 then Some None
       else e_entry ← elf_u64 image 24;
            Some (Some {| entry := e_entry; phoff := off; phentsize := es; phnum := num;
                          load_count := pa_loads acc; has_interp := pa_has_interp acc;
                          interp_off := pa_interp_off acc; interp_len := pa_interp_len acc |})
   end)
  = Some (if forallb (seg_ok image) (headers image) && existsb (is_load image) (headers image)
          then Some (elf_describe image) else None).
Proof.
  intros Hi Hl num es off Hn He Hr. pose proof (field_range image 56 2 Hi) as Hnr. fold num in Hnr.
  pose proof (field_range image 32 8 Hi) as Hor. fold off in Hor.
  rewrite ph_loop_spec by (try done; rewrite ?Z2Nat.id, ?Z.add_0_l by lia; lia). rewrite Z2Nat.id by lia.
  change ((λ j, off + j * es) <$> seqZ 0 num) with (headers image). cbn [mbind option_bind].
  destruct (forallb _ _); cbn [andb]; [|done].
  rewrite ph_fold_spec by (cbn [pa_loads]; pose proof (headers_length image Hi); lia).
  cbn [pa_loads pa_has_interp pa_interp_off pa_interp_len]. rewrite Z.add_0_l, count_if_zero.
  destruct (existsb _ _); cbn [negb]; [|done]. rewrite elf_u64_field by (done || lia). cbn [mbind option_bind].
  unfold elf_describe. fold (last_interp image (headers image)). by destruct (last_interp image (headers image)).
Qed.

Lemma parse_exec_spec image :
  is_bytes image → image_len image < 2 ^ 64 →
  parse_exec_elf_image image = Some (if elf_valid image then Some (elf_describe image) else None).
Proof.
  intros Hi Hlen. unfold parse_exec_elf_image, elf_valid. rewrite (Z.ltb_antisym 64 (image_len image)).
  destruct (Z.leb_spec 64 (image_len image)) as [H64|]; cbn [negb andb]; [|done].
  assert (64 <= Z.of_nat (length image)) as Hln by done.
  do 7 (destruct image as [|? image]; [cbn in Hln; lia|]).
  match goal with |- context [headers ?im] => set (img := im) in * end.
  rewrite (byte_at_lookup img 0 z), (byte_at_lookup img 1 z0), (byte_at_lookup img 2 z1), (byte_at_lookup img 3 z2),
    (byte_at_lookup img 4 z3), (byte_at_lookup img 5 z4), (byte_at_lookup img 6 z5) by done.
  cbn [mbind option_bind].
  change (take 4 img) with [z; z0; z1; z2]. change (take 3 (drop 4 img)) with [z3; z4; z5].
  rewrite !elf_u16_field, (elf_u64_field img 32) by (done || lia). cbn [mbind option_bind].
  pose proof (field_range img 32 8 Hi) as Ho. pose proof (field_range img 54 2 Hi) as He. pose proof (field_range img 56 2 Hi) as Hn.
  assert (negb (z =? 127) || negb (z0 =? 69) || negb (z1 =? 76) || negb (z2 =? 70)
          = negb (bool_decide ([z; z0; z1; z2] = [127; 69; 76; 70]))) as ->.
  { rewrite <- !negb_andb. f_equal. apply eq_true_iff_eq. rewrite bool_decide_eq_true, !andb_true_iff, !Z.eqb_eq. naive_solver. }
  destruct (bool_decide (_ = [127; _; _; _])); cbn [negb andb]; [|done].
  assert (negb (z3 =? QOS_ELF_CLASS_64) || negb (z4 =? QOS_ELF_DATA_LSB) || negb (z5 =? 1)
          = negb (bool_decide ([z3; z4; z5] = [QOS_ELF_CLASS_64; QOS_ELF_DATA_LSB; 1]))) as ->.
  { rewrite <- !negb_andb. f_equal. apply eq_true_iff_eq. rewrite bool_decide_eq_true, !andb_true_iff, !Z.eqb_eq. naive_solver. }
  destruct (bool_decide (_ = [_; _; _])); cbn [negb andb]; [|done].
  rewrite <- !negb_orb, <- negb_andb.
  destruct ((field img 16 2 =? QOS_ELF_ET_EXEC) || (field img 16 2 =? QOS_ELF_ET_DYN)); cbn [negb andb]; [|done].
  destruct ((field img 18 2 =? QOS_ELF_EM_X86_64) || (field img 18 2 =? QOS_ELF_EM_AARCH64)); cbn [negb andb]; [|done].
  destruct (Z.eqb_spec (field img 56 2) 0) as [|Hnz]; cbn [negb andb orb]; [done|].
  rewrite (Z.ltb_antisym 56). destruct (Z.leb_spec 56 (field img 54 2)) as [H56|]; cbn [negb andb]; [|done].
  rewrite table_range by lia.
  destruct (Z.leb_spec (field img 32 8 + field img 56 2 * field img 54 2) (image_len img)); cbn [andb]; [|done].
  by apply parse_tail.
Qed.

(** ** Correctness *)

(** C17: The ELF parser is memory safe and exact. On any byte string it never
    reads outside the image, and it accepts exactly the images with a valid
    64-bit little-endian header, an x86-64 or AArch64 executable or shared
    object, a program-header table inside the image (checked without
    wrap-around), acceptable segments and at least one loadable one; the record
    it fills has the entry point, the table, the number of loadable segments and
    the last interpreter. For a shared object the type must be ET_DYN. *)
Theorem elf_parse_exact image :
  is_bytes image → image_len image < 2 ^ 64 →
  parse_exec_elf_image image = Some (if elf_valid image then Some (elf_describe image) else None)
  ∧ parse_shared_elf_image image
    = Some (if elf_valid image && (field image 16 2 =? QOS_ELF_ET_DYN) then 0 else -1).
Proof.
  intros Hi Hl. pose proof (parse_exec_spec image Hi Hl) as Hp. split; [done|].
  unfold parse_shared_elf_image. destruct (Z.ltb_spec (image_len image) 64).
  { unfold elf_valid. by rewrite (proj2 (Z.leb_gt _ _)) by lia. }
  rewrite elf_u16_field by (done || lia). cbn [mbind option_bind]. rewrite Hp.
  destruct (field image 16 2 =? QOS_ELF_ET_DYN); cbn [negb]; [|by rewrite andb_false_r].
  rewrite andb_true_r. by destruct (elf_valid image).
Qed.

(** A one-segment executable: the header, then a loadable segment of 8 bytes. *)
Definition demo_elf : list Z :=
  [0x7F; 69; 76; 70; 2; 1; 1] ++ replicate 9 0 ++ [2; 0; 0x3E; 0; 1; 0; 0; 0] ++ [0; 16; 0; 0; 0; 0; 0; 0]
  ++ [64; 0; 0; 0; 0; 0; 0; 0] ++ replicate 14 0 ++ [56; 0; 1; 0] ++ replicate 6 0
  ++ [1; 0; 0; 0; 5; 0; 0; 0] ++ replicate 24 0 ++ [8; 0; 0; 0; 0; 0; 0; 0] ++ [16; 0; 0; 0; 0; 0; 0; 0] ++ replicate 8 0.

Lemma elf_parse_exact_witness :
  elf_valid demo_elf = true ∧ parse_exec_elf_image demo_elf = Some (Some (elf_describe demo_elf)).
Proof.
  assert (elf_valid demo_elf = true) as Hv by (vm_compute; reflexivity). split; [exact Hv|].
  assert (is_bytes demo_elf) as Hb.
  { apply Forall_forall. intros b Hb. apply (bool_decide_unpack (in_width 8 b)).
    revert b Hb. apply Forall_forall. repeat constructor; vm_compute; exact I. }
  destruct (elf_parse_exact demo_elf Hb ltac:(vm_compute; reflexivity)) as [H _]. rewrite Hv in H. exact H.
Defined.
