(* ===== verification/SyscallTable.v ===== *)
(** * System call table (c-os/kernel/syscall/syscall.c, registration)

    128 entries, each an operation code and a value.  [syscall_init] fills the
    table with the kernel's calling interface. *)

From S2P Require Import Prelude.

Definition QOS_SYSCALL_MAX : nat := 128.

(** The [SYSCALL_OP_*] codes. *)
Inductive syscall_op :=
| OP_CONST | OP_ADD | OP_QUERY | OP_KILL | OP_SIGPENDING | OP_SIGACTION | OP_SIGPROCMASK | OP_SIGALTSTACK
| OP_SIGSUSPEND | OP_FORK | OP_EXEC | OP_SIGRETURN | OP_EXIT | OP_GETPID | OP_WAITPID | OP_STAT
| OP_MKDIR | OP_UNLINK | OP_CHDIR | OP_GETCWD | OP_OPEN | OP_READ | OP_WRITE | OP_CLOSE
| OP_DUP2 | OP_MMAP | OP_MUNMAP | OP_YIELD | OP_SLEEP | OP_SOCKET | OP_BIND | OP_LISTEN
| OP_ACCEPT | OP_CONNECT | OP_SEND | OP_RECV | OP_GETDENTS | OP_LSEEK | OP_PIPE | OP_DLOPEN
| OP_DLCLOSE | OP_DLSYM | OP_MODLOAD | OP_MODUNLOAD | OP_MODRELOAD.

#[export] Instance syscall_op_eq_dec : EqDecision syscall_op.
Proof. solve_decision. Defined.

Definition all_ops : list syscall_op :=
  [OP_CONST; OP_ADD; OP_QUERY; OP_KILL; OP_SIGPENDING; OP_SIGACTION; OP_SIGPROCMASK; OP_SIGALTSTACK;
   OP_SIGSUSPEND; OP_FORK; OP_EXEC; OP_SIGRETURN; OP_EXIT; OP_GETPID; OP_WAITPID; OP_STAT;
   OP_MKDIR; OP_UNLINK; OP_CHDIR; OP_GETCWD; OP_OPEN; OP_READ; OP_WRITE; OP_CLOSE;
   OP_DUP2; OP_MMAP; OP_MUNMAP; OP_YIELD; OP_SLEEP; OP_SOCKET; OP_BIND; OP_LISTEN;
   OP_ACCEPT; OP_CONNECT; OP_SEND; OP_RECV; OP_GETDENTS; OP_LSEEK; OP_PIPE; OP_DLOPEN;
   OP_DLCLOSE; OP_DLSYM; OP_MODLOAD; OP_MODUNLOAD; OP_MODRELOAD].

Definition op_code (o : syscall_op) : Z :=
  match o with
  | OP_CONST => 1 | OP_ADD => 2 | OP_QUERY => 3 | OP_KILL => 4 | OP_SIGPENDING => 5
  | OP_SIGACTION => 6 | OP_SIGPROCMASK => 7 | OP_SIGALTSTACK => 8 | OP_SIGSUSPEND => 9 | OP_FORK => 10
  | OP_EXEC => 11 | OP_SIGRETURN => 12 | OP_EXIT => 13 | OP_GETPID => 14 | OP_WAITPID => 15
  | OP_STAT => 16 | OP_MKDIR => 17 | OP_UNLINK => 18 | OP_CHDIR => 19 | OP_GETCWD => 20
  | OP_OPEN => 21 | OP_READ => 22 | OP_WRITE => 23 | OP_CLOSE => 24 | OP_DUP2 => 25
  | OP_MMAP => 26 | OP_MUNMAP => 27 | OP_YIELD => 28 | OP_SLEEP => 29 | OP_SOCKET => 30
  | OP_BIND => 31 | OP_LISTEN => 32 | OP_ACCEPT => 33 | OP_CONNECT => 34 | OP_SEND => 35
  | OP_RECV => 36 | OP_GETDENTS => 37 | OP_LSEEK => 38 | OP_PIPE => 39 | OP_DLOPEN => 40
  | OP_DLCLOSE => 41 | OP_DLSYM => 42 | OP_MODLOAD => 43 | OP_MODUNLOAD => 44 | OP_MODRELOAD => 45
  end.

(** The chain of [op != SYSCALL_OP_...] tests of registration. *)
Definition op_of_code (c : Z) : option syscall_op :=
  head (filter (λ o, op_code o = c) all_ops).

(** The [SYSCALL_QUERY_*] codes. *)
Inductive syscall_query :=
| Q_INIT_STATE | Q_PMM_TOTAL | Q_PMM_FREE | Q_SCHED_COUNT | Q_VFS_COUNT | Q_NET_QUEUE_LEN
| Q_DRIVERS_COUNT | Q_SYSCALL_COUNT | Q_PROC_COUNT.

Definition query_code (q : syscall_query) : Z :=
  match q with
  | Q_INIT_STATE => 1 | Q_PMM_TOTAL => 2 | Q_PMM_FREE => 3 | Q_SCHED_COUNT => 4 | Q_VFS_COUNT => 5
  | Q_NET_QUEUE_LEN => 6 | Q_DRIVERS_COUNT => 7 | Q_SYSCALL_COUNT => 8 | Q_PROC_COUNT => 9
  end.

(** [g_used], [g_ops], [g_values] at one number. *)
Record sc_entry := { e_used : bool; e_op : Z; e_value : Z }.

Record sc_table := { entries : list sc_entry; g_count : Z }.

Definition entry_zero : sc_entry := {| e_used := false; e_op := 0; e_value := 0 |}.

Definition get_entry (nr : Z) (s : sc_table) : sc_entry := default entry_zero (entries s !! Z.to_nat nr).

Definition table_reset : sc_table := {| entries := replicate QOS_SYSCALL_MAX entry_zero; g_count := 0 |}.

Definition qos_syscall_register (nr op value : Z) (s : sc_table) : Z * sc_table :=
  if Z.of_nat QOS_SYSCALL_MAX <=? nr then (-1, s)
  else
    match op_of_code op with
    | None => (-1, s)
    | Some _ =>
        if e_used (get_entry nr s) then (-1, s)
        else (0, {| entries := <[Z.to_nat nr := {| e_used := true; e_op := u8 op; e_value := value |}]> (entries s);
                    g_count := u32 (g_count s + 1) |})
    end.

Definition qos_syscall_unregister (nr : Z) (s : sc_table) : Z * sc_table :=
  if (Z.of_nat QOS_SYSCALL_MAX <=? nr) || negb (e_used (get_entry nr s)) then (-1, s)
  else (0, {| entries := <[Z.to_nat nr := entry_zero]> (entries s); g_count := u32 (g_count s - 1) |}).

Definition qos_syscall_count (s : sc_table) : Z := g_count s.

(** The registrations of [syscall_register_default_signal_ops]. *)
Definition default_ops : list (Z * syscall_op) :=
  [(0, OP_FORK); (1, OP_EXEC); (2, OP_EXIT); (3, OP_GETPID); (4, OP_WAITPID);
   (5, OP_OPEN); (6, OP_READ); (7, OP_WRITE); (8, OP_CLOSE); (9, OP_DUP2);
   (10, OP_MMAP); (11, OP_MUNMAP); (12, OP_YIELD); (13, OP_SLEEP); (14, OP_SOCKET);
   (15, OP_BIND); (16, OP_LISTEN); (17, OP_ACCEPT); (18, OP_CONNECT); (19, OP_SEND);
   (20, OP_RECV); (21, OP_STAT); (22, OP_MKDIR); (23, OP_UNLINK); (24, OP_GETDENTS);
   (25, OP_LSEEK); (26, OP_PIPE); (27, OP_CHDIR); (28, OP_GETCWD); (29, OP_KILL);
   (30, OP_SIGACTION); (31, OP_SIGPROCMASK); (32, OP_SIGRETURN); (33, OP_SIGPENDING); (34, OP_SIGSUSPEND);
   (35, OP_SIGALTSTACK); (36, OP_DLOPEN); (37, OP_DLCLOSE); (38, OP_DLSYM); (39, OP_MODLOAD);
   (40, OP_MODUNLOAD); (41, OP_MODRELOAD)].

(** The registrations of [syscall_register_default_queries]. *)
Definition default_queries : list (Z * syscall_query) :=
  [(64, Q_INIT_STATE); (65, Q_PMM_TOTAL); (66, Q_PMM_FREE); (67, Q_SCHED_COUNT);
   (68, Q_VFS_COUNT); (69, Q_NET_QUEUE_LEN); (70, Q_DRIVERS_COUNT); (71, Q_SYSCALL_COUNT);
   (72, Q_PROC_COUNT)].

Definition syscall_register_default_signal_ops (s : sc_table) : sc_table :=
  foldl (λ s e, (qos_syscall_register e.1 (op_code e.2) 0 s).2) s default_ops.

Definition syscall_register_default_queries (s : sc_table) : sc_table :=
  foldl (λ s e, (qos_syscall_register e.1 (op_code OP_QUERY) (query_code e.2) s).2) s default_queries.

(** The table part of [syscall_init]. *)
Definition table_init : sc_table :=
  syscall_register_default_queries (syscall_register_default_signal_ops table_reset).

(** ** Specification: a map from numbers to operations *)

Definition sc_lookup (nr : Z) (s : sc_table) : option (Z * Z) :=
  if (0 <=? nr) && (nr <? 128) && e_used (get_entry nr s) then Some (e_op (get_entry nr s), e_value (get_entry nr s)) else None.

Record sc_rel (s : sc_table) (m : gmap Z (Z * Z)) : Prop := {
  sr_len : length (entries s) = QOS_SYSCALL_MAX;
  sr_map : ∀ nr, m !! nr = sc_lookup nr s;
  sr_count : g_count s = Z.of_nat (size m)
}.

Inductive sc_op := SRegister (nr op value : Z) | SUnregister (nr : Z).

Definition sc_exec (o : sc_op) (s : sc_table) : Z * sc_table :=
  match o with
  | SRegister nr op value => qos_syscall_register nr op value s
  | SUnregister nr => qos_syscall_unregister nr s
  end.

Definition sc_spec (o : sc_op) (m : gmap Z (Z * Z)) : Z * gmap Z (Z * Z) :=
  match o with
  | SRegister nr op value =>
      if (nr <? 128) && (1 <=? op) && (op <=? 45) && bool_decide (m !! nr = None)
      then (0, <[nr := (op, value)]> m) else (-1, m)
  | SUnregister nr => if bool_decide (m !! nr = None) then (-1, m) else (0, delete nr m)
  end.

Definition sc_op_ok (o : sc_op) : Prop :=
  match o with SRegister nr op _ => in_width 32 nr ∧ in_width 32 op | SUnregister nr => in_width 32 nr end.

(** Exactly the codes 1 to 45 are operations. *)
Lemma op_of_code_range c : is_Some (op_of_code c) ↔ 1 <= c <= 45.
Proof.
  split.
  - intros [o Ho]. unfold op_of_code in Ho. apply head_Some_elem_of, list_elem_of_filter in Ho as [<- _].
    destruct o; vm_compute; split; discriminate.
  - intros Hc. assert (c ∈ seqZ 1 45) as Hin by (apply elem_of_seqZ; lia). clear Hc.
    assert (forallb (λ c, bool_decide (is_Some (op_of_code c))) (seqZ 1 45) = true) as Hall by (vm_compute; reflexivity).
    apply (bool_decide_unpack _). rewrite forallb_forall in Hall. apply Is_true_true, Hall. by apply list_elem_of_In.
Qed.

Lemma sc_lookup_insert s s' nr e k :
  length (entries s) = QOS_SYSCALL_MAX → 0 <= nr < 128 → entries s' = <[Z.to_nat nr := e]> (entries s) →
  sc_lookup k s' = if decide (k = nr) then (if e_used e then Some (e_op e, e_value e) else None) else sc_lookup k s.
Proof.
  intros Hl Hn He. unfold sc_lookup, get_entry. rewrite He. unfold QOS_SYSCALL_MAX in Hl. case_decide as Hk.
  - subst k. rewrite list_lookup_insert_eq by lia. rewrite (proj2 (Z.leb_le 0 nr)), (proj2 (Z.ltb_lt nr 128)) by lia. done.
  - destruct (Z.leb_spec 0 k); cbn [andb]; [|done]. by rewrite list_lookup_insert_ne by lia.
Qed.

Lemma sc_size s (m : gmap Z (Z * Z)) : (∀ nr, m !! nr = sc_lookup nr s) → (size m <= 128)%nat.
Proof.
  intros Hm. rewrite <- size_dom. transitivity (size (list_to_set (seqZ 0 128) : gset Z)); [|done].
  apply subseteq_size. intros k [x Hk]%elem_of_dom. apply elem_of_list_to_set, elem_of_seqZ.
  rewrite Hm in Hk. unfold sc_lookup in Hk. destruct ((0 <=? k) && (k <? 128)) eqn:Ek; [b2p; lia|done].
Qed.

Lemma sc_rel_lookup nr s (m : gmap Z (Z * Z)) :
  (∀ nr, m !! nr = sc_lookup nr s) → 0 <= nr < 128 →
  m !! nr = if e_used (get_entry nr s) then Some (e_op (get_entry nr s), e_value (get_entry nr s)) else None.
Proof.
  intros Hm Hn. rewrite Hm. unfold sc_lookup. by rewrite (proj2 (Z.leb_le 0 nr)), (proj2 (Z.ltb_lt nr 128)) by lia.
Qed.

Lemma register_refines nr op value s m :
  sc_rel s m → in_width 32 nr → in_width 32 op →
  let '(r, s') := qos_syscall_register nr op value s in
  let '(r', m') := sc_spec (SRegister nr op value) m in r = r' ∧ sc_rel s' m'.
Proof.
  intros [Hl Hm Hc] [Hn _] [Ho _]. cbn [sc_spec]. unfold qos_syscall_register.
  change (Z.of_nat QOS_SYSCALL_MAX) with 128. rewrite (Z.ltb_antisym 128 nr).
  destruct (Z.leb_spec 128 nr) as [|Hlt]; cbn [negb andb]; [done|].
  pose proof (op_of_code_range op) as Hr. destruct (op_of_code op) as [o|] eqn:E; last first.
  { assert (¬ 1 <= op <= 45) as Hop by (intros H; apply Hr in H as [? ?]; done).
    destruct (Z.leb_spec 1 op), (Z.leb_spec op 45); cbn [andb]; try done. lia. }
  assert (1 <= op <= 45) as Hop by (by apply Hr). rewrite (proj2 (Z.leb_le 1 op)), (proj2 (Z.leb_le op 45)) by lia.
  cbn [andb]. pose proof (sc_rel_lookup nr s m Hm ltac:(lia)) as E'.
  destruct (e_used (get_entry nr s)) eqn:Hu; [by rewrite bool_decide_eq_false_2 by (by rewrite E')|].
  rewrite bool_decide_eq_true_2 by done. split; [done|].
  pose proof (sc_size s m Hm). split; cbn [entries g_count]; [by rewrite length_insert| |].
  - intros k. rewrite (sc_lookup_insert s _ nr {| e_used := true; e_op := u8 op; e_value := value |} k) by (done || lia).
    cbn [e_used e_op e_value]. rewrite wrap_small by (unfold in_width; lia). rewrite lookup_insert.
    repeat case_decide; congruence.
  - rewrite map_size_insert_None by done. rewrite Hc, wrap_small by (unfold in_width; lia). lia.
Qed.

Lemma unregister_refines nr s m :
  sc_rel s m → in_width 32 nr →
  let '(r, s') := qos_syscall_unregister nr s in
  let '(r', m') := sc_spec (SUnregister nr) m in r = r' ∧ sc_rel s' m'.
Proof.
  intros [Hl Hm Hc] [Hn _]. cbn [sc_spec]. unfold qos_syscall_unregister.
  change (Z.of_nat QOS_SYSCALL_MAX) with 128. pose proof (sc_size s m Hm) as Hsz.
  destruct (Z.leb_spec 128 nr) as [Hge|Hlt]; cbn [orb].
  { rewrite bool_decide_eq_true_2; [done|]. rewrite Hm. unfold sc_lookup. rewrite (proj2 (Z.ltb_ge nr 128)) by lia.
    by rewrite andb_false_r. }
  pose proof (sc_rel_lookup nr s m Hm ltac:(lia)) as E.
  destruct (e_used (get_entry nr s)); cbn [negb]; [|by rewrite bool_decide_eq_true_2].
  rewrite bool_decide_eq_false_2 by (by rewrite E). split; [done|].
  split; cbn [entries g_count]; [by rewrite length_insert| |].
  - intros k. rewrite (sc_lookup_insert s _ nr entry_zero k) by (done || lia). cbn [entry_zero e_used].
    case_decide as Hk; [subst k; apply lookup_delete_eq|]. by rewrite lookup_delete_ne.
  - rewrite map_size_delete, E. assert (size m ≠ 0%nat) by (intros Hz%map_size_empty_inv; by rewrite Hz in E).
    rewrite Hc, wrap_small by (unfold in_width; lia). lia.
Qed.

Fixpoint sc_run (ops : list sc_op) (s : sc_table) : list Z * sc_table :=
  match ops with
  | [] => ([], s)
  | o :: ops' => let '(r, s1) := sc_exec o s in let '(rs, s2) := sc_run ops' s1 in (r :: rs, s2)
  end.

Fixpoint sc_spec_run (ops : list sc_op) (m : gmap Z (Z * Z)) : list Z * gmap Z (Z * Z) :=
  match ops with
  | [] => ([], m)
  | o :: ops' => let '(r, m1) := sc_spec o m in let '(rs, m2) := sc_spec_run ops' m1 in (r :: rs, m2)
  end.

Lemma sc_run_refines ops s m :
  sc_rel s m → Forall sc_op_ok ops →
  let '(rs, s') := sc_run ops s in let '(rs', m') := sc_spec_run ops m in rs = rs' ∧ sc_rel s' m'.
Proof.
  revert s m. induction ops as [|o ops IH]; intros s m HR Hok; cbn [sc_run sc_spec_run]; [done|].
  apply Forall_cons in Hok as [Ho Hok].
  assert (let '(r, s') := sc_exec o s in let '(r', m') := sc_spec o m in r = r' ∧ sc_rel s' m') as Hs.
  { destruct o as [nr op value|nr]; cbn [sc_exec].
    - destruct Ho. by apply register_refines.
    - by apply unregister_refines. }
  destruct (sc_exec o s) as [r s1], (sc_spec o m) as [r' m1]. destruct Hs as [-> HR1].
  specialize (IH s1 m1 HR1 Hok). destruct (sc_run ops s1), (sc_spec_run ops m1). destruct IH as [-> ?]. done.
Qed.

(** The calling interface: what each number means after [syscall_init]. *)
Definition abi_list : list (Z * (Z * Z)) :=
  ((λ e, (e.1, (op_code e.2, 0))) <$> default_ops)
  ++ ((λ e, (e.1, (op_code OP_QUERY, query_code e.2))) <$> default_queries).

Definition abi : gmap Z (Z * Z) := list_to_map abi_list.

Lemma table_init_abi : sc_rel table_init abi.
Proof.
  split; [vm_compute; reflexivity| |vm_compute; reflexivity].
  assert (∀ nr, nr ∈ seqZ 0 128 → abi !! nr = sc_lookup nr table_init) as Hin.
  { intros nr Hnr. assert (forallb (λ nr, bool_decide (abi !! nr = sc_lookup nr table_init)) (seqZ 0 128) = true) as Hall
      by (vm_compute; reflexivity).
    apply (bool_decide_unpack _). rewrite forallb_forall in Hall. apply Is_true_true, Hall. by apply list_elem_of_In. }
  intros nr. destruct (decide (0 <= nr < 128)) as [Hr|Hr]; [apply Hin, elem_of_seqZ; lia|].
  assert (sc_lookup nr table_init = None) as ->.
  { unfold sc_lookup. destruct (Z.leb_spec 0 nr), (Z.ltb_spec nr 128); try done. lia. }
  destruct (abi !! nr) eqn:E; [|done]. exfalso. apply Hr.
  apply elem_of_list_to_map_2, list_elem_of_In in E.
  assert (forallb (λ e, bool_decide (0 <= e.1 < 128)) abi_list = true) as Hall by (vm_compute; reflexivity).
  rewrite forallb_forall in Hall. specialize (Hall _ E). by apply bool_decide_eq_true in Hall.
Qed.

(** The system call table is a map from numbers to operations. After
    [syscall_init] it is the calling interface of syscall.h (42 operations and 9
    queries); from there any sequence of registrations and removals returns the
    codes of, and leaves, the map: 128 numbers, known operations only, none
    registered twice. *)
Theorem syscall_table_refines_map ops nr :
  Forall sc_op_ok ops →
  let '(rs, s) := sc_run ops table_init in
  let '(rs', m) := sc_spec_run ops abi in
  rs = rs' ∧ qos_syscall_count s = Z.of_nat (size m) ∧ sc_lookup nr s = m !! nr.
Proof.
  intros Hok. pose proof (sc_run_refines ops _ _ table_init_abi Hok) as H.
  destruct (sc_run ops table_init) as [rs s], (sc_spec_run ops abi) as [rs' m]. destruct H as [-> [_ Hm Hc]].
  split; [done|]. split; [done|]. by rewrite Hm.
Qed.

Lemma syscall_table_refines_map_witness :
  Forall sc_op_ok [SUnregister 71; SRegister 71 2 0; SRegister 5 1 7]
  ∧ sc_lookup 71 (sc_run [SUnregister 71; SRegister 71 2 0; SRegister 5 1 7] table_init).2
    = (sc_spec_run [SUnregister 71; SRegister 71 2 0; SRegister 5 1 7] abi).2 !! 71.
Proof.
  assert (Forall sc_op_ok [SUnregister 71; SRegister 71 2 0; SRegister 5 1 7]) as Hok
    by (repeat constructor; unfold in_width; lia).
  split; [exact Hok|]. pose proof (syscall_table_refines_map _ 71 Hok) as H.
  destruct (sc_run _ table_init) as [rs s], (sc_spec_run _ abi) as [rs' m]. exact (proj2 (proj2 H)).
Defined.
