(* ===== verification/Ports.v ===== *)
(** * Socket ports (c-os/kernel/syscall/syscall.c, [socket_port_*])

    Two bitmaps of 64512 bits, one bit per port from 1024, for stream and for
    datagram sockets. *)

From S2P Require Import Prelude.

Definition QOS_SOCK_STREAM : Z := 1.
Definition QOS_SOCK_DGRAM : Z := 2.
Definition QOS_SOCK_RAW : Z := 3.
Definition QOS_SOCK_PORT_MIN : Z := 1024.
Definition QOS_SOCK_PORT_MAX : Z := 65535.
Definition QOS_SOCK_PORT_COUNT : Z := QOS_SOCK_PORT_MAX - QOS_SOCK_PORT_MIN + 1.
Definition QOS_SOCK_PORT_WORD_BITS : Z := 32.
Definition QOS_SOCK_PORT_WORDS : Z :=
  (QOS_SOCK_PORT_COUNT + QOS_SOCK_PORT_WORD_BITS - 1) / QOS_SOCK_PORT_WORD_BITS.

Record ports := { g_sock_ports_stream : list Z; g_sock_ports_dgram : list Z }.

Definition ports_reset : ports :=
  {| g_sock_ports_stream := replicate (Z.to_nat QOS_SOCK_PORT_WORDS) 0;
     g_sock_ports_dgram := replicate (Z.to_nat QOS_SOCK_PORT_WORDS) 0 |}.

(** The bitmap of a socket type; other types have none (NULL). *)
Definition socket_port_bitmap (t : Z) (s : ports) : option (list Z) :=
  if t =? QOS_SOCK_STREAM then Some (g_sock_ports_stream s)
  else if t =? QOS_SOCK_DGRAM then Some (g_sock_ports_dgram s)
  else None.

Definition set_bitmap (t : Z) (bm : list Z) (s : ports) : ports :=
  if t =? QOS_SOCK_STREAM then {| g_sock_ports_stream := bm; g_sock_ports_dgram := g_sock_ports_dgram s |}
  else {| g_sock_ports_stream := g_sock_ports_stream s; g_sock_ports_dgram := bm |}.

(** Word number and mask of a port. *)
Definition socket_port_index (port : Z) : option (nat * Z) :=
  if (port <? QOS_SOCK_PORT_MIN) || (QOS_SOCK_PORT_MAX <? port) then None
  else
    let idx := port - QOS_SOCK_PORT_MIN in
    Some (Z.to_nat (idx / QOS_SOCK_PORT_WORD_BITS), bit (idx mod QOS_SOCK_PORT_WORD_BITS)).

Definition word (bm : list Z) (w : nat) : Z := default 0 (bm !! w).

Definition socket_port_mark (t port : Z) (s : ports) : Z * ports :=
  match socket_port_bitmap t s, socket_port_index port with
  | Some bm, Some (w, mask) =>
      if negb (Z.land (word bm w) mask =? 0) then (-1, s)
      else (0, set_bitmap t (<[w := Z.lor (word bm w) mask]> bm) s)
  | _, _ => (-1, s)
  end.

Definition socket_port_unmark (t port : Z) (s : ports) : ports :=
  match socket_port_bitmap t s, socket_port_index port with
  | Some bm, Some (w, mask) => set_bitmap t (<[w := Z.land (word bm w) (bnot 32 mask)]> bm) s
  | _, _ => s
  end.

(** [n] ports from [port] up. *)
Fixpoint port_range (port : Z) (n : nat) : list Z :=
  match n with O => [] | S n' => port :: port_range (port + 1) n' end.

(** The order in which the two loops of [socket_port_alloc] try ports. *)
Definition port_order : list Z := port_range 49152 (Z.to_nat 16384) ++ port_range 1024 (Z.to_nat 48128).

Fixpoint alloc_loop (t : Z) (cands : list Z) (s : ports) : Z * ports :=
  match cands with
  | [] => (0, s)
  | port :: cands' =>
      let '(r, s') := socket_port_mark t port s in
      if r =? 0 then (port, s') else alloc_loop t cands' s
  end.

Definition socket_port_alloc (t : Z) (s : ports) : Z * ports := alloc_loop t port_order s.

(** ** Specification: a set of (type, port) pairs *)

Definition has_ports (t : Z) : bool := (t =? QOS_SOCK_STREAM) || (t =? QOS_SOCK_DGRAM).

Definition port_valid (p : Z) : bool := (1024 <=? p) && (p <=? 65535).

Definition bit_set (bm : list Z) (p : Z) : bool :=
  Z.testbit (word bm (Z.to_nat ((p - 1024) / 32))) ((p - 1024) mod 32).

Definition bitmap_of (t : Z) (s : ports) : list Z := default [] (socket_port_bitmap t s).

Record ports_rel (s : ports) (m : gset (Z * Z)) : Prop := {
  pr_len : length (g_sock_ports_stream s) = 2016%nat ∧ length (g_sock_ports_dgram s) = 2016%nat;
  pr_width : Forall (in_width 32) (g_sock_ports_stream s) ∧ Forall (in_width 32) (g_sock_ports_dgram s);
  pr_set : ∀ t p, (t, p) ∈ m ↔ has_ports t = true ∧ port_valid p = true ∧ bit_set (bitmap_of t s) p = true
}.

Inductive port_op := PMark (t p : Z) | PUnmark (t p : Z) | PAlloc (t : Z).

Definition port_exec (o : port_op) (s : ports) : Z * ports :=
  match o with
  | PMark t p => socket_port_mark t p s
  | PUnmark t p => (0, socket_port_unmark t p s)
  | PAlloc t => socket_port_alloc t s
  end.

Definition free_ports (t : Z) (m : gset (Z * Z)) : list Z := filter (λ p, (t, p) ∉ m) port_order.

Definition port_spec (o : port_op) (m : gset (Z * Z)) : Z * gset (Z * Z) :=
  match o with
  | PMark t p =>
      if has_ports t && port_valid p && bool_decide ((t, p) ∉ m) then (0, {[ (t, p) ]} ∪ m) else (-1, m)
  | PUnmark t p => (0, m ∖ {[ (t, p) ]})
  | PAlloc t =>
      match free_ports t m with
      | p :: _ => if has_ports t then (p, {[ (t, p) ]} ∪ m) else (0, m)
      | [] => (0, m)
      end
  end.

Lemma word_insert bm w v k : (w < length bm)%nat → word (<[w := v]> bm) k = if decide (k = w) then v else word bm k.
Proof.
  intros Hw. unfold word. case_decide as E; [subst; by rewrite list_lookup_insert_eq|].
  by rewrite list_lookup_insert_ne by congruence.
Qed.

Lemma port_index_valid p :
  socket_port_index p
  = if port_valid p then Some (Z.to_nat ((p - 1024) / 32), bit ((p - 1024) mod 32)) else None.
Proof.
  unfold socket_port_index, port_valid, QOS_SOCK_PORT_MIN, QOS_SOCK_PORT_MAX, QOS_SOCK_PORT_WORD_BITS.
  rewrite (Z.ltb_antisym 1024 p), (Z.ltb_antisym p 65535), <- negb_andb.
  by destruct ((1024 <=? p) && (p <=? 65535)).
Qed.

(** Writing one bit of a word changes the bit of that port only. *)
Lemma bit_set_update bm p q v :
  length bm = 2016%nat → port_valid p = true → port_valid q = true →
  (∀ n, 0 <= n < 32 → n ≠ (p - 1024) mod 32 → Z.testbit v n = Z.testbit (word bm (Z.to_nat ((p - 1024) / 32))) n) →
  bit_set (<[Z.to_nat ((p - 1024) / 32) := v]> bm) q
  = if decide (q = p) then Z.testbit v ((p - 1024) mod 32) else bit_set bm q.
Proof.
  unfold port_valid. intros Hl Hp Hq Hv. b2p. unfold bit_set.
  pose proof (Z.div_mod (p - 1024) 32 ltac:(lia)). pose proof (Z.div_mod (q - 1024) 32 ltac:(lia)).
  pose proof (Z.mod_pos_bound (p - 1024) 32 ltac:(lia)). pose proof (Z.mod_pos_bound (q - 1024) 32 ltac:(lia)).
  assert (0 <= (p - 1024) / 32 < 2016) by (split; [apply Z.div_pos; lia|apply Z.div_lt_upper_bound; lia]).
  assert (0 <= (q - 1024) / 32) by (apply Z.div_pos; lia).
  rewrite word_insert by lia. case_decide as Hw; case_decide as Hqp; [by subst| |subst; done|done].
  rewrite Hv; [|lia|lia]. do 2 f_equal. done.
Qed.

Lemma has_ports_cases t : has_ports t = true → t = QOS_SOCK_STREAM ∨ t = QOS_SOCK_DGRAM.
Proof. unfold has_ports. by rewrite orb_true_iff, !Z.eqb_eq. Qed.

Lemma bitmap_some t s : has_ports t = true → socket_port_bitmap t s = Some (bitmap_of t s).
Proof. by intros [-> | ->]%has_ports_cases. Qed.

Lemma bitmap_none t s : has_ports t = false → socket_port_bitmap t s = None.
Proof. unfold has_ports, socket_port_bitmap. by destruct (t =? QOS_SOCK_STREAM), (t =? QOS_SOCK_DGRAM). Qed.

Lemma bitmap_set t t' bm s :
  has_ports t = true → has_ports t' = true →
  bitmap_of t' (set_bitmap t bm s) = if decide (t' = t) then bm else bitmap_of t' s.
Proof. by intros [-> | ->]%has_ports_cases [-> | ->]%has_ports_cases. Qed.

Lemma bitmap_shape t s m :
  ports_rel s m → has_ports t = true →
  length (bitmap_of t s) = 2016%nat ∧ Forall (in_width 32) (bitmap_of t s).
Proof. by intros [[??] [??] _] [-> | ->]%has_ports_cases. Qed.

Lemma set_bit_rel t p v s m m' :
  ports_rel s m → has_ports t = true → port_valid p = true → in_width 32 v →
  (∀ n, 0 <= n < 32 → n ≠ (p - 1024) mod 32 →
     Z.testbit v n = Z.testbit (word (bitmap_of t s) (Z.to_nat ((p - 1024) / 32))) n) →
  (∀ t' p', (t', p') ∈ m' ↔ if decide (t' = t ∧ p' = p) then Z.testbit v ((p - 1024) mod 32) = true else (t', p') ∈ m) →
  ports_rel (set_bitmap t (<[Z.to_nat ((p - 1024) / 32) := v]> (bitmap_of t s)) s) m'.
Proof.
  intros HR Ht Hp Hw Hv Hm. destruct (bitmap_shape t s m HR Ht) as [Hl HF]. pose proof HR as [[Hl1 Hl2] [Hf1 Hf2] Hset].
  set (bm := <[_ := v]> (bitmap_of t s)).
  assert (length bm = 2016%nat) as Hlb by (unfold bm; by rewrite length_insert).
  assert (Forall (in_width 32) bm) as Hfb by (by apply Forall_insert).
  split; [by destruct (has_ports_cases t Ht) as [-> | ->]..|].
  intros t' p'. rewrite Hm. destruct (has_ports t') eqn:Ht'; last first.
  { rewrite decide_False by (intros [-> _]; congruence). rewrite Hset, Ht'. naive_solver. }
  rewrite (bitmap_set t t' bm s Ht Ht'). destruct (port_valid p') eqn:Hp'; last first.
  { rewrite decide_False by (intros [_ ->]; congruence). rewrite Hset, Hp'. naive_solver. }
  destruct (decide (t' = t)) as [->|Hne].
  - unfold bm. rewrite bit_set_update by done. repeat case_decide; try tauto. rewrite Hset, Ht', Hp'. tauto.
  - rewrite decide_False by tauto. rewrite Hset, Ht', Hp'. tauto.
Qed.

Lemma word_width bm w : Forall (in_width 32) bm → in_width 32 (word bm w).
Proof.
  intros HF. unfold word. destruct (bm !! w) eqn:E; [exact (Forall_lookup_1 _ _ _ _ HF E)|]. unfold in_width; cbn; lia.
Qed.

Lemma mark_refines t p s m :
  ports_rel s m →
  let '(r, s') := socket_port_mark t p s in let '(r', m') := port_spec (PMark t p) m in r = r' ∧ ports_rel s' m'.
Proof.
  intros HR. cbn [port_spec]. unfold socket_port_mark. rewrite port_index_valid.
  destruct (has_ports t) eqn:Ht; cbn [andb]; [|by rewrite bitmap_none]. rewrite bitmap_some by done.
  destruct (port_valid p) eqn:Hp; cbn [andb]; [|done].
  destruct (bitmap_shape t s m HR Ht) as [Hl HF]. pose proof (Z.mod_pos_bound (p - 1024) 32 ltac:(lia)) as Hb.
  rewrite land_bit_nonzero, negb_involutive by lia. fold (bit_set (bitmap_of t s) p).
  pose proof (pr_set _ _ HR t p) as Hset. rewrite Ht, Hp in Hset.
  destruct (bit_set (bitmap_of t s) p) eqn:Hbit.
  { by rewrite bool_decide_eq_false_2 by (intros Hn; by apply Hn, Hset). }
  rewrite bool_decide_eq_true_2 by (intros Hn; by apply Hset in Hn as (_ & _ & ?)). split; [done|].
  eapply set_bit_rel; [done..| | |].
  - apply lor_in_width; [lia|by apply word_width|apply bit_in_width; lia].
  - intros n Hn Hne. rewrite Z.lor_spec, bit_testbit by lia. rewrite bool_decide_eq_false_2 by done. apply orb_false_r.
  - intros t' p'. rewrite elem_of_union, elem_of_singleton. case_decide as E.
    + rewrite Z.lor_spec, bit_testbit, bool_decide_eq_true_2, orb_true_r by lia. destruct E as [-> ->]. naive_solver.
    + naive_solver.
Qed.

Lemma unmark_refines t p s m : ports_rel s m → ports_rel (socket_port_unmark t p s) (m ∖ {[ (t, p) ]}).
Proof.
  intros HR. unfold socket_port_unmark. rewrite port_index_valid. pose proof (pr_set _ _ HR t p) as Hset.
  assert ((t, p) ∉ m → m ∖ {[ (t, p) ]} = m) as Hno by (intros; set_solver).
  destruct (has_ports t) eqn:Ht; [|by rewrite bitmap_none, Hno by (rewrite ?Hset; naive_solver)].
  rewrite bitmap_some by done. destruct (port_valid p) eqn:Hp; [|by rewrite Hno by (rewrite Hset; naive_solver)].
  destruct (bitmap_shape t s m HR Ht) as [Hl HF]. pose proof (Z.mod_pos_bound (p - 1024) 32 ltac:(lia)) as Hb.
  eapply set_bit_rel; [done..| | |].
  - apply land_in_width; [lia|by apply word_width|]. apply bnot_in_width, bit_in_width; lia.
  - intros n Hn Hne. rewrite Z.land_spec, bnot_testbit, bit_testbit by lia.
    rewrite (bool_decide_eq_false_2 (n = _)), bool_decide_eq_true_2 by lia. apply andb_true_r.
  - intros t' p'. rewrite elem_of_difference, elem_of_singleton. case_decide as E.
    + rewrite Z.land_spec, bnot_testbit, bit_testbit by lia.
      rewrite (bool_decide_eq_true_2 (_ = _)), (bool_decide_eq_true_2 (_ < 32)), andb_false_r by lia. naive_solver.
    + naive_solver.
Qed.

(** The loops return the first free port of the order. *)
Lemma alloc_loop_refines t cands s m :
  ports_rel s m → Forall (λ p, port_valid p = true) cands →
  let '(r, s') := alloc_loop t cands s in
  match filter (λ p, (t, p) ∉ m) cands with
  | p :: _ => if has_ports t then r = p ∧ ports_rel s' ({[ (t, p) ]} ∪ m) else r = 0 ∧ s' = s
  | [] => r = 0 ∧ s' = s
  end.
Proof.
  intros HR HF. induction HF as [|p cands Hp HF IH]; cbn [alloc_loop]; [done|].
  pose proof (mark_refines t p s m HR) as Hm. cbn [port_spec] in Hm. rewrite Hp in Hm.
  destruct (socket_port_mark t p s) as [r s'] eqn:E. rewrite filter_cons.
  destruct (has_ports t) eqn:Ht; cbn [andb] in Hm.
  - destruct (decide ((t, p) ∉ m)) as [Hn|Hn].
    + rewrite bool_decide_eq_true_2 in Hm by done. by destruct Hm as [-> ?].
    + rewrite bool_decide_eq_false_2 in Hm by done. destruct Hm as [-> _]. exact IH.
  - destruct Hm as [-> _]. change (-1 =? 0) with false. cbv iota.
    destruct (alloc_loop t cands s) as [r2 s2].
    case_decide; [by destruct (filter _ cands)|]. exact IH.
Qed.

Lemma elem_of_port_range p start n : p ∈ port_range start n ↔ start <= p < start + Z.of_nat n.
Proof.
  revert start. induction n as [|n IH]; intros start; cbn [port_range].
  - rewrite elem_of_nil. lia.
  - rewrite elem_of_cons, IH. lia.
Qed.

Lemma elem_of_port_order p : p ∈ port_order ↔ 1024 <= p <= 65535.
Proof. unfold port_order. rewrite elem_of_app, !elem_of_port_range, !Z2Nat.id by lia. lia. Qed.

Lemma port_order_valid : Forall (λ p, port_valid p = true) port_order.
Proof.
  apply Forall_forall. intros p Hp%elem_of_port_order. unfold port_valid.
  by rewrite (proj2 (Z.leb_le _ _)), (proj2 (Z.leb_le _ _)) by lia.
Qed.

Lemma port_step_refines o s m :
  ports_rel s m → let '(r, s') := port_exec o s in let '(r', m') := port_spec o m in r = r' ∧ ports_rel s' m'.
Proof.
  intros HR. destruct o as [t p|t p|t]; cbn [port_exec].
  - by apply mark_refines.
  - split; [done|by apply unmark_refines].
  - pose proof (alloc_loop_refines t port_order s m HR port_order_valid) as H. unfold socket_port_alloc.
    destruct (alloc_loop t port_order s) as [r s']. cbn [port_spec]. unfold free_ports.
    destruct (filter _ port_order) as [|p l]; [by destruct H as [-> ->]|].
    destruct (has_ports t); [done|by destruct H as [-> ->]].
Qed.

Fixpoint port_run (ops : list port_op) (s : ports) : list Z * ports :=
  match ops with
  | [] => ([], s)
  | o :: ops' => let '(r, s1) := port_exec o s in let '(rs, s2) := port_run ops' s1 in (r :: rs, s2)
  end.

Fixpoint port_spec_run (ops : list port_op) (m : gset (Z * Z)) : list Z * gset (Z * Z) :=
  match ops with
  | [] => ([], m)
  | o :: ops' => let '(r, m1) := port_spec o m in let '(rs, m2) := port_spec_run ops' m1 in (r :: rs, m2)
  end.

Lemma port_run_refines ops s m :
  ports_rel s m →
  let '(rs, s') := port_run ops s in let '(rs', m') := port_spec_run ops m in rs = rs' ∧ ports_rel s' m'.
Proof.
  revert s m. induction ops as [|o ops IH]; intros s m HR; cbn [port_run port_spec_run]; [done|].
  pose proof (port_step_refines o s m HR) as Hs.
  destruct (port_exec o s) as [r s1], (port_spec o m) as [r' m1]. destruct Hs as [-> HR1].
  specialize (IH s1 m1 HR1). destruct (port_run ops s1), (port_spec_run ops m1). destruct IH as [-> ?]. done.
Qed.

Lemma ports_reset_rel : ports_rel ports_reset ∅.
Proof.
  split; [done|split; by apply Forall_replicate|]. intros t p. split; [set_solver|].
  intros (Ht & _ & Hb). unfold bit_set in Hb.
  assert (∀ w, word (replicate (Z.to_nat QOS_SOCK_PORT_WORDS) 0) w = 0) as Hz.
  { intros w. unfold word. destruct (_ !! w) as [v|] eqn:E; [|done]. by apply lookup_replicate in E as [-> _]. }
  destruct (has_ports_cases t Ht) as [-> | ->]; unfold bitmap_of in Hb; cbn [socket_port_bitmap] in Hb;
    change (default [] _) with (replicate (Z.to_nat QOS_SOCK_PORT_WORDS) 0) in Hb; by rewrite Hz, Z.bits_0 in Hb.
Qed.

Lemma elem_of_free_ports t m p : p ∈ free_ports t m ↔ (t, p) ∉ m ∧ 1024 <= p <= 65535.
Proof. unfold free_ports. by rewrite list_elem_of_filter, elem_of_port_order. Qed.

Lemma alloc_spec t s m :
  ports_rel s m →
  (socket_port_alloc t s).1 = match free_ports t m with p :: _ => if has_ports t then p else 0 | [] => 0 end.
Proof.
  intros HR. pose proof (alloc_loop_refines t port_order s m HR port_order_valid) as H.
  unfold socket_port_alloc, free_ports. revert H. generalize port_order. intros cands.
  destruct (alloc_loop t cands s) as [r s'], (filter _ cands) as [|q l]; cbn [fst]; [by intros [-> _]|].
  destruct (has_ports t); by intros [-> _].
Qed.

(** What the automatic allocation gives a caller. *)
Lemma alloc_loop_gives t cands s m :
  ports_rel s m → has_ports t = true → Forall (λ p, port_valid p = true) cands →
  let '(p, s') := alloc_loop t cands s in
  p = 0 ∧ ports_rel s' m ∨ port_valid p = true ∧ (t, p) ∉ m ∧ ports_rel s' ({[ (t, p) ]} ∪ m).
Proof.
  intros HR Ht HF. pose proof (alloc_loop_refines t cands s m HR HF) as H. rewrite Ht in H. rewrite Forall_forall in HF.
  destruct (alloc_loop t cands s) as [p s']. destruct (filter _ cands) as [|q l] eqn:E; destruct H as [-> H]; [left; by rewrite H|].
  right. assert (q ∈ filter (λ p, (t, p) ∉ m) cands) as Hq by (rewrite E; apply list_elem_of_here).
  apply list_elem_of_filter in Hq as [? ?]. auto.
Qed.

Lemma port_alloc_refines t s m :
  ports_rel s m → has_ports t = true →
  let '(p, s') := socket_port_alloc t s in
  p = 0 ∧ ports_rel s' m ∨ port_valid p = true ∧ (t, p) ∉ m ∧ ports_rel s' ({[ (t, p) ]} ∪ m).
Proof. intros HR Ht. exact (alloc_loop_gives t port_order s m HR Ht port_order_valid). Qed.

(** Port reservation. From reset, any sequence of marks, releases and
    automatic allocations, for any socket types and ports, returns the codes of
    and leaves a set of (type, port) pairs: a mark succeeds exactly for a stream
    or datagram port from 1024 up that is not taken, the automatic allocation
    returns the first port not taken, from 49152 up and then from 1024 up, and 0
    only when the type has no free port; no port is ever held twice. *)
Theorem socket_ports_refine_set ops t :
  let '(rs, s) := port_run ops ports_reset in
  let '(rs', m) := port_spec_run ops ∅ in
  rs = rs' ∧ ports_rel s m
  ∧ ((socket_port_alloc t s).1 = 0 ↔ has_ports t = false ∨ ∀ p, 1024 <= p <= 65535 → (t, p) ∈ m).
Proof.
  pose proof (port_run_refines ops _ _ ports_reset_rel) as H.
  destruct (port_run ops ports_reset) as [rs s], (port_spec_run ops ∅) as [rs' m]. destruct H as [-> HR].
  split; [done|]. split; [done|]. rewrite (alloc_spec t s m HR). pose proof (elem_of_free_ports t m) as Hf.
  destruct (free_ports t m) as [|q l].
  - split; [|done]. intros _. right. intros p Hp.
    destruct (decide ((t, p) ∈ m)) as [?|Hn]; [done|]. exfalso. by apply (not_elem_of_nil p), Hf.
  - destruct (proj1 (Hf q) ltac:(apply list_elem_of_here)) as [Hq Hr].
    destruct (has_ports t); split; try tauto; [lia|]. intros [?|Hall]; [done|]. by destruct Hq; apply Hall.
Qed.
