(* ===== verification/Net.v ===== *)
(** * The network stack's state (c-os/kernel/net/net.c)

    The packet ring, the ARP cache and the UDP and TCP tables together, as the
    globals of net.c, with the reset of all of them. *)

From S2P Require Import Prelude Packet Udp Tcp.

Record net := { n_packets : packets; n_arp : list arp_entry_t; n_udp : udp; n_tcp : tcp }.

Definition qos_net_reset : net :=
  {| n_packets := packets_reset; n_arp := arp_reset; n_udp := udp_reset; n_tcp := tcp_reset |}.

Definition with_packets (p : packets) (n : net) : net :=
  {| n_packets := p; n_arp := n_arp n; n_udp := n_udp n; n_tcp := n_tcp n |}.

Definition with_udp (u : udp) (n : net) : net :=
  {| n_packets := n_packets n; n_arp := n_arp n; n_udp := u; n_tcp := n_tcp n |}.

Definition with_tcp (t : tcp) (n : net) : net :=
  {| n_packets := n_packets n; n_arp := n_arp n; n_udp := n_udp n; n_tcp := t |}.
