(* ===== verification/Fds.v ===== *)
(** * Descriptors, files and pipes (c-os/kernel/syscall/syscall.c)

    256 descriptors of six kinds, 128 files of at most 1024 bytes and 32 pipes
    of 1024 bytes.  Closing the last descriptor of a pipe, of an unlinked file
    or of a bound port gives back what it held.  Handlers take the bytes
    readable through a source pointer ([None] is NULL) and return the bytes
    written through a destination pointer. *)

From S2P Require Import Prelude SlotTable RingQueue Packet Udp Tcp Net Ports.

Definition QOS_FD_MAX : nat := 256.
Definition QOS_PIPE_MAX : nat := 32.
Definition QOS_PIPE_CAP : Z := 1024.
Definition QOS_FILE_MAX : nat := 128.
Definition QOS_FILE_PATH_MAX : nat := 128.
Definition QOS_SOCK_PENDING_MAX : nat := 16.
Definition UINT16_MAX : Z := 65535.

(** [QOS_FD_KIND_*]; a cleared descriptor has kind 0. *)
Inductive fd_kind := KNone | KVfs | KSocket | KPipeR | KPipeW | KProc.

#[export] Instance fd_kind_eq_dec : EqDecision fd_kind.
Proof. solve_decision. Defined.

(** An entry of the queue of connections not yet accepted. *)
Record pending := { q_rport : Z; q_rip : Z; q_conn_id : Z }.

(** [g_fd_sock_bound] .. [g_fd_sock_conn_id]. *)
Record sock := {
  s_bound : bool; s_listening : bool; s_connected : bool; s_type : Z;
  s_lport : Z; s_rport : Z; s_rip : Z; s_conn_id : Z
}.

(** [g_fd_sock_stream_*] and [g_fd_sock_raw_*]. *)
Record sock_io := {
  s_stream_len : Z; s_stream_buf : list Z; s_raw_len : Z; s_raw_src_ip : Z; s_raw_buf : list Z
}.

(** [g_fd_sock_pending*] and [g_fd_sock_backlog]; [s_last] is the connection
    accepted last. *)
Record backlog := {
  s_pending : nat; s_backlog : Z; s_head : nat; s_tail : nat; s_q : list pending; s_last : pending
}.

Record fd := {
  f_used : bool; f_kind : fd_kind; f_sock : sock; f_io : sock_io; f_queue : backlog;
  f_pipe_id : Z; f_offset : Z; f_file_id : Z; f_proc_kind : Z; f_proc_pid : Z
}.

#[export] Instance fd_slotted : Slotted fd := f_used.

Record file := { file_used : bool; file_path : string; file_len : Z; file_data : list Z }.

#[export] Instance file_slotted : Slotted file := file_used.
#[export] Instance file_keyed : Keyed file string := file_path.

Record pipe := { pipe_used : bool; pipe_len : Z; pipe_buf : list Z }.

#[export] Instance pipe_slotted : Slotted pipe := pipe_used.

(** The globals the descriptor layer works on. *)
Record io := { io_fds : list fd; io_files : list file; io_pipes : list pipe; io_ports : ports; io_net : net }.

Definition with_fds (l : list fd) (s : io) : io :=
  {| io_fds := l; io_files := io_files s; io_pipes := io_pipes s; io_ports := io_ports s; io_net := io_net s |}.
Definition with_files (l : list file) (s : io) : io :=
  {| io_fds := io_fds s; io_files := l; io_pipes := io_pipes s; io_ports := io_ports s; io_net := io_net s |}.
Definition with_pipes (l : list pipe) (s : io) : io :=
  {| io_fds := io_fds s; io_files := io_files s; io_pipes := l; io_ports := io_ports s; io_net := io_net s |}.
Definition with_ports (p : ports) (s : io) : io :=
  {| io_fds := io_fds s; io_files := io_files s; io_pipes := io_pipes s; io_ports := p; io_net := io_net s |}.
Definition with_net (n : net) (s : io) : io :=
  {| io_fds := io_fds s; io_files := io_files s; io_pipes := io_pipes s; io_ports := io_ports s; io_net := n |}.

(** ** Cleared rows *)

Definition pending_zero : pending := {| q_rport := 0; q_rip := 0; q_conn_id := -1 |}.

Definition sock_zero : sock :=
  {| s_bound := false; s_listening := false; s_connected := false; s_type := 0;
     s_lport := 0; s_rport := 0; s_rip := 0; s_conn_id := -1 |}.

Definition io_zero : sock_io :=
  {| s_stream_len := 0; s_stream_buf := replicate (Z.to_nat QOS_NET_MAX_PACKET) 0; s_raw_len := 0;
     s_raw_src_ip := 0; s_raw_buf := replicate (Z.to_nat QOS_NET_MAX_PACKET) 0 |}.

Definition backlog_zero : backlog :=
  {| s_pending := 0; s_backlog := 0; s_head := 0; s_tail := 0;
     s_q := replicate QOS_SOCK_PENDING_MAX pending_zero; s_last := pending_zero |}.

(** A row as [fd_alloc] leaves it, with the given kind. *)
Definition fresh_fd (k : fd_kind) : fd :=
  {| f_used := true; f_kind := k; f_sock := sock_zero; f_io := io_zero; f_queue := backlog_zero;
     f_pipe_id := 0; f_offset := 0; f_file_id := UINT16_MAX; f_proc_kind := 0; f_proc_pid := 0 |}.

Definition fd_zero : fd :=
  {| f_used := false; f_kind := KNone; f_sock := sock_zero; f_io := io_zero; f_queue := backlog_zero;
     f_pipe_id := 0; f_offset := 0; f_file_id := UINT16_MAX; f_proc_kind := 0; f_proc_pid := 0 |}.

Definition file_zero : file :=
  {| file_used := false; file_path := ""; file_len := 0; file_data := replicate (Z.to_nat QOS_PIPE_CAP) 0 |}.

Definition pipe_zero : pipe :=
  {| pipe_used := false; pipe_len := 0; pipe_buf := replicate (Z.to_nat QOS_PIPE_CAP) 0 |}.

(** The descriptor part of [qos_syscall_reset]. *)
Definition io_reset (n : net) : io :=
  {| io_fds := replicate QOS_FD_MAX fd_zero; io_files := replicate QOS_FILE_MAX file_zero;
     io_pipes := replicate QOS_PIPE_MAX pipe_zero; io_ports := ports_reset; io_net := n |}.

Definition get_fd (i : Z) (s : io) : fd := default fd_zero (io_fds s !! Z.to_nat i).
Definition set_fd (i : Z) (f : fd) (s : io) : io := with_fds (<[Z.to_nat i := f]> (io_fds s)) s.
Definition get_file (i : Z) (s : io) : file := default file_zero (io_files s !! Z.to_nat i).
Definition set_file (i : Z) (f : file) (s : io) : io := with_files (<[Z.to_nat i := f]> (io_files s)) s.
Definition get_pipe (i : Z) (s : io) : pipe := default pipe_zero (io_pipes s !! Z.to_nat i).
Definition set_pipe (i : Z) (p : pipe) (s : io) : io := with_pipes (<[Z.to_nat i := p]> (io_pipes s)) s.

(** ** Descriptors and files *)

Definition fd_valid (i : Z) (s : io) : bool := (i <? Z.of_nat QOS_FD_MAX) && f_used (get_fd i s).

Definition fd_alloc (k : fd_kind) (s : io) : Z * io :=
  match free_slot (io_fds s) with
  | None => (-1, s)
  | Some i => (Z.of_nat i, set_fd (Z.of_nat i) (fresh_fd k) s)
  end.

(** -1 when there is none. *)
Definition index_or_neg (o : option nat) : Z := match o with Some i => Z.of_nat i | None => -1 end.

Definition file_find (path : string) (s : io) : Z := index_or_neg (find_key path (io_files s)).

Definition file_alloc (path : string) (s : io) : Z * io :=
  match free_slot (io_files s) with
  | None => (-1, s)
  | Some i =>
      (Z.of_nat i,
       set_file (Z.of_nat i) {| file_used := true; file_path := String.substring 0 (QOS_FILE_PATH_MAX - 1) path;
                                file_len := 0; file_data := replicate (Z.to_nat QOS_PIPE_CAP) 0 |} s)
  end.

Definition file_ensure (path : string) (s : io) : Z * io :=
  if 0 <=? file_find path s then (file_find path s, s) else file_alloc path s.

Definition holds_file (id : Z) (f : fd) : bool :=
  f_used f && bool_decide (f_kind f = KVfs) && (f_file_id f =? id).

Definition file_has_refs (id : Z) (s : io) : bool := existsb (holds_file id) (io_fds s).

Definition file_drop (id : Z) (s : io) : io :=
  if Z.of_nat QOS_FILE_MAX <=? id then s else set_file id file_zero s.

Definition file_unlink_path (path : string) (s : io) : io :=
  let idx := file_find path s in
  if idx <? 0 then s
  else
    let f := get_file idx s in
    let s1 := set_file idx {| file_used := file_used f; file_path := ""; file_len := file_len f; file_data := file_data f |} s in
    if negb (file_has_refs (u16 idx) s1) then file_drop (u16 idx) s1 else s1.

(** ** Pipes *)

Definition holds_pipe (id : Z) (f : fd) : bool :=
  f_used f && (bool_decide (f_kind f = KPipeR) || bool_decide (f_kind f = KPipeW)) && (f_pipe_id f =? id).

Definition pipe_in_use (id : Z) (s : io) : bool := existsb (holds_pipe id) (io_fds s).

Definition pipe_alloc (s : io) : Z * io :=
  match free_slot (io_pipes s) with
  | None => (-1, s)
  | Some i =>
      (Z.of_nat i, set_pipe (Z.of_nat i) {| pipe_used := true; pipe_len := 0;
                                            pipe_buf := replicate (Z.to_nat QOS_PIPE_CAP) 0 |} s)
  end.

(** ** Sockets *)

Definition binds_port (port t : Z) (f : fd) : bool :=
  f_used f && bool_decide (f_kind f = KSocket) && s_bound (f_sock f) && (s_type (f_sock f) =? t)
  && (s_lport (f_sock f) =? port).

Definition socket_port_in_use (port t : Z) (s : io) : bool := existsb (binds_port port t) (io_fds s).

Definition listens_on (port : Z) (f : fd) : bool :=
  f_used f && bool_decide (f_kind f = KSocket) && (s_type (f_sock f) =? QOS_SOCK_STREAM)
  && s_listening (f_sock f) && (s_lport (f_sock f) =? port).

Definition socket_listener_in_use (port : Z) (s : io) : bool := existsb (listens_on port) (io_fds s).

Definition with_queue (q : backlog) (f : fd) : fd :=
  {| f_used := f_used f; f_kind := f_kind f; f_sock := f_sock f; f_io := f_io f; f_queue := q;
     f_pipe_id := f_pipe_id f; f_offset := f_offset f; f_file_id := f_file_id f;
     f_proc_kind := f_proc_kind f; f_proc_pid := f_proc_pid f |}.

Definition queue_push (p : pending) (q : backlog) : backlog :=
  {| s_pending := s_pending q + 1; s_backlog := s_backlog q; s_head := s_head q;
     s_tail := (s_tail q + 1) mod QOS_SOCK_PENDING_MAX; s_q := <[s_tail q := p]> (s_q q); s_last := s_last q |}.

Definition socket_pending_push (i peer_port peer_ip conn_id : Z) (s : io) : Z * io :=
  if (Z.of_nat QOS_FD_MAX <=? i) || (QOS_SOCK_PENDING_MAX <=? s_pending (f_queue (get_fd i s)))%nat then (-1, s)
  else
    let f := get_fd i s in
    (0, set_fd i (with_queue (queue_push {| q_rport := peer_port; q_rip := peer_ip; q_conn_id := conn_id |} (f_queue f)) f) s).

(** When the queue becomes empty its indices start over. *)
Definition queue_pop (q : backlog) : backlog :=
  let n := (s_pending q - 1)%nat in
  {| s_pending := n; s_backlog := s_backlog q;
     s_head := if (n =? 0)%nat then 0%nat else ((s_head q + 1) mod QOS_SOCK_PENDING_MAX)%nat;
     s_tail := if (n =? 0)%nat then 0%nat else s_tail q;
     s_q := <[s_head q := pending_zero]> (s_q q); s_last := s_last q |}.

Definition socket_pending_pop (i : Z) (s : io) : Z * option pending * io :=
  if (Z.of_nat QOS_FD_MAX <=? i) || (s_pending (f_queue (get_fd i s)) =? 0)%nat then (-1, None, s)
  else
    let f := get_fd i s in
    let q := f_queue f in
    (0, Some (default pending_zero (s_q q !! s_head q)), set_fd i (with_queue (queue_pop q) f) s).

(** The bytes of an address: family, port and address in network order. *)
Definition parse_sockaddr (addr : option (list Z)) (len : Z) (allow_any_ip : bool) : option (Z * Z) :=
  match addr with
  | None => None
  | Some p =>
      if len <? 8 then None
      else
        let b n := nth n p 0 in
        let port := Z.lor (Z.shiftl (b 2%nat) 8) (b 3%nat) in
        let ip := Z.lor (Z.lor (Z.lor (Z.shiftl (b 4%nat) 24) (Z.shiftl (b 5%nat) 16)) (Z.shiftl (b 6%nat) 8)) (b 7%nat) in
        if port =? 0 then None
        else if negb allow_any_ip && (ip =? 0) then None
        else Some (port, ip)
  end.

Definition write_sockaddr (port ip : Z) : list Z :=
  [2; 0; u8 (Z.shiftr port 8); u8 (Z.land port 0xFF); u8 (Z.shiftr ip 24); u8 (Z.land (Z.shiftr ip 16) 0xFF);
   u8 (Z.land (Z.shiftr ip 8) 0xFF); u8 (Z.land ip 0xFF)] ++ replicate 8 0.

(** ** Closing *)

(** [fd_clear]: the row is cleared, then what it held last is given back. *)
Definition fd_clear (i : Z) (s : io) : io :=
  if negb (fd_valid i s) then s
  else
    let f := get_fd i s in
    let sk := f_sock f in
    let s1 := set_fd i fd_zero s in
    let s2 :=
      if (f_pipe_id f <? Z.of_nat QOS_PIPE_MAX) && negb (pipe_in_use (f_pipe_id f) s1)
      then set_pipe (f_pipe_id f) pipe_zero s1 else s1 in
    let s3 :=
      if (f_file_id f <? Z.of_nat QOS_FILE_MAX) && file_used (get_file (f_file_id f) s2)
         && bool_decide (file_path (get_file (f_file_id f) s2) = EmptyString) && negb (file_has_refs (f_file_id f) s2)
      then file_drop (f_file_id f) s2 else s2 in
    let was_socket := bool_decide (f_kind f = KSocket) in
    let s4 :=
      if was_socket && (s_type sk =? QOS_SOCK_STREAM) && s_listening sk && negb (socket_listener_in_use (s_lport sk) s3)
      then with_net (with_tcp (qos_net_tcp_unlisten (s_lport sk) (n_tcp (io_net s3))).2 (io_net s3)) s3 else s3 in
    if was_socket && s_bound sk && negb (socket_port_in_use (s_lport sk) (s_type sk) s4) then
      let s5 :=
        if s_type sk =? QOS_SOCK_DGRAM
        then with_net (with_udp (qos_net_udp_unbind (s_lport sk) (n_udp (io_net s4))).2 (io_net s4)) s4 else s4 in
      with_ports (socket_port_unmark (s_type sk) (s_lport sk) (io_ports s5)) s5
    else s4.

(** SYSCALL_OP_CLOSE *)
Definition sys_close (i : Z) (s : io) : Z * io :=
  if negb (fd_valid i s) then (-1, s) else (0, fd_clear i s).

(** SYSCALL_OP_DUP2: every array of the row is copied. *)
Definition sys_dup2 (oldfd newfd : Z) (s : io) : Z * io :=
  if negb (fd_valid oldfd s) || (Z.of_nat QOS_FD_MAX <=? newfd) then (-1, s)
  else if oldfd =? newfd then (newfd, s)
  else
    let s1 := if fd_valid newfd s then fd_clear newfd s else s in
    (newfd, set_fd newfd (get_fd oldfd s1) s1).

Definition with_file_id (id : Z) (f : fd) : fd :=
  {| f_used := f_used f; f_kind := f_kind f; f_sock := f_sock f; f_io := f_io f; f_queue := f_queue f;
     f_pipe_id := f_pipe_id f; f_offset := f_offset f; f_file_id := id;
     f_proc_kind := f_proc_kind f; f_proc_pid := f_proc_pid f |}.

Definition with_pipe_id (id : Z) (f : fd) : fd :=
  {| f_used := f_used f; f_kind := f_kind f; f_sock := f_sock f; f_io := f_io f; f_queue := f_queue f;
     f_pipe_id := id; f_offset := f_offset f; f_file_id := f_file_id f;
     f_proc_kind := f_proc_kind f; f_proc_pid := f_proc_pid f |}.

Definition with_offset (off : Z) (f : fd) : fd :=
  {| f_used := f_used f; f_kind := f_kind f; f_sock := f_sock f; f_io := f_io f; f_queue := f_queue f;
     f_pipe_id := f_pipe_id f; f_offset := off; f_file_id := f_file_id f;
     f_proc_kind := f_proc_kind f; f_proc_pid := f_proc_pid f |}.

(** SYSCALL_OP_OPEN of a path the file system has. *)
Definition open_file (path : string) (s : io) : Z * io :=
  let '(i, s1) := fd_alloc KVfs s in
  if i <? 0 then (-1, s1)
  else
    let '(id, s2) := file_ensure path s1 in
    if id <? 0 then (-1, fd_clear i s2)
    else (i, set_fd i (with_file_id (u16 id) (get_fd i s2)) s2).

(** SYSCALL_OP_PIPE: the two descriptors written to the caller. *)
Definition sys_pipe (s : io) : Z * option (Z * Z) * io :=
  let '(id, s1) := pipe_alloc s in
  if id <? 0 then (-1, None, s1)
  else
    let unused p := {| pipe_used := false; pipe_len := pipe_len p; pipe_buf := pipe_buf p |} in
    let '(rfd, s2) := fd_alloc KPipeR s1 in
    if rfd <? 0 then (-1, None, set_pipe id (unused (get_pipe id s2)) s2)
    else
      let '(wfd, s3) := fd_alloc KPipeW s2 in
      if wfd <? 0 then
        let s4 := fd_clear rfd s3 in (-1, None, set_pipe id (unused (get_pipe id s4)) s4)
      else
        let s4 := set_fd rfd (with_pipe_id (u16 id) (get_fd rfd s3)) s3 in
        let s5 := set_fd wfd (with_pipe_id (u16 id) (get_fd wfd s4)) s4 in
        (0, Some (rfd, wfd), s5).

(** ** Reading and writing *)

(** SYSCALL_OP_READ on a file: the bytes copied out. *)
Definition read_vfs (i len : Z) (s : io) : Z * list Z * io :=
  let f := get_fd i s in
  let id := f_file_id f in
  let offset := u32 (f_offset f) in
  if (Z.of_nat QOS_FILE_MAX <=? id) || negb (file_used (get_file id s)) then (-1, [], s)
  else if file_len (get_file id s) <=? offset then (0, [], s)
  else
    let avail := u32 (file_len (get_file id s) - offset) in
    let copy_len := if len <? avail then len else avail in
    if copy_len =? 0 then (0, [], s)
    else (copy_len, take (Z.to_nat copy_len) (drop (Z.to_nat offset) (file_data (get_file id s))),
          set_fd i (with_offset (u32 (offset + copy_len)) f) s).

(** SYSCALL_OP_WRITE on a file. *)
Definition write_vfs (i : Z) (src : list Z) (len : Z) (s : io) : Z * io :=
  let f := get_fd i s in
  let id := f_file_id f in
  let offset := u32 (f_offset f) in
  if (Z.of_nat QOS_FILE_MAX <=? id) || negb (file_used (get_file id s)) then (-1, s)
  else if QOS_PIPE_CAP <=? offset then (-1, s)
  else
    let write_len := if u32 (QOS_PIPE_CAP - offset) <? len then u32 (QOS_PIPE_CAP - offset) else len in
    if write_len =? 0 then (0, s)
    else
      let g := get_file id s in
      let o := Z.to_nat offset in
      let data := take o (file_data g) ++ take (Z.to_nat write_len) src ++ drop (o + Z.to_nat write_len) (file_data g) in
      let offset' := u32 (offset + write_len) in
      let flen := if file_len g <? offset' then u16 offset' else file_len g in
      (write_len,
       set_file id {| file_used := file_used g; file_path := file_path g; file_len := flen; file_data := data |}
         (set_fd i (with_offset offset' f) s)).

(** SYSCALL_OP_READ on the read end of a pipe. *)
Definition read_pipe (i len : Z) (s : io) : Z * list Z * io :=
  let id := f_pipe_id (get_fd i s) in
  let p := get_pipe id s in
  if (Z.of_nat QOS_PIPE_MAX <=? id) || negb (pipe_used p) || (pipe_len p =? 0) then (-1, [], s)
  else
    let copy_len := if len <? pipe_len p then len else pipe_len p in
    if copy_len =? 0 then (0, [], s)
    else
      let n := Z.to_nat copy_len in
      let rest := Z.to_nat (pipe_len p - copy_len) in
      let buf := if copy_len <? pipe_len p
                 then take rest (drop n (pipe_buf p)) ++ drop rest (pipe_buf p) else pipe_buf p in
      (copy_len, take n (pipe_buf p),
       set_pipe id {| pipe_used := pipe_used p; pipe_len := u16 (pipe_len p - copy_len); pipe_buf := buf |} s).

(** SYSCALL_OP_WRITE on the write end of a pipe. *)
Definition write_pipe (i : Z) (src : list Z) (len : Z) (s : io) : Z * io :=
  let id := f_pipe_id (get_fd i s) in
  let p := get_pipe id s in
  if (Z.of_nat QOS_PIPE_MAX <=? id) || negb (pipe_used p) || (u32 (QOS_PIPE_CAP - pipe_len p) <? len) then (-1, s)
  else
    let o := Z.to_nat (pipe_len p) in
    (len, set_pipe id {| pipe_used := pipe_used p; pipe_len := u16 (pipe_len p + len);
                         pipe_buf := take o (pipe_buf p) ++ take (Z.to_nat len) src
                                     ++ drop (o + Z.to_nat len) (pipe_buf p) |} s).

(** SYSCALL_OP_LSEEK; [a1] is the raw 64-bit argument and [proc_total] the
    length of the text a /proc descriptor renders. *)
Definition INT64_MAX : Z := 2 ^ 63 - 1.
Definition INT64_MIN : Z := - 2 ^ 63.

Definition lseek_base (i whence proc_total : Z) (s : io) : option Z :=
  let f := get_fd i s in
  if whence =? 0 then Some 0
  else if whence =? 1 then Some (i64 (f_offset f))
  else if whence =? 2 then
    if bool_decide (f_kind f = KProc) then Some proc_total
    else
      let id := f_file_id f in
      if (Z.of_nat QOS_FILE_MAX <=? id) || negb (file_used (get_file id s)) then None else Some (file_len (get_file id s))
  else None.

Definition sys_lseek (i a1 whence proc_total : Z) (s : io) : Z * io :=
  let f := get_fd i s in
  let offset := i64 a1 in
  if negb (fd_valid i s) || (negb (bool_decide (f_kind f = KVfs)) && negb (bool_decide (f_kind f = KProc))) then (-1, s)
  else
    match lseek_base i whence proc_total s with
    | None => (-1, s)
    | Some base =>
        if ((0 <? offset) && (INT64_MAX - offset <? base)) || ((offset <? 0) && (base <? INT64_MIN - offset)) then (-1, s)
        else
          let next := base + offset in
          if next <? 0 then (-1, s) else (next, set_fd i (with_offset (u64 next) f) s)
    end.

(** ** Table access *)

Lemma get_fd_set i f s : (Z.to_nat i < length (io_fds s))%nat → get_fd i (set_fd i f s) = f.
Proof. intros Hi. unfold get_fd. cbn [set_fd with_fds io_fds]. by rewrite list_lookup_insert_eq. Qed.

Lemma get_fd_set_ne i j f s : Z.to_nat i ≠ Z.to_nat j → get_fd j (set_fd i f s) = get_fd j s.
Proof. intros Hi. unfold get_fd. cbn [set_fd with_fds io_fds]. by rewrite list_lookup_insert_ne. Qed.

Lemma get_fd_lookup i f s : io_fds s !! Z.to_nat i = Some f → get_fd i s = f.
Proof. intros H. unfold get_fd. by rewrite H. Qed.

Lemma get_pipe_lookup id p s : io_pipes s !! Z.to_nat id = Some p → get_pipe id s = p.
Proof. intros H. unfold get_pipe. by rewrite H. Qed.

Lemma get_file_lookup id f s : io_files s !! Z.to_nat id = Some f → get_file id s = f.
Proof. intros H. unfold get_file. by rewrite H. Qed.

(** [fd_alloc] takes the first free row, or fails and changes nothing. *)
Lemma fd_alloc_spec k s :
  let '(r, s') := fd_alloc k s in
  (r = -1 ∧ s' = s ∧ free_slot (io_fds s) = None)
  ∨ ∃ i f, r = Z.of_nat i ∧ free_slot (io_fds s) = Some i ∧ io_fds s !! i = Some f ∧ f_used f = false
           ∧ s' = set_fd (Z.of_nat i) (fresh_fd k) s.
Proof.
  unfold fd_alloc. destruct (free_slot (io_fds s)) as [i|] eqn:E; [right|by left].
  destruct (free_slot_Some _ _ E) as (f & Hf & Hu). eauto 10.
Qed.
