(* ===== verification/Pipes.v ===== *)
(** * Pipes are bounded byte queues

    The read and write ends made by the pipe call (syscall.c, SYSCALL_OP_PIPE)
    share one 1024-byte buffer; whatever the sequence of reads and writes, the
    bytes come out in the order they went in. *)

From S2P Require Import Prelude SlotTable Packet Net Ports Fds.

Record pipe_ok (p : pipe) : Prop := {
  pk_len : 0 <= pipe_len p <= 1024;
  pk_buf : length (pipe_buf p) = 1024%nat
}.

(** The bytes in a pipe, oldest first. *)
Definition pipe_bytes (p : pipe) : list Z := take (Z.to_nat (pipe_len p)) (pipe_buf p).

Lemma pipe_bytes_length p : pipe_ok p → Z.of_nat (length (pipe_bytes p)) = pipe_len p.
Proof. intros [Hl Hb]. unfold pipe_bytes. rewrite length_take, Hb. lia. Qed.

Inductive pipe_op := PipeWrite (bytes : list Z) | PipeRead (n : Z).

Definition pipe_exec (rfd wfd : Z) (o : pipe_op) (s : io) : Z * list Z * io :=
  match o with
  | PipeWrite bytes => let '(r, s') := write_pipe wfd bytes (Z.of_nat (length bytes)) s in (r, [], s')
  | PipeRead n => read_pipe rfd n s
  end.

(** A queue of at most 1024 bytes; a write is whole or refused, a read of an
    empty queue is refused. *)
Definition pipe_spec (o : pipe_op) (q : list Z) : Z * list Z * list Z :=
  match o with
  | PipeWrite bytes =>
      if (length q + length bytes <=? 1024)%nat then (Z.of_nat (length bytes), [], q ++ bytes) else (-1, [], q)
  | PipeRead n =>
      match q with
      | [] => (-1, [], [])
      | _ => let k := Nat.min (Z.to_nat n) (length q) in (Z.of_nat k, take k q, drop k q)
      end
  end.

Fixpoint pipe_run (rfd wfd : Z) (ops : list pipe_op) (s : io) : list (Z * list Z) * io :=
  match ops with
  | [] => ([], s)
  | o :: ops' => let '(r, bs, s1) := pipe_exec rfd wfd o s in
                 let '(rs, s2) := pipe_run rfd wfd ops' s1 in ((r, bs) :: rs, s2)
  end.

Fixpoint pipe_spec_run (ops : list pipe_op) (q : list Z) : list (Z * list Z) * list Z :=
  match ops with
  | [] => ([], q)
  | o :: ops' => let '(r, bs, q1) := pipe_spec o q in
                 let '(rs, q2) := pipe_spec_run ops' q1 in ((r, bs) :: rs, q2)
  end.

Definition pipe_op_ok (o : pipe_op) : Prop :=
  match o with PipeWrite bytes => Z.of_nat (length bytes) < 2 ^ 32 | PipeRead n => 0 <= n end.

(** The two ends are open on a pipe that holds [q]. *)
Record pipe_open (rfd wfd id : Z) (q : list Z) (s : io) : Prop := {
  po_id : 0 <= id < 32;
  po_rfd : f_pipe_id (get_fd rfd s) = id;
  po_wfd : f_pipe_id (get_fd wfd s) = id;
  po_pipe : ∃ p, io_pipes s !! Z.to_nat id = Some p ∧ pipe_used p = true ∧ pipe_ok p ∧ pipe_bytes p = q
}.

Lemma pipe_open_set rfd wfd id q q' p s :
  pipe_open rfd wfd id q s → pipe_used p = true → pipe_ok p → pipe_bytes p = q' →
  pipe_open rfd wfd id q' (set_pipe id p s).
Proof.
  intros [Hid Hr Hw (p0 & Hp0 & _)] Hu Hok Hb. split; try done. exists p. split; [|done].
  cbn [set_pipe with_pipes io_pipes]. apply list_lookup_insert_eq. by eapply lookup_lt_Some.
Qed.

Lemma write_pipe_refines rfd wfd id q bytes s :
  pipe_open rfd wfd id q s → Z.of_nat (length bytes) < 2 ^ 32 →
  let '(r, s') := write_pipe wfd bytes (Z.of_nat (length bytes)) s in
  let '(r', _, q') := pipe_spec (PipeWrite bytes) q in r = r' ∧ pipe_open rfd wfd id q' s'.
Proof.
  intros Ho Hb. pose proof Ho as [Hid _ Hw (p & Hp & Hu & Hok & Hq)]. unfold write_pipe. rewrite Hw.
  rewrite (get_pipe_lookup id p s Hp), Hu. destruct Hok as [Hl Hbuf] eqn:E. clear E.
  pose proof (pipe_bytes_length p Hok) as Hql. rewrite Hq in Hql. unfold QOS_PIPE_CAP.
  rewrite wrap_small by (unfold in_width; lia). change (Z.of_nat QOS_PIPE_MAX) with 32.
  rewrite (proj2 (Z.leb_gt 32 id)) by lia. cbn [negb orb pipe_spec].
  destruct (Nat.leb_spec (length q + length bytes) 1024) as [Hfit|Hno]; last first.
  { by rewrite (proj2 (Z.ltb_lt _ _)) by lia. }
  rewrite (proj2 (Z.ltb_ge _ _)) by lia. split; [done|].
  apply (pipe_open_set rfd wfd id q); [done|done| |].
  - split; cbn [pipe_len pipe_buf]; [rewrite wrap_small by (unfold in_width; lia); lia|].
    rewrite !length_app, !length_take, length_drop, Hbuf. lia.
  - unfold pipe_bytes at 1. cbn [pipe_len pipe_buf]. rewrite wrap_small by (unfold in_width; lia).
    rewrite Nat2Z.id, firstn_all. rewrite (assoc_L (++)). fold (pipe_bytes p). rewrite Hq.
    rewrite take_app_length'; [done|]. rewrite length_app. lia.
Qed.

Lemma read_pipe_refines rfd wfd id q n s :
  pipe_open rfd wfd id q s → 0 <= n →
  let '(r, bs, s') := read_pipe rfd n s in
  let '(r', bs', q') := pipe_spec (PipeRead n) q in r = r' ∧ bs = bs' ∧ pipe_open rfd wfd id q' s'.
Proof.
  intros Ho Hn. pose proof Ho as [Hid Hr _ (p & Hp & Hu & Hok & Hq)]. unfold read_pipe. rewrite Hr.
  rewrite (get_pipe_lookup id p s Hp), Hu. pose proof (pipe_bytes_length p Hok) as Hql. rewrite Hq in Hql.
  destruct Hok as [Hl Hbuf]. change (Z.of_nat QOS_PIPE_MAX) with 32. rewrite (proj2 (Z.leb_gt 32 id)) by lia.
  cbn [negb orb]. destruct (Z.eqb_spec (pipe_len p) 0) as [Hz|Hnz].
  { destruct q; [done|]. cbn [length] in Hql. lia. }
  assert (Z.of_nat (Nat.min (Z.to_nat n) (length q)) = if n <? pipe_len p then n else pipe_len p) as Hk.
  { destruct (Z.ltb_spec n (pipe_len p)); lia. }
  set (c := if n <? pipe_len p then n else pipe_len p) in *. set (k := Nat.min (Z.to_nat n) (length q)) in *.
  assert (Z.to_nat c = k) as Hck by lia. assert (k <= length q)%nat as Hkq by lia.
  assert (pipe_spec (PipeRead n) q = (Z.of_nat k, take k q, drop k q)) as ->.
  { cbn [pipe_spec]. destruct q; [cbn [length] in Hql; lia|done]. }
  assert (take k (pipe_buf p) = take k q) as Htk.
  { rewrite <- Hq. unfold pipe_bytes. rewrite take_take. f_equal. lia. }
  destruct (Z.eqb_spec c 0) as [Hc0|Hc0].
  { assert (k = 0%nat) as -> by lia. rewrite take_0, drop_0. split; [lia|done]. }
  rewrite Hck, Htk. split; [lia|]. split; [done|]. apply (pipe_open_set rfd wfd id q); [done|done| |].
  - split; cbn [pipe_len pipe_buf]; [rewrite wrap_small by (unfold in_width; lia); lia|].
    destruct (c <? pipe_len p); [|done]. rewrite length_app, length_take, !length_drop, Hbuf. lia.
  - unfold pipe_bytes at 1. cbn [pipe_len pipe_buf]. rewrite wrap_small by (unfold in_width; lia).
    rewrite <- Hq. unfold pipe_bytes. destruct (Z.ltb_spec c (pipe_len p)) as [Hlt|Hge].
    + rewrite take_app_length' by (rewrite length_take, length_drop, Hbuf; lia).
      rewrite skipn_firstn_comm. f_equal. lia.
    + assert (pipe_len p - c = 0) as -> by lia. rewrite take_0. symmetry. apply drop_ge. rewrite length_take. lia.
Qed.

Lemma pipe_run_refines rfd wfd id ops q s :
  pipe_open rfd wfd id q s → Forall pipe_op_ok ops →
  let '(rs, s') := pipe_run rfd wfd ops s in
  let '(rs', q') := pipe_spec_run ops q in rs = rs' ∧ pipe_open rfd wfd id q' s'.
Proof.
  revert q s. induction ops as [|o ops IH]; intros q s Ho Hok; cbn [pipe_run pipe_spec_run]; [done|].
  apply Forall_cons in Hok as [Hoo Hok].
  assert (let '(r, bs, s') := pipe_exec rfd wfd o s in
          let '(r', bs', q') := pipe_spec o q in r = r' ∧ bs = bs' ∧ pipe_open rfd wfd id q' s') as Hs.
  { destruct o as [bytes|n]; cbn [pipe_exec pipe_op_ok] in *; [|by apply read_pipe_refines].
    pose proof (write_pipe_refines rfd wfd id q bytes s Ho Hoo) as H.
    destruct (write_pipe wfd bytes _ s) as [r s']. cbn [pipe_spec] in *. destruct (_ <=? 1024)%nat; naive_solver. }
  destruct (pipe_exec rfd wfd o s) as [[r bs] s1], (pipe_spec o q) as [[r' bs'] q1]. destruct Hs as (-> & -> & Ho1).
  specialize (IH q1 s1 Ho1 Hok). destruct (pipe_run rfd wfd ops s1), (pipe_spec_run ops q1). destruct IH as [-> ?]. done.
Qed.

(** The pipe call opens two fresh descriptors on an empty pipe. *)
Lemma sys_pipe_opens s rfd wfd s1 :
  length (io_pipes s) = QOS_PIPE_MAX → length (io_fds s) = QOS_FD_MAX → sys_pipe s = (0, Some (rfd, wfd), s1) →
  rfd ≠ wfd ∧ fd_valid rfd s = false ∧ fd_valid wfd s = false ∧ ∃ id, pipe_open rfd wfd id [] s1.
Proof.
  intros Hlp Hlf. unfold sys_pipe, pipe_alloc. destruct (free_slot (io_pipes s)) as [id|] eqn:Eid; [|done].
  rewrite (proj2 (Z.ltb_ge _ 0)) by lia. set (np := {| pipe_used := true |}). set (sp := set_pipe (Z.of_nat id) np s).
  pose proof (fd_alloc_spec KPipeR sp) as Hr. destruct (fd_alloc KPipeR sp) as [rf sr].
  destruct Hr as [(-> & _)|(i & fi & -> & Ei & Hfi & Hui & ->)]; [done|]. rewrite (proj2 (Z.ltb_ge _ 0)) by lia.
  set (sr := set_fd (Z.of_nat i) _ sp). pose proof (fd_alloc_spec KPipeW sr) as Hw. destruct (fd_alloc KPipeW sr) as [wf sw].
  destruct Hw as [(-> & _)|(j & fj & -> & Ej & Hfj & Huj & ->)]; [done|]. rewrite (proj2 (Z.ltb_ge _ 0)) by lia.
  intros [= <- <- <-]. pose proof (free_slot_lt _ _ Eid) as Hid. pose proof (lookup_lt_Some _ _ _ Hfi) as Hi.
  pose proof (lookup_lt_Some _ _ _ Hfj) as Hj. unfold QOS_PIPE_MAX, QOS_FD_MAX in *.
  change (io_fds sp) with (io_fds s) in *. assert (length (io_fds sr) = 256%nat) as Hlr by (cbn; by rewrite length_insert).
  assert (i ≠ j) as Hij.
  { intros ->. cbn [sr set_fd with_fds io_fds] in Hfj. rewrite Nat2Z.id, list_lookup_insert_eq in Hfj by done. by simplify_eq. }
  cbn [sr set_fd with_fds io_fds] in Hfj. rewrite list_lookup_insert_ne in Hfj by lia.
  assert (fd_valid (Z.of_nat i) s = false ∧ fd_valid (Z.of_nat j) s = false) as [? ?].
  { unfold fd_valid. rewrite (get_fd_lookup _ fi), (get_fd_lookup _ fj), Hui, Huj by (by rewrite Nat2Z.id). by rewrite !andb_false_r. }
  split; [lia|]. split; [done|]. split; [done|]. exists (Z.of_nat id).
  rewrite wrap_small by (unfold in_width; lia). split; [lia| | |].
  - rewrite get_fd_set_ne by lia. by rewrite get_fd_set by (cbn; rewrite ?length_insert; lia).
  - by rewrite get_fd_set by (cbn; rewrite !length_insert; lia).
  - exists np. split; [|done]. cbn. rewrite Nat2Z.id. by apply list_lookup_insert_eq.
Qed.

(** C19: A pipe is a first-in first-out queue of at most 1024 bytes. Whenever the
    pipe call succeeds it returns two different descriptors that were free, and
    every sequence of writes to the one and reads from the other returns the
    counts and the bytes of the queue: a write is stored whole or refused, a
    read takes up to the requested number of the oldest bytes, and a read of an
    empty pipe fails. *)
Theorem pipe_is_byte_fifo s rfd wfd s1 ops :
  length (io_pipes s) = QOS_PIPE_MAX → length (io_fds s) = QOS_FD_MAX →
  sys_pipe s = (0, Some (rfd, wfd), s1) → Forall pipe_op_ok ops →
  rfd ≠ wfd ∧ fd_valid rfd s = false ∧ fd_valid wfd s = false
  ∧ (pipe_run rfd wfd ops s1).1 = (pipe_spec_run ops []).1.
Proof.
  intros Hlp Hlf Hs Hok. destruct (sys_pipe_opens s rfd wfd s1 Hlp Hlf Hs) as (? & ? & ? & id & Ho).
  do 3 (split; [done|]). pose proof (pipe_run_refines rfd wfd id ops [] s1 Ho Hok) as Hrun.
  destruct (pipe_run rfd wfd ops s1), (pipe_spec_run ops []). by destruct Hrun.
Qed.

Definition demo_pipe_ops : list pipe_op := [PipeRead 4; PipeWrite [1; 2; 3]; PipeWrite [4; 5]; PipeRead 2; PipeRead 9].

Lemma pipe_is_byte_fifo_witness :
  (pipe_run 0 1 demo_pipe_ops (sys_pipe (io_reset qos_net_reset)).2).1 = [(-1, []); (3, []); (2, []); (2, [1; 2]); (3, [3; 4; 5])].
Proof.
  destruct (pipe_is_byte_fifo (io_reset qos_net_reset) 0 1 (sys_pipe (io_reset qos_net_reset)).2 demo_pipe_ops)
    as (_ & _ & _ & H); [reflexivity|reflexivity| |repeat constructor; simpl; lia|].
  - apply injective_projections; [vm_compute; reflexivity|reflexivity].
  - rewrite H. reflexivity.
Defined.
