(* ===== verification/Files.v ===== *)
(** * Files

    An open file descriptor (syscall.c, the file branches of SYSCALL_OP_READ,
    WRITE and LSEEK) is a position in a byte string of at most 1024 bytes, and a
    file's slot lives exactly as long as it has a name or an open descriptor. *)

From S2P Require Import Prelude SlotTable Packet Net Ports Fds.

(** The bytes of a file; the buffer behind them is zero. *)
Definition file_bytes (g : file) : list Z := take (Z.to_nat (file_len g)) (file_data g).

Record file_ok (g : file) : Prop := {
  fk_len : 0 <= file_len g <= 1024;
  fk_size : length (file_data g) = 1024%nat;
  fk_data : file_data g = file_bytes g ++ replicate (Z.to_nat (1024 - file_len g)) 0
}.

Lemma file_bytes_length g : file_ok g → Z.of_nat (length (file_bytes g)) = file_len g.
Proof.
  intros [Hl Hs _]. unfold file_bytes. rewrite length_take. lia.
Qed.

Inductive file_op := FWrite (bytes : list Z) | FRead (n : Z) | FSeek (off whence : Z).

Definition file_exec (i : Z) (o : file_op) (s : io) : Z * list Z * io :=
  match o with
  | FWrite bytes => let '(r, s') := write_vfs i bytes (Z.of_nat (length bytes)) s in (r, [], s')
  | FRead n => read_vfs i n s
  | FSeek off whence => let '(r, s') := sys_lseek i (u64 off) whence 0 s in (r, [], s')
  end.

(** Contents and position.  Reads and writes use the position modulo 2^32. *)
Record fspec := { fs_bytes : list Z; fs_pos : Z }.

(** [bytes] written at [p], a gap reading as zeros. *)
Definition overwrite (bs : list Z) (p : nat) (bytes : list Z) : list Z :=
  take p (bs ++ replicate p 0) ++ bytes ++ drop (p + length bytes) bs.

Definition file_spec (o : file_op) (S : fspec) : Z * list Z * fspec :=
  let p := Z.to_nat (u32 (fs_pos S)) in
  match o with
  | FWrite bytes =>
      if (1024 <=? p)%nat then (-1, [], S)
      else
        let n := Nat.min (length bytes) (1024 - p) in
        if (n =? 0)%nat then (0, [], S)
        else (Z.of_nat n, [], {| fs_bytes := overwrite (fs_bytes S) p (take n bytes); fs_pos := Z.of_nat (p + n) |})
  | FRead n =>
      let k := Nat.min (Z.to_nat n) (length (fs_bytes S) - p) in
      if (k =? 0)%nat then (0, [], S)
      else (Z.of_nat k, take k (drop p (fs_bytes S)), {| fs_bytes := fs_bytes S; fs_pos := Z.of_nat (p + k) |})
  | FSeek off whence =>
      let go base := if (0 <=? base + off) && (base + off <? 2 ^ 63)
                     then (base + off, [], {| fs_bytes := fs_bytes S; fs_pos := base + off |}) else (-1, [], S) in
      if whence =? 0 then go 0
      else if whence =? 1 then go (fs_pos S)
      else if whence =? 2 then go (Z.of_nat (length (fs_bytes S)))
      else (-1, [], S)
  end.

Definition file_op_ok (o : file_op) : Prop :=
  match o with
  | FWrite bytes => Z.of_nat (length bytes) < 2 ^ 32
  | FRead n => 0 <= n < 2 ^ 32
  | FSeek off whence => - 2 ^ 63 <= off < 2 ^ 63
  end.

(** Descriptor [i] is open on file slot [id] with the state [S]. *)
Record file_open (i id : Z) (S : fspec) (s : io) : Prop := {
  fo_fd : 0 <= i < 256 ∧ (Z.to_nat i < length (io_fds s))%nat;
  fo_used : f_used (get_fd i s) = true ∧ f_kind (get_fd i s) = KVfs;
  fo_id : f_file_id (get_fd i s) = id ∧ 0 <= id < 128;
  fo_pos : f_offset (get_fd i s) = fs_pos S ∧ 0 <= fs_pos S < 2 ^ 63;
  fo_file : ∃ g, io_files s !! Z.to_nat id = Some g ∧ file_used g = true ∧ file_ok g ∧ file_bytes g = fs_bytes S
}.

Lemma file_open_seek i id S s pos :
  file_open i id S s → 0 <= pos < 2 ^ 63 →
  file_open i id {| fs_bytes := fs_bytes S; fs_pos := pos |} (set_fd i (with_offset pos (get_fd i s)) s).
Proof.
  intros [[? ?] [? ?] [? ?] _ Hf] Hp. split; rewrite ?get_fd_set by done; try done.
  split; [done|]. cbn. by rewrite length_insert.
Qed.

Lemma read_vfs_refines i id S n s :
  file_open i id S s → 0 <= n < 2 ^ 32 →
  let '(r, bs, s') := read_vfs i n s in
  let '(r', bs', S') := file_spec (FRead n) S in r = r' ∧ bs = bs' ∧ file_open i id S' s'.
Proof.
  intros Ho Hn. pose proof Ho as [_ _ [Hid Hidr] [Hpos Hp] (g & Hg & Hu & Hok & Hb)].
  unfold read_vfs. rewrite Hid, Hpos, (get_file_lookup id g s Hg), Hu. change (Z.of_nat QOS_FILE_MAX) with 128.
  rewrite (proj2 (Z.leb_gt 128 id)) by lia. cbn [negb orb file_spec].
  pose proof (file_bytes_length g Hok) as Hl. rewrite Hb in Hl. pose proof Hok as [Hlen _ Hdata].
  pose proof (wrap_range 32 (fs_pos S) ltac:(lia)) as Hw. unfold in_width in Hw. set (p := u32 (fs_pos S)) in *.
  destruct (Z.leb_spec (file_len g) p) as [Hend|Hlt].
  { assert (Nat.min (Z.to_nat n) (length (fs_bytes S) - Z.to_nat p) = 0%nat) as -> by lia. done. }
  rewrite wrap_small by (unfold in_width; lia).
  set (k := Nat.min (Z.to_nat n) (length (fs_bytes S) - Z.to_nat p)).
  assert ((if n <? file_len g - p then n else file_len g - p) = Z.of_nat k) as ->.
  { destruct (Z.ltb_spec n (file_len g - p)); lia. }
  destruct (Nat.eqb_spec k 0) as [Hk|Hk]; [by rewrite (proj2 (Z.eqb_eq _ _)) by lia|].
  rewrite (proj2 (Z.eqb_neq _ _)) by lia. rewrite Nat2Z.id. split; [done|]. split.
  - rewrite Hdata, Hb, drop_app_le by lia. rewrite take_app_le; [done|]. rewrite length_drop. lia.
  - rewrite wrap_small by (unfold in_width; lia). replace (Z.of_nat (Z.to_nat p + k)) with (p + Z.of_nat k) by lia.
    apply file_open_seek; [done|lia].
Qed.

Lemma overwrite_length bs p bytes :
  (0 < length bytes)%nat → length (overwrite bs p bytes) = Nat.max (length bs) (p + length bytes).
Proof. intros ?. unfold overwrite. rewrite !length_app, length_take, length_app, length_replicate, length_drop. lia. Qed.

(** Writing into the zero-padded buffer is overwriting the bytes. *)
Lemma overwrite_padded bs p bytes (cap : nat) :
  (0 < length bytes)%nat → (p + length bytes <= cap)%nat → (length bs <= cap)%nat →
  let data := bs ++ replicate (cap - length bs) 0 in
  let bs' := overwrite bs p bytes in
  take p data ++ bytes ++ drop (p + length bytes) data = bs' ++ replicate (cap - length bs') 0.
Proof.
  intros Hb Hp Hl data bs'. unfold bs'. rewrite overwrite_length by done. unfold overwrite, data.
  rewrite <- !app_assoc. f_equal.
  - apply list_eq. intros j. destruct (decide (j < p)%nat); [|by rewrite !lookup_take_ge by lia].
    rewrite !lookup_take_lt by lia. destruct (decide (j < length bs)%nat).
    + by rewrite !lookup_app_l by lia.
    + rewrite !lookup_app_r, !lookup_replicate_2 by lia. done.
  - f_equal. rewrite drop_app, drop_replicate. f_equal. f_equal. lia.
Qed.

Lemma file_ok_write g p bytes :
  file_ok g → (0 < length bytes)%nat → (p + length bytes <= 1024)%nat →
  let e := Z.of_nat (p + length bytes) in
  let g' := {| file_used := file_used g; file_path := file_path g;
               file_len := if file_len g <? e then e else file_len g;
               file_data := take p (file_data g) ++ bytes ++ drop (p + length bytes) (file_data g) |} in
  file_ok g' ∧ file_bytes g' = overwrite (file_bytes g) p bytes.
Proof.
  intros Hok Hb Hp e g'. pose proof (file_bytes_length g Hok) as Hl. destruct Hok as [Hlen Hsz Hdata].
  assert (Hd : file_data g' = overwrite (file_bytes g) p bytes ++ replicate (1024 - length (overwrite (file_bytes g) p bytes)) 0).
  { cbn [g' file_data]. rewrite <- overwrite_padded by lia. rewrite Hdata at 1 2.
    by replace (Z.to_nat (1024 - file_len g)) with (1024 - length (file_bytes g))%nat by lia. }
  assert (Hn : file_len g' = Z.of_nat (length (overwrite (file_bytes g) p bytes))).
  { rewrite overwrite_length by done. cbn [g' file_len]. destruct (Z.ltb_spec (file_len g) e); lia. }
  pose proof (overwrite_length (file_bytes g) p bytes Hb) as Ho.
  assert (Hbs : file_bytes g' = overwrite (file_bytes g) p bytes).
  { unfold file_bytes at 1. rewrite Hd, Hn, Nat2Z.id. by rewrite take_app_length. }
  split; [|done]. split; [lia| |].
  - rewrite Hd, length_app, length_replicate. lia.
  - rewrite Hbs, Hd. f_equal. f_equal. lia.
Qed.

Lemma file_open_write i id S s g' bs pos :
  file_open i id S s → 0 <= pos < 2 ^ 63 → file_used g' = true → file_ok g' → file_bytes g' = bs →
  file_open i id {| fs_bytes := bs; fs_pos := pos |} (set_file id g' (set_fd i (with_offset pos (get_fd i s)) s)).
Proof.
  intros Ho Hp Hu Hok Hb. pose proof (file_open_seek i id S s pos Ho Hp) as [[? ?] ? ? ? (g & Hg & _)].
  split; try done. exists g'. split; [|done]. apply list_lookup_insert_eq. by eapply lookup_lt_Some.
Qed.

Lemma write_vfs_refines i id S bytes s :
  file_open i id S s → Z.of_nat (length bytes) < 2 ^ 32 →
  let '(r, s') := write_vfs i bytes (Z.of_nat (length bytes)) s in
  let '(r', _, S') := file_spec (FWrite bytes) S in r = r' ∧ file_open i id S' s'.
Proof.
  intros Ho Hn. pose proof Ho as [_ _ [Hid Hidr] [Hpos Hp] (g & Hg & Hu & Hok & Hb)].
  unfold write_vfs. rewrite Hid, Hpos, (get_file_lookup id g s Hg), Hu. change (Z.of_nat QOS_FILE_MAX) with 128.
  rewrite (proj2 (Z.leb_gt 128 id)) by lia. cbn [negb orb file_spec]. change QOS_PIPE_CAP with 1024.
  pose proof (wrap_range 32 (fs_pos S) ltac:(lia)) as Hw. unfold in_width in Hw. set (p := u32 (fs_pos S)) in *.
  destruct (Z.leb_spec 1024 p) as [Hend|Hlt]; [by rewrite (proj2 (Nat.leb_le _ _)) by lia|].
  rewrite (proj2 (Nat.leb_gt _ _)) by lia. rewrite (wrap_small 32 (1024 - p)) by (unfold in_width; lia).
  set (n := Nat.min (length bytes) (1024 - Z.to_nat p)).
  assert ((if 1024 - p <? Z.of_nat (length bytes) then 1024 - p else Z.of_nat (length bytes)) = Z.of_nat n) as ->.
  { destruct (Z.ltb_spec (1024 - p) (Z.of_nat (length bytes))); lia. }
  destruct (Nat.eqb_spec n 0) as [Hk|Hk]; [by rewrite (proj2 (Z.eqb_eq _ _)) by lia|].
  rewrite (proj2 (Z.eqb_neq _ _)) by lia. rewrite Nat2Z.id. split; [done|].
  assert (length (take n bytes) = n) as Hlt' by (rewrite length_take; lia).
  destruct (file_ok_write g (Z.to_nat p) (take n bytes)) as [Hok' Hb']; [done|lia|lia|].
  rewrite Hlt', Hu in Hok', Hb'. rewrite Hb in Hb'. rewrite (wrap_small 32) by (unfold in_width; lia).
  replace (p + Z.of_nat n) with (Z.of_nat (Z.to_nat p + n)) by lia.
  rewrite (wrap_small 16) by (unfold in_width; lia).
  apply (file_open_write i id S); [done|lia|done|done|done].
Qed.

Lemma sys_lseek_refines i id S off whence s :
  file_open i id S s → - 2 ^ 63 <= off < 2 ^ 63 →
  let '(r, s') := sys_lseek i (u64 off) whence 0 s in
  let '(r', _, S') := file_spec (FSeek off whence) S in r = r' ∧ file_open i id S' s'.
Proof.
  intros Ho Hoff. pose proof Ho as [[Hi _] [Hu Hk] [Hid Hidr] [Hpos Hp] (g & Hg & Hgu & Hok & Hb)].
  pose proof (file_bytes_length g Hok) as Hl. rewrite Hb in Hl. pose proof (fk_len g Hok) as Hlen.
  assert (Hv : fd_valid i s = true) by (unfold fd_valid; rewrite Hu, andb_true_r; change (Z.of_nat QOS_FD_MAX) with 256; b2p; lia).
  unfold sys_lseek, lseek_base. rewrite Hv, Hk, Hid, Hpos, (get_file_lookup id g s Hg), Hgu, (sext_wrap 64) by lia.
  rewrite (sext_small 64) by lia. change (Z.of_nat QOS_FILE_MAX) with 128.
  rewrite (proj2 (Z.leb_gt 128 id)), <- Hl by lia. cbn [negb orb andb]. rewrite !bool_decide_eq_true_2 by done.
  rewrite bool_decide_eq_false_2 by done. cbn [negb orb andb file_spec].
  set (go := λ base : Z, if (0 <=? base + off) && (base + off <? 2 ^ 63)
      then (base + off, @nil Z, {| fs_bytes := fs_bytes S; fs_pos := base + off |}) else (-1, [], S)).
  assert (Hgo : ∀ base, 0 <= base < 2 ^ 63 →
    let '(r, s') :=
      if (0 <? off) && (INT64_MAX - off <? base) || (off <? 0) && (base <? INT64_MIN - off) then (-1, s)
      else if base + off <? 0 then (-1, s)
      else (base + off, set_fd i (with_offset (u64 (base + off)) (get_fd i s)) s) in
    let '(r', _, S') := go base in r = r' ∧ file_open i id S' s').
  { intros base Hbase. unfold go, INT64_MAX, INT64_MIN. split_ifs; b2p; try lia; try (split; [done|done]).
    split; [done|]. rewrite (wrap_small 64) by (unfold in_width; lia). apply file_open_seek; [done|lia]. }
  destruct (whence =? 0); [apply (Hgo 0); lia|]. destruct (whence =? 1); [by apply Hgo|].
  destruct (whence =? 2); [apply Hgo; lia|done].
Qed.

(** Only a read produces bytes. *)
Lemma file_spec_silent o S : (∀ n, o ≠ FRead n) → (file_spec o S).1.2 = [].
Proof.
  intros Ho. destruct o as [bytes|n|off whence]; cbn [file_spec]; [|by destruct (Ho n)|].
  { cbv zeta. case_match; [done|]. by case_match. }
  cbv zeta. by repeat (case_match; try done).
Qed.

Lemma file_step_refines i id S o s :
  file_open i id S s → file_op_ok o →
  let '(r, bs, s') := file_exec i o s in
  let '(r', bs', S') := file_spec o S in r = r' ∧ bs = bs' ∧ file_open i id S' s'.
Proof.
  intros Ho Hop. destruct o as [bytes|n|off whence]; cbn [file_exec].
  - pose proof (write_vfs_refines i id S bytes s Ho Hop) as H. destruct (write_vfs _ _ _ _) as [r s'].
    destruct (file_spec _ _) as [[r' bs'] S'] eqn:E. destruct H as [-> ?].
    apply (f_equal (λ x, x.1.2)) in E. cbn [fst snd] in E. rewrite <- E, file_spec_silent by done. done.
  - apply (read_vfs_refines i id S n s Ho Hop).
  - pose proof (sys_lseek_refines i id S off whence s Ho Hop) as H. destruct (sys_lseek _ _ _ _ _) as [r s'].
    destruct (file_spec _ _) as [[r' bs'] S'] eqn:E. destruct H as [-> ?].
    apply (f_equal (λ x, x.1.2)) in E. cbn [fst snd] in E. rewrite <- E, file_spec_silent by done. done.
Qed.

Fixpoint file_run (i : Z) (ops : list file_op) (s : io) : list (Z * list Z) :=
  match ops with
  | [] => []
  | o :: ops => let '(r, bs, s') := file_exec i o s in (r, bs) :: file_run i ops s'
  end.

Fixpoint file_spec_run (ops : list file_op) (S : fspec) : list (Z * list Z) :=
  match ops with
  | [] => []
  | o :: ops => let '(r, bs, S') := file_spec o S in (r, bs) :: file_spec_run ops S'
  end.

Lemma file_run_refines i id ops S s :
  file_open i id S s → Forall file_op_ok ops → file_run i ops s = file_spec_run ops S.
Proof.
  revert S s. induction ops as [|o ops IH]; intros S s Ho Hops; [done|]. apply Forall_cons in Hops as [Hop Hops].
  cbn [file_run file_spec_run]. pose proof (file_step_refines i id S o s Ho Hop) as H.
  destruct (file_exec i o s) as [[r bs] s'], (file_spec o S) as [[r' bs'] S'].
  destruct H as (-> & -> & Ho'). f_equal. by apply IH.
Qed.

(** ** Opening *)

Record files_wf (s : io) : Prop := {
  fw_fds : length (io_fds s) = QOS_FD_MAX;
  fw_files : length (io_files s) = QOS_FILE_MAX;
  fw_ok : ∀ id g, io_files s !! id = Some g → file_used g = true → file_ok g
}.

(** The bytes a path names: none when it has no file. *)
Definition contents_of (path : string) (s : io) : list Z :=
  match find_key path (io_files s) with Some id => file_bytes (get_file (Z.of_nat id) s) | None => [] end.

Lemma file_ok_fresh path :
  file_ok {| file_used := true; file_path := path; file_len := 0; file_data := replicate (Z.to_nat QOS_PIPE_CAP) 0 |}.
Proof. by split. Qed.

Lemma file_ensure_open path s :
  files_wf s →
  let '(id, s') := file_ensure path s in
  io_fds s' = io_fds s ∧
  (id < 0 ∨ 0 <= id < 128 ∧ ∃ g, io_files s' !! Z.to_nat id = Some g ∧ file_used g = true ∧ file_ok g
            ∧ file_bytes g = contents_of path s).
Proof.
  intros [_ Hfl Hok]. unfold file_ensure, file_find, contents_of, index_or_neg. change QOS_FILE_MAX with 128%nat in Hfl.
  destruct (find_key path (io_files s)) as [j|] eqn:Ef.
  - rewrite (proj2 (Z.leb_le 0 _)) by lia. split; [done|right]. pose proof (find_key_lt _ _ _ Ef).
    split; [lia|]. destruct (find_key_Some _ _ _ Ef) as (g & Hg & Hu & _). exists g.
    unfold get_file. rewrite Nat2Z.id, Hg. split_and!; [done|done|by eapply Hok|done].
  - cbn [Z.leb]. change (0 <=? -1) with false. unfold file_alloc. destruct (free_slot (io_files s)) as [j|] eqn:Es; [|by eauto with lia].
    split; [done|right]. pose proof (free_slot_lt _ _ Es). split; [lia|].
    eexists. rewrite Nat2Z.id. unfold set_file. cbn [with_files io_files]. rewrite Nat2Z.id. split.
    + by apply list_lookup_insert_eq.
    + split; [done|]. split; [apply file_ok_fresh|done].
Qed.

Lemma open_file_open path s i s1 :
  files_wf s → open_file path s = (i, s1) → 0 <= i →
  ∃ id, file_open i id {| fs_bytes := contents_of path s; fs_pos := 0 |} s1.
Proof.
  intros Hwf Hopen Hi. unfold open_file in Hopen. pose proof (fd_alloc_spec KVfs s) as Ha.
  destruct (fd_alloc KVfs s) as [r s0]. destruct Ha as [(-> & _ & _)|(j & f & -> & _ & Hf & _ & ->)].
  { injection Hopen. intros. lia. }
  rewrite (proj2 (Z.ltb_ge _ _)) in Hopen by lia. pose proof (lookup_lt_Some _ _ _ Hf) as Hj.
  pose proof (fw_fds s Hwf) as Hn. change QOS_FD_MAX with 256%nat in Hn.
  assert (Hwf0 : files_wf (set_fd (Z.of_nat j) (fresh_fd KVfs) s)).
  { destruct Hwf. split; [by cbn; rewrite length_insert|done|done]. }
  pose proof (file_ensure_open path _ Hwf0) as He. destruct (file_ensure path _) as [id s2]. destruct He as [Hfds He].
  destruct (Z.ltb_spec id 0) as [|Hid]; [injection Hopen; intros; lia|].
  destruct He as [?|(Hidr & g & Hg & Hu & Hok & Hb)]; [lia|]. injection Hopen as <- <-.
  assert (Hl : (Z.to_nat (Z.of_nat j) < length (io_fds s2))%nat).
  { rewrite Hfds. cbn. rewrite length_insert. lia. }
  assert (Hr : get_fd (Z.of_nat j) s2 = fresh_fd KVfs).
  { unfold get_fd. rewrite Hfds. change (get_fd (Z.of_nat j) (set_fd (Z.of_nat j) (fresh_fd KVfs) s) = fresh_fd KVfs).
    apply get_fd_set. lia. }
  rewrite (wrap_small 16) by (unfold in_width; lia). exists id. split; rewrite ?get_fd_set by done; rewrite ?Hr; try done.
  - split; [lia|]. cbn. rewrite length_insert. lia.
  - by exists g.
Qed.

(** Opening a path gives a descriptor that is a position in the bytes the path
    names: whatever sequence of writes, reads and seeks follows, every result
    and every byte read is that of a byte string of at most 1024 bytes with a
    position, a write past the end leaving a gap of zeros and the position
    entering reads and writes modulo 2^32. *)
Theorem file_descriptor_refines path s i s1 ops :
  files_wf s → open_file path s = (i, s1) → 0 <= i → Forall file_op_ok ops →
  file_run i ops s1 = file_spec_run ops {| fs_bytes := contents_of path s; fs_pos := 0 |}.
Proof.
  intros Hwf Hopen Hi Hops. destruct (open_file_open path s i s1 Hwf Hopen Hi) as [id Ho].
  by apply (file_run_refines i id).
Qed.

Lemma files_wf_reset n : files_wf (io_reset n).
Proof.
  split; [done|done|]. intros id g Hg Hu. cbn [io_reset io_files] in Hg.
  apply lookup_replicate_1 in Hg as [-> _]. done.
Qed.

Example file_descriptor_refines_witness :
  file_run 0 [FSeek 3 0; FWrite [7; 8]; FSeek (-4) 1; FRead 9]
    (open_file "/a" (io_reset qos_net_reset)).2
  = [(3, []); (2, []); (1, []); (4, [0; 0; 7; 8])].
Proof.
  rewrite (file_descriptor_refines "/a" (io_reset qos_net_reset) 0 _ _ (files_wf_reset _)).
  - vm_compute. reflexivity.
  - apply injective_projections; [vm_compute; reflexivity|reflexivity].
  - lia.
  - repeat constructor; cbn; lia.
Defined.
