(* ===== verification/Lifetimes.v ===== *)
(** * Lifetimes of files and pipes

    The descriptor table owns the file and pipe slots: a file slot is live
    exactly while the file has a name or an open descriptor, a pipe slot exactly
    while one of its ends is open (syscall.c, [fd_clear], [file_unlink_path] and
    the OPEN, CLOSE, DUP2, PIPE and UNLINK branches). *)

From S2P Require Import Prelude SlotTable Net Ports Fds.

Lemma existsb_insert {A} (h : A → bool) l i x old :
  l !! i = Some old → h old = h x → existsb h (<[i:=x]> l) = existsb h l.
Proof.
  revert i. induction l as [|y l IH]; intros [|i] Hi Hh; try done; cbn in *.
  - injection Hi as ->. by rewrite Hh.
  - f_equal. by apply IH.
Qed.

Lemma existsb_insert_drop {A} (h : A → bool) l i x :
  h x = false → existsb h (<[i:=x]> l) = true → existsb h l = true.
Proof.
  revert i. induction l as [|y l IH]; intros [|i] Hh; try done; cbn.
  - rewrite Hh. cbn. intros ->. by rewrite orb_true_r.
  - intros [->|H]%orb_true_iff; [done|]. apply orb_true_iff. right. by apply (IH i).
Qed.

Lemma existsb_insert_true {A} (h : A → bool) l i x :
  (i < length l)%nat → h x = true → existsb h (<[i:=x]> l) = true.
Proof.
  intros Hi Hx. apply existsb_exists. exists x. split; [|done].
  apply list_elem_of_In, (list_elem_of_lookup_2 _ i). by apply list_lookup_insert_eq.
Qed.

Lemma length_insert_if {A} (c : bool) i (x : A) l : length (if c then <[i:=x]> l else l) = length l.
Proof. destruct c; by rewrite ?length_insert. Qed.

(** ** Slots owned by descriptors

    [used] is the slot's flag, [named] whether it lives without descriptors and
    [holds id f] whether descriptor [f] refers to slot [id]. *)
Section owned.
Context {A : Type} (used named : A → bool) (holds : Z → fd → bool).

Definition owned (fds : list fd) (tbl : list A) : Prop :=
  ∀ id a, tbl !! id = Some a → used a = named a || existsb (holds (Z.of_nat id)) fds.

(** No descriptor refers outside the table. *)
Definition in_table (fds : list fd) (tbl : list A) : Prop :=
  ∀ i f id, fds !! i = Some f → holds id f = true → 0 <= id < Z.of_nat (length tbl).

(** A free row takes a reference to slots that are live already. *)
Lemma owned_claim fds tbl i old x :
  owned fds tbl → fds !! i = Some old → (∀ id, holds id old = false) →
  (∀ id a, holds (Z.of_nat id) x = true → tbl !! id = Some a → used a = true) →
  owned (<[i:=x]> fds) tbl.
Proof.
  intros Ho Hi Hold Hx id a Ha. rewrite (Ho id a Ha). destruct (holds (Z.of_nat id) x) eqn:E.
  - rewrite (existsb_insert_true _ _ _ _ (lookup_lt_Some _ _ _ Hi) E), orb_true_r, <- (Ho id a Ha). by eapply Hx.
  - by rewrite (existsb_insert _ _ _ _ old) by (by rewrite ?Hold, ?E).
Qed.

(** A row is cleared: only a slot it referred to can change state. *)
Lemma owned_clear fds tbl i f z r (c : bool) a0 :
  owned fds tbl → fds !! i = Some f → (∀ id, holds id z = false) →
  (∀ id, holds id f = true → id = r) → 0 <= r → used a0 = false → named a0 = false →
  (c = true → existsb (holds r) (<[i:=z]> fds) = false) →
  (∀ a, tbl !! Z.to_nat r = Some a → c = false → named a = true ∨ used a = false ∨ existsb (holds r) (<[i:=z]> fds) = true) →
  owned (<[i:=z]> fds) (if c then <[Z.to_nat r:=a0]> tbl else tbl).
Proof.
  intros Ho Hi Hz Hf Hr Hu Hn Hc Hc' id a Ha. destruct (decide (Z.of_nat id = r)) as [Hid|Hid].
  - subst r. rewrite Nat2Z.id in *. destruct c.
    + apply list_lookup_insert_Some in Ha as [(_ & <- & _)|(? & _)]; [|done]. by rewrite Hn, Hc.
    + rewrite (Ho id a Ha). destruct (Hc' a Ha eq_refl) as [Hna|[Hua|He]].
      * by rewrite Hna.
      * rewrite (Ho id a Ha) in Hua. apply orb_false_iff in Hua as [-> Hex]. cbn [orb]. rewrite Hex. symmetry.
        apply not_true_iff_false. intros H. apply existsb_insert_drop in H; [congruence|done].
      * rewrite He. by rewrite (existsb_insert_drop _ _ _ _ (Hz _) He).
  - assert (tbl !! id = Some a) as Ha'.
    { destruct c; [|done]. rewrite list_lookup_insert_ne in Ha; [done|]. lia. }
    rewrite (Ho id a Ha'). rewrite (existsb_insert _ _ _ _ f); [done|done|].
    rewrite Hz. apply not_true_iff_false. intros H%Hf. lia.
Qed.

Lemma owned_slot fds tbl id a :
  owned fds tbl → used a = named a || existsb (holds (Z.of_nat id)) fds → owned fds (<[id:=a]> tbl).
Proof.
  intros Ho Ha j b Hj. apply list_lookup_insert_Some in Hj as [(-> & <- & _)|[_ Hj]]; [done|by apply Ho].
Qed.

(** While a slot is being set up it alone may break the rule. *)
Definition owned_but (k : nat) (fds : list fd) (tbl : list A) : Prop :=
  ∀ id a, id ≠ k → tbl !! id = Some a → used a = named a || existsb (holds (Z.of_nat id)) fds.

Lemma owned_but_start k fds tbl a : owned fds tbl → owned_but k fds (<[k:=a]> tbl).
Proof. intros Ho id b Hid Hb. rewrite list_lookup_insert_ne in Hb by done. by apply Ho. Qed.

Lemma owned_but_row k fds tbl i old x :
  owned_but k fds tbl → fds !! i = Some old →
  (∀ id, id ≠ k → holds (Z.of_nat id) old = holds (Z.of_nat id) x) → owned_but k (<[i:=x]> fds) tbl.
Proof. intros Ho Hi Hx id a Hid Ha. rewrite (existsb_insert _ _ _ _ old); [by apply Ho|done|by apply Hx]. Qed.

Lemma owned_but_slot k fds tbl id a :
  owned_but k fds tbl → used a = named a || existsb (holds (Z.of_nat id)) fds → owned_but k fds (<[id:=a]> tbl).
Proof.
  intros Ho Ha j b Hjk Hj. apply list_lookup_insert_Some in Hj as [(-> & <- & _)|[_ Hj]]; [done|by apply Ho].
Qed.

Lemma owned_but_finish k fds tbl a :
  owned_but k fds tbl → used a = named a || existsb (holds (Z.of_nat k)) fds → owned fds (<[k:=a]> tbl).
Proof.
  intros Ho Ha j b Hj. apply list_lookup_insert_Some in Hj as [(-> & <- & _)|[? Hj]]; [done|by apply Ho].
Qed.

Lemma in_table_row fds tbl i x :
  in_table fds tbl → (∀ id, holds id x = true → 0 <= id < Z.of_nat (length tbl)) → in_table (<[i:=x]> fds) tbl.
Proof.
  intros Ht Hx j f id Hj Hh. apply list_lookup_insert_Some in Hj as [(_ & <- & _)|[_ Hj]]; [by apply Hx|by eapply Ht].
Qed.
End owned.

(** ** The invariant *)

Definition has_name (g : file) : bool := negb (bool_decide (file_path g = EmptyString)).
Definition nameless (p : pipe) : bool := false.

Abbreviation files_owned := (owned file_used has_name holds_file).
Abbreviation pipes_owned := (owned pipe_used nameless holds_pipe).

(** Liveness, and (in [io_ok]) that no descriptor dangles. *)
Record io_live (s : io) : Prop := {
  ok_fds : length (io_fds s) = QOS_FD_MAX;
  ok_files : length (io_files s) = QOS_FILE_MAX;
  ok_pipes : length (io_pipes s) = QOS_PIPE_MAX;
  ok_file_live : files_owned (io_fds s) (io_files s);
  ok_pipe_live : pipes_owned (io_fds s) (io_pipes s);
  ok_ids : Forall (λ f, 0 <= f_pipe_id f ∧ 0 <= f_file_id f) (io_fds s)
}.

Record io_ok (s : io) : Prop := {
  ok_live : io_live s;
  ok_file_ref : in_table holds_file (io_fds s) (io_files s);
  ok_pipe_ref : in_table holds_pipe (io_fds s) (io_pipes s)
}.

Lemma holds_file_ref id f : holds_file id f = true → id = f_file_id f.
Proof. unfold holds_file. rewrite !andb_true_iff, Z.eqb_eq. naive_solver. Qed.

Lemma holds_pipe_ref id f : holds_pipe id f = true → id = f_pipe_id f.
Proof. unfold holds_pipe. rewrite !andb_true_iff, Z.eqb_eq. naive_solver. Qed.

Lemma unused_holds_file id f : f_used f = false → holds_file id f = false.
Proof. intros H. unfold holds_file. by rewrite H. Qed.

Lemma unused_holds_pipe id f : f_used f = false → holds_pipe id f = false.
Proof. intros H. unfold holds_pipe. by rewrite H. Qed.

#[export] Hint Resolve unused_holds_file unused_holds_pipe holds_file_ref holds_pipe_ref : qos.

Lemma fd_valid_lookup i s :
  length (io_fds s) = QOS_FD_MAX → fd_valid i s = true → 0 <= i → ∃ f, io_fds s !! Z.to_nat i = Some f ∧ f_used f = true.
Proof.
  intros Hl Hv Hi. unfold fd_valid, get_fd in Hv. change (Z.of_nat QOS_FD_MAX) with 256 in Hv. change QOS_FD_MAX with 256%nat in Hl.
  apply andb_true_iff in Hv as [Hlt Hu]. b2p. destruct (lookup_lt_is_Some_2 (io_fds s) (Z.to_nat i)) as [f Hf]; [lia|].
  rewrite Hf in Hu. by exists f.
Qed.

(** ** Closing *)

(** What [fd_clear] leaves in the three tables. *)
Lemma fd_clear_tables i s :
  fd_valid i s = true →
  let f := get_fd i s in
  let fds := <[Z.to_nat i := fd_zero]> (io_fds s) in
  let g := get_file (f_file_id f) s in
  io_fds (fd_clear i s) = fds
  ∧ io_pipes (fd_clear i s) =
      (if (f_pipe_id f <? 32) && negb (existsb (holds_pipe (f_pipe_id f)) fds)
       then <[Z.to_nat (f_pipe_id f) := pipe_zero]> (io_pipes s) else io_pipes s)
  ∧ io_files (fd_clear i s) =
      (if (f_file_id f <? 128) && file_used g && negb (has_name g) && negb (existsb (holds_file (f_file_id f)) fds)
       then <[Z.to_nat (f_file_id f) := file_zero]> (io_files s) else io_files s).
Proof.
  intros Hv f fds g. unfold fd_clear. rewrite Hv. cbn [negb]. fold f.
  unfold pipe_in_use, file_has_refs, has_name, file_drop. rewrite negb_involutive.
  change (Z.of_nat QOS_PIPE_MAX) with 32. change (Z.of_nat QOS_FILE_MAX) with 128.
  change (io_fds (set_fd i fd_zero s)) with fds.
  set (cp := (f_pipe_id f <? 32) && _).
  set (s2 := if cp then _ else _).
  assert (io_fds s2 = fds ∧ io_files s2 = io_files s ∧ io_pipes s2 = if cp then <[Z.to_nat (f_pipe_id f) := pipe_zero]> (io_pipes s) else io_pipes s)
    as (H1 & H2 & H3) by (unfold s2; by destruct cp).
  assert (get_file (f_file_id f) s2 = g) as -> by (unfold g, get_file; by rewrite H2). rewrite H1.
  set (cf := _ && negb (existsb (holds_file _) fds)).
  set (s3 := if cf then _ else s2).
  assert (io_fds s3 = fds ∧ io_pipes s3 = io_pipes s2 ∧ io_files s3 = if cf then <[Z.to_nat (f_file_id f) := file_zero]> (io_files s) else io_files s)
    as (H4 & H5 & H6).
  { unfold s3. destruct cf eqn:E; [|by rewrite H1, H2]. unfold cf in E. rewrite !andb_true_iff in E. destruct E as [[[E _] _] _].
    apply Z.ltb_lt in E. rewrite (proj2 (Z.leb_gt _ _)) by done. cbn. by rewrite H1, H2. }
  rewrite <- H3, <- H5, <- H6, <- H4. by repeat case_match.
Qed.

Lemma fd_clear_live i s : 0 <= i → io_live s → io_live (fd_clear i s).
Proof.
  intros Hi Hs. destruct (fd_valid i s) eqn:Hv; [|unfold fd_clear; by rewrite Hv].
  pose proof Hs as [Hn Hnf Hnp Hf Hp Hids]. destruct (fd_clear_tables i s Hv) as (E1 & E2 & E3).
  destruct (fd_valid_lookup i s Hn Hv Hi) as (f & Hl & Hu). rewrite (get_fd_lookup i f s Hl) in *.
  rewrite Forall_lookup in Hids. destruct (Hids _ _ Hl) as [Hpid Hfid].
  split; rewrite ?E1, ?E2, ?E3.
  - by rewrite length_insert.
  - by rewrite length_insert_if.
  - by rewrite length_insert_if.
  - apply owned_clear with f; [done|done|auto with qos|auto with qos|done|done|done| |].
    + rewrite !andb_true_iff, !negb_true_iff. tauto.
    + intros a Ha. rewrite (get_file_lookup _ a s Ha). apply lookup_lt_Some in Ha. change QOS_FILE_MAX with 128%nat in Hnf.
      rewrite (proj2 (Z.ltb_lt _ _)) by lia. cbn [andb].
      rewrite !andb_false_iff, !negb_false_iff. tauto.
  - apply owned_clear with f; [done|done|auto with qos|auto with qos|done|done|done| |].
    + rewrite !andb_true_iff, !negb_true_iff. tauto.
    + intros a Ha. apply lookup_lt_Some in Ha. change QOS_PIPE_MAX with 32%nat in Hnp.
      rewrite (proj2 (Z.ltb_lt _ _)) by lia. cbn [andb]. rewrite negb_false_iff. tauto.
  - apply Forall_insert; [by apply Forall_lookup|done].
Qed.

Lemma fd_clear_ok i s : 0 <= i → io_live s →
  in_table holds_file (<[Z.to_nat i := fd_zero]> (io_fds s)) (io_files s) →
  in_table holds_pipe (<[Z.to_nat i := fd_zero]> (io_fds s)) (io_pipes s) →
  fd_valid i s = true → io_ok (fd_clear i s).
Proof.
  intros Hi Hs Hf Hp Hv. destruct (fd_clear_tables i s Hv) as (E1 & E2 & E3).
  split; [by apply fd_clear_live|rewrite E1, E3|rewrite E1, E2].
  - intros j f id Hj Hh. rewrite length_insert_if. by eapply Hf.
  - intros j f id Hj Hh. rewrite length_insert_if. by eapply Hp.
Qed.

Lemma in_table_unused {A} holds fds (tbl : list A) i x :
  in_table holds fds tbl → (∀ id, holds id x = false) → in_table holds (<[i:=x]> fds) tbl.
Proof. intros Ht Hx. apply in_table_row; [done|]. intros id. by rewrite Hx. Qed.

Lemma sys_close_ok i s : 0 <= i → io_ok s → io_ok (sys_close i s).2.
Proof.
  intros Hi [Hl Hf Hp]. unfold sys_close. destruct (fd_valid i s) eqn:Hv; [|done]. cbn [negb snd].
  apply fd_clear_ok; try done; apply in_table_unused; auto with qos.
Qed.

(** A free row [i] becomes [x], whose slots are live. *)
Lemma claim_row_live i old x s :
  io_live s → io_fds s !! i = Some old → f_used old = false → 0 <= f_pipe_id x ∧ 0 <= f_file_id x →
  (∀ id g, holds_file (Z.of_nat id) x = true → io_files s !! id = Some g → file_used g = true) →
  (∀ id p, holds_pipe (Z.of_nat id) x = true → io_pipes s !! id = Some p → pipe_used p = true) →
  io_live (with_fds (<[i:=x]> (io_fds s)) s).
Proof.
  intros [] Hi Hu Hx Hxf Hxp. split; cbn [with_fds io_fds io_files io_pipes]; try done.
  - by rewrite length_insert.
  - apply (owned_claim _ _ _ _ _ _ old); auto with qos.
  - apply (owned_claim _ _ _ _ _ _ old); auto with qos.
  - by apply Forall_insert.
Qed.

Lemma claim_row_ok i old x s :
  io_ok s → io_fds s !! i = Some old → f_used old = false → 0 <= f_pipe_id x ∧ 0 <= f_file_id x →
  (∀ id, holds_file id x = true → 0 <= id < 128 ∧ file_used (get_file id s) = true) →
  (∀ id, holds_pipe id x = true → 0 <= id < 32 ∧ pipe_used (get_pipe id s) = true) →
  io_ok (with_fds (<[i:=x]> (io_fds s)) s).
Proof.
  intros [Hs Hf Hp] Hi Hu Hx Hxf Hxp. pose proof Hs as [_ Hnf Hnp _ _ _].
  change QOS_PIPE_MAX with 32%nat in Hnp. change QOS_FILE_MAX with 128%nat in Hnf. split.
  - apply (claim_row_live i old); try done.
    + intros id g Hh Hg. destruct (Hxf _ Hh) as [_ E]. unfold get_file in E. by rewrite Nat2Z.id, Hg in E.
    + intros id p Hh Hg. destruct (Hxp _ Hh) as [_ E]. unfold get_pipe in E. by rewrite Nat2Z.id, Hg in E.
  - apply in_table_row; [done|]. intros id Hh. cbn. rewrite Hnf. by apply Hxf.
  - apply in_table_row; [done|]. intros id Hh. cbn. rewrite Hnp. by apply Hxp.
Qed.

(** A live descriptor's slots are live. *)
Lemma row_slots_live s i f :
  io_ok s → io_fds s !! i = Some f →
  (∀ id, holds_file id f = true → 0 <= id < 128 ∧ file_used (get_file id s) = true)
  ∧ (∀ id, holds_pipe id f = true → 0 <= id < 32 ∧ pipe_used (get_pipe id s) = true).
Proof.
  intros [[_ Hnf Hnp Hlf Hlp _] Hf Hp] Hi.
  change QOS_PIPE_MAX with 32%nat in Hnp. change QOS_FILE_MAX with 128%nat in Hnf.
  assert (He : ∀ h : fd → bool, h f = true → existsb h (io_fds s) = true).
  { intros h Hh. apply existsb_exists. exists f. split; [|done]. by apply list_elem_of_In, (list_elem_of_lookup_2 _ i). }
  split; intros id Hh.
  - pose proof (Hf _ _ _ Hi Hh) as Hr. rewrite Hnf in Hr. split; [done|].
    destruct (lookup_lt_is_Some_2 (io_files s) (Z.to_nat id)) as [g Hg]; [lia|].
    rewrite (get_file_lookup id g s Hg), (Hlf _ _ Hg), Z2Nat.id, He by (lia || done). apply orb_true_r.
  - pose proof (Hp _ _ _ Hi Hh) as Hr. rewrite Hnp in Hr. split; [done|].
    destruct (lookup_lt_is_Some_2 (io_pipes s) (Z.to_nat id)) as [g Hg]; [lia|].
    rewrite (get_pipe_lookup id g s Hg), (Hlp _ _ Hg), Z2Nat.id, He by (lia || done). apply orb_true_r.
Qed.

Lemma row_ids s i f : io_live s → io_fds s !! i = Some f → 0 <= f_pipe_id f ∧ 0 <= f_file_id f.
Proof. intros [] Hi. by eapply (Forall_lookup_1 (λ f, 0 <= f_pipe_id f ∧ 0 <= f_file_id f)). Qed.

Lemma sys_dup2_ok oldfd newfd s : 0 <= oldfd → 0 <= newfd → io_ok s → io_ok (sys_dup2 oldfd newfd s).2.
Proof.
  intros Ho Hn Hs. unfold sys_dup2. destruct (fd_valid oldfd s) eqn:Hv; [|done]. cbn [negb orb].
  change (Z.of_nat QOS_FD_MAX) with 256. destruct (Z.leb_spec 256 newfd) as [|Hnew]; [done|].
  destruct (Z.eqb_spec oldfd newfd) as [|Hne]; [done|]. cbn [snd].
  pose proof (ok_fds s (ok_live s Hs)) as Hlen. change QOS_FD_MAX with 256%nat in Hlen.
  destruct (fd_valid_lookup oldfd s Hlen Hv Ho) as (f & Hf & Hu).
  destruct (lookup_lt_is_Some_2 (io_fds s) (Z.to_nat newfd)) as [f' Hf']; [lia|].
  set (s1 := if fd_valid newfd s then fd_clear newfd s else s).
  assert (io_ok s1 ∧ (∃ g, io_fds s1 !! Z.to_nat newfd = Some g ∧ f_used g = false) ∧ io_fds s1 !! Z.to_nat oldfd = Some f)
    as (Hs1 & (g & Hg & Hgu) & Hold).
  { unfold s1. destruct (fd_valid newfd s) eqn:Hvn.
    - split; [|destruct (fd_clear_tables newfd s Hvn) as (-> & _); split].
      + pose proof (sys_close_ok newfd s Hn Hs) as H. unfold sys_close in H. by rewrite Hvn in H.
      + exists fd_zero. split; [|done]. apply list_lookup_insert_eq. lia.
      + by rewrite list_lookup_insert_ne by lia.
    - split; [done|]. split; [|done]. exists f'. split; [done|].
      unfold fd_valid in Hvn. rewrite (get_fd_lookup newfd f' s Hf') in Hvn. change (Z.of_nat QOS_FD_MAX) with 256 in Hvn.
      by rewrite (proj2 (Z.ltb_lt _ _)) in Hvn by lia. }
  rewrite (get_fd_lookup oldfd f s1 Hold). destruct (row_slots_live s1 _ f Hs1 Hold) as [Hxf Hxp].
  apply (claim_row_ok _ g); try done. by apply (row_ids s1 (Z.to_nat oldfd) f); [apply ok_live|].
Qed.

(** ** Opening *)

Lemma new_file_ok j g s : io_ok s → file_used g = true → has_name g = true → io_ok (set_file j g s).
Proof.
  intros [[] Hf Hp] Hu Hn. split; [split|..]; cbn [set_file with_files io_fds io_files io_pipes]; try done.
  - by rewrite length_insert.
  - apply owned_slot; [done|]. by rewrite Hu, Hn.
  - intros i f id Hi Hh. rewrite length_insert. by eapply Hf.
Qed.

(** [file_ensure] finds or makes a live slot with the table still in order. *)
Lemma file_ensure_ok path s :
  io_ok s → path ≠ EmptyString →
  let '(id, s') := file_ensure path s in
  (id < 0 ∧ s' = s)
  ∨ (io_ok s' ∧ 0 <= id < 128 ∧ file_used (get_file id s') = true ∧ ∃ files, s' = with_files files s).
Proof.
  intros Hs Hp. pose proof (ok_files s (ok_live s Hs)) as Hn. change QOS_FILE_MAX with 128%nat in Hn.
  unfold file_ensure, file_find, index_or_neg. destruct (find_key path (io_files s)) as [j|] eqn:Ef.
  - rewrite (proj2 (Z.leb_le 0 _)) by lia. right. pose proof (find_key_lt _ _ _ Ef).
    destruct (find_key_Some _ _ _ Ef) as (g & Hg & Hu & _).
    rewrite (get_file_lookup _ g) by (by rewrite Nat2Z.id). split_and!; [done|lia|lia|done|]. exists (io_files s). by destruct s.
  - change (0 <=? -1) with false. unfold file_alloc. destruct (free_slot (io_files s)) as [j|] eqn:Es; [|by left].
    right. pose proof (free_slot_lt _ _ Es). split; [|split; [lia|split]].
    + apply new_file_ok; [done|done|]. unfold has_name. cbn. destruct path; [done|]. by rewrite bool_decide_eq_false_2.
    + unfold get_file, set_file. cbn [with_files io_files]. by rewrite list_lookup_insert_eq by lia.
    + by eexists.
Qed.

(** The row being opened holds no slot of the tables yet. *)
Lemma fresh_vfs_holds id : holds_pipe id (fresh_fd KVfs) = false ∧ (holds_file id (fresh_fd KVfs) = true → id = 65535).
Proof. split; [done|]. intros H%holds_file_ref. done. Qed.

Lemma open_file_ok path s : io_ok s → path ≠ EmptyString → io_ok (open_file path s).2.
Proof.
  intros Hs Hp. unfold open_file. pose proof (fd_alloc_spec KVfs s) as Ha. pose proof (ok_fds s (ok_live s Hs)) as Hn.
  pose proof (ok_files s (ok_live s Hs)) as Hnf. change QOS_FD_MAX with 256%nat in Hn. change QOS_FILE_MAX with 128%nat in Hnf.
  destruct (fd_alloc KVfs s) as [r s1]. destruct Ha as [(-> & -> & _)|(i & f & -> & _ & Hf & Hu & ->)]; [done|].
  rewrite (proj2 (Z.ltb_ge _ _)) by lia. pose proof (lookup_lt_Some _ _ _ Hf) as Hi.
  pose proof (file_ensure_ok path s Hs Hp) as He.
  assert (Hens : file_ensure path (set_fd (Z.of_nat i) (fresh_fd KVfs) s) =
    ((file_ensure path s).1, set_fd (Z.of_nat i) (fresh_fd KVfs) (file_ensure path s).2)).
  { unfold file_ensure, file_find, file_alloc. cbn [set_fd with_fds io_files]. by repeat case_match. }
  rewrite Hens. destruct (file_ensure path s) as [id s2]. cbn [fst snd].
  destruct He as [[Hneg ->]|(Hs2 & Hid & Hused & files & ->)].
  - rewrite (proj2 (Z.ltb_lt _ _)) by lia. cbn [snd]. pose proof Hs as [Hl Hrf Hrp]. apply fd_clear_ok; [lia|..].
    + unfold set_fd. rewrite Nat2Z.id. apply (claim_row_live i f); try done. intros j g Hh Hg.
      apply fresh_vfs_holds in Hh. apply lookup_lt_Some in Hg. lia.
    + cbn [set_fd with_fds io_fds io_files]. rewrite list_insert_insert_eq. apply in_table_unused; auto with qos.
    + cbn [set_fd with_fds io_fds io_pipes]. rewrite list_insert_insert_eq. apply in_table_unused; auto with qos.
    + unfold fd_valid. rewrite get_fd_set by lia. change (Z.of_nat QOS_FD_MAX) with 256. by rewrite (proj2 (Z.ltb_lt _ _)) by lia.
  - rewrite (proj2 (Z.ltb_ge _ _)) by lia. cbn [snd]. rewrite get_fd_set by (cbn; lia).
    unfold set_fd. cbn [with_fds io_fds with_files]. rewrite list_insert_insert_eq, Nat2Z.id, (wrap_small 16) by (unfold in_width; lia).
    apply (claim_row_ok i f _ (with_files files s)); try done.
    + cbn. lia.
    + intros k Hk%holds_file_ref. cbn in Hk. subst k. by split.
Qed.

(** ** Unlinking *)

Lemma file_unlink_path_ok path s : io_ok s → io_ok (file_unlink_path path s).
Proof.
  intros Hs. pose proof (ok_files s (ok_live s Hs)) as Hn. change QOS_FILE_MAX with 128%nat in Hn.
  unfold file_unlink_path, file_find, index_or_neg. destruct (find_key path (io_files s)) as [j|] eqn:Ef; [|done].
  rewrite (proj2 (Z.ltb_ge _ _)) by lia. destruct (find_key_Some _ _ _ Ef) as (g & Hg & Hu & _).
  pose proof (lookup_lt_Some _ _ _ Hg) as Hj. rewrite (wrap_small 16) by (unfold in_width; lia).
  rewrite (get_file_lookup _ g) by (by rewrite Nat2Z.id). unfold file_drop. change (Z.of_nat QOS_FILE_MAX) with 128.
  rewrite (proj2 (Z.leb_gt _ _)) by lia. unfold file_has_refs, set_file. cbn [with_files io_files io_fds].
  assert (Hok : ∀ g', file_used g' = has_name g' || existsb (holds_file (Z.of_nat j)) (io_fds s) →
                io_ok (with_files (<[j:=g']> (io_files s)) s)).
  { intros g' Hg'. destruct Hs as [[] Hf Hp]. split; [split|..]; cbn [with_files io_fds io_files io_pipes]; try done.
    - by rewrite length_insert.
    - by apply owned_slot.
    - intros i f id Hi Hh. rewrite length_insert. by eapply Hf. }
  rewrite Nat2Z.id. destruct (existsb (holds_file (Z.of_nat j)) (io_fds s)) eqn:E; cbn [negb].
  - apply Hok. transitivity true; [exact Hu|by rewrite orb_true_r].
  - unfold with_files. cbn. rewrite list_insert_insert_eq. by apply (Hok file_zero).
Qed.

(** ** Pipes *)

Definition new_pipe : pipe := {| pipe_used := true; pipe_len := 0; pipe_buf := replicate (Z.to_nat QOS_PIPE_CAP) 0 |}.

(** A slot that no descriptor refers to may be overwritten while it stays free. *)
Lemma free_pipe_ok k q s :
  io_ok s → existsb (holds_pipe (Z.of_nat k)) (io_fds s) = false → pipe_used q = false →
  io_ok (with_pipes (<[k:=q]> (io_pipes s)) s).
Proof.
  intros [[] Hf Hp] He Hq. split; [split|..]; cbn [with_pipes io_fds io_files io_pipes]; try done.
  - by rewrite length_insert.
  - apply owned_slot; [done|]. by rewrite Hq, He.
  - intros i f id Hi Hh. rewrite length_insert. by eapply Hp.
Qed.

Lemma insert_shadow {A} (l : list A) k j x y z : <[k:=x]> (<[j:=y]> (<[k:=z]> l)) = <[k:=x]> (<[j:=y]> l).
Proof.
  destruct (decide (j = k)) as [->|Hjk]; [by rewrite !list_insert_insert_eq|].
  by rewrite (list_insert_insert_ne l j k), list_insert_insert_eq by done.
Qed.

Lemma io_ok_tables s s' :
  io_fds s' = io_fds s → io_files s' = io_files s → io_pipes s' = io_pipes s → io_ok s → io_ok s'.
Proof. intros E1 E2 E3 [[] Hf Hp]. split; [split|..]; rewrite ?E1, ?E2, ?E3; done. Qed.

(** PIPE when only one descriptor is free. *)
Lemma pipe_abort_ok k r f p q s :
  io_ok s → io_pipes s !! k = Some p → pipe_used p = false → io_fds s !! r = Some f → f_used f = false → pipe_used q = false →
  io_ok (set_pipe (Z.of_nat k) q
    (fd_clear (Z.of_nat r) (set_fd (Z.of_nat r) (fresh_fd KPipeR) (set_pipe (Z.of_nat k) new_pipe s)))).
Proof.
  intros Hs Hk Hu Hr Hf Hq. pose proof (lookup_lt_Some _ _ _ Hr) as Hlr. pose proof (ok_fds s (ok_live s Hs)) as Hn.
  change QOS_FD_MAX with 256%nat in Hn. set (s2 := set_fd _ _ _).
  assert (Hg : get_fd (Z.of_nat r) s2 = fresh_fd KPipeR) by (apply get_fd_set; cbn; lia).
  assert (Hv : fd_valid (Z.of_nat r) s2 = true).
  { unfold fd_valid. rewrite Hg. change (Z.of_nat QOS_FD_MAX) with 256. by rewrite (proj2 (Z.ltb_lt _ _)) by lia. }
  destruct (fd_clear_tables _ s2 Hv) as (E1 & E2 & E3). rewrite Hg in E2, E3.
  cbn [s2 set_fd with_fds set_pipe with_pipes io_fds io_pipes] in E1, E2. rewrite list_insert_insert_eq, !Nat2Z.id in *.
  set (s0 := with_fds (<[r:=fd_zero]> (io_fds s)) s).
  assert (Hs0 : io_ok s0) by (apply (claim_row_ok r f); done).
  assert (Hfree : existsb (holds_pipe (Z.of_nat k)) (io_fds s0) = false).
  { pose proof (ok_pipe_live s0 (ok_live s0 Hs0) _ _ Hk) as H. by rewrite Hu in H. }
  set (c := (f_pipe_id (fresh_fd KPipeR) <? 32) && _) in E2.
  set (s3 := if c then with_pipes (<[0%nat:=pipe_zero]> (io_pipes s0)) s0 else s0).
  assert (Hs3 : io_ok s3).
  { unfold s3. destruct c eqn:Ec; [|done]. apply free_pipe_ok; [done| |done].
    unfold c in Ec. by apply andb_true_iff in Ec as [_ Ec%negb_true_iff]. }
  apply (io_ok_tables (with_pipes (<[k:=q]> (io_pipes s3)) s3)).
  - cbn. rewrite E1. unfold s3. by destruct c.
  - cbn. rewrite E3. unfold s3. by destruct c.
  - cbn [set_pipe with_pipes io_pipes]. rewrite E2, Nat2Z.id. unfold s3. destruct c; cbn; [apply insert_shadow|apply list_insert_insert_eq].
  - apply free_pipe_ok; [done| |done]. unfold s3. by destruct c.
Qed.

Lemma holds_pipe_row k pid id : holds_pipe id (with_pipe_id pid (fresh_fd k)) = true → id = pid.
Proof. apply holds_pipe_ref. Qed.

Lemma holds_file_row k pid id : k ≠ KVfs → holds_file id (with_pipe_id pid (fresh_fd k)) = false.
Proof. intros Hk. unfold holds_file. cbn. by rewrite bool_decide_eq_false_2. Qed.

(** PIPE when it succeeds. *)
Lemma pipe_made_ok k r w fr fw p s :
  io_ok s → io_pipes s !! k = Some p → io_fds s !! r = Some fr → f_used fr = false → io_fds s !! w = Some fw → f_used fw = false → r ≠ w →
  let xr := with_pipe_id (Z.of_nat k) (fresh_fd KPipeR) in
  let xw := with_pipe_id (Z.of_nat k) (fresh_fd KPipeW) in
  io_ok (with_fds (<[w:=xw]> (<[r:=xr]> (io_fds s))) (with_pipes (<[k:=new_pipe]> (io_pipes s)) s)).
Proof.
  intros [[] Hf Hp] Hk Hr Hur Hw Huw Hrw xr xw. pose proof (lookup_lt_Some _ _ _ Hk) as Hlk.
  assert (Hw' : <[r:=xr]> (io_fds s) !! w = Some fw) by (by rewrite list_lookup_insert_ne).
  assert (Hxf : ∀ id, holds_file id xr = false ∧ holds_file id xw = false) by (intros id; split; by apply holds_file_row).
  split; [split|..]; cbn [with_fds with_pipes io_fds io_files io_pipes]; rewrite ?length_insert; try done.
  - apply owned_claim with fw; [|done|auto with qos|intros id a; by rewrite (proj2 (Hxf _))].
    apply owned_claim with fr; [done|done|auto with qos|intros id a; by rewrite (proj1 (Hxf _))].
  - apply owned_but_finish.
    + apply owned_but_row with fw; [apply owned_but_row with fr; [intros n a _; apply ok_pipe_live0|done|]|done|]; intros id Hid;
        rewrite unused_holds_pipe by done; symmetry; apply not_true_iff_false; intros H%holds_pipe_row; lia.
    + cbn [new_pipe pipe_used]. rewrite existsb_insert_true; [done| |].
      * rewrite length_insert. by eapply lookup_lt_Some.
      * unfold holds_pipe, xw. cbn. by rewrite Z.eqb_refl.
  - apply Forall_insert; [apply Forall_insert|]; [done|cbn; unfold UINT16_MAX; lia..].
  - apply in_table_unused; [apply in_table_unused|]; [done|apply Hxf..].
  - intros i f id Hi Hh. rewrite length_insert. revert i f id Hi Hh. apply in_table_row; [apply in_table_row; [done|]|]; intros id Hh%holds_pipe_row; lia.
Qed.

Lemma sys_pipe_ok s : io_ok s → io_ok (sys_pipe s).2.
Proof.
  intros Hs. unfold sys_pipe, pipe_alloc. destruct (free_slot (io_pipes s)) as [k|] eqn:Ek; [|done].
  rewrite (proj2 (Z.ltb_ge _ 0)) by lia. destruct (free_slot_Some _ _ Ek) as (p & Hp & Hu). change (pipe_used p = false) in Hu.
  pose proof (lookup_lt_Some _ _ _ Hp) as Hk.
  pose proof (ok_pipes s (ok_live s Hs)) as Hnp. change QOS_PIPE_MAX with 32%nat in Hnp. fold new_pipe. set (sp := set_pipe _ new_pipe s).
  pose proof (fd_alloc_spec KPipeR sp) as Hr. destruct (fd_alloc KPipeR sp) as [rf sr].
  destruct Hr as [(-> & -> & _)|(r & fr & -> & _ & Hfr & Hur & ->)].
  { cbn [Z.ltb Z.compare snd]. unfold sp, set_pipe, with_pipes. cbn. rewrite list_insert_insert_eq, Nat2Z.id.
    apply (free_pipe_ok k); [done| |done]. pose proof (ok_pipe_live s (ok_live s Hs) _ _ Hp) as H. by rewrite Hu in H. }
  rewrite (proj2 (Z.ltb_ge _ 0)) by lia. set (sr := set_fd (Z.of_nat r) _ sp).
  pose proof (fd_alloc_spec KPipeW sr) as Hw. destruct (fd_alloc KPipeW sr) as [wf sw].
  destruct Hw as [(-> & -> & _)|(w & fw & -> & _ & Hfw & Huw & ->)]; [by apply (pipe_abort_ok k r fr p)|].
  rewrite (proj2 (Z.ltb_ge _ 0)) by lia. change (io_fds sp) with (io_fds s) in Hfr. pose proof (lookup_lt_Some _ _ _ Hfr) as Hlr.
  assert (r ≠ w) as Hrw.
  { intros ->. cbn [sr set_fd with_fds io_fds] in Hfw. rewrite Nat2Z.id, list_lookup_insert_eq in Hfw by done. by simplify_eq. }
  cbn [sr set_fd with_fds io_fds] in Hfw. rewrite list_lookup_insert_ne in Hfw by lia. change (io_fds sp) with (io_fds s) in Hfw.
  pose proof (lookup_lt_Some _ _ _ Hfw) as Hlw. rewrite wrap_small by (unfold in_width; lia). cbn [snd].
  apply (io_ok_tables _ _) with (4 := pipe_made_ok k r w fr fw p s Hs Hp Hfr Hur Hfw Huw Hrw); [|done|].
  - rewrite (get_fd_set_ne _ (Z.of_nat w)) by lia. rewrite (get_fd_set_ne _ (Z.of_nat r)) by lia.
    rewrite !get_fd_set by (cbn; rewrite ?length_insert; lia). cbn. rewrite !Nat2Z.id.
    rewrite insert_shadow, list_insert_insert_eq. unfold sr. by rewrite get_fd_set by (cbn; lia).
  - cbn. by rewrite Nat2Z.id.
Qed.

(** ** Reading, writing and seeking *)

(** Changing a row's other fields moves no reference. *)
Lemma touch_row_ok i x s :
  io_ok s → f_used x = f_used (get_fd i s) → f_kind x = f_kind (get_fd i s) → f_pipe_id x = f_pipe_id (get_fd i s) →
  f_file_id x = f_file_id (get_fd i s) → io_ok (set_fd i x s).
Proof.
  intros Hs Eu Ek Ep Ef. destruct (io_fds s !! Z.to_nat i) as [f|] eqn:Hf.
  2:{ apply (io_ok_tables s); [|done..]. cbn. by rewrite list_insert_ge by (by apply lookup_ge_None_1). }
  rewrite (get_fd_lookup i f s Hf) in *.
  assert (Hh : ∀ id, holds_file id x = holds_file id f ∧ holds_pipe id x = holds_pipe id f).
  { intros id. unfold holds_file, holds_pipe. by rewrite Eu, Ek, Ep, Ef. }
  destruct (row_ids s _ f (ok_live s Hs) Hf) as [? ?].
  pose proof Hs as [[? ? ? Hlf Hlp ?] Htf Htp]. split; [split|..]; cbn [set_fd with_fds io_fds io_files io_pipes]; try done.
  - by rewrite length_insert.
  - intros id g Hg. rewrite (existsb_insert _ _ _ _ f Hf) by (symmetry; apply Hh). by apply Hlf.
  - intros id p Hp. rewrite (existsb_insert _ _ _ _ f Hf) by (symmetry; apply Hh). by apply Hlp.
  - apply Forall_insert; [done|]. by rewrite Ep, Ef.
  - apply in_table_row; [done|]. intros id. rewrite (proj1 (Hh id)). by eapply Htf.
  - apply in_table_row; [done|]. intros id. rewrite (proj2 (Hh id)). by eapply Htp.
Qed.

Lemma touch_file_ok id g s :
  io_ok s → file_used g = file_used (get_file id s) → file_path g = file_path (get_file id s) → io_ok (set_file id g s).
Proof.
  intros Hs Eu Ep. destruct (io_files s !! Z.to_nat id) as [g0|] eqn:Hg.
  2:{ apply (io_ok_tables s); [done| |done|done]. cbn. by rewrite list_insert_ge by (by apply lookup_ge_None_1). }
  rewrite (get_file_lookup id g0 s Hg) in *. destruct Hs as [[? ? ? Hlf ? ?] Htf ?].
  split; [split|..]; cbn [set_file with_files io_fds io_files io_pipes]; try done.
  - by rewrite length_insert.
  - apply owned_slot; [done|]. unfold has_name. rewrite Eu, Ep. by apply Hlf.
  - intros i f j Hi Hh. rewrite length_insert. by eapply Htf.
Qed.

Lemma touch_pipe_ok id p s : io_ok s → pipe_used p = pipe_used (get_pipe id s) → io_ok (set_pipe id p s).
Proof.
  intros Hs Eu. destruct (io_pipes s !! Z.to_nat id) as [p0|] eqn:Hp.
  2:{ apply (io_ok_tables s); [done|done| |done]. cbn. by rewrite list_insert_ge by (by apply lookup_ge_None_1). }
  rewrite (get_pipe_lookup id p0 s Hp) in *. destruct Hs as [[? ? ? ? Hlp ?] ? Htp].
  split; [split|..]; cbn [set_pipe with_pipes io_fds io_files io_pipes]; try done.
  - by rewrite length_insert.
  - apply owned_slot; [done|]. rewrite Eu. by apply (Hlp _ p0).
  - intros i f j Hi Hh. rewrite length_insert. by eapply Htp.
Qed.

(** ** Sequences of calls *)

Inductive io_op :=
  | IOpen (path : string) | IClose (i : Z) | IDup2 (oldfd newfd : Z) | IPipe | IUnlink (path : string)
  | IRead (i len : Z) | IWrite (i : Z) (bytes : list Z) | ISeek (i off whence : Z).

Definition io_exec (o : io_op) (s : io) : io :=
  match o with
  | IOpen path => (open_file path s).2
  | IClose i => (sys_close i s).2
  | IDup2 oldfd newfd => (sys_dup2 oldfd newfd s).2
  | IPipe => (sys_pipe s).2
  | IUnlink path => file_unlink_path path s
  | IRead i len =>
      if negb (fd_valid i s) then s
      else match f_kind (get_fd i s) with
           | KVfs => (read_vfs i len s).2 | KPipeR => (read_pipe i len s).2 | _ => s
           end
  | IWrite i bytes =>
      let len := Z.of_nat (length bytes) in
      if negb (fd_valid i s) then s
      else match f_kind (get_fd i s) with
           | KVfs => (write_vfs i bytes len s).2 | KPipeW => (write_pipe i bytes len s).2 | _ => s
           end
  | ISeek i off whence => (sys_lseek i off whence 0 s).2
  end.

Definition io_op_ok (o : io_op) : Prop :=
  match o with
  | IOpen path => path ≠ EmptyString
  | IClose i | IRead i _ | IWrite i _ | ISeek i _ _ => 0 <= i
  | IDup2 oldfd newfd => 0 <= oldfd ∧ 0 <= newfd
  | IPipe | IUnlink _ => True
  end.

Fixpoint io_run (ops : list io_op) (s : io) : io :=
  match ops with [] => s | o :: ops => io_run ops (io_exec o s) end.

Lemma io_read_ok i len s : io_ok s → io_ok (io_exec (IRead i len) s).
Proof.
  intros Hs. cbn [io_exec]. destruct (negb _); [done|]. destruct (f_kind _); try done.
  - unfold read_vfs. cbv zeta. destruct (_ || _); [done|]. destruct (_ <=? _); [done|]. destruct (_ =? 0); [done|].
    by apply touch_row_ok.
  - unfold read_pipe. cbv zeta. destruct (_ || _); [done|]. destruct (_ =? 0); [done|]. by apply touch_pipe_ok.
Qed.

Lemma io_write_ok i bytes s : io_ok s → io_ok (io_exec (IWrite i bytes) s).
Proof.
  intros Hs. cbn [io_exec]. destruct (negb _); [done|]. destruct (f_kind _); try done.
  - unfold write_vfs. cbv zeta. destruct (_ || _); [done|]. destruct (_ <=? _); [done|]. destruct (_ =? 0); [done|].
    apply touch_file_ok; [by apply touch_row_ok|done|done].
  - unfold write_pipe. cbv zeta. destruct (_ || _); [done|]. by apply touch_pipe_ok.
Qed.

Lemma sys_lseek_ok i off whence total s : io_ok s → io_ok (sys_lseek i off whence total s).2.
Proof.
  intros Hs. unfold sys_lseek. destruct (_ || _); [done|]. destruct (lseek_base _ _ _ _); [|done].
  destruct (_ || _); [done|]. cbv zeta. destruct (_ <? 0); [done|]. by apply touch_row_ok.
Qed.

Lemma io_step_ok o s : io_ok s → io_op_ok o → io_ok (io_exec o s).
Proof.
  intros Hs Ho. destruct o; cbn [io_op_ok] in Ho.
  - by apply open_file_ok.
  - by apply sys_close_ok.
  - apply sys_dup2_ok; tauto.
  - by apply sys_pipe_ok.
  - by apply file_unlink_path_ok.
  - by apply io_read_ok.
  - by apply io_write_ok.
  - by apply sys_lseek_ok.
Qed.

Lemma io_run_ok ops s : io_ok s → Forall io_op_ok ops → io_ok (io_run ops s).
Proof.
  revert s. induction ops as [|o ops IH]; intros s Hs Hops; [done|]. apply Forall_cons in Hops as [Ho Hops].
  apply IH; [by apply io_step_ok|done].
Qed.

Lemma io_reset_ok n : io_ok (io_reset n).
Proof.
  assert (Hnone : ∀ h : fd → bool, h fd_zero = false → existsb h (replicate QOS_FD_MAX fd_zero) = false).
  { intros h Hh. unfold QOS_FD_MAX. generalize 256%nat. intros m. induction m as [|m IH]; [done|]. cbn. by rewrite Hh. }
  assert (Hrow : ∀ i f, replicate QOS_FD_MAX fd_zero !! i = Some f → f = fd_zero) by (intros i f H; by apply lookup_replicate_1 in H as [-> _]).
  split; [split|..]; cbn [io_reset io_fds io_files io_pipes]; try apply length_replicate.
  - intros id g Hg. apply lookup_replicate_1 in Hg as [-> _]. by rewrite Hnone.
  - intros id g Hg. apply lookup_replicate_1 in Hg as [-> _]. by rewrite Hnone.
  - apply Forall_replicate. done.
  - intros i f id ->%Hrow. done.
  - intros i f id ->%Hrow. done.
Qed.
