(* ===== verification/Modules.v ===== *)
(** * Shared libraries and kernel modules

    The tables behind DLOPEN, DLCLOSE, DLSYM, MODLOAD, MODUNLOAD and MODRELOAD
    (syscall.c, [shlib_*], [module_*] and [symbol_hash32]).  A library image is
    counted by the open handles and the modules that use it. *)

From Stdlib Require Import Ascii.
From S2P Require Import Prelude SlotTable Elf Fds Files.

Definition QOS_SHLIB_MAX : nat := 64.
Definition QOS_MODULE_MAX : nat := 32.

Record shlib := { l_used : bool; l_handle : Z; l_ref : Z; l_file_id : Z; l_path : string }.

#[export] Instance shlib_slotted : Slotted shlib := l_used.
#[export] Instance shlib_keyed : Keyed shlib Z := l_handle.

Record kmodule := { m_used : bool; m_id : Z; m_generation : Z; m_handle : Z; m_path : string }.

#[export] Instance kmodule_slotted : Slotted kmodule := m_used.
#[export] Instance kmodule_keyed : Keyed kmodule Z := m_id.

Record mods := { shlibs : list shlib; g_shlib_next_handle : Z; kmodules : list kmodule; g_module_next_id : Z }.

Definition with_shlibs (l : list shlib) (s : mods) : mods :=
  {| shlibs := l; g_shlib_next_handle := g_shlib_next_handle s; kmodules := kmodules s; g_module_next_id := g_module_next_id s |}.
Definition with_next_handle (n : Z) (s : mods) : mods :=
  {| shlibs := shlibs s; g_shlib_next_handle := n; kmodules := kmodules s; g_module_next_id := g_module_next_id s |}.
Definition with_kmodules (l : list kmodule) (s : mods) : mods :=
  {| shlibs := shlibs s; g_shlib_next_handle := g_shlib_next_handle s; kmodules := l; g_module_next_id := g_module_next_id s |}.
Definition with_next_id (n : Z) (s : mods) : mods :=
  {| shlibs := shlibs s; g_shlib_next_handle := g_shlib_next_handle s; kmodules := kmodules s; g_module_next_id := n |}.

Definition shlib_zero : shlib := {| l_used := false; l_handle := 0; l_ref := 0; l_file_id := UINT16_MAX; l_path := "" |}.
Definition kmodule_zero : kmodule := {| m_used := false; m_id := 0; m_generation := 0; m_handle := 0; m_path := "" |}.

(** The module part of [qos_syscall_reset]. *)
Definition mods_reset : mods :=
  {| shlibs := replicate QOS_SHLIB_MAX shlib_zero; g_shlib_next_handle := 1;
     kmodules := replicate QOS_MODULE_MAX kmodule_zero; g_module_next_id := 1 |}.

Definition get_shlib (i : Z) (s : mods) : shlib := default shlib_zero (shlibs s !! Z.to_nat i).
Definition set_shlib (i : Z) (a : shlib) (s : mods) : mods := with_shlibs (<[Z.to_nat i := a]> (shlibs s)) s.
Definition get_kmodule (i : Z) (s : mods) : kmodule := default kmodule_zero (kmodules s !! Z.to_nat i).
Definition set_kmodule (i : Z) (a : kmodule) (s : mods) : mods := with_kmodules (<[Z.to_nat i := a]> (kmodules s)) s.

(** [path != 0 && path[0] == '/'] *)
Definition absolute (path : option string) : bool :=
  match path with Some (String c _) => Ascii.eqb c "/"%char | _ => false end.

(** [strncpy] of at most 127 characters. *)
Definition path_field (path : string) : string := String.substring 0 (QOS_FILE_PATH_MAX - 1) path.

(** ** Libraries *)

Definition shlib_find_slot_by_handle (handle : Z) (s : mods) : Z :=
  if handle =? 0 then -1 else index_or_neg (find_key handle (shlibs s)).

Definition shlib_find_slot_by_path (path : option string) (s : mods) : Z :=
  match path with
  | None => -1
  | Some p => index_or_neg (first_index (λ a, l_used a && bool_decide (l_path a = p)) (shlibs s))
  end.

Definition shlib_free_slot (s : mods) : Z := index_or_neg (free_slot (shlibs s)).

(** The counter skips 0 when it wraps around. *)
Definition next_nonzero (n : Z) : Z * Z :=
  let '(h, n1) := (n, u32 (n + 1)) in
  let '(h, n1) := if h =? 0 then (n1, u32 (n1 + 1)) else (h, n1) in
  if h =? 0 then (1, 2) else (h, n1).

Definition shlib_next_handle (s : mods) : Z * mods :=
  let '(h, n) := next_nonzero (g_shlib_next_handle s) in (h, with_next_handle n s).

Definition shlib_load_path (files : io) (path : option string) (force_new : bool) (s : mods) : Z * mods :=
  if negb (absolute path) then (-1, s)
  else
    let p := default EmptyString path in
    let slot := if force_new then -1 else shlib_find_slot_by_path path s in
    if 0 <=? slot then
      let a := get_shlib slot s in
      (i32 (l_handle a),
       set_shlib slot {| l_used := l_used a; l_handle := l_handle a; l_ref := u32 (l_ref a + 1);
                         l_file_id := l_file_id a; l_path := l_path a |} s)
    else
      let file_id := file_find p files in
      let g := get_file file_id files in
      if (file_id <? 0) || negb (file_used g) || (file_len g =? 0) then (-1, s)
      else if negb (bool_decide (parse_shared_elf_image (file_bytes g) = Some 0)) then (-1, s)
      else
        let slot := shlib_free_slot s in
        if slot <? 0 then (-1, s)
        else
          let '(handle, s1) := shlib_next_handle s in
          if (String.length (path_field p) =? 0)%nat then (-1, set_shlib slot shlib_zero s1)
          else
            (i32 handle, set_shlib slot {| l_used := true; l_handle := handle; l_ref := 1;
                                           l_file_id := u16 file_id; l_path := path_field p |} s1).

Definition shlib_release_handle (handle : Z) (s : mods) : Z * mods :=
  let slot := shlib_find_slot_by_handle handle s in
  if slot <? 0 then (-1, s)
  else
    let a := get_shlib slot s in
    if l_ref a =? 0 then (-1, s)
    else
      let ref := u32 (l_ref a - 1) in
      (0, set_shlib slot (if ref =? 0 then shlib_zero
                          else {| l_used := l_used a; l_handle := l_handle a; l_ref := ref;
                                  l_file_id := l_file_id a; l_path := l_path a |}) s).

(** ** Modules *)

Definition module_find_slot_by_id (module_id : Z) (s : mods) : Z :=
  if module_id =? 0 then -1 else index_or_neg (find_key module_id (kmodules s)).

Definition module_find_slot_by_path (path : option string) (s : mods) : Z :=
  match path with
  | None => -1
  | Some p => index_or_neg (first_index (λ m, m_used m && bool_decide (m_path m = p)) (kmodules s))
  end.

Definition module_free_slot (s : mods) : Z := index_or_neg (free_slot (kmodules s)).

Definition module_next_id (s : mods) : Z * mods :=
  let '(id, n) := next_nonzero (g_module_next_id s) in (id, with_next_id n s).

Definition module_load_path (files : io) (path : option string) (s : mods) : Z * mods :=
  let existing := module_find_slot_by_path path s in
  if negb (absolute path) then (-1, s)
  else if 0 <=? existing then (i32 (m_id (get_kmodule existing s)), s)
  else
    let '(handle, s1) := shlib_load_path files path false s in
    if handle <? 0 then (-1, s1)
    else
      let slot := module_free_slot s1 in
      if slot <? 0 then (-1, (shlib_release_handle (u32 handle) s1).2)
      else
        let '(id, s2) := module_next_id s1 in
        let p := path_field (default EmptyString path) in
        if (String.length p =? 0)%nat then
          (-1, (shlib_release_handle (u32 handle) (set_kmodule slot kmodule_zero s2)).2)
        else
          (i32 id, set_kmodule slot {| m_used := true; m_id := id; m_generation := 1; m_handle := u32 handle; m_path := p |} s2).

Definition module_unload_id (module_id : Z) (s : mods) : Z * mods :=
  let slot := module_find_slot_by_id module_id s in
  if slot <? 0 then (-1, s)
  else
    let handle := m_handle (get_kmodule slot s) in
    let s1 := set_kmodule slot kmodule_zero s in
    (0, if negb (handle =? 0) then (shlib_release_handle handle s1).2 else s1).

Definition module_reload_id (files : io) (module_id : Z) (s : mods) : Z * mods :=
  let slot := module_find_slot_by_id module_id s in
  if slot <? 0 then (-1, s)
  else
    let '(new_handle, s1) := shlib_load_path files (Some (m_path (get_kmodule slot s))) true s in
    if new_handle <? 0 then (-1, s1)
    else
      let m := get_kmodule slot s1 in
      let old_handle := m_handle m in
      let generation := if u32 (m_generation m + 1) =? 0 then 1 else u32 (m_generation m + 1) in
      let s2 := set_kmodule slot {| m_used := m_used m; m_id := m_id m; m_generation := generation;
                                    m_handle := u32 new_handle; m_path := m_path m |} s1 in
      (i32 generation, if negb (old_handle =? 0) then (shlib_release_handle old_handle s2).2 else s2).

(** ** Symbols *)

Definition hash_step (hash : Z) (c : ascii) : Z :=
  Z.lxor (u32 (u32 (Z.shiftl hash 5) + hash)) (Z.of_N (N_of_ascii c)).

Fixpoint hash_chars (hash : Z) (name : string) : Z :=
  match name with EmptyString => hash | String c name' => hash_chars (hash_step hash c) name' end.

Definition symbol_hash32 (name : option string) : Z :=
  match name with
  | None | Some EmptyString => 0
  | Some n => hash_chars 5381 n
  end.

(** ** System calls *)

Definition sys_dlopen (files : io) (path : option string) (s : mods) : Z * mods :=
  let '(handle, s1) := shlib_load_path files path false s in (if handle <? 0 then -1 else handle, s1).

Definition sys_dlclose (handle : Z) (s : mods) : Z * mods :=
  let '(r, s1) := shlib_release_handle handle s in (if r =? 0 then 0 else -1, s1).

Definition sys_dlsym (handle : Z) (name : option string) (s : mods) : Z :=
  if (shlib_find_slot_by_handle handle s <? 0)
     || match name with None | Some EmptyString => true | _ => false end then -1
  else
    let hash := symbol_hash32 name in
    if hash =? 0 then -1
    else i64 (Z.lor (Z.lor 0x7000000000000000 (u64 (Z.shiftl handle 24))) (Z.land hash 0x00FFFFFF)).

Definition sys_modload (files : io) (path : option string) (s : mods) : Z * mods :=
  let '(id, s1) := module_load_path files path s in (if id <? 0 then -1 else id, s1).

Definition sys_modunload (module_id : Z) (s : mods) : Z * mods :=
  let '(r, s1) := module_unload_id module_id s in (if r =? 0 then 0 else -1, s1).

Definition sys_modreload (files : io) (module_id : Z) (s : mods) : Z * mods :=
  let '(g, s1) := module_reload_id files module_id s in (if g <? 0 then -1 else g, s1).

(** ** Reference counts *)

(** The count of a handle, 0 when it is not loaded. *)
Definition lib_count (h : Z) (s : mods) : Z := from_option l_ref 0 (table_map (shlibs s) !! h).

Record libs_wf (s : mods) : Prop := {
  lw_len : length (shlibs s) = QOS_SHLIB_MAX;
  lw_unique : unique_keys (shlibs s);
  lw_used : ∀ i a, shlibs s !! i = Some a → l_used a = true → 1 <= l_handle a < g_shlib_next_handle s ∧ 0 < l_ref a < 2 ^ 32;
  lw_next : 1 <= g_shlib_next_handle s
}.

Lemma lib_count_slot i a s : libs_wf s → shlibs s !! i = Some a → l_used a = true → lib_count (l_handle a) s = l_ref a.
Proof.
  intros Hs Ha Hu. unfold lib_count. by rewrite (proj2 (table_map_spec _ (l_handle a) a (lw_unique s Hs)) (ex_intro _ i (conj Ha (conj Hu eq_refl)))).
Qed.

Lemma find_handle h s :
  libs_wf s → 0 < lib_count h s → ∃ i a, shlib_find_slot_by_handle h s = Z.of_nat i ∧ find_key h (shlibs s) = Some i
    ∧ shlibs s !! i = Some a ∧ l_used a = true ∧ l_handle a = h ∧ l_ref a = lib_count h s.
Proof.
  intros Hs Hc. unfold lib_count in *. destruct (table_map (shlibs s) !! h) as [a|] eqn:E; cbn in *; [|lia].
  apply (table_map_spec _ _ _ (lw_unique s Hs)) in E as (i & Ha & Hu & Hk). pose proof (lw_used s Hs i a Ha Hu) as [? _].
  change (l_handle a = h) in Hk. exists i, a.
  assert (find_key h (shlibs s) = Some i) as Ef by (by eapply find_key_unique; [apply lw_unique| | |]).
  unfold shlib_find_slot_by_handle. rewrite Ef, (proj2 (Z.eqb_neq _ _)) by lia. done.
Qed.

Lemma find_handle_None h s : libs_wf s → lib_count h s <= 0 → shlib_find_slot_by_handle h s = -1 ∧ find_key h (shlibs s) = None.
Proof.
  intros Hs Hc. assert (find_key h (shlibs s) = None) as E.
  { apply find_key_None. intros i a Ha Hu Hk. change (l_handle a = h) in Hk. rewrite <- Hk, (lib_count_slot i) in Hc by done.
    pose proof (lw_used s Hs i a Ha Hu). lia. }
  split; [|done]. unfold shlib_find_slot_by_handle. rewrite E. by destruct (h =? 0).
Qed.

(** A slot keeps its handle and gets another count. *)
Lemma recount_slot i a s b n :
  libs_wf s → shlibs s !! i = Some a → l_used a = true → l_used b = true → l_handle b = l_handle a → l_ref b = n → 0 < n < 2 ^ 32 →
  libs_wf (with_shlibs (<[i:=b]> (shlibs s)) s)
  ∧ ∀ h, lib_count h (with_shlibs (<[i:=b]> (shlibs s)) s) = if h =? l_handle a then n else lib_count h s.
Proof.
  intros Hs Ha Hu Hub Hk Hr Hn. pose proof Hs as [Hlen Huniq Hused Hnext].
  assert (find_key (l_handle a) (shlibs s) = Some i) as Ef by (by eapply find_key_unique).
  destruct (table_map_update _ _ _ b Huniq Ef) as [Hu' Hm]; [done|done|]. split.
  - split; cbn; [by rewrite length_insert|done| |done]. intros j c Hj Hc.
    apply list_lookup_insert_Some in Hj as [(-> & <- & _)|[_ Hj]]; [|by eapply Hused].
    rewrite Hk, Hr. split; [by apply (Hused _ _ Ha Hu)|done].
  - intros h. unfold lib_count. cbn [with_shlibs shlibs]. rewrite Hm. destruct (Z.eqb_spec h (l_handle a)) as [->|Hne].
    + rewrite lookup_insert_eq. done.
    + by rewrite lookup_insert_ne.
Qed.

Lemma release_spec h s :
  libs_wf s →
  let '(r, s') := shlib_release_handle h s in
  libs_wf s' ∧ kmodules s' = kmodules s ∧ g_module_next_id s' = g_module_next_id s ∧ g_shlib_next_handle s' = g_shlib_next_handle s
  ∧ if 0 <? lib_count h s then r = 0 ∧ ∀ h', lib_count h' s' = lib_count h' s - (if h' =? h then 1 else 0)
    else r = -1 ∧ s' = s.
Proof.
  intros Hs. unfold shlib_release_handle. destruct (Z.ltb_spec 0 (lib_count h s)) as [Hc|Hc].
  2:{ destruct (find_handle_None h s Hs Hc) as [-> _]. done. }
  destruct (find_handle h s Hs Hc) as (i & a & -> & Ef & Ha & Hu & Hk & Hr).
  rewrite (proj2 (Z.ltb_ge _ _)) by lia. unfold get_shlib. rewrite Nat2Z.id, Ha. change (default shlib_zero (Some a)) with a.
  pose proof Hs as [Hlen Huniq Hused Hnext]. destruct (Hused _ _ Ha Hu) as [_ Hrange].
  rewrite (proj2 (Z.eqb_neq (l_ref a) 0)) by lia. rewrite (wrap_small 32) by (unfold in_width; lia).
  unfold set_shlib. rewrite Nat2Z.id. destruct (Z.eqb_spec (l_ref a - 1) 0) as [Hone|Hmore].
  - destruct (table_map_release _ _ _ shlib_zero Huniq Ef) as [Hu' Hm]; [done|]. split_and!; try done.
    + split; cbn; [by rewrite length_insert|done| |done]. intros j c Hj Hcu.
      apply list_lookup_insert_Some in Hj as [(-> & <- & _)|[_ Hj]]; [done|by eapply Hused].
    + intros h'. unfold lib_count at 1. cbn [with_shlibs shlibs]. rewrite Hm. destruct (Z.eqb_spec h' h) as [->|Hne].
      * rewrite lookup_delete_eq. cbn. lia.
      * rewrite lookup_delete_ne by done. fold (lib_count h' s). lia.
  - set (b := {| l_used := l_used a |}). destruct (recount_slot i a s b (l_ref a - 1) Hs Ha Hu) as [Hw Hcnt]; [done|done|done|lia|].
    split_and!; try done. intros h'. rewrite Hcnt, Hk. destruct (Z.eqb_spec h' h) as [->|]; lia.
Qed.

Lemma next_nonzero_small n : 1 <= n < 2 ^ 32 - 1 → next_nonzero n = (n, n + 1).
Proof.
  intros Hn. unfold next_nonzero. rewrite (proj2 (Z.eqb_neq n 0)) by lia. rewrite (proj2 (Z.eqb_neq n 0)) by lia.
  by rewrite wrap_small by (unfold in_width; lia).
Qed.

Lemma path_field_nonempty p : absolute (Some p) = true → (String.length (path_field p) =? 0)%nat = false.
Proof. destruct p; done. Qed.

(** A load fails and changes nothing, or gives one new reference. *)
Definition load_result (s : mods) (r : Z) (s' : mods) : Prop :=
  libs_wf s' ∧ kmodules s' = kmodules s ∧ g_module_next_id s' = g_module_next_id s
  ∧ g_shlib_next_handle s <= g_shlib_next_handle s' <= g_shlib_next_handle s + 1
  ∧ (r = -1 ∧ s' = s
     ∨ 1 <= r < 2 ^ 31 ∧ ∀ h, lib_count h s' = lib_count h s + (if h =? r then 1 else 0)).

Lemma load_result_fail s : libs_wf s → load_result s (-1) s.
Proof. intros Hs. split_and!; [done..|lia|lia|by left]. Qed.

Lemma load_spec files path force s :
  libs_wf s → g_shlib_next_handle s < 2 ^ 31 - 1 → (∀ h, lib_count h s < 2 ^ 32 - 1) →
  let '(r, s') := shlib_load_path files path force s in load_result s r s'.
Proof.
  intros Hs Hnext Hmax. pose proof Hs as [Hlen Huniq Hused Hn1]. pose proof (load_result_fail s Hs) as Hfail. unfold shlib_load_path.
  destruct (absolute path) eqn:Eabs; [|done]. destruct path as [p|]; [|done]. cbn [negb default].
  destruct (Z.leb_spec 0 (if force then -1 else shlib_find_slot_by_path (Some p) s)) as [Hfound|_].
  - destruct force; [lia|]. cbn [shlib_find_slot_by_path] in *. unfold index_or_neg in *.
    destruct (first_index _ (shlibs s)) as [i|] eqn:Ei; [|lia].
    destruct (first_index_lookup _ _ _ Ei) as (a & Ha & [Hu _]%andb_true_iff).
    unfold get_shlib, set_shlib. rewrite Nat2Z.id, Ha. change (default shlib_zero (Some a)) with a.
    destruct (Hused i a Ha Hu) as [Hh Hr]. pose proof (Hmax (l_handle a)) as Hm. rewrite (lib_count_slot i) in Hm by done.
    rewrite (wrap_small 32) by (unfold in_width; lia). rewrite (sext_small 32) by lia. set (b := {| l_used := l_used a |}).
    destruct (recount_slot i a s b (l_ref a + 1) Hs Ha Hu) as [Hw Hcnt]; [done|done|done|lia|].
    split_and!; try done; [cbn; lia|]. right. split; [lia|]. intros h. rewrite Hcnt.
    destruct (Z.eqb_spec h (l_handle a)) as [->|]; [|lia].
    by rewrite (lib_count_slot i).
  - cbv zeta. destruct (_ || _); [done|]. destruct (negb _); [done|].
    unfold shlib_free_slot, index_or_neg. destruct (free_slot (shlibs s)) as [i|] eqn:Ei; [|done].
    rewrite (proj2 (Z.ltb_ge _ _)) by lia. unfold shlib_next_handle. rewrite next_nonzero_small by lia.
    rewrite path_field_nonempty by done. set (nx := g_shlib_next_handle s) in *. set (b := {| l_used := true |}).
    destruct (free_slot_Some _ _ Ei) as (old & Hold & Hfree).
    assert (Hnone : find_key (slot_key b) (shlibs s) = None).
    { apply find_key_None. intros j c Hc Huc Hkc. change (l_handle c = nx) in Hkc. destruct (Hused _ _ Hc Huc). lia. }
    destruct (table_map_alloc _ _ _ b Huniq Hold Hfree eq_refl Hnone) as [Hu' Hm].
    assert (Hmn : table_map (shlibs s) !! nx = None) by (by apply table_map_None).
    rewrite (sext_small 32) by lia. unfold set_shlib. rewrite Nat2Z.id. split_and!; try done; [|cbn; lia|].
    + split; cbn; [by rewrite length_insert|done| |lia]. intros j c Hj Hc.
      apply list_lookup_insert_Some in Hj as [(-> & <- & _)|[_ Hj]]; [cbn; lia|]. destruct (Hused _ _ Hj Hc). lia.
    + right. split; [lia|]. intros h. unfold lib_count. cbn [with_shlibs shlibs with_next_handle]. rewrite Hm.
      destruct (Z.eqb_spec h nx) as [->|Hne]; [rewrite lookup_insert_eq, Hmn; done|].
      rewrite lookup_insert_ne by (intros E; by apply Hne). lia.
Qed.

(** ** The invariant *)

Definition uses (h : Z) (m : kmodule) : bool := m_used m && (m_handle m =? h).

(** The references to a handle: modules, and the handles in [opens] that DLOPEN
    gave and DLCLOSE has not taken back. *)
Definition users (h : Z) (opens : list Z) (s : mods) : Z :=
  Z.of_nat (count_if (uses h) (kmodules s)) + Z.of_nat (count_if (Z.eqb h) opens).

Record mods_wf (n : Z) (opens : list Z) (s : mods) : Prop := {
  mw_libs : libs_wf s;
  mw_len : length (kmodules s) = QOS_MODULE_MAX;
  mw_unique : unique_keys (kmodules s);
  mw_ids : ∀ i m, kmodules s !! i = Some m → m_used m = true → 1 <= m_id m < g_module_next_id s;
  mw_count : ∀ h, lib_count h s = users h opens s;
  mw_bounds : g_shlib_next_handle s <= n ∧ 1 <= g_module_next_id s <= n ∧ Z.of_nat (length opens) <= n
}.

Lemma users_bound h opens s n : length (kmodules s) = QOS_MODULE_MAX → Z.of_nat (length opens) <= n → users h opens s <= n + 32.
Proof.
  intros Hl Ho. unfold users. pose proof (count_if_le (uses h) (kmodules s)). pose proof (count_if_le (Z.eqb h) opens).
  change QOS_MODULE_MAX with 32%nat in Hl. lia.
Qed.

Lemma users_set h opens s i m m' :
  kmodules s !! i = Some m →
  users h opens (with_kmodules (<[i:=m']> (kmodules s)) s) = users h opens s - Z.b2z (uses h m) + Z.b2z (uses h m').
Proof.
  intros Hm. unfold users. cbn [with_kmodules kmodules]. pose proof (count_if_insert (uses h) _ _ _ m' Hm).
  destruct (uses h m), (uses h m'); cbn [Z.b2z]; lia.
Qed.

(** One occurrence of [x] less. *)
Fixpoint remove_one (x : Z) (l : list Z) : option (list Z) :=
  match l with
  | [] => None
  | y :: l' => if y =? x then Some l' else (y ::.) <$> remove_one x l'
  end.

Lemma remove_one_count h x l l' :
  remove_one x l = Some l' →
  Z.of_nat (count_if (Z.eqb h) l) = Z.of_nat (count_if (Z.eqb h) l') + Z.b2z (h =? x) ∧ length l = S (length l').
Proof.
  revert l'. induction l as [|y l IH]; intros l'; [done|]. cbn [remove_one]. destruct (Z.eqb_spec y x) as [->|Hne].
  - intros [= ->]. cbn. destruct (h =? x); cbn; lia.
  - destruct (remove_one x l) as [l0|]; [|done]. intros [= <-]. destruct (IH l0 eq_refl). cbn. lia.
Qed.

Lemma lib_count_0 s : libs_wf s → lib_count 0 s <= 0.
Proof.
  intros Hs. destruct (Z.le_gt_cases (lib_count 0 s) 0) as [|H]; [done|].
  destruct (find_handle 0 s Hs) as (i & a & _ & _ & Ha & Hu & Hk & _); [lia|]. destruct (lw_used s Hs i a Ha Hu). lia.
Qed.

(** A module's library is loaded, under a handle that is not 0. *)
Lemma module_lib n opens s i m :
  mods_wf n opens s → kmodules s !! i = Some m → m_used m = true → 0 < lib_count (m_handle m) s ∧ m_handle m ≠ 0.
Proof.
  intros Hs Hm Hu. assert (0 < lib_count (m_handle m) s) as Hc.
  { rewrite (mw_count n opens s Hs). unfold users.
    assert (0 < count_if (uses (m_handle m)) (kmodules s))%nat; [|lia].
    apply (count_if_pos _ _ i m Hm). unfold uses. by rewrite Hu, Z.eqb_refl. }
  split; [done|]. intros E. rewrite E in Hc. pose proof (lib_count_0 s (mw_libs n opens s Hs)). lia.
Qed.

(** ** Operations *)

Inductive mod_op := DlOpen (path : option string) | DlClose (handle : Z) | ModLoad (path : option string)
  | ModUnload (id : Z) | ModReload (id : Z).

(** A call is made with the files of the moment. *)
Definition mod_exec (files : io) (o : mod_op) (s : mods) : Z * mods :=
  match o with
  | DlOpen path => sys_dlopen files path s
  | DlClose handle => sys_dlclose handle s
  | ModLoad path => sys_modload files path s
  | ModUnload id => sys_modunload id s
  | ModReload id => sys_modreload files id s
  end.

(** The open handles after a call; [None] when a handle is closed that is not open. *)
Definition ledger (o : mod_op) (r : Z) (opens : list Z) : option (list Z) :=
  match o with
  | DlOpen _ => Some (if r <? 0 then opens else r :: opens)
  | DlClose handle => remove_one handle opens
  | _ => Some opens
  end.

Lemma mods_wf_mono n n' opens s : n <= n' → mods_wf n opens s → mods_wf n' opens s.
Proof. intros Hn []. split; try done. lia. Qed.

Lemma mods_load n opens s files path force :
  mods_wf n opens s → n < 2 ^ 31 - 1 →
  let '(r, s') := shlib_load_path files path force s in
  r = -1 ∧ s' = s
  ∨ 1 <= r < 2 ^ 31 ∧ mods_wf (n + 1) (r :: opens) s' ∧ kmodules s' = kmodules s ∧ g_module_next_id s' = g_module_next_id s.
Proof.
  intros Hs Hn. pose proof Hs as [Hl Hlen Hu Hids Hc [Hb1 [Hb2 Hb3]]].
  assert (∀ h, lib_count h s < 2 ^ 32 - 1).
  { intros h. rewrite Hc. pose proof (users_bound h opens s n Hlen Hb3). lia. }
  pose proof (load_spec files path force s Hl) as H'. destruct (shlib_load_path _ _ _ _) as [r s'].
  destruct H' as (Hw & Ek & Ei & Hnx & [[-> ->]|[Hr Hcnt]]); [lia|done|by left|]. right. split; [done|]. split; [|done].
  split; rewrite ?Ek, ?Ei; try done.
  - intros h. rewrite Hcnt, Hc. unfold users. rewrite Ek. cbn. destruct (h =? r); lia.
  - cbn [length]. lia.
Qed.

Lemma mods_release n opens opens' h s :
  mods_wf n opens s → remove_one h opens = Some opens' →
  (shlib_release_handle h s).1 = 0 ∧ mods_wf n opens' (shlib_release_handle h s).2
  ∧ kmodules (shlib_release_handle h s).2 = kmodules s ∧ g_module_next_id (shlib_release_handle h s).2 = g_module_next_id s.
Proof.
  intros Hs Ho. pose proof Hs as [Hl Hlen Hu Hids Hc Hb]. pose proof (release_spec h s Hl) as H'.
  destruct (shlib_release_handle h s) as [r s']. cbn [fst snd]. destruct H' as (Hw & Ek & Ei & Enx & Hr).
  assert (0 < lib_count h s) as Hpos.
  { rewrite Hc. unfold users. destruct (remove_one_count h h _ _ Ho) as [E _]. rewrite Z.eqb_refl in E. cbn in E. lia. }
  rewrite (proj2 (Z.ltb_lt _ _)) in Hr by done. destruct Hr as [-> Hcnt]. split_and!; try done.
  split; rewrite ?Ek, ?Ei, ?Enx; try done.
  - intros h'. rewrite Hcnt, Hc. unfold users. rewrite Ek. destruct (remove_one_count h' h _ _ Ho). destruct (h' =? h); cbn in *; lia.
  - destruct (remove_one_count h h _ _ Ho). lia.
Qed.

(** References move between a module's slot and the open handles. *)
Lemma mods_move n n' opens opens' s i m m' nid :
  mods_wf n opens s → kmodules s !! i = Some m → n <= n' → g_module_next_id s <= nid <= n' →
  Z.of_nat (length opens') <= n' → unique_keys (<[i:=m']> (kmodules s)) → (m_used m' = true → 1 <= m_id m' < nid) →
  (∀ h, Z.b2z (uses h m) + Z.of_nat (count_if (Z.eqb h) opens) = Z.b2z (uses h m') + Z.of_nat (count_if (Z.eqb h) opens')) →
  mods_wf n' opens' (with_kmodules (<[i:=m']> (kmodules s)) (with_next_id nid s)).
Proof.
  intros [Hl Hlen Hu Hids Hc Hb] Hm Hn Hnid Hlo Hu' Hid' Hbal. split; cbn [with_kmodules with_next_id kmodules g_module_next_id g_shlib_next_handle]; try done.
  - by destruct Hl.
  - by rewrite length_insert.
  - intros j c Hj Hcu. apply list_lookup_insert_Some in Hj as [(-> & <- & _)|[_ Hj]]; [by apply Hid'|].
    pose proof (Hids _ _ Hj Hcu). lia.
  - intros h. change (lib_count h s = users h opens' (with_kmodules (<[i:=m']> (kmodules s)) s)). rewrite Hc, (users_set h opens' s i m m') by done.
    specialize (Hbal h). unfold users. lia.
  - lia.
Qed.

Lemma find_module id n opens s :
  mods_wf n opens s →
  module_find_slot_by_id id s = -1
  ∨ ∃ i m, module_find_slot_by_id id s = Z.of_nat i ∧ find_key id (kmodules s) = Some i ∧ kmodules s !! i = Some m ∧ m_used m = true ∧ m_id m = id.
Proof.
  intros Hs. unfold module_find_slot_by_id. destruct (id =? 0); [by left|].
  destruct (find_key id (kmodules s)) as [i|] eqn:E; [right|by left]. destruct (find_key_Some _ _ _ E) as (m & Hm & Hu & Hk).
  by exists i, m.
Qed.

Lemma with_next_id_same s : with_next_id (g_module_next_id s) s = s.
Proof. by destruct s. Qed.

Lemma modload_ok n opens s files path :
  mods_wf n opens s → n < 2 ^ 31 - 1 → mods_wf (n + 1) opens (module_load_path files path s).2.
Proof.
  intros Hs Hn. assert (Hs1 : mods_wf (n + 1) opens s) by (apply (mods_wf_mono n); [lia|done]).
  unfold module_load_path. destruct (absolute path) eqn:Eabs; [|done]. cbn [negb]. destruct (0 <=? _); [done|].
  pose proof (mods_load n opens s files path false Hs Hn) as Hld. destruct (shlib_load_path files path false s) as [r s1].
  destruct Hld as [[-> ->]|(Hr & Hw & Ek & Ei)]; [done|]. rewrite (proj2 (Z.ltb_ge _ _)) by lia.
  rewrite (wrap_small 32) by (unfold in_width; lia). unfold module_free_slot, index_or_neg.
  destruct (free_slot (kmodules s1)) as [i|] eqn:Ef.
  - rewrite (proj2 (Z.ltb_ge _ _)) by lia. unfold module_next_id. pose proof Hs as [_ _ Hu Hids _ Hb].
    rewrite next_nonzero_small by (rewrite Ei; lia). destruct path as [p|]; [|done].
    change (default EmptyString (Some p)) with p. rewrite path_field_nonempty by done. cbn [snd]. unfold set_kmodule. rewrite Nat2Z.id.
    rewrite Ek in Ef. destruct (free_slot_Some _ _ Ef) as (m & Hm & Hmu). change (m_used m = false) in Hmu. set (m' := {| m_used := true |}).
    apply (mods_move (n + 1) (n + 1) (r :: opens) opens s1 i m m'); rewrite ?Ek, ?Ei; try done; try lia.
    + apply unique_keys_insert; [done|]. intros j c _ Hj _ Hcu Hkey. change (m_id c = g_module_next_id s1) in Hkey.
      pose proof (Hids _ _ Hj Hcu). rewrite Ei in Hkey. lia.
    + intros _. cbn. rewrite Ei. lia.
    + intros h. unfold uses. rewrite Hmu. cbn. rewrite (Z.eqb_sym r h). destruct (h =? r); cbn; lia.
  - assert (remove_one r (r :: opens) = Some opens) as Hrm by (cbn; by rewrite Z.eqb_refl).
    by destruct (mods_release (n + 1) (r :: opens) opens r s1 Hw Hrm) as (_ & Hw' & _).
Qed.

Lemma modunload_ok n opens s id : mods_wf n opens s → mods_wf (n + 1) opens (module_unload_id id s).2.
Proof.
  intros Hs. assert (Hs1 : mods_wf (n + 1) opens s) by (apply (mods_wf_mono n); [lia|done]). unfold module_unload_id.
  destruct (find_module id n opens s Hs) as [->|(i & m & -> & Ef & Hm & Hu & Hk)]; [done|].
  rewrite (proj2 (Z.ltb_ge _ _)) by lia. unfold get_kmodule, set_kmodule. rewrite Nat2Z.id, Hm. change (default kmodule_zero (Some m)) with m.
  destruct (module_lib n opens s i m Hs Hm Hu) as [_ Hne]. rewrite (proj2 (Z.eqb_neq _ _) Hne). cbn [negb snd].
  pose proof Hs as [_ _ Huniq _ _ Hb]. set (h := m_handle m).
  assert (Hw : mods_wf (n + 1) (h :: opens) (with_kmodules (<[i:=kmodule_zero]> (kmodules s)) s)).
  { rewrite <- (with_next_id_same s) at 2. apply (mods_move n _ opens _ s i m); try done; try lia; [cbn [length]; lia| |].
    - by destruct (table_map_release _ _ _ kmodule_zero Huniq Ef).
    - intros x. unfold uses. rewrite Hu. fold h. cbn. rewrite (Z.eqb_sym h x). destruct (x =? h); cbn; lia. }
  assert (remove_one h (h :: opens) = Some opens) as Hrm by (cbn; by rewrite Z.eqb_refl).
  by destruct (mods_release _ _ _ _ _ Hw Hrm) as (_ & Hw' & _).
Qed.

Lemma modreload_ok n opens s files id :
  mods_wf n opens s → n < 2 ^ 31 - 1 → mods_wf (n + 1) opens (module_reload_id files id s).2.
Proof.
  intros Hs Hn. assert (Hs1 : mods_wf (n + 1) opens s) by (apply (mods_wf_mono n); [lia|done]). unfold module_reload_id.
  destruct (find_module id n opens s Hs) as [->|(i & m & -> & Ef & Hm & Hu & Hk)]; [done|].
  rewrite (proj2 (Z.ltb_ge _ _)) by lia. pose proof (mods_load n opens s files (Some (m_path (get_kmodule (Z.of_nat i) s))) true Hs Hn) as Hld.
  destruct (shlib_load_path files _ true s) as [r s1]. destruct Hld as [[-> ->]|(Hr & Hw & Ek & Ei)]; [done|].
  rewrite (proj2 (Z.ltb_ge _ _)) by lia. rewrite (wrap_small 32 r) by (unfold in_width; lia).
  rewrite <- Ek in Hm, Ef. unfold get_kmodule, set_kmodule. rewrite Nat2Z.id, Hm. change (default kmodule_zero (Some m)) with m.
  destruct (module_lib _ _ s1 i m Hw Hm Hu) as [_ Hne]. rewrite (proj2 (Z.eqb_neq _ _) Hne). cbn [negb snd].
  pose proof Hw as [_ _ Huniq Hids _ Hb]. set (h := m_handle m). set (m' := {| m_used := m_used m |}).
  assert (Hw' : mods_wf (n + 1) (h :: opens) (with_kmodules (<[i:=m']> (kmodules s1)) s1)).
  { rewrite <- (with_next_id_same s1) at 2. apply (mods_move (n + 1) _ (r :: opens) _ s1 i m); try done; try lia.
    - cbn [length] in *. lia.
    - exact (proj1 (table_map_update _ _ _ m' Huniq Ef Hu Hk)).
    - intros _. by apply (Hids i m).
    - intros x. unfold uses. rewrite Hu. fold h. cbn. rewrite Hu, (Z.eqb_sym h x), (Z.eqb_sym r x). destruct (x =? h), (x =? r); cbn; lia. }
  assert (remove_one h (h :: opens) = Some opens) as Hrm by (cbn; by rewrite Z.eqb_refl).
  by destruct (mods_release _ _ _ _ _ Hw' Hrm) as (_ & Hw'' & _).
Qed.

Lemma mod_step_ok n opens s files o opens' :
  mods_wf n opens s → n < 2 ^ 31 - 1 → ledger o (mod_exec files o s).1 opens = Some opens' →
  mods_wf (n + 1) opens' (mod_exec files o s).2.
Proof.
  intros Hs Hn Hled. destruct o as [path|h|path|id|id]; cbn [mod_exec ledger] in *.
  - unfold sys_dlopen in *. pose proof (mods_load n opens s files path false Hs Hn) as Hld.
    destruct (shlib_load_path files path false s) as [r s1]. destruct Hld as [[-> ->]|(Hr & Hw & _)]; cbn [fst snd] in *.
    + injection Hled as <-. apply (mods_wf_mono n); [lia|done].
    + rewrite (proj2 (Z.ltb_ge r 0)) in Hled by lia. rewrite (proj2 (Z.ltb_ge r 0)) in Hled by lia. by injection Hled as <-.
  - unfold sys_dlclose in *. destruct (mods_release n opens opens' h s Hs Hled) as (_ & Hw & _).
    destruct (shlib_release_handle h s). apply (mods_wf_mono n); [lia|done].
  - injection Hled as <-. unfold sys_modload. pose proof (modload_ok n opens s files path Hs Hn). by destruct (module_load_path _ _ _).
  - injection Hled as <-. unfold sys_modunload. pose proof (modunload_ok n opens s id Hs). by destruct (module_unload_id _ _).
  - injection Hled as <-. unfold sys_modreload. pose proof (modreload_ok n opens s files id Hs Hn). by destruct (module_reload_id _ _ _).
Qed.

(** A sequence of calls, each with the files of its moment; [None] when a
    handle is closed that is not open. *)
Fixpoint mod_run (ops : list (io * mod_op)) (opens : list Z) (s : mods) : option (list Z * mods) :=
  match ops with
  | [] => Some (opens, s)
  | (files, o) :: ops =>
      let '(r, s') := mod_exec files o s in opens' ← ledger o r opens; mod_run ops opens' s'
  end.

Lemma mod_run_ok ops n opens s opens' s' :
  mods_wf n opens s → n + Z.of_nat (length ops) < 2 ^ 31 → mod_run ops opens s = Some (opens', s') →
  mods_wf (n + Z.of_nat (length ops)) opens' s'.
Proof.
  revert n opens s. induction ops as [|[files o] ops IH]; intros n opens s Hs Hn Hrun.
  - injection Hrun as <- <-. by rewrite Z.add_0_r.
  - cbn [mod_run length] in *. destruct (mod_exec files o s) as [r s1] eqn:E. destruct (ledger o r opens) as [opens1|] eqn:El; [|done].
    replace (n + Z.of_nat (S (length ops))) with (n + 1 + Z.of_nat (length ops)) in * by lia.
    apply (IH (n + 1) opens1 s1); [|lia|done]. pose proof (mod_step_ok n opens s files o opens1 Hs) as H. rewrite E in H. apply H; [lia|done].
Qed.

Lemma mods_reset_wf : mods_wf 1 [] mods_reset.
Proof.
  split; cbn [mods_reset kmodules g_module_next_id]; try done.
  - split; cbn [mods_reset shlibs g_shlib_next_handle]; [done|by apply unique_keys_replicate| |done].
    intros i a Ha. by apply lookup_replicate_1 in Ha as [-> _].
  - by apply unique_keys_replicate.
  - intros i m Hm. by apply lookup_replicate_1 in Hm as [-> _].
Qed.

(** C33: As long as callers close only handles they opened, the library reference
    counts are exact: after any sequence of fewer than 2^31 - 1 DLOPEN, DLCLOSE,
    MODLOAD, MODUNLOAD and MODRELOAD calls (so that no handle, id or count wraps), over any changes to the files in between, the count of
    every handle is the number of loaded modules that use it plus the number of
    times it is held open. So the library of a loaded module, and of an open
    handle, is always loaded, and a library no one refers to is not. *)
Theorem library_refcounts_exact ops opens s :
  Z.of_nat (length ops) < 2 ^ 31 - 1 → mod_run ops [] mods_reset = Some (opens, s) →
  (∀ h, lib_count h s = users h opens s)
  ∧ (∀ i m, kmodules s !! i = Some m → m_used m = true → 0 <= shlib_find_slot_by_handle (m_handle m) s)
  ∧ (∀ h, h ∈ opens → 0 <= shlib_find_slot_by_handle h s)
  ∧ (∀ h, users h opens s = 0 → shlib_find_slot_by_handle h s = -1).
Proof.
  intros Hn Hrun. assert (Hs : mods_wf (1 + Z.of_nat (length ops)) opens s) by (apply (mod_run_ok _ _ _ _ _ _ mods_reset_wf); [lia|done]).
  pose proof Hs as [Hl _ _ _ Hc _].
  assert (Hfound : ∀ h, 0 < lib_count h s → 0 <= shlib_find_slot_by_handle h s).
  { intros h Hh. destruct (find_handle h s Hl Hh) as (i & a & -> & _). lia. }
  split; [done|]. split_and!.
  - intros i m Hm Hu. apply Hfound. by destruct (module_lib _ opens s i m Hs Hm Hu).
  - intros h Hh. apply Hfound. rewrite Hc. unfold users. apply list_elem_of_lookup in Hh as [i Hi].
    pose proof (count_if_pos (Z.eqb h) opens i h Hi (Z.eqb_refl h)). lia.
  - intros h Hh. apply find_handle_None; [done|]. rewrite Hc. lia.
Qed.

(** A shared object in the file /m. *)
Definition demo_files : io :=
  let image := <[16%nat := 3]> demo_elf in
  (write_vfs 0 image (Z.of_nat (length image)) (open_file "/m" (io_reset Net.qos_net_reset)).2).2.

(** The module is reloaded while the first image is held open. *)
Definition demo_mod_ops : list (io * mod_op) :=
  [(demo_files, ModLoad (Some "/m")); (demo_files, DlOpen (Some "/m")); (demo_files, ModReload 1); (demo_files, DlClose 1)].

Example library_refcounts_exact_witness :
  match mod_run demo_mod_ops [] mods_reset with
  | Some (opens, s) => opens = [] ∧ lib_count 1 s = 0 ∧ lib_count 2 s = 1
  | None => False
  end.
Proof.
  destruct (mod_run demo_mod_ops [] mods_reset) as [[opens s]|] eqn:E; [|vm_compute in E; discriminate].
  destruct (library_refcounts_exact demo_mod_ops opens s) as [H _]; [cbn; lia|exact E|]. rewrite !H.
  vm_compute in E. injection E as <- <-. repeat split.
Defined.

(** ** Symbol addresses *)

Lemma hash_step_range h c : in_width 32 h → in_width 32 (hash_step h c).
Proof.
  intros Hh. pose proof (N_ascii_bounded c). apply lxor_in_width; [lia|by apply wrap_range|]. unfold in_width. lia.
Qed.

Lemma symbol_hash32_range name : in_width 32 (symbol_hash32 name).
Proof.
  assert (∀ n h, in_width 32 h → in_width 32 (hash_chars h n)) as Hn.
  { intros n. induction n as [|c n IH]; intros h Hh; [done|]. by apply IH, hash_step_range. }
  destruct name as [[|c n]|]; try (unfold in_width; cbn; lia). apply Hn. unfold in_width. lia.
Qed.

(** A symbol address is faithful: when DLSYM succeeds its result is not
    negative and determines the library handle (bits 24 to 55) and the low 24
    bits of the symbol's hash, so two handles never give the same address. *)
Theorem dlsym_address_decodes handle name s :
  in_width 32 handle → 0 <= shlib_find_slot_by_handle handle s → symbol_hash32 name ≠ 0 →
  let addr := sys_dlsym handle name s in
  0 <= addr ∧ Z.land (Z.shiftr addr 24) (Z.ones 32) = handle ∧ addr mod 2 ^ 24 = symbol_hash32 name mod 2 ^ 24.
Proof.
  intros Hh Hslot Hhash addr. pose proof (symbol_hash32_range name) as Hr. unfold in_width in *.
  set (low := symbol_hash32 name mod 2 ^ 24).
  assert (Hlow : 0 <= low < 2 ^ 24) by (apply Z.mod_pos_bound; lia).
  assert (addr = 7 * 2 ^ 60 + handle * 2 ^ 24 + low) as ->.
  { unfold addr, sys_dlsym. rewrite (proj2 (Z.ltb_ge _ _)) by done. destruct name as [[|c n]|]; try done. cbn [orb].
    rewrite (proj2 (Z.eqb_neq _ _)) by done. change 0x00FFFFFF with (Z.ones 24). rewrite Z.land_ones by lia. fold low.
    rewrite (wrap_small 64) by (unfold in_width; rewrite Z.shiftl_mul_pow2 by lia; lia).
    change 0x7000000000000000 with (Z.shiftl (Z.shiftl 7 36) 24). rewrite <- Z.shiftl_lor, (Z.lor_comm _ low), (Z.lor_comm _ handle).
    rewrite (lor_low 24), (lor_low 36) by (unfold in_width; lia). rewrite sext_small by lia. lia. }
  split; [lia|]. replace (7 * 2 ^ 60 + handle * 2 ^ 24 + low) with (low + (7 * 2 ^ 36 + handle) * 2 ^ 24) by lia. split.
  - rewrite Z.shiftr_div_pow2, Z.div_add, Z.div_small, Z.add_0_l, Z.land_ones by lia.
    replace (7 * 2 ^ 36 + handle) with (handle + (7 * 2 ^ 4) * 2 ^ 32) by lia. rewrite Z.mod_add by lia. by apply Z.mod_small.
  - rewrite Z.mod_add by lia. by apply Z.mod_small.
Qed.

Example dlsym_address_decodes_witness :
  let s := (mod_exec demo_files (DlOpen (Some "/m")) mods_reset).2 in
  Z.land (Z.shiftr (sys_dlsym 1 (Some "init") s) 24) (Z.ones 32) = 1.
Proof.
  intros s. destruct (dlsym_address_decodes 1 (Some "init") s) as (_ & H & _).
  - unfold in_width. lia.
  - vm_compute. discriminate.
  - vm_compute. discriminate.
  - exact H.
Defined.
