(* ===== verification/Sockets.v ===== *)
(** * Sockets (c-os/kernel/syscall/syscall.c)

    The socket branches of the dispatcher: SOCKET, BIND, LISTEN, ACCEPT, CONNECT,
    SEND, RECV and the socket cases of READ and WRITE.  A user buffer is an
    [option] of the bytes readable through the pointer ([None] is NULL); bytes
    and addresses the kernel writes to user memory are results. *)

From Stdlib Require Import Ascii String.
From S2P Require Import Prelude SlotTable Packet Udp Tcp Net Ports Fds.

Definition with_udp_io (u : udp) (s : io) : io := with_net (with_udp u (io_net s)) s.
Definition with_tcp_io (t : tcp) (s : io) : io := with_net (with_tcp t (io_net s)) s.
Definition with_packets_io (p : packets) (s : io) : io := with_net (with_packets p (io_net s)) s.

Definition with_sock (k : sock) (f : fd) : fd :=
  {| f_used := f_used f; f_kind := f_kind f; f_sock := k; f_io := f_io f; f_queue := f_queue f;
     f_pipe_id := f_pipe_id f; f_offset := f_offset f; f_file_id := f_file_id f;
     f_proc_kind := f_proc_kind f; f_proc_pid := f_proc_pid f |}.

Definition with_sock_io (b : sock_io) (f : fd) : fd :=
  {| f_used := f_used f; f_kind := f_kind f; f_sock := f_sock f; f_io := b; f_queue := f_queue f;
     f_pipe_id := f_pipe_id f; f_offset := f_offset f; f_file_id := f_file_id f;
     f_proc_kind := f_proc_kind f; f_proc_pid := f_proc_pid f |}.

Definition is_socket (f : fd) : bool := bool_decide (f_kind f = KSocket).

(** ** Naming a socket *)

Definition with_type (t : Z) (k : sock) : sock :=
  {| s_bound := s_bound k; s_listening := s_listening k; s_connected := s_connected k; s_type := t;
     s_lport := s_lport k; s_rport := s_rport k; s_rip := s_rip k; s_conn_id := s_conn_id k |}.

Definition bound_to (port : Z) (k : sock) : sock :=
  {| s_bound := true; s_listening := s_listening k; s_connected := s_connected k; s_type := s_type k;
     s_lport := port; s_rport := s_rport k; s_rip := s_rip k; s_conn_id := s_conn_id k |}.

Definition listening (k : sock) : sock :=
  {| s_bound := s_bound k; s_listening := true; s_connected := s_connected k; s_type := s_type k;
     s_lport := s_lport k; s_rport := s_rport k; s_rip := s_rip k; s_conn_id := s_conn_id k |}.

Definition with_remote (rport rip : Z) (k : sock) : sock :=
  {| s_bound := s_bound k; s_listening := s_listening k; s_connected := s_connected k; s_type := s_type k;
     s_lport := s_lport k; s_rport := rport; s_rip := rip; s_conn_id := s_conn_id k |}.

Definition connected (k : sock) : sock :=
  {| s_bound := s_bound k; s_listening := s_listening k; s_connected := true; s_type := s_type k;
     s_lport := s_lport k; s_rport := s_rport k; s_rip := s_rip k; s_conn_id := s_conn_id k |}.

Definition with_conn (id : Z) (k : sock) : sock :=
  {| s_bound := s_bound k; s_listening := s_listening k; s_connected := s_connected k; s_type := s_type k;
     s_lport := s_lport k; s_rport := s_rport k; s_rip := s_rip k; s_conn_id := id |}.

(** A store to fields of row [i]. *)
Definition upd_sock (i : Z) (g : sock → sock) (s : io) : io :=
  let f := get_fd i s in set_fd i (with_sock (g (f_sock f)) f) s.

Definition sys_socket (domain type : Z) (s : io) : Z * io :=
  if negb (domain =? 2)
     || (negb (type =? QOS_SOCK_STREAM) && negb (type =? QOS_SOCK_DGRAM) && negb (type =? QOS_SOCK_RAW)) then (-1, s)
  else
    let '(i, s1) := fd_alloc KSocket s in
    if i <? 0 then (-1, s1) else (i, upd_sock i (with_type (u8 type)) s1).

(** [qos_net_udp_bind] of a marked port; the mark is taken back on failure. *)
Definition bind_udp (port : Z) (s : io) : bool * io :=
  let '(r, u) := qos_net_udp_bind port (n_udp (io_net s)) in
  let s1 := with_udp_io u s in
  if r =? 0 then (true, s1) else (false, with_ports (socket_port_unmark QOS_SOCK_DGRAM port (io_ports s1)) s1).

Definition sys_bind (i : Z) (addr : option (list Z)) (len : Z) (s : io) : Z * io :=
  let k := f_sock (get_fd i s) in
  if negb (fd_valid i s) || negb (is_socket (get_fd i s)) || s_bound k then (-1, s)
  else
    match parse_sockaddr addr len true with
    | None => (-1, s)
    | Some (port, _) =>
        if s_type k =? QOS_SOCK_RAW then (0, upd_sock i (bound_to port) s)
        else
          let '(r, ps) := socket_port_mark (s_type k) port (io_ports s) in
          let s1 := with_ports ps s in
          if negb (r =? 0) then (-1, s1)
          else
            let '(ok, s2) := if s_type k =? QOS_SOCK_DGRAM then bind_udp port s1 else (true, s1) in
            if ok then (0, upd_sock i (bound_to port) s2) else (-1, s2)
    end.

Definition with_backlog (n : Z) (q : backlog) : backlog :=
  {| s_pending := s_pending q; s_backlog := n; s_head := s_head q; s_tail := s_tail q; s_q := s_q q; s_last := s_last q |}.

Definition sys_listen (i a1 : Z) (s : io) : Z * io :=
  let f := get_fd i s in
  let k := f_sock f in
  if negb (fd_valid i s) || negb (is_socket f) || negb (s_type k =? QOS_SOCK_STREAM) || negb (s_bound k)
     || (s_lport k =? 0) || (a1 =? 0) then (-1, s)
  else
    let n := if Z.of_nat QOS_SOCK_PENDING_MAX <? u32 a1 then Z.of_nat QOS_SOCK_PENDING_MAX else u32 a1 in
    if n =? 0 then (-1, s)
    else
      let '(id, t) := qos_net_tcp_listen (s_lport k) (n_tcp (io_net s)) in
      let s1 := with_tcp_io t s in
      if id <? 0 then (-1, s1)
      else (0, set_fd i (with_queue (with_backlog (u8 n) (f_queue f)) (with_sock (listening k) f)) s1).

(** ** Connecting *)

Definition with_last (p : pending) (q : backlog) : backlog :=
  {| s_pending := s_pending q; s_backlog := s_backlog q; s_head := s_head q; s_tail := s_tail q; s_q := s_q q; s_last := p |}.

(** What ACCEPT writes to the address ([addr]: the pointer is not NULL) and to
    the length, whose current value is [addrlen]. *)
Definition accept_out (addr : bool) (addrlen : option Z) (p : pending) : option (list Z) * option Z :=
  match addrlen with
  | None => (None, None)
  | Some n =>
      if addr then if 16 <=? n then (Some (write_sockaddr (q_rport p) (q_rip p)), Some 16) else (None, Some 0)
      else (None, Some 0)
  end.

Definition sys_accept (i : Z) (addr : bool) (addrlen : option Z) (s : io) : Z * (option (list Z) * option Z) * io :=
  let f := get_fd i s in
  let k := f_sock f in
  if negb (fd_valid i s) || negb (is_socket f) || negb (s_type k =? QOS_SOCK_STREAM) || negb (s_listening k)
     || (s_pending (f_queue f) =? 0)%nat then (-1, (None, None), s)
  else
    let '(n, s1) := fd_alloc KSocket s in
    if n <? 0 then (-1, (None, None), s1)
    else
      match socket_pending_pop i s1 with
      | (0, Some p, s2) =>
          let lport := s_lport (f_sock (get_fd i s2)) in
          let s3 := upd_sock n (λ k, with_conn (q_conn_id p) (with_remote (q_rport p) (q_rip p)
                                       (with_type QOS_SOCK_STREAM (connected (bound_to lport k))))) s2 in
          let f3 := get_fd i s3 in
          (n, accept_out addr addrlen p, set_fd i (with_queue (with_last p (f_queue f3)) f3) s3)
      | (_, _, s2) => (-1, (None, None), fd_clear n s2)
      end.

(** The first listening socket on [port] other than [i]. *)
Definition find_listener (i port : Z) (s : io) : option nat :=
  first_index (λ x, negb (Z.of_nat x.1 =? i) && listens_on port x.2) (imap pair (io_fds s)).

(** A local port: the socket's own or a new one; [true] when it is new. *)
Definition local_port (i t : Z) (s : io) : Z * bool * io :=
  let port := s_lport (f_sock (get_fd i s)) in
  if port =? 0 then let '(p, ps) := socket_port_alloc t (io_ports s) in (p, negb (p =? 0), with_ports ps s)
  else (port, false, s).

Definition release_port (fresh : bool) (t port : Z) (s : io) : io :=
  if fresh then with_ports (socket_port_unmark t port (io_ports s)) s else s.

Definition connect_stream (i rport rip : Z) (s : io) : Z * io :=
  match find_listener i rport s with
  | None =>
      if negb (rip =? QOS_NET_IPV4_GATEWAY) then (-1, s)
      else
        let '(lport, _, s1) := local_port i QOS_SOCK_STREAM s in
        if lport =? 0 then (-1, s1)
        else (0, upd_sock i (λ k, with_conn (-1) (with_remote rport rip (connected (bound_to lport k)))) s1)
  | Some l =>
      let q := f_queue (get_fd (Z.of_nat l) s) in
      if (s_backlog q =? 0) || (s_backlog q <=? Z.of_nat (s_pending q)) then (-1, s)
      else
        let '(lport, fresh, s1) := local_port i QOS_SOCK_STREAM s in
        if lport =? 0 then (-1, s1)
        else
          let '(id, t) := qos_net_tcp_connect lport rip rport (n_tcp (io_net s1)) in
          let s2 := with_tcp_io t s1 in
          if id <? 0 then (-1, release_port fresh QOS_SOCK_STREAM lport s2)
          else
            let '(r, t) := qos_net_tcp_step id EVT_RX_SYN_ACK (n_tcp (io_net s2)) in
            let s3 := with_tcp_io t s2 in
            if negb (r =? 0) then (-1, release_port fresh QOS_SOCK_STREAM lport s3)
            else
              let s4 := upd_sock i (λ k, with_conn (i16 id) (with_remote rport rip (connected (bound_to lport k)))) s3 in
              let '(r, s5) := socket_pending_push (Z.of_nat l) lport QOS_NET_IPV4_LOCAL (i16 id) s4 in
              if negb (r =? 0) then (-1, release_port fresh QOS_SOCK_STREAM lport s5) else (0, s5)
  end.

(** A datagram socket gets a local port when it has none; [None] is failure. *)
Definition autobind_dgram (i : Z) (s : io) : bool * io :=
  let '(lport, fresh, s1) := local_port i QOS_SOCK_DGRAM s in
  if lport =? 0 then (false, s1)
  else if fresh then
    let '(ok, s2) := bind_udp lport s1 in
    if ok then (true, upd_sock i (bound_to lport) s2) else (false, s2)
  else (true, s1).

Definition connect_dgram (i rport rip : Z) (s : io) : Z * io :=
  let '(ok, s1) := autobind_dgram i s in
  if ok then (0, upd_sock i (λ k, with_remote rport rip (connected k)) s1) else (-1, s1).

Definition connect_raw (i rport rip : Z) (s : io) : Z * io :=
  let lport := s_lport (f_sock (get_fd i s)) in
  let lport := if lport =? 0 then 1 else lport in
  (0, upd_sock i (λ k, with_remote rport rip (connected (bound_to lport k))) s).

Definition sys_connect (i : Z) (addr : option (list Z)) (len : Z) (s : io) : Z * io :=
  let f := get_fd i s in
  if negb (fd_valid i s) || negb (is_socket f) then (-1, s)
  else
    match parse_sockaddr addr len false with
    | None => (-1, s)
    | Some (rport, rip) =>
        let t := s_type (f_sock f) in
        if t =? QOS_SOCK_STREAM then connect_stream i rport rip s
        else if t =? QOS_SOCK_DGRAM then connect_dgram i rport rip s
        else if t =? QOS_SOCK_RAW then connect_raw i rport rip s
        else (-1, s)
    end.

(** ** The simulated host behind the gateway *)

Definition k_prefix : list Z := bytes_of "GET ".

Definition k_resp : list Z :=
  bytes_of "HTTP/1.0 200 OK" ++ [13; 10] ++ bytes_of "Content-Length: 4" ++ [13; 10; 13; 10] ++ bytes_of "qos" ++ [10].

(** A stream to the gateway has no connection in the TCP table. *)
Definition to_gateway (k : sock) : bool :=
  (s_type k =? QOS_SOCK_STREAM) && (s_conn_id k <? 0) && (s_rip k =? QOS_NET_IPV4_GATEWAY).

Definition with_stream (len : Z) (buf : list Z) (b : sock_io) : sock_io :=
  {| s_stream_len := len; s_stream_buf := buf; s_raw_len := s_raw_len b; s_raw_src_ip := s_raw_src_ip b; s_raw_buf := s_raw_buf b |}.

Definition with_raw (len src_ip : Z) (buf : list Z) (b : sock_io) : sock_io :=
  {| s_stream_len := s_stream_len b; s_stream_buf := s_stream_buf b; s_raw_len := len; s_raw_src_ip := src_ip; s_raw_buf := buf |}.

Definition upd_sock_io (i : Z) (g : sock_io → sock_io) (s : io) : io :=
  let f := get_fd i s in set_fd i (with_sock_io (g (f_io f)) f) s.

Definition stream_host_response_prepare (i : Z) (req : option (list Z)) (req_len : Z) (s : io) : Z * io :=
  let resp_len := Z.of_nat (length k_resp) in
  match req with
  | None => (-1, s)
  | Some bytes =>
      if (Z.of_nat QOS_FD_MAX <=? i) || (req_len <? Z.of_nat (length k_prefix))
         || negb (bool_decide (take (length k_prefix) bytes = k_prefix)) || (Packet.QOS_NET_MAX_PACKET <? resp_len) then (-1, s)
      else (0, upd_sock_io i (λ b, with_stream (u16 resp_len) (memcpy (s_stream_buf b) k_resp (length k_resp)) b) s)
  end.

(** Reading the response: the bytes copied out. *)
Definition stream_host_read (i len : Z) (s : io) : Z * list Z * io :=
  let b := f_io (get_fd i s) in
  let got := s_stream_len b in
  if got =? 0 then (-1, [], s)
  else
    let copy_len := if len <? got then len else got in
    let n := Z.to_nat copy_len in
    let remain := got - copy_len in
    let r := Z.to_nat remain in
    let buf := if negb (remain =? 0) then memcpy (s_stream_buf b) (drop n (s_stream_buf b)) r else s_stream_buf b in
    (copy_len, take n (s_stream_buf b),
     upd_sock_io i (with_stream (u16 remain) (take r buf ++ replicate (Z.to_nat Packet.QOS_NET_MAX_PACKET - r) 0)) s).

(** ** Raw sockets *)

(** An echo request to [rip]; the reply is kept for the next read. *)
Definition raw_send (i rport rip : Z) (src : option (list Z)) (len : Z) (s : io) : Z * io :=
  if (rip =? 0) || (Packet.QOS_NET_MAX_PACKET <? len) then (-1, s)
  else
    let '(got, reply, src_ip) := qos_net_icmp_echo rip src len true Packet.QOS_NET_MAX_PACKET in
    if got <? 0 then (-1, s)
    else
      (len, upd_sock_io i (λ b, with_raw (u16 got) (default 0 src_ip) (memcpy (s_raw_buf b) reply (length reply)) b)
              (upd_sock i (with_remote rport rip) s)).

Definition raw_recv (i len : Z) (s : io) : Z * list Z * Z * io :=
  let b := f_io (get_fd i s) in
  let got := s_raw_len b in
  if (got =? 0) || (len <? got) then (-1, [], 0, s)
  else
    (got, take (Z.to_nat got) (s_raw_buf b), s_raw_src_ip b,
     upd_sock_io i (with_raw 0 0 (replicate (Z.to_nat Packet.QOS_NET_MAX_PACKET) 0)) s).

(** ** Transfers *)

Definition enqueue (src : option (list Z)) (len : Z) (s : io) : Z * io :=
  let '(r, p) := qos_net_enqueue_packet src len (n_packets (io_net s)) in
  (if r =? 0 then len else -1, with_packets_io p s).

Definition dequeue (len : Z) (s : io) : Z * list Z * io :=
  let '(r, out, p) := qos_net_dequeue_packet true len (n_packets (io_net s)) in (r, out, with_packets_io p s).

Definition udp_send_io (lport rport : Z) (src : option (list Z)) (len : Z) (s : io) : Z * io :=
  let '(r, u) := qos_net_udp_send lport QOS_NET_IPV4_LOCAL rport src len (n_udp (io_net s)) in (r, with_udp_io u s).

(** SYSCALL_OP_WRITE on a socket; [src] is not NULL. *)
Definition write_socket (i : Z) (src : list Z) (len : Z) (s : io) : Z * io :=
  let k := f_sock (get_fd i s) in
  if negb (s_connected k) || (len =? 0) then (-1, s)
  else if to_gateway k then
    let '(r, s1) := stream_host_response_prepare i (Some src) len s in (if negb (r =? 0) then -1 else len, s1)
  else if s_type k =? QOS_SOCK_RAW then raw_send i (s_rport k) (s_rip k) (Some src) len s
  else if s_type k =? QOS_SOCK_DGRAM then
    if (s_lport k =? 0) || (s_rport k =? 0) || (s_rip k =? 0) then (-1, s)
    else udp_send_io (s_lport k) (s_rport k) (Some src) len s
  else enqueue (Some src) len s.

(** SYSCALL_OP_READ on a socket: the bytes copied out. *)
Definition read_socket (i len : Z) (s : io) : Z * list Z * io :=
  let k := f_sock (get_fd i s) in
  if negb (s_connected k) || (len =? 0) then (-1, [], s)
  else if to_gateway k then stream_host_read i len s
  else if s_type k =? QOS_SOCK_RAW then let '(r, out, _, s1) := raw_recv i len s in (r, out, s1)
  else if s_type k =? QOS_SOCK_DGRAM then
    if s_lport k =? 0 then (-1, [], s)
    else
      let '(r, out, u) := qos_net_udp_recv (s_lport k) true len (n_udp (io_net s)) in
      (r, match out with Some (bytes, _, _) => bytes | None => [] end, with_udp_io u s)
  else dequeue len s.

(** The destination of an unconnected send: the address argument. *)
Definition destination (k : sock) (addr : option (list Z)) : option (Z * Z) :=
  if s_connected k then Some (s_rport k, s_rip k) else parse_sockaddr addr 16 false.

Definition sys_send (i : Z) (buf : option (list Z)) (len : Z) (addr : option (list Z)) (s : io) : Z * io :=
  let f := get_fd i s in
  let k := f_sock f in
  if negb (fd_valid i s) || negb (is_socket f) || bool_decide (buf = None) || (len =? 0) then (-1, s)
  else if (s_type k =? QOS_SOCK_STREAM) && negb (s_connected k) then (-1, s)
  else if s_type k =? QOS_SOCK_RAW then
    match destination k addr with
    | None => (-1, s)
    | Some (rport, rip) => raw_send i rport rip buf len s
    end
  else if s_type k =? QOS_SOCK_DGRAM then
    match destination k addr with
    | None => (-1, s)
    | Some (rport, rip) =>
        let '(ok, s1) := autobind_dgram i s in
        if negb ok then (-1, s1)
        else if (rport =? 0) || (rip =? 0) then (-1, s1)
        else
          let s2 := upd_sock i (with_remote rport rip) s1 in
          udp_send_io (s_lport (f_sock (get_fd i s2))) rport buf len s2
    end
  else if to_gateway k then
    let '(r, s1) := stream_host_response_prepare i buf len s in (if negb (r =? 0) then -1 else len, s1)
  else enqueue buf len s.

(** SYSCALL_OP_RECV: result, bytes, the source address written when [addr]. *)
Definition sys_recv (i : Z) (buf : bool) (len : Z) (addr : bool) (s : io) : Z * list Z * option (list Z) * io :=
  let f := get_fd i s in
  let k := f_sock f in
  let from port ip := if addr then Some (write_sockaddr port ip) else None in
  if negb (fd_valid i s) || negb (is_socket f) || negb buf || (len =? 0) then (-1, [], None, s)
  else if (s_type k =? QOS_SOCK_STREAM) && negb (s_connected k) then (-1, [], None, s)
  else if s_type k =? QOS_SOCK_RAW then
    let '(r, out, src_ip, s1) := raw_recv i len s in (r, out, if r <? 0 then None else from 1 src_ip, s1)
  else if s_type k =? QOS_SOCK_DGRAM then
    if s_lport k =? 0 then (-1, [], None, s)
    else
      match qos_net_udp_recv (s_lport k) true len (n_udp (io_net s)) with
      | (r, Some (bytes, src_ip, src_port), u) => (r, bytes, from src_port src_ip, with_udp_io u s)
      | (_, None, u) => (-1, [], None, with_udp_io u s)
      end
  else if to_gateway k then let '(r, out, s1) := stream_host_read i len s in (r, out, None, s1)
  else let '(r, out, s1) := dequeue len s in (r, out, None, s1).
