(* ===== verification/SocketState.v ===== *)
(** * Socket names

    Three tables hold what sockets reserve: the port bitmaps of syscall.c and the
    UDP and TCP tables of net.c.  A reservation exists exactly while some open
    socket holds it, over every descriptor call. *)

From S2P Require Import Prelude SlotTable Packet Udp Tcp Net Ports Fds Sockets Lifetimes.

(** ** Reservations *)

Inductive key := KPort (t p : Z) | KUdp (p : Z) | KTcp (p : Z).

#[export] Instance key_eq_dec : EqDecision key.
Proof. solve_decision. Defined.

(** A descriptor holds its port, and a UDP binding or a TCP listener with it. *)
Definition holds (k : key) (f : fd) : bool :=
  match k with
  | KPort t p => has_ports t && binds_port p t f
  | KUdp p => binds_port p QOS_SOCK_DGRAM f
  | KTcp p => listens_on p f
  end.

(** The tables have the reservation. *)
Definition marked (s : io) (k : key) : Prop :=
  match k with
  | KPort t p => has_ports t = true ∧ port_valid p = true ∧ bit_set (bitmap_of t (io_ports s)) p = true
  | KUdp p => udp_port_is_bound p (n_udp (io_net s)) = true
  | KTcp p => tcp_listener_exists p (n_tcp (io_net s)) = true
  end.

Record tables_wf (s : io) : Prop := {
  tw_ports : ∃ m, ports_rel (io_ports s) m;
  tw_udp : unique_keys (Udp.ports (n_udp (io_net s)));
  tw_tcp : unique_keys (listeners (n_tcp (io_net s)))
}.

(** [s'] has the same tables as [s] except for the reservations [P]. *)
Definition gains (P : key → Prop) (s s' : io) : Prop :=
  tables_wf s' ∧ io_fds s' = io_fds s ∧ ∀ k, marked s' k ↔ marked s k ∨ P k.
Definition loses (P : key → Prop) (s s' : io) : Prop :=
  tables_wf s' ∧ io_fds s' = io_fds s ∧ ∀ k, marked s' k ↔ marked s k ∧ ¬ P k.

Lemma gains_none s : tables_wf s → gains (λ _, False) s s.
Proof. intros Hs. split; [done|]. split; [done|]. tauto. Qed.

Lemma loses_none s : tables_wf s → loses (λ _, False) s s.
Proof. intros Hs. split; [done|]. split; [done|]. tauto. Qed.

(** *** Ports *)

Lemma ports_rel_marked s m t p : ports_rel (io_ports s) m → marked s (KPort t p) ↔ (t, p) ∈ m.
Proof. intros HR. cbn. by rewrite (pr_set _ _ HR). Qed.

Lemma with_ports_marked s ps m m' (P : key → Prop) :
  ports_rel (io_ports s) m → ports_rel ps m' → tables_wf s →
  (∀ k, P k → ∃ t p, k = KPort t p) →
  (∀ t p, (t, p) ∈ m' ↔ (t, p) ∈ m ∨ P (KPort t p)) → gains P s (with_ports ps s).
Proof.
  intros HR HR' [_ Hu Ht] HP Hm. split; [by split; [exists m'|..]|]. split; [done|]. intros k. destruct k as [t p|p|p].
  - rewrite (ports_rel_marked (with_ports ps s) m'), (ports_rel_marked s m), Hm by done. done.
  - split; [by left|]. intros [?|HPk]; [done|]. by destruct (HP _ HPk) as (? & ? & ?).
  - split; [by left|]. intros [?|HPk]; [done|]. by destruct (HP _ HPk) as (? & ? & ?).
Qed.

Lemma mark_gains t p s :
  tables_wf s →
  let '(r, ps) := socket_port_mark t p (io_ports s) in
  if r =? 0 then gains (eq (KPort t p)) s (with_ports ps s) ∧ ¬ marked s (KPort t p) ∧ port_valid p = true ∧ has_ports t = true
  else gains (λ _, False) s (with_ports ps s).
Proof.
  intros Hs. destruct (tw_ports s Hs) as [m HR]. pose proof (mark_refines t p _ m HR) as H.
  destruct (socket_port_mark t p (io_ports s)) as [r ps]. cbn [port_spec] in H.
  destruct (has_ports t) eqn:Et, (port_valid p) eqn:Ep; cbn [andb] in H; try (
    destruct H as [-> HR']; apply (with_ports_marked s ps m m); [done|done|done|done|tauto]).
  case_bool_decide as Hn; destruct H as [-> HR']; cbn [Z.eqb].
  - split; [|by rewrite (ports_rel_marked s m)].
    apply (with_ports_marked s ps m ({[(t, p)]} ∪ m)); [done|done|done|naive_solver|]. set_solver.
  - apply (with_ports_marked s ps m m); [done|done|done|done|tauto].
Qed.

Lemma unmark_loses t p s :
  tables_wf s → loses (eq (KPort t p)) s (with_ports (socket_port_unmark t p (io_ports s)) s).
Proof.
  intros Hs. pose proof Hs as [[m HR] Hu Ht]. pose proof (unmark_refines t p _ m HR) as HR'.
  split; [by split; [eexists|..]|]. split; [done|]. intros k. destruct k as [t' p'|p'|p']; [|cbn; naive_solver..].
  rewrite (ports_rel_marked (with_ports _ s) _ _ _ HR'), (ports_rel_marked s m) by done. set_solver.
Qed.

Lemma alloc_gains t s :
  tables_wf s → has_ports t = true →
  let '(p, ps) := socket_port_alloc t (io_ports s) in
  if p =? 0 then gains (λ _, False) s (with_ports ps s)
  else gains (eq (KPort t p)) s (with_ports ps s) ∧ ¬ marked s (KPort t p) ∧ port_valid p = true.
Proof.
  intros Hs Ht. destruct (tw_ports s Hs) as [m HR]. pose proof (port_alloc_refines t _ m HR Ht) as H.
  destruct (socket_port_alloc t (io_ports s)) as [p ps]. destruct H as [[-> HR']|(Hp & Hn & HR')].
  - cbn [Z.eqb]. apply (with_ports_marked s ps m m); [done|done|done|done|tauto].
  - assert (p ≠ 0) as Hp0 by (intros ->; done). rewrite (proj2 (Z.eqb_neq p 0) Hp0). split; [|by rewrite (ports_rel_marked s m)].
    apply (with_ports_marked s ps m ({[(t, p)]} ∪ m)); [done|done|done|naive_solver|]. set_solver.
Qed.

(** *** UDP bindings and TCP listeners *)

Lemma bound_marked s p : marked s (KUdp p) ↔ p ∈ dom (table_map (Udp.ports (n_udp (io_net s)))).
Proof. cbn. unfold udp_port_is_bound. by rewrite find_key_dom, bool_decide_eq_true. Qed.

Lemma listener_marked s p : marked s (KTcp p) ↔ p ∈ dom (table_map (listeners (n_tcp (io_net s)))).
Proof. cbn. unfold tcp_listener_exists. by rewrite find_key_dom, bool_decide_eq_true. Qed.

Lemma with_udp_gains u s d :
  tables_wf s → unique_keys (Udp.ports u) →
  (dom (table_map (Udp.ports u)) = d ∪ dom (table_map (Udp.ports (n_udp (io_net s))))) →
  gains (λ k, ∃ p, k = KUdp p ∧ p ∈ d) s (with_udp_io u s).
Proof.
  intros [HR _ Ht] Hu Hd. split; [by split|]. split; [done|]. intros k. destruct k as [t p|p|p]; [cbn; naive_solver| |cbn; naive_solver].
  rewrite !bound_marked. cbn [with_udp_io with_net io_net with_udp n_udp]. rewrite Hd. set_solver.
Qed.

Lemma with_tcp_gains t s d :
  tables_wf s → unique_keys (listeners t) →
  (dom (table_map (listeners t)) = d ∪ dom (table_map (listeners (n_tcp (io_net s))))) →
  gains (λ k, ∃ p, k = KTcp p ∧ p ∈ d) s (with_tcp_io t s).
Proof.
  intros [HR Hu _] Ht Hd. split; [by split|]. split; [done|]. intros k. destruct k as [t' p|p|p]; [cbn; naive_solver..|].
  rewrite !listener_marked. cbn [with_tcp_io with_net io_net with_tcp n_tcp]. rewrite Hd. set_solver.
Qed.

Lemma gains_ext (P Q : key → Prop) s s' : (∀ k, P k ↔ Q k) → gains P s s' → gains Q s s'.
Proof. intros HPQ (? & ? & H). split; [done|]. split; [done|]. intros k. by rewrite H, HPQ. Qed.

(** The datagrams change, the bindings do not. *)
Lemma udp_same_ports u s : tables_wf s → Udp.ports u = Udp.ports (n_udp (io_net s)) → gains (λ _, False) s (with_udp_io u s).
Proof.
  intros Hs Hu. eapply gains_ext; [|apply (with_udp_gains u s ∅ Hs)].
  - set_solver.
  - rewrite Hu. apply tw_udp, Hs.
  - rewrite Hu. set_solver.
Qed.

Lemma tcp_same_listeners t s :
  tables_wf s → listeners t = listeners (n_tcp (io_net s)) → gains (λ _, False) s (with_tcp_io t s).
Proof.
  intros Hs Hl. eapply gains_ext; [|apply (with_tcp_gains t s ∅ Hs)].
  - set_solver.
  - rewrite Hl. apply tw_tcp, Hs.
  - rewrite Hl. set_solver.
Qed.

Lemma udp_bind_gains p s :
  tables_wf s →
  let '(r, u) := qos_net_udp_bind p (n_udp (io_net s)) in
  if r =? 0 then gains (eq (KUdp p)) s (with_udp_io u s) else gains (λ _, False) s (with_udp_io u s).
Proof.
  intros Hs. unfold qos_net_udp_bind. set (u := n_udp (io_net s)). destruct (_ || _) eqn:E; [by apply udp_same_ports|].
  apply orb_false_iff in E as [_ Hb]. unfold udp_port_is_bound in Hb.
  destruct (free_slot (Udp.ports u)) as [i|] eqn:Ei; [|by apply udp_same_ports]. cbn [Z.eqb].
  destruct (find_key p (Udp.ports u)) eqn:Ef; [done|]. destruct (free_slot_Some _ _ Ei) as (b & Hbi & Hbu). set (a := {| u_used := true |}).
  destruct (table_map_alloc _ _ _ a (tw_udp s Hs) Hbi Hbu eq_refl Ef) as [Hu Hm]. fold u in Hm.
  eapply gains_ext; [|apply (with_udp_gains _ s {[p]} Hs)]; [|done|].
  - intros k. split; [intros (q & -> & ?); set_solver|intros <-; set_solver].
  - cbn [Udp.ports]. rewrite Hm, dom_insert_L. done.
Qed.

Lemma tcp_listen_gains p s :
  tables_wf s →
  let '(id, t) := qos_net_tcp_listen p (n_tcp (io_net s)) in
  if id <? 0 then gains (λ _, False) s (with_tcp_io t s) else gains (eq (KTcp p)) s (with_tcp_io t s).
Proof.
  intros Hs. unfold qos_net_tcp_listen. set (t := n_tcp (io_net s)). destruct (_ || _) eqn:E; [by apply tcp_same_listeners|].
  apply orb_false_iff in E as [_ Hb]. unfold tcp_listener_exists in Hb.
  destruct (free_slot (listeners t)) as [i|] eqn:Ei; [|by apply tcp_same_listeners]. rewrite (proj2 (Z.ltb_ge _ _)) by lia.
  destruct (find_key p (listeners t)) eqn:Ef; [done|]. destruct (free_slot_Some _ _ Ei) as (b & Hbi & Hbu). set (a := {| l_used := true |}).
  destruct (table_map_alloc _ _ _ a (tw_tcp s Hs) Hbi Hbu eq_refl Ef) as [Hu Hm]. fold t in Hm.
  eapply gains_ext; [|apply (with_tcp_gains _ s {[p]} Hs)]; [|done|].
  - intros k. split; [intros (q & -> & ?); set_solver|intros <-; set_solver].
  - cbn [listeners]. rewrite Hm, dom_insert_L. done.
Qed.

Lemma udp_unbind_loses p s :
  tables_wf s → loses (eq (KUdp p)) s (with_udp_io (qos_net_udp_unbind p (n_udp (io_net s))).2 s).
Proof.
  intros [HR Hu Ht]. set (u := n_udp (io_net s)) in *.
  assert (unique_keys (Udp.ports (qos_net_udp_unbind p u).2)
    ∧ dom (table_map (Udp.ports (qos_net_udp_unbind p u).2)) = dom (table_map (Udp.ports u)) ∖ {[p]}) as [Hu' Hd].
  { unfold qos_net_udp_unbind. destruct (find_key p (Udp.ports u)) as [i|] eqn:Ef.
    - destruct (table_map_release _ _ _ port_zero Hu Ef) as [Hu' Hm]. { done. }
      assert (∀ v, Udp.ports (udp_drop_port_datagrams p v) = Udp.ports v) as Hp.
      { intros v. unfold udp_drop_port_datagrams. destruct (drop_loop _ _ _ _ _) as [dst ds]. by destruct (clear_loop _ _ _). }
      cbn [snd]. rewrite Hp. cbn [Udp.ports]. rewrite Hm, dom_delete_L. done.
    - split; [done|]. cbn [snd]. pose proof (table_map_None (Udp.ports u) p) as HN. rewrite Ef, <- not_elem_of_dom in HN. set_solver. }
  split; [by split|]. split; [done|]. intros k. destruct k as [t' q|q|q]; [cbn; naive_solver| |cbn; naive_solver].
  rewrite !bound_marked. cbn [with_udp_io with_net io_net with_udp n_udp]. fold u. rewrite Hd. set_solver.
Qed.

Lemma tcp_unlisten_loses p s :
  tables_wf s → loses (eq (KTcp p)) s (with_tcp_io (qos_net_tcp_unlisten p (n_tcp (io_net s))).2 s).
Proof.
  intros [HR Hu Ht]. set (t := n_tcp (io_net s)) in *.
  assert (unique_keys (listeners (qos_net_tcp_unlisten p t).2)
    ∧ dom (table_map (listeners (qos_net_tcp_unlisten p t).2)) = dom (table_map (listeners t)) ∖ {[p]}) as [Hu' Hd].
  { unfold qos_net_tcp_unlisten. destruct (find_key p (listeners t)) as [i|] eqn:Ef.
    - destruct (table_map_release _ _ _ listener_zero Ht Ef) as [Hu' Hm]. { done. }
      cbn [snd listeners]. rewrite Hm, dom_delete_L. done.
    - split; [done|]. cbn [snd]. pose proof (table_map_None (listeners t) p) as HN. rewrite Ef, <- not_elem_of_dom in HN. set_solver. }
  split; [by split|]. split; [done|]. intros k. destruct k as [t' q|q|q]; [cbn; naive_solver..|].
  rewrite !listener_marked. cbn [with_tcp_io with_net io_net with_tcp n_tcp]. fold t. rewrite Hd. set_solver.
Qed.

(** ** The invariant *)

Definition row_ok (f : fd) : Prop :=
  f_used f = true → is_socket f = true →
  (s_bound (f_sock f) = false → s_lport (f_sock f) = 0)
  ∧ (s_listening (f_sock f) = true → s_bound (f_sock f) = true ∧ s_type (f_sock f) = QOS_SOCK_STREAM)
  ∧ 0 <= s_backlog (f_queue f) <= 16.

Record sinv (s : io) : Prop := {
  si_len : length (io_fds s) = QOS_FD_MAX;
  si_rows : Forall row_ok (io_fds s);
  si_tables : tables_wf s;
  si_exact : ∀ k, marked s k ↔ existsb (holds k) (io_fds s) = true
}.

(** Row [i] changes, and gains the reservations made for it. *)
Lemma sinv_take P s s' i old x :
  sinv s → gains P s s' → io_fds s !! Z.to_nat i = Some old → row_ok x →
  (∀ k, holds k old = true → holds k x = true) → (∀ k, P k → holds k x = true) →
  (∀ k, holds k x = true → marked s k ∨ P k) → sinv (set_fd i x s').
Proof.
  intros [Hl Hr Ht He] (Ht' & Hf & Hm) Hi Hx Hold HP Hcov. split; cbn [set_fd with_fds io_fds]; rewrite ?Hf.
  - by rewrite length_insert.
  - by apply Forall_insert.
  - destruct Ht'. by split.
  - intros k. change (marked s' k ↔ existsb (holds k) (<[Z.to_nat i:=x]> (io_fds s)) = true). rewrite Hm.
    destruct (holds k x) eqn:Ex.
    + rewrite existsb_insert_true by (done || by eapply lookup_lt_Some). specialize (Hcov k Ex). tauto.
    + assert (holds k old = false) as Eo by (apply not_true_iff_false; intros E; by rewrite (Hold k E) in Ex).
      rewrite (existsb_insert _ _ _ _ old Hi) by congruence. rewrite He. split; [|by left].
      intros [?|HPk]; [done|]. by rewrite (HP k HPk) in Ex.
Qed.

(** A row whose reservations do not change. *)
Lemma sinv_touch s s' i old x :
  sinv s → gains (λ _, False) s s' → io_fds s !! Z.to_nat i = Some old → row_ok x →
  (∀ k, holds k x = holds k old) → sinv (set_fd i x s').
Proof.
  intros Hs Hg Hi Hx Hh. apply (sinv_take (λ _, False) s s' i old x); try done.
  - intros k. by rewrite Hh.
  - intros k. rewrite Hh. intros Hk. left. apply (si_exact s Hs), existsb_exists. exists old. split; [|done].
    by apply list_elem_of_In, (list_elem_of_lookup_2 _ (Z.to_nat i)).
Qed.

(** Only the tables change, to the same reservations. *)
Lemma sinv_same s s' : sinv s → gains (λ _, False) s s' → sinv s'.
Proof.
  intros [Hl Hr Ht He] (Ht' & Hf & Hm). split; rewrite ?Hf; try done. intros k. rewrite Hm, <- He. tauto.
Qed.

(** Row [i] is cleared and its last reservations are given back. *)
Lemma sinv_drop s s' i f :
  sinv s → io_fds s !! i = Some f → io_fds s' = <[i:=fd_zero]> (io_fds s) → tables_wf s' →
  (∀ k, marked s' k ↔ marked s k ∧ ¬ (holds k f = true ∧ existsb (holds k) (<[i:=fd_zero]> (io_fds s)) = false)) → sinv s'.
Proof.
  intros [Hl Hr Ht He] Hi Hf Ht' Hm. split; rewrite ?Hf; try done.
  - by rewrite length_insert.
  - by apply Forall_insert.
  - intros k. rewrite Hm, He. destruct (holds k f) eqn:Ef.
    + assert (existsb (holds k) (io_fds s) = true) as ->.
      { apply existsb_exists. exists f. split; [|done]. by apply list_elem_of_In, (list_elem_of_lookup_2 _ i). }
      destruct (existsb _ (<[_:=_]> _)); intuition congruence.
    + rewrite (existsb_insert _ _ _ _ f Hi); [intuition congruence|]. rewrite Ef. symmetry. destruct k; cbn; apply andb_false_r || done.
Qed.

Lemma holds_zero k : holds k fd_zero = false.
Proof. destruct k; cbn; [apply andb_false_r|done|done]. Qed.

Lemma holds_port t p f :
  f_used f = true → has_ports t = true →
  holds (KPort t p) f = true ↔ is_socket f = true ∧ s_bound (f_sock f) = true ∧ s_type (f_sock f) = t ∧ s_lport (f_sock f) = p.
Proof. intros Hu Ht. cbn. unfold binds_port, is_socket. rewrite Ht, Hu. cbn. rewrite !andb_true_iff, !Z.eqb_eq. tauto. Qed.

Lemma holds_udp p f :
  f_used f = true →
  holds (KUdp p) f = true ↔ is_socket f = true ∧ s_bound (f_sock f) = true ∧ s_type (f_sock f) = QOS_SOCK_DGRAM ∧ s_lport (f_sock f) = p.
Proof. intros Hu. cbn. unfold binds_port, is_socket. rewrite Hu. cbn. rewrite !andb_true_iff, !Z.eqb_eq. tauto. Qed.

Lemma holds_tcp p f :
  f_used f = true →
  holds (KTcp p) f = true ↔ is_socket f = true ∧ s_type (f_sock f) = QOS_SOCK_STREAM ∧ s_listening (f_sock f) = true ∧ s_lport (f_sock f) = p.
Proof. intros Hu. cbn. unfold listens_on, is_socket. rewrite Hu. cbn. rewrite !andb_true_iff, !Z.eqb_eq. tauto. Qed.

Lemma existsb_port t p fds : has_ports t = true → existsb (holds (KPort t p)) fds = existsb (binds_port p t) fds.
Proof. intros Ht. induction fds as [|f fds IH]; [done|]. cbn [existsb]. rewrite IH. cbn [holds]. by rewrite Ht. Qed.

Lemma loses_if (c : bool) k0 s s1 :
  tables_wf s → loses (eq k0) s s1 → loses (λ k, c = true ∧ k = k0) s (if c then s1 else s).
Proof.
  intros Ht (Ht1 & Hf & Hm). destruct c; (split; [done|]; split; [done|]); intros k.
  - rewrite Hm. naive_solver.
  - naive_solver.
Qed.

Lemma loses_trans P Q s s1 s2 : loses P s s1 → loses Q s1 s2 → loses (λ k, P k ∨ Q k) s s2.
Proof. intros (_ & Hf & Hm) (? & Hf' & Hm'). split; [done|]. split; [congruence|]. intros k. rewrite Hm', Hm. tauto. Qed.

(** The descriptor's part of [fd_clear]: what row [f] gives back of the tables. *)
Lemma give_back s f fds :
  tables_wf s → io_fds s = fds → f_used f = true →
  let sk := f_sock f in
  let s4 := if is_socket f && (s_type sk =? QOS_SOCK_STREAM) && s_listening sk && negb (existsb (listens_on (s_lport sk)) fds)
            then with_tcp_io (qos_net_tcp_unlisten (s_lport sk) (n_tcp (io_net s))).2 s else s in
  let s5 := if s_type sk =? QOS_SOCK_DGRAM then with_udp_io (qos_net_udp_unbind (s_lport sk) (n_udp (io_net s4))).2 s4 else s4 in
  let s6 := if is_socket f && s_bound sk && negb (existsb (binds_port (s_lport sk) (s_type sk)) fds)
            then with_ports (socket_port_unmark (s_type sk) (s_lport sk) (io_ports s5)) s5 else s4 in
  tables_wf s6 ∧ io_fds s6 = fds ∧ ∀ k, marked s6 k ↔ marked s k ∧ ¬ (holds k f = true ∧ existsb (holds k) fds = false).
Proof.
  intros Ht Hfds Hu sk s4 s5 s6.
  set (c4 := is_socket f && (s_type sk =? QOS_SOCK_STREAM) && _ && _) in s4.
  pose proof (loses_if c4 (KTcp (s_lport sk)) s _ Ht (tcp_unlisten_loses _ s Ht)) as (Ht4 & Hf4 & Hm4). fold s4 in Ht4, Hf4, Hm4.
  pose proof (loses_if (s_type sk =? QOS_SOCK_DGRAM) (KUdp (s_lport sk)) s4 _ Ht4 (udp_unbind_loses _ s4 Ht4)) as H5. fold s5 in H5.
  pose proof (loses_trans _ _ _ _ _ H5 (unmark_loses (s_type sk) (s_lport sk) s5 (proj1 H5))) as H6.
  set (c6 := is_socket f && s_bound sk && _) in s6.
  assert (Hs6 : tables_wf s6 ∧ io_fds s6 = fds) by (unfold s6; destruct c6; [destruct H6 as (? & E & _); split; [done|]; rewrite <- Hfds, <- Hf4; exact E|by rewrite Hf4, Hfds]).
  split; [apply Hs6|]. split; [apply Hs6|].
  assert (Hm6 : ∀ k, marked s6 k ↔ marked s4 k ∧ ¬ (c6 = true ∧ ((s_type sk =? QOS_SOCK_DGRAM) = true ∧ k = KUdp (s_lport sk) ∨ KPort (s_type sk) (s_lport sk) = k))).
  { intros k. unfold s6. destruct c6; [destruct H6 as (_ & _ & Hm); rewrite (Hm k)|]; naive_solver. }
  intros k. rewrite Hm6, Hm4. unfold c6, c4. rewrite !andb_true_iff, !negb_true_iff. clear -Hu. fold sk.
  destruct k as [t p|p|p].
  - destruct (has_ports t) eqn:Eh; [|cbn [marked]; intuition congruence].
    rewrite holds_port, existsb_port by done. split; [|naive_solver].
    intros [[Hm _] Hno]. split; [done|]. intros [(Hs & Hb & <- & <-) He]. apply Hno. naive_solver.
  - rewrite holds_udp by done. change (existsb (holds (KUdp p)) fds) with (existsb (binds_port p QOS_SOCK_DGRAM) fds).
    split.
    + intros [[Hm _] Hno]. split; [done|]. intros [(Hs & Hb & Hty & <-) He]. fold sk in Hty. apply Hno. rewrite Hty. naive_solver.
    + intros [Hm Hno]. split; [split; [done|naive_solver]|]. intros [[[Hs Hb] He] [[Hty%Z.eqb_eq Hk]|?]]; [|done].
      injection Hk as ->. apply Hno. rewrite Hty in He. by split.
  - rewrite holds_tcp by done. change (existsb (holds (KTcp p)) fds) with (existsb (listens_on p) fds). split.
    + intros [[Hm Hno] _]. split; [done|]. intros [(Hs & Hty & Hl & <-) He]. apply Hno. rewrite Z.eqb_eq. naive_solver.
    + intros [Hm Hno]. split; [|naive_solver]. split; [done|]. intros [[[[Hs Hty%Z.eqb_eq] Hl] He] Hk].
      injection Hk as ->. apply Hno. by split.
Qed.

Lemma fd_clear_sinv i s : 0 <= i → sinv s → sinv (fd_clear i s).
Proof.
  intros Hi Hs. unfold fd_clear. destruct (fd_valid i s) eqn:Hv; [|done]. cbn [negb].
  destruct (fd_valid_lookup i s (si_len s Hs) Hv Hi) as (f & Hf & Hu). rewrite (get_fd_lookup i f s Hf). fold (is_socket f).
  set (s2 := if (f_pipe_id f <? _) && _ then _ else _). set (s3 := if (f_file_id f <? _) && _ && _ && _ then _ else s2).
  set (fds := <[Z.to_nat i:=fd_zero]> (io_fds s)).
  assert (io_fds s3 = fds ∧ io_ports s3 = io_ports s ∧ io_net s3 = io_net s) as (E1 & E2 & E3).
  { unfold s3, file_drop. assert (io_fds s2 = fds ∧ io_ports s2 = io_ports s ∧ io_net s2 = io_net s) by (unfold s2; by destruct (_ && _)).
    destruct (_ && _ && _ && _); [|done]. by destruct (_ <=? _). }
  assert (Hm3 : ∀ k, marked s3 k ↔ marked s k) by (intros k; destruct k; cbn; by rewrite ?E2, ?E3).
  assert (Ht3 : tables_wf s3) by (destruct (si_tables s Hs); split; by rewrite ?E2, ?E3).
  pose proof (give_back s3 f fds Ht3 E1 Hu) as Hg. unfold with_tcp_io, with_udp_io in Hg. cbv zeta in Hg.
  unfold socket_listener_in_use, socket_port_in_use. rewrite E1. set (s4 := if is_socket f && _ && _ && _ then _ else s3) in *.
  assert (io_fds s4 = fds) as E4 by (unfold s4; by destruct (is_socket f && _ && _ && _)). rewrite E4.
  destruct Hg as (Ht6 & E6 & Hm6). apply (sinv_drop s _ (Z.to_nat i) f Hs Hf E6 Ht6). intros k. by rewrite Hm6, Hm3.
Qed.

(** ** Rows that hold nothing *)

Lemma unused_holds k f : f_used f = false → holds k f = false.
Proof. intros H. destruct k; cbn; unfold binds_port, listens_on; rewrite H; cbn; [apply andb_false_r|done|done]. Qed.

Lemma not_socket_holds k f : is_socket f = false → holds k f = false.
Proof.
  unfold is_socket. intros H. destruct k; cbn; unfold binds_port, listens_on; rewrite H, andb_false_r; cbn; [apply andb_false_r|done|done].
Qed.

(** A socket neither bound nor listening. *)
Lemma unnamed_holds k f : s_bound (f_sock f) = false → s_listening (f_sock f) = false → holds k f = false.
Proof.
  intros Hb Hl. destruct k; cbn; unfold binds_port, listens_on; by rewrite ?Hb, ?Hl, ?andb_false_r.
Qed.

Lemma row_lookup s i f : sinv s → io_fds s !! i = Some f → row_ok f.
Proof. intros Hs Hf. by apply (Forall_lookup_1 _ _ _ _ (si_rows s Hs) Hf). Qed.

(** A free row becomes one that holds nothing. *)
Lemma sinv_fresh i old x s :
  sinv s → io_fds s !! Z.to_nat i = Some old → f_used old = false → row_ok x → (∀ k, holds k x = false) → sinv (set_fd i x s).
Proof.
  intros Hs Hi Hu Hx Hh. apply (sinv_touch s s i old x); [done|apply gains_none, Hs|done|done|].
  intros k. by rewrite Hh, unused_holds.
Qed.

Lemma fd_alloc_sinv k s : sinv s → sinv (fd_alloc k s).2.
Proof.
  intros Hs. pose proof (fd_alloc_spec k s) as Ha. destruct (fd_alloc k s) as [r s']. cbn [snd].
  destruct Ha as [(_ & -> & _)|(i & f & _ & _ & Hf & Hu & ->)]; [done|].
  apply (sinv_fresh _ f); [done|by rewrite Nat2Z.id|done| |].
  - intros _ _. cbn. done.
  - intros q. by apply unnamed_holds.
Qed.
