(* ===== verification/SocketCalls.v ===== *)
(** * Socket calls keep the reservations exact

    Every descriptor call of syscall.c preserves the invariants of
    [Lifetimes.v] (files and pipes) and [SocketState.v] (ports, UDP bindings
    and TCP listeners). *)

From S2P Require Import Prelude SlotTable Packet Udp Tcp Net Ports Fds Sockets Lifetimes SocketState.

(** ** Steps between tables *)

Lemma gains_trans P Q s s1 s2 : gains P s s1 → gains Q s1 s2 → gains (λ k, P k ∨ Q k) s s2.
Proof. intros (_ & Hf & Hm) (? & Hf' & Hm'). split; [done|]. split; [congruence|]. intros k. rewrite Hm', Hm. tauto. Qed.

Lemma gains_undo k0 s s1 s2 : gains (eq k0) s s1 → ¬ marked s k0 → loses (eq k0) s1 s2 → gains (λ _, False) s s2.
Proof.
  intros (_ & Hf & Hm) Hno (? & Hf' & Hm'). split; [done|]. split; [congruence|]. intros k. rewrite Hm', Hm.
  destruct (decide (k0 = k)) as [<-|]; tauto.
Qed.

Lemma gains_then_none P s s1 s2 : gains P s s1 → gains (λ _, False) s1 s2 → gains P s s2.
Proof. intros H1 H2. eapply gains_ext; [|exact (gains_trans _ _ _ _ _ H1 H2)]. tauto. Qed.

Lemma packets_gains p s : tables_wf s → gains (λ _, False) s (with_packets_io p s).
Proof. intros []. split; [by split|]. split; [done|]. intros k. destruct k; cbn; tauto. Qed.

Lemma get_fd_same i s s' : io_fds s' = io_fds s → get_fd i s' = get_fd i s.
Proof. intros E. unfold get_fd. by rewrite E. Qed.

(** ** Updates that keep a socket's name *)

Record same_name (f x : fd) : Prop := {
  sn_used : f_used x = f_used f;
  sn_kind : f_kind x = f_kind f;
  sn_bound : s_bound (f_sock x) = s_bound (f_sock f);
  sn_listening : s_listening (f_sock x) = s_listening (f_sock f);
  sn_type : s_type (f_sock x) = s_type (f_sock f);
  sn_lport : s_lport (f_sock x) = s_lport (f_sock f);
  sn_backlog : s_backlog (f_queue x) = s_backlog (f_queue f)
}.

Lemma same_name_holds f x k : same_name f x → holds k x = holds k f.
Proof.
  intros [E1 E2 E3 E4 E5 E6 _]. destruct k; cbn; unfold binds_port, listens_on; by rewrite E1, E2, ?E3, ?E4, E5, E6.
Qed.

Lemma same_name_row f x : same_name f x → row_ok f → row_ok x.
Proof. intros [E1 E2 E3 E4 E5 E6 E7]. unfold row_ok, is_socket. by rewrite E1, E2, E3, E4, E5, E6, E7. Qed.

Lemma same_name_refl f : same_name f f.
Proof. by split. Qed.

Lemma sinv_rename s s' i x : sinv s → gains (λ _, False) s s' → same_name (get_fd i s) x → sinv (set_fd i x s').
Proof.
  intros Hs Hg Hx. pose proof Hg as (_ & Hf & _). destruct (io_fds s !! Z.to_nat i) as [f|] eqn:Hi.
  - rewrite (get_fd_lookup i f s Hi) in Hx. apply (sinv_touch s s' i f x Hs Hg Hi).
    + eapply same_name_row, row_lookup; done.
    + intros k. by apply same_name_holds.
  - assert (set_fd i x s' = s') as ->; [|by eapply sinv_same].
    unfold set_fd. rewrite Hf, list_insert_ge by (by apply lookup_ge_None_1). destruct s'. cbn in *. by rewrite <- Hf.
Qed.

Lemma sinv_upd_sock s s' i g :
  sinv s → gains (λ _, False) s s' → (∀ f, same_name f (with_sock (g (f_sock f)) f)) → sinv (upd_sock i g s').
Proof.
  intros Hs Hg Hn. unfold upd_sock. pose proof Hg as (_ & Hf & _). rewrite (get_fd_same i s s' Hf). by apply (sinv_rename s).
Qed.

Lemma sinv_upd_io s s' i g : sinv s → gains (λ _, False) s s' → sinv (upd_sock_io i g s').
Proof.
  intros Hs Hg. unfold upd_sock_io. pose proof Hg as (_ & Hf & _). rewrite (get_fd_same i s s' Hf).
  apply (sinv_rename s); [done|done|by split].
Qed.

(** ** Naming *)

Lemma raw_holds k f : s_type (f_sock f) = QOS_SOCK_RAW → holds k f = false.
Proof.
  intros Ht. apply not_true_iff_false. destruct (f_used f) eqn:Hu; [|by rewrite unused_holds]. destruct k as [t p|p|p]; intros H.
  - destruct (has_ports t) eqn:Ep; [|cbn in H; by rewrite Ep in H]. apply holds_port in H as (_ & _ & E & _); [|done|done].
    rewrite Ht in E. by subst t.
  - apply holds_udp in H as (_ & _ & E & _); [|done]. by rewrite Ht in E.
  - apply holds_tcp in H as (_ & E & _); [|done]. by rewrite Ht in E.
Qed.

(** What a bound socket that does not listen holds. *)
Lemma bound_holds k f :
  f_used f = true → is_socket f = true → s_bound (f_sock f) = true → s_listening (f_sock f) = false → has_ports (s_type (f_sock f)) = true →
  holds k f = true ↔ k = KPort (s_type (f_sock f)) (s_lport (f_sock f))
                     ∨ s_type (f_sock f) = QOS_SOCK_DGRAM ∧ k = KUdp (s_lport (f_sock f)).
Proof.
  intros Hu Hs Hb Hl Ht. destruct k as [t p|p|p].
  - destruct (has_ports t) eqn:Ep; [rewrite holds_port by done; naive_solver|]. split; [cbn; by rewrite Ep|].
    intros [[= -> ->]|[_ ?]]; [|done]. congruence.
  - rewrite holds_udp by done. naive_solver.
  - rewrite holds_tcp by done. split; [intros (_ & _ & E & _); congruence|naive_solver].
Qed.

(** A socket without a local port holds nothing. *)
Lemma unbound_row s i f :
  sinv s → io_fds s !! i = Some f → f_used f = true → is_socket f = true → has_ports (s_type (f_sock f)) = true →
  s_lport (f_sock f) = 0 → s_bound (f_sock f) = false ∧ s_listening (f_sock f) = false.
Proof.
  intros Hs Hi Hu Hk Ht Hl. destruct (row_lookup s i f Hs Hi Hu Hk) as (_ & Hlis & _).
  assert (s_bound (f_sock f) = false) as Hb.
  { apply not_true_iff_false. intros Hb. assert (holds (KPort (s_type (f_sock f)) 0) f = true) as Hh by (by apply holds_port).
    assert (marked s (KPort (s_type (f_sock f)) 0)) as (_ & Hv & _); [|done].
    apply (si_exact s Hs), existsb_exists. exists f. split; [|done]. by apply list_elem_of_In, (list_elem_of_lookup_2 _ i). }
  split; [done|]. apply not_true_iff_false. intros H. destruct (Hlis H). congruence.
Qed.

(** An unnamed socket takes the name reserved for it. *)
Lemma sinv_name P s s' i f x :
  sinv s → gains P s s' → io_fds s !! Z.to_nat i = Some f → f_used f = true → is_socket f = true →
  s_bound (f_sock f) = false → s_listening (f_sock f) = false →
  f_used x = true → is_socket x = true → s_bound (f_sock x) = true → s_listening (f_sock x) = false →
  has_ports (s_type (f_sock x)) = true → s_backlog (f_queue x) = s_backlog (f_queue f) →
  (∀ k, P k ↔ k = KPort (s_type (f_sock x)) (s_lport (f_sock x)) ∨ s_type (f_sock x) = QOS_SOCK_DGRAM ∧ k = KUdp (s_lport (f_sock x))) →
  sinv (set_fd i x s').
Proof.
  intros Hs Hg Hi Hu Hk Hb Hl Hu' Hk' Hb' Hl' Ht' Hq HP. destruct (row_lookup s _ f Hs Hi Hu Hk) as (_ & _ & Hback).
  apply (sinv_take P s s' i f x Hs Hg Hi).
  - intros _ _. rewrite Hb', Hl', Hq. split_and!; [done|done|lia|lia].
  - intros k. by rewrite unnamed_holds.
  - intros k Hkk. by apply bound_holds, HP.
  - intros k Hkk. right. apply HP. by apply bound_holds in Hkk.
Qed.

Lemma valid_row i s : sinv s → fd_valid i s = true → 0 <= i → ∃ f, io_fds s !! Z.to_nat i = Some f ∧ f_used f = true ∧ get_fd i s = f.
Proof.
  intros Hs Hv Hi. destruct (fd_valid_lookup i s (si_len s Hs) Hv Hi) as (f & Hf & Hu). exists f.
  by rewrite (get_fd_lookup i f s Hf).
Qed.

Lemma sys_socket_sinv d t s : sinv s → sinv (sys_socket d t s).2.
Proof.
  intros Hs. unfold sys_socket. destruct (_ || _); [done|]. pose proof (fd_alloc_sinv KSocket s Hs) as Hs1.
  pose proof (fd_alloc_spec KSocket s) as Ha. destruct (fd_alloc KSocket s) as [r s1]. cbn [snd] in Hs1.
  destruct Ha as [(-> & -> & _)|(i & f & -> & _ & Hf & _ & ->)]; [done|]. rewrite (proj2 (Z.ltb_ge _ _)) by lia. cbn [snd].
  apply lookup_lt_Some in Hf. unfold upd_sock. rewrite get_fd_set by lia.
  eapply (sinv_touch _ _ _ (fresh_fd KSocket) _ Hs1 (gains_none _ (si_tables _ Hs1))).
  - cbn. by rewrite Nat2Z.id, list_lookup_insert_eq.
  - done.
  - intros k. by rewrite !unnamed_holds.
Qed.

Lemma bind_udp_gains p s s0 :
  tables_wf s → gains (eq (KPort QOS_SOCK_DGRAM p)) s0 s → ¬ marked s0 (KPort QOS_SOCK_DGRAM p) →
  let '(ok, s') := bind_udp p s in
  if ok : bool then gains (λ k, k = KPort QOS_SOCK_DGRAM p ∨ k = KUdp p) s0 s' else gains (λ _, False) s0 s'.
Proof.
  intros Hs Hg Hno. unfold bind_udp. pose proof (udp_bind_gains p s Hs) as Hu. destruct (qos_net_udp_bind p _) as [r u].
  destruct (r =? 0).
  - eapply gains_ext; [|exact (gains_trans _ _ _ _ _ Hg Hu)]. intros k. naive_solver.
  - eapply gains_undo; [exact (gains_then_none _ _ _ _ Hg Hu)|done|]. apply unmark_loses, Hu.
Qed.

Lemma sys_bind_sinv i addr len s : 0 <= i → sinv s → sinv (sys_bind i addr len s).2.
Proof.
  intros Hi Hs. unfold sys_bind. destruct (fd_valid i s) eqn:Hv; [|done]. cbn [negb orb].
  destruct (valid_row i s Hs Hv Hi) as (f & Hf & Hu & ->). destruct (is_socket f) eqn:Hk; [|done].
  destruct (s_bound (f_sock f)) eqn:Hb; [done|]. cbn [negb orb]. destruct (parse_sockaddr addr len true) as [[port ip]|]; [|done].
  destruct (row_lookup s _ f Hs Hf Hu Hk) as (_ & Hlis & _).
  assert (s_listening (f_sock f) = false) as Hl by (apply not_true_iff_false; intros H; destruct (Hlis H); congruence).
  destruct (Z.eqb_spec (s_type (f_sock f)) QOS_SOCK_RAW) as [Hraw|Hraw].
  - cbn [snd]. unfold upd_sock. rewrite (get_fd_lookup i f s Hf).
    apply (sinv_touch s s i f); [done|apply gains_none, Hs|done| |intros k; by rewrite !raw_holds].
    intros _ _. cbn. destruct (row_lookup s _ f Hs Hf Hu Hk) as (_ & _ & ?). rewrite Hl. done.
  - pose proof (mark_gains (s_type (f_sock f)) port s (si_tables s Hs)) as Hm. destruct (socket_port_mark _ port _) as [r ps].
    destruct (r =? 0) eqn:Er; cbn [negb]; [|by apply (sinv_same s)]. destruct Hm as (Hg & Hno & Hport & Hty).
    destruct (Z.eqb_spec (s_type (f_sock f)) QOS_SOCK_DGRAM) as [Hd|Hd].
    + rewrite Hd in *. pose proof (bind_udp_gains port _ s (proj1 Hg) Hg Hno) as Hu2. destruct (bind_udp port _) as [[] s2]; [|by apply (sinv_same s)].
      cbn [snd]. unfold upd_sock. pose proof Hu2 as (_ & E & _). rewrite (get_fd_same i s s2 E), (get_fd_lookup i f s Hf).
      apply (sinv_name _ s s2 i f _ Hs Hu2); cbn; rewrite ?Hd; try done. intros k. naive_solver.
    + cbn [snd]. unfold upd_sock. rewrite (get_fd_same i s (with_ports ps s) eq_refl), (get_fd_lookup i f s Hf).
      apply (sinv_name _ s _ i f _ Hs Hg); cbn; try done. intros k. naive_solver.
Qed.

Lemma sys_listen_sinv i a1 s : 0 <= i → sinv s → sinv (sys_listen i a1 s).2.
Proof.
  intros Hi Hs. unfold sys_listen. destruct (fd_valid i s) eqn:Hv; [|done]. destruct (valid_row i s Hs Hv Hi) as (f & Hf & Hu & ->).
  destruct (negb true || negb (is_socket f) || _ || _ || _ || _) eqn:E; [done|]. rewrite !orb_false_iff, !negb_false_iff, Z.eqb_eq in E.
  destruct E as [[[[[_ Hk] Hty] Hb] _] _]. set (n := if Z.of_nat QOS_SOCK_PENDING_MAX <? u32 a1 then _ else _). destruct (n =? 0); [done|].
  pose proof (tcp_listen_gains (s_lport (f_sock f)) s (si_tables s Hs)) as Hg. destruct (qos_net_tcp_listen _ _) as [id t].
  destruct (id <? 0); [by apply (sinv_same s)|]. cbn [snd]. apply (sinv_take _ s _ i f _ Hs Hg Hf).
  - intros _ _. split_and!; [cbn; congruence|done|cbn..].
    + apply (wrap_range 8). lia.
    + assert (0 <= n <= 16); [|rewrite (wrap_small 8) by (unfold in_width; lia); lia]. unfold n. change (Z.of_nat QOS_SOCK_PENDING_MAX) with 16.
      pose proof (wrap_range 32 a1 ltac:(lia)) as [? _]. destruct (Z.ltb_spec 16 (u32 a1)); lia.
  - intros [t' p|p|p]; [done|done|]. rewrite !holds_tcp by done. cbn. naive_solver.
  - intros k <-. by apply holds_tcp.
  - intros k Hk'. destruct (holds k f) eqn:Eh.
    + left. apply (si_exact s Hs), existsb_exists. exists f. split; [|done]. by apply list_elem_of_In, (list_elem_of_lookup_2 _ (Z.to_nat i)).
    + right. destruct k as [t' p|p|p].
      * by change (holds (KPort t' p) f = true) in Hk'; congruence.
      * by change (holds (KUdp p) f = true) in Hk'; congruence.
      * apply holds_tcp in Hk' as (_ & _ & _ & E); [|done]. cbn in E. congruence.
Qed.

(** ** Accepting *)

Lemma marked_row s i f k : sinv s → io_fds s !! i = Some f → holds k f = true → marked s k.
Proof.
  intros Hs Hi Hk. apply (si_exact s Hs), existsb_exists. exists f. split; [|done].
  by apply list_elem_of_In, (list_elem_of_lookup_2 _ i).
Qed.

(** A free socket joins the name of row [i]. *)
Lemma sinv_join s n i f x g :
  sinv s → io_fds s !! Z.to_nat n = Some g → (∀ k, holds k g = false) →
  io_fds s !! i = Some f → f_used f = true → is_socket f = true → s_bound (f_sock f) = true → s_type (f_sock f) = QOS_SOCK_STREAM →
  f_used x = true → is_socket x = true → s_bound (f_sock x) = true → s_listening (f_sock x) = false → s_type (f_sock x) = QOS_SOCK_STREAM →
  s_lport (f_sock x) = s_lport (f_sock f) → s_backlog (f_queue x) = 0 → sinv (set_fd n x s).
Proof.
  intros Hs Hn Hg Hi Hu Hk Hb Ht Hu' Hk' Hb' Hl' Ht' Hp Hq.
  apply (sinv_take (λ _, False) s s n g x Hs (gains_none s (si_tables s Hs)) Hn).
  - intros _ _. rewrite Hb', Hl', Hq. split_and!; [done|done|lia|lia].
  - intros k. by rewrite Hg.
  - done.
  - intros k Hkx. left. apply (marked_row s i f k Hs Hi). apply bound_holds in Hkx; try done; [|by rewrite Ht'].
    rewrite Ht', Hp in Hkx. destruct Hkx as [->|[? _]]; [|done]. by apply holds_port.
Qed.

Lemma sys_accept_sinv i addr addrlen s : 0 <= i → sinv s → sinv (sys_accept i addr addrlen s).2.
Proof.
  intros Hi Hs. unfold sys_accept. destruct (fd_valid i s) eqn:Hv; [|done]. destruct (valid_row i s Hs Hv Hi) as (f & Hf & Hu & ->).
  destruct (negb true || negb (is_socket f) || _ || _ || _) eqn:E; [done|]. rewrite !orb_false_iff, !negb_false_iff, Z.eqb_eq in E.
  destruct E as [[[[_ Hk] Hty] Hl] Hpend]. destruct (row_lookup s _ f Hs Hf Hu Hk) as (_ & Hlis & _). destruct (Hlis Hl) as [Hb _].
  pose proof (fd_alloc_sinv KSocket s Hs) as Hs1. pose proof (fd_alloc_spec KSocket s) as Ha.
  destruct (fd_alloc KSocket s) as [r s1]. cbn [snd] in Hs1.
  destruct Ha as [(-> & -> & _)|(n & g & -> & _ & Hg & Hgu & ->)]; [done|]. rewrite (proj2 (Z.ltb_ge _ _)) by lia.
  pose proof (lookup_lt_Some _ _ _ Hg) as Hn. pose proof (lookup_lt_Some _ _ _ Hf) as Hli.
  assert (n ≠ Z.to_nat i) as Hne by (intros ->; congruence). set (s1 := set_fd _ _ s) in *.
  assert (E1 : get_fd i s1 = f) by (unfold s1; rewrite get_fd_set_ne by lia; by apply get_fd_lookup).
  unfold fd_valid in Hv. apply andb_true_iff in Hv as [Hlt%Z.ltb_lt _].
  unfold socket_pending_pop. rewrite E1, Hpend, (proj2 (Z.leb_gt _ _)) by done. cbn [orb].
  set (s2 := set_fd i _ s1). set (p := default pending_zero _).
  assert (Hs2 : sinv s2) by (apply (sinv_rename s1); [done|apply gains_none, Hs1|rewrite E1; by split]).
  assert (E2 : io_fds s2 !! n = Some (fresh_fd KSocket)).
  { cbn. rewrite list_lookup_insert_ne, Nat2Z.id, list_lookup_insert_eq by lia. done. }
  assert (E3 : io_fds s2 !! Z.to_nat i = Some (with_queue (queue_pop (f_queue f)) f)).
  { cbn. rewrite list_lookup_insert_eq; [done|]. by rewrite length_insert. }
  rewrite (get_fd_lookup i _ s2 E3). unfold upd_sock. rewrite (get_fd_lookup (Z.of_nat n) (fresh_fd KSocket) s2) by (by rewrite Nat2Z.id).
  set (x := with_sock _ (fresh_fd KSocket)). cbn [snd].
  assert (Hs3 : sinv (set_fd (Z.of_nat n) x s2)).
  { apply (sinv_join s2 _ (Z.to_nat i) (with_queue (queue_pop (f_queue f)) f) x (fresh_fd KSocket)); try done;
      [by rewrite Nat2Z.id|intros k; by apply unnamed_holds]. }
  apply (sinv_rename _ _ _ _ Hs3 (gains_none _ (si_tables _ Hs3))). by split.
Qed.

(** ** Local ports *)

Lemma local_port_gains i f t s :
  sinv s → get_fd i s = f → has_ports t = true →
  let '(p, fresh, s1) := local_port i t s in
  if p =? 0 then gains (λ _, False) s s1
  else if fresh : bool then gains (eq (KPort t p)) s s1 ∧ ¬ marked s (KPort t p) ∧ s_lport (f_sock f) = 0
  else s1 = s ∧ p = s_lport (f_sock f).
Proof.
  intros Hs Hf Ht. unfold local_port. rewrite Hf. destruct (Z.eqb_spec (s_lport (f_sock f)) 0) as [E|E].
  - pose proof (alloc_gains t s (si_tables s Hs) Ht) as H. destruct (socket_port_alloc t (io_ports s)) as [p ps].
    destruct (p =? 0) eqn:Ep; [done|]. cbn [negb]. naive_solver.
  - by rewrite (proj2 (Z.eqb_neq _ _) E).
Qed.

Lemma autobind_sinv i f s :
  0 <= i → sinv s → io_fds s !! Z.to_nat i = Some f → f_used f = true → is_socket f = true → s_type (f_sock f) = QOS_SOCK_DGRAM →
  sinv (autobind_dgram i s).2.
Proof.
  intros Hi Hs Hf Hu Hk Hty. unfold autobind_dgram. pose proof (local_port_gains i f QOS_SOCK_DGRAM s Hs (get_fd_lookup i f s Hf) eq_refl) as H.
  destruct (local_port i QOS_SOCK_DGRAM s) as [[p fresh] s1]. destruct (p =? 0) eqn:Ep; [by apply (sinv_same s)|].
  destruct fresh; [|destruct H as [-> _]; done]. destruct H as (Hg & Hno & Hl0).
  destruct (unbound_row s _ f Hs Hf Hu Hk) as [Hb Hl]; [by rewrite Hty|done|].
  pose proof (bind_udp_gains p s1 s (proj1 Hg) Hg Hno) as Hu2. destruct (bind_udp p s1) as [[] s2]; [|by apply (sinv_same s)].
  cbn [snd]. unfold upd_sock. pose proof Hu2 as (_ & E & _). rewrite (get_fd_same i s s2 E), (get_fd_lookup i f s Hf).
  apply (sinv_name _ s s2 i f _ Hs Hu2); cbn; rewrite ?Hty; try done. intros k. naive_solver.
Qed.

(** ** Connecting *)

Lemma find_listener_spec i port s l :
  find_listener i port s = Some l → ∃ g, io_fds s !! l = Some g ∧ Z.of_nat l ≠ i ∧ listens_on port g = true.
Proof.
  intros H. apply first_index_lookup in H as ([j g] & Hl & Hp). rewrite list_lookup_imap in Hl.
  destruct (io_fds s !! l) as [g'|] eqn:E; [|done]. injection Hl as <- <-. cbn in Hp.
  apply andb_true_iff in Hp as [Hne%negb_true_iff Hp]. exists g'. split; [done|]. split; [|done]. by apply Z.eqb_neq.
Qed.

(** Row [i] is a stream socket and [p] the local port it is about to use. *)
Record connecting (i : Z) (f : fd) (p : Z) (fresh : bool) (s s1 : io) : Prop := {
  cn_row : io_fds s !! Z.to_nat i = Some f;
  cn_used : f_used f = true;
  cn_sock : is_socket f = true;
  cn_type : s_type (f_sock f) = QOS_SOCK_STREAM;
  cn_port : p ≠ 0;
  cn_local : if fresh then gains (eq (KPort QOS_SOCK_STREAM p)) s s1 ∧ ¬ marked s (KPort QOS_SOCK_STREAM p) ∧ s_lport (f_sock f) = 0
             else s1 = s ∧ p = s_lport (f_sock f)
}.

Lemma connect_name i f p fresh s s1 s2 c rp rip :
  sinv s → connecting i f p fresh s s1 → gains (λ _, False) s1 s2 →
  sinv (upd_sock i (λ k, with_conn c (with_remote rp rip (connected (bound_to p k)))) s2).
Proof.
  intros Hs [Hf Hu Hk Hty Hp0 Hloc] Hg. unfold upd_sock. destruct fresh.
  - destruct Hloc as (Hg1 & Hno & Hl0). pose proof (gains_then_none _ _ _ _ Hg1 Hg) as Hg2. pose proof Hg2 as (_ & E & _).
    rewrite (get_fd_same i s s2 E), (get_fd_lookup i f s Hf). destruct (unbound_row s _ f Hs Hf Hu Hk) as [Hb Hl]; [by rewrite Hty|done|].
    apply (sinv_name _ s s2 i f _ Hs Hg2); cbn; rewrite ?Hty; try done. intros k. naive_solver.
  - destruct Hloc as [-> ->]. pose proof Hg as (_ & E & _). rewrite (get_fd_same i s s2 E), (get_fd_lookup i f s Hf).
    destruct (row_lookup s _ f Hs Hf Hu Hk) as (Hb & _ & _).
    assert (s_bound (f_sock f) = true) by (destruct (s_bound (f_sock f)); [done|by destruct Hp0; apply Hb]).
    apply (sinv_rename s); [done|done|]. rewrite (get_fd_lookup i f s Hf). by split.
Qed.

Lemma release_gains i f p fresh s s1 s2 :
  sinv s → connecting i f p fresh s s1 → gains (λ _, False) s1 s2 → gains (λ _, False) s (release_port fresh QOS_SOCK_STREAM p s2).
Proof.
  intros Hs [_ _ _ _ _ Hloc] Hg. unfold release_port. destruct fresh; [|by destruct Hloc as [-> _]].
  destruct Hloc as (Hg1 & Hno & _). eapply gains_undo; [exact (gains_then_none _ _ _ _ Hg1 Hg)|done|]. apply unmark_loses, Hg.
Qed.

Lemma tcp_connect_listeners a b c t : listeners (qos_net_tcp_connect a b c t).2 = listeners t.
Proof. unfold qos_net_tcp_connect. destruct (_ || _); [done|]. by destruct (free_slot _). Qed.

Lemma tcp_step_listeners id e t : listeners (qos_net_tcp_step id e t).2 = listeners t.
Proof. unfold qos_net_tcp_step. destruct (live_conn id t) as [[j c]|]; [|done]. by destruct (conn_step e c). Qed.

(** The last step of a local connection cannot fail: the listener has room. *)
Lemma push_ok l g p a c s :
  io_fds s !! l = Some g → (l < 256)%nat → (s_pending (f_queue g) < 16)%nat →
  socket_pending_push (Z.of_nat l) p a c s
  = (0, set_fd (Z.of_nat l) (with_queue (queue_push {| q_rport := p; q_rip := a; q_conn_id := c |} (f_queue g)) g) s).
Proof.
  intros Hg Hl Hp. unfold socket_pending_push. rewrite (get_fd_lookup (Z.of_nat l) g s) by (by rewrite Nat2Z.id).
  change (Z.of_nat QOS_FD_MAX) with 256. change QOS_SOCK_PENDING_MAX with 16%nat.
  by rewrite (proj2 (Z.leb_gt _ _)), (proj2 (Nat.leb_gt _ _)) by lia.
Qed.

Lemma connect_listener_sinv i f l g p fresh rp rip s s1 :
  sinv s → connecting i f p fresh s s1 → io_fds s !! l = Some g → Z.of_nat l ≠ i → 0 <= i → (s_pending (f_queue g) < 16)%nat →
  sinv (let '(id, t) := qos_net_tcp_connect p rip rp (n_tcp (io_net s1)) in
        let s2 := with_tcp_io t s1 in
        if id <? 0 then (-1, release_port fresh QOS_SOCK_STREAM p s2)
        else
          let '(r, t) := qos_net_tcp_step id EVT_RX_SYN_ACK (n_tcp (io_net s2)) in
          let s3 := with_tcp_io t s2 in
          if negb (r =? 0) then (-1, release_port fresh QOS_SOCK_STREAM p s3)
          else
            let s4 := upd_sock i (λ k, with_conn (i16 id) (with_remote rp rip (connected (bound_to p k)))) s3 in
            let '(r, s5) := socket_pending_push (Z.of_nat l) p QOS_NET_IPV4_LOCAL (i16 id) s4 in
            if negb (r =? 0) then (-1, release_port fresh QOS_SOCK_STREAM p s5) else (0, s5)).2.
Proof.
  intros Hs Hc Hg Hli Hi Hroom.
  assert (Ht1 : tables_wf s1 ∧ io_fds s1 = io_fds s).
  { destruct Hc as [_ _ _ _ _ Hloc]. destruct fresh; [by destruct Hloc as ((? & ? & _) & _)|]. destruct Hloc as [-> _]. by destruct Hs. }
  destruct Ht1 as [Ht1 E1]. pose proof (tcp_connect_listeners p rip rp (n_tcp (io_net s1))) as El.
  destruct (qos_net_tcp_connect p rip rp _) as [id t]. pose proof (tcp_same_listeners t s1 Ht1 El) as Hg2. cbv zeta.
  destruct (id <? 0); [apply (sinv_same s); [done|by eapply release_gains]|]. set (s2 := with_tcp_io t s1) in *.
  pose proof (tcp_step_listeners id EVT_RX_SYN_ACK (n_tcp (io_net s2))) as El2. destruct (qos_net_tcp_step id _ _) as [r t2].
  pose proof (gains_then_none _ _ _ _ Hg2 (tcp_same_listeners t2 s2 (proj1 Hg2) El2)) as Hg3. set (s3 := with_tcp_io t2 s2) in *.
  destruct (negb (r =? 0)); [apply (sinv_same s); [done|by eapply release_gains]|].
  pose proof (connect_name i f p fresh s s1 s3 (i16 id) rp rip Hs Hc Hg3) as Hs4. set (s4 := upd_sock i _ s3) in *.
  assert (E4 : io_fds s4 !! l = Some g) by (cbn; rewrite list_lookup_insert_ne by lia; by rewrite E1).
  assert (l < 256)%nat as Hl256 by (apply lookup_lt_Some in Hg; pose proof (si_len s Hs) as E; change QOS_FD_MAX with 256%nat in E; lia).
  rewrite (push_ok l g p _ _ s4 E4 Hl256 Hroom). cbn [negb Z.eqb snd].
  apply (sinv_rename s4); [done|apply gains_none, Hs4|]. rewrite (get_fd_lookup (Z.of_nat l) g s4) by (by rewrite Nat2Z.id). by split.
Qed.

Lemma sys_connect_sinv i addr len s : 0 <= i → sinv s → sinv (sys_connect i addr len s).2.
Proof.
  intros Hi Hs. unfold sys_connect. destruct (fd_valid i s) eqn:Hv; [|done]. cbn [negb orb].
  destruct (valid_row i s Hs Hv Hi) as (f & Hf & Hu & ->). destruct (is_socket f) eqn:Hk; [|done]. cbn [negb orb].
  destruct (parse_sockaddr addr len false) as [[rp rip]|]; [|done].
  destruct (Z.eqb_spec (s_type (f_sock f)) QOS_SOCK_STREAM) as [Hty|_]; [|destruct (Z.eqb_spec (s_type (f_sock f)) QOS_SOCK_DGRAM) as [Hty|_];
    [|destruct (Z.eqb_spec (s_type (f_sock f)) QOS_SOCK_RAW) as [Hty|_]; [|done]]].
  - unfold connect_stream. destruct (find_listener i rp s) as [l|] eqn:El.
    + destruct (find_listener_spec i rp s l El) as (g & Hg & Hli & Hlis). rewrite (get_fd_lookup (Z.of_nat l) g s) by (by rewrite Nat2Z.id).
      unfold listens_on in Hlis. rewrite !andb_true_iff in Hlis. destruct Hlis as [[[[Hgu Hgk] _] _] _].
      destruct (row_lookup s l g Hs Hg Hgu Hgk) as (_ & _ & Hback). destruct (_ || _) eqn:E; [done|].
      apply orb_false_iff in E as [_ Hroom%Z.leb_gt].
      pose proof (local_port_gains i f QOS_SOCK_STREAM s Hs (get_fd_lookup i f s Hf) eq_refl) as Hloc.
      destruct (local_port i QOS_SOCK_STREAM s) as [[p fresh] s1]. destruct (Z.eqb_spec p 0) as [->|Hp]; [by apply (sinv_same s)|].
      apply (connect_listener_sinv i f l g p fresh rp rip s s1); [done|by split|done|done|done|lia].
    + destruct (negb _); [done|]. pose proof (local_port_gains i f QOS_SOCK_STREAM s Hs (get_fd_lookup i f s Hf) eq_refl) as Hloc.
      destruct (local_port i QOS_SOCK_STREAM s) as [[p fresh] s1]. destruct (Z.eqb_spec p 0) as [->|Hp]; [by apply (sinv_same s)|].
      assert (Hc : connecting i f p fresh s s1) by (by split). apply (connect_name i f p fresh s s1 s1 _ _ _ Hs Hc), gains_none.
      destruct fresh; [by destruct Hloc as ((? & _) & _)|]. destruct Hloc as [-> _]. apply Hs.
  - unfold connect_dgram. pose proof (autobind_sinv i f s Hi Hs Hf Hu Hk Hty) as H. destruct (autobind_dgram i s) as [[] s1]; [|done].
    apply (sinv_upd_sock s1); [done|apply gains_none, H|by split].
  - unfold connect_raw. cbn [snd]. unfold upd_sock. rewrite (get_fd_lookup i f s Hf).
    destruct (row_lookup s _ f Hs Hf Hu Hk) as (_ & Hlis & Hback).
    apply (sinv_touch s s i f); [done|apply gains_none, Hs|done| |intros k; by rewrite !raw_holds].
    intros _ _. cbn. split_and!; [done| |lia|lia]. intros H. destruct (Hlis H) as [_ E]. by rewrite Hty in E.
Qed.

(** ** Transfers *)

Lemma enqueue_sinv src len s : sinv s → sinv (enqueue src len s).2.
Proof. intros Hs. unfold enqueue. destruct (qos_net_enqueue_packet _ _ _). apply (sinv_same s); [done|apply packets_gains, Hs]. Qed.

Lemma dequeue_sinv len s : sinv s → sinv (dequeue len s).2.
Proof. intros Hs. unfold dequeue. destruct (qos_net_dequeue_packet _ _ _) as [[? ?] ?]. apply (sinv_same s); [done|apply packets_gains, Hs]. Qed.

Lemma udp_send_sinv lp rp src len s : sinv s → sinv (udp_send_io lp rp src len s).2.
Proof.
  intros Hs. unfold udp_send_io.
  assert (∀ u, Udp.ports (qos_net_udp_send lp QOS_NET_IPV4_LOCAL rp src len u).2 = Udp.ports u) as H.
  { intros u. unfold qos_net_udp_send. destruct src; [|done]. destruct (_ || _); [done|]. destruct (negb _); [done|].
    by destruct (_ <=? _)%nat. }
  specialize (H (n_udp (io_net s))). destruct (qos_net_udp_send _ _ _ _ _ _) as [r u]. apply (sinv_same s); [done|].
  by apply udp_same_ports; [apply Hs|].
Qed.

Lemma udp_recv_sinv lp out len s : sinv s → sinv (with_udp_io (qos_net_udp_recv lp out len (n_udp (io_net s))).2 s).
Proof.
  intros Hs. apply (sinv_same s); [done|]. apply udp_same_ports; [apply Hs|]. unfold qos_net_udp_recv.
  destruct (_ || _); [done|]. destruct (first_index _ _); [|done]. by destruct (_ <? _).
Qed.

Lemma host_write_sinv i req len s : sinv s → sinv (stream_host_response_prepare i req len s).2.
Proof.
  intros Hs. unfold stream_host_response_prepare. destruct req; [|done]. destruct (_ || _); [done|].
  apply (sinv_upd_io s); [done|apply gains_none, Hs].
Qed.

Lemma host_read_sinv i len s : sinv s → sinv (stream_host_read i len s).2.
Proof.
  intros Hs. unfold stream_host_read. destruct (_ =? 0); [done|]. apply (sinv_upd_io s); [done|apply gains_none, Hs].
Qed.

Lemma raw_send_sinv i rp rip src len s : sinv s → sinv (raw_send i rp rip src len s).2.
Proof.
  intros Hs. unfold raw_send. destruct (_ || _); [done|]. destruct (qos_net_icmp_echo _ _ _ _ _) as [[got reply] ip].
  destruct (_ <? 0); [done|]. cbn [snd].
  assert (H : sinv (upd_sock i (with_remote rp rip) s)) by (apply (sinv_upd_sock s); [done|apply gains_none, Hs|by split]).
  apply (sinv_upd_io _ _ _ _ H), gains_none, H.
Qed.

Lemma raw_recv_sinv i len s : sinv s → sinv (raw_recv i len s).2.
Proof.
  intros Hs. unfold raw_recv. destruct (_ || _); [done|]. apply (sinv_upd_io s); [done|apply gains_none, Hs].
Qed.

Lemma write_socket_sinv i src len s : sinv s → sinv (write_socket i src len s).2.
Proof.
  intros Hs. unfold write_socket. destruct (_ || _); [done|]. destruct (to_gateway _).
  { pose proof (host_write_sinv i (Some src) len s Hs). by destruct (stream_host_response_prepare _ _ _ _). }
  destruct (_ =? _); [by apply raw_send_sinv|]. destruct (_ =? _); [|by apply enqueue_sinv].
  destruct (_ || _); [done|]. by apply udp_send_sinv.
Qed.

Lemma read_socket_sinv i len s : sinv s → sinv (read_socket i len s).2.
Proof.
  intros Hs. unfold read_socket. destruct (_ || _); [done|]. destruct (to_gateway _); [by apply host_read_sinv|].
  destruct (_ =? _). { pose proof (raw_recv_sinv i len s Hs). by destruct (raw_recv _ _ _) as [[[? ?] ?] ?]. }
  destruct (_ =? _); [|by apply dequeue_sinv]. destruct (_ =? 0); [done|].
  pose proof (udp_recv_sinv (s_lport (f_sock (get_fd i s))) true len s Hs). by destruct (qos_net_udp_recv _ _ _ _) as [[? ?] ?].
Qed.

Lemma sys_send_sinv i buf len addr s : 0 <= i → sinv s → sinv (sys_send i buf len addr s).2.
Proof.
  intros Hi Hs. unfold sys_send. destruct (fd_valid i s) eqn:Hv; [|done].
  destruct (valid_row i s Hs Hv Hi) as (f & Hf & Hu & ->). destruct (is_socket f) eqn:Hk; [|done].
  destruct (_ || _); [done|]. destruct (_ && _); [done|]. destruct (_ =? _).
  { destruct (destination _ _) as [[rp rip]|]; [by apply raw_send_sinv|done]. }
  destruct (Z.eqb_spec (s_type (f_sock f)) QOS_SOCK_DGRAM) as [Hty|_].
  - destruct (destination _ _) as [[rp rip]|]; [|done]. pose proof (autobind_sinv i f s Hi Hs Hf Hu Hk Hty) as H.
    destruct (autobind_dgram i s) as [[] s1]; [|done]. cbn [negb]. destruct (_ || _); [done|]. apply udp_send_sinv.
    apply (sinv_upd_sock s1); [done|apply gains_none, H|by split].
  - destruct (to_gateway _); [|by apply enqueue_sinv].
    pose proof (host_write_sinv i buf len s Hs). by destruct (stream_host_response_prepare _ _ _ _).
Qed.

Lemma sys_recv_sinv i buf len addr s : sinv s → sinv (sys_recv i buf len addr s).2.
Proof.
  intros Hs. unfold sys_recv. destruct (_ || _); [done|]. destruct (_ && _); [done|]. destruct (_ =? _).
  { pose proof (raw_recv_sinv i len s Hs). by destruct (raw_recv _ _ _) as [[[? ?] ?] ?]. }
  destruct (_ =? _).
  - destruct (_ =? 0); [done|]. pose proof (udp_recv_sinv (s_lport (f_sock (get_fd i s))) true len s Hs).
    by destruct (qos_net_udp_recv _ _ _ _) as [[? [[[? ?] ?]|]] ?].
  - destruct (to_gateway _).
    + pose proof (host_read_sinv i len s Hs). by destruct (stream_host_read _ _ _) as [[? ?] ?].
    + pose proof (dequeue_sinv len s Hs). by destruct (dequeue _ _) as [[? ?] ?].
Qed.
