(* ===== verification/Descriptors.v ===== *)
(** * The descriptor layer

    All descriptor calls together: after any sequence of them the file and pipe
    slots ([Lifetimes.v]) and the socket reservations ([SocketState.v]) are
    exactly those the open descriptors account for. *)

From S2P Require Import Prelude SlotTable Packet Udp Tcp Net Ports Fds Sockets Lifetimes SocketState SocketCalls.

(** ** Calls on sockets own no files or pipes *)

Record same_owner (f x : fd) : Prop := {
  so_used : f_used x = f_used f;
  so_kind : f_kind x = f_kind f;
  so_pipe : f_pipe_id x = f_pipe_id f;
  so_file : f_file_id x = f_file_id f
}.

Record sock_only (s s' : io) : Prop := {
  so_fds : Forall2 same_owner (io_fds s) (io_fds s');
  so_files : io_files s' = io_files s;
  so_pipes : io_pipes s' = io_pipes s
}.

#[export] Instance same_owner_preorder : PreOrder same_owner.
Proof. split; [by intros f|]. intros x y z [] []. split; congruence. Qed.

#[export] Instance sock_only_preorder : PreOrder sock_only.
Proof.
  split; [by intros s|]. intros s1 s2 s3 [F1 ? ?] [F2 ? ?]. split; [by transitivity (io_fds s2)|congruence|congruence].
Qed.

Lemma sock_only_refl s : sock_only s s.
Proof. reflexivity. Qed.

(** The tables may differ, and row [i] in its socket fields. *)
Lemma sock_only_set s s' i x :
  sock_only s s' → same_owner (get_fd i s') x → sock_only s (set_fd i x s').
Proof.
  intros H Hx. transitivity s'; [done|]. destruct (io_fds s' !! Z.to_nat i) as [f|] eqn:Hi.
  - rewrite (get_fd_lookup i f s' Hi) in Hx. split; [|done|done]. cbn [set_fd with_fds io_fds].
    rewrite <- (list_insert_id (io_fds s') (Z.to_nat i) f) at 1 by done. by apply Forall2_insert.
  - split; [|done|done]. cbn [set_fd with_fds io_fds]. by rewrite list_insert_ge by (by apply lookup_ge_None_1).
Qed.

Lemma sock_only_ports s s' p : sock_only s s' → sock_only s (with_ports p s').
Proof. by intros []. Qed.

Lemma sock_only_net s s' n : sock_only s s' → sock_only s (with_net n s').
Proof. by intros []. Qed.

Lemma sock_only_upd s s' i g : sock_only s s' → sock_only s (upd_sock i g s').
Proof. intros H. apply sock_only_set; [done|by split]. Qed.

Lemma sock_only_upd_io s s' i g : sock_only s s' → sock_only s (upd_sock_io i g s').
Proof. intros H. apply sock_only_set; [done|by split]. Qed.

Create HintDb sock.
#[export] Hint Resolve sock_only_refl sock_only_ports sock_only_net sock_only_upd sock_only_upd_io : sock.

Lemma sock_only_holds s s' :
  sock_only s s' → ∀ id, existsb (holds_file id) (io_fds s') = existsb (holds_file id) (io_fds s)
                         ∧ existsb (holds_pipe id) (io_fds s') = existsb (holds_pipe id) (io_fds s).
Proof.
  intros [H _ _] id. induction H as [|f x l l' [E1 E2 E3 E4] _ [IH1 IH2]]; [done|]. cbn [existsb].
  unfold holds_file at 1 3, holds_pipe at 1 3. by rewrite E1, E2, E3, E4, IH1, IH2.
Qed.

Lemma sock_only_ok s s' : sock_only s s' → io_ok s → io_ok s'.
Proof.
  intros Hso [[Hn Hnf Hnp Hlf Hlp Hids] Htf Htp]. pose proof (sock_only_holds s s' Hso) as Hh. destruct Hso as [HF Ef Ep].
  assert (Hrow : ∀ i x, io_fds s' !! i = Some x → ∃ f, io_fds s !! i = Some f ∧ same_owner f x).
  { intros i x Hx. by destruct (Forall2_lookup_r _ _ _ _ _ HF Hx) as (f & ? & ?); exists f. }
  split; [split|..]; rewrite ?Ef, ?Ep; try done.
  - by rewrite <- (Forall2_length _ _ _ HF).
  - intros id g Hg. rewrite (proj1 (Hh _)). by apply Hlf.
  - intros id g Hg. rewrite (proj2 (Hh _)). by apply Hlp.
  - apply Forall_lookup. intros i x Hx. destruct (Hrow i x Hx) as (f & Hf & [_ _ E3 E4]). rewrite E3, E4.
    by apply (Forall_lookup_1 _ _ _ _ Hids Hf).
  - intros i x id Hx Hid. destruct (Hrow i x Hx) as (f & Hf & [E1 E2 E3 E4]). apply (Htf i f id Hf).
    revert Hid. unfold holds_file. by rewrite E1, E2, E4.
  - intros i x id Hx Hid. destruct (Hrow i x Hx) as (f & Hf & [E1 E2 E3 E4]). apply (Htp i f id Hf).
    revert Hid. unfold holds_pipe. by rewrite E1, E2, E3.
Qed.

Lemma sock_only_udp s s' u : sock_only s s' → sock_only s (with_udp_io u s').
Proof. apply sock_only_net. Qed.

Lemma sock_only_tcp s s' t : sock_only s s' → sock_only s (with_tcp_io t s').
Proof. apply sock_only_net. Qed.

Lemma sock_only_packets s s' p : sock_only s s' → sock_only s (with_packets_io p s').
Proof. apply sock_only_net. Qed.

Lemma sock_only_release c t p s s' : sock_only s s' → sock_only s (release_port c t p s').
Proof. intros H. destruct c; [by apply sock_only_ports|done]. Qed.

Lemma sock_only_push i a b c s s' : sock_only s s' → sock_only s (socket_pending_push i a b c s').2.
Proof. intros H. unfold socket_pending_push. destruct (_ || _); [done|]. apply sock_only_set; [done|by split]. Qed.

#[export] Hint Resolve sock_only_udp sock_only_tcp sock_only_packets sock_only_release sock_only_push : sock.


Lemma bind_udp_only p s s' : sock_only s s' → sock_only s (bind_udp p s').2.
Proof. intros H. unfold bind_udp. destruct (qos_net_udp_bind _ _). destruct (_ =? 0); cbn [snd]; auto with sock. Qed.

Lemma sys_bind_only i addr len s : sock_only s (sys_bind i addr len s).2.
Proof.
  unfold sys_bind. destruct (_ || _); [done|]. destruct (parse_sockaddr _ _ _) as [[port ip]|]; [|done].
  destruct (_ =? QOS_SOCK_RAW); [cbn [snd]; auto with sock|]. destruct (socket_port_mark _ _ _) as [r ps].
  destruct (negb _); [cbn [snd]; auto with sock|]. destruct (_ =? QOS_SOCK_DGRAM); [|cbn [snd]; auto with sock].
  pose proof (bind_udp_only port s (with_ports ps s)) as H. destruct (bind_udp _ _) as [[] s2]; cbn [snd] in *; auto with sock.
Qed.

Lemma sys_listen_only i a1 s : sock_only s (sys_listen i a1 s).2.
Proof.
  unfold sys_listen. destruct (_ || _); [done|]. cbv zeta. destruct (_ =? 0); [done|]. destruct (qos_net_tcp_listen _ _) as [id t].
  destruct (_ <? 0); cbn [snd]; auto with sock. apply sock_only_set; [auto with sock|by split].
Qed.

Lemma local_port_only i t s : sock_only s (local_port i t s).2.
Proof. unfold local_port. destruct (_ =? 0); [|done]. destruct (socket_port_alloc _ _). cbn [snd]. auto with sock. Qed.

Lemma autobind_only i s : sock_only s (autobind_dgram i s).2.
Proof.
  unfold autobind_dgram. pose proof (local_port_only i QOS_SOCK_DGRAM s) as H. destruct (local_port _ _ _) as [[p fresh] s1]. cbn [snd] in H.
  destruct (p =? 0); [done|]. destruct fresh; [|done]. pose proof (bind_udp_only p s s1 H) as H2.
  destruct (bind_udp _ _) as [[] s2]; cbn [snd] in *; auto with sock.
Qed.

Lemma connect_stream_only i rp rip s : sock_only s (connect_stream i rp rip s).2.
Proof.
  unfold connect_stream. pose proof (local_port_only i QOS_SOCK_STREAM s) as H. destruct (find_listener _ _ _) as [l|].
  - destruct (_ || _); [done|]. destruct (local_port _ _ _) as [[p fresh] s1]. cbn [snd] in H. destruct (p =? 0); [done|].
    destruct (qos_net_tcp_connect _ _ _ _) as [id t]. cbv zeta. destruct (id <? 0); [cbn [snd]; auto with sock|].
    destruct (qos_net_tcp_step _ _ _) as [r t2]. destruct (negb (r =? 0)); [cbn [snd]; auto with sock|].
    match goal with |- context [socket_pending_push ?a ?b ?c ?d ?s4] => pose proof (sock_only_push a b c d s s4) as Hp end.
    destruct (socket_pending_push _ _ _ _ _) as [r3 s5]. cbn [snd] in Hp. destruct (negb (r3 =? 0)); cbn [snd]; auto 10 with sock.
  - destruct (negb _); [done|]. destruct (local_port _ _ _) as [[p fresh] s1]. cbn [snd] in H. destruct (p =? 0); cbn [snd]; auto with sock.
Qed.

Lemma sys_connect_only i addr len s : sock_only s (sys_connect i addr len s).2.
Proof.
  unfold sys_connect. destruct (_ || _); [done|]. destruct (parse_sockaddr _ _ _) as [[rp rip]|]; [|done].
  destruct (_ =? _); [apply connect_stream_only|]. destruct (_ =? _).
  - unfold connect_dgram. pose proof (autobind_only i s) as H. destruct (autobind_dgram i s) as [[] s1]; cbn [snd] in *; auto with sock.
  - destruct (_ =? _); [|done]. unfold connect_raw. cbn [snd]. auto with sock.
Qed.

Lemma enqueue_only src len s s' : sock_only s s' → sock_only s (enqueue src len s').2.
Proof. intros H. unfold enqueue. destruct (qos_net_enqueue_packet _ _ _). cbn [snd]. auto with sock. Qed.

Lemma dequeue_only len s : sock_only s (dequeue len s).2.
Proof. unfold dequeue. destruct (qos_net_dequeue_packet _ _ _) as [[? ?] ?]. cbn [snd]. auto with sock. Qed.

Lemma udp_send_only lp rp src len s s' : sock_only s s' → sock_only s (udp_send_io lp rp src len s').2.
Proof. intros H. unfold udp_send_io. destruct (qos_net_udp_send _ _ _ _ _ _). cbn [snd]. auto with sock. Qed.

Lemma host_write_only i req len s : sock_only s (stream_host_response_prepare i req len s).2.
Proof. unfold stream_host_response_prepare. destruct req; [|done]. destruct (_ || _); cbn [snd]; auto with sock. Qed.

Lemma host_read_only i len s : sock_only s (stream_host_read i len s).2.
Proof. unfold stream_host_read. destruct (_ =? 0); cbn [snd]; auto with sock. Qed.

Lemma raw_send_only i rp rip src len s : sock_only s (raw_send i rp rip src len s).2.
Proof.
  unfold raw_send. destruct (_ || _); [done|]. destruct (qos_net_icmp_echo _ _ _ _ _) as [[got reply] ip].
  destruct (_ <? 0); cbn [snd]; auto with sock.
Qed.

Lemma raw_recv_only i len s : sock_only s (raw_recv i len s).2.
Proof. unfold raw_recv. destruct (_ || _); cbn [snd]; auto with sock. Qed.

Lemma write_socket_only i src len s : sock_only s (write_socket i src len s).2.
Proof.
  unfold write_socket. destruct (_ || _); [done|]. destruct (to_gateway _).
  { pose proof (host_write_only i (Some src) len s). by destruct (stream_host_response_prepare _ _ _ _). }
  destruct (_ =? _); [apply raw_send_only|]. destruct (_ =? _); [|by apply enqueue_only].
  destruct (_ || _); [done|]. by apply udp_send_only.
Qed.

Lemma read_socket_only i len s : sock_only s (read_socket i len s).2.
Proof.
  unfold read_socket. destruct (_ || _); [done|]. destruct (to_gateway _); [apply host_read_only|].
  destruct (_ =? _). { pose proof (raw_recv_only i len s). by destruct (raw_recv _ _ _) as [[[? ?] ?] ?]. }
  destruct (_ =? _); [|apply dequeue_only]. destruct (_ =? 0); [done|].
  destruct (qos_net_udp_recv _ _ _ _) as [[? ?] ?]. cbn [snd]. auto with sock.
Qed.

Lemma sys_send_only i buf len addr s : sock_only s (sys_send i buf len addr s).2.
Proof.
  unfold sys_send. destruct (_ || _); [done|]. destruct (_ && _); [done|]. destruct (_ =? _).
  { destruct (destination _ _) as [[rp rip]|]; [apply raw_send_only|done]. }
  destruct (_ =? _).
  - destruct (destination _ _) as [[rp rip]|]; [|done]. pose proof (autobind_only i s) as H.
    destruct (autobind_dgram i s) as [[] s1]; [|done]. cbn [negb snd] in *. destruct (_ || _); [done|]. apply udp_send_only. auto with sock.
  - destruct (to_gateway _); [|by apply enqueue_only].
    pose proof (host_write_only i buf len s). by destruct (stream_host_response_prepare _ _ _ _).
Qed.

Lemma sys_recv_only i buf len addr s : sock_only s (sys_recv i buf len addr s).2.
Proof.
  unfold sys_recv. destruct (_ || _); [done|]. destruct (_ && _); [done|]. destruct (_ =? _).
  { pose proof (raw_recv_only i len s). by destruct (raw_recv _ _ _) as [[[? ?] ?] ?]. }
  destruct (_ =? _).
  - destruct (_ =? 0); [done|]. destruct (qos_net_udp_recv _ _ _ _) as [[? [[[? ?] ?]|]] ?]; cbn [snd]; auto with sock.
  - destruct (to_gateway _).
    + pose proof (host_read_only i len s). by destruct (stream_host_read _ _ _) as [[? ?] ?].
    + pose proof (dequeue_only len s). by destruct (dequeue _ _) as [[? ?] ?].
Qed.

Lemma fd_clear_io_ok i s : 0 <= i → io_ok s → io_ok (fd_clear i s).
Proof.
  intros Hi Hs. pose proof (sys_close_ok i s Hi Hs) as H. unfold sys_close in H. destruct (fd_valid i s) eqn:Hv; [done|].
  unfold fd_clear. by rewrite Hv.
Qed.

Lemma fd_alloc_socket_ok s : io_ok s → io_ok (fd_alloc KSocket s).2.
Proof.
  intros Hs. pose proof (fd_alloc_spec KSocket s) as Ha. destruct (fd_alloc KSocket s) as [r s1]. cbn [snd].
  destruct Ha as [(_ & -> & _)|(i & f & _ & _ & Hf & Hu & ->)]; [done|]. unfold set_fd. rewrite Nat2Z.id.
  by apply (claim_row_ok i f).
Qed.

Lemma sys_socket_ok d t s : io_ok s → io_ok (sys_socket d t s).2.
Proof.
  intros Hs. unfold sys_socket. destruct (_ || _); [done|]. pose proof (fd_alloc_socket_ok s Hs) as H1.
  destruct (fd_alloc KSocket s) as [i s1]. cbn [snd] in H1. destruct (i <? 0); [done|]. cbn [snd].
  eapply sock_only_ok; [|exact H1]. auto with sock.
Qed.

Lemma sys_accept_ok i addr addrlen s : io_ok s → io_ok (sys_accept i addr addrlen s).2.
Proof.
  intros Hs. unfold sys_accept. destruct (_ || _); [done|]. pose proof (fd_alloc_socket_ok s Hs) as H1.
  destruct (fd_alloc KSocket s) as [n s1]. cbn [snd] in H1. destruct (Z.ltb_spec n 0) as [|Hn]; [done|].
  assert (H2 : sock_only s1 (socket_pending_pop i s1).2).
  { unfold socket_pending_pop. destruct (_ || _); [done|]. apply sock_only_set; [done|by split]. }
  destruct (socket_pending_pop i s1) as [[r [p|]] s2]; cbn [snd] in H2; [destruct r|destruct r]; cbn [snd];
    try (apply fd_clear_io_ok; [lia|by eapply sock_only_ok]).
  eapply sock_only_ok; [|exact H1]. apply sock_only_set; [auto with sock|by split].
Qed.

(** ** Calls on files and pipes keep the reservations *)

Lemma sinv_tables s s' : io_fds s' = io_fds s → io_ports s' = io_ports s → io_net s' = io_net s → sinv s → sinv s'.
Proof.
  intros E1 E2 E3 [Hl Hr [Hp Hu Ht] He]. split; rewrite ?E1; try done.
  - split; by rewrite ?E2, ?E3.
  - intros k. rewrite <- He. destruct k; cbn; by rewrite ?E2, ?E3.
Qed.

Lemma sinv_row s i x : sinv s → same_name (get_fd i s) x → sinv (set_fd i x s).
Proof. intros Hs Hx. apply (sinv_rename s); [done|apply gains_none, Hs|done]. Qed.

Lemma file_ensure_sinv path s : sinv s → sinv (file_ensure path s).2.
Proof.
  intros Hs. unfold file_ensure, file_alloc. destruct (0 <=? _); [done|]. destruct (free_slot _); [|done]. by apply (sinv_tables s).
Qed.

Lemma open_file_sinv path s : sinv s → sinv (open_file path s).2.
Proof.
  intros Hs. unfold open_file. pose proof (fd_alloc_sinv KVfs s Hs) as H1. pose proof (fd_alloc_spec KVfs s) as Ha.
  destruct (fd_alloc KVfs s) as [i s1]. cbn [snd] in H1. destruct (Z.ltb_spec i 0) as [|Hi]; [done|].
  pose proof (file_ensure_sinv path s1 H1) as H2. destruct (file_ensure path s1) as [id s2]. cbn [snd] in H2.
  destruct (id <? 0); cbn [snd]; [by apply fd_clear_sinv|]. apply sinv_row; [done|by split].
Qed.

Lemma sys_dup2_sinv a b s : 0 <= a → 0 <= b → sinv s → sinv (sys_dup2 a b s).2.
Proof.
  intros Ha Hb Hs. unfold sys_dup2. destruct (fd_valid a s) eqn:Hv; [|done]. cbn [negb orb]. change (Z.of_nat QOS_FD_MAX) with 256.
  destruct (Z.leb_spec 256 b) as [|Hlt]; [done|]. destruct (Z.eqb_spec a b) as [|Hne]; [done|]. cbn [snd].
  destruct (valid_row a s Hs Hv Ha) as (f & Hf & Hu & _). pose proof (si_len s Hs) as Hlen. change QOS_FD_MAX with 256%nat in Hlen.
  set (s1 := if fd_valid b s then fd_clear b s else s).
  assert (sinv s1 ∧ (∃ g, io_fds s1 !! Z.to_nat b = Some g ∧ f_used g = false) ∧ io_fds s1 !! Z.to_nat a = Some f)
    as (Hs1 & (g & Hg & Hgu) & Hold).
  { unfold s1. destruct (fd_valid b s) eqn:Hvb.
    - split; [by apply fd_clear_sinv|]. destruct (fd_clear_tables b s Hvb) as (-> & _). split.
      + exists fd_zero. split; [|done]. apply list_lookup_insert_eq. lia.
      + by rewrite list_lookup_insert_ne by lia.
    - split; [done|]. split; [|done]. destruct (lookup_lt_is_Some_2 (io_fds s) (Z.to_nat b)) as [g Hg]; [lia|]. exists g. split; [done|].
      unfold fd_valid in Hvb. rewrite (get_fd_lookup b g s Hg) in Hvb. change (Z.of_nat QOS_FD_MAX) with 256 in Hvb.
      by rewrite (proj2 (Z.ltb_lt _ _)) in Hvb by lia. }
  rewrite (get_fd_lookup a f s1 Hold).
  apply (sinv_take (λ _, False) s1 s1 b g f Hs1 (gains_none _ (si_tables _ Hs1)) Hg); [by eapply row_lookup| |done|].
  - intros k. by rewrite unused_holds.
  - intros k Hk. left. by apply (marked_row s1 (Z.to_nat a) f).
Qed.

Lemma sys_pipe_sinv s : sinv s → sinv (sys_pipe s).2.
Proof.
  intros Hs. unfold sys_pipe, pipe_alloc. destruct (free_slot (io_pipes s)) as [k|]; [|done]. rewrite (proj2 (Z.ltb_ge _ 0)) by lia.
  set (s1 := set_pipe _ _ s). assert (H1 : sinv s1) by (by apply (sinv_tables s)).
  pose proof (fd_alloc_sinv KPipeR s1 H1) as H2. destruct (fd_alloc KPipeR s1) as [r s2]. cbn [snd] in H2.
  destruct (Z.ltb_spec r 0) as [|Hr]; [by apply (sinv_tables s2)|].
  pose proof (fd_alloc_sinv KPipeW s2 H2) as H3. destruct (fd_alloc KPipeW s2) as [w s3]. cbn [snd] in H3.
  destruct (w <? 0); cbn [snd].
  - pose proof (fd_clear_sinv r s3 Hr H3) as H4. by apply (sinv_tables (fd_clear r s3)).
  - apply sinv_row; [apply sinv_row; [done|by split]|by split].
Qed.

Lemma sys_lseek_sinv i off whence total s : sinv s → sinv (sys_lseek i off whence total s).2.
Proof.
  intros Hs. unfold sys_lseek. destruct (_ || _); [done|]. destruct (lseek_base _ _ _ _); [|done]. destruct (_ || _); [done|].
  cbv zeta. destruct (_ <? 0); [done|]. apply sinv_row; [done|by split].
Qed.

Lemma io_exec_sinv o s : io_op_ok o → sinv s → sinv (io_exec o s).
Proof.
  intros Ho Hs. destruct o as [path|i|a b| |path|i len|i bytes|i off whence]; cbn [io_exec].
  - by apply open_file_sinv.
  - unfold sys_close. destruct (negb _); [done|]. by apply fd_clear_sinv.
  - by apply sys_dup2_sinv; [apply Ho|apply Ho|].
  - by apply sys_pipe_sinv.
  - unfold file_unlink_path, file_drop. cbv zeta. destruct (_ <? 0); [done|]. destruct (negb _); [destruct (_ <=? _)|]; by apply (sinv_tables s).
  - destruct (negb _); [done|]. destruct (f_kind _); try done.
    + unfold read_vfs. cbv zeta. destruct (_ || _); [done|]. destruct (_ <=? _); [done|]. destruct (_ =? 0); [done|].
      apply sinv_row; [done|by split].
    + unfold read_pipe. cbv zeta. destruct (_ || _); [done|]. destruct (_ =? 0); [done|]. by apply (sinv_tables s).
  - destruct (negb _); [done|]. destruct (f_kind _); try done.
    + unfold write_vfs. cbv zeta. destruct (_ || _); [done|]. destruct (_ <=? _); [done|]. destruct (_ =? 0); [done|]. cbn [snd].
      match goal with |- sinv (set_file _ _ ?s') => apply (sinv_tables s'); [done..|] end. apply sinv_row; [done|by split].
    + unfold write_pipe. cbv zeta. destruct (_ || _); [done|]. by apply (sinv_tables s).
  - by apply sys_lseek_sinv.
Qed.

(** ** Sequences of calls *)

Inductive desc_op :=
  | DIo (o : io_op)
  | DSocket (domain type : Z) | DBind (i : Z) (addr : option (list Z)) (len : Z) | DListen (i n : Z)
  | DAccept (i : Z) (addr : bool) (addrlen : option Z) | DConnect (i : Z) (addr : option (list Z)) (len : Z)
  | DSend (i : Z) (buf : option (list Z)) (len : Z) (addr : option (list Z)) | DRecv (i : Z) (buf : bool) (len : Z) (addr : bool)
  | DReadSocket (i len : Z) | DWriteSocket (i : Z) (src : list Z) (len : Z).

Definition desc_exec (o : desc_op) (s : io) : io :=
  match o with
  | DIo o => io_exec o s
  | DSocket d t => (sys_socket d t s).2
  | DBind i addr len => (sys_bind i addr len s).2
  | DListen i n => (sys_listen i n s).2
  | DAccept i addr addrlen => (sys_accept i addr addrlen s).2
  | DConnect i addr len => (sys_connect i addr len s).2
  | DSend i buf len addr => (sys_send i buf len addr s).2
  | DRecv i buf len addr => (sys_recv i buf len addr s).2
  | DReadSocket i len => if fd_valid i s && is_socket (get_fd i s) then (read_socket i len s).2 else s
  | DWriteSocket i src len => if fd_valid i s && is_socket (get_fd i s) then (write_socket i src len s).2 else s
  end.

Definition desc_op_ok (o : desc_op) : Prop :=
  match o with
  | DIo o => io_op_ok o
  | DBind i _ _ | DListen i _ | DAccept i _ _ | DConnect i _ _ | DSend i _ _ _ => 0 <= i
  | _ => True
  end.

Definition desc_run (ops : list desc_op) (s : io) : io := foldl (λ s o, desc_exec o s) s ops.

Lemma desc_exec_ok o s : desc_op_ok o → io_ok s → io_ok (desc_exec o s).
Proof.
  intros Ho Hs. destruct o; cbn [desc_exec desc_op_ok] in *.
  - by apply io_step_ok.
  - by apply sys_socket_ok.
  - eapply sock_only_ok; [apply sys_bind_only|done].
  - eapply sock_only_ok; [apply sys_listen_only|done].
  - by apply sys_accept_ok.
  - eapply sock_only_ok; [apply sys_connect_only|done].
  - eapply sock_only_ok; [apply sys_send_only|done].
  - eapply sock_only_ok; [apply sys_recv_only|done].
  - destruct (_ && _); [|done]. eapply sock_only_ok; [apply read_socket_only|done].
  - destruct (_ && _); [|done]. eapply sock_only_ok; [apply write_socket_only|done].
Qed.

Lemma desc_exec_sinv o s : desc_op_ok o → sinv s → sinv (desc_exec o s).
Proof.
  intros Ho Hs. destruct o; cbn [desc_exec desc_op_ok] in *.
  - by apply io_exec_sinv.
  - by apply sys_socket_sinv.
  - by apply sys_bind_sinv.
  - by apply sys_listen_sinv.
  - by apply sys_accept_sinv.
  - by apply sys_connect_sinv.
  - by apply sys_send_sinv.
  - by apply sys_recv_sinv.
  - destruct (_ && _); [|done]. by apply read_socket_sinv.
  - destruct (_ && _); [|done]. by apply write_socket_sinv.
Qed.

Lemma desc_run_ok ops s : Forall desc_op_ok ops → io_ok s → sinv s → io_ok (desc_run ops s) ∧ sinv (desc_run ops s).
Proof.
  revert s. induction ops as [|o ops IH]; intros s Hops Hok Hinv; [done|]. apply Forall_cons in Hops as [Ho Hops].
  apply IH; [done|by apply desc_exec_ok|by apply desc_exec_sinv].
Qed.

Lemma sinv_reset : sinv (io_reset qos_net_reset).
Proof.
  assert (Hnone : ∀ h : fd → bool, h fd_zero = false → existsb h (io_fds (io_reset qos_net_reset)) = false).
  { intros h Hh. cbn [io_reset io_fds]. generalize QOS_FD_MAX. intros m. induction m as [|m IH]; [done|]. cbn. by rewrite Hh. }
  assert (Ht : tables_wf (io_reset qos_net_reset)).
  { split; cbn [io_reset io_ports io_net qos_net_reset n_udp n_tcp]; [exists ∅; apply ports_reset_rel|by apply unique_keys_replicate..]. }
  split; [done|by apply Forall_replicate|done|]. intros k. rewrite Hnone by apply holds_zero. split; [|done]. destruct k as [t p|p|p].
  - by rewrite (ports_rel_marked _ ∅) by apply ports_reset_rel.
  - rewrite bound_marked. cbn [io_reset io_net qos_net_reset n_udp udp_reset Udp.ports]. by rewrite table_map_replicate, dom_empty_L by done.
  - rewrite listener_marked. cbn [io_reset io_net qos_net_reset n_tcp tcp_reset listeners]. by rewrite table_map_replicate, dom_empty_L by done.
Qed.

(** C3: The descriptor layer accounts for everything it holds. After any sequence
    of open, close, dup2, pipe, unlink, read, write, seek and socket calls, with
    any arguments and whatever fails: a file slot is in use exactly when the file
    has a name or an open descriptor; a pipe slot exactly when one of its ends is
    open; a stream or datagram port is reserved exactly when an open socket of
    that type is bound to it; the network stack has a UDP binding or a TCP
    listener for exactly the ports that open datagram sockets are bound to and
    open stream sockets listen on. So none of these leaks, and none is given back
    while it is in use. (The connections of the network stack are not among them:
    closing a stream socket does not release its slot there.) *)
Theorem descriptor_layer_exact ops :
  Forall desc_op_ok ops →
  let s := desc_run ops (io_reset qos_net_reset) in
  (∀ id g, io_files s !! id = Some g → file_used g = has_name g || file_has_refs (Z.of_nat id) s)
  ∧ (∀ id p, io_pipes s !! id = Some p → pipe_used p = pipe_in_use (Z.of_nat id) s)
  ∧ (∀ t p, has_ports t = true → port_valid p = true → bit_set (bitmap_of t (io_ports s)) p = socket_port_in_use p t s)
  ∧ (∀ p, udp_port_is_bound p (n_udp (io_net s)) = socket_port_in_use p QOS_SOCK_DGRAM s)
  ∧ (∀ p, tcp_listener_exists p (n_tcp (io_net s)) = socket_listener_in_use p s).
Proof.
  intros Hops s. destruct (desc_run_ok ops _ Hops (io_reset_ok _) sinv_reset) as [Hok Hinv]. fold s in Hok, Hinv.
  split; [apply Hok|]. split; [apply Hok|]. pose proof (si_exact s Hinv) as He. split; [|split].
  - intros t p Ht Hp. apply eq_true_iff_eq. unfold socket_port_in_use. rewrite <- (existsb_port t p) by done. rewrite <- He. cbn. tauto.
  - intros p. apply eq_true_iff_eq, (He (KUdp p)).
  - intros p. apply eq_true_iff_eq, (He (KTcp p)).
Qed.

Definition demo_addr (port : Z) : option (list Z) := Some (write_sockaddr port QOS_NET_IPV4_LOCAL).

(** A server and a client: the port stays reserved through the accepted socket. *)
Definition demo_desc_ops : list desc_op :=
  [DIo (IOpen "/a"); DSocket 2 1; DBind 1 (demo_addr 8080) 16; DListen 1 4; DSocket 2 1; DBind 2 (demo_addr 9000) 16;
   DConnect 2 (demo_addr 8080) 16; DAccept 1 true (Some 16); DIo (IUnlink "/a"); DIo (IClose 1)].

Example descriptor_layer_exact_witness :
  let s := desc_run demo_desc_ops (io_reset qos_net_reset) in
  bit_set (bitmap_of QOS_SOCK_STREAM (io_ports s)) 8080 = true ∧ tcp_listener_exists 8080 (n_tcp (io_net s)) = false.
Proof.
  intros s. destruct (descriptor_layer_exact demo_desc_ops) as (_ & _ & Hp & _ & Ht).
  - repeat constructor; cbn; (lia || discriminate).
  - split; [refine (eq_trans (Hp QOS_SOCK_STREAM 8080 eq_refl eq_refl) _)|refine (eq_trans (Ht 8080) _)]; vm_compute; reflexivity.
Defined.
