(* ===== verification/ProcPath.v ===== *)
(** * Paths under /proc (c-os/kernel/syscall/syscall.c)

    The parser that recognises the six fixed names and /proc/<pid>/status.  A
    path is handled as its bytes, the way strcmp and the digit loop see it. *)

From S2P Require Import Prelude NameBuf.

Definition QOS_PROC_FD_NONE : Z := 0.
Definition QOS_PROC_FD_MEMINFO : Z := 1.
Definition QOS_PROC_FD_STATUS : Z := 2.
Definition QOS_PROC_FD_KERNEL_STATUS : Z := 3.
Definition QOS_PROC_FD_NET_DEV : Z := 4.
Definition QOS_PROC_FD_SYSCALLS : Z := 5.
Definition QOS_PROC_FD_UPTIME : Z := 6.
Definition QOS_PROC_FD_RUNTIME_MAP : Z := 7.

(** [pid = pid * 10 + (ch - '0')] over the characters, which must be digits. *)
Fixpoint pid_loop (cs : list Z) (pid : Z) : option Z :=
  match cs with
  | [] => Some pid
  | ch :: cs' => if (ch <? 48) || (57 <? ch) then None else pid_loop cs' (u32 (u32 (pid * 10) + (ch - 48)))
  end.

Definition suffix : list Z := bytes_of "/status".

(** [None] is the result -1; otherwise the kind and the pid written. *)
Definition proc_path_kind (path : option string) : option (Z * Z) :=
  match path with
  | None => None
  | Some path =>
      let p := bytes_of path in
      let named s := bool_decide (p = bytes_of s) in
      if named "/proc/meminfo" then Some (QOS_PROC_FD_MEMINFO, 0)
      else if named "/proc/kernel/status" then Some (QOS_PROC_FD_KERNEL_STATUS, 0)
      else if named "/proc/net/dev" then Some (QOS_PROC_FD_NET_DEV, 0)
      else if named "/proc/syscalls" then Some (QOS_PROC_FD_SYSCALLS, 0)
      else if named "/proc/uptime" then Some (QOS_PROC_FD_UPTIME, 0)
      else if named "/proc/runtime/map" then Some (QOS_PROC_FD_RUNTIME_MAP, 0)
      else if negb (bool_decide (take 6 p = bytes_of "/proc/")) then None
      else
        let len := length p in
        if (len <=? 6 + length suffix)%nat then None
        else if negb (bool_decide (drop (len - length suffix) p = suffix)) then None
        else
          match pid_loop (take (len - length suffix - 6) (drop 6 p)) 0 with
          | None => None
          | Some pid => if pid =? 0 then None else Some (QOS_PROC_FD_STATUS, pid)
          end
  end.

(** ** The path of a process *)

Definition status_bytes (ds : list Z) : list Z := bytes_of "/proc/" ++ ds ++ suffix.

(** The value of the digits at 32 bits. *)
Lemma pid_loop_Some cs v r :
  pid_loop cs (u32 v) = Some r ↔ Forall is_digit cs ∧ r = u32 (foldl (λ v d, v * 10 + (d - 48)) v cs).
Proof.
  revert v. induction cs as [|c cs IH]; intros v; cbn [pid_loop foldl].
  { split; [intros [= <-]; by split|intros [_ ->]; done]. }
  rewrite Forall_cons. unfold is_digit at 1.
  destruct (Z.ltb_spec c 48), (Z.ltb_spec 57 c); cbn [orb]; try (split; [done|lia]).
  replace (u32 (u32 (u32 v * 10) + (c - 48))) with (u32 (v * 10 + (c - 48))).
  - rewrite IH. split; [intros [? ->]|intros [[? ?] ->]]; split_and?; (done || lia).
  - unfold wrap. by rewrite Zmult_mod_idemp_l, Zplus_mod_idemp_l.
Qed.

Lemma status_bytes_length ds : length (status_bytes ds) = (13 + length ds)%nat.
Proof. unfold status_bytes. rewrite !length_app. cbn. lia. Qed.

(** A path that starts with /proc/ and ends with /status has the form. *)
Lemma status_bytes_split p :
  take 6 p = bytes_of "/proc/" → (13 < length p)%nat → drop (length p - 7) p = suffix →
  p = status_bytes (take (length p - 7 - 6) (drop 6 p)).
Proof.
  intros Ht Hl Hs. unfold status_bytes. rewrite <- Ht, <- Hs.
  replace (length p - 7)%nat with (6 + (length p - 7 - 6))%nat at 2 by lia.
  rewrite <- drop_drop, take_drop. by rewrite take_drop.
Qed.

(** The fixed names are no process's path. *)
Lemma status_not_fixed ds s :
  s ∈ ["/proc/meminfo"; "/proc/kernel/status"; "/proc/net/dev"; "/proc/syscalls"; "/proc/uptime"; "/proc/runtime/map"] →
  ds ≠ [] → Forall is_digit ds → status_bytes ds ≠ bytes_of s.
Proof.
  intros Hs Hne Hd E. destruct ds as [|d ds]; [done|]. apply Forall_cons in Hd as [Hd _]. unfold is_digit in Hd.
  apply (f_equal (.!! 6%nat)) in E. cbn [status_bytes] in E. unfold status_bytes in E.
  rewrite lookup_app_r in E by done. cbn in E. 
  repeat (apply elem_of_cons in Hs as [->|Hs]; [cbn in E; injection E as ->; lia|]). by apply elem_of_nil in Hs.
Qed.

(** Process paths. The path of a process, /proc/<pid>/status with the pid in
    decimal, is read back as that process. Conversely a path is taken for a
    process's status exactly when it is /proc/, one or more decimal digits and
    /status, and their value modulo 2^32 is not zero; that value is the pid. *)
Theorem proc_path_roundtrip path pid :
  (0 < pid < 2 ^ 32 → bytes_of path = status_bytes (decimal pid) →
   proc_path_kind (Some path) = Some (QOS_PROC_FD_STATUS, pid))
  ∧ (proc_path_kind (Some path) = Some (QOS_PROC_FD_STATUS, pid)
     ↔ pid ≠ 0 ∧ ∃ ds, bytes_of path = status_bytes ds ∧ ds ≠ [] ∧ Forall is_digit ds ∧ pid = u32 (parse ds)).
Proof.
  assert (Hiff : proc_path_kind (Some path) = Some (QOS_PROC_FD_STATUS, pid)
     ↔ pid ≠ 0 ∧ ∃ ds, bytes_of path = status_bytes ds ∧ ds ≠ [] ∧ Forall is_digit ds ∧ pid = u32 (parse ds)).
  { unfold proc_path_kind. set (p := bytes_of path). cbv zeta. split.
    - do 6 (destruct (bool_decide _); [intros [= ]|]). destruct (bool_decide (take 6 p = _)) eqn:Ht; [|done]. cbn [negb].
      destruct (Nat.leb_spec (length p) (6 + length suffix)) as [|Hl]; [done|].
      destruct (bool_decide (drop _ p = _)) eqn:Hs; [|done]. cbn [negb]. b2p. change (length suffix) with 7%nat in *.
      destruct (pid_loop _ 0) as [v|] eqn:E; [|done]. destruct (Z.eqb_spec v 0); [done|]. intros [= <-]. split; [done|].
      apply (pid_loop_Some _ 0) in E as [Hd ->]. eexists. split; [by apply status_bytes_split; [..|lia|]|].
      split; [|by split]. intros E%(f_equal length). rewrite length_take, length_drop in E. cbn in E. lia.
    - intros (Hp & ds & Hb & Hne & Hd & ->). rewrite Hb.
      assert (∀ s, s ∈ ["/proc/meminfo"; "/proc/kernel/status"; "/proc/net/dev"; "/proc/syscalls"; "/proc/uptime"; "/proc/runtime/map"]
        → bool_decide (status_bytes ds = bytes_of s) = false) as Hf by (intros; by apply bool_decide_eq_false, status_not_fixed).
      rewrite !Hf by set_solver. rewrite status_bytes_length. change (length suffix) with 7%nat.
      destruct ds as [|d ds]; [done|]. set (l := d :: ds) in *. assert (0 < length l)%nat by (cbn; lia).
      rewrite (bool_decide_eq_true_2 (take 6 _ = _)) by (unfold status_bytes; by rewrite take_app_length' by done). cbn [negb].
      rewrite (proj2 (Nat.leb_gt _ _)) by lia.
      replace (13 + length l - 7)%nat with (6 + length l)%nat by lia. replace (6 + length l - 6)%nat with (length l) by lia.
      unfold status_bytes. rewrite <- drop_drop, (drop_app_length' (bytes_of "/proc/")), drop_app_length by done.
      rewrite bool_decide_eq_true_2 by done. rewrite take_app_length. cbn [negb].
      change 0 with (u32 0) at 1. rewrite (proj2 (pid_loop_Some l 0 _) (conj Hd eq_refl)). fold (parse l). by rewrite (proj2 (Z.eqb_neq _ _)). }
  split; [|done]. intros Hp Hb. apply Hiff. split; [lia|]. exists (decimal pid).
  destruct (decimal_parse pid Hp) as [-> Hd]. pose proof (decimal_length pid Hp).
  split; [done|]. split; [intros E; rewrite E in *; cbn in *; lia|]. split; [done|]. by rewrite wrap_small by (unfold in_width; lia).
Qed.

Lemma proc_path_roundtrip_witness : proc_path_kind (Some "/proc/1234/status") = Some (QOS_PROC_FD_STATUS, 1234).
Proof. apply (proj1 (proc_path_roundtrip "/proc/1234/status" 1234)); [lia|]. vm_compute. reflexivity. Defined.
