(* ===== verification/Kernel.v ===== *)
(** * The kernel (c-os/kernel/kernel.c, init_state.c)

    The globals of every subsystem together, the reset and the start of the
    kernel, and the status report.  The network stack's globals are part of the
    descriptor layer's state ([io_net] of [k_io]).  Every weak symbol the code
    tests for is linked in. *)

From S2P Require Import Prelude SlotTable RingQueue Pmm Vmm Sched Softirq Timer Workqueue Napi NameBuf Kthread.
From S2P Require Import Vfs Drivers Packet Udp Tcp Proc SyscallTable Ports Net Fds Lifetimes Modules SocketState Descriptors.

Definition QOS_INIT_MM : Z := bit 0.
Definition QOS_INIT_DRIVERS : Z := bit 1.
Definition QOS_INIT_VFS : Z := bit 2.
Definition QOS_INIT_NET : Z := bit 3.
Definition QOS_INIT_SCHED : Z := bit 4.
Definition QOS_INIT_SYSCALL : Z := bit 5.
Definition QOS_INIT_PROC : Z := bit 6.

Definition QOS_INIT_ALL : Z :=
  Z.lor (Z.lor (Z.lor (Z.lor (Z.lor (Z.lor QOS_INIT_MM QOS_INIT_DRIVERS) QOS_INIT_VFS) QOS_INIT_NET) QOS_INIT_SCHED)
    QOS_INIT_SYSCALL) QOS_INIT_PROC.

Record kernel := {
  k_init : Z;
  k_pmm : pmm; k_vmm : vmm; k_sched : sched;
  k_softirq : softirq; k_timers : timers; k_napi : napi; k_kthreads : kthreads; k_workqueue : workqueue;
  k_vfs : vfs; k_drivers : drivers; k_io : io;
  k_table : sc_table; k_mods : mods; k_procs : procs
}.

Definition set_init (x : Z) (k : kernel) : kernel :=
  {| k_init := x; k_pmm := k_pmm k; k_vmm := k_vmm k; k_sched := k_sched k; k_softirq := k_softirq k;
     k_timers := k_timers k; k_napi := k_napi k; k_kthreads := k_kthreads k; k_workqueue := k_workqueue k; k_vfs := k_vfs k;
     k_drivers := k_drivers k; k_io := k_io k; k_table := k_table k; k_mods := k_mods k; k_procs := k_procs k |}.
Definition set_pmm (x : pmm) (k : kernel) : kernel :=
  {| k_init := k_init k; k_pmm := x; k_vmm := k_vmm k; k_sched := k_sched k; k_softirq := k_softirq k;
     k_timers := k_timers k; k_napi := k_napi k; k_kthreads := k_kthreads k; k_workqueue := k_workqueue k; k_vfs := k_vfs k;
     k_drivers := k_drivers k; k_io := k_io k; k_table := k_table k; k_mods := k_mods k; k_procs := k_procs k |}.
Definition set_vmm (x : vmm) (k : kernel) : kernel :=
  {| k_init := k_init k; k_pmm := k_pmm k; k_vmm := x; k_sched := k_sched k; k_softirq := k_softirq k;
     k_timers := k_timers k; k_napi := k_napi k; k_kthreads := k_kthreads k; k_workqueue := k_workqueue k; k_vfs := k_vfs k;
     k_drivers := k_drivers k; k_io := k_io k; k_table := k_table k; k_mods := k_mods k; k_procs := k_procs k |}.
Definition set_sched (x : sched) (k : kernel) : kernel :=
  {| k_init := k_init k; k_pmm := k_pmm k; k_vmm := k_vmm k; k_sched := x; k_softirq := k_softirq k;
     k_timers := k_timers k; k_napi := k_napi k; k_kthreads := k_kthreads k; k_workqueue := k_workqueue k; k_vfs := k_vfs k;
     k_drivers := k_drivers k; k_io := k_io k; k_table := k_table k; k_mods := k_mods k; k_procs := k_procs k |}.
Definition set_softirq (x : softirq) (k : kernel) : kernel :=
  {| k_init := k_init k; k_pmm := k_pmm k; k_vmm := k_vmm k; k_sched := k_sched k; k_softirq := x;
     k_timers := k_timers k; k_napi := k_napi k; k_kthreads := k_kthreads k; k_workqueue := k_workqueue k; k_vfs := k_vfs k;
     k_drivers := k_drivers k; k_io := k_io k; k_table := k_table k; k_mods := k_mods k; k_procs := k_procs k |}.
Definition set_timers (x : timers) (k : kernel) : kernel :=
  {| k_init := k_init k; k_pmm := k_pmm k; k_vmm := k_vmm k; k_sched := k_sched k; k_softirq := k_softirq k;
     k_timers := x; k_napi := k_napi k; k_kthreads := k_kthreads k; k_workqueue := k_workqueue k; k_vfs := k_vfs k;
     k_drivers := k_drivers k; k_io := k_io k; k_table := k_table k; k_mods := k_mods k; k_procs := k_procs k |}.
Definition set_napi (x : napi) (k : kernel) : kernel :=
  {| k_init := k_init k; k_pmm := k_pmm k; k_vmm := k_vmm k; k_sched := k_sched k; k_softirq := k_softirq k;
     k_timers := k_timers k; k_napi := x; k_kthreads := k_kthreads k; k_workqueue := k_workqueue k; k_vfs := k_vfs k;
     k_drivers := k_drivers k; k_io := k_io k; k_table := k_table k; k_mods := k_mods k; k_procs := k_procs k |}.
Definition set_kthreads (x : kthreads) (k : kernel) : kernel :=
  {| k_init := k_init k; k_pmm := k_pmm k; k_vmm := k_vmm k; k_sched := k_sched k; k_softirq := k_softirq k;
     k_timers := k_timers k; k_napi := k_napi k; k_kthreads := x; k_workqueue := k_workqueue k; k_vfs := k_vfs k;
     k_drivers := k_drivers k; k_io := k_io k; k_table := k_table k; k_mods := k_mods k; k_procs := k_procs k |}.
Definition set_workqueue (x : workqueue) (k : kernel) : kernel :=
  {| k_init := k_init k; k_pmm := k_pmm k; k_vmm := k_vmm k; k_sched := k_sched k; k_softirq := k_softirq k;
     k_timers := k_timers k; k_napi := k_napi k; k_kthreads := k_kthreads k; k_workqueue := x; k_vfs := k_vfs k;
     k_drivers := k_drivers k; k_io := k_io k; k_table := k_table k; k_mods := k_mods k; k_procs := k_procs k |}.
Definition set_vfs (x : vfs) (k : kernel) : kernel :=
  {| k_init := k_init k; k_pmm := k_pmm k; k_vmm := k_vmm k; k_sched := k_sched k; k_softirq := k_softirq k;
     k_timers := k_timers k; k_napi := k_napi k; k_kthreads := k_kthreads k; k_workqueue := k_workqueue k; k_vfs := x;
     k_drivers := k_drivers k; k_io := k_io k; k_table := k_table k; k_mods := k_mods k; k_procs := k_procs k |}.
Definition set_drivers (x : drivers) (k : kernel) : kernel :=
  {| k_init := k_init k; k_pmm := k_pmm k; k_vmm := k_vmm k; k_sched := k_sched k; k_softirq := k_softirq k;
     k_timers := k_timers k; k_napi := k_napi k; k_kthreads := k_kthreads k; k_workqueue := k_workqueue k; k_vfs := k_vfs k;
     k_drivers := x; k_io := k_io k; k_table := k_table k; k_mods := k_mods k; k_procs := k_procs k |}.
Definition set_io (x : io) (k : kernel) : kernel :=
  {| k_init := k_init k; k_pmm := k_pmm k; k_vmm := k_vmm k; k_sched := k_sched k; k_softirq := k_softirq k;
     k_timers := k_timers k; k_napi := k_napi k; k_kthreads := k_kthreads k; k_workqueue := k_workqueue k; k_vfs := k_vfs k;
     k_drivers := k_drivers k; k_io := x; k_table := k_table k; k_mods := k_mods k; k_procs := k_procs k |}.
Definition set_table (x : sc_table) (k : kernel) : kernel :=
  {| k_init := k_init k; k_pmm := k_pmm k; k_vmm := k_vmm k; k_sched := k_sched k; k_softirq := k_softirq k;
     k_timers := k_timers k; k_napi := k_napi k; k_kthreads := k_kthreads k; k_workqueue := k_workqueue k; k_vfs := k_vfs k;
     k_drivers := k_drivers k; k_io := k_io k; k_table := x; k_mods := k_mods k; k_procs := k_procs k |}.
Definition set_mods (x : mods) (k : kernel) : kernel :=
  {| k_init := k_init k; k_pmm := k_pmm k; k_vmm := k_vmm k; k_sched := k_sched k; k_softirq := k_softirq k;
     k_timers := k_timers k; k_napi := k_napi k; k_kthreads := k_kthreads k; k_workqueue := k_workqueue k; k_vfs := k_vfs k;
     k_drivers := k_drivers k; k_io := k_io k; k_table := k_table k; k_mods := x; k_procs := k_procs k |}.
Definition set_procs (x : procs) (k : kernel) : kernel :=
  {| k_init := k_init k; k_pmm := k_pmm k; k_vmm := k_vmm k; k_sched := k_sched k; k_softirq := k_softirq k;
     k_timers := k_timers k; k_napi := k_napi k; k_kthreads := k_kthreads k; k_workqueue := k_workqueue k; k_vfs := k_vfs k;
     k_drivers := k_drivers k; k_io := k_io k; k_table := k_table k; k_mods := k_mods k; k_procs := x |}.

(** ** Subsystem initialisation *)

Definition qos_kernel_state_reset (k : kernel) : kernel := set_init 0 k.
Definition qos_kernel_state_mark (b : Z) (k : kernel) : kernel := set_init (Z.lor (k_init k) b) k.
Definition qos_kernel_state_get (k : kernel) : Z := k_init k.

(** What the linker decides: the bounds of the kernel image (zero when the
    symbols are undefined) and the addresses of the softirq handlers. *)
Record image := {
  i_kstart : Z; i_kend : Z; i_timer_handler : Z; i_napi_handler : Z; i_workqueue_handler : Z
}.

Definition qos_syscall_reset (k : kernel) : kernel :=
  set_mods mods_reset (set_io (io_reset (io_net (k_io k))) (set_table table_reset k)).

Definition mm_init (k : kernel) : kernel := qos_kernel_state_mark QOS_INIT_MM k.
Definition drivers_init (k : kernel) : kernel := qos_kernel_state_mark QOS_INIT_DRIVERS (set_drivers qos_drivers_reset k).
Definition vfs_init (k : kernel) : kernel := qos_kernel_state_mark QOS_INIT_VFS (set_vfs qos_vfs_reset k).
Definition net_init (k : kernel) : kernel :=
  qos_kernel_state_mark QOS_INIT_NET (set_io (with_net qos_net_reset (k_io k)) k).
Definition sched_init (k : kernel) : kernel := qos_kernel_state_mark QOS_INIT_SCHED (set_sched qos_sched_reset k).
Definition proc_init (k : kernel) : kernel := qos_kernel_state_mark QOS_INIT_PROC (set_procs qos_proc_reset k).

Definition syscall_init (k : kernel) : kernel :=
  let k1 := qos_syscall_reset k in
  let k2 := set_table (syscall_register_default_signal_ops (k_table k1)) k1 in
  let k3 := set_table (syscall_register_default_queries (k_table k2)) k2 in
  qos_kernel_state_mark QOS_INIT_SYSCALL k3.

(** The softirq clients reset their table and register their handler. *)
Definition init_softirq (k : kernel) : kernel := set_softirq softirq_init k.
Definition init_timers (img : image) (k : kernel) : kernel :=
  let '(t, q) := timer_init (i_timer_handler img) (k_softirq k) in set_softirq q (set_timers t k).
Definition init_napi (img : image) (k : kernel) : kernel :=
  let '(n, q) := napi_init (i_napi_handler img) (k_softirq k) in set_softirq q (set_napi n k).
Definition init_kthreads (k : kernel) : kernel := set_kthreads (kthread_init (name <$> g_threads (k_kthreads k))) k.
Definition init_workqueue (img : image) (k : kernel) : kernel :=
  let '(w, q) := workqueue_init (i_workqueue_handler img) (k_softirq k) in set_softirq q (set_workqueue w k).

(** ** Start *)

Definition qos_boot_info_validate (boot : option (Z * boot_info)) : Z :=
  match boot with
  | None => -1
  | Some (_, bi) =>
      if negb (magic bi =? QOS_BOOT_MAGIC) then -1
      else if (mmap_entry_count bi =? 0) || (QOS_MMAP_MAX_ENTRIES <? mmap_entry_count bi) then -1
      else
        let e := nth 0 (mmap_entries bi) {| mmap_base := 0; mmap_length := 0; mmap_type := 0 |} in
        if (mmap_length e =? 0) || (mmap_type e =? 0) then -1
        else if negb (initramfs_size bi =? 0) && (initramfs_addr bi =? 0) then -1
        else 0
  end.

Definition qos_kernel_reset (k : kernel) : kernel :=
  set_procs qos_proc_reset (qos_syscall_reset (set_vmm qos_vmm_reset (qos_kernel_state_reset k))).

Definition qos_kernel_init_state (k : kernel) : Z := qos_kernel_state_get k.

Definition init_all (img : image) (k : kernel) : kernel :=
  proc_init (syscall_init (sched_init (init_workqueue img (init_kthreads (init_napi img (init_timers img
    (init_softirq (net_init (vfs_init (drivers_init (mm_init k))))))))))).

Definition qos_kernel_entry (img : image) (boot : option (Z * boot_info)) (k : kernel) : Z * kernel :=
  let k := qos_kernel_reset k in
  if negb (qos_boot_info_validate boot =? 0) then (-1, k)
  else
    let '(r, p) := qos_pmm_init (i_kstart img) (i_kend img) boot in
    let k := set_pmm p k in
    if negb (r =? 0) then (-1, k)
    else
      let k := init_all img k in
      if negb (qos_kernel_init_state k =? QOS_INIT_ALL) then (-1, k) else (0, k).

(** ** Status *)

Record qos_kernel_status_t := {
  st_init_state : Z; st_pmm_total_pages : Z; st_pmm_free_pages : Z; st_sched_count : Z; st_vfs_count : Z;
  st_net_queue_len : Z; st_drivers_count : Z; st_syscall_count : Z; st_proc_count : Z
}.

Definition kernel_status (k : kernel) : qos_kernel_status_t := {|
  st_init_state := qos_kernel_init_state k;
  st_pmm_total_pages := qos_pmm_total_pages (k_pmm k);
  st_pmm_free_pages := qos_pmm_free_pages (k_pmm k);
  st_sched_count := qos_sched_count (k_sched k);
  st_vfs_count := qos_vfs_count (k_vfs k);
  st_net_queue_len := qos_net_queue_len (n_packets (io_net (k_io k)));
  st_drivers_count := qos_drivers_count (k_drivers k);
  st_syscall_count := qos_syscall_count (k_table k);
  st_proc_count := qos_proc_count (k_procs k)
|}.

Definition qos_kernel_status_snapshot (out : bool) (k : kernel) : Z * option qos_kernel_status_t :=
  if out then (0, Some (kernel_status k)) else (-1, None).

(** ** The softirq clients see the kernel through their own globals *)

Ltac kernel_lens := intros; repeat match goal with k : kernel |- _ => destruct k end; reflexivity.

#[export] Instance kernel_softirq : Lens kernel softirq.
Proof. refine {| view := k_softirq; upd := set_softirq |}; kernel_lens. Defined.
#[export] Instance kernel_timers : Lens kernel timers.
Proof. refine {| view := k_timers; upd := set_timers |}; kernel_lens. Defined.
#[export] Instance kernel_napi : Lens kernel napi.
Proof. refine {| view := k_napi; upd := set_napi |}; kernel_lens. Defined.
#[export] Instance kernel_workqueue : Lens kernel workqueue.
Proof. refine {| view := k_workqueue; upd := set_workqueue |}; kernel_lens. Defined.
#[export] Instance kernel_timers_softirq : DisjointLens kernel timers softirq.
Proof. intros s t k. kernel_lens. Defined.
#[export] Instance kernel_napi_softirq : DisjointLens kernel napi softirq.
Proof. intros s t k. kernel_lens. Defined.
#[export] Instance kernel_workqueue_softirq : DisjointLens kernel workqueue softirq.
Proof. intros s t k. kernel_lens. Defined.

(** A call through a function pointer: the three softirq handlers of the image,
    or one of the functions the clients were given ([cb] a timer callback or
    work function, [poll] a poll function).  [fuel] bounds the handlers' loops. *)
Definition kernel_call (img : image) (cb : Z → Z → kernel → kernel) (poll : Z → Z → Z → kernel → Z * kernel)
    (fuel : nat) (fn ctx : Z) (k : kernel) : kernel :=
  if fn =? i_timer_handler img then default k (timer_softirq_handler cb fuel k)
  else if fn =? i_napi_handler img then napi_softirq_handler poll k
  else if fn =? i_workqueue_handler img then default k (workqueue_softirq_handler cb fuel k)
  else cb fn ctx k.

(** ** Invariant *)

Record kernel_ok (k : kernel) : Prop := {
  ko_vmm : vmm_wf (k_vmm k);
  ko_sched : sched_wf (k_sched k);
  ko_softirq : softirq_wf (k_softirq k);
  ko_timers : timers_wf (k_timers k);
  ko_kthreads : kt_wf (k_kthreads k);
  ko_workqueue : wq_wf (k_workqueue k);
  ko_vfs : vfs_wf (k_vfs k);
  ko_drivers : drv_wf (k_drivers k);
  ko_io : io_ok (k_io k);
  ko_sockets : sinv (k_io k);
  ko_table : ∃ m, sc_rel (k_table k) m;
  ko_procs : proc_wf (k_procs k)
}.

(** The shape of the static buffers the reset functions leave alone. *)
Definition static_ok (k : kernel) : Prop :=
  length (g_threads (k_kthreads k)) = QOS_KTHREAD_MAX
  ∧ Forall (λ t, length (name t) = QOS_KTHREAD_NAME_MAX) (g_threads (k_kthreads k)).

(** The kernel as a successful start leaves it. *)
Definition booted (img : image) (p : pmm) (names : list (list Z)) : kernel := {|
  k_init := QOS_INIT_ALL; k_pmm := p; k_vmm := qos_vmm_reset; k_sched := qos_sched_reset;
  k_softirq := {| handlers := [i_timer_handler img; i_napi_handler img; i_workqueue_handler img; 0; 0; 0; 0; 0];
                  handler_ctx := replicate 8 0; pending_mask := 0 |};
  k_timers := qos_timer_reset; k_napi := qos_napi_reset; k_kthreads := qos_kthread_reset names;
  k_workqueue := qos_workqueue_reset; k_vfs := qos_vfs_reset; k_drivers := qos_drivers_reset;
  k_io := io_reset qos_net_reset; k_table := table_init; k_mods := mods_reset; k_procs := qos_proc_reset
|}.

Definition image_ok (img : image) : Prop :=
  i_timer_handler img ≠ 0 ∧ i_napi_handler img ≠ 0 ∧ i_workqueue_handler img ≠ 0.

Lemma init_all_booted img k :
  image_ok img → k_init k = 0 → k_vmm k = qos_vmm_reset →
  init_all img k = booted img (k_pmm k) (name <$> g_threads (k_kthreads k)).
Proof.
  intros (Ht & Hn & Hw) Hi Hv. destruct img as [ks ke th nh wh], k. cbn [i_timer_handler i_napi_handler i_workqueue_handler k_init k_vmm] in *.
  subst. unfold init_all, init_workqueue, workqueue_init, init_napi, napi_init, init_timers, timer_init.
  unfold qos_softirq_register. cbn [i_timer_handler i_napi_handler i_workqueue_handler].
  rewrite !(proj2 (Z.eqb_neq _ _)) by done. reflexivity.
Qed.

Lemma timers_reset_wf : timers_wf qos_timer_reset.
Proof. split; [done| |by vm_compute]. apply (bool_decide_unpack _). vm_compute. exact I. Qed.

Lemma booted_ok img p names :
  length names = QOS_KTHREAD_MAX → Forall (λ b, length b = QOS_KTHREAD_NAME_MAX) names → kernel_ok (booted img p names).
Proof.
  intros Hl Hn. split; cbn [booted k_vmm k_sched k_softirq k_timers k_kthreads k_workqueue k_vfs k_drivers k_io k_table k_procs].
  - apply vmm_wf_reset.
  - apply sched_reset_wf.
  - split; [done..|by vm_compute].
  - apply timers_reset_wf.
  - by apply kt_reset_wf.
  - apply wq_reset_wf.
  - apply vfs_reset_wf.
  - apply drv_reset_wf.
  - apply io_reset_ok.
  - apply sinv_reset.
  - exists abi. apply table_init_abi.
  - apply proc_reset_wf.
Qed.

(** ** Starting the kernel *)

Lemma booted_status img p names :
  kernel_status (booted img p names)
  = {| st_init_state := 127; st_pmm_total_pages := qos_pmm_total_pages p;
       st_pmm_free_pages := qos_pmm_free_pages p; st_sched_count := 0; st_vfs_count := 0;
       st_net_queue_len := 0; st_drivers_count := 0; st_syscall_count := 51; st_proc_count := 0 |}.
Proof.
  assert (qos_syscall_count table_init = 51) as E by (vm_compute; reflexivity).
  unfold kernel_status. cbn [booted k_table]. rewrite E. reflexivity.
Qed.

(** Nothing is running: no subsystem is marked, no system call is registered,
    there are no processes, mappings or open descriptors. *)
Record blank (k : kernel) : Prop := {
  bl_init : qos_kernel_init_state k = 0;
  bl_table : ∀ nr, sc_lookup nr (k_table k) = None;
  bl_procs : procs_abs (k_procs k) = ∅;
  bl_vmm : k_vmm k = qos_vmm_reset;
  bl_fds : ∀ i, fd_valid i (k_io k) = false
}.

Lemma blank_pmm p k : blank k → blank (set_pmm p k).
Proof. destruct k. by intros []. Qed.

Lemma no_entries nr : sc_lookup nr table_reset = None.
Proof.
  unfold sc_lookup, get_entry. cbn [table_reset entries].
  destruct (_ !! _) as [e|] eqn:E; [apply lookup_replicate_1 in E as [-> _]|]; by rewrite andb_false_r.
Qed.

Lemma no_fds i n : fd_valid i (io_reset n) = false.
Proof.
  unfold fd_valid, get_fd. cbn [io_reset io_fds].
  destruct (_ !! _) as [e|] eqn:E; [apply lookup_replicate_1 in E as [-> _]|]; by rewrite andb_false_r.
Qed.

Lemma blank_reset k : blank (qos_kernel_reset k).
Proof. split; [exact eq_refl|apply no_entries|apply proc_reset_abs|exact eq_refl|intros i; apply no_fds]. Qed.

Lemma kernel_entry_eq img boot k :
  image_ok img →
  qos_kernel_entry img boot k
  = let '(found, p) := qos_pmm_init (i_kstart img) (i_kend img) boot in
    if negb (qos_boot_info_validate boot =? 0) then (-1, qos_kernel_reset k)
    else if negb (found =? 0) then (-1, set_pmm p (qos_kernel_reset k))
    else (0, booted img p (name <$> g_threads (k_kthreads k))).
Proof.
  intros Hi. unfold qos_kernel_entry. destruct (negb _); [by destruct (qos_pmm_init _ _ _)|].
  destruct (qos_pmm_init _ _ _) as [found p]. destruct (negb _); [done|].
  rewrite init_all_booted; [|done|exact eq_refl|exact eq_refl].
  change (k_pmm (set_pmm p (qos_kernel_reset k))) with p.
  change (k_kthreads (set_pmm p (qos_kernel_reset k))) with (k_kthreads k).
  generalize (name <$> g_threads (k_kthreads k)). intros names.
  assert (qos_kernel_init_state (booted img p names) =? QOS_INIT_ALL = true) as -> by exact (Z.eqb_refl QOS_INIT_ALL). done.
Qed.

(** C6: The kernel starts completely or not at all. Whatever state it is entered
    in, [qos_kernel_entry] returns 0 exactly when the boot structure is valid and
    the page allocator finds a frame; then all seven subsystems are marked, every
    table is as its own reset leaves it and satisfies its invariant, the three
    softirq handlers are registered under their vectors, and the status report
    shows the allocator's pages, the 51 default system calls and otherwise zeros.
    If it returns -1, no subsystem is marked, no system call is registered (so
    every number is refused), and there are no processes, mappings or open
    descriptors. *)
Theorem kernel_entry_all_or_nothing img boot k :
  image_ok img → static_ok k →
  let '(r, k') := qos_kernel_entry img boot k in
  let '(found, p) := qos_pmm_init (i_kstart img) (i_kend img) boot in
  if (qos_boot_info_validate boot =? 0) && (found =? 0) then
    r = 0 ∧ k' = booted img p (name <$> g_threads (k_kthreads k)) ∧ kernel_ok k'
    ∧ kernel_status k' = {| st_init_state := 127; st_pmm_total_pages := qos_pmm_total_pages p;
                            st_pmm_free_pages := qos_pmm_free_pages p; st_sched_count := 0; st_vfs_count := 0;
                            st_net_queue_len := 0; st_drivers_count := 0; st_syscall_count := 51; st_proc_count := 0 |}
  else
    r = -1 ∧ blank k'.
Proof.
  intros Hi [Hl Hn]. rewrite kernel_entry_eq by done.
  destruct (qos_pmm_init _ _ _) as [found p], (qos_boot_info_validate boot =? 0), (found =? 0); cbn [negb andb].
  2-4: split; [reflexivity|]; try apply blank_pmm; apply blank_reset.
  split; [reflexivity|]. split; [reflexivity|]. split; [|apply booted_status].
  apply booted_ok; [by rewrite length_fmap|by apply Forall_fmap].
Qed.

Definition demo_image : image :=
  {| i_kstart := 0x200000; i_kend := 0x300000; i_timer_handler := 11; i_napi_handler := 12; i_workqueue_handler := 13 |}.

(** All of memory zeroed, as the loader leaves the static variables. *)
Definition cold : kernel := {|
  k_init := 0; k_pmm := qos_pmm_reset; k_vmm := qos_vmm_reset; k_sched := qos_sched_reset; k_softirq := qos_softirq_reset;
  k_timers := qos_timer_reset; k_napi := qos_napi_reset; k_kthreads := qos_kthread_reset (replicate 64 (replicate 32 0));
  k_workqueue := qos_workqueue_reset; k_vfs := qos_vfs_reset; k_drivers := qos_drivers_reset; k_io := io_reset qos_net_reset;
  k_table := table_reset; k_mods := mods_reset; k_procs := qos_proc_reset
|}.

Lemma cold_static : static_ok cold.
Proof. split; [done|]. apply (bool_decide_unpack _). vm_compute. exact I. Qed.

Lemma kernel_entry_all_or_nothing_witness :
  (qos_kernel_entry demo_image (Some (0x500000, demo_boot 0x600000)) cold).1 = 0
  ∧ (qos_kernel_entry demo_image None cold).1 = -1.
Proof.
  split.
  - pose proof (kernel_entry_all_or_nothing demo_image (Some (0x500000, demo_boot 0x600000)) cold ltac:(done) cold_static) as H.
    destruct (qos_kernel_entry _ _ _) as [r k']. destruct (qos_pmm_init _ _ _) as [found p] eqn:E.
    replace found with 0 in H by (apply (f_equal fst) in E; vm_compute in E; done). apply H.
  - pose proof (kernel_entry_all_or_nothing demo_image None cold ltac:(done) cold_static) as H.
    destruct (qos_kernel_entry _ _ _) as [r k']. destruct (qos_pmm_init _ _ _) as [found p]. apply H.
Defined.

(** ** Time *)

(** Between ticks: the boot-time handlers are registered, nothing is
    pending and no live timer is marked. *)
Record quiet (img : image) (k : kernel) : Prop := {
  qu_handlers : ∃ rest, handlers (k_softirq k) = i_timer_handler img :: rest;
  qu_softirq : softirq_wf (k_softirq k);
  qu_mask : pending_mask (k_softirq k) = 0;
  qu_timers : timers_wf (k_timers k);
  qu_marks : Forall (λ t, Timer.used t = true → Timer.pending t = false) (g_timers (k_timers k))
}.

Lemma no_newly_due now ts :
  Forall (λ t, Timer.used t = true → Timer.pending t = false) ts → existsb (newly_due now) ts = false →
  after_tick now <$> ts = ts ∧ mark now <$> ts = ts ∧ mjoin (expired_calls now <$> ts) = [].
Proof.
  induction 1 as [|t ts Ht _ IH]; intros Hd; [done|]. cbn [existsb] in Hd. apply orb_false_iff in Hd as [Hd Hd'].
  destruct (IH Hd') as (E1 & E3 & E2). rewrite !fmap_cons, E1, E3. unfold mark. rewrite Hd.
  change (mjoin (expired_calls now t :: ?l)) with (expired_calls now t ++ mjoin l). rewrite E2.
  unfold newly_due in Hd. unfold after_tick, expired_calls.
  destruct (Timer.used t); [|done]. rewrite Ht in Hd by done. cbn [andb negb] in Hd.
  destruct (expires t <=? now); [done|]. done.
Qed.

(** With only the timer vector pending, one handler runs. *)
Lemma run_one_vector {W} `{Lens W softirq} (call : Z → Z → W → W) h (w : W) :
  pending_mask (view w) = 1 → handlers (view w) !! 0%nat = Some h → h ≠ 0 →
  let w1 := upd (set_mask 0 (view w)) w in
  let w2 := call h (default 0 (handler_ctx (view w) !! 0%nat)) w1 in
  pending_mask (view w2) = 0 → qos_softirq_run call 9 w = Some (1, w2).
Proof.
  intros Hm Hh Hne w1 w2 H2. assert (softirq_dispatch call 0 w = (1, w2)) as E.
  { unfold softirq_dispatch. cbv zeta. rewrite Hm. change (lowest_pending 1) with (Some 0%nat). cbv iota.
    rewrite Hh. change (default 0 (Some h)) with h. by rewrite (proj2 (Z.eqb_neq h 0)). }
  unfold qos_softirq_run. change 9%nat with (S (S 7)). generalize 7%nat. intros n. cbn [softirq_loop].
  rewrite Hm, E. cbn [Z.eqb negb]. by rewrite H2.
Qed.

(** C35: Time passes. In a kernel whose softirqs are quiet, accounting for
    [elapsed] ticks and running the softirqs returns, and has called the callback
    of every live timer whose deadline has come exactly once, in slot order,
    rescheduled the periodic timers and released the one-shot ones; the run
    handled one vector if a deadline was reached and none otherwise, and nothing
    else of the kernel changed. The handler that does this is the one [timer_init]
    registered at boot. (Callbacks leave the timer table and the softirqs alone, and
    the clock stays 2^32 ticks below the top of its 64 bits.) *)
Theorem kernel_tick_runs_due_timers img cb poll fuel elapsed k :
  image_ok img → quiet img k →
  (∀ fn c, Prelude.frames (S := timers) (cb fn c)) → (∀ fn c, Prelude.frames (S := softirq) (cb fn c)) →
  let ts := g_timers (k_timers k) in
  let now := g_jiffies (k_timers k) + elapsed in
  0 < elapsed → now + 2 ^ 32 <= 2 ^ 64 → now + 1 < Z.of_nat fuel →
  qos_softirq_run (kernel_call img cb poll fuel) 9 (qos_timer_tick elapsed k)
  = Some (if existsb (newly_due now) ts then 1 else 0,
          set_timers {| g_timers := after_tick now <$> ts; g_jiffies := now |}
            (run_calls cb (mjoin (expired_calls now <$> ts)) k)).
Proof.
  intros (Hth & _) [[rest Hh] Hsw Hm Htw Hmk] Hft Hfs ts now He Hn Hfu.
  assert (0 <= now) as Hn0 by (destruct (tw_now _ Htw); unfold now; lia).
  unfold qos_timer_tick. rewrite (proj2 (Z.eqb_neq _ _)) by lia. change (view k) with (k_timers k). fold ts.
  rewrite wrap_small by (unfold in_width, now in *; lia). fold now. fold (mark now).
  change (upd ?t k) with (set_timers t k). set (w := set_timers _ k).
  assert (Hw : w = upd (set_mask 0 (k_softirq k)) w).
  { rewrite <- (upd_view (S := softirq) w) at 1. f_equal. unfold w. cbn. destruct (k_softirq k). cbn in *. by subst. }
  assert (Hfire : timer_softirq_handler cb fuel w
    = Some (set_timers {| g_timers := after_tick now <$> ts; g_jiffies := now |} (run_calls cb (mjoin (expired_calls now <$> ts)) k))).
  { rewrite (handler_after_mark cb ts now fuel w Hft); try apply Htw; try done.
    unfold w. change (set_timers ?t k) with (upd t k). by rewrite (run_calls_frames cb _ Hft). }
  destruct (existsb (newly_due now) ts) eqn:Ed.
  - cbn [raise softirq_port snd]. set (w1 := upd _ w).
    assert (view w1 = {| handlers := handlers (k_softirq k); handler_ctx := handler_ctx (k_softirq k); pending_mask := 1 |}) as Hv1.
    { unfold w1. rewrite view_upd. change (view w) with (k_softirq k). unfold qos_softirq_raise. cbn. by rewrite Hm. }
    assert (upd (set_mask 0 (view w1)) w1 = w) as Hw1.
    { unfold w1 at 2. rewrite upd_upd, Hv1. by rewrite Hw at 2. }
    assert (∀ c, kernel_call img cb poll fuel (i_timer_handler img) c w
      = set_timers {| g_timers := after_tick now <$> ts; g_jiffies := now |} (run_calls cb (mjoin (expired_calls now <$> ts)) k)) as Hc.
    { intros c. unfold kernel_call. by rewrite Z.eqb_refl, Hfire. }
    rewrite (run_one_vector _ (i_timer_handler img)); rewrite ?Hw1, ?Hc, ?Hv1; [done|done|by cbn; rewrite Hh|done|].
    change (k_softirq (set_timers ?t ?k')) with (k_softirq k').
    change (pending_mask (view (S := softirq) (run_calls cb (mjoin (expired_calls now <$> ts)) k)) = 0).
    by rewrite (frames_view (S := softirq) _ k (run_calls_frames cb _ Hfs)).
  - destruct (no_newly_due now ts Hmk Ed) as (E1 & E3 & E2). rewrite E1, E2. unfold qos_softirq_run. cbn [softirq_loop].
    change (view w) with (k_softirq k). rewrite Hm. unfold w. by rewrite E3.
Qed.




(** A one-shot timer due after three ticks and a later one; the callback leaves
    its arguments in [k_init]. *)
Definition demo_ticking : kernel :=
  set_timers (qos_timer_add 9 0 300 3 (qos_timer_add 3 0 100 1 qos_timer_reset).2).2
    (booted demo_image qos_pmm_reset (replicate 64 (replicate 32 0))).

Definition demo_cb (fn c : Z) (k : kernel) : kernel := set_init (1000 * fn + c) k.

Lemma demo_quiet : quiet demo_image demo_ticking.
Proof.
  split.
  - by exists [12; 13; 0; 0; 0; 0; 0].
  - split; [done..|by vm_compute].
  - done.
  - split; [done| |by vm_compute]. apply (bool_decide_unpack _). vm_compute. exact I.
  - apply (bool_decide_unpack _). vm_compute. exact I.
Qed.

Lemma kernel_tick_runs_due_timers_witness :
  ∃ k, qos_softirq_run (kernel_call demo_image demo_cb (λ _ _ _ k, (0, k)) 100) 9 (qos_timer_tick 3 demo_ticking) = Some (1, k)
       ∧ k_init k = 100001.
Proof.
  pose proof (kernel_tick_runs_due_timers demo_image demo_cb (λ _ _ _ k, (0, k)) 100 3 demo_ticking ltac:(done) demo_quiet
    ltac:(by intros fn c t []) ltac:(by intros fn c t []) ltac:(lia)) as H.
  change (g_jiffies (k_timers demo_ticking)) with 0 in H. cbn [Z.add] in H. specialize (H ltac:(lia) ltac:(lia)).
  eexists. split; [exact H|]. lazy. reflexivity.
Defined.
