(* ===== verification/Render.v ===== *)
(** * Rendering text into a bounded buffer (c-os/kernel/syscall/syscall.c)

    The [render_append_*] functions behind the files of /proc.  They write a
    character only while it leaves room for the final NUL, but count every
    character, so that the caller learns the full length.  Each is shown to
    append the bytes it prints. *)

From S2P Require Import Prelude NameBuf.

(** The buffer ([None]: the pointer is NULL) and the offset returned so far. *)
Record rbuf := { r_out : option (list Z); r_off : Z }.

(** [if (out != 0 && off + i + 1u < cap) out[off + i] = c;] *)
Definition put (cap off i c : Z) (out : option (list Z)) : option (list Z) :=
  match out with
  | None => None
  | Some b => if u32 (off + i + 1) <? cap then Some (<[Z.to_nat (u32 (off + i)) := c]> b) else Some b
  end.

(** The characters [cs] at [off + i], [off + i + 1], ... *)
Fixpoint put_from (cap off i : Z) (cs : list Z) (out : option (list Z)) : option (list Z) :=
  match cs with
  | [] => out
  | c :: cs' => put_from cap off (i + 1) cs' (put cap off i c out)
  end.

Definition append (cap : Z) (cs : list Z) (r : rbuf) : rbuf :=
  {| r_out := put_from cap (r_off r) 0 cs (r_out r); r_off := u32 (r_off r + Z.of_nat (length cs)) |}.

(** [text] is a C string without its NUL, [None] for a NULL pointer. *)
Definition render_append_text (cap : Z) (text : option (list Z)) (r : rbuf) : rbuf :=
  match text with None => r | Some cs => append cap cs r end.

Definition render_append_u32 (cap value : Z) (r : rbuf) : rbuf :=
  if value =? 0 then render_append_text cap (Some (bytes_of "0")) r
  else let tmp := digits 16 value in append cap (reverse tmp) r.

Definition hex : list Z := bytes_of "0123456789abcdef".
Definition hex_char (nibble : Z) : Z := nth (Z.to_nat nibble) hex 0.

(** [tmp[n++] = hex[value & 0xF]; value >>= 4;] at most [room] times. *)
Fixpoint hex_digits (room : nat) (value : Z) : list Z :=
  match room with
  | O => []
  | S room' => if value =? 0 then [] else hex_char (Z.land value 15) :: hex_digits room' (Z.shiftr value 4)
  end.

Definition render_append_u32_hex (cap value : Z) (r : rbuf) : rbuf :=
  if value =? 0 then render_append_text cap (Some (bytes_of "0")) r
  else let tmp := hex_digits 8 value in append cap (reverse tmp) r.

Definition fixed_hex (value : Z) (digits : nat) : list Z :=
  (λ i, hex_char (Z.land (Z.shiftr value (Z.of_nat (digits - 1 - i) * 4)) 15)) <$> seq 0 digits.

Definition render_append_u64_hex_fixed (cap value : Z) (digits : nat) (r : rbuf) : rbuf :=
  append cap (fixed_hex value (Nat.min digits 16)) r.

(** ** Appending composes *)

Lemma u32_add a b : u32 (u32 a + b) = u32 (a + b).
Proof. unfold wrap. by rewrite Zplus_mod_idemp_l. Qed.

Lemma put_shift cap off n i c out : put cap (u32 (off + n)) i c out = put cap off (n + i) c out.
Proof.
  unfold put. replace (u32 (off + n) + i + 1) with (u32 (off + n) + (i + 1)) by lia. rewrite !u32_add.
  by replace (off + (n + i) + 1) with (off + n + (i + 1)) by lia; replace (off + (n + i)) with (off + n + i) by lia.
Qed.

Lemma put_from_shift cap off n i cs out : put_from cap (u32 (off + n)) i cs out = put_from cap off (n + i) cs out.
Proof.
  revert i out. induction cs as [|c cs IH]; intros i out; [done|]. cbn [put_from].
  rewrite IH, put_shift. by replace (n + (i + 1)) with (n + i + 1) by lia.
Qed.

Lemma put_from_app cap off i cs ds out :
  put_from cap off i (cs ++ ds) out = put_from cap off (i + Z.of_nat (length cs)) ds (put_from cap off i cs out).
Proof.
  revert i out. induction cs as [|c cs IH]; intros i out; cbn [put_from app length]; [by rewrite Z.add_0_r|].
  rewrite IH. by replace (i + 1 + Z.of_nat (length cs)) with (i + Z.of_nat (S (length cs))) by lia.
Qed.

Lemma append_app cap cs ds r : append cap ds (append cap cs r) = append cap (cs ++ ds) r.
Proof.
  unfold append. cbn [r_out r_off]. rewrite put_from_shift, put_from_app, u32_add, length_app, Z.add_0_r. f_equal. f_equal. lia.
Qed.

Lemma append_nil cap r : in_width 32 (r_off r) → append cap [] r = r.
Proof. intros H. destruct r as [out off]. unfold append. cbn. by rewrite Z.add_0_r, wrap_small. Qed.

(** What the number printers append. *)
Definition dec (v : Z) : list Z := if v =? 0 then bytes_of "0" else decimal v.
Definition hexnum (v : Z) : list Z := if v =? 0 then bytes_of "0" else reverse (hex_digits 8 v).

Lemma render_u32_append cap v r : render_append_u32 cap v r = append cap (dec v) r.
Proof. unfold render_append_u32, dec. by destruct (v =? 0). Qed.

Lemma render_u32_hex_append cap v r : render_append_u32_hex cap v r = append cap (hexnum v) r.
Proof. unfold render_append_u32_hex, hexnum. by destruct (v =? 0). Qed.

(** ** What the buffer holds *)

(** The first [min (length t) (cap - 1)] bytes of [t], then the old contents. *)
Definition overlay (cap : nat) (t b : list Z) : list Z :=
  let n := Nat.min (length t) (cap - 1) in take n t ++ drop n b.

Lemma overlay_snoc cap t c b :
  length b = cap → (length t < cap - 1)%nat → overlay cap (t ++ [c]) b = <[length t := c]> (overlay cap t b).
Proof.
  intros Hb Ht. unfold overlay. rewrite length_app. cbn [length]. rewrite !Nat.min_l by lia.
  rewrite !take_ge by (rewrite ?length_app; cbn [length]; lia).
  destruct (drop (length t) b) as [|x rest] eqn:E.
  { apply (f_equal length) in E. rewrite length_drop in E. cbn in E. lia. }
  rewrite insert_app_r_alt, Nat.sub_diag by lia. cbn [insert list_insert]. rewrite <- (assoc_L (++)). cbn [app].
  f_equal. f_equal. replace (length t + 1)%nat with (S (length t)) by lia.
  by rewrite <- Nat.add_1_r, <- drop_drop, E.
Qed.

Lemma overlay_full cap t c b : (cap - 1 <= length t)%nat → overlay cap (t ++ [c]) b = overlay cap t b.
Proof.
  intros Ht. unfold overlay. rewrite length_app. cbn [length]. rewrite !Nat.min_r by lia. by rewrite take_app_le by lia.
Qed.

Lemma put_from_overlay cap t cs b :
  length b = cap → Z.of_nat (length t + length cs) + 1 < 2 ^ 32 → (0 < cap)%nat →
  put_from (Z.of_nat cap) 0 (Z.of_nat (length t)) cs (Some (overlay cap t b)) = Some (overlay cap (t ++ cs) b).
Proof.
  intros Hb. revert t. induction cs as [|c cs IH]; intros t Hl Hc; cbn [put_from length] in *; [by rewrite app_nil_r|].
  rewrite cons_middle, (assoc_L (++)). rewrite <- IH by (rewrite ?length_app; cbn [length]; lia).
  rewrite length_app. cbn [length]. replace (Z.of_nat (length t + 1)) with (Z.of_nat (length t) + 1) by lia. f_equal.
  cbn [put]. rewrite Z.add_0_l, !wrap_small by (unfold in_width; lia).
  destruct (Z.ltb_spec (Z.of_nat (length t) + 1) (Z.of_nat cap)).
  - rewrite overlay_snoc by lia. by rewrite Nat2Z.id.
  - by rewrite overlay_full by lia.
Qed.

(** The whole text into a fresh buffer. *)
Lemma append_overlay cap t b :
  length b = cap → Z.of_nat (length t) + 1 < 2 ^ 32 → (0 < cap)%nat →
  append (Z.of_nat cap) t {| r_out := Some b; r_off := 0 |} = {| r_out := Some (overlay cap t b); r_off := Z.of_nat (length t) |}.
Proof.
  intros Hb Hl Hc. unfold append. cbn [r_out r_off]. rewrite Z.add_0_l, wrap_small by (unfold in_width; lia). f_equal.
  pose proof (put_from_overlay cap [] t b Hb ltac:(cbn [length]; lia) Hc) as E. exact E.
Qed.

Lemma put_from_null cap off i cs : put_from cap off i cs None = None.
Proof. revert i. induction cs as [|c cs IH]; intros i; cbn [put_from put]; [done|apply IH]. Qed.

(** ** Lengths *)

Lemma dec_length v : 0 <= v < 2 ^ 32 → (length (dec v) <= 10)%nat.
Proof.
  intros Hv. unfold dec. destruct (Z.eqb_spec v 0); [cbn; lia|]. pose proof (decimal_length v ltac:(lia)). lia.
Qed.

Lemma hex_digits_length room v : (length (hex_digits room v) <= room)%nat.
Proof. revert v. induction room as [|room IH]; intros v; cbn; [lia|]. destruct (v =? 0); cbn; [lia|]. specialize (IH (Z.shiftr v 4)). lia. Qed.

Lemma hexnum_length v : (length (hexnum v) <= 8)%nat.
Proof. unfold hexnum. destruct (v =? 0); [cbn; lia|]. rewrite length_reverse. apply hex_digits_length. Qed.

Lemma fixed_hex_length v n : length (fixed_hex v n) = n.
Proof. unfold fixed_hex. by rewrite length_fmap, length_seq. Qed.
