(* ===== verification/Procfs.v ===== *)
(** * The files of /proc (c-os/kernel/syscall/syscall.c)

    [proc_fd_render] writes the text of a /proc descriptor from the state of the
    whole kernel; READ copies a part of it through a 2048-byte buffer on the
    stack.  The texts are given a second time as plain concatenations, and the
    rendering is shown to produce them. *)

From S2P Require Import Prelude SlotTable Pmm Vmm Sched NameBuf Kthread Vfs Drivers Packet Net Proc SyscallTable Fds.
From S2P Require Import Lifetimes Modules SocketState SocketCalls Descriptors ProcPath Render Kernel.

(** String literals as in C: backslash-t and backslash-n are single characters. *)
Fixpoint unescape (l : list Z) : list Z :=
  match l with
  | 92 :: 116 :: l' => 9 :: unescape l'
  | 92 :: 110 :: l' => 10 :: unescape l'
  | c :: l' => c :: unescape l'
  | [] => []
  end.

Definition lit (s : string) : list Z := unescape (bytes_of s).

#[local] Notation "r |> f" := (f r) (at level 50, left associativity, only parsing) : qos_scope.

(** ** Rendering *)

Section render.
Context (cap : Z).

Definition txt (s : string) (r : rbuf) : rbuf := render_append_text cap (Some (lit s)) r.
Definition num (v : Z) (r : rbuf) : rbuf := render_append_u32 cap v r.

Definition render_meminfo (k : kernel) (r : rbuf) : rbuf :=
  r |> txt "MemTotal:\t" |> num (u32 (qos_pmm_total_pages (k_pmm k) * 4))
    |> txt " kB\nMemFree:\t" |> num (u32 (qos_pmm_free_pages (k_pmm k) * 4))
    |> txt " kB\nProcCount:\t" |> num (qos_proc_count (k_procs k)) |> txt "\n".

Definition render_kernel_status (k : kernel) (r : rbuf) : rbuf :=
  r |> txt "InitState:\t" |> num (qos_kernel_init_state k)
    |> txt "\nPmmTotal:\t" |> num (qos_pmm_total_pages (k_pmm k))
    |> txt "\nPmmFree:\t" |> num (qos_pmm_free_pages (k_pmm k))
    |> txt "\nSchedCount:\t" |> num (qos_sched_count (k_sched k))
    |> txt "\nVfsCount:\t" |> num (qos_vfs_count (k_vfs k))
    |> txt "\nNetQueue:\t" |> num (qos_net_queue_len (n_packets (io_net (k_io k))))
    |> txt "\nDrivers:\t" |> num (qos_drivers_count (k_drivers k))
    |> txt "\nSyscalls:\t" |> num (qos_syscall_count (k_table k))
    |> txt "\nProcCount:\t" |> num (qos_proc_count (k_procs k)) |> txt "\n".

Definition render_net_dev (k : kernel) (r : rbuf) : rbuf :=
  let q := qos_net_queue_len (n_packets (io_net (k_io k))) in
  r |> txt "Inter-|   Receive                 |  Transmit\n" |> txt " eth0: " |> num q
    |> txt " packets              " |> num q |> txt " packets\n".

Definition render_syscalls (k : kernel) (r : rbuf) : rbuf :=
  r |> txt "SyscallCount:\t" |> num (qos_syscall_count (k_table k)) |> txt "\n".

Definition render_uptime (r : rbuf) : rbuf := r |> txt "0.00 0.00\n".

(** A name buffer after a getter that may have failed. *)
Definition fetched (got : Z * option (list Z)) : list Z :=
  match got with (n, Some bytes) => if n <? 0 then [] else c_string bytes | (_, None) => [] end.

(** [name[0] != '\0' ? name : "none"] *)
Definition or_none (name : list Z) : list Z := match name with [] => lit "none" | _ => name end.

Definition proc_name (pid : Z) (k : kernel) : list Z :=
  fetched (qos_proc_name_get pid true (Z.of_nat QOS_PROC_NAME_MAX) (k_procs k)).
Definition thread_name (tid : Z) (k : kernel) : list Z :=
  fetched (qos_kthread_name_get tid true (Z.of_nat QOS_KTHREAD_NAME_MAX) (k_kthreads k)).

(** One mapping, the loop body behind "Map". *)
Definition render_mapping (idx va pa flags : Z) (r : rbuf) : rbuf :=
  r |> txt "Map" |> num idx |> txt ":\t0x" |> render_append_u64_hex_fixed cap va 16
    |> txt "->0x" |> render_append_u64_hex_fixed cap pa 16
    |> txt " f=0x" |> render_append_u32_hex cap flags |> txt "\n".

Definition render_asid_map (asid idx : Z) (k : kernel) (r : rbuf) : rbuf :=
  match qos_vmm_mapping_get_as asid idx true (k_vmm k) with
  | (0, Some (va, pa, flags)) => render_mapping idx va pa flags r
  | _ => r
  end.

Definition render_proc_map (pidx midx : Z) (k : kernel) (r : rbuf) : rbuf :=
  match qos_vmm_mapping_get_as pidx midx true (k_vmm k) with
  | (0, Some (va, pa, flags)) => r |> txt "  P" |> num pidx |> render_mapping midx va pa flags
  | _ => r
  end.

(** The body of the process loop, with its [seen] counter. *)
Definition render_proc (current_pid asid : Z) (k : kernel) (st : rbuf * Z) (pidx : Z) : rbuf * Z :=
  let '(r, seen) := st in
  if negb (qos_proc_alive pidx (k_procs k) =? 0) then
    let p_maps := qos_vmm_mapping_count_as pidx (k_vmm k) in
    let r := r |> txt "Proc" |> num seen |> txt ":\tpid=" |> num pidx |> txt " name="
               |> render_append_text cap (Some (or_none (proc_name pidx k))) |> txt " maps=" |> num p_maps in
    let r := if pidx =? current_pid then r |> txt " current" else r in
    let r := if pidx =? asid then r |> txt " asid" else r in
    let r := r |> txt "\n" in
    (foldl (λ r midx, render_proc_map pidx midx k r) r (seqZ 0 p_maps), u32 (seen + 1))
  else st.

Definition render_runtime_map (k : kernel) (r : rbuf) : rbuf :=
  let current_pid := qos_sched_current (k_sched k) in
  let current_tid := qos_kthread_current_tid (k_kthreads k) in
  let asid := qos_vmm_get_asid (k_vmm k) in
  let map_count := qos_vmm_mapping_count_as asid (k_vmm k) in
  let pname := if negb (current_pid =? 0) then proc_name current_pid k else [] in
  let tname := if negb (current_tid =? 0) then thread_name current_tid k else [] in
  let r := r |> txt "CurrentPid:\t" |> num current_pid
    |> txt "\nCurrentProc:\t" |> render_append_text cap (Some (or_none pname))
    |> txt "\nCurrentTid:\t" |> num current_tid
    |> txt "\nCurrentThread:\t" |> render_append_text cap (Some (or_none tname))
    |> txt "\nCurrentAsid:\t" |> num asid |> txt "\nMappings:\t" |> num map_count
    |> txt "\nProcesses:\t" |> num (qos_proc_count (k_procs k)) |> txt "\n" in
  let r := foldl (λ r idx, render_asid_map asid idx k r) r (seqZ 0 map_count) in
  (foldl (render_proc current_pid asid k) (r, 0) (seqZ 1 255)).1.

Definition render_status (pid : Z) (k : kernel) (r : rbuf) : rbuf :=
  let state := if negb (qos_proc_alive pid (k_procs k) =? 0) then "Running" else "Zombie" in
  r |> txt "Pid:\t" |> num pid |> txt "\nState:\t" |> txt state |> txt "\n".

(** [None]: a kind that renders nothing. *)
Definition render_kind (kind pid : Z) (k : kernel) (r : rbuf) : option rbuf :=
  if kind =? QOS_PROC_FD_MEMINFO then Some (render_meminfo k r)
  else if kind =? QOS_PROC_FD_KERNEL_STATUS then Some (render_kernel_status k r)
  else if kind =? QOS_PROC_FD_NET_DEV then Some (render_net_dev k r)
  else if kind =? QOS_PROC_FD_SYSCALLS then Some (render_syscalls k r)
  else if kind =? QOS_PROC_FD_UPTIME then Some (render_uptime r)
  else if kind =? QOS_PROC_FD_RUNTIME_MAP then Some (render_runtime_map k r)
  else if kind =? QOS_PROC_FD_STATUS then Some (render_status pid k r)
  else None.

End render.

(** The text length and the buffer; [out] is [None] for a NULL pointer. *)
Definition proc_fd_render (fd : Z) (out : option (list Z)) (cap : Z) (k : kernel) : Z * option (list Z) :=
  let f := get_fd fd (k_io k) in
  if (Z.of_nat QOS_FD_MAX <=? fd) || negb (bool_decide (f_kind f = KProc)) then (0, out)
  else
    match render_kind cap (f_proc_kind f) (f_proc_pid f) k {| r_out := out; r_off := 0 |} with
    | None => (0, out)
    | Some r =>
        let total := r_off r in
        match r_out r with
        | None => (total, None)
        | Some b =>
            if cap =? 0 then (total, Some b)
            else
              let copy_len := if cap <? total then cap else total in
              if (0 <? copy_len) && (copy_len <=? cap) then
                if copy_len =? cap then (total, Some (<[Z.to_nat (cap - 1) := 0]> b))
                else (total, Some (<[Z.to_nat copy_len := 0]> b))
              else (total, Some b)
        end
    end.

Definition TMP_MAX : nat := 2048.

(** READ on a /proc descriptor; [tmp] is what the stack buffer held, and [None]
    is a read outside it. *)
Definition read_proc (fd len : Z) (tmp : list Z) (k : kernel) : option (Z * list Z * kernel) :=
  let f := get_fd fd (k_io k) in
  let offset := u32 (f_offset f) in
  let '(total, out) := proc_fd_render fd (Some tmp) (Z.of_nat TMP_MAX) k in
  let b := default [] out in
  if total <=? offset then Some (0, [], k)
  else
    let copy_len := if len <? total - offset then len else total - offset in
    if copy_len =? 0 then Some (0, [], k)
    else if Z.of_nat (length b) <? offset + copy_len then None
    else Some (copy_len, take (Z.to_nat copy_len) (drop (Z.to_nat offset) b),
               set_io (set_fd fd (with_offset (u32 (offset + copy_len)) f) (k_io k)) k).

(** ** The texts *)

Definition meminfo_text (k : kernel) : list Z :=
  lit "MemTotal:\t" ++ dec (u32 (qos_pmm_total_pages (k_pmm k) * 4))
  ++ lit " kB\nMemFree:\t" ++ dec (u32 (qos_pmm_free_pages (k_pmm k) * 4))
  ++ lit " kB\nProcCount:\t" ++ dec (qos_proc_count (k_procs k)) ++ lit "\n".

(** The status report, a line per field. *)
Definition kernel_status_text (s : qos_kernel_status_t) : list Z :=
  lit "InitState:\t" ++ dec (st_init_state s)
  ++ lit "\nPmmTotal:\t" ++ dec (st_pmm_total_pages s) ++ lit "\nPmmFree:\t" ++ dec (st_pmm_free_pages s)
  ++ lit "\nSchedCount:\t" ++ dec (st_sched_count s) ++ lit "\nVfsCount:\t" ++ dec (st_vfs_count s)
  ++ lit "\nNetQueue:\t" ++ dec (st_net_queue_len s) ++ lit "\nDrivers:\t" ++ dec (st_drivers_count s)
  ++ lit "\nSyscalls:\t" ++ dec (st_syscall_count s) ++ lit "\nProcCount:\t" ++ dec (st_proc_count s) ++ lit "\n".

Definition net_dev_text (k : kernel) : list Z :=
  let q := dec (qos_net_queue_len (n_packets (io_net (k_io k)))) in
  lit "Inter-|   Receive                 |  Transmit\n" ++ lit " eth0: " ++ q
  ++ lit " packets              " ++ q ++ lit " packets\n".

Definition syscalls_text (k : kernel) : list Z :=
  lit "SyscallCount:\t" ++ dec (qos_syscall_count (k_table k)) ++ lit "\n".

Definition mapping_text (idx : Z) (m : Z * Z * Z) : list Z :=
  lit "Map" ++ dec idx ++ lit ":\t0x" ++ fixed_hex m.1.1 16 ++ lit "->0x" ++ fixed_hex m.1.2 16
  ++ lit " f=0x" ++ hexnum m.2 ++ lit "\n".

(** The mappings of an address space, each behind [before]. *)
Definition maps_text (before : list Z) (asid : Z) (k : kernel) : list Z :=
  concat ((λ i, match qos_vmm_mapping_get_as asid i true (k_vmm k) with
                | (0, Some m) => before ++ mapping_text i m | _ => [] end)
          <$> seqZ 0 (qos_vmm_mapping_count_as asid (k_vmm k))).

Definition proc_text (k : kernel) (n pid : Z) : list Z :=
  lit "Proc" ++ dec n ++ lit ":\tpid=" ++ dec pid ++ lit " name=" ++ or_none (proc_name pid k)
  ++ lit " maps=" ++ dec (qos_vmm_mapping_count_as pid (k_vmm k))
  ++ (if pid =? qos_sched_current (k_sched k) then lit " current" else [])
  ++ (if pid =? qos_vmm_get_asid (k_vmm k) then lit " asid" else [])
  ++ lit "\n" ++ maps_text (lit "  P" ++ dec pid) pid k.

(** The live processes with a pid below 256, in order and numbered from 0. *)
Definition live_pids (k : kernel) (l : list Z) : list Z := filter (λ p, qos_proc_alive p (k_procs k) ≠ 0) l.

Definition procs_text (k : kernel) (seen : Z) (l : list Z) : list Z :=
  concat (imap (λ i p, proc_text k (seen + Z.of_nat i) p) (live_pids k l)).

Definition runtime_map_text (k : kernel) : list Z :=
  let pid := qos_sched_current (k_sched k) in
  let tid := qos_kthread_current_tid (k_kthreads k) in
  let asid := qos_vmm_get_asid (k_vmm k) in
  lit "CurrentPid:\t" ++ dec pid ++ lit "\nCurrentProc:\t" ++ or_none (if pid =? 0 then [] else proc_name pid k)
  ++ lit "\nCurrentTid:\t" ++ dec tid ++ lit "\nCurrentThread:\t" ++ or_none (if tid =? 0 then [] else thread_name tid k)
  ++ lit "\nCurrentAsid:\t" ++ dec asid ++ lit "\nMappings:\t" ++ dec (qos_vmm_mapping_count_as asid (k_vmm k))
  ++ lit "\nProcesses:\t" ++ dec (qos_proc_count (k_procs k)) ++ lit "\n"
  ++ maps_text [] asid k ++ procs_text k 0 (seqZ 1 255).

Definition status_text (pid : Z) (k : kernel) : list Z :=
  lit "Pid:\t" ++ dec pid ++ lit "\nState:\t"
  ++ lit (if qos_proc_alive pid (k_procs k) =? 0 then "Zombie" else "Running") ++ lit "\n".

Definition kind_text (kind pid : Z) (k : kernel) : list Z :=
  if kind =? QOS_PROC_FD_MEMINFO then meminfo_text k
  else if kind =? QOS_PROC_FD_KERNEL_STATUS then kernel_status_text (kernel_status k)
  else if kind =? QOS_PROC_FD_NET_DEV then net_dev_text k
  else if kind =? QOS_PROC_FD_SYSCALLS then syscalls_text k
  else if kind =? QOS_PROC_FD_UPTIME then lit "0.00 0.00\n"
  else if kind =? QOS_PROC_FD_RUNTIME_MAP then runtime_map_text k
  else status_text pid k.

(** ** Rendering appends the text *)

Lemma append_width cap t r : in_width 32 (r_off (append cap t r)).
Proof. apply wrap_range. lia. Qed.

#[local] Hint Resolve append_width : render.

(** Runs a chain of appends and compares the bytes. *)
Ltac render_chain :=
  unfold txt, num, render_append_u64_hex_fixed; cbn [render_append_text Nat.min];
  rewrite ?render_u32_append, ?render_u32_hex_append, ?append_app, <- ?(assoc_L (++)).

Lemma foldl_append cap (f : rbuf → Z → rbuf) (g : Z → list Z) l r :
  in_width 32 (r_off r) → (∀ r i, in_width 32 (r_off r) → f r i = append cap (g i) r) →
  foldl f r l = append cap (concat (g <$> l)) r.
Proof.
  intros Hr Hf. revert r Hr. induction l as [|i l IH]; intros r Hr; cbn [foldl]; [by rewrite append_nil|].
  rewrite Hf, IH by auto with render. by rewrite append_app.
Qed.

Lemma render_mapping_append cap idx va pa flags r :
  render_mapping cap idx va pa flags r = append cap (mapping_text idx (va, pa, flags)) r.
Proof. unfold render_mapping, mapping_text. render_chain. done. Qed.

Lemma asid_maps_append cap asid k r :
  in_width 32 (r_off r) →
  foldl (λ r idx, render_asid_map cap asid idx k r) r (seqZ 0 (qos_vmm_mapping_count_as asid (k_vmm k)))
  = append cap (maps_text [] asid k) r.
Proof.
  intros Hr. apply foldl_append; [done|]. intros r' i Hr'. unfold render_asid_map.
  destruct (qos_vmm_mapping_get_as _ _ _ _) as [[] [[[va pa] fl]|]]; rewrite ?append_nil by done; try done.
  apply render_mapping_append.
Qed.

Lemma proc_maps_append cap pid k r :
  in_width 32 (r_off r) →
  foldl (λ r midx, render_proc_map cap pid midx k r) r (seqZ 0 (qos_vmm_mapping_count_as pid (k_vmm k)))
  = append cap (maps_text (lit "  P" ++ dec pid) pid k) r.
Proof.
  intros Hr. apply foldl_append; [done|]. intros r' i Hr'. unfold render_proc_map.
  destruct (qos_vmm_mapping_get_as _ _ _ _) as [[] [[[va pa] fl]|]]; rewrite ?append_nil by done; try done.
  rewrite render_mapping_append. render_chain. done.
Qed.

Lemma append_if cap (c : bool) t r :
  in_width 32 (r_off r) → (if c then append cap t r else r) = append cap (if c then t else []) r.
Proof. intros Hr. destruct c; [done|]. by rewrite append_nil. Qed.

Lemma render_proc_append cap k r seen pid :
  let st := render_proc cap (qos_sched_current (k_sched k)) (qos_vmm_get_asid (k_vmm k)) k (r, seen) pid in
  st = if qos_proc_alive pid (k_procs k) =? 0 then (r, seen) else (append cap (proc_text k seen pid) r, u32 (seen + 1)).
Proof.
  cbv zeta. unfold render_proc. destruct (qos_proc_alive pid (k_procs k) =? 0); cbn [negb]; [done|].
  cbv zeta. unfold txt, num. cbn [render_append_text]. rewrite !render_u32_append.
  rewrite (append_if _ (pid =? qos_sched_current _)), (append_if _ (pid =? qos_vmm_get_asid _)), !append_app by auto with render.
  rewrite proc_maps_append, append_app by auto with render.
  unfold proc_text. by rewrite <- !(assoc_L (++)).
Qed.

Lemma procs_text_cons k seen pid l :
  procs_text k seen (pid :: l)
  = if qos_proc_alive pid (k_procs k) =? 0 then procs_text k seen l else proc_text k seen pid ++ procs_text k (seen + 1) l.
Proof.
  unfold procs_text, live_pids. destruct (Z.eqb_spec (qos_proc_alive pid (k_procs k)) 0) as [E|E].
  - by rewrite filter_cons_False by congruence.
  - rewrite filter_cons_True, imap_cons by done. cbn [concat]. rewrite Z.add_0_r. f_equal. f_equal.
    apply imap_ext. intros i p _. unfold compose. f_equal. lia.
Qed.

Lemma render_procs_append cap k l r seen :
  in_width 32 (r_off r) → 0 <= seen → seen + Z.of_nat (length l) < 2 ^ 32 →
  (foldl (render_proc cap (qos_sched_current (k_sched k)) (qos_vmm_get_asid (k_vmm k)) k) (r, seen) l).1
  = append cap (procs_text k seen l) r.
Proof.
  revert r seen. induction l as [|pid l IH]; intros r seen Hr Hs Hl; cbn [length] in Hl.
  { cbn. by rewrite append_nil. }
  cbn [foldl]. rewrite render_proc_append, procs_text_cons. destruct (_ =? 0); [apply IH; (done || lia)|].
  rewrite wrap_small by (unfold in_width; lia). rewrite IH by first [apply append_width | lia]. by rewrite append_app.
Qed.

Lemma render_runtime_append cap k r : render_runtime_map cap k r = append cap (runtime_map_text k) r.
Proof.
  unfold render_runtime_map. cbv zeta. unfold txt, num. cbn [render_append_text].
  rewrite !render_u32_append, !append_app. rewrite asid_maps_append by auto with render.
  rewrite render_procs_append by first [apply append_width | rewrite ?length_seqZ; lia]. rewrite !append_app. unfold runtime_map_text.
  rewrite <- !(assoc_L (++)).
  by destruct (qos_sched_current (k_sched k) =? 0), (qos_kthread_current_tid (k_kthreads k) =? 0).
Qed.

Definition known_kind (kind : Z) : Prop := 1 <= kind <= 7.

Lemma render_kind_append cap kind pid k r :
  known_kind kind → render_kind cap kind pid k r = Some (append cap (kind_text kind pid k) r).
Proof.
  intros Hk. unfold known_kind in Hk.
  assert (kind = 1 ∨ kind = 2 ∨ kind = 3 ∨ kind = 4 ∨ kind = 5 ∨ kind = 6 ∨ kind = 7) as H by lia. clear Hk.
  destruct H as [->|[->|[->|[->|[->|[->| ->]]]]]]; cbn [render_kind kind_text]; unfold render_kind, kind_text;
    cbn [Z.eqb Pos.eqb QOS_PROC_FD_MEMINFO QOS_PROC_FD_KERNEL_STATUS QOS_PROC_FD_NET_DEV QOS_PROC_FD_SYSCALLS
         QOS_PROC_FD_UPTIME QOS_PROC_FD_RUNTIME_MAP QOS_PROC_FD_STATUS]; f_equal.
  - unfold render_meminfo, meminfo_text. render_chain. done.
  - unfold render_status, status_text. render_chain. by destruct (_ =? 0).
  - unfold render_kernel_status, kernel_status_text, kernel_status.
    cbn [st_init_state st_pmm_total_pages st_pmm_free_pages st_sched_count st_vfs_count st_net_queue_len st_drivers_count st_syscall_count st_proc_count].
    render_chain. done.
  - unfold render_net_dev, net_dev_text. render_chain. done.
  - unfold render_syscalls, syscalls_text. render_chain. done.
  - apply render_runtime_append.
Qed.

(** ** Lengths *)

Definition len (l : list Z) : Z := Z.of_nat (length l).

Lemma len_app l1 l2 : len (l1 ++ l2) = len l1 + len l2.
Proof. unfold len. rewrite length_app. lia. Qed.

Lemma len_concat m ls : Forall (λ l, len l <= m) ls → len (concat ls) <= Z.of_nat (length ls) * m.
Proof.
  induction 1 as [|l ls Hl _ IH]; [done|]. cbn [concat length]. rewrite len_app. lia.
Qed.

Lemma len_dec v : len (dec v) <= 16.
Proof.
  unfold len, dec. destruct (v =? 0); [done|]. unfold decimal. rewrite length_reverse.
  assert (∀ n w, (length (digits n w) <= n)%nat) as H.
  { induction n as [|n IH]; intros w; cbn [digits length]; [lia|]. destruct (w =? 0); cbn [length]; [lia|]. specialize (IH (w / 10)). lia. }
  specialize (H 16%nat v). lia.
Qed.

Lemma c_string_length l : (length (c_string l) <= length l)%nat.
Proof. induction l as [|c l IH]; cbn; [lia|]. destruct (c =? 0); cbn; lia. Qed.

Lemma or_none_length l n : len l <= n → 4 <= n → len (or_none l) <= n.
Proof. destruct l; [intros _|done]. change (len (or_none [])) with 4. lia. Qed.

Lemma fetched_length r o n : (∀ l, o = Some l → len l <= n) → 0 <= n → len (fetched (r, o)) <= n.
Proof.
  intros H Hn. destruct o as [l|]; cbn [fetched]; [|done]. destruct (r <? 0); [done|].
  pose proof (c_string_length l). specialize (H l eq_refl). unfold len in *. lia.
Qed.

Lemma proc_name_length pid k : len (or_none (proc_name pid k)) <= 32.
Proof.
  apply or_none_length; [|lia]. unfold proc_name, qos_proc_name_get, QOS_PROC_NAME_MAX, NAME_MAX.
  destruct (Proc.find_pid pid (k_procs k)) as [i|]; [|done]. destruct (negb true || _); [done|].
  cbv zeta. destruct (Z.ltb_spec (Z.of_nat 32) (p_name_len (get_proc i (k_procs k)) + 1)); [done|].
  apply fetched_length; [|lia]. intros l [= <-]. unfold len. rewrite length_take. lia.
Qed.

Lemma thread_name_length tid k : len (or_none (thread_name tid k)) <= 32.
Proof.
  apply or_none_length; [|lia]. unfold thread_name, qos_kthread_name_get, QOS_KTHREAD_NAME_MAX, NAME_MAX.
  destruct (find_slot_by_tid tid (k_kthreads k)) as [i|]; [|done]. destruct (negb true || _); [done|].
  cbv zeta. destruct (Z.ltb_spec (Z.of_nat 32) (default 0 (name_len <$> g_threads (k_kthreads k) !! i) + 1)); [done|].
  apply fetched_length; [|lia]. intros l [= <-]. unfold len. rewrite length_take. lia.
Qed.

(** Evaluates the lengths of literals and bounds the numbers in the goal. *)
Ltac text_bound :=
  rewrite ?len_app;
  repeat match goal with
  | |- context [len (lit ?s)] => let n := eval vm_compute in (len (lit s)) in change (len (lit s)) with n
  | |- context [len (fixed_hex ?v 16)] => replace (len (fixed_hex v 16)) with 16 by (unfold len; by rewrite fixed_hex_length)
  end;
  repeat match goal with |- context [len (dec ?v)] => generalize (len_dec v); generalize (len (dec v)); intros ? ? end.

Lemma mapping_text_length i m : len (mapping_text i m) <= 73.
Proof.
  unfold mapping_text. text_bound. assert (len (hexnum m.2) <= 8) by (unfold len; pose proof (hexnum_length m.2); lia). lia.
Qed.

Lemma maps_text_length before asid k :
  vmm_wf (k_vmm k) → 0 <= asid → len (maps_text before asid k) <= 2048 * (len before + 73).
Proof.
  intros Hwf Ha. assert (0 <= qos_vmm_mapping_count_as asid (k_vmm k) <= 2048) as Hc.
  { unfold qos_vmm_mapping_count_as. destruct (asid_valid asid) eqn:E; cbn [negb]; [|lia].
    destruct (asid_valid_row asid (k_vmm k) Hwf Ha E) as [_ Hr]. pose proof (count_if_le slot_used (row asid (k_vmm k))) as Hle.
    rewrite (rw_len _ Hr) in Hle. unfold count_used, QOS_VMM_MAX_MAPPINGS in *. lia. }
  assert (0 <= len before) by (unfold len; lia).
  etrans; [apply (len_concat (len before + 73))|rewrite length_fmap, length_seqZ; nia].
  apply Forall_fmap, Forall_forall. intros i _. unfold compose.
  destruct (qos_vmm_mapping_get_as _ _ _ _) as [[] [m|]]; try (change (len []) with 0; lia).
  rewrite len_app. pose proof (mapping_text_length i m). lia.
Qed.

Lemma proc_text_length k n pid : vmm_wf (k_vmm k) → 0 <= pid → len (proc_text k n pid) <= 200000.
Proof.
  intros Hwf Hp. unfold proc_text. rewrite !len_app.
  pose proof (proc_name_length pid k). pose proof (maps_text_length (lit "  P" ++ dec pid) pid k Hwf Hp) as Hm.
  assert (∀ (c : bool) s, len (if c then lit s else []) <= len (lit s)) as Hif by (intros [] s; unfold len; cbn [length]; lia).
  pose proof (Hif (pid =? qos_sched_current (k_sched k)) " current") as H1.
  pose proof (Hif (pid =? qos_vmm_get_asid (k_vmm k)) " asid") as H2. revert Hm H1 H2. text_bound. lia.
Qed.

Lemma procs_text_length k l seen :
  vmm_wf (k_vmm k) → Forall (λ p, 0 <= p) l → len (procs_text k seen l) <= Z.of_nat (length l) * 200000.
Proof.
  intros Hwf. revert seen. induction l as [|p l IH]; intros seen Hl; [done|]. apply Forall_cons in Hl as [Hp Hl].
  rewrite procs_text_cons. cbn [length]. pose proof (proc_text_length k seen p Hwf Hp).
  pose proof (IH seen Hl). pose proof (IH (seen + 1) Hl). destruct (_ =? 0); rewrite ?len_app; lia.
Qed.

Lemma kind_text_length kind pid k : vmm_wf (k_vmm k) → len (kind_text kind pid k) + 1 < 2 ^ 32.
Proof.
  intros Hwf. unfold kind_text.
  destruct (_ =? _); [unfold meminfo_text; text_bound; lia|].
  destruct (_ =? _); [unfold kernel_status_text; text_bound; lia|].
  destruct (_ =? _); [unfold net_dev_text; cbv zeta; text_bound; lia|].
  destruct (_ =? _); [unfold syscalls_text; text_bound; lia|]. destruct (_ =? _); [text_bound; lia|].
  destruct (_ =? _).
  - unfold runtime_map_text. cbv zeta. rewrite !len_app.
    pose proof (procs_text_length k (seqZ 1 255) 0 Hwf) as Hp. rewrite length_seqZ in Hp.
    assert (Forall (λ p, 0 <= p) (seqZ 1 255)) as Hf by (apply Forall_seqZ; lia). specialize (Hp Hf).
    pose proof (maps_text_length [] (qos_vmm_get_asid (k_vmm k)) k Hwf ltac:(apply Hwf)) as Hm. change (len []) with 0 in Hm.
    pose proof (proc_name_length (qos_sched_current (k_sched k)) k). pose proof (thread_name_length (qos_kthread_current_tid (k_kthreads k)) k).
    assert (∀ (c : bool) l, len (or_none l) <= 32 → len (or_none (if c then [] else l)) <= 32) as Hif by by intros [].
    pose proof (Hif (qos_sched_current (k_sched k) =? 0) _ H). pose proof (Hif (qos_kthread_current_tid (k_kthreads k) =? 0) _ H0).
    text_bound. lia.
  - unfold status_text. destruct (_ =? 0); text_bound; lia.
Qed.

Lemma kind_text_pos kind pid k : 0 < len (kind_text kind pid k).
Proof.
  assert (∀ a b, 0 < len a → 0 < len (a ++ b)) as H by (intros a b; rewrite len_app; unfold len; lia).
  unfold kind_text. repeat (destruct (_ =? _)); try (apply H; vm_compute; reflexivity). vm_compute; reflexivity.
Qed.

(** ** Rendering prints the text *)

(** The text cut to the buffer, with its NUL; the rest of the buffer is kept. *)
Definition printed (cap : nat) (t b : list Z) : list Z :=
  if (length t <? cap)%nat then t ++ 0 :: drop (S (length t)) b else take (cap - 1) t ++ [0].

Lemma overlay_nul cap t b :
  length b = cap → (0 < cap)%nat → <[Nat.min (length t) (cap - 1) := 0]> (overlay cap t b) = printed cap t b.
Proof.
  intros Hb Hc. unfold overlay, printed. set (n := Nat.min (length t) (cap - 1)).
  assert (length (take n t) = n) as Hn by (rewrite length_take; lia).
  rewrite insert_app_r_alt by lia. rewrite Hn, Nat.sub_diag.
  destruct (drop n b) as [|x rest] eqn:E; [apply (f_equal length) in E; rewrite length_drop in E; cbn in E; lia|].
  cbn [insert list_insert]. assert (rest = drop (S n) b) as -> by (by rewrite <- Nat.add_1_r, <- drop_drop, E).
  destruct (Nat.ltb_spec (length t) cap).
  - assert (n = length t) as -> by lia. by rewrite take_ge by lia.
  - assert (n = (cap - 1)%nat) as -> by lia. by rewrite (drop_ge b) by lia.
Qed.

Lemma printed_length cap t b : length b = cap → (0 < cap)%nat → length (printed cap t b) = cap.
Proof.
  intros Hb Hc. rewrite <- overlay_nul, length_insert by done. unfold overlay. rewrite length_app, length_take, length_drop. lia.
Qed.

(** An open descriptor of a /proc file. *)
Record proc_fd (fd kind pid : Z) (k : kernel) : Prop := {
  pf_range : 0 <= fd < Z.of_nat QOS_FD_MAX;
  pf_kind : f_kind (get_fd fd (k_io k)) = KProc;
  pf_known : known_kind kind;
  pf_row : f_proc_kind (get_fd fd (k_io k)) = kind ∧ f_proc_pid (get_fd fd (k_io k)) = pid
}.

Lemma render_printed fd kind pid k (b : list Z) cap :
  proc_fd fd kind pid k → vmm_wf (k_vmm k) → length b = cap → (0 < cap)%nat → Z.of_nat cap < 2 ^ 32 →
  let t := kind_text kind pid k in
  proc_fd_render fd None 0 k = (len t, None)
  ∧ proc_fd_render fd (Some b) (Z.of_nat cap) k = (len t, Some (printed cap t b)).
Proof.
  intros [Hfd Hk Hkn [Hrk Hrp]] Hwf Hb Hc Hc32 t. pose proof (kind_text_length kind pid k Hwf) as Hl. fold t in Hl.
  pose proof (kind_text_pos kind pid k) as Hpos. fold t in Hpos.
  unfold proc_fd_render. rewrite (proj2 (Z.leb_gt _ _)) by lia. rewrite bool_decide_eq_true_2 by done. cbn [orb negb].
  rewrite Hrk, Hrp, !render_kind_append by done. fold t. split.
  - unfold append. cbn [r_out r_off]. rewrite put_from_null, Z.add_0_l, wrap_small by (unfold in_width, len in *; lia). done.
  - rewrite append_overlay by (unfold len in *; (done || lia)). cbn [r_out r_off]. rewrite <- overlay_nul by done.
    rewrite (proj2 (Z.eqb_neq (Z.of_nat cap) 0)) by lia. fold (len t). cbv zeta. unfold len in *.
    destruct (Z.ltb_spec (Z.of_nat cap) (Z.of_nat (length t))).
    + rewrite (proj2 (Z.ltb_lt 0 _)), Z.leb_refl, Z.eqb_refl by lia. cbn [andb]. do 3 f_equal. lia.
    + rewrite (proj2 (Z.ltb_lt 0 _)), (proj2 (Z.leb_le _ _)) by lia. cbn [andb].
      destruct (Z.eqb_spec (Z.of_nat (length t)) (Z.of_nat cap)); do 3 f_equal; lia.
Qed.

(** C22: The files of /proc print the kernel's state. Rendering an open /proc
    descriptor returns the length of its text (the memory, status, network,
    system-call, uptime and runtime reports, or a process's status, written out
    from the kernel state) and leaves in the buffer the text, cut if it does not
    fit, always terminated by a NUL inside the buffer; the same length is
    returned for a NULL buffer. The length never overflows its 32 bits. *)
Theorem proc_fd_render_prints fd kind pid k (b : list Z) :
  kernel_ok k → proc_fd fd kind pid k → (0 < length b)%nat → Z.of_nat (length b) < 2 ^ 32 →
  let t := kind_text kind pid k in
  proc_fd_render fd None 0 k = (len t, None)
  ∧ proc_fd_render fd (Some b) (Z.of_nat (length b)) k = (len t, Some (printed (length b) t b))
  ∧ len t < 2 ^ 32 - 1.
Proof.
  intros Hk Hfd Hb Hb' t. destruct (render_printed fd kind pid k b (length b) Hfd (ko_vmm _ Hk) eq_refl Hb Hb') as [H1 H2].
  split; [done|]. split; [done|]. pose proof (kind_text_length kind pid k (ko_vmm _ Hk)). unfold t. lia.
Qed.

Lemma read_proc_spec fd kind pid k n (tmp : list Z) :
  vmm_wf (k_vmm k) → proc_fd fd kind pid k → length tmp = TMP_MAX → 0 <= n →
  let t := kind_text kind pid k in
  let f := get_fd fd (k_io k) in
  let off := u32 (f_offset f) in
  let m := Z.min n (Z.max 0 (len t - off)) in
  (len t < 2048 →
   read_proc fd n tmp k = Some (m, take (Z.to_nat m) (drop (Z.to_nat off) t),
                                if m =? 0 then k else set_io (set_fd fd (with_offset (off + m) f) (k_io k)) k))
  ∧ (read_proc fd n tmp k = None ↔ 0 < m ∧ 2048 < off + m).
Proof.
  intros Hk Hfd Htmp Hn t f off m. pose proof (kind_text_length kind pid k Hk) as Hl. fold t in Hl.
  destruct (render_printed fd kind pid k tmp TMP_MAX Hfd Hk Htmp ltac:(unfold TMP_MAX; lia) ltac:(unfold TMP_MAX; lia)) as [_ Hr].
  fold t in Hr. unfold read_proc. rewrite Hr. fold f off. cbv zeta.
  change (default [] (Some ?x)) with x. rewrite printed_length by (try done; unfold TMP_MAX; lia).
  assert (0 <= off < 2 ^ 32) as Hoff by (apply wrap_range; lia). change (Z.of_nat TMP_MAX) with 2048.
  destruct (Z.leb_spec (len t) off) as [Hend|Hend].
  { assert (m = 0) as -> by lia. split; [done|]. split; [done|lia]. }
  assert (m = if n <? len t - off then n else len t - off) as <- by (destruct (Z.ltb_spec n (len t - off)); lia).
  destruct (Z.eqb_spec m 0) as [->|Hm]; [split; [done|]; split; [done|lia]|].
  destruct (Z.ltb_spec 2048 (off + m)) as [Hb|Hb]; [split; [lia|]; split; [lia|done]|].
  split; [|split; [done|lia]]. intros Ht. unfold printed.
  rewrite (proj2 (Nat.ltb_lt _ _)) by (unfold len, TMP_MAX in *; lia).
  rewrite drop_app_le, take_app_le by (rewrite ?length_drop; unfold len in *; lia).
  do 3 f_equal. rewrite wrap_small by (unfold in_width; lia). done.
Qed.

(** C23: Reading a /proc file. While its text has fewer than 2048 bytes, READ
    returns the next bytes of the text from the descriptor's position, at most
    [n] and as many as are left, moves the position past them and changes nothing
    else; at the end it returns 0. None of the bytes comes from what the stack
    buffer held before. With a longer text READ leaves its buffer as soon as it
    is asked for bytes beyond the first 2048, and only then. *)
Theorem proc_read_exact fd kind pid k n (tmp : list Z) :
  kernel_ok k → proc_fd fd kind pid k → length tmp = TMP_MAX → 0 <= n →
  let t := kind_text kind pid k in
  let f := get_fd fd (k_io k) in
  let off := u32 (f_offset f) in
  let m := Z.min n (Z.max 0 (len t - off)) in
  (len t < 2048 →
   read_proc fd n tmp k = Some (m, take (Z.to_nat m) (drop (Z.to_nat off) t),
                                if m =? 0 then k else set_io (set_fd fd (with_offset (off + m) f) (k_io k)) k))
  ∧ (read_proc fd n tmp k = None ↔ 0 < m ∧ 2048 < off + m).
Proof. intros Hk. by apply read_proc_spec, ko_vmm. Qed.

(** ** Opening *)

(** OPEN of a /proc file, once the path is recognised. *)
Definition with_proc (kind pid : Z) (f : fd) : fd :=
  {| f_used := f_used f; f_kind := f_kind f; f_sock := f_sock f; f_io := f_io f; f_queue := f_queue f;
     f_pipe_id := f_pipe_id f; f_offset := f_offset f; f_file_id := f_file_id f; f_proc_kind := kind; f_proc_pid := pid |}.

Definition open_proc (kind pid : Z) (s : io) : Z * io :=
  let '(i, s1) := fd_alloc KProc s in
  if i <? 0 then (-1, s1) else (i, set_fd i (with_proc kind pid (get_fd i s1)) s1).

Lemma fd_alloc_proc_ok s : io_ok s → io_ok (fd_alloc KProc s).2.
Proof.
  intros Hs. pose proof (fd_alloc_spec KProc s) as Ha. destruct (fd_alloc KProc s) as [r s1]. cbn [snd].
  destruct Ha as [(_ & -> & _)|(i & f & _ & _ & Hf & Hu & ->)]; [done|]. unfold set_fd. rewrite Nat2Z.id.
  by apply (claim_row_ok i f).
Qed.

Lemma open_proc_ok kind pid s : io_ok s → io_ok (open_proc kind pid s).2.
Proof.
  intros Hs. unfold open_proc. pose proof (fd_alloc_proc_ok s Hs) as H1. destruct (fd_alloc KProc s) as [i s1]. cbn [snd] in H1.
  destruct (i <? 0); [done|]. by apply touch_row_ok.
Qed.

Lemma open_proc_sinv kind pid s : sinv s → sinv (open_proc kind pid s).2.
Proof.
  intros Hs. unfold open_proc. pose proof (fd_alloc_sinv KProc s Hs) as H1. destruct (fd_alloc KProc s) as [i s1]. cbn [snd] in H1.
  destruct (i <? 0); [done|]. apply sinv_row; [done|by split].
Qed.

(** A booted kernel with the given pages mapped and /proc/runtime/map open as
    descriptor 0. *)
Definition demo_pages (n : Z) : vmm := vmm_run ((λ p, OpMap 0 (p * 4096) (p * 4096) 3) <$> seqZ 1 n) qos_vmm_reset.

Definition demo_proc (pages : Z) : kernel :=
  let k := set_vmm (demo_pages pages) (booted demo_image qos_pmm_reset (replicate 64 (replicate 32 0))) in
  set_io (open_proc QOS_PROC_FD_RUNTIME_MAP 0 (k_io k)).2 k.

Lemma demo_proc_ok : kernel_ok (demo_proc 1).
Proof.
  destruct (booted_ok demo_image qos_pmm_reset (replicate 64 (replicate 32 0))) as [Hv ? ? ? ? ? ? ? Hio Hs ? ?];
    [done|by apply Forall_replicate|].
  split; try done.
  - apply vmm_run_wf; [done|]. apply Forall_cons. by repeat split.
  - by apply open_proc_ok.
  - by apply open_proc_sinv.
Qed.

Lemma demo_proc_fd : proc_fd 0 QOS_PROC_FD_RUNTIME_MAP 0 (demo_proc 1).
Proof. split; [done|reflexivity|done|done]. Qed.

Lemma proc_fd_render_prints_witness :
  (proc_fd_render 0 (Some (replicate 16 7)) 16 (demo_proc 1)).2 = Some (lit "CurrentPid:\t0\nC" ++ [0]).
Proof.
  destruct (proc_fd_render_prints 0 QOS_PROC_FD_RUNTIME_MAP 0 (demo_proc 1) (replicate 16 7) demo_proc_ok demo_proc_fd) as (_ & H & _);
    [cbn; lia|cbn; lia|].
  change (Z.of_nat (length (replicate 16 7))) with 16 in H. rewrite H. vm_compute. reflexivity.
Defined.

Lemma proc_read_exact_witness :
  (λ x, (x.1.1, x.1.2)) <$> read_proc 0 14 (replicate 2048 7) (demo_proc 1) = Some (14, lit "CurrentPid:\t0\n").
Proof.
  destruct (proc_read_exact 0 QOS_PROC_FD_RUNTIME_MAP 0 (demo_proc 1) 14 (replicate 2048 7) demo_proc_ok demo_proc_fd) as [H _];
    [done|lia|].
  rewrite H; vm_compute; reflexivity.
Defined.

(** A long report is read from outside the buffer: with 45 pages mapped the
    text of /proc/runtime/map has more than 2048 bytes, and READ with a 4096-byte
    buffer copies bytes that lie behind its stack buffer. *)
Example proc_read_overruns_buffer :
  2048 < len (kind_text QOS_PROC_FD_RUNTIME_MAP 0 (demo_proc 45))
  ∧ read_proc 0 4096 (replicate 2048 0) (demo_proc 45) = None.
Proof. split; vm_compute; reflexivity. Qed.
