(* ===== verification/Memmap.v ===== *)
(** * Memory mapping calls (c-os/kernel/syscall/syscall.c: MMAP, MUNMAP)

    MMAP maps a range of pages to themselves in the current address space, one
    page after another, and takes back what it mapped when one does not fit;
    MUNMAP removes a range.  The loops are unbounded in the code; both are shown
    to end because an address space holds at most 2048 pages. *)

From S2P Require Import Prelude SlotTable Pmm Vmm.

Definition QOS_VMM_PAGE_SIZE : Z := 4096.
Definition QOS_VMM_DEFAULT_FLAGS : Z := 1.

(** [while (off > 0) { off -= PAGE; unmap(va + off); }] from [off = n * PAGE]. *)
Fixpoint rollback (va : Z) (n : nat) (s : vmm) : vmm :=
  match n with
  | O => s
  | S n' => rollback va n' (qos_vmm_unmap (u64 (va + Z.of_nat n' * QOS_VMM_PAGE_SIZE)) s).2
  end.

(** [None] when [fuel] rounds were not enough. *)
Fixpoint mmap_loop (fuel : nat) (va len flags off : Z) (s : vmm) : option (Z * vmm) :=
  match fuel with
  | O => None
  | S fuel' =>
      if off <? len then
        let '(r, s1) := qos_vmm_map (u64 (va + off)) (u64 (va + off)) flags s in
        if negb (r =? 0) then Some (-1, rollback va (Z.to_nat (off / QOS_VMM_PAGE_SIZE)) s1)
        else mmap_loop fuel' va len flags (u64 (off + QOS_VMM_PAGE_SIZE)) s1
      else Some (i64 va, s)
  end.

Fixpoint munmap_loop (fuel : nat) (va len off : Z) (s : vmm) : option (Z * vmm) :=
  match fuel with
  | O => None
  | S fuel' =>
      if off <? len then
        let '(r, s1) := qos_vmm_unmap (u64 (va + off)) s in
        if negb (r =? 0) then Some (-1, s1) else munmap_loop fuel' va len (u64 (off + QOS_VMM_PAGE_SIZE)) s1
      else Some (0, s)
  end.

(** One round per page an address space can hold, one that fails, one to spare. *)
Definition MMAP_FUEL : nat := 2050.

Definition sys_mmap (va len flags : Z) (s : vmm) : option (Z * vmm) :=
  if (va =? 0) || (len =? 0) then Some (-1, s)
  else mmap_loop MMAP_FUEL va len (if flags =? 0 then QOS_VMM_DEFAULT_FLAGS else flags) 0 s.

Definition sys_munmap (va len : Z) (s : vmm) : option (Z * vmm) :=
  if (va =? 0) || (len =? 0) then Some (-1, s) else munmap_loop MMAP_FUEL va len 0 s.

(** ** Ranges of pages *)

Definition page (va : Z) (i : nat) : Z := u64 (va + Z.of_nat i * QOS_VMM_PAGE_SIZE).
Definition run (va : Z) (n : nat) : list Z := page va <$> seq 0 n.
Definition page_count (len : Z) : nat := Z.to_nat ((len + 4095) / 4096).

(** The pages the current address space maps. *)
Definition cur (s : vmm) : pagemap := spec_row (vmm_asid s) (vmm_abs s).

(** [s'] is [s] with the current address space's pages replaced by [M]. *)
Definition moves (s s' : vmm) (M : pagemap) : Prop :=
  vmm_wf s' ∧ vmm_abs s' = spec_set (vmm_asid s) M (vmm_abs s).

Lemma page_width va i : in_width 64 (page va i).
Proof. apply wrap_range. lia. Qed.

Lemma page_aligned_b va i : aligned_b (page va i) = aligned_b va.
Proof.
  unfold aligned_b, page, QOS_VMM_PAGE_SIZE, QOS_PAGE_SIZE. unfold wrap. f_equal.
  rewrite <- Znumtheory.Zmod_div_mod by (try done; by exists (2 ^ 52)). by rewrite Z.mod_add.
Qed.

Lemma page_inj va i j : (i <= 4096)%nat → (j <= 4096)%nat → page va i = page va j → i = j.
Proof.
  unfold page, wrap, QOS_VMM_PAGE_SIZE. intros Hi Hj E.
  pose proof (Z.div_mod (va + Z.of_nat i * 4096) (2 ^ 64) ltac:(lia)). pose proof (Z.div_mod (va + Z.of_nat j * 4096) (2 ^ 64) ltac:(lia)).
  rewrite E in *. change (2 ^ 64) with 18446744073709551616 in *. lia.
Qed.

Lemma elem_of_run va n a : a ∈ run va n ↔ ∃ i, (i < n)%nat ∧ a = page va i.
Proof.
  unfold run. rewrite list_elem_of_fmap. setoid_rewrite elem_of_seq. split; intros (i & H1 & H2); exists i; split; (done || lia).
Qed.

Lemma run_S va n a : a ∈ run va (S n) ↔ a ∈ run va n ∨ a = page va n.
Proof. unfold run. rewrite seq_S, fmap_app, elem_of_app. cbn. rewrite list_elem_of_singleton. done. Qed.

Lemma page_not_run va n : (n <= 4096)%nat → page va n ∉ run va n.
Proof. intros Hn (i & Hi & E)%elem_of_run. apply page_inj in E; lia. Qed.

Lemma run_NoDup va n : (n <= 4096)%nat → NoDup (run va n).
Proof.
  induction n as [|n IH]; intros Hn; [constructor|]. unfold run. rewrite seq_S, fmap_app. apply NoDup_app. cbn.
  split; [apply IH; lia|]. split; [|apply NoDup_singleton]. intros a Ha ->%list_elem_of_singleton.
  by apply (page_not_run va n); [lia|].
Qed.

Lemma run_size va n : (n <= 4096)%nat → size (list_to_set (run va n) : gset Z) = n.
Proof. intros Hn. rewrite size_list_to_set by by apply run_NoDup. unfold run. by rewrite length_fmap, length_seq. Qed.

Lemma cur_row s : vmm_wf s → asid_valid (vmm_asid s) = true ∧ cur s = row_map (row (vmm_asid s) s) ∧ row_wf (row (vmm_asid s) s).
Proof.
  intros Hwf. destruct (vw_cur _ Hwf) as [H0 H1]. assert (asid_valid (vmm_asid s) = true) as Hv by (by apply Z.ltb_lt).
  split; [done|]. split; [by apply spec_row_abs|]. by apply asid_valid_row.
Qed.

Lemma cur_size s : vmm_wf s → (size (cur s) <= 2048)%nat.
Proof.
  intros Hwf. destruct (cur_row s Hwf) as (_ & -> & Hr). rewrite row_map_size by done.
  pose proof (count_if_le slot_used (row (vmm_asid s) s)) as H. rewrite (rw_len _ Hr) in H. exact H.
Qed.

(** A range of more than 2048 pages does not fit an address space. *)
Lemma run_fits va n s :
  vmm_wf s → (n <= 4096)%nat → (∀ a, a ∈ run va n → is_Some (cur s !! a)) → (n <= 2048)%nat.
Proof.
  intros Hwf Hn Hin. pose proof (cur_size s Hwf) as Hs. rewrite <- size_dom in Hs.
  pose proof (run_size va n Hn) as Hr.
  assert (list_to_set (run va n) ⊆ dom (cur s)) as Hsub.
  { intros a Ha%elem_of_list_to_set. by apply elem_of_dom, Hin. }
  apply subseteq_size in Hsub. lia.
Qed.

(** ** One page *)

Lemma moves_refl s : vmm_wf s → moves s s (cur s).
Proof.
  intros Hwf. split; [done|]. unfold spec_set, cur, spec_row. destruct (vmm_abs s) as [ms c] eqn:E. cbn [vs_maps vs_cur]. f_equal.
  destruct (ms !! Z.to_nat (vmm_asid s)) as [m|] eqn:Em; [by rewrite list_insert_id|].
  by rewrite list_insert_ge by (by apply lookup_ge_None_1).
Qed.

Lemma moves_asid s s' M : moves s s' M → vmm_asid s' = vmm_asid s.
Proof. intros [_ E]. by apply (f_equal vs_cur) in E. Qed.

Lemma moves_cur s s' M : vmm_wf s → moves s s' M → cur s' = M.
Proof.
  intros Hwf H. unfold cur. rewrite (moves_asid _ _ _ H). destruct H as [_ ->]. unfold spec_row, spec_set. cbn [vs_maps].
  rewrite list_lookup_insert_eq; [done|]. cbn. rewrite length_fmap, (vw_len _ Hwf). destruct (vw_cur _ Hwf). lia.
Qed.

Lemma moves_trans s s1 s2 M1 M2 : moves s s1 M1 → moves s1 s2 M2 → moves s s2 M2.
Proof.
  intros H1 [Hwf H2]. split; [done|]. rewrite H2, (moves_asid _ _ _ H1), (proj2 H1). unfold spec_set. cbn [vs_maps vs_cur].
  by rewrite list_insert_insert_eq.
Qed.

(** Mapping a page to itself: it fails only when the address space is full. *)
Lemma map_page va flags s :
  vmm_wf s → in_width 64 va → flags ≠ 0 →
  let '(r, s1) := qos_vmm_map va va flags s in
  if aligned_b va && (bool_decide (is_Some (cur s !! va)) || (size (cur s) <? 2048)%nat)
  then r = 0 ∧ moves s s1 (<[va := (va, flags)]> (cur s))
  else r = -1 ∧ moves s s1 (cur s).
Proof.
  intros Hwf Hva Hfl. destruct (cur_row s Hwf) as (Hv & _ & _). destruct (vw_cur _ Hwf) as [H0 _].
  pose proof (vmm_map_refines (vmm_asid s) va va flags s Hwf (conj H0 (conj Hva Hva))) as H. unfold qos_vmm_map.
  destruct (qos_vmm_map_as _ _ _ _ _) as [r s1]. destruct H as [Hwf1 H]. cbn [spec_exec] in H. fold (cur s) in H.
  change (vmm_asid s <? 64) with (asid_valid (vmm_asid s)) in H. rewrite Hv, (proj2 (Z.eqb_neq flags 0)) in H by done. cbn [andb negb] in H.
  rewrite <- (andb_assoc (aligned_b va)) in H. destruct (aligned_b va); cbn [andb] in *.
  - destruct (_ || _); apply pair_equal_spec in H as [<- H]; (split; [done|]); [by split|].
    split; [done|]. rewrite <- H. apply (moves_refl s Hwf).
  - apply pair_equal_spec in H as [<- H]. split; [done|]. split; [done|]. rewrite <- H. apply (moves_refl s Hwf).
Qed.

Lemma unmap_page va s :
  vmm_wf s → in_width 64 va →
  let '(r, s1) := qos_vmm_unmap va s in
  if aligned_b va && bool_decide (is_Some (cur s !! va)) then r = 0 ∧ moves s s1 (delete va (cur s)) else r = -1 ∧ moves s s1 (cur s).
Proof.
  intros Hwf Hva. destruct (cur_row s Hwf) as (Hv & _ & _). destruct (vw_cur _ Hwf) as [H0 _].
  pose proof (vmm_unmap_refines (vmm_asid s) va s Hwf (conj H0 Hva)) as H. unfold qos_vmm_unmap.
  destruct (qos_vmm_unmap_as _ _ _) as [r s1]. destruct H as [Hwf1 H]. cbn [spec_exec] in H. fold (cur s) in H.
  change (vmm_asid s <? 64) with (asid_valid (vmm_asid s)) in H. rewrite Hv in H. cbn [andb] in H.
  destruct (aligned_b va && _); apply pair_equal_spec in H as [<- H]; (split; [done|]); [by split|].
  split; [done|]. rewrite <- H. apply (moves_refl s Hwf).
Qed.

(** ** Ranges *)

Lemma rollback_ok va n s :
  vmm_wf s → (n <= 2048)%nat → aligned_b va = true → (∀ a, a ∈ run va n → is_Some (cur s !! a)) →
  ∃ M, moves s (rollback va n s) M ∧ ∀ a, M !! a = if decide (a ∈ run va n) then None else cur s !! a.
Proof.
  intros Hwf Hn Hal. revert s Hwf. induction n as [|n IH]; intros s Hwf Hin; cbn [rollback].
  { exists (cur s). split; [by apply moves_refl|]. intros a. by rewrite decide_False by apply not_elem_of_nil. }
  fold (page va n). pose proof (unmap_page (page va n) s Hwf (page_width va n)) as Hu.
  destruct (qos_vmm_unmap _ _) as [r s1]. cbn [snd]. rewrite page_aligned_b, Hal in Hu.
  rewrite bool_decide_eq_true_2 in Hu by (apply Hin, run_S; by right). destruct Hu as [_ Hm].
  pose proof (moves_cur _ _ _ Hwf Hm) as Hc. destruct (IH ltac:(lia) s1 (proj1 Hm)) as (M & HM & Hl).
  { intros a Ha. rewrite Hc, lookup_delete_ne; [apply Hin, run_S; by left|]. intros <-. by apply (page_not_run va n); [lia|]. }
  exists M. split; [by eapply moves_trans|]. intros a. rewrite Hl, Hc. destruct (decide (a ∈ run va (S n))) as [Ha|Ha]; rewrite run_S in Ha.
  - destruct (decide (a ∈ run va n)); [done|]. destruct Ha as [?| ->]; [done|]. apply lookup_delete_eq.
  - rewrite decide_False by tauto. apply lookup_delete_ne. intros <-. tauto.
Qed.

Lemma page_count_eq len j : 4096 * (Z.of_nat j - 1) < len → len <= 4096 * Z.of_nat j → page_count len = j.
Proof. intros H1 H2. unfold page_count. Z.to_euclidean_division_equations. lia. Qed.

Lemma page_count_gt len j : 4096 * Z.of_nat j < len → (j < page_count len)%nat.
Proof. intros H1. unfold page_count. Z.to_euclidean_division_equations. lia. Qed.

(** The pages of the current address space after the first [j] pages of a range
    were mapped to themselves. *)
Definition mapped (va fl : Z) (j : nat) (m0 M : pagemap) : Prop :=
  ∀ a, M !! a = if decide (a ∈ run va j) then Some (a, fl) else m0 !! a.

Definition unmapped (va : Z) (j : nat) (m0 M : pagemap) : Prop :=
  ∀ a, M !! a = if decide (a ∈ run va j) then None else m0 !! a.

(** Page [j] of the range does not fit behind the first [j]. *)
Definition no_room (va : Z) (j : nat) (m0 : pagemap) : Prop :=
  size (dom m0 ∪ list_to_set (run va j)) = 2048%nat ∧ page va j ∉ dom m0 ∪ list_to_set (run va j).

Lemma mapped_dom va fl j m0 M : mapped va fl j m0 M → dom M = dom m0 ∪ list_to_set (run va j).
Proof.
  intros HM. apply set_eq. intros a. rewrite elem_of_dom, HM, elem_of_union, elem_of_dom, elem_of_list_to_set.
  destruct (decide (a ∈ run va j)); [split; [by right|done]|]. split; [by left|]. by intros [?|?].
Qed.

Lemma mapped_size va fl n M : (n <= 4096)%nat → mapped va fl n ∅ M → size M = n.
Proof. intros Hn HM. by rewrite <- size_dom, (mapped_dom _ _ _ _ _ HM), dom_empty_L, union_empty_l_L, run_size. Qed.

Lemma mmap_loop_ok va len fl s0 :
  vmm_wf s0 → aligned_b va = true → fl ≠ 0 →
  ∀ fuel j s, (j + fuel = 2050)%nat → moves s0 s (cur s) → mapped va fl j (cur s0) (cur s) → 4096 * (Z.of_nat j - 1) < len →
  ∃ r s' M, mmap_loop fuel va len fl (Z.of_nat j * 4096) s = Some (r, s') ∧ moves s0 s' M
  ∧ ((r = i64 va ∧ mapped va fl (page_count len) (cur s0) M)
     ∨ (r = -1 ∧ ∃ i, (i < page_count len)%nat ∧ no_room va i (cur s0) ∧ unmapped va i (cur s0) M)).
Proof.
  intros Hwf0 Hal Hfl. induction fuel as [|fuel IH]; intros j s Hj Hm Hc Hlen.
  all: assert (j <= 2048)%nat as Hj2 by (apply (run_fits va j s); [apply Hm|lia|]; intros a Ha; rewrite Hc, decide_True by done; by eexists).
  { lia. }
  cbn [mmap_loop]. destruct (Z.ltb_spec (Z.of_nat j * 4096) len) as [Hlt|Hge].
  2:{ exists (i64 va), s, (cur s). split; [done|]. split; [done|]. left. split; [done|]. by rewrite (page_count_eq len j) by lia. }
  fold (page va j). pose proof (map_page (page va j) fl s (proj1 Hm) (page_width va j) Hfl) as Hp.
  destruct (qos_vmm_map _ _ _ _) as [r s1]. rewrite page_aligned_b, Hal in Hp. cbn [andb] in Hp.
  destruct (_ || _) eqn:Hroom; destruct Hp as [-> H1]; cbn [Z.eqb negb].
  - replace (u64 (Z.of_nat j * 4096 + QOS_VMM_PAGE_SIZE)) with (Z.of_nat (S j) * 4096)
      by (rewrite wrap_small; unfold in_width, QOS_VMM_PAGE_SIZE; lia).
    pose proof (moves_cur _ _ _ (proj1 Hm) H1) as Hc1. apply IH; [lia| | |lia].
    + rewrite Hc1. by eapply moves_trans.
    + intros a. rewrite Hc1. destruct (decide (a = page va j)) as [->|Hne].
      * rewrite lookup_insert_eq, decide_True; [done|]. apply run_S. by right.
      * rewrite lookup_insert_ne, Hc by done. apply decide_ext. rewrite run_S. naive_solver.
  - pose proof (moves_cur _ _ _ (proj1 Hm) H1) as Hc1. apply orb_false_iff in Hroom as [Hnone Hfull].
    apply bool_decide_eq_false in Hnone. apply Nat.ltb_ge in Hfull.
    rewrite Z.div_mul, Nat2Z.id by done. destruct (rollback_ok va j s1 (proj1 H1) ltac:(lia) Hal) as (M & HM & Hl).
    { intros a Ha. rewrite Hc1, Hc, decide_True by done. by eexists. }
    eexists _, _, M. split; [done|]. split; [eapply moves_trans; [exact Hm|]; by eapply moves_trans|]. right. split; [done|].
    exists j. split; [apply page_count_gt; lia|]. split.
    + unfold no_room. rewrite <- (mapped_dom va fl j (cur s0) (cur s) Hc), size_dom. pose proof (cur_size s (proj1 Hm)).
      split; [lia|]. by rewrite elem_of_dom.
    + intros a. rewrite Hl, Hc1, Hc. by destruct (decide (a ∈ run va j)).
Qed.

Lemma munmap_loop_ok va len s0 :
  vmm_wf s0 → aligned_b va = true →
  ∀ fuel j s, (j + fuel = 2050)%nat → moves s0 s (cur s) → unmapped va j (cur s0) (cur s) →
  (∀ a, a ∈ run va j → is_Some (cur s0 !! a)) → 4096 * (Z.of_nat j - 1) < len →
  ∃ r s' M, munmap_loop fuel va len (Z.of_nat j * 4096) s = Some (r, s') ∧ moves s0 s' M
  ∧ ((r = 0 ∧ unmapped va (page_count len) (cur s0) M)
     ∨ (r = -1 ∧ ∃ i, (i < page_count len)%nat ∧ cur s0 !! page va i = None ∧ unmapped va i (cur s0) M)).
Proof.
  intros Hwf0 Hal. induction fuel as [|fuel IH]; intros j s Hj Hm Hc Hin Hlen.
  all: assert (j <= 2048)%nat as Hj2 by (apply (run_fits va j s0); (done || lia)).
  { lia. }
  cbn [munmap_loop]. destruct (Z.ltb_spec (Z.of_nat j * 4096) len) as [Hlt|Hge].
  2:{ exists 0, s, (cur s). split; [done|]. split; [done|]. left. split; [done|]. by rewrite (page_count_eq len j) by lia. }
  fold (page va j). pose proof (unmap_page (page va j) s (proj1 Hm) (page_width va j)) as Hp.
  destruct (qos_vmm_unmap _ _) as [r s1]. rewrite page_aligned_b, Hal in Hp. cbn [andb] in Hp.
  rewrite Hc, decide_False in Hp by (apply page_not_run; lia).
  case_bool_decide as Hs; destruct Hp as [-> H1]; cbn [Z.eqb negb]; pose proof (moves_cur _ _ _ (proj1 Hm) H1) as Hc1.
  - replace (u64 (Z.of_nat j * 4096 + QOS_VMM_PAGE_SIZE)) with (Z.of_nat (S j) * 4096)
      by (rewrite wrap_small; unfold in_width, QOS_VMM_PAGE_SIZE; lia).
    apply IH; [lia| | | |lia].
    + rewrite Hc1. by eapply moves_trans.
    + intros a. rewrite Hc1. destruct (decide (a = page va j)) as [->|Hne].
      * rewrite lookup_delete_eq, decide_True; [done|]. apply run_S. by right.
      * rewrite lookup_delete_ne, Hc by done. apply decide_ext. rewrite run_S. naive_solver.
    + intros a [Ha| ->]%run_S; [by apply Hin|done].
  - eexists _, _, _. split; [done|]. split; [by eapply moves_trans|]. right. split; [done|].
    exists j. split; [apply page_count_gt; lia|]. split; [by apply eq_None_not_Some|done].
Qed.

(** The first page of an unaligned range is refused. *)
Lemma mmap_unaligned fuel va len fl s :
  vmm_wf s → in_width 64 va → aligned_b va = false → fl ≠ 0 → 0 < len →
  ∃ s', mmap_loop (S fuel) va len fl 0 s = Some (-1, s') ∧ moves s s' (cur s).
Proof.
  intros Hwf Hva Hal Hfl Hlen. cbn [mmap_loop]. rewrite (proj2 (Z.ltb_lt 0 len)) by lia. rewrite Z.add_0_r, (wrap_small 64 va) by done.
  pose proof (map_page va fl s Hwf Hva Hfl) as Hp. rewrite Hal in Hp. destruct (qos_vmm_map _ _ _ _) as [r s1].
  destruct Hp as [-> Hm]. by exists s1.
Qed.

Lemma munmap_unaligned fuel va len s :
  vmm_wf s → in_width 64 va → aligned_b va = false → 0 < len →
  ∃ s', munmap_loop (S fuel) va len 0 s = Some (-1, s') ∧ moves s s' (cur s).
Proof.
  intros Hwf Hva Hal Hlen. cbn [munmap_loop]. rewrite (proj2 (Z.ltb_lt 0 len)) by lia. rewrite Z.add_0_r, (wrap_small 64 va) by done.
  pose proof (unmap_page va s Hwf Hva) as Hp. rewrite Hal in Hp. destruct (qos_vmm_unmap _ _) as [r s1].
  destruct Hp as [-> Hm]. by exists s1.
Qed.

(** What the calls do to the current address space. *)
Lemma sys_mmap_ok va len flags s :
  vmm_wf s → in_width 64 va → 0 <= len →
  let fl := if flags =? 0 then QOS_VMM_DEFAULT_FLAGS else flags in
  ∃ r s' M, sys_mmap va len flags s = Some (r, s') ∧ moves s s' M
  ∧ ((r = i64 va ∧ va ≠ 0 ∧ len ≠ 0 ∧ aligned_b va = true ∧ mapped va fl (page_count len) (cur s) M)
     ∨ (r = -1 ∧ (va = 0 ∨ len = 0 ∨ aligned_b va = false) ∧ M = cur s)
     ∨ (r = -1 ∧ ∃ i, (i < page_count len)%nat ∧ no_room va i (cur s) ∧ unmapped va i (cur s) M)).
Proof.
  intros Hwf Hva Hlen fl. unfold sys_mmap. fold fl. destruct ((va =? 0) || (len =? 0)) eqn:E0.
  { exists (-1), s, (cur s). split; [done|]. split; [by apply moves_refl|]. right; left. split; [done|].
    apply orb_true_iff in E0 as [?%Z.eqb_eq|?%Z.eqb_eq]; tauto. }
  b2p. assert (fl ≠ 0) as Hfl by (unfold fl; destruct (Z.eqb_spec flags 0); [done|done]).
  destruct (aligned_b va) eqn:Hal.
  - destruct (mmap_loop_ok va len fl s Hwf Hal Hfl MMAP_FUEL 0 s eq_refl (moves_refl s Hwf)) as (r & s' & M & E & Hm & Ho).
    + intros a. by rewrite decide_False by apply not_elem_of_nil.
    + lia.
    + exists r, s', M. split; [done|]. split; [done|]. destruct Ho as [[-> ?]|[-> ?]]; [left|right; right]; by split_and?.
  - destruct (mmap_unaligned 2049 va len fl s Hwf Hva Hal Hfl ltac:(lia)) as (s' & E & Hm).
    exists (-1), s', (cur s). split; [exact E|]. split; [done|]. right; left. tauto.
Qed.

Lemma sys_munmap_ok va len s :
  vmm_wf s → in_width 64 va → 0 <= len →
  ∃ r s' M, sys_munmap va len s = Some (r, s') ∧ moves s s' M
  ∧ ((r = 0 ∧ va ≠ 0 ∧ len ≠ 0 ∧ aligned_b va = true ∧ unmapped va (page_count len) (cur s) M)
     ∨ (r = -1 ∧ (va = 0 ∨ len = 0 ∨ aligned_b va = false) ∧ M = cur s)
     ∨ (r = -1 ∧ ∃ i, (i < page_count len)%nat ∧ cur s !! page va i = None ∧ unmapped va i (cur s) M)).
Proof.
  intros Hwf Hva Hlen. unfold sys_munmap. destruct ((va =? 0) || (len =? 0)) eqn:E0.
  { exists (-1), s, (cur s). split; [done|]. split; [by apply moves_refl|]. right; left. split; [done|].
    apply orb_true_iff in E0 as [?%Z.eqb_eq|?%Z.eqb_eq]; tauto. }
  b2p. destruct (aligned_b va) eqn:Hal.
  - destruct (munmap_loop_ok va len s Hwf Hal MMAP_FUEL 0 s eq_refl (moves_refl s Hwf)) as (r & s' & M & E & Hm & Ho).
    + intros a. by rewrite decide_False by apply not_elem_of_nil.
    + intros a []%not_elem_of_nil.
    + lia.
    + exists r, s', M. split; [done|]. split; [done|]. destruct Ho as [[-> ?]|[-> ?]]; [left|right; right]; by split_and?.
  - destruct (munmap_unaligned 2049 va len s Hwf Hva Hal ltac:(lia)) as (s' & E & Hm).
    exists (-1), s', (cur s). split; [exact E|]. split; [done|]. right; left. tauto.
Qed.

(** C12: The memory calls end and do what they say. For every range MMAP returns
    within the rounds an address space of 2048 pages allows. It either maps each
    page of the range to itself with the given flags (1 by default) and returns
    the address, leaving all other pages and address spaces alone; or it refuses
    a zero address, a zero length or an unaligned address and changes nothing; or
    the [i]-th page does not fit, and the first [i] pages of the range end up
    unmapped. MUNMAP removes the whole range, or stops with -1 at the first page
    that is not mapped, having removed those before it. *)
Theorem memory_calls_exact va len flags s :
  vmm_wf s → in_width 64 va → in_width 64 len →
  let fl := if flags =? 0 then QOS_VMM_DEFAULT_FLAGS else flags in
  (∃ r s' M, sys_mmap va len flags s = Some (r, s') ∧ moves s s' M
   ∧ ((r = i64 va ∧ va ≠ 0 ∧ len ≠ 0 ∧ aligned_b va = true ∧ mapped va fl (page_count len) (cur s) M)
      ∨ (r = -1 ∧ (va = 0 ∨ len = 0 ∨ aligned_b va = false) ∧ M = cur s)
      ∨ (r = -1 ∧ ∃ i, (i < page_count len)%nat ∧ no_room va i (cur s) ∧ unmapped va i (cur s) M)))
  ∧ (∃ r s' M, sys_munmap va len s = Some (r, s') ∧ moves s s' M
     ∧ ((r = 0 ∧ va ≠ 0 ∧ len ≠ 0 ∧ aligned_b va = true ∧ unmapped va (page_count len) (cur s) M)
        ∨ (r = -1 ∧ (va = 0 ∨ len = 0 ∨ aligned_b va = false) ∧ M = cur s)
        ∨ (r = -1 ∧ ∃ i, (i < page_count len)%nat ∧ cur s !! page va i = None ∧ unmapped va i (cur s) M))).
Proof. intros Hwf Hva [Hl _] fl. split; [exact (sys_mmap_ok va len flags s Hwf Hva Hl)|exact (sys_munmap_ok va len s Hwf Hva Hl)]. Qed.

Lemma memory_calls_exact_witness : ∃ s', sys_mmap 4096 8192 0 qos_vmm_reset = Some (4096, s') ∧ cur s' !! 8192 = Some (8192, 1).
Proof.
  destruct (memory_calls_exact 4096 8192 0 qos_vmm_reset vmm_wf_reset) as [(r & s' & M & E & Hm & Ho) _]; [done|done|].
  exists s'. rewrite (moves_cur _ _ _ vmm_wf_reset Hm).
  destruct Ho as [(-> & _ & _ & _ & HM)|[(_ & Hb & _)|(_ & i & Hi & [Hs _] & _)]].
  - split; [done|]. rewrite HM, decide_True; [done|]. apply elem_of_run. exists 1%nat. split; [by apply Nat.ltb_lt|done].
  - exfalso. vm_compute in Hb. naive_solver.
  - exfalso. change (page_count 8192) with 2%nat in Hi. revert Hs. assert (cur qos_vmm_reset = ∅) as -> by reflexivity.
    rewrite dom_empty_L. destruct i as [|[|i]]; [vm_compute; discriminate|vm_compute; discriminate|lia].
Defined.

(** An empty address space takes any aligned range of at most 2048 pages. *)
Lemma mmap_into_empty va len flags s :
  vmm_wf s → in_width 64 va → 0 < len → va ≠ 0 → aligned_b va = true → (page_count len <= 2048)%nat → cur s = ∅ →
  ∃ s' M, sys_mmap va len flags s = Some (i64 va, s') ∧ moves s s' M
  ∧ mapped va (if flags =? 0 then QOS_VMM_DEFAULT_FLAGS else flags) (page_count len) ∅ M.
Proof.
  intros Hwf Hva Hlen Hne Hal Hn Hc. destruct (sys_mmap_ok va len flags s Hwf Hva ltac:(lia)) as (r & s' & M & E & Hm & Ho).
  rewrite Hc in Ho. destruct Ho as [(-> & _ & _ & _ & HM)|[(_ & [?|[?|?]] & _)|(_ & i & Hi & [Hs _] & _)]]; [by exists s', M|done|lia|congruence|].
  exfalso. rewrite dom_empty_L, union_empty_l_L, run_size in Hs by lia. lia.
Qed.

(** Unmapping undoes mapping. If MMAP succeeds on a range none of whose pages
    was mapped, MUNMAP of the same range succeeds and every address space is as
    it was before. *)
Theorem mmap_munmap_roundtrip va len flags s r s1 :
  vmm_wf s → in_width 64 va → in_width 64 len →
  (∀ a, a ∈ run va (page_count len) → cur s !! a = None) →
  sys_mmap va len flags s = Some (r, s1) → r ≠ -1 →
  ∃ s2, sys_munmap va len s1 = Some (0, s2) ∧ vmm_wf s2 ∧ vmm_abs s2 = vmm_abs s.
Proof.
  intros Hwf Hva [Hl _] Hfree E1 Hr. destruct (sys_mmap_ok va len flags s Hwf Hva Hl) as (r' & s' & M & E & Hm & Ho).
  rewrite E1 in E. injection E as <- <-. destruct Ho as [(-> & Hv0 & Hl0 & Hal & HM)|[(-> & _)|(-> & _)]]; [|done..].
  pose proof (moves_cur _ _ _ Hwf Hm) as Hc1.
  destruct (sys_munmap_ok va len s1 (proj1 Hm) Hva Hl) as (r2 & s2 & M2 & E2 & Hm2 & Ho2). rewrite Hc1 in Ho2.
  destruct Ho2 as [(-> & _ & _ & _ & HM2)|[(-> & [?|[?|?]] & _)|(-> & i & Hi & Hn & _)]]; [|done|done|congruence|].
  - exists s2. split; [done|]. split; [apply Hm2|]. pose proof (moves_trans _ _ _ _ _ Hm Hm2) as [_ ->].
    replace M2 with (cur s); [symmetry; apply (moves_refl s Hwf)|]. apply map_eq. intros a. rewrite HM2, HM.
    destruct (decide (a ∈ run va (page_count len))) as [Ha|Ha]; [by apply Hfree|done].
  - exfalso. rewrite HM, decide_True in Hn; [done|]. apply elem_of_run. by exists i.
Qed.

Lemma mmap_munmap_roundtrip_witness :
  ∃ s1 s2, sys_mmap 4096 8192 0 qos_vmm_reset = Some (4096, s1) ∧ sys_munmap 4096 8192 s1 = Some (0, s2) ∧ vmm_abs s2 = vmm_abs qos_vmm_reset.
Proof.
  destruct (mmap_into_empty 4096 8192 0 qos_vmm_reset vmm_wf_reset) as (s1 & _ & E & _); [done..|apply Nat.leb_le; reflexivity|reflexivity|].
  destruct (mmap_munmap_roundtrip 4096 8192 0 qos_vmm_reset (i64 4096) s1 vmm_wf_reset) as (s2 & E2 & _ & Ha); [done|done| |exact E|done|].
  - intros a _. assert (cur qos_vmm_reset = ∅) as -> by reflexivity. apply lookup_empty.
  - by exists s1, s2.
Defined.

(** A failing MMAP loses mappings. When the address space is full, MMAP on a
    range that begins with an already mapped page [va] and goes on to one that is
    not mapped returns -1, and [va], which was mapped before the call, is not
    mapped after it. *)
Theorem mmap_failure_unmaps va len flags s :
  vmm_wf s → in_width 64 va → va ≠ 0 → aligned_b va = true → 4096 < len →
  size (cur s) = 2048%nat → is_Some (cur s !! va) → cur s !! page va 1 = None →
  ∃ s', sys_mmap va len flags s = Some (-1, s') ∧ cur s' !! va = None.
Proof.
  intros Hwf Hva Hv0 Hal Hlen Hfull Hin Hout. assert (page va 0 = va) as Hp0 by (unfold page; rewrite Z.add_0_r; by apply wrap_small).
  assert (1 < page_count len)%nat as Hn by (apply page_count_gt; lia).
  destruct (sys_mmap_ok va len flags s Hwf Hva ltac:(lia)) as (r & s' & M & E & Hm & Ho).
  exists s'. rewrite (moves_cur _ _ _ Hwf Hm). destruct Ho as [(_ & _ & _ & _ & HM)|[(_ & [?|[?|?]] & _)|(-> & i & Hi & [_ Hni] & HM)]]; [|done|lia|congruence|].
  - exfalso. pose proof (cur_size s' (proj1 Hm)) as Hs. rewrite (moves_cur _ _ _ Hwf Hm), <- size_dom, (mapped_dom _ _ _ _ _ HM) in Hs.
    assert (dom (cur s) ⊂ dom (cur s) ∪ list_to_set (run va (page_count len))) as Hlt%subset_size.
    { split; [set_solver|]. intros Hsub. apply not_elem_of_dom in Hout. apply Hout, Hsub, elem_of_union_r, elem_of_list_to_set, elem_of_run. by exists 1%nat. }
    rewrite size_dom, Hfull in Hlt. lia.
  - split; [done|]. rewrite HM, decide_True; [done|]. apply elem_of_run. destruct i as [|i]; [|exists 0%nat; split; [lia|done]].
    exfalso. apply Hni, elem_of_union_l, elem_of_dom. by rewrite Hp0.
Qed.

Lemma mmap_failure_unmaps_witness :
  ∃ s s', sys_mmap 8388608 8192 0 s = Some (-1, s') ∧ is_Some (cur s !! 8388608) ∧ cur s' !! 8388608 = None.
Proof.
  destruct (mmap_into_empty 4096 8388608 0 qos_vmm_reset vmm_wf_reset) as (s & M & _ & Hm & HM); [done..|apply Nat.leb_le; reflexivity|reflexivity|].
  pose proof (moves_cur _ _ _ vmm_wf_reset Hm) as Hc. change (page_count 8388608) with 2048%nat in HM.
  assert (is_Some (cur s !! 8388608)) as Hin.
  { rewrite Hc, HM, decide_True; [by eexists|]. apply elem_of_run. exists 2047%nat. split; [lia|reflexivity]. }
  destruct (mmap_failure_unmaps 8388608 8192 0 s (proj1 Hm)) as (s' & E & Hn); [done..| |done| |by exists s, s'].
  - rewrite Hc. apply (mapped_size 4096 QOS_VMM_DEFAULT_FLAGS 2048 M); [lia|exact HM].
  - rewrite Hc, HM, decide_False; [done|]. intros (i & Hi & E)%elem_of_run.
    unfold page in E. rewrite !wrap_small in E by (unfold in_width, QOS_VMM_PAGE_SIZE; lia). unfold QOS_VMM_PAGE_SIZE in E. lia.
Defined.
