(* ===== verification/Dispatch.v ===== *)
(** * System calls (c-os/kernel/syscall/syscall.c: qos_syscall_dispatch)

    A call is a number and four 64-bit arguments.  Pointers among them refer to
    the caller's memory, which the kernel sees as bytes; a call returns its
    result, the bytes it wrote to the caller's memory and the new kernel state,
    or [None] when the code reads outside one of its own buffers. *)

From S2P Require Import Prelude SlotTable Pmm Vmm Sched Vfs Drivers Packet Udp Tcp Net Proc Elf SyscallTable Ports Fds Files.
From S2P Require Import Modules Sockets ProcPath Kernel Render Procfs Memmap.

Definition SIG_BLOCK : Z := 0.
Definition SIG_UNBLOCK : Z := 1.
Definition SIG_SETMASK : Z := 2.

(** ** The caller's memory *)

(** The bytes, and where the NUL behind an address is. *)
Record user := { u_byte : Z → Z; u_strlen : Z → nat }.

Definition u_mem (u : user) (a : Z) (n : nat) : list Z := (λ i, u_byte u (a + Z.of_nat i)) <$> seq 0 n.
Definition u_ptr (u : user) (a : Z) (n : nat) : option (list Z) := if a =? 0 then None else Some (u_mem u a n).
Definition u_str (u : user) (a : Z) : option string := if a =? 0 then None else Some (chars (u_mem u a (u_strlen u a))).

(** The bytes of an integer in memory, least significant first. *)
Definition le_bytes (n : nat) (v : Z) : list Z := (λ i, Z.land (Z.shiftr v (8 * Z.of_nat i)) 255) <$> seq 0 n.

Definition u_int (u : user) (a : Z) (n : nat) : Z := le (u_mem u a n).

(** What a call did: the result, the writes to the caller's memory, the kernel. *)
Abbreviation outcome := (option (Z * list (Z * list Z) * kernel)).

Definition done_ (r : Z) (k : kernel) : outcome := Some (r, [], k).
Definition fail_ (k : kernel) : outcome := done_ (-1) k.
Definition in_io (x : Z * io) (k : kernel) : outcome := done_ x.1 (set_io x.2 k).
Definition in_mods (x : Z * mods) (k : kernel) : outcome := done_ x.1 (set_mods x.2 k).

(** [f(...) == 0 ? 0 : -1] *)
Definition zero_or_fail (x : Z * procs) (k : kernel) : outcome := done_ (if x.1 =? 0 then 0 else -1) (set_procs x.2 k).

(** ** Queries *)

Definition syscall_query_value (query : Z) (k : kernel) : Z :=
  if query =? query_code Q_INIT_STATE then qos_kernel_init_state k
  else if query =? query_code Q_PMM_TOTAL then qos_pmm_total_pages (k_pmm k)
  else if query =? query_code Q_PMM_FREE then qos_pmm_free_pages (k_pmm k)
  else if query =? query_code Q_SCHED_COUNT then qos_sched_count (k_sched k)
  else if query =? query_code Q_VFS_COUNT then qos_vfs_count (k_vfs k)
  else if query =? query_code Q_NET_QUEUE_LEN then qos_net_queue_len (n_packets (io_net (k_io k)))
  else if query =? query_code Q_DRIVERS_COUNT then qos_drivers_count (k_drivers k)
  else if query =? query_code Q_SYSCALL_COUNT then qos_syscall_count (k_table k)
  else if query =? query_code Q_PROC_COUNT then qos_proc_count (k_procs k)
  else -1.

(** ** Files and descriptors *)

(** A path that has no node but names a /proc file of a live process or a report. *)
Definition proc_target (path : option string) (k : kernel) : option (Z * Z) :=
  match proc_path_kind path with
  | None => None
  | Some (kind, pid) =>
      if (kind =? QOS_PROC_FD_STATUS) && (qos_proc_alive pid (k_procs k) =? 0) then None else Some (kind, pid)
  end.

Definition op_open (path : option string) (k : kernel) : outcome :=
  match path with
  | None => fail_ k
  | Some p =>
      if qos_vfs_exists path (k_vfs k) =? 0 then
        match proc_target path k with
        | None => fail_ k
        | Some (kind, pid) => in_io (open_proc kind pid (k_io k)) k
        end
      else in_io (open_file p (k_io k)) k
  end.

(** A read's result, the bytes for the caller at [out], the new state. *)
Definition read_out (out : Z) (x : Z * list Z * io) (k : kernel) : outcome :=
  Some (x.1.1, [(out, x.1.2)], set_io x.2 k).

Definition op_read (fd out len : Z) (tmp : list Z) (k : kernel) : outcome :=
  if negb (fd_valid fd (k_io k)) || (out =? 0) then fail_ k
  else
    match f_kind (get_fd fd (k_io k)) with
    | KProc =>
        match read_proc fd len tmp k with
        | None => None
        | Some (r, bytes, k') => Some (r, [(out, bytes)], k')
        end
    | KVfs => read_out out (read_vfs fd len (k_io k)) k
    | KPipeR => read_out out (read_pipe fd len (k_io k)) k
    | KSocket => read_out out (read_socket fd len (k_io k)) k
    | _ => fail_ k
    end.

Definition op_write (fd : Z) (src : option (list Z)) (len : Z) (k : kernel) : outcome :=
  match src with
  | None => fail_ k
  | Some bytes =>
      if negb (fd_valid fd (k_io k)) then fail_ k
      else
        match f_kind (get_fd fd (k_io k)) with
        | KVfs => in_io (write_vfs fd bytes len (k_io k)) k
        | KPipeW => in_io (write_pipe fd bytes len (k_io k)) k
        | KSocket => in_io (write_socket fd bytes len (k_io k)) k
        | _ => fail_ k
        end
  end.

Definition op_getdents (fd out cap : Z) (k : kernel) : outcome :=
  if negb (fd_valid fd (k_io k)) || negb (bool_decide (f_kind (get_fd fd (k_io k)) = KVfs)) || (out =? 0) then fail_ k
  else if cap <? 4 then fail_ k
  else let count := qos_vfs_count (k_vfs k) in Some (count, [(out, le_bytes 4 count)], k).

Definition op_lseek (fd a1 whence : Z) (k : kernel) : outcome :=
  in_io (sys_lseek fd a1 whence (proc_fd_render fd None 0 k).1 (k_io k)) k.

Definition op_pipe (out : Z) (k : kernel) : outcome :=
  if out =? 0 then fail_ k
  else
    let '(r, fds, s) := sys_pipe (k_io k) in
    let writes := match fds with Some (rfd, wfd) => [(out, le_bytes 4 rfd ++ le_bytes 4 wfd)] | None => [] end in
    Some (r, writes, set_io s k).

Definition op_stat (u : user) (a0 out : Z) (k : kernel) : outcome :=
  match u_str u a0 with
  | None => fail_ k
  | Some p =>
      let writes type := if out =? 0 then [] else [(out, le_bytes 8 (Z.of_nat (String.length p)) ++ le_bytes 8 type)] in
      if qos_vfs_exists (Some p) (k_vfs k) =? 0 then
        match proc_target (Some p) k with
        | None => fail_ k
        | Some _ => Some (0, writes 2, k)
        end
      else Some (0, writes 1, k)
  end.

Definition op_mkdir (path : option string) (k : kernel) : outcome :=
  if bool_decide (path = None) then fail_ k
  else if qos_vfs_fs_kind path =? QOS_VFS_FS_PROCFS then fail_ k
  else let '(r, s) := qos_vfs_create path (k_vfs k) in done_ (if r =? 0 then 0 else -1) (set_vfs s k).

Definition op_unlink (path : option string) (k : kernel) : outcome :=
  match path with
  | None => fail_ k
  | Some p =>
      if qos_vfs_fs_kind path =? QOS_VFS_FS_PROCFS then fail_ k
      else
        let '(r, s) := qos_vfs_remove path (k_vfs k) in
        if negb (r =? 0) then fail_ (set_vfs s k)
        else done_ 0 (set_io (file_unlink_path p (k_io k)) (set_vfs s k))
  end.

(** ** Memory and time *)

Definition in_vmm (x : option (Z * vmm)) (k : kernel) : outcome :=
  match x with None => None | Some (r, s) => done_ r (set_vmm s k) end.

Definition op_yield (k : kernel) : outcome :=
  let '(pid, s) := qos_sched_next (k_sched k) in done_ pid (set_sched s k).

(** ** Sockets *)

Definition op_accept (u : user) (fd a1 a2 : Z) (k : kernel) : outcome :=
  let '(r, (addr, addrlen), s) :=
    sys_accept fd (negb (a1 =? 0)) (if a2 =? 0 then None else Some (u_int u a2 4)) (k_io k) in
  Some (r, (match addr with Some b => [(a1, b)] | None => [] end)
           ++ (match addrlen with Some n => [(a2, le_bytes 4 n)] | None => [] end), set_io s k).

Definition op_recv (fd a1 len a3 : Z) (k : kernel) : outcome :=
  let '(r, bytes, addr, s) := sys_recv fd (negb (a1 =? 0)) len (negb (a3 =? 0)) (k_io k) in
  Some (r, (a1, bytes) :: match addr with Some b => [(a3, b)] | None => [] end, set_io s k).

(** ** Processes and signals *)

Definition op_sigpending (pid : Z) (k : kernel) : outcome :=
  let '(r, mask) := qos_proc_signal_pending pid true (k_procs k) in
  if r =? 0 then done_ (default 0 mask) k else fail_ k.

Definition op_sigaction (pid sg handler : Z) (k : kernel) : outcome :=
  let '(r, old) := qos_proc_signal_get_handler pid sg true (k_procs k) in
  if negb (r =? 0) then fail_ k
  else if handler =? UINT64_MAX then done_ (i64 (default 0 old)) k
  else
    let '(r, s) := qos_proc_signal_set_handler pid sg handler (k_procs k) in
    done_ (if negb (r =? 0) then -1 else i64 (default 0 old)) (set_procs s k).

Definition new_mask (how old set : Z) : option Z :=
  if how =? SIG_BLOCK then Some (Z.lor old set)
  else if how =? SIG_UNBLOCK then Some (Z.land old (bnot 32 set))
  else if how =? SIG_SETMASK then Some set
  else None.

Definition op_sigprocmask (pid how set : Z) (k : kernel) : outcome :=
  let '(r, old) := qos_proc_signal_mask pid true (k_procs k) in
  if negb (r =? 0) then fail_ k
  else
    match new_mask how (default 0 old) set with
    | None => fail_ k
    | Some mask =>
        let '(r, s) := qos_proc_signal_set_mask pid mask (k_procs k) in
        done_ (if negb (r =? 0) then -1 else default 0 old) (set_procs s k)
    end.

Definition op_sigaltstack (pid sp size flags : Z) (k : kernel) : outcome :=
  let '(r, old) := qos_proc_signal_altstack_get pid true (k_procs k) in
  let old_flags := alt_flags (default altstack_zero old) in
  if negb (r =? 0) then fail_ k
  else if sp =? UINT64_MAX then done_ old_flags k
  else
    let '(r, s) := qos_proc_signal_altstack_set pid sp size flags (k_procs k) in
    done_ (if negb (r =? 0) then -1 else old_flags) (set_procs s k).

Definition op_sigsuspend (pid mask : Z) (k : kernel) : outcome :=
  let '(r, old) := qos_proc_signal_mask pid true (k_procs k) in
  if negb (r =? 0) then fail_ k
  else
    let '(r, s1) := qos_proc_signal_set_mask pid mask (k_procs k) in
    if negb (r =? 0) then fail_ (set_procs s1 k)
    else
      let '(delivered, s2) := qos_proc_signal_next pid s1 in
      let '(r, s3) := qos_proc_signal_set_mask pid (default 0 old) s2 in
      done_ (if negb (r =? 0) then -1 else if delivered <? 0 then -1 else delivered) (set_procs s3 k).

Definition op_fork (parent child : Z) (k : kernel) : outcome :=
  let '(r, s) := qos_proc_fork parent child (k_procs k) in
  done_ (if negb (r =? 0) then -1 else child) (set_procs s k).

Definition op_exec (pid : Z) (path : option string) (k : kernel) : outcome :=
  match path with
  | None => zero_or_fail (qos_proc_exec_signal_reset pid (k_procs k)) k
  | Some p =>
      let id := file_find p (k_io k) in
      let g := get_file id (k_io k) in
      if (id <? 0) || negb (file_used g) || (file_len g =? 0) then fail_ k
      else
        match parse_exec_elf_image (file_bytes g) with
        | None => None
        | Some None => fail_ k
        | Some (Some im) =>
            let '(r, s) := qos_proc_exec_signal_reset pid (k_procs k) in
            if negb (r =? 0) then fail_ (set_procs s k)
            else zero_or_fail (qos_proc_exec_image_set pid (Some im) s) k
        end
  end.

Definition op_getpid (pid : Z) (k : kernel) : outcome :=
  done_ (if qos_proc_alive pid (k_procs k) =? 0 then -1 else pid) k.

Definition op_waitpid (parent pid statusp options : Z) (k : kernel) : outcome :=
  let '(r, status, s) := qos_proc_wait parent pid (negb (statusp =? 0)) options (k_procs k) in
  Some (r, match status with Some c => [(statusp, le_bytes 4 c)] | None => [] end, set_procs s k).

Definition op_chdir (pid : Z) (path : option string) (k : kernel) : outcome :=
  if bool_decide (path = None) then fail_ k
  else if qos_vfs_exists path (k_vfs k) =? 0 then fail_ k
  else zero_or_fail (qos_proc_cwd_set pid path (k_procs k)) k.

(** With no buffer the directory is copied to one of the call's own. *)
Definition op_getcwd (pid out len : Z) (k : kernel) : outcome :=
  if out =? 0 then done_ (qos_proc_cwd_get pid true (Z.of_nat QOS_PROC_CWD_MAX) (k_procs k)).1 k
  else
    let '(r, cwd) := qos_proc_cwd_get pid true len (k_procs k) in
    Some (r, match cwd with Some c => [(out, bytes_of c ++ [0])] | None => [] end, k).

(** The frame at [a]: two 64-bit words around a 32-bit number and mask. *)
Definition u_frame (u : user) (a : Z) : option qos_sigframe_t :=
  if a =? 0 then None
  else Some {| pretcode := u_int u a 8; signum := i32 (u_int u (a + 8) 4); saved_mask := u_int u (a + 12) 4;
               saved_handler := u_int u (a + 16) 8 |}.

Definition op_sigreturn (u : user) (pid a1 a2 : Z) (k : kernel) : outcome :=
  if u32 a2 =? 1 then
    match u_frame u a1 with
    | None => fail_ k
    | Some f => zero_or_fail (qos_proc_signal_sigreturn pid (Some f) (k_procs k)) k
    end
  else zero_or_fail (qos_proc_signal_set_mask pid (u32 a1) (k_procs k)) k.

(** ** The call *)

(** The chain of [g_ops[nr] == SYSCALL_OP_...] tests: the operation [o] of an
    entry with the value [value].  [tmp] is what the buffer of a /proc read
    holds before it is filled. *)
Definition dispatch_op (o : syscall_op) (value a0 a1 a2 a3 : Z) (u : user) (tmp : list Z) (k : kernel) : outcome :=
  match o with
  | OP_CONST => done_ value k
  | OP_ADD => done_ (i64 (u64 (a0 + a1))) k
  | OP_QUERY => done_ (syscall_query_value (u32 value) k) k
  | OP_OPEN => op_open (u_str u a0) k
  | OP_READ => op_read (u32 a0) a1 (u32 a2) tmp k
  | OP_WRITE => op_write (u32 a0) (u_ptr u a1 (Z.to_nat (u32 a2))) (u32 a2) k
  | OP_CLOSE => in_io (sys_close (u32 a0) (k_io k)) k
  | OP_DUP2 => in_io (sys_dup2 (u32 a0) (u32 a1) (k_io k)) k
  | OP_MMAP => in_vmm (sys_mmap a0 a1 (u32 a2) (k_vmm k)) k
  | OP_MUNMAP => in_vmm (sys_munmap a0 a1 (k_vmm k)) k
  | OP_YIELD => op_yield k
  | OP_SLEEP => done_ 0 k
  | OP_SOCKET => in_io (sys_socket a0 a1 (k_io k)) k
  | OP_BIND => in_io (sys_bind (u32 a0) (u_ptr u a1 8) (u32 a2) (k_io k)) k
  | OP_LISTEN => in_io (sys_listen (u32 a0) a1 (k_io k)) k
  | OP_ACCEPT => op_accept u (u32 a0) a1 a2 k
  | OP_CONNECT => in_io (sys_connect (u32 a0) (u_ptr u a1 8) (u32 a2) (k_io k)) k
  | OP_SEND => in_io (sys_send (u32 a0) (u_ptr u a1 (Z.to_nat (u32 a2))) (u32 a2) (u_ptr u a3 8) (k_io k)) k
  | OP_RECV => op_recv (u32 a0) a1 (u32 a2) a3 k
  | OP_GETDENTS => op_getdents (u32 a0) a1 a2 k
  | OP_LSEEK => op_lseek (u32 a0) a1 (u32 a2) k
  | OP_PIPE => op_pipe a0 k
  | OP_KILL => zero_or_fail (qos_proc_signal_send (u32 a0) (u32 a1) (k_procs k)) k
  | OP_SIGPENDING => op_sigpending (u32 a0) k
  | OP_SIGACTION => op_sigaction (u32 a0) (u32 a1) a2 k
  | OP_SIGPROCMASK => op_sigprocmask (u32 a0) (u32 a1) (u32 a2) k
  | OP_SIGALTSTACK => op_sigaltstack (u32 a0) a1 a2 (u32 a3) k
  | OP_SIGSUSPEND => op_sigsuspend (u32 a0) (u32 a1) k
  | OP_FORK => op_fork (u32 a0) (u32 a1) k
  | OP_EXEC => op_exec (u32 a0) (u_str u a1) k
  | OP_DLOPEN => in_mods (sys_dlopen (k_io k) (u_str u a0) (k_mods k)) k
  | OP_DLCLOSE => in_mods (sys_dlclose (u32 a0) (k_mods k)) k
  | OP_DLSYM => done_ (sys_dlsym (u32 a0) (u_str u a1) (k_mods k)) k
  | OP_MODLOAD => in_mods (sys_modload (k_io k) (u_str u a0) (k_mods k)) k
  | OP_MODUNLOAD => in_mods (sys_modunload (u32 a0) (k_mods k)) k
  | OP_MODRELOAD => in_mods (sys_modreload (k_io k) (u32 a0) (k_mods k)) k
  | OP_EXIT => zero_or_fail (qos_proc_exit (u32 a0) (i32 a1) (k_procs k)) k
  | OP_GETPID => op_getpid (u32 a0) k
  | OP_WAITPID => op_waitpid (u32 a0) (i32 a1) a2 (u32 a3) k
  | OP_STAT => op_stat u a0 a1 k
  | OP_MKDIR => op_mkdir (u_str u a0) k
  | OP_UNLINK => op_unlink (u_str u a0) k
  | OP_CHDIR => op_chdir (u32 a0) (u_str u a1) k
  | OP_GETCWD => op_getcwd (u32 a0) a1 (u32 a2) k
  | OP_SIGRETURN => op_sigreturn u (u32 a0) a1 a2 k
  end.

Definition qos_syscall_dispatch (nr a0 a1 a2 a3 : Z) (u : user) (tmp : list Z) (k : kernel) : outcome :=
  let e := get_entry nr (k_table k) in
  if (Z.of_nat QOS_SYSCALL_MAX <=? nr) || negb (e_used e) then fail_ k
  else
    match op_of_code (e_op e) with
    | None => fail_ k
    | Some o => dispatch_op o (e_value e) a0 a1 a2 a3 u tmp k
    end.
