(* ===== verification/Syscalls.v ===== *)
(** * What every system call keeps

    The invariants of the subsystems, together, over all calls of
    [Dispatch.v]: every call keeps them, whatever its arguments and the caller's
    memory hold, and which calls leave the kernel alone when they fail. *)

From S2P Require Import Prelude SlotTable Pmm Vmm Sched Vfs Drivers Packet Udp Tcp Net Proc Elf SyscallTable Ports Fds Files Pipes.
From S2P Require Import Kthread Lifetimes SocketState SocketCalls Descriptors Modules Sockets ProcPath Kernel Render Procfs Memmap Dispatch.

(** ** The buffers behind files and pipes *)

(** Every file and pipe fills its 1024-byte buffer, holds no more than that,
    and files hold bytes. *)
Record bufs_ok (s : io) : Prop := {
  bo_files : Forall (λ g, file_ok g ∧ is_bytes (file_data g)) (io_files s);
  bo_pipes : Forall pipe_ok (io_pipes s)
}.

Lemma bufs_same s s' : io_files s' = io_files s → io_pipes s' = io_pipes s → bufs_ok s → bufs_ok s'.
Proof. intros Hf Hp [Bf Bp]. split; congruence. Qed.

Lemma zeros_bytes n : is_bytes (replicate n 0).
Proof. by apply Forall_replicate. Qed.

Lemma bufs_file i g s : bufs_ok s → file_ok g → is_bytes (file_data g) → bufs_ok (set_file i g s).
Proof. intros [Bf Bp] Hg Hb. split; [by apply Forall_insert|done]. Qed.

Lemma bufs_pipe i p s : bufs_ok s → pipe_ok p → bufs_ok (set_pipe i p s).
Proof. intros [Bf Bp] Hp. split; [done|by apply Forall_insert]. Qed.

Lemma bufs_fd i f s : bufs_ok s → bufs_ok (set_fd i f s).
Proof. by apply bufs_same. Qed.

Lemma file_zero_ok : file_ok file_zero.
Proof. by split. Qed.

Lemma pipe_zero_ok (u : bool) : pipe_ok {| pipe_used := u; pipe_len := 0; pipe_buf := replicate (Z.to_nat QOS_PIPE_CAP) 0 |}.
Proof. by split. Qed.

Lemma get_file_ok i s : bufs_ok s → file_ok (get_file i s) ∧ is_bytes (file_data (get_file i s)).
Proof.
  intros [Bf _]. unfold get_file. destruct (io_files s !! Z.to_nat i) as [g|] eqn:E; [by apply (Forall_lookup_1 _ _ _ _ Bf E)|].
  split; [apply file_zero_ok|apply zeros_bytes].
Qed.

Lemma get_pipe_ok i s : bufs_ok s → pipe_ok (get_pipe i s).
Proof.
  intros [_ Bp]. unfold get_pipe. destruct (io_pipes s !! Z.to_nat i) as [g|] eqn:E; [by apply (Forall_lookup_1 _ _ _ _ Bp E)|].
  apply pipe_zero_ok.
Qed.

Create HintDb bufs discriminated.
#[export] Hint Resolve bufs_file bufs_pipe bufs_fd file_zero_ok file_ok_fresh pipe_zero_ok zeros_bytes get_file_ok get_pipe_ok : bufs.

Lemma bufs_drop i s : bufs_ok s → bufs_ok (file_drop i s).
Proof. intros Hs. unfold file_drop. destruct (_ <=? _); [done|]. apply bufs_file; [done|apply file_zero_ok|apply zeros_bytes]. Qed.

Lemma bufs_fd_alloc k s : bufs_ok s → bufs_ok (fd_alloc k s).2.
Proof. intros Hs. unfold fd_alloc. destruct (free_slot _); [by apply bufs_fd|done]. Qed.

Lemma bufs_fd_clear i s : bufs_ok s → bufs_ok (fd_clear i s).
Proof.
  intros Hs. unfold fd_clear. destruct (negb _); [done|]. cbv zeta.
  match goal with |- context [if ?c && _ then set_pipe ?j ?p ?t else _] => assert (H2 : bufs_ok (if c && negb (pipe_in_use j t) then set_pipe j p t else t)) end.
  { destruct (_ && _); [apply bufs_pipe; [by apply bufs_fd|apply pipe_zero_ok]|by apply bufs_fd]. }
  revert H2. match goal with |- bufs_ok ?x → _ => generalize x end. intros s2 H2.
  assert (H3 : ∀ c : bool, bufs_ok (if c then file_drop (f_file_id (get_fd i s)) s2 else s2)).
  { intros []; [by apply bufs_drop|done]. }
  match goal with |- context [if ?c then file_drop ?j s2 else s2] => specialize (H3 c); revert H3; generalize (if c then file_drop j s2 else s2) end.
  intros s3 H3. repeat match goal with |- context [if ?c then _ else _] => destruct c end; by apply (bufs_same s3).
Qed.

Lemma bufs_file_ensure path s : bufs_ok s → bufs_ok (file_ensure path s).2.
Proof.
  intros Hs. unfold file_ensure, file_alloc. destruct (0 <=? _); [done|]. destruct (free_slot _); [|done].
  apply bufs_file; [done|apply file_ok_fresh|apply zeros_bytes].
Qed.

Lemma bufs_open_file path s : bufs_ok s → bufs_ok (open_file path s).2.
Proof.
  intros Hs. unfold open_file. pose proof (bufs_fd_alloc KVfs s Hs) as H1. destruct (fd_alloc _ _) as [i s1]. cbn [snd] in H1.
  destruct (i <? 0); [done|]. pose proof (bufs_file_ensure path s1 H1) as H2. destruct (file_ensure _ _) as [id s2]. cbn [snd] in H2.
  destruct (id <? 0); [by apply bufs_fd_clear|by apply bufs_fd].
Qed.

Lemma bufs_dup2 a b s : bufs_ok s → bufs_ok (sys_dup2 a b s).2.
Proof.
  intros Hs. unfold sys_dup2. destruct (_ || _); [done|]. destruct (_ =? _); [done|]. cbv zeta.
  destruct (fd_valid b s); cbn [snd]; apply bufs_fd; [by apply bufs_fd_clear|done].
Qed.

Lemma pipe_ok_unused p : pipe_ok p → pipe_ok {| pipe_used := false; pipe_len := pipe_len p; pipe_buf := pipe_buf p |}.
Proof. by intros []. Qed.

Lemma bufs_sys_pipe s : bufs_ok s → bufs_ok (sys_pipe s).2.
Proof.
  intros Hs. unfold sys_pipe.
  assert (H1 : bufs_ok (pipe_alloc s).2).
  { unfold pipe_alloc. destruct (free_slot _); [|done]. apply bufs_pipe; [done|apply pipe_zero_ok]. }
  destruct (pipe_alloc s) as [id s1]. cbn [snd] in H1. destruct (id <? 0); [done|]. cbv zeta.
  pose proof (bufs_fd_alloc KPipeR s1 H1) as H2. destruct (fd_alloc KPipeR s1) as [rfd s2]. cbn [snd] in H2.
  destruct (rfd <? 0); [by apply bufs_pipe; [|by apply pipe_ok_unused, get_pipe_ok]|].
  pose proof (bufs_fd_alloc KPipeW s2 H2) as H3. destruct (fd_alloc KPipeW s2) as [wfd s3]. cbn [snd] in H3.
  destruct (wfd <? 0); [|by apply bufs_fd, bufs_fd].
  pose proof (bufs_fd_clear rfd s3 H3). by apply bufs_pipe; [|by apply pipe_ok_unused, get_pipe_ok].
Qed.

Lemma bufs_unlink path s : bufs_ok s → bufs_ok (file_unlink_path path s).
Proof.
  intros Hs. unfold file_unlink_path. cbv zeta. destruct (_ <? 0); [done|].
  destruct (get_file_ok (file_find path s) s Hs) as [[Hl Hz Hd] Hb].
  match goal with |- context [set_file ?i ?g s] => assert (H1 : bufs_ok (set_file i g s)) by (apply bufs_file; [done|by split|done]) end.
  destruct (negb _); [by apply bufs_drop|done].
Qed.

(** A write moves between the ends of the buffer and keeps its size. *)
Lemma write_vfs_bufs i bytes s :
  bufs_ok s → is_bytes bytes → bufs_ok (write_vfs i bytes (Z.of_nat (length bytes)) s).2.
Proof.
  intros Hs Hb. unfold write_vfs. cbv zeta. destruct (_ || _); [done|].
  destruct (Z.leb_spec QOS_PIPE_CAP (u32 (f_offset (get_fd i s)))) as [|Ho]; [done|].
  pose proof (wrap_range 32 (f_offset (get_fd i s)) ltac:(lia)) as Hr. revert Ho Hr. generalize (u32 (f_offset (get_fd i s))).
  intros o Ho [Ho0 _]. change QOS_PIPE_CAP with 1024 in *. rewrite (wrap_small 32 (1024 - o)) by (unfold in_width; lia).
  set (n := if 1024 - o <? Z.of_nat (length bytes) then 1024 - o else Z.of_nat (length bytes)).
  assert (0 <= n <= 1024 - o ∧ n <= Z.of_nat (length bytes)) as Hn by (unfold n; destruct (Z.ltb_spec (1024 - o) (Z.of_nat (length bytes))); lia).
  clearbody n. destruct (Z.eqb_spec n 0) as [|Hn0]; [done|]. cbn [snd]. set (g := get_file (f_file_id (get_fd i s)) s).
  destruct (get_file_ok (f_file_id (get_fd i s)) s Hs) as [Hg Hgb]. fold g in Hg, Hgb.
  rewrite (wrap_small 32 (o + n)), (wrap_small 16 (o + n)) by (unfold in_width; lia).
  assert (length (take (Z.to_nat n) bytes) = Z.to_nat n) as Hl by (rewrite length_take; lia).
  destruct (file_ok_write g (Z.to_nat o) (take (Z.to_nat n) bytes) Hg) as [Hok _]; [lia|lia|].
  rewrite Hl in Hok. replace (Z.of_nat (Z.to_nat o + Z.to_nat n)) with (o + n) in Hok by lia.
  apply bufs_file; [by apply bufs_fd|done|]. cbn [file_data].
  repeat apply Forall_app_2; [by apply Forall_take|by apply Forall_take|by apply Forall_drop].
Qed.

Lemma write_pipe_bufs i bytes s : bufs_ok s → bufs_ok (write_pipe i bytes (Z.of_nat (length bytes)) s).2.
Proof.
  intros Hs. unfold write_pipe. cbv zeta. destruct (get_pipe_ok (f_pipe_id (get_fd i s)) s Hs) as [Hl Hb].
  revert Hl Hb. generalize (get_pipe (f_pipe_id (get_fd i s)) s). intros p Hl Hb. change QOS_PIPE_CAP with 1024.
  rewrite (wrap_small 32 (1024 - pipe_len p)) by (unfold in_width; lia).
  destruct (Z.ltb_spec (1024 - pipe_len p) (Z.of_nat (length bytes))) as [|Hfit]; [by rewrite orb_true_r|].
  destruct (_ || _); [done|]. cbn [snd]. rewrite Nat2Z.id, firstn_all. apply bufs_pipe; [done|].
  split; cbn [pipe_len pipe_buf].
  - rewrite wrap_small by (unfold in_width; lia). lia.
  - rewrite !length_app, length_take, length_drop, Hb. lia.
Qed.

Lemma read_pipe_bufs i n s : bufs_ok s → 0 <= n → bufs_ok (read_pipe i n s).2.
Proof.
  intros Hs Hn. unfold read_pipe. cbv zeta. destruct (get_pipe_ok (f_pipe_id (get_fd i s)) s Hs) as [Hl Hb].
  revert Hl Hb. generalize (get_pipe (f_pipe_id (get_fd i s)) s). intros p Hl Hb. destruct (_ || _); [done|].
  set (m := if n <? pipe_len p then n else pipe_len p).
  assert (0 <= m <= pipe_len p) as Hm by (unfold m; destruct (Z.ltb_spec n (pipe_len p)); lia). clearbody m.
  destruct (_ =? 0); [done|]. cbn [snd]. apply bufs_pipe; [done|]. split; cbn [pipe_len pipe_buf].
  - rewrite wrap_small by (unfold in_width; lia). lia.
  - destruct (_ <? _); [|done]. rewrite length_app, length_take, !length_drop, Hb. lia.
Qed.

Definition desc_data (o : desc_op) : Prop :=
  match o with DIo (IWrite _ bytes) => is_bytes bytes | DIo (IRead _ n) => 0 <= n | _ => True end.

Lemma bufs_sock s s' : sock_only s s' → bufs_ok s → bufs_ok s'.
Proof. intros [_ Hf Hp]. by apply bufs_same. Qed.

Lemma bufs_socket d t s : bufs_ok s → bufs_ok (sys_socket d t s).2.
Proof.
  intros Hs. unfold sys_socket. destruct (_ || _); [done|]. pose proof (bufs_fd_alloc KSocket s Hs) as H.
  destruct (fd_alloc KSocket s) as [i s1]. destruct (i <? 0); [done|by apply bufs_fd].
Qed.

Lemma bufs_accept i addr addrlen s : bufs_ok s → bufs_ok (sys_accept i addr addrlen s).2.
Proof.
  intros Hs. unfold sys_accept. destruct (_ || _); [done|]. pose proof (bufs_fd_alloc KSocket s Hs) as H1.
  destruct (fd_alloc KSocket s) as [n s1]. cbn [snd] in H1. destruct (n <? 0); [done|].
  assert (H2 : bufs_ok (socket_pending_pop i s1).2).
  { unfold socket_pending_pop. destruct (_ || _); [done|by apply bufs_fd]. }
  destruct (socket_pending_pop i s1) as [[r [p|]] s2]; cbn [snd] in H2; destruct r; cbn [snd]; try by apply bufs_fd_clear.
  by apply bufs_fd, bufs_fd.
Qed.

Lemma desc_exec_bufs o s : desc_data o → bufs_ok s → bufs_ok (desc_exec o s).
Proof.
  intros Hd Hs. destruct o as [o| | | | | | | | |]; cbn [desc_exec desc_data] in *.
  - destruct o as [path|i|a b| |path|i n|i bytes|i off whence]; cbn [io_exec].
    + by apply bufs_open_file.
    + unfold sys_close. destruct (negb _); [done|]. by apply bufs_fd_clear.
    + by apply bufs_dup2.
    + by apply bufs_sys_pipe.
    + by apply bufs_unlink.
    + destruct (negb _); [done|]. destruct (f_kind _); try done; [|by apply read_pipe_bufs].
      unfold read_vfs. cbv zeta. destruct (_ || _); [done|]. destruct (_ <=? _); [done|]. destruct (_ =? 0); [done|by apply bufs_fd].
    + destruct (negb _); [done|]. destruct (f_kind _); try done; [by apply write_vfs_bufs|by apply write_pipe_bufs].
    + unfold sys_lseek. destruct (_ || _); [done|]. destruct (lseek_base _ _ _ _); [|done]. destruct (_ || _); [done|].
      cbv zeta. destruct (_ <? 0); [done|by apply bufs_fd].
  - by apply bufs_socket.
  - eapply bufs_sock; [apply sys_bind_only|done].
  - eapply bufs_sock; [apply sys_listen_only|done].
  - by apply bufs_accept.
  - eapply bufs_sock; [apply sys_connect_only|done].
  - eapply bufs_sock; [apply sys_send_only|done].
  - eapply bufs_sock; [apply sys_recv_only|done].
  - destruct (_ && _); [|done]. eapply bufs_sock; [apply read_socket_only|done].
  - destruct (_ && _); [|done]. eapply bufs_sock; [apply write_socket_only|done].
Qed.

(** ** The kernel's invariant *)

Record io_inv (s : io) : Prop := { ii_ok : io_ok s; ii_sinv : sinv s; ii_bufs : bufs_ok s }.

Record sys_ok (k : kernel) : Prop := { sy_kernel : kernel_ok k; sy_bufs : bufs_ok (k_io k) }.

Lemma sys_io_inv k : sys_ok k → io_inv (k_io k).
Proof. intros [[] ?]. by split. Qed.

Lemma desc_exec_inv o s : desc_op_ok o → desc_data o → io_inv s → io_inv (desc_exec o s).
Proof. intros Ho Hd []. split; [by apply desc_exec_ok|by apply desc_exec_sinv|by apply desc_exec_bufs]. Qed.

Lemma sys_ok_io s k : sys_ok k → io_inv s → sys_ok (set_io s k).
Proof. intros [[] ?] []. by split; [split|]. Qed.

Lemma sys_ok_procs s k : sys_ok k → proc_wf s → sys_ok (set_procs s k).
Proof. intros [[] ?] ?. by split; [split|]. Qed.

Lemma sys_ok_vfs s k : sys_ok k → vfs_wf s → sys_ok (set_vfs s k).
Proof. intros [[] ?] ?. by split; [split|]. Qed.

Lemma sys_ok_vmm s k : sys_ok k → vmm_wf s → sys_ok (set_vmm s k).
Proof. intros [[] ?] ?. by split; [split|]. Qed.

Lemma sys_ok_sched s k : sys_ok k → sched_wf s → sys_ok (set_sched s k).
Proof. intros [[] ?] ?. by split; [split|]. Qed.

Lemma sys_ok_mods s k : sys_ok k → sys_ok (set_mods s k).
Proof. intros [[] ?]. by split; [split|]. Qed.

(** An outcome is a well-formed kernel, or [bad] happened. *)
Definition keeps (bad : Prop) (x : outcome) : Prop :=
  match x with None => bad | Some (_, _, k) => sys_ok k end.

(** A descriptor call through the dispatcher. *)
Lemma keeps_desc bad o x k :
  sys_ok k → desc_op_ok o → desc_data o → x.2 = desc_exec o (k_io k) → keeps bad (in_io x k).
Proof. intros Hk Ho Hd Hx. cbn. apply sys_ok_io; [done|]. rewrite Hx. apply desc_exec_inv; [done..|by apply sys_io_inv]. Qed.

(** A process call through the dispatcher. *)
Lemma proc_exec_wf o s : proc_wf s → proc_op_ok o → proc_wf (proc_exec o s).2.
Proof. intros Hs Ho. pose proof (proc_step_refines o s Hs Ho) as H. destruct (proc_exec o s) as [[r st] s']. apply H. Qed.

(** ** One operation at a time *)

(** READ of [n] bytes leaves the buffer of a /proc descriptor. *)
Definition overruns (fd n : Z) (k : kernel) : Prop :=
  ∃ kind pid, proc_fd fd kind pid k
  ∧ let off := u32 (f_offset (get_fd fd (k_io k))) in
    let m := Z.min n (Z.max 0 (len (kind_text kind pid k) - off)) in
    0 < m ∧ 2048 < off + m.

Definition user_ok (u : user) : Prop := ∀ a, in_width 8 (u_byte u a).

Lemma u_mem_bytes u a n : user_ok u → is_bytes (u_mem u a n).
Proof. intros Hu. apply Forall_fmap, Forall_forall. intros i _. apply Hu. Qed.

Lemma u_mem_length u a n : length (u_mem u a n) = n.
Proof. unfold u_mem. by rewrite length_fmap, length_seq. Qed.

Lemma u_int_width u a n : user_ok u → 0 <= u_int u a n < 256 ^ Z.of_nat n.
Proof. intros Hu. rewrite <- (u_mem_length u a n) at 3. apply le_range, u_mem_bytes, Hu. Qed.

Lemma open_proc_inv kind pid s : io_inv s → io_inv (open_proc kind pid s).2.
Proof.
  intros []. split; [by apply open_proc_ok|by apply open_proc_sinv|]. unfold open_proc.
  pose proof (bufs_fd_alloc KProc s ltac:(done)) as H. destruct (fd_alloc KProc s) as [i s1]. destruct (i <? 0); [done|by apply bufs_fd].
Qed.

Lemma keeps_open bad path k : sys_ok k → keeps bad (op_open path k).
Proof.
  intros Hk. destruct path as [p|]; [|done]. unfold op_open. destruct (Z.eqb_spec (qos_vfs_exists (Some p) (k_vfs k)) 0) as [|Hex].
  - destruct (proc_target _ _) as [[kind pid]|]; [|done]. apply sys_ok_io; [done|]. by apply open_proc_inv, sys_io_inv.
  - apply (keeps_desc bad (DIo (IOpen p))); [done| |done|done]. intros ->. by apply Hex.
Qed.

Lemma touch_offset_inv fd off s : io_inv s → io_inv (set_fd fd (with_offset off (get_fd fd s)) s).
Proof. intros []. split; [by apply touch_row_ok|by apply sinv_row; [|split]|by apply bufs_fd]. Qed.

Lemma render_unknown fd out cap k : ¬ known_kind (f_proc_kind (get_fd fd (k_io k))) → (proc_fd_render fd out cap k).1 = 0.
Proof.
  intros Hn. unfold proc_fd_render. destruct (_ || _); [done|]. unfold render_kind, known_kind in *.
  repeat match goal with |- context [?a =? ?b] => destruct (Z.eqb_spec a b) as [E|_]; [exfalso; rewrite E in Hn; vm_compute in Hn; naive_solver|] end.
  done.
Qed.

Lemma read_proc_keeps fd n tmp k :
  sys_ok k → fd_valid fd (k_io k) = true → f_kind (get_fd fd (k_io k)) = KProc → 0 <= fd → 0 <= n → length tmp = TMP_MAX →
  match read_proc fd n tmp k with None => overruns fd n k | Some (_, _, k') => sys_ok k' end.
Proof.
  intros Hk Hv Hkd Hfd Hn Htmp. destruct (read_proc fd n tmp k) as [[[r bs] k']|] eqn:E.
  - revert E. unfold read_proc. destruct (proc_fd_render _ _ _ _) as [total o]. cbv zeta.
    repeat match goal with |- context [if ?c then _ else _] => destruct c end; try (by intros [= _ _ <-]); try done; intros [= _ _ <-];
      (apply sys_ok_io; [done|by apply touch_offset_inv, sys_io_inv]).
  - assert (known_kind (f_proc_kind (get_fd fd (k_io k)))) as Hkn.
    { destruct (decide (1 <= f_proc_kind (get_fd fd (k_io k)) <= 7)) as [|Hu]; [done|]. exfalso. revert E. unfold read_proc.
      pose proof (render_unknown fd (Some tmp) (Z.of_nat TMP_MAX) k Hu) as Ht. destruct (proc_fd_render _ _ _ _) as [total o].
      cbn [fst] in Ht. subst. pose proof (wrap_range 32 (f_offset (get_fd fd (k_io k))) ltac:(lia)) as Hr.
      by rewrite (proj2 (Z.leb_le 0 _)) by apply Hr. }
    assert (Hpf : proc_fd fd (f_proc_kind (get_fd fd (k_io k))) (f_proc_pid (get_fd fd (k_io k))) k).
    { split; [|done|done|done]. unfold fd_valid in Hv. b2p. lia. }
    eexists _, _. split; [exact Hpf|]. apply (read_proc_spec fd _ _ k n tmp (ko_vmm _ (sy_kernel _ Hk)) Hpf Htmp Hn), E.
Qed.

(** What READ and WRITE do is what the descriptor call of that kind does. *)
Lemma keeps_read fd out n tmp k :
  sys_ok k → 0 <= fd → 0 <= n → length tmp = TMP_MAX →
  keeps (f_kind (get_fd fd (k_io k)) = KProc ∧ overruns fd n k) (op_read fd out n tmp k).
Proof.
  intros Hk Hfd Hn Htmp. unfold op_read. destruct (fd_valid fd (k_io k)) eqn:Hv; cbn [negb orb]; [|done]. destruct (out =? 0); [done|].
  assert (Hio : ∀ bad o x, desc_op_ok o → desc_data o → x.2 = desc_exec o (k_io k) → keeps bad (read_out out x k)).
  { intros bad o x Ho Hd Hx. cbn. apply sys_ok_io; [done|]. rewrite Hx. apply desc_exec_inv; [done..|by apply sys_io_inv]. }
  destruct (f_kind (get_fd fd (k_io k))) eqn:Hkd; try done.
  - apply (Hio _ (DIo (IRead fd n))); [done|done|]. cbn [desc_exec io_exec]. by rewrite Hv, Hkd.
  - apply (Hio _ (DReadSocket fd n)); [done|done|]. cbn [desc_exec]. unfold is_socket. by rewrite Hv, Hkd.
  - apply (Hio _ (DIo (IRead fd n))); [done|done|]. cbn [desc_exec io_exec]. by rewrite Hv, Hkd.
  - pose proof (read_proc_keeps fd n tmp k Hk Hv Hkd Hfd Hn Htmp) as H. by destruct (read_proc _ _ _ _) as [[[r bs] k']|].
Qed.

Lemma keeps_write bad u fd a n k : sys_ok k → user_ok u → 0 <= fd → 0 <= n → keeps bad (op_write fd (u_ptr u a (Z.to_nat n)) n k).
Proof.
  intros Hk Hu Hfd Hn. unfold op_write, u_ptr. destruct (a =? 0); [done|]. pose proof (u_mem_bytes u a (Z.to_nat n) Hu) as Hb.
  assert (n = Z.of_nat (length (u_mem u a (Z.to_nat n)))) as Hl by (rewrite u_mem_length; lia).
  revert Hb Hl. generalize (u_mem u a (Z.to_nat n)). intros bs Hb ->.
  destruct (fd_valid fd (k_io k)) eqn:Hv; cbn [negb]; [|done]. destruct (f_kind (get_fd fd (k_io k))) eqn:Hkd; try done.
  - apply (keeps_desc bad (DIo (IWrite fd bs))); [done..|]. cbn [desc_exec io_exec]. by rewrite Hv, Hkd.
  - apply (keeps_desc bad (DWriteSocket fd bs (Z.of_nat (length bs)))); [done..|]. cbn [desc_exec]. unfold is_socket. by rewrite Hv, Hkd.
  - apply (keeps_desc bad (DIo (IWrite fd bs))); [done..|]. cbn [desc_exec io_exec]. by rewrite Hv, Hkd.
Qed.

(** Process calls: each is a sequence of operations of the process table. *)
Lemma keeps_zero bad o x k :
  sys_ok k → proc_op_ok o → x.2 = (proc_exec o (k_procs k)).2 → keeps bad (zero_or_fail x k).
Proof. intros Hk Ho Hx. cbn. apply sys_ok_procs; [done|]. rewrite Hx. apply proc_exec_wf; [apply Hk|done]. Qed.

Lemma mask_width pid s : proc_wf s → in_width 32 (default 0 (qos_proc_signal_mask pid true s).2).
Proof.
  intros Hs. pose proof (queries_read_abs pid s Hs) as Hq. destruct (procs_abs s !! pid) as [b|] eqn:Hb; cbn in Hq.
  - destruct Hq as (_ & _ & _ & _ & _ & -> & _). apply (so_blocked _ (sig_ok_abs pid b s Hs Hb)).
  - by destruct Hq as (_ & _ & _ & _ & _ & -> & _).
Qed.

Lemma new_mask_width how old set mask : in_width 32 old → in_width 32 set → new_mask how old set = Some mask → in_width 32 mask.
Proof.
  intros Ho Hs. unfold new_mask. destruct (how =? _); [intros [= <-]; by apply lor_in_width|].
  destruct (how =? _); [intros [= <-]; apply land_in_width; [done..|apply bnot_in_width; [done|apply Hs]]|].
  destruct (how =? _); [by intros [= <-]|done].
Qed.

Lemma keeps_sigaction bad pid sg h k : sys_ok k → keeps bad (op_sigaction pid sg h k).
Proof.
  intros Hk. unfold op_sigaction. destruct (qos_proc_signal_get_handler _ _ _ _) as [r old]. destruct (negb _); [done|].
  destruct (_ =? _); [done|]. pose proof (proc_exec_wf (PHandler pid sg h) (k_procs k) (ko_procs _ (sy_kernel _ Hk)) I) as H.
  cbn [proc_exec] in H. destruct (qos_proc_signal_set_handler _ _ _ _) as [r2 s]. by apply sys_ok_procs.
Qed.

Lemma set_mask_wf pid mask s : proc_wf s → in_width 32 mask → proc_wf (qos_proc_signal_set_mask pid mask s).2.
Proof. intros Hs Hm. exact (proc_exec_wf (PMask pid mask) s Hs Hm). Qed.

Lemma keeps_sigprocmask bad pid how set k : sys_ok k → in_width 32 set → keeps bad (op_sigprocmask pid how set k).
Proof.
  intros Hk Hs. unfold op_sigprocmask. pose proof (mask_width pid (k_procs k) (ko_procs _ (sy_kernel _ Hk))) as Ho.
  destruct (qos_proc_signal_mask _ _ _) as [r old]. cbn [snd] in Ho. destruct (negb _); [done|].
  destruct (new_mask how (default 0 old) set) as [mask|] eqn:Em; [|done]. pose proof (new_mask_width _ _ _ _ Ho Hs Em) as Hm.
  pose proof (set_mask_wf pid mask (k_procs k) (ko_procs _ (sy_kernel _ Hk)) Hm) as H.
  destruct (qos_proc_signal_set_mask _ _ _) as [r2 s]. by apply sys_ok_procs.
Qed.

Lemma keeps_sigaltstack bad pid sp size flags k : sys_ok k → keeps bad (op_sigaltstack pid sp size flags k).
Proof.
  intros Hk. unfold op_sigaltstack. destruct (qos_proc_signal_altstack_get _ _ _) as [r old]. cbv zeta. destruct (negb _); [done|].
  destruct (_ =? _); [done|].
  pose proof (proc_exec_wf (PAltstack pid {| alt_sp := sp; alt_size := size; alt_flags := flags |}) (k_procs k) (ko_procs _ (sy_kernel _ Hk)) I) as H.
  cbn [proc_exec alt_sp alt_size alt_flags] in H. destruct (qos_proc_signal_altstack_set _ _ _ _ _) as [r2 s]. by apply sys_ok_procs.
Qed.

Lemma keeps_sigsuspend bad pid mask k : sys_ok k → in_width 32 mask → keeps bad (op_sigsuspend pid mask k).
Proof.
  intros Hk Hm. unfold op_sigsuspend. pose proof (mask_width pid (k_procs k) (ko_procs _ (sy_kernel _ Hk))) as Ho.
  destruct (qos_proc_signal_mask _ _ _) as [r old]. cbn [snd] in Ho. destruct (negb _); [done|].
  pose proof (set_mask_wf pid mask (k_procs k) (ko_procs _ (sy_kernel _ Hk)) Hm) as H1.
  destruct (qos_proc_signal_set_mask _ _ _) as [r1 s1]. cbn [snd] in H1. destruct (negb _); [by apply sys_ok_procs|].
  pose proof (proc_exec_wf (PNext pid) s1 H1 I) as H2. cbn [proc_exec] in H2.
  destruct (qos_proc_signal_next _ _) as [d s2]. cbn [snd] in H2.
  pose proof (set_mask_wf pid (default 0 old) s2 H2 Ho) as H3.
  destruct (qos_proc_signal_set_mask _ _ _) as [r3 s3]. by apply sys_ok_procs.
Qed.

Lemma keeps_fork bad parent child k : sys_ok k → in_width 32 child → keeps bad (op_fork parent child k).
Proof.
  intros Hk Hc. unfold op_fork. pose proof (proc_exec_wf (PFork parent child) (k_procs k) (ko_procs _ (sy_kernel _ Hk)) Hc) as H.
  cbn [proc_exec] in H. destruct (qos_proc_fork _ _ _) as [r s]. by apply sys_ok_procs.
Qed.

Lemma file_parse_ok id s :
  bufs_ok s → let image := file_bytes (get_file id s) in
  parse_exec_elf_image image = Some (if elf_valid image then Some (elf_describe image) else None).
Proof.
  intros Hs image. destruct (get_file_ok id s Hs) as [Hok Hb]. apply parse_exec_spec; [by apply Forall_take|].
  unfold image_len, image. rewrite (file_bytes_length _ Hok). destruct Hok. lia.
Qed.

Lemma keeps_exec bad pid path k : sys_ok k → keeps bad (op_exec pid path k).
Proof.
  intros Hk. pose proof (proc_exec_wf (PExecReset pid) (k_procs k) (ko_procs _ (sy_kernel _ Hk)) I) as H1. cbn [proc_exec] in H1.
  destruct path as [p|]; cbn [op_exec]; [|by apply (keeps_zero bad (PExecReset pid))]. destruct (_ || _); [done|].
  rewrite file_parse_ok by apply Hk. destruct (elf_valid _); [|done].
  destruct (qos_proc_exec_signal_reset _ _) as [r s]. cbn [snd] in H1. destruct (negb _); [by apply sys_ok_procs|].
  apply sys_ok_procs; [done|]. exact (proc_exec_wf (PExecImage pid _) s H1 I).
Qed.

Lemma wait_out parent pid out options s : (qos_proc_wait parent pid out options s).2 = (qos_proc_wait parent pid true options s).2.
Proof.
  unfold qos_proc_wait, reap. cbv zeta. destruct (find_pid parent s); [|done]. destruct (pid =? -1).
  - destruct (first_index _ _); [|done]. by destruct (qos_proc_remove _ _).
  - destruct (find_pid _ _); [|done]. destruct (negb _); [done|]. destruct (negb _); [done|]. by destruct (qos_proc_remove _ _).
Qed.

Lemma keeps_waitpid bad parent pid statusp options k : sys_ok k → - 2 ^ 31 <= pid < 2 ^ 31 → keeps bad (op_waitpid parent pid statusp options k).
Proof.
  intros Hk Hp. unfold op_waitpid. pose proof (proc_exec_wf (PWait parent pid options) (k_procs k) (ko_procs _ (sy_kernel _ Hk)) Hp) as H.
  cbn [proc_exec] in H. rewrite <- (wait_out _ _ (negb (statusp =? 0))) in H.
  destruct (qos_proc_wait _ _ _ _ _) as [[r st] s]. by apply sys_ok_procs.
Qed.

Lemma keeps_sigreturn bad u pid a1 a2 k : sys_ok k → user_ok u → keeps bad (op_sigreturn u pid a1 a2 k).
Proof.
  intros Hk Hu. unfold op_sigreturn, u_frame. destruct (_ =? 1).
  - destruct (_ =? 0); [done|]. eapply (keeps_zero bad (PSigreturn pid _)); [done| |reflexivity]. apply (u_int_width u (a1 + 12) 4 Hu).
  - apply (keeps_zero bad (PMask pid (u32 a1))); [done|by apply wrap_range|done].
Qed.

Lemma keeps_mkdir bad path k : sys_ok k → keeps bad (op_mkdir path k).
Proof.
  intros Hk. unfold op_mkdir. destruct path as [p|]; [|done]. rewrite bool_decide_eq_false_2 by done. destruct (_ =? _); [done|].
  pose proof (vfs_create_refines p (k_vfs k) (ko_vfs _ (sy_kernel _ Hk))) as H. destruct (qos_vfs_create _ _) as [r s].
  apply sys_ok_vfs; [done|apply H].
Qed.

Lemma keeps_unlink bad path k : sys_ok k → keeps bad (op_unlink path k).
Proof.
  intros Hk. unfold op_unlink. destruct path as [p|]; [|done]. destruct (_ =? _); [done|].
  pose proof (vfs_remove_refines p (k_vfs k) (ko_vfs _ (sy_kernel _ Hk))) as H. destruct (qos_vfs_remove _ _) as [r s].
  assert (sys_ok (set_vfs s k)) as Hs by (apply sys_ok_vfs; [done|apply H]). destruct (negb _); [done|].
  apply sys_ok_io; [done|]. exact (desc_exec_inv (DIo (IUnlink p)) (k_io k) I I (sys_io_inv k Hk)).
Qed.

Lemma keeps_chdir bad pid path k : sys_ok k → keeps bad (op_chdir pid path k).
Proof.
  intros Hk. unfold op_chdir. destruct path as [p|]; [|done]. rewrite bool_decide_eq_false_2 by done. destruct (_ =? _); [done|].
  by apply (keeps_zero bad (PCwd pid p)).
Qed.

Lemma keeps_vmm bad x k s' M r : sys_ok k → x = Some (r, s') → moves (k_vmm k) s' M → keeps bad (in_vmm x k).
Proof. intros Hk -> [Hwf _]. by apply sys_ok_vmm. Qed.

Lemma keeps_yield bad k : sys_ok k → keeps bad (op_yield k).
Proof.
  intros Hk. unfold op_yield. pose proof (qos_sched_next_ok (k_sched k) (ko_sched _ (sy_kernel _ Hk))) as [H _].
  destruct (qos_sched_next _) as [pid s]. by apply sys_ok_sched.
Qed.

(** Calls that only look. *)
Lemma keeps_sigpending bad pid k : sys_ok k → keeps bad (op_sigpending pid k).
Proof. intros Hk. unfold op_sigpending. destruct (qos_proc_signal_pending _ _ _) as [r m]. by destruct (_ =? _). Qed.

Lemma keeps_stat bad u a0 out k : sys_ok k → keeps bad (op_stat u a0 out k).
Proof.
  intros Hk. unfold op_stat. destruct (u_str u a0); [|done]. cbv zeta. destruct (_ =? _); [|done]. by destruct (proc_target _ _).
Qed.

Lemma keeps_getcwd bad pid out n k : sys_ok k → keeps bad (op_getcwd pid out n k).
Proof. intros Hk. unfold op_getcwd. destruct (_ =? _); [done|]. by destruct (qos_proc_cwd_get _ _ _ _). Qed.

Lemma keeps_getdents bad fd out cap k : sys_ok k → keeps bad (op_getdents fd out cap k).
Proof. intros Hk. unfold op_getdents. destruct (_ || _); [done|]. by destruct (_ <? _). Qed.

Lemma keeps_lseek bad fd a1 whence k : sys_ok k → keeps bad (op_lseek fd a1 whence k).
Proof.
  intros Hk. destruct (sys_io_inv k Hk). apply sys_ok_io; [done|]. split; [by apply sys_lseek_ok|by apply sys_lseek_sinv|].
  unfold sys_lseek. destruct (_ || _); [done|]. destruct (lseek_base _ _ _ _); [|done]. destruct (_ || _); [done|].
  cbv zeta. destruct (_ <? 0); [done|by apply bufs_fd].
Qed.

Lemma keeps_pipe bad out k : sys_ok k → keeps bad (op_pipe out k).
Proof.
  intros Hk. unfold op_pipe. destruct (_ =? _); [done|].
  pose proof (desc_exec_inv (DIo IPipe) (k_io k) I I (sys_io_inv k Hk)) as H. cbn [desc_exec io_exec] in H.
  destruct (sys_pipe (k_io k)) as [[r fds] s]. by apply sys_ok_io.
Qed.

Lemma keeps_accept bad u fd a1 a2 k : sys_ok k → 0 <= fd → keeps bad (op_accept u fd a1 a2 k).
Proof.
  intros Hk Hfd. unfold op_accept. match goal with |- context [sys_accept fd ?p ?q _] =>
    pose proof (desc_exec_inv (DAccept fd p q) (k_io k) Hfd I (sys_io_inv k Hk)) as H end. cbn [desc_exec] in H.
  destruct (sys_accept _ _ _ _) as [[r [addr alen]] s]. by apply sys_ok_io.
Qed.

Lemma keeps_recv bad fd a1 n a3 k : sys_ok k → keeps bad (op_recv fd a1 n a3 k).
Proof.
  intros Hk. unfold op_recv. match goal with |- context [sys_recv fd ?p n ?q _] =>
    pose proof (desc_exec_inv (DRecv fd p n q) (k_io k) I I (sys_io_inv k Hk)) as H end. cbn [desc_exec] in H.
  destruct (sys_recv _ _ _ _ _) as [[[r bs] addr] s]. by apply sys_ok_io.
Qed.

Lemma keeps_mods bad x k : sys_ok k → keeps bad (in_mods x k).
Proof. apply sys_ok_mods. Qed.

Create HintDb keeps discriminated.
#[export] Hint Resolve keeps_open keeps_write keeps_mkdir keeps_unlink keeps_chdir keeps_yield keeps_sigaction keeps_sigprocmask
  keeps_sigaltstack keeps_sigsuspend keeps_fork keeps_exec keeps_sigreturn keeps_sigpending keeps_stat keeps_getcwd keeps_getdents
  keeps_lseek keeps_pipe keeps_accept keeps_recv keeps_mods : keeps.

(** Every argument a register, the caller's memory bytes, the buffer its size. *)
Record args_ok (a0 a1 a2 a3 : Z) (u : user) (tmp : list Z) : Prop := {
  ao_regs : in_width 64 a0 ∧ in_width 64 a1 ∧ in_width 64 a2 ∧ in_width 64 a3;
  ao_user : user_ok u;
  ao_tmp : length tmp = TMP_MAX
}.

Lemma dispatch_op_keeps o value a0 a1 a2 a3 u tmp k :
  sys_ok k → args_ok a0 a1 a2 a3 u tmp →
  keeps (o = OP_READ ∧ f_kind (get_fd (u32 a0) (k_io k)) = KProc ∧ overruns (u32 a0) (u32 a2) k)
    (dispatch_op o value a0 a1 a2 a3 u tmp k).
Proof.
  intros Hk [(H0 & H1 & H2 & H3) Hu Htmp]. pose proof (sys_io_inv k Hk) as Hio.
  assert (Hw : ∀ x, 0 <= u32 x) by (intros x; apply (wrap_range 32 x); lia).
  assert (Hw32 : ∀ x, in_width 32 (u32 x)) by (intros x; by apply wrap_range).
  assert (Hd : ∀ bad o x, desc_op_ok o → desc_data o → x.2 = desc_exec o (k_io k) → keeps bad (in_io x k)) by (intros; by eapply keeps_desc).
  destruct o; cbn [dispatch_op]; try done; auto with keeps.
  - by apply (keeps_zero _ (PSend (u32 a0) (u32 a1))).
  - by apply (keeps_zero _ (PExit (u32 a0) (i32 a1))).
  - apply keeps_waitpid; [done|]. by apply (sext_range 32).
  - pose proof (keeps_read (u32 a0) a1 (u32 a2) tmp k Hk (Hw _) (Hw _) Htmp) as H. by destruct (op_read _ _ _ _ _) as [[[? ?] ?]|].
  - apply (Hd _ (DIo (IClose (u32 a0)))); cbn; auto.
  - apply (Hd _ (DIo (IDup2 (u32 a0) (u32 a1)))); cbn; auto.
  - destruct (sys_mmap_ok a0 a1 (u32 a2) (k_vmm k) (ko_vmm _ (sy_kernel _ Hk)) H0 (proj1 H1)) as (r & s' & M & E & Hm & _).
    by apply (keeps_vmm _ _ k s' M r).
  - destruct (sys_munmap_ok a0 a1 (k_vmm k) (ko_vmm _ (sy_kernel _ Hk)) H0 (proj1 H1)) as (r & s' & M & E & Hm & _).
    by apply (keeps_vmm _ _ k s' M r).
  - apply (Hd _ (DSocket a0 a1)); cbn; auto.
  - apply (Hd _ (DBind (u32 a0) (u_ptr u a1 8) (u32 a2))); cbn; auto.
  - apply (Hd _ (DListen (u32 a0) a1)); cbn; auto.
  - apply (Hd _ (DConnect (u32 a0) (u_ptr u a1 8) (u32 a2))); cbn; auto.
  - apply (Hd _ (DSend (u32 a0) (u_ptr u a1 (Z.to_nat (u32 a2))) (u32 a2) (u_ptr u a3 8))); cbn; auto.
Qed.

(** ** Failing without a trace *)

(** If the call returned -1, the kernel is as it was and nothing was written. *)
Definition unharmed (k : kernel) (x : outcome) : Prop :=
  match x with Some (r, w, k') => r = -1 → k' = k ∧ Forall (λ b, b.2 = []) w | None => True end.

Lemma set_io_same k : set_io (k_io k) k = k.
Proof. by destruct k. Qed.

Lemma set_procs_same k : set_procs (k_procs k) k = k.
Proof. by destruct k. Qed.

Lemma unharmed_io x k : (x.1 = -1 → x.2 = k_io k) → unharmed k (in_io x k).
Proof. intros Hx Hr. cbn. rewrite (Hx Hr), set_io_same. done. Qed.

Lemma unharmed_procs (f : Z → Z) (x : Z * procs) k :
  (x.1 = 0 → f 0 ≠ -1) → (x.1 ≠ 0 → x.2 = k_procs k) → unharmed k (done_ (f x.1) (set_procs x.2 k)).
Proof.
  intros Hf Hx. cbn. destruct (Z.eq_dec x.1 0) as [E|E]; [rewrite E; intros H; by apply Hf in H|].
  rewrite (Hx E), set_procs_same. done.
Qed.

Lemma unharmed_zero x k : (x.1 ≠ 0 → x.2 = k_procs k) → unharmed k (zero_or_fail x k).
Proof. intros Hx. by apply (unharmed_procs (λ r, if r =? 0 then 0 else -1)). Qed.

Lemma fd_alloc_failed kd s : (fd_alloc kd s).1 < 0 → (fd_alloc kd s).2 = s.
Proof. unfold fd_alloc. destruct (free_slot _); [cbn; lia|done]. Qed.

Lemma socket_failed d t s : (sys_socket d t s).1 = -1 → (sys_socket d t s).2 = s.
Proof.
  unfold sys_socket. destruct (_ || _); [done|]. pose proof (fd_alloc_failed KSocket s) as H.
  destruct (fd_alloc _ _) as [i s1]. cbn [fst snd] in H. destruct (Z.ltb_spec i 0) as [Hi|Hi]; [by intros _; apply H|cbn; lia].
Qed.

Lemma listen_failed i a1 s : (sys_listen i a1 s).1 = -1 → (sys_listen i a1 s).2 = s.
Proof.
  unfold sys_listen. destruct (_ || _); [done|]. cbv zeta. destruct (_ =? 0); [done|].
  assert (H : ∀ p t, (qos_net_tcp_listen p t).1 < 0 → (qos_net_tcp_listen p t).2 = t).
  { intros p t. unfold qos_net_tcp_listen. destruct (_ || _); [done|]. destruct (free_slot _); [cbn; lia|done]. }
  match goal with |- context [qos_net_tcp_listen ?p ?t] => specialize (H p t); destruct (qos_net_tcp_listen p t) as [id t'] end.
  cbn [fst snd] in H. destruct (Z.ltb_spec id 0) as [Hi|]; [|done]. intros _. cbn. rewrite (H Hi). by destruct s as [? ? ? ? []].
Qed.

Lemma dup2_failed a b s : 0 <= b → (sys_dup2 a b s).1 = -1 → (sys_dup2 a b s).2 = s.
Proof. intros Hb. unfold sys_dup2. destruct (_ || _); [done|]. destruct (_ =? _); cbn; lia. Qed.

Lemma lseek_failed i a1 whence total s : (sys_lseek i a1 whence total s).1 = -1 → (sys_lseek i a1 whence total s).2 = s.
Proof.
  unfold sys_lseek. destruct (_ || _); [done|]. destruct (lseek_base _ _ _ _) as [base|]; [|done]. destruct (_ || _); [done|].
  cbv zeta. destruct (Z.ltb_spec (base + i64 a1) 0); [done|]. cbn. lia.
Qed.

Lemma unharmed_read_out out x k : (x.1.1 = -1 → x.1.2 = [] ∧ x.2 = k_io k) → unharmed k (read_out out x k).
Proof. intros Hx Hr. destruct (Hx Hr) as [E1 E2]. cbn. rewrite E1, E2, set_io_same. by repeat constructor. Qed.

Lemma read_vfs_failed i n s : 0 <= n → (read_vfs i n s).1.1 = -1 → (read_vfs i n s).1.2 = [] ∧ (read_vfs i n s).2 = s.
Proof.
  intros Hn. unfold read_vfs. cbv zeta. destruct (_ || _); [done|]. destruct (_ <=? _); [done|].
  match goal with |- context [n <? wrap 32 ?x] => pose proof (wrap_range 32 x ltac:(lia)) as [Hw _]; destruct (n <? wrap 32 x) end;
    (destruct (_ =? 0); [done|cbn; lia]).
Qed.

Lemma read_pipe_failed i n s : bufs_ok s → 0 <= n → (read_pipe i n s).1.1 = -1 → (read_pipe i n s).1.2 = [] ∧ (read_pipe i n s).2 = s.
Proof.
  intros Hs Hn. unfold read_pipe. cbv zeta. destruct (get_pipe_ok (f_pipe_id (get_fd i s)) s Hs) as [Hl _].
  destruct (_ || _); [done|]. destruct (n <? _); (destruct (_ =? 0); [done|cbn; lia]).
Qed.

Lemma read_proc_never_fails fd n tmp k r bs k' : 0 <= n → read_proc fd n tmp k = Some (r, bs, k') → r ≠ -1.
Proof.
  intros Hn. unfold read_proc. destruct (proc_fd_render _ _ _ _) as [total o]. cbv zeta.
  destruct (Z.leb_spec total (u32 (f_offset (get_fd fd (k_io k))))); [by intros [= <- _ _]|].
  match goal with |- context [n <? ?x] => destruct (n <? x) end;
    (destruct (_ =? 0); [by intros [= <- _ _]|]; destruct (_ <? _); [done|]; intros [= <- _ _]; lia).
Qed.

Lemma unharmed_read fd out n tmp k :
  bufs_ok (k_io k) → 0 <= n → f_kind (get_fd fd (k_io k)) ≠ KSocket → unharmed k (op_read fd out n tmp k).
Proof.
  intros Hb Hn Hkd. unfold op_read. destruct (_ || _); [done|]. destruct (f_kind (get_fd fd (k_io k))); try done.
  - by apply unharmed_read_out, read_vfs_failed.
  - by apply unharmed_read_out, read_pipe_failed.
  - destruct (read_proc fd n tmp k) as [[[r bs] k']|] eqn:E; [|done]. intros Hr. by apply read_proc_never_fails in E.
Qed.

Lemma write_socket_failed i src n s : 0 <= n → (write_socket i src n s).1 = -1 → (write_socket i src n s).2 = s.
Proof.
  intros Hn. unfold write_socket. cbv zeta. destruct (_ || _); [done|]. destruct (to_gateway _).
  { unfold stream_host_response_prepare. cbv zeta. destruct (_ || _); [done|]. cbn. lia. }
  destruct (_ =? _).
  { unfold raw_send. destruct (_ || _); [done|]. destruct (qos_net_icmp_echo _ _ _ _ _) as [[got reply] ip]. destruct (got <? 0); [done|]. cbn. lia. }
  destruct (_ =? _).
  - destruct (_ || _); [done|]. unfold udp_send_io, qos_net_udp_send. destruct (_ || _); [by destruct s as [? ? ? ? []]|].
    destruct (negb _); [by destruct s as [? ? ? ? []]|]. destruct (_ <=? _)%nat; [by destruct s as [? ? ? ? []]|]. cbn. lia.
  - unfold enqueue, qos_net_enqueue_packet. destruct (_ || _); [by destruct s as [? ? ? ? []]|].
    destruct (_ <=? _)%nat; [by destruct s as [? ? ? ? []]|]. cbn. lia.
Qed.

Lemma unharmed_write fd src n k : 0 <= n → unharmed k (op_write fd src n k).
Proof.
  intros Hn. unfold op_write. destruct src as [bs|]; [|done]. destruct (negb _); [done|]. destruct (f_kind _); try done; apply unharmed_io.
  - unfold write_vfs. cbv zeta. destruct (_ || _); [done|]. destruct (_ <=? _); [done|].
    match goal with |- context [wrap 32 ?x <? n] => pose proof (wrap_range 32 x ltac:(lia)) as [Hw _]; destruct (wrap 32 x <? n) end;
      (destruct (_ =? 0); [done|cbn; lia]).
  - by apply write_socket_failed.
  - unfold write_pipe. cbv zeta. destruct (_ || _); [done|]. cbn. lia.
Qed.

(** Process calls *)

Lemma find_pid_none pid s : proc_wf s → procs_abs s !! pid = None → find_pid pid s = None.
Proof.
  intros Hs Hn. pose proof (find_pid_abs pid s Hs) as H. destruct (find_pid pid s); [|done].
  destruct H as (p & _ & _ & _ & _ & _ & _ & E). congruence.
Qed.

Lemma send_failed pid sg s : (qos_proc_signal_send pid sg s).1 ≠ 0 → (qos_proc_signal_send pid sg s).2 = s.
Proof. unfold qos_proc_signal_send. destruct (find_pid _ _); [|done]. by destruct (negb _). Qed.

Lemma set_mask_failed pid mask s : (qos_proc_signal_set_mask pid mask s).1 ≠ 0 → (qos_proc_signal_set_mask pid mask s).2 = s.
Proof. unfold qos_proc_signal_set_mask. by destruct (find_pid _ _). Qed.

Lemma sigreturn_failed pid f s : (qos_proc_signal_sigreturn pid f s).1 ≠ 0 → (qos_proc_signal_sigreturn pid f s).2 = s.
Proof. unfold qos_proc_signal_sigreturn. destruct (find_pid _ _); [|done]. by destruct f. Qed.

Lemma exit_failed pid code s : (qos_proc_exit pid code s).1 ≠ 0 → (qos_proc_exit pid code s).2 = s.
Proof. unfold qos_proc_exit. destruct (find_pid _ _); [|done]. by destruct (exited _). Qed.

Lemma cwd_set_failed pid path s : (qos_proc_cwd_set pid path s).1 ≠ 0 → (qos_proc_cwd_set pid path s).2 = s.
Proof.
  unfold qos_proc_cwd_set, cwd_set_idx. destruct (find_pid _ _); [|done]. destruct path as [[|c rest]|]; try done.
  destruct (negb _); [done|]. cbv zeta. by destruct (_ || _).
Qed.

Lemma fork_failed parent child s : (qos_proc_fork parent child s).1 ≠ 0 → (qos_proc_fork parent child s).2 = s.
Proof. unfold qos_proc_fork. destruct (_ || _); [done|]. destruct (find_pid _ _); [|done]. by destruct (free_slot _). Qed.

Lemma unharmed_fork parent child k : 0 <= child → unharmed k (op_fork parent child k).
Proof.
  intros Hc. unfold op_fork. pose proof (fork_failed parent child (k_procs k)) as H. destruct (qos_proc_fork _ _ _) as [r s].
  apply (unharmed_procs (λ r, if negb (r =? 0) then -1 else child) (r, s)); [cbn; lia|done].
Qed.

Lemma unharmed_sigprocmask pid how set k : proc_wf (k_procs k) → unharmed k (op_sigprocmask pid how set k).
Proof.
  intros Hp. unfold op_sigprocmask. pose proof (mask_width pid (k_procs k) Hp) as [Hw _].
  destruct (qos_proc_signal_mask _ _ _) as [r old]. cbn [snd] in Hw. destruct (negb _); [done|]. destruct (new_mask _ _ _) as [mask|]; [|done].
  pose proof (set_mask_failed pid mask (k_procs k)) as H. destruct (qos_proc_signal_set_mask _ _ _) as [r2 s].
  apply (unharmed_procs (λ r, if negb (r =? 0) then -1 else default 0 old) (r2, s)); [cbn; lia|done].
Qed.

Lemma delivers_range b r b' : delivers b r b' → 0 <= r.
Proof. intros [[[-> _]|(H & _)] _ _ _]; [done|]. apply can_deliver_range in H. lia. Qed.

(** A live process takes the mask, a signal and the old mask back. *)
Lemma unharmed_sigsuspend pid mask k : proc_wf (k_procs k) → in_width 32 mask → unharmed k (op_sigsuspend pid mask k).
Proof.
  intros Hp Hm. unfold op_sigsuspend. destruct (procs_abs (k_procs k) !! pid) as [b|] eqn:Hb.
  2:{ unfold qos_proc_signal_mask. by rewrite find_pid_none. }
  pose proof (mask_width pid (k_procs k) Hp) as Hw. destruct (qos_proc_signal_mask _ _ _) as [r old]. cbn [snd] in Hw. destruct (negb _); [done|].
  pose proof (proc_step_refines (PMask pid mask) (k_procs k) Hp Hm) as H1. cbn [proc_exec] in H1.
  destruct (qos_proc_signal_set_mask _ _ _) as [r1 s1]. destruct H1 as [Hp1 H1]. cbn [proc_spec fst snd] in *. unfold updates in H1. rewrite Hb in H1.
  destruct H1 as (-> & b1 & _ & Hm1). cbn [negb Z.eqb].
  pose proof (proc_step_refines (PNext pid) s1 Hp1 I) as H2. cbn [proc_exec] in H2.
  destruct (qos_proc_signal_next _ _) as [d s2]. destruct H2 as [Hp2 H2]. cbn [proc_spec fst snd] in *. rewrite Hm1, lookup_insert_eq in H2.
  destruct H2 as (b2 & Hd%delivers_range & Hm2).
  pose proof (proc_step_refines (PMask pid (default 0 old)) s2 Hp2 Hw) as H3. cbn [proc_exec] in H3.
  destruct (qos_proc_signal_set_mask _ _ _) as [r3 s3]. destruct H3 as [Hp3 H3]. cbn [proc_spec fst snd] in *. unfold updates in H3.
  rewrite Hm2, lookup_insert_eq in H3. destruct H3 as (-> & _). cbn [negb Z.eqb unharmed done_].
  rewrite (proj2 (Z.ltb_ge d 0)) by lia. lia.
Qed.

Lemma unharmed_exec pid path k : proc_wf (k_procs k) → unharmed k (op_exec pid path k).
Proof.
  intros Hp. assert (Hr : (qos_proc_exec_signal_reset pid (k_procs k)).1 ≠ 0 → (qos_proc_exec_signal_reset pid (k_procs k)).2 = k_procs k).
  { unfold qos_proc_exec_signal_reset. by destruct (find_pid _ _). }
  destruct path as [p|]; cbn [op_exec]; [|by apply unharmed_zero]. destruct (_ || _); [done|].
  destruct (parse_exec_elf_image _) as [[im|]|]; [|done..].
  pose proof (proc_step_refines (PExecReset pid) (k_procs k) Hp I) as H1. cbn [proc_exec] in H1.
  destruct (qos_proc_exec_signal_reset _ _) as [r s]. cbn [fst snd] in *. destruct H1 as [Hp1 H1].
  destruct (Z.eqb_spec r 0) as [->|Hn]; cbn [negb]; [|by rewrite (Hr Hn), set_procs_same].
  cbn [proc_spec] in H1. unfold updates in H1. destruct (procs_abs (k_procs k) !! pid) as [b|]; [|by destruct H1].
  destruct H1 as (_ & b1 & _ & Hm1). pose proof (proc_step_refines (PExecImage pid im) s Hp1 I) as H2. cbn [proc_exec] in H2.
  destruct H2 as [_ H2]. cbn [proc_spec] in H2. unfold updates in H2. rewrite Hm1, lookup_insert_eq in H2. destruct H2 as [E _].
  cbn. by rewrite E.
Qed.

(** ** Results *)

(** The operation a number calls. *)
Definition called (nr : Z) (k : kernel) : option syscall_op :=
  if sc_lookup nr (k_table k) is Some (op, _) then op_of_code op else None.

Lemma dispatch_called nr a0 a1 a2 a3 u tmp k :
  0 <= nr →
  qos_syscall_dispatch nr a0 a1 a2 a3 u tmp k
  = match called nr k with
    | None => fail_ k
    | Some o => dispatch_op o (e_value (get_entry nr (k_table k))) a0 a1 a2 a3 u tmp k
    end.
Proof.
  intros Hn. unfold qos_syscall_dispatch, called, sc_lookup. rewrite (proj2 (Z.leb_le 0 nr)) by done.
  change (Z.of_nat QOS_SYSCALL_MAX) with 128. rewrite (Z.ltb_antisym 128 nr).
  destruct (128 <=? nr); [done|]. by destruct (e_used _).
Qed.

Lemma vfs_create_failed path s : (qos_vfs_create path s).1 ≠ 0 → (qos_vfs_create path s).2 = s.
Proof.
  unfold qos_vfs_create. destruct path as [p|]; [|done]. destruct (negb _); [done|]. destruct (find_path _ _); [done|]. by destruct (find_free_slot _).
Qed.

Lemma vfs_remove_failed path s : (qos_vfs_remove path s).1 ≠ 0 → (qos_vfs_remove path s).2 = s.
Proof. unfold qos_vfs_remove. destruct path as [p|]; [|done]. destruct (negb _); [done|]. by destruct (find_path _ _). Qed.

Lemma set_vfs_same k : set_vfs (k_vfs k) k = k.
Proof. by destruct k. Qed.

Lemma unharmed_mkdir path k : unharmed k (op_mkdir path k).
Proof.
  unfold op_mkdir. destruct (bool_decide _); [done|]. destruct (_ =? _); [done|]. pose proof (vfs_create_failed path (k_vfs k)) as H.
  destruct (qos_vfs_create _ _) as [r s]. cbn [fst snd] in H. destruct (Z.eqb_spec r 0) as [|Hr]; [done|]. rewrite (H Hr), set_vfs_same. done.
Qed.

Lemma unharmed_unlink path k : unharmed k (op_unlink path k).
Proof.
  unfold op_unlink. destruct path as [p|]; [|done]. destruct (_ =? _); [done|]. pose proof (vfs_remove_failed (Some p) (k_vfs k)) as H.
  destruct (qos_vfs_remove _ _) as [r s]. cbn [fst snd] in H. destruct (Z.eqb_spec r 0) as [|Hr]; [done|]. rewrite (H Hr), set_vfs_same. done.
Qed.

Lemma set_mods_same k : set_mods (k_mods k) k = k.
Proof. by destruct k. Qed.

Lemma unharmed_dlclose handle k : unharmed k (in_mods (sys_dlclose handle (k_mods k)) k).
Proof.
  unfold sys_dlclose, shlib_release_handle. cbv zeta. destruct (_ <? 0); [cbn; by rewrite set_mods_same|].
  destruct (_ =? 0); [cbn; by rewrite set_mods_same|done].
Qed.

Lemma unharmed_modunload id k : unharmed k (in_mods (sys_modunload id (k_mods k)) k).
Proof. unfold sys_modunload, module_unload_id. cbv zeta. destruct (_ <? 0); [cbn; by rewrite set_mods_same|done]. Qed.

(** The operations that fail without a trace.  The others either undo only part
    of what they did (memory, opening, pipes, naming and connecting sockets,
    loading modules) or may return -1 as a value (a handler, flags, a pid). *)
Definition clean (o : syscall_op) (fd : Z) (k : kernel) : bool :=
  match o with
  | OP_READ => negb (bool_decide (f_kind (get_fd fd (k_io k)) = KSocket))
  | OP_OPEN | OP_PIPE | OP_MMAP | OP_MUNMAP | OP_BIND | OP_ACCEPT | OP_CONNECT | OP_SEND | OP_RECV
  | OP_SIGACTION | OP_SIGALTSTACK | OP_WAITPID | OP_YIELD | OP_DLOPEN | OP_MODLOAD | OP_MODRELOAD => false
  | _ => true
  end.

Lemma unharmed_getcwd pid out n k : proc_wf (k_procs k) → unharmed k (op_getcwd pid out n k).
Proof.
  intros Hp. unfold op_getcwd, qos_proc_cwd_get. destruct (out =? 0); [done|]. pose proof (find_pid_abs pid (k_procs k) Hp) as H.
  destruct (find_pid _ _); [|done]. destruct H as (p & _ & -> & _ & _ & Hok & _). destruct (_ || _); [done|]. cbv zeta.
  destruct (_ <? _); [done|]. cbn. rewrite (po_cwd_len _ Hok). lia.
Qed.

Lemma unharmed_getdents fd out cap k : vfs_wf (k_vfs k) → unharmed k (op_getdents fd out cap k).
Proof.
  intros Hv. unfold op_getdents. destruct (_ || _); [done|]. destruct (_ <? _); [done|]. cbn. unfold qos_vfs_count.
  rewrite (vw_count _ Hv). lia.
Qed.

Lemma unharmed_sigpending pid k : unharmed k (op_sigpending pid k).
Proof. unfold op_sigpending. destruct (qos_proc_signal_pending _ _ _). by destruct (_ =? 0). Qed.

Lemma unharmed_stat u a0 out k : unharmed k (op_stat u a0 out k).
Proof. unfold op_stat. destruct (u_str u a0); [|done]. cbv zeta. destruct (_ =? 0); [|done]. by destruct (proc_target _ _). Qed.

Lemma unharmed_chdir pid path k : unharmed k (op_chdir pid path k).
Proof. unfold op_chdir. destruct (bool_decide _); [done|]. destruct (_ =? 0); [done|]. apply unharmed_zero, cwd_set_failed. Qed.

Lemma unharmed_sigreturn u pid a1 a2 k : unharmed k (op_sigreturn u pid a1 a2 k).
Proof.
  unfold op_sigreturn. destruct (_ =? 1); [|apply unharmed_zero, set_mask_failed].
  destruct (u_frame u a1); [|done]. apply unharmed_zero, sigreturn_failed.
Qed.

Lemma dispatch_op_unharmed o value a0 a1 a2 a3 u tmp k :
  sys_ok k → clean o (u32 a0) k = true → unharmed k (dispatch_op o value a0 a1 a2 a3 u tmp k).
Proof.
  intros [Hk Hb] Ho. assert (Hw : ∀ x, 0 <= u32 x) by (intros x; apply (wrap_range 32 x); lia).
  destruct o; try discriminate Ho; cbn [dispatch_op]; try done;
    auto using unharmed_getcwd, unharmed_getdents, unharmed_sigpending, unharmed_stat, unharmed_chdir, unharmed_sigreturn, unharmed_mkdir,
      unharmed_unlink, unharmed_dlclose, unharmed_modunload, unharmed_fork, unharmed_sigprocmask, unharmed_exec, unharmed_write, ko_procs, ko_vfs.
  - apply unharmed_zero, send_failed.
  - apply unharmed_sigsuspend; [apply Hk|by apply wrap_range].
  - apply unharmed_zero, exit_failed.
  - apply unharmed_read; [done|done|]. cbn [clean] in Ho. by destruct (bool_decide_reflect (f_kind (get_fd (u32 a0) (k_io k)) = KSocket)).
  - apply unharmed_io. unfold sys_close. by destruct (negb _).
  - by apply unharmed_io, dup2_failed.
  - apply unharmed_io, socket_failed.
  - apply unharmed_io, listen_failed.
  - apply unharmed_io, lseek_failed.
Qed.

(** C2: A failing system call changes nothing. For 29 of the 45 operations (all
    process and signal calls but three, the file-tree calls, reading files, pipes
    and /proc, writing anything, closing, duplicating and seeking descriptors,
    creating and listening on sockets, closing libraries and unloading modules)
    a call that returns -1 leaves every subsystem exactly as it was and writes no
    byte to the caller. A number that is not registered always returns -1 so. *)
Theorem failed_call_changes_nothing nr a0 a1 a2 a3 u tmp k w k' :
  sys_ok k → 0 <= nr → (∀ o, called nr k = Some o → clean o (u32 a0) k = true) →
  (qos_syscall_dispatch nr a0 a1 a2 a3 u tmp k = Some (-1, w, k') → k' = k ∧ Forall (λ b, b.2 = []) w)
  ∧ (called nr k = None → qos_syscall_dispatch nr a0 a1 a2 a3 u tmp k = Some (-1, [], k)).
Proof.
  intros Hk Hn Hc. rewrite dispatch_called by done. split.
  - destruct (called nr k) as [o|]; [|by intros [= <- <-]]. intros E.
    pose proof (dispatch_op_unharmed o (e_value (get_entry nr (k_table k))) a0 a1 a2 a3 u tmp k Hk (Hc o eq_refl)) as H.
    rewrite E in H. by apply H.
  - by intros ->.
Qed.

(** ** Sequences of calls *)

Record call := { c_nr : Z; c_a0 : Z; c_a1 : Z; c_a2 : Z; c_a3 : Z; c_user : user; c_tmp : list Z }.

Definition call_ok (c : call) : Prop :=
  in_width 32 (c_nr c) ∧ args_ok (c_a0 c) (c_a1 c) (c_a2 c) (c_a3 c) (c_user c) (c_tmp c).

Definition do_call (c : call) (k : kernel) : outcome :=
  qos_syscall_dispatch (c_nr c) (c_a0 c) (c_a1 c) (c_a2 c) (c_a3 c) (c_user c) (c_tmp c) k.

Fixpoint do_calls (cs : list call) (k : kernel) : option kernel :=
  match cs with
  | [] => Some k
  | c :: cs' => match do_call c k with Some (_, _, k') => do_calls cs' k' | None => None end
  end.

(** The call reads a /proc file beyond the 2048 bytes of the buffer. *)
Definition long_read (c : call) (k : kernel) : Prop :=
  called (c_nr c) k = Some OP_READ ∧ f_kind (get_fd (u32 (c_a0 c)) (k_io k)) = KProc
  ∧ overruns (u32 (c_a0 c)) (u32 (c_a2 c)) k.

Lemma do_call_keeps c k : sys_ok k → call_ok c → keeps (long_read c k) (do_call c k).
Proof.
  intros Hk [[Hn _] Ha]. unfold do_call, long_read. rewrite dispatch_called by done. destruct (called _ _) as [o|]; [|done].
  pose proof (dispatch_op_keeps o (e_value (get_entry (c_nr c) (k_table k))) _ _ _ _ _ _ k Hk Ha) as H.
  destruct (dispatch_op _ _ _ _ _ _ _ _ _) as [[[r w] k']|]; [done|]. destruct H as (-> & H). done.
Qed.

Lemma do_calls_keep cs k :
  sys_ok k → Forall call_ok cs →
  match do_calls cs k with
  | Some k' => sys_ok k'
  | None => ∃ before c after k1, cs = before ++ c :: after ∧ do_calls before k = Some k1 ∧ long_read c k1
  end.
Proof.
  revert k. induction cs as [|c cs IH]; intros k Hk Hcs; [done|]. apply Forall_cons in Hcs as [Hc Hcs]. cbn [do_calls].
  pose proof (do_call_keeps c k Hk Hc) as H. destruct (do_call c k) as [[[r w] k']|] eqn:E; [|by exists [], c, cs, k].
  specialize (IH k' H Hcs). destruct (do_calls cs k') as [k2|]; [done|]. destruct IH as (before & c' & after & k1 & -> & Hd & Hl).
  exists (c :: before), c', after, k1. split_and!; [done| |done]. cbn [do_calls]. by rewrite E.
Qed.

Lemma booted_sys_ok img p names :
  length names = QOS_KTHREAD_MAX → Forall (λ b, length b = QOS_KTHREAD_NAME_MAX) names → sys_ok (booted img p names).
Proof.
  intros Hl Hn. split; [by apply booted_ok|]. cbn [booted k_io io_reset]. split; cbn [io_reset io_files io_pipes].
  - apply Forall_replicate. split; [apply file_zero_ok|apply zeros_bytes].
  - apply Forall_replicate, pipe_zero_ok.
Qed.

(** C1: No sequence of system calls corrupts the kernel. After a successful start,
    whatever calls follow, with whatever arguments and whatever the caller's
    memory holds, each of them returns and the kernel keeps the invariants of all
    its parts: the address spaces, run queues, directory, descriptors, files,
    pipes, sockets, ports, system-call table and processes are well formed, every
    open descriptor refers to a live file or pipe, and every file and pipe stays
    within its buffer. The one exception is a READ of a /proc file that asks for
    bytes beyond the first 2048, which leaves the buffer of the call. (The memory of
    the caller is separate from the globals of the kernel: the code checks pointers
    for NULL only, so a caller that passes the address of kernel data is outside of
    this.) *)
Theorem syscalls_keep_kernel img boot k0 k cs :
  image_ok img → static_ok k0 → qos_kernel_entry img boot k0 = (0, k) → Forall call_ok cs →
  match do_calls cs k with
  | Some k' => sys_ok k'
  | None => ∃ before c after k1, cs = before ++ c :: after ∧ do_calls before k = Some k1 ∧ long_read c k1
  end.
Proof.
  intros Hi [Hl Hn] He Hcs. apply do_calls_keep; [|done]. rewrite kernel_entry_eq in He by done.
  destruct (qos_pmm_init _ _ _) as [found p]. destruct (negb _); [done|]. destruct (negb _); [done|].
  apply pair_equal_spec in He as [_ <-]. apply booted_sys_ok; [by rewrite length_fmap|by apply Forall_fmap].
Qed.

(** A started kernel, and a caller whose memory holds a path. *)
Definition demo_start : kernel := (qos_kernel_entry demo_image (Some (0x500000, demo_boot 0x600000)) cold).2.

Definition demo_user : user :=
  {| u_byte := λ a, nth (Z.to_nat (a - 16)) (bytes_of "/a") 0; u_strlen := λ _, 2%nat |}.

Definition demo_call (nr a0 a1 a2 : Z) : call :=
  {| c_nr := nr; c_a0 := a0; c_a1 := a1; c_a2 := a2; c_a3 := 0; c_user := demo_user; c_tmp := replicate TMP_MAX 0 |}.

Lemma demo_user_ok : user_ok demo_user.
Proof.
  intros a. cbn [demo_user u_byte]. destruct (Z.to_nat (a - 16)) as [|[|[|n]]]; vm_compute; by split.
Qed.

Lemma demo_start_entry : qos_kernel_entry demo_image (Some (0x500000, demo_boot 0x600000)) cold = (0, demo_start).
Proof.
  unfold demo_start. rewrite kernel_entry_eq by done. destruct (qos_pmm_init _ _ _) as [found p] eqn:E.
  replace found with 0 by (apply (f_equal fst) in E; vm_compute in E; done). reflexivity.
Qed.

(** MKDIR, OPEN, WRITE *)
Definition demo_calls : list call := [demo_call 22 16 0 0; demo_call 5 16 0 0; demo_call 7 0 16 2].

Lemma demo_syscalls_ok : Forall call_ok demo_calls.
Proof. repeat (constructor; [split; [done|split; [done|apply demo_user_ok|done]]|]). constructor. Qed.

Lemma demo_calls_return : match do_calls demo_calls demo_start with Some _ => true | None => false end = true.
Proof. lazy. reflexivity. Qed.

Lemma demo_image_ok : image_ok demo_image.
Proof. done. Qed.

Lemma syscalls_keep_kernel_witness : match do_calls demo_calls demo_start with Some k => sys_ok k | None => False end.
Proof.
  generalize demo_calls_return.
  generalize (syscalls_keep_kernel demo_image _ cold demo_start demo_calls demo_image_ok cold_static demo_start_entry demo_syscalls_ok).
  destruct (do_calls demo_calls demo_start) as [k|]; [intros H _; exact H|intros _ H; discriminate H].
Defined.

Lemma demo_start_ok : sys_ok demo_start.
Proof.
  assert (E : qos_kernel_entry demo_image (Some (0x500000, demo_boot 0x600000)) cold = (0, demo_start)) by apply demo_start_entry.
  rewrite kernel_entry_eq in E by apply demo_image_ok. destruct (qos_pmm_init _ _ _) as [found p]. destruct (negb _); [discriminate E|].
  destruct (negb _); [discriminate E|]. apply pair_equal_spec in E as [_ <-]. destruct cold_static as [Hl Hn].
  apply booted_sys_ok; [by rewrite length_fmap|by apply Forall_fmap].
Qed.

Lemma demo_close_called : called 8 demo_start = Some OP_CLOSE.
Proof. lazy. reflexivity. Qed.

(** CLOSE of a descriptor that is not open *)
Lemma failed_call_changes_nothing_witness :
  match qos_syscall_dispatch 8 9 0 0 0 demo_user [] demo_start with Some (r, _, k) => r = -1 ∧ k = demo_start | None => False end.
Proof.
  assert (H : match qos_syscall_dispatch 8 9 0 0 0 demo_user [] demo_start with Some (r, _, _) => r =? -1 | None => false end = true)
    by (lazy; reflexivity).
  revert H. generalize (λ w k', failed_call_changes_nothing 8 9 0 0 0 demo_user [] demo_start w k' demo_start_ok (Zle_0_pos 8)).
  destruct (qos_syscall_dispatch 8 9 0 0 0 demo_user [] demo_start) as [[[r w] k']|]; [|intros _ H; discriminate H].
  intros Ht ->%Z.eqb_eq. split; [reflexivity|]. apply (Ht w k'); [|reflexivity].
  intros o Ho. rewrite demo_close_called in Ho. by injection Ho as <-.
Defined.
