(* ===== verification/FileCalls.v ===== *)
(** * Files through system calls

    What a program sees of a file: the bytes it writes through a descriptor are
    the bytes it reads back (syscall.c, the OPEN, WRITE, LSEEK and READ branches
    of qos_syscall_dispatch, together). *)

From S2P Require Import Prelude SlotTable Pmm Vfs Fds Files Lifetimes SyscallTable Net Elf ProcPath Kernel Procfs Dispatch Syscalls.

Lemma called_table nr k : k_table k = table_init → called nr k = if sc_lookup nr table_init is Some (op, _) then op_of_code op else None.
Proof. intros E. unfold called. by rewrite E. Qed.

(** The numbers of the calls in a started kernel. *)
Definition NR_OPEN : Z := 5.
Definition NR_READ : Z := 6.
Definition NR_WRITE : Z := 7.
Definition NR_LSEEK : Z := 25.

Lemma default_numbers k :
  k_table k = table_init →
  called NR_OPEN k = Some OP_OPEN ∧ called NR_READ k = Some OP_READ ∧ called NR_WRITE k = Some OP_WRITE ∧ called NR_LSEEK k = Some OP_LSEEK.
Proof. intros E. rewrite !called_table by exact E. vm_compute. repeat split. Qed.

Lemma file_open_valid i id S s : file_open i id S s → u32 i = i ∧ fd_valid i s = true.
Proof.
  intros [[Hi _] [Hu _] _ _ _]. split; [apply wrap_small; unfold in_width; lia|]. unfold fd_valid. rewrite Hu.
  by rewrite (proj2 (Z.ltb_lt _ _)) by (change (Z.of_nat QOS_FD_MAX) with 256; lia).
Qed.

Lemma sys_files_wf k : sys_ok k → files_wf (k_io k).
Proof.
  intros Hk. destruct (ii_ok _ (sys_io_inv k Hk)) as [[Hfd Hf _ _ _ _] _ _]. split; [done|done|].
  intros id g Hg _. apply (Forall_lookup_1 _ _ _ _ (bo_files _ (sy_bufs _ Hk)) Hg).
Qed.

Lemma write_call i id S u buf n k :
  file_open i id S (k_io k) → buf ≠ 0 → 0 <= n < 2 ^ 32 →
  let '(r, _, S') := file_spec (FWrite (u_mem u buf (Z.to_nat n))) S in
  ∃ s, op_write i (u_ptr u buf (Z.to_nat n)) n k = Some (r, [], set_io s k) ∧ file_open i id S' s.
Proof.
  intros Ho Hb Hn. destruct (file_open_valid _ _ _ _ Ho) as [_ Hv].
  assert (Hl : n = Z.of_nat (length (u_mem u buf (Z.to_nat n)))) by (rewrite u_mem_length; lia).
  pose proof (file_step_refines i id S (FWrite (u_mem u buf (Z.to_nat n))) (k_io k) Ho) as H. cbn [file_exec file_op_ok] in H.
  rewrite <- Hl in H. specialize (H ltac:(lia)). unfold op_write, u_ptr. rewrite (proj2 (Z.eqb_neq buf 0)) by done.
  rewrite Hv, (proj2 (fo_used _ _ _ _ Ho)). cbn [negb]. destruct (write_vfs _ _ _ _) as [r s].
  destruct (file_spec _ _) as [[r' bs'] S']. destruct H as (-> & _ & Hs). by exists s.
Qed.

Lemma read_call i id S out n tmp k :
  file_open i id S (k_io k) → out ≠ 0 → 0 <= n < 2 ^ 32 →
  let '(r, bs, S') := file_spec (FRead n) S in
  ∃ s, op_read i out n tmp k = Some (r, [(out, bs)], set_io s k) ∧ file_open i id S' s.
Proof.
  intros Ho Hb Hn. destruct (file_open_valid _ _ _ _ Ho) as [_ Hv].
  pose proof (file_step_refines i id S (FRead n) (k_io k) Ho Hn) as H. cbn [file_exec] in H.
  unfold op_read. rewrite (proj2 (Z.eqb_neq out 0)), Hv, (proj2 (fo_used _ _ _ _ Ho)) by done. cbn [negb orb]. unfold read_out.
  destruct (read_vfs _ _ _) as [[r bs] s]. destruct (file_spec _ _) as [[r' bs'] S']. destruct H as (-> & -> & Hs). by exists s.
Qed.

Lemma seek_call i id S off whence k :
  file_open i id S (k_io k) → - 2 ^ 63 <= off < 2 ^ 63 →
  let '(r, _, S') := file_spec (FSeek off whence) S in
  ∃ s, op_lseek i (u64 off) whence k = Some (r, [], set_io s k) ∧ file_open i id S' s.
Proof.
  intros Ho Hoff. pose proof (file_step_refines i id S (FSeek off whence) (k_io k) Ho Hoff) as H. cbn [file_exec] in H.
  unfold op_lseek, proc_fd_render. rewrite (proj2 (fo_used _ _ _ _ Ho)), bool_decide_eq_false_2 by done. cbn [negb]. rewrite orb_true_r. cbn [fst].
  unfold in_io. destruct (sys_lseek _ _ _ _ _) as [r s]. destruct (file_spec _ _) as [[r' bs'] S']. destruct H as (-> & _ & Hs). by exists s.
Qed.

Lemma overwrite_prefix bs bytes : take (length bytes) (overwrite bs 0 bytes) = bytes.
Proof. unfold overwrite. cbn [take Nat.add]. by rewrite app_nil_l, take_app_length. Qed.

Lemma write_at_start bs bytes :
  (0 < length bytes <= 1024)%nat →
  file_spec (FWrite bytes) {| fs_bytes := bs; fs_pos := 0 |}
  = (Z.of_nat (length bytes), [], {| fs_bytes := overwrite bs 0 bytes; fs_pos := Z.of_nat (length bytes) |}).
Proof.
  intros Hl. unfold file_spec. cbn [fs_pos fs_bytes]. change (Z.to_nat (u32 0)) with 0%nat. cbv zeta.
  rewrite (proj2 (Nat.leb_gt 1024 0)), Nat.sub_0_r, Nat.min_l, (proj2 (Nat.eqb_neq _ 0)), firstn_all, Nat.add_0_l by lia. done.
Qed.

Lemma read_at_start bs n :
  0 < n <= Z.of_nat (length bs) →
  file_spec (FRead n) {| fs_bytes := bs; fs_pos := 0 |} = (n, take (Z.to_nat n) bs, {| fs_bytes := bs; fs_pos := n |}).
Proof.
  intros Hl. unfold file_spec. cbn [fs_pos fs_bytes]. change (Z.to_nat (u32 0)) with 0%nat. cbv zeta.
  rewrite Nat.sub_0_r, Nat.min_l, (proj2 (Nat.eqb_neq _ 0)), Nat.add_0_l, Z2Nat.id by lia. done.
Qed.

(** The three calls on an open descriptor. *)
Lemma write_seek_read i id bs u buf out n tmp k :
  file_open i id {| fs_bytes := bs; fs_pos := 0 |} (k_io k) → buf ≠ 0 → out ≠ 0 → 0 < n <= 1024 →
  ∃ s2 s3 s4,
    op_write i (u_ptr u buf (Z.to_nat n)) n k = Some (n, [], set_io s2 k)
    ∧ op_lseek i 0 0 (set_io s2 k) = Some (0, [], set_io s3 (set_io s2 k))
    ∧ op_read i out n tmp (set_io s3 (set_io s2 k)) = Some (n, [(out, u_mem u buf (Z.to_nat n))], set_io s4 (set_io s3 (set_io s2 k))).
Proof.
  intros H1 Hb Ho Hn. pose proof (u_mem_length u buf (Z.to_nat n)) as Hl.
  pose proof (write_call i id _ u buf n k H1 Hb ltac:(lia)) as H2. rewrite write_at_start in H2 by lia.
  destruct H2 as (s2 & E2 & H2). rewrite Hl, Z2Nat.id in E2 by lia.
  pose proof (seek_call i id _ 0 0 (set_io s2 k) H2 ltac:(lia)) as H3. cbn [file_spec Z.eqb fs_bytes] in H3.
  destruct H3 as (s3 & E3 & H3).
  pose proof (read_call i id _ out n tmp (set_io s3 (set_io s2 k)) H3 Ho ltac:(lia)) as H4.
  cbn [Z.add] in H4. rewrite read_at_start in H4 by (rewrite overwrite_length by lia; lia). destruct H4 as (s4 & E4 & _).
  pose proof (overwrite_prefix bs (u_mem u buf (Z.to_nat n))) as Hpre. rewrite Hl in Hpre. rewrite Hpre in E4. by exists s2, s3, s4.
Qed.

(** C14: What a program writes to a file it reads back. In a started kernel, once
    OPEN of an existing path has returned a descriptor, a WRITE of 1 to 1024
    bytes from the caller's memory is taken whole, LSEEK to the start returns 0,
    and a READ of as many bytes hands the caller exactly the bytes written,
    whatever the file held before and whatever the caller's memory holds by
    then. *)
Theorem file_calls_roundtrip u tmp a0 fd w k k1 buf out n :
  sys_ok k → k_table k = table_init → qos_vfs_exists (u_str u a0) (k_vfs k) ≠ 0 →
  qos_syscall_dispatch NR_OPEN a0 0 0 0 u tmp k = Some (fd, w, k1) → 0 <= fd →
  buf ≠ 0 → out ≠ 0 → 0 < n <= 1024 →
  ∃ k2 k3 k4,
    qos_syscall_dispatch NR_WRITE fd buf n 0 u tmp k1 = Some (n, [], k2)
    ∧ qos_syscall_dispatch NR_LSEEK fd 0 0 0 u tmp k2 = Some (0, [], k3)
    ∧ ∀ u', qos_syscall_dispatch NR_READ fd out n 0 u' tmp k3 = Some (n, [(out, u_mem u buf (Z.to_nat n))], k4).
Proof.
  intros Hk Ht Hex Hopen Hfd Hb Ho Hn. destruct (default_numbers k Ht) as (No & Nr & Nw & Nl). clear Ht.
  rewrite dispatch_called, No in Hopen by done. cbn [dispatch_op] in Hopen. revert Hopen.
  unfold op_open. destruct (u_str u a0) as [p|] eqn:Hp; [|done]. rewrite (proj2 (Z.eqb_neq _ _)) by done. unfold in_io.
  destruct (open_file p (k_io k)) as [i s1] eqn:Eo. intros [= <- _ <-].
  destruct (open_file_open p (k_io k) i s1 (sys_files_wf k Hk) Eo Hfd) as [id H1].
  destruct (file_open_valid _ _ _ _ H1) as [Hi _]. assert (Hw : u32 n = n) by (apply wrap_small; unfold in_width; lia).
  destruct (write_seek_read i id _ u buf out n tmp (set_io s1 k) H1 Hb Ho Hn) as (s2 & s3 & s4 & E2 & E3 & E4).
  assert (Hc : ∀ nr s, called nr (set_io s k) = called nr k) by done.
  eexists _, _, _. split; [|split; [|intros u']]; rewrite dispatch_called by done.
  - rewrite Hc, Nw. cbn [dispatch_op]. rewrite Hi, Hw. exact E2.
  - change (called NR_LSEEK (set_io s2 (set_io s1 k))) with (called NR_LSEEK k). rewrite Nl. cbn [dispatch_op]. rewrite Hi. exact E3.
  - change (called NR_READ (set_io s3 (set_io s2 (set_io s1 k)))) with (called NR_READ k). rewrite Nr. cbn [dispatch_op]. rewrite Hi, Hw. exact E4.
Qed.

(** A started kernel with one path. *)
Definition demo_tree : kernel :=
  set_vfs (qos_vfs_create (Some "/a"%string) qos_vfs_reset).2 (booted demo_image qos_pmm_reset (replicate 64 (replicate 32 0))).

Lemma demo_tree_ok : sys_ok demo_tree.
Proof.
  apply sys_ok_vfs; [apply booted_sys_ok; [reflexivity|by apply Forall_replicate]|].
  exact (proj1 (vfs_create_refines "/a" qos_vfs_reset vfs_reset_wf)).
Qed.

Lemma demo_open :
  match qos_syscall_dispatch NR_OPEN 16 0 0 0 demo_user [] demo_tree with Some (fd, _, _) => fd =? 0 | None => false end = true.
Proof. lazy. reflexivity. Qed.

(** The two bytes of the path itself, written to the file and read back. *)
Lemma file_calls_roundtrip_witness :
  match qos_syscall_dispatch NR_OPEN 16 0 0 0 demo_user [] demo_tree with
  | Some (fd, _, k1) => ∃ k2 k3 k4,
      qos_syscall_dispatch NR_WRITE 0 16 2 0 demo_user [] k1 = Some (2, [], k2)
      ∧ qos_syscall_dispatch NR_LSEEK 0 0 0 0 demo_user [] k2 = Some (0, [], k3)
      ∧ qos_syscall_dispatch NR_READ 0 32 2 0 demo_user [] k3 = Some (2, [(32, [47; 97])], k4)
  | None => False
  end.
Proof.
  generalize demo_open. generalize (λ fd w k1, file_calls_roundtrip demo_user [] 16 fd w demo_tree k1 16 32 2 demo_tree_ok eq_refl).
  destruct (qos_syscall_dispatch NR_OPEN 16 0 0 0 demo_user [] demo_tree) as [[[fd w] k1]|]; [|intros _ H; discriminate H].
  intros H ->%Z.eqb_eq. destruct (H 0 w k1) as (k2 & k3 & k4 & E2 & E3 & E4); [|reflexivity|lia|lia|lia|lia|].
  - intros E. apply (f_equal (λ x, x =? 1)) in E. lazy in E. discriminate E.
  - exists k2, k3, k4. split; [exact E2|]. split; [exact E3|]. exact (E4 demo_user).
Defined.
