(* ===== verification/Heap.v ===== *)
(** * The C library's heap (c-os/libc/libc.c: qos_malloc, qos_free, qos_realloc)

    A chain of blocks in a static array of 2^20 bytes, first fit, with splitting
    and coalescing.  Pointers are offsets into the array; a block is a 24-byte
    header followed by its bytes.  The chain is the list of headers, the bytes of
    the program are a function of the offset. *)

From S2P Require Import Prelude.

Definition QOS_LIBC_HEAP_BYTES : Z := 2 ^ 20.
Definition QOS_LIBC_HEAP_ALIGN : Z := 16.

(** sizeof(qos_libc_alloc_block_t): a size_t, a uint32_t with padding, a pointer. *)
Definition HDR : Z := 24.

(** A header at offset [b_at]. *)
Record block := { b_at : Z; b_size : Z; b_free : bool }.

(** [g_qos_heap_head] and what it leads to ([] for a NULL head), and the bytes of
    the allocations ([h_mem] is not meant at the headers and in free blocks). *)
Record heap := { h_blocks : list block; h_mem : Z → Z }.

Definition with_blocks (l : list block) (h : heap) : heap := {| h_blocks := l; h_mem := h_mem h |}.
Definition set_free (f : bool) (b : block) : block := {| b_at := b_at b; b_size := b_size b; b_free := f |}.

Definition qos_libc_align_up (value align : Z) : Z := Z.land (u64 (value + u64 (align - 1))) (bnot 64 (u64 (align - 1))).

Definition qos_libc_heap_init (h : heap) : heap :=
  match h_blocks h with
  | [] => with_blocks [{| b_at := 0; b_size := QOS_LIBC_HEAP_BYTES - HDR; b_free := true |}] h
  | _ => h
  end.

(** The block and what follows it up to the old [next]. *)
Definition qos_libc_heap_split (blk : block) (need : Z) : block * list block :=
  if b_size blk <=? u64 (u64 (need + HDR) + QOS_LIBC_HEAP_ALIGN) then (blk, [])
  else ({| b_at := b_at blk; b_size := need; b_free := b_free blk |},
        [{| b_at := b_at blk + HDR + need; b_size := u64 (u64 (b_size blk - need) - HDR); b_free := true |}]).

(** The loop of qos_libc_heap_coalesce at [blk], with the rest of the chain. *)
Fixpoint coalesce_from (blk : block) (rest : list block) : list block :=
  match rest with
  | [] => [blk]
  | next :: rest' =>
      if b_free blk && b_free next && (b_at next =? b_at blk + HDR + b_size blk)
      then coalesce_from {| b_at := b_at blk; b_size := u64 (b_size blk + u64 (HDR + b_size next)); b_free := b_free blk |} rest'
      else blk :: coalesce_from next rest'
  end.

Definition qos_libc_heap_coalesce (l : list block) : list block :=
  match l with [] => [] | b :: r => coalesce_from b r end.

(** The first-fit loop of qos_malloc. *)
Fixpoint malloc_loop (need : Z) (l : list block) : option (Z * list block) :=
  match l with
  | [] => None
  | blk :: l' =>
      if b_free blk && (need <=? b_size blk) then
        let '(b, rest) := qos_libc_heap_split blk need in Some (b_at blk + HDR, set_free false b :: rest ++ l')
      else match malloc_loop need l' with Some (p, l2) => Some (p, blk :: l2) | None => None end
  end.

Definition qos_malloc (size : Z) (h : heap) : option Z * heap :=
  if size =? 0 then (None, h)
  else
    let h1 := qos_libc_heap_init h in
    match malloc_loop (qos_libc_align_up size QOS_LIBC_HEAP_ALIGN) (h_blocks h1) with
    | Some (p, l) => (Some p, with_blocks l h1)
    | None => (None, h1)
    end.

(** The header a pointer belongs to: the one just before it. *)
Definition header (p : Z) (l : list block) : option block := head (filter (λ b, b_at b + HDR = p) l).

(** [None]: the pointer has no header, and the call writes somewhere else. *)
Definition qos_free (ptr : option Z) (h : heap) : option heap :=
  match ptr with
  | None => Some h
  | Some p =>
      match header p (h_blocks h) with
      | None => None
      | Some _ =>
          let l := (λ b, if b_at b + HDR =? p then set_free true b else b) <$> h_blocks h in
          Some (with_blocks (qos_libc_heap_coalesce l) h)
      end
  end.

(** [None]: the copy leaves the block at [dst]. *)
Definition copy_block (dst src n : Z) (h : heap) : option heap :=
  match header dst (h_blocks h) with
  | Some b =>
      if b_size b <? n then None
      else Some {| h_blocks := h_blocks h; h_mem := λ a, if (dst <=? a) && (a <? dst + n) then h_mem h (a - dst + src) else h_mem h a |}
  | None => None
  end.

Definition qos_realloc (ptr : option Z) (size : Z) (h : heap) : option (option Z * heap) :=
  match ptr with
  | None => Some (qos_malloc size h)
  | Some p =>
      if size =? 0 then match qos_free ptr h with Some h1 => Some (None, h1) | None => None end
      else
        match header p (h_blocks h) with
        | None => None
        | Some blk =>
            if size <=? b_size blk then Some (ptr, h)
            else
              match qos_malloc size h with
              | (None, h1) => Some (None, h1)
              | (Some q, h1) =>
                  match copy_block q p (b_size (default blk (header p (h_blocks h1)))) h1 with
                  | None => None
                  | Some h2 => match qos_free ptr h2 with Some h3 => Some (Some q, h3) | None => None end
                  end
              end
        end
  end.

(** ** The invariant *)

Definition b_end (b : block) : Z := b_at b + HDR + b_size b.

(** The blocks cover [a, e) without gaps. *)
Fixpoint tiles (a e : Z) (l : list block) : Prop :=
  match l with
  | [] => a = e
  | b :: l' => b_at b = a ∧ 0 <= b_size b ∧ tiles (b_end b) e l'
  end.

(** No two free blocks side by side. *)
Fixpoint spaced (l : list block) : Prop :=
  match l with
  | b :: (b' :: _) as l' => (b_free b && b_free b' = false) ∧ spaced l'
  | _ => True
  end.

Record chain_ok (l : list block) : Prop := { co_tiles : tiles 0 QOS_LIBC_HEAP_BYTES l; co_spaced : spaced l }.

(** Before the first allocation the chain is empty. *)
Definition heap_ok (h : heap) : Prop := h_blocks h = [] ∨ chain_ok (h_blocks h).

(** An allocation of [s] bytes at [p]. *)
Definition live (h : heap) (p s : Z) : Prop :=
  ∃ b, b ∈ h_blocks h ∧ b_free b = false ∧ p = b_at b + HDR ∧ s = b_size b.

(** Two allocations, headers included, do not meet. *)
Definition apart (p s q t : Z) : Prop := p + s <= q - HDR ∨ q + t <= p - HDR.

Lemma tiles_le a e l : tiles a e l → a <= e.
Proof.
  revert a. induction l as [|b l IH]; intros a; cbn; [lia|]. intros (<- & Hs & Ht). apply IH in Ht. unfold b_end, HDR in Ht. lia.
Qed.

Lemma tiles_app a e l1 l2 : tiles a e (l1 ++ l2) ↔ ∃ m, tiles a m l1 ∧ tiles m e l2.
Proof.
  revert a. induction l1 as [|b l1 IH]; intros a; cbn.
  - split; [by exists a|]. by intros (m & -> & ?).
  - rewrite IH. naive_solver.
Qed.

Lemma tiles_in a e l b : tiles a e l → b ∈ l → a <= b_at b ∧ 0 <= b_size b ∧ b_end b <= e.
Proof.
  revert a. induction l as [|c l IH]; intros a Ht Hb; [by apply not_elem_of_nil in Hb|]. destruct Ht as (<- & Hs & Ht).
  pose proof (tiles_le _ _ _ Ht) as Hl. apply elem_of_cons in Hb as [->|Hb].
  - unfold b_end, HDR in *. lia.
  - apply (IH _ Ht) in Hb. unfold b_end, HDR in *. lia.
Qed.

(** Blocks of the chain are equal or lie one behind the other. *)
Lemma tiles_apart a e l b c : tiles a e l → b ∈ l → c ∈ l → b = c ∨ b_end b <= b_at c ∨ b_end c <= b_at b.
Proof.
  revert a. induction l as [|d l IH]; intros a Ht Hb Hc; [by apply not_elem_of_nil in Hb|]. destruct Ht as (<- & Hs & Ht).
  apply elem_of_cons in Hb as [->|Hb]; apply elem_of_cons in Hc as [->|Hc].
  - by left.
  - right; left. apply (tiles_in _ _ _ _ Ht Hc).
  - right; right. apply (tiles_in _ _ _ _ Ht Hb).
  - by apply (IH _ Ht).
Qed.

Lemma tiles_same_at a e l b c : tiles a e l → b ∈ l → c ∈ l → b_at b = b_at c → b = c.
Proof.
  intros Ht Hb Hc E. pose proof (tiles_in _ _ _ _ Ht Hb) as (_ & H1 & _). pose proof (tiles_in _ _ _ _ Ht Hc) as (_ & H2 & _).
  destruct (tiles_apart _ _ _ _ _ Ht Hb Hc) as [?|[H|H]]; [done| |]; unfold b_end, HDR in H; lia.
Qed.

Lemma header_in a e l b : tiles a e l → b ∈ l → header (b_at b + HDR) l = Some b.
Proof.
  intros Ht Hb. unfold header. destruct (filter _ l) as [|c r] eqn:E.
  - exfalso. assert (b ∈ filter (λ b', b_at b' + HDR = b_at b + HDR) l) as Hf by (by apply list_elem_of_filter).
    rewrite E in Hf. by apply not_elem_of_nil in Hf.
  - assert (c ∈ filter (λ b', b_at b' + HDR = b_at b + HDR) l) as Hc by (rewrite E; by left).
    apply list_elem_of_filter in Hc as [Ec Hc]. cbn. f_equal. apply (tiles_same_at a e l); [done..|lia].
Qed.

(** ** Gaps *)

(** What no allocation meets lies in one free block. *)
Lemma gap_in_block a0 e l a k :
  tiles a0 e l → spaced l → a0 <= a → 0 < k → a + k <= e →
  (∀ b, b ∈ l → b_free b = false → a + k <= b_at b ∨ b_end b <= a) →
  ∃ b, b ∈ l ∧ b_free b = true ∧ b_at b <= a ∧ a + k <= b_end b.
Proof.
  revert a0. induction l as [|b l IH]; intros a0 Ht Hs Ha Hk He Hn; [cbn in Ht; lia|]. destruct Ht as (<- & Hb & Ht).
  destruct (Z.le_gt_cases (b_end b) a) as [Hle|Hlt].
  { destruct (IH (b_end b)) as (c & Hc & ?); try done; [by destruct l; [|destruct Hs]|intros c Hc; apply Hn; by right|].
    exists c. split; [by right|done]. }
  assert (b_free b = true) as Hf.
  { destruct (b_free b) eqn:Hf; [done|]. destruct (Hn b ltac:(by left) Hf); unfold b_end, HDR in *; lia. }
  exists b. split; [by left|]. split; [done|]. split; [done|]. destruct l as [|c l].
  { cbn in Ht. lia. }
  destruct Hs as [Hs _]. rewrite Hf in Hs. cbn [andb] in Hs. destruct Ht as (Hc & Hcs & _).
  destruct (Hn c ltac:(by right; left) Hs); unfold b_end, HDR in *; lia.
Qed.

(** ** Splitting and first fit *)

(** One free block becomes an allocation and, perhaps, a free block behind it. *)
Lemma split_ok b need :
  b_free b = true → 0 <= need <= b_size b → b_size b < 2 ^ 60 →
  let '(b1, rest) := qos_libc_heap_split b need in
  b_at b1 = b_at b ∧ need <= b_size b1 <= b_size b ∧ tiles (b_at b) (b_end b) (set_free false b1 :: rest)
  ∧ Forall (λ c, b_free c = true) rest ∧ spaced rest.
Proof.
  intros Hf Hn Hs. unfold qos_libc_heap_split, QOS_LIBC_HEAP_ALIGN, HDR.
  rewrite (wrap_small 64 (need + 24)), (wrap_small 64 (need + 24 + 16)) by (unfold in_width; lia).
  destruct (Z.leb_spec (b_size b) (need + 24 + 16)).
  - cbn. unfold b_end, HDR. cbn. repeat split; try lia. constructor.
  - rewrite (wrap_small 64 (b_size b - need)), (wrap_small 64 (b_size b - need - 24)) by (unfold in_width; lia).
    cbn. unfold b_end, HDR. cbn. repeat split; try lia. by repeat constructor.
Qed.

Lemma malloc_loop_ok need l a e :
  tiles a e l → 0 <= need → e - a < 2 ^ 60 →
  match malloc_loop need l with
  | None => ∀ b, b ∈ l → b_free b = true → b_size b < need
  | Some (p, l') => ∃ l1 b b1 rest l2,
      l = l1 ++ b :: l2 ∧ b_free b = true ∧ need <= b_size b ∧ p = b_at b + HDR
      ∧ qos_libc_heap_split b need = (b1, rest) ∧ l' = l1 ++ set_free false b1 :: rest ++ l2
  end.
Proof.
  revert a. induction l as [|b l IH]; intros a Ht Hn He; cbn [malloc_loop]; [intros b Hb; by apply not_elem_of_nil in Hb|].
  destruct Ht as (<- & Hs & Ht). destruct (b_free b) eqn:Hf; cbn [andb]; [destruct (Z.leb_spec need (b_size b))|].
  - destruct (qos_libc_heap_split b need) as [b1 rest] eqn:E. by exists [], b, b1, rest, l.
  - specialize (IH (b_end b) Ht Hn ltac:(unfold b_end, HDR; lia)). destruct (malloc_loop need l) as [[p l']|].
    + destruct IH as (l1 & c & c1 & rest & l2 & -> & ? & ? & ? & ? & ->). by exists (b :: l1), c, c1, rest, l2.
    + intros c [->|Hc]%elem_of_cons Hfc; [done|by apply IH].
  - specialize (IH (b_end b) Ht Hn ltac:(unfold b_end, HDR; lia)). destruct (malloc_loop need l) as [[p l']|].
    + destruct IH as (l1 & c & c1 & rest & l2 & -> & ? & ? & ? & ? & ->). by exists (b :: l1), c, c1, rest, l2.
    + intros c [->|Hc]%elem_of_cons Hfc; [congruence|by apply IH].
Qed.

Lemma spaced_mid l1 c l2 : spaced (l1 ++ c :: l2) ↔ spaced (l1 ++ [c]) ∧ spaced (c :: l2).
Proof.
  induction l1 as [|b l1 IH]; [cbn; tauto|]. destruct l1 as [|d l1]; [cbn; tauto|].
  change (spaced ((b :: d :: l1) ++ c :: l2)) with ((b_free b && b_free d = false) ∧ spaced ((d :: l1) ++ c :: l2)).
  change (spaced ((b :: d :: l1) ++ [c])) with ((b_free b && b_free d = false) ∧ spaced ((d :: l1) ++ [c])). rewrite IH. tauto.
Qed.

Lemma spaced_used_last l1 b c : spaced (l1 ++ [b]) → b_free c = false → spaced (l1 ++ [c]).
Proof.
  intros Hs Hc. induction l1 as [|d l1 IH]; [done|]. destruct l1 as [|d' l1].
  - cbn. by rewrite Hc, andb_false_r.
  - destruct Hs as [Hd Hs]. split; [done|]. by apply IH.
Qed.

Lemma spaced_tail b l : spaced (b :: l) → spaced l.
Proof. destruct l; [done|]. by intros []. Qed.

(** The chain after an allocation. *)
Lemma alloc_chain l1 b l2 b1 rest need :
  chain_ok (l1 ++ b :: l2) → b_free b = true → 0 <= need <= b_size b → qos_libc_heap_split b need = (b1, rest) →
  chain_ok (l1 ++ set_free false b1 :: rest ++ l2)
  ∧ b_at b1 = b_at b ∧ need <= b_size b1 ∧ b_end b1 <= b_end b
  ∧ Forall (λ c, b_free c = true) rest.
Proof.
  intros [Ht Hs] Hf Hn Hsp. apply tiles_app in Ht as (m & Ht1 & (<- & Hb & Ht2)). pose proof (tiles_le _ _ _ Ht1) as Hle1.
  pose proof (tiles_le _ _ _ Ht2) as Hle2. unfold QOS_LIBC_HEAP_BYTES, b_end, HDR in Hle2.
  pose proof (split_ok b need Hf Hn ltac:(lia)) as Hok. rewrite Hsp in Hok. destruct Hok as (Hat & Hsz & Htt & Hfr & Hsr).
  split; [|split; [done|split; [lia|split; [unfold b_end; lia|done]]]]. apply spaced_mid in Hs as [Hs1 Hs2]. split.
  - apply tiles_app. exists (b_at b). split; [done|].
    change (set_free false b1 :: rest ++ l2) with ((set_free false b1 :: rest) ++ l2). apply tiles_app. by exists (b_end b).
  - apply spaced_mid. split; [by apply (spaced_used_last l1 b)|]. destruct rest as [|r rest].
    + apply spaced_tail in Hs2. by destruct l2.
    + assert (rest = []) as ->.
      { unfold qos_libc_heap_split in Hsp. destruct (_ <=? _); [done|]. by injection Hsp as _ _ <-. }
      split; [done|]. apply Forall_cons in Hfr as [Hfr _]. destruct l2 as [|c l2]; [done|]. destruct Hs2 as [Hs2 ?].
      split; [|done]. by rewrite Hfr, <- Hf.
Qed.

(** ** Coalescing *)

Lemma coalesce_from_ok b l a e :
  tiles a e (b :: l) → e - a < 2 ^ 60 →
  tiles a e (coalesce_from b l) ∧ spaced (coalesce_from b l)
  ∧ (∃ c r, coalesce_from b l = c :: r ∧ b_free c = b_free b)
  ∧ ∀ c, b_free c = false → (c ∈ coalesce_from b l ↔ c ∈ b :: l).
Proof.
  revert a b. induction l as [|n l IH]; intros a b (<- & Hb & Ht) He; cbn [coalesce_from].
  { split; [done|]. split; [done|]. split; [by exists b, []|done]. }
  pose proof Ht as (Hn & Hns & Ht'). pose proof (tiles_le _ _ _ Ht') as Hle. unfold b_end in Hle, Hn. unfold HDR in Hle, Hn.
  destruct (b_free b && b_free n) eqn:Hf; cbn [andb].
  - apply andb_true_iff in Hf as [Hfb Hfn]. rewrite (proj2 (Z.eqb_eq _ _)) by (unfold HDR; lia). cbn [andb]. rewrite Hfb.
    rewrite (wrap_small 64 (HDR + b_size n)), wrap_small by (unfold in_width, HDR; lia).
    set (m := {| b_at := b_at b; b_size := b_size b + (HDR + b_size n); b_free := true |}).
    destruct (IH (b_at b) m) as (T & S & C & Hin); [|done|].
    { split; [done|]. split; [unfold m, HDR; cbn; lia|]. by replace (b_end m) with (b_end n) by (unfold b_end, m, HDR; cbn; lia). }
    split; [done|]. split; [done|]. split; [done|]. intros d Hd. rewrite Hin by done.
    assert (d ≠ m ∧ d ≠ b ∧ d ≠ n) as (? & ? & ?) by (repeat split; intros ->; cbn in Hd; congruence). rewrite !elem_of_cons. tauto.
  - destruct (IH (b_end b) n Ht) as (T & S & (c & r & E & Hc) & Hin); [unfold b_end, HDR; lia|].
    split; [by split; [|split]|]. split; [rewrite E in *; split; [by rewrite Hc|done]|].
    split; [by eexists _, _|]. intros d Hd. by rewrite elem_of_cons, Hin, (elem_of_cons (n :: l)) by done.
Qed.

(** Away from the top of size_t the request is rounded up to a multiple of 16. *)
Lemma align_up_16 size :
  0 <= size < 2 ^ 64 - 15 → qos_libc_align_up size QOS_LIBC_HEAP_ALIGN = 16 * ((size + 15) / 16).
Proof.
  intros Hs. unfold qos_libc_align_up, QOS_LIBC_HEAP_ALIGN. change (u64 (16 - 1)) with (Z.ones 4).
  rewrite (wrap_small 64) by (unfold in_width; change (Z.ones 4) with 15; lia).
  rewrite land_bnot_ones; [done|lia|]. unfold in_width. change (Z.ones 4) with 15. lia.
Qed.

Lemma init_ok h : heap_ok h → chain_ok (h_blocks (qos_libc_heap_init h)).
Proof.
  unfold heap_ok, qos_libc_heap_init. destruct (h_blocks h) as [|b l] eqn:E; [|rewrite E; by intros []].
  intros _. by repeat split.
Qed.

Lemma init_live h p s : live (qos_libc_heap_init h) p s ↔ live h p s.
Proof.
  unfold live, qos_libc_heap_init. destruct (h_blocks h) as [|b l] eqn:E; [|by rewrite E].
  cbn. split; intros (b & Hb & Hf & _).
  - apply list_elem_of_singleton in Hb as ->. done.
  - by apply not_elem_of_nil in Hb.
Qed.

Lemma init_mem h : h_mem (qos_libc_heap_init h) = h_mem h.
Proof. unfold qos_libc_heap_init. by destruct (h_blocks h). Qed.

(** Allocations of one chain do not meet. *)
Lemma live_apart h p s q t : heap_ok h → live h p s → live h q t → (p, s) = (q, t) ∨ apart p s q t.
Proof.
  intros [E|[Ht _]] (b & Hb & _ & -> & ->) (c & Hc & _ & -> & ->).
  { rewrite E in Hb. by apply not_elem_of_nil in Hb. }
  destruct (tiles_apart _ _ _ _ _ Ht Hb Hc) as [->|H]; [by left|]. right. unfold apart. unfold b_end in H. lia.
Qed.

Lemma live_bounds h p s : heap_ok h → live h p s → HDR <= p ∧ 0 <= s ∧ p + s <= QOS_LIBC_HEAP_BYTES.
Proof.
  intros [E|[Ht _]] (b & Hb & _ & -> & ->); [rewrite E in Hb; by apply not_elem_of_nil in Hb|].
  pose proof (tiles_in _ _ _ _ Ht Hb) as H. unfold b_end in H. lia.
Qed.

(** A stretch of memory no allocation (header included) meets. *)
Definition vacant (h : heap) (a k : Z) : Prop :=
  0 <= a ∧ a + k <= QOS_LIBC_HEAP_BYTES ∧ ∀ q t, live h q t → a + k <= q - HDR ∨ q + t <= a.

(** What qos_malloc promises for a request of [size] bytes, [need] after rounding. *)
Definition malloc_post (need size : Z) (h : heap) (r : option Z * heap) : Prop :=
  heap_ok (r.2) ∧ h_mem (r.2) = h_mem h
  ∧ match r.1 with
    | Some p => ∃ s, size <= s ∧ vacant h (p - HDR) (HDR + s) ∧ ∀ q t, live (r.2) q t ↔ (q, t) = (p, s) ∨ live h q t
    | None => (size = 0 ∨ ∀ a, ¬ vacant h a (HDR + need)) ∧ ∀ q t, live (r.2) q t ↔ live h q t
    end.

(** The loop on a chain, against the promise. *)
Lemma malloc_chain need size h :
  chain_ok (h_blocks h) → 0 < size <= need →
  malloc_post need size h
    match malloc_loop need (h_blocks h) with
    | Some (p, l) => (Some p, with_blocks l h)
    | None => (None, h)
    end.
Proof.
  intros Hok Hs. pose proof (malloc_loop_ok need _ _ _ (co_tiles _ Hok) ltac:(lia) ltac:(done)) as Hl.
  destruct (malloc_loop need (h_blocks h)) as [[p l]|].
  - destruct Hl as (l1 & b & b1 & rest & l2 & E & Hf & Hn & -> & Hsp & ->). pose proof Hok as Hok'. rewrite E in Hok'.
    destruct (alloc_chain l1 b l2 b1 rest need Hok' Hf ltac:(lia) Hsp) as (Hc & Hat & Hsz & He & Hr).
    assert (b ∈ h_blocks h) as Hb by (rewrite E; apply elem_of_app; right; by left).
    split; [by right|]. split; [done|]. exists (b_size b1). split; [lia|]. split.
    + pose proof (tiles_in _ _ _ _ (co_tiles _ Hok) Hb) as Hin. unfold b_end in *. split; [lia|]. split; [lia|].
      intros q t (c & Hcin & Hcf & -> & ->). destruct (tiles_apart _ _ _ _ _ (co_tiles _ Hok) Hb Hcin) as [->|H]; [congruence|].
      unfold b_end in H. lia.
    + intros q t. unfold live. cbn [h_blocks with_blocks snd]. rewrite E. split.
      * intros (c & Hcin & Hcf & -> & ->). apply elem_of_app in Hcin as [Hcin|Hcin]; [right; exists c; set_solver|].
        apply elem_of_cons in Hcin as [->|Hcin]; [left; cbn; by rewrite Hat|].
        apply elem_of_app in Hcin as [Hcin|Hcin]; [|right; exists c; set_solver].
        rewrite Forall_forall in Hr. specialize (Hr c Hcin). congruence.
      * intros [[= -> ->]|(c & Hcin & Hcf & -> & ->)]; [exists (set_free false b1); cbn; rewrite Hat; set_solver|].
        exists c. assert (c ≠ b) by (intros ->; congruence). set_solver.
  - split; [by right|]. split; [done|]. split; [right|done]. intros a (Ha & Hk & Hv). unfold HDR in *.
    destruct (gap_in_block _ _ _ a (24 + need) (co_tiles _ Hok) (co_spaced _ Hok)) as (b & Hb & Hf & H1 & H2); try lia.
    + intros c Hc Hcf. specialize (Hv (b_at c + 24) (b_size c)). unfold b_end, HDR. destruct Hv; [by exists c|lia|lia].
    + specialize (Hl b Hb Hf). unfold b_end, HDR in H2. lia.
Qed.

Lemma malloc_spec size h :
  heap_ok h → 0 <= size < 2 ^ 64 - 15 → malloc_post (16 * ((size + 15) / 16)) size h (qos_malloc size h).
Proof.
  intros Hok Hs. unfold qos_malloc. destruct (Z.eqb_spec size 0) as [->|H0].
  { split; [done|]. split; [done|]. split; [by left|done]. }
  rewrite align_up_16 by done. set (need := 16 * ((size + 15) / 16)).
  pose proof (malloc_chain need size (qos_libc_heap_init h) (init_ok h Hok)
    ltac:(unfold need; Z.to_euclidean_division_equations; lia)) as (H1 & H2 & H3).
  split; [done|]. split; [by rewrite H2, init_mem|]. destruct (malloc_loop _ _) as [[p l]|]; cbn [fst snd] in *.
  - destruct H3 as (s & Hsz & (Ha & Hk & Hv) & Hlive). exists s. split; [done|]. setoid_rewrite init_live in Hlive.
    split; [|done]. split; [done|]. split; [done|]. intros q t Hq. apply Hv. by apply init_live.
  - destruct H3 as ([->|Hv] & Hlive); [done|]. split; [right|apply init_live].
    intros a (Ha & Hk & Hq). apply (Hv a). split; [done|]. split; [done|]. intros q t Hl. by apply Hq, init_live.
Qed.

(** ** Releasing *)

Definition freed (p : Z) (l : list block) : list block := (λ b, if b_at b + HDR =? p then set_free true b else b) <$> l.

Lemma freed_tiles p a e l : tiles a e l → tiles a e (freed p l).
Proof.
  revert a. induction l as [|b l IH]; intros a; [done|]. intros (Ha & Hs & Ht). apply IH in Ht.
  cbn. by destruct (_ =? p).
Qed.

Lemma freed_used p l b : b_free b = false → b ∈ freed p l ↔ b ∈ l ∧ b_at b + HDR ≠ p.
Proof.
  intros Hf. unfold freed. rewrite list_elem_of_fmap. split.
  - intros (c & -> & Hc). destruct (Z.eqb_spec (b_at c + HDR) p); [done|]. by split.
  - intros [Hb Hp]. exists b. split; [|done]. by destruct (Z.eqb_spec (b_at b + HDR) p).
Qed.

(** Freeing an allocation. *)
Lemma free_spec p s h :
  heap_ok h → live h p s →
  ∃ h', qos_free (Some p) h = Some h' ∧ heap_ok h' ∧ h_mem h' = h_mem h
      ∧ ∀ q t, live h' q t ↔ live h q t ∧ q ≠ p.
Proof.
  intros Hok (b & Hb & Hf & -> & ->). destruct Hok as [E|[Ht Hs]]; [rewrite E in Hb; by apply not_elem_of_nil in Hb|].
  unfold qos_free. rewrite (header_in _ _ _ _ Ht Hb). fold (freed (b_at b + HDR) (h_blocks h)).
  pose proof (freed_tiles (b_at b + HDR) _ _ _ Ht) as Ht'. pose proof (freed_used (b_at b + HDR) (h_blocks h)) as Hu.
  eexists. split; [reflexivity|]. cbn [h_mem h_blocks with_blocks]. unfold live, heap_ok. cbn [h_blocks with_blocks].
  destruct (freed _ _) as [|c l]; [cbn in Ht'; discriminate|].
  destruct (coalesce_from_ok c l _ _ Ht' ltac:(done)) as (T & S & _ & Hin). split; [by right|]. split; [done|].
  intros q t. cbn [qos_libc_heap_coalesce]. split.
  - intros (d & Hd & Hdf & -> & ->). apply Hin, Hu in Hd; [|done..]. split; [|apply Hd]. exists d. naive_solver.
  - intros [(d & Hd & Hdf & -> & ->) Hp]. exists d. split; [|done]. apply Hin, Hu; [done..|]. by split.
Qed.

(** ** The allocations as a map *)

Definition bytes_at (mem : Z → Z) (p s : Z) : list Z := (λ i, mem (p + Z.of_nat i)) <$> seq 0 (Z.to_nat s).

(** Pointers and the bytes they lead to: what the program sees of the heap. *)
Definition contents (h : heap) : gmap Z (list Z) :=
  list_to_map ((λ b, (b_at b + HDR, bytes_at (h_mem h) (b_at b + HDR) (b_size b))) <$> filter (λ b, b_free b = false) (h_blocks h)).

Lemma bytes_at_length mem p s : length (bytes_at mem p s) = Z.to_nat s.
Proof. unfold bytes_at. by rewrite length_fmap, length_seq. Qed.

Lemma bytes_at_lookup mem p s i : (i < Z.to_nat s)%nat → bytes_at mem p s !! i = Some (mem (p + Z.of_nat i)).
Proof. intros Hi. unfold bytes_at. by rewrite list_lookup_fmap, lookup_seq_lt. Qed.

Lemma bytes_at_ext mem mem' p p' s : (∀ i, 0 <= i < s → mem (p + i) = mem' (p' + i)) → bytes_at mem p s = bytes_at mem' p' s.
Proof. intros Hm. apply list_fmap_ext. intros k i [-> Hi]%lookup_seq. apply Hm. lia. Qed.

Lemma contents_lookup h p bs :
  heap_ok h → contents h !! p = Some bs ↔ ∃ s, live h p s ∧ bs = bytes_at (h_mem h) p s.
Proof.
  intros Hok. unfold contents. rewrite <- elem_of_list_to_map.
  - rewrite list_elem_of_fmap. split.
    + intros (b & [= -> ->] & [Hf Hb]%list_elem_of_filter). exists (b_size b). split; [|done]. by exists b.
    + intros (s & (b & Hb & Hf & -> & ->) & ->). exists b. split; [done|]. by apply list_elem_of_filter.
  - rewrite <- list_fmap_compose. apply NoDup_fmap_2_strong.
    + intros b c Hb Hc. cbn. intros E. apply list_elem_of_filter in Hb as [_ Hb], Hc as [_ Hc].
      destruct Hok as [E0|[Ht _]]; [rewrite E0 in Hb; by apply not_elem_of_nil in Hb|]. apply (tiles_same_at _ _ _ _ _ Ht Hb Hc). lia.
    + apply NoDup_filter. destruct Hok as [->|[Ht _]]; [constructor|]. clear -Ht. revert Ht. generalize 0 at 1.
      induction (h_blocks h) as [|b l IH]; intros a Ht; [constructor|]. destruct Ht as (<- & Hs & Ht). constructor; [|by apply (IH _ Ht)].
      intros Hb. apply (tiles_in _ _ _ _ Ht) in Hb. unfold b_end, HDR in Hb. lia.
Qed.

Lemma contents_None h p : heap_ok h → contents h !! p = None ↔ ∀ s, ¬ live h p s.
Proof.
  intros Hok. split.
  - intros Hn s Hl. assert (contents h !! p = Some (bytes_at (h_mem h) p s)) by (apply contents_lookup; [done|by exists s]). congruence.
  - intros Hn. destruct (contents h !! p) as [bs|] eqn:E; [|done]. apply contents_lookup in E as (s & Hl & _); [|done]. by destruct (Hn s).
Qed.

Lemma live_unique h p s t : heap_ok h → live h p s → live h p t → s = t.
Proof.
  intros Hok H1 H2. destruct (live_apart h p s p t Hok H1 H2) as [[= ?]|H]; [done|].
  apply live_bounds in H1, H2; [|done..]. unfold apart, HDR in H. lia.
Qed.

(** Equal allocations with equal bytes make equal maps. *)
Lemma contents_eq h m :
  heap_ok h →
  (∀ p bs, m !! p = Some bs ↔ ∃ s, live h p s ∧ bs = bytes_at (h_mem h) p s) → contents h = m.
Proof.
  intros Hok Hm. apply map_eq. intros p. apply option_eq. intros bs. by rewrite contents_lookup, Hm.
Qed.

(** A call that leaves the other allocations and their bytes alone. *)
Lemma contents_insert h h' p s :
  heap_ok h → heap_ok h' →
  (∀ q t, live h' q t ↔ (q, t) = (p, s) ∨ live h q t ∧ q ≠ p) →
  (∀ q t, live h q t → q ≠ p → bytes_at (h_mem h') q t = bytes_at (h_mem h) q t) →
  contents h' = <[p := bytes_at (h_mem h') p s]> (contents h).
Proof.
  intros Hok Hok' Hl Hb. apply contents_eq; [done|]. intros q bs. rewrite lookup_insert_Some, contents_lookup by done. split.
  - intros [[<- <-]|[Hne (t & Ht & ->)]].
    + exists s. split; [apply Hl; by left|done].
    + exists t. split; [apply Hl; right; by split|by rewrite Hb].
  - intros (t & [[= -> ->]|[Ht Hne]]%Hl & ->); [by left|]. right. split; [done|]. exists t. by rewrite Hb.
Qed.

Lemma contents_delete h h' p :
  heap_ok h → heap_ok h' → (∀ q t, live h' q t ↔ live h q t ∧ q ≠ p) → h_mem h' = h_mem h →
  contents h' = delete p (contents h).
Proof.
  intros Hok Hok' Hl Hm. apply contents_eq; [done|]. intros q bs. rewrite lookup_delete_Some, contents_lookup, Hm by done.
  setoid_rewrite Hl. naive_solver.
Qed.

(** ** Calls *)

Inductive call :=
  | Malloc (size : Z)
  | Free (ptr : option Z)
  | Realloc (ptr : option Z) (size : Z)
  | Store (ptr i v : Z).

(** A byte the program writes. *)
Definition store (p i v : Z) (h : heap) : heap :=
  {| h_blocks := h_blocks h; h_mem := λ a, if a =? p + i then v else h_mem h a |}.

(** [None]: memory outside of the allocations is written. *)
Definition do_call (c : call) (h : heap) : option (option Z * heap) :=
  match c with
  | Malloc size => Some (qos_malloc size h)
  | Free ptr => match qos_free ptr h with Some h' => Some (None, h') | None => None end
  | Realloc ptr size => qos_realloc ptr size h
  | Store p i v => Some (None, store p i v h)
  end.

(** What the program may call: pointers it got and did not give back, bytes within
    them, sizes that do not reach the top of size_t. *)
Definition legal (m : gmap Z (list Z)) (c : call) : Prop :=
  match c with
  | Malloc size => 0 <= size < 2 ^ 64 - 15
  | Free ptr => ∀ p, ptr = Some p → is_Some (m !! p)
  | Realloc ptr size => 0 <= size < 2 ^ 64 - 15 ∧ ∀ p, ptr = Some p → is_Some (m !! p)
  | Store p i v => ∃ bs, m !! p = Some bs ∧ 0 <= i < Z.of_nat (length bs)
  end.

(** The bytes [a, a + k) and the allocations, headers included, do not meet. *)
Definition room (m : gmap Z (list Z)) (a k : Z) : Prop :=
  0 <= a ∧ a + k <= QOS_LIBC_HEAP_BYTES
  ∧ ∀ q bs, m !! q = Some bs → a + k <= q - HDR ∨ q + Z.of_nat (length bs) <= a.

(** [p] leads to [bs], at least [size] bytes that were in no allocation. *)
Definition fresh (m : gmap Z (list Z)) (p size : Z) (bs : list Z) : Prop :=
  size <= Z.of_nat (length bs) ∧ room m (p - HDR) (HDR + Z.of_nat (length bs)).

(** No room for [size] bytes, rounded up, and a header. *)
Definition full (m : gmap Z (list Z)) (size : Z) : Prop := ∀ a, ¬ room m a (HDR + 16 * ((size + 15) / 16)).

(** The allocator as the program knows it. *)
Definition spec_malloc (size : Z) (m : gmap Z (list Z)) (r : option Z) (m' : gmap Z (list Z)) : Prop :=
  match r with
  | Some p => size ≠ 0 ∧ ∃ bs, fresh m p size bs ∧ m !! p = None ∧ m' = <[p := bs]> m
  | None => m' = m ∧ (size = 0 ∨ full m size)
  end.

Definition spec_call (m : gmap Z (list Z)) (c : call) (r : option Z) (m' : gmap Z (list Z)) : Prop :=
  match c with
  | Malloc size => spec_malloc size m r m'
  | Free None => r = None ∧ m' = m
  | Free (Some p) => r = None ∧ m' = delete p m
  | Realloc None size => spec_malloc size m r m'
  | Realloc (Some p) size =>
      let old := default [] (m !! p) in
      if size =? 0 then r = None ∧ m' = delete p m
      else if size <=? Z.of_nat (length old) then r = Some p ∧ m' = m
      else match r with
           | Some q => ∃ bs, fresh m q size bs ∧ m !! q = None ∧ take (length old) bs = old ∧ m' = <[q := bs]> (delete p m)
           | None => m' = m ∧ full m size
           end
  | Store p i v => r = None ∧ m' = alter (λ bs, <[Z.to_nat i := v]> bs) p m
  end.

Lemma room_vacant h a k : heap_ok h → room (contents h) a k ↔ vacant h a k.
Proof.
  intros Hok. unfold room, vacant. split; intros (Ha & Hk & Hv); (split; [done|]; split; [done|]).
  - intros q t Hl. specialize (Hv q (bytes_at (h_mem h) q t)). rewrite bytes_at_length in Hv.
    pose proof (live_bounds _ _ _ Hok Hl). destruct Hv; [apply contents_lookup; [done|by exists t]|lia|lia].
  - intros q bs (t & Hl & ->)%contents_lookup; [|done]. rewrite bytes_at_length.
    pose proof (live_bounds _ _ _ Hok Hl). destruct (Hv q t Hl); lia.
Qed.

(** A fresh region is none of the old allocations. *)
Lemma vacant_not_live h p s : heap_ok h → 0 <= s → vacant h (p - HDR) (HDR + s) → ∀ t, ¬ live h p t.
Proof.
  intros Hok Hs (_ & _ & Hv) t Hl. pose proof (live_bounds _ _ _ Hok Hl). specialize (Hv p t Hl). unfold HDR in *. lia.
Qed.

Lemma fresh_bytes h p s size :
  heap_ok h → 0 <= s → size <= s → vacant h (p - HDR) (HDR + s) → ∀ mem, fresh (contents h) p size (bytes_at mem p s).
Proof.
  intros Hok Hs Hle Hv mem. unfold fresh. rewrite bytes_at_length, Z2Nat.id by done. split; [done|]. by apply room_vacant.
Qed.

Lemma malloc_refines size h :
  heap_ok h → 0 <= size < 2 ^ 64 - 15 →
  let r := qos_malloc size h in heap_ok (r.2) ∧ spec_malloc size (contents h) (r.1) (contents (r.2)).
Proof.
  intros Hok Hs. destruct (malloc_spec size h Hok Hs) as (Hok' & Hm & Hr). cbv zeta. split; [done|].
  assert (size = 0 → (qos_malloc size h).1 = None) as H0 by (intros ->; done).
  destruct (qos_malloc size h) as [[p|] h']; cbn [fst snd] in *.
  - destruct Hr as (s & Hle & Hv & Hl). split; [intros E; by specialize (H0 E)|]. exists (bytes_at (h_mem h') p s).
    pose proof (vacant_not_live h p s Hok ltac:(lia) Hv) as Hn. split; [by apply fresh_bytes; [|lia..|]|].
    split; [by apply contents_None|]. apply contents_insert; [done..| |].
    + intros q t. rewrite Hl. split; [|naive_solver]. intros [?|Hq]; [by left|]. right. split; [done|]. intros ->. by destruct (Hn t).
    + intros q t _ _. by rewrite Hm.
  - destruct Hr as [Hf Hl]. split.
    + apply contents_eq; [done|]. intros p bs. rewrite contents_lookup, Hm by done. by setoid_rewrite Hl.
    + destruct Hf as [?|Hf]; [by left|]. right. intros a Ha%room_vacant; [|done]. by apply (Hf a).
Qed.

Lemma free_refines p h :
  heap_ok h → is_Some (contents h !! p) →
  ∃ h', qos_free (Some p) h = Some h' ∧ heap_ok h' ∧ contents h' = delete p (contents h).
Proof.
  intros Hok [bs (s & Hl & _)%contents_lookup]; [|done]. destruct (free_spec p s h Hok Hl) as (h' & E & Hok' & Hm & Hl').
  exists h'. split; [done|]. split; [done|]. by apply contents_delete.
Qed.

Lemma header_live h p s : heap_ok h → live h p s → ∃ b, header p (h_blocks h) = Some b ∧ b_size b = s.
Proof.
  intros [E|[Ht _]] (b & Hb & _ & -> & ->); [rewrite E in Hb; by apply not_elem_of_nil in Hb|].
  exists b. split; [by apply (header_in _ _ _ _ Ht)|done].
Qed.

Lemma store_refines p i v h :
  heap_ok h → legal (contents h) (Store p i v) →
  contents (store p i v h) = alter (λ bs, <[Z.to_nat i := v]> bs) p (contents h).
Proof.
  intros Hok (bs & (s & Hl & ->)%contents_lookup & Hi); [|done]. rewrite bytes_at_length in Hi.
  assert (alter (λ bs, <[Z.to_nat i:=v]> bs) p (contents h)
          = <[p := <[Z.to_nat i := v]> (bytes_at (h_mem h) p s)]> (contents h)) as ->.
  { apply map_eq. intros q. destruct (decide (p = q)) as [<-|Hne]; [|by rewrite lookup_alter_ne, lookup_insert_ne].
    rewrite lookup_alter_eq, lookup_insert_eq. replace (contents h !! p) with (Some (bytes_at (h_mem h) p s)); [done|].
    symmetry. apply contents_lookup; [done|]. by exists s. }
  rewrite (contents_insert h (store p i v h) p s Hok Hok).
  - f_equal. apply list_eq_same_length with (n := Z.to_nat s); [by rewrite length_insert, bytes_at_length|apply bytes_at_length|].
    intros k x y Hk. rewrite bytes_at_lookup by done. destruct (decide (k = Z.to_nat i)) as [->|Hne].
    + rewrite list_lookup_insert_eq by (rewrite bytes_at_length; lia). cbn. rewrite (proj2 (Z.eqb_eq _ _)) by lia. congruence.
    + rewrite list_lookup_insert_ne, bytes_at_lookup by (done || lia). cbn. rewrite (proj2 (Z.eqb_neq _ _)) by lia. congruence.
  - intros q t. change (live (store p i v h) q t) with (live h q t). split.
    + intros Hq. destruct (decide (q = p)) as [->|Hne]; [left; by rewrite (live_unique h p t s)|by right].
    + by intros [[= -> ->]|[? ?]].
  - intros q t Hq Hne. apply bytes_at_ext. intros k Hk. cbn. rewrite (proj2 (Z.eqb_neq _ _)); [done|].
    destruct (live_apart h p s q t Hok Hl Hq) as [[= -> ->]|H]; [done|]. unfold apart, HDR in H. lia.
Qed.

(** The copy into a fresh, larger region. *)
Lemma copy_block_ok h h1 p s q s' :
  heap_ok h → heap_ok h1 → h_mem h1 = h_mem h → live h p s → s < s' → vacant h (q - HDR) (HDR + s') →
  (∀ a t, live h1 a t ↔ (a, t) = (q, s') ∨ live h a t) →
  ∃ h2, copy_block q p s h1 = Some h2 ∧ heap_ok h2 ∧ q ≠ p
    ∧ contents h2 = <[q := bytes_at (h_mem h2) q s']> (contents h)
    ∧ take (Z.to_nat s) (bytes_at (h_mem h2) q s') = bytes_at (h_mem h) p s.
Proof.
  intros Hok Hok1 Hm Hp Hs Hv Hl. pose proof (live_bounds _ _ _ Hok Hp) as Hb.
  pose proof (vacant_not_live h q s' Hok ltac:(lia) Hv) as Hn. assert (q ≠ p) as Hne by (intros ->; by destruct (Hn s)).
  destruct (header_live h1 q s' Hok1) as (b & Hb1 & <-); [apply Hl; by left|].
  unfold copy_block. rewrite Hb1, (proj2 (Z.ltb_ge _ _)) by lia. eexists. split; [reflexivity|]. split; [done|]. split; [done|].
  cbn [h_mem]. rewrite Hm. split.
  - apply contents_insert; [done..| |].
    + intros a t. transitivity (live h1 a t); [done|]. rewrite Hl. split; [|naive_solver].
      intros [?|Ha]; [by left|]. right. split; [done|]. intros ->. by destruct (Hn t).
    + intros a t Ha _. apply bytes_at_ext. intros i Hi. cbn. destruct Hv as (_ & _ & Hv). specialize (Hv a t Ha).
      unfold HDR in Hv. destruct (Z.leb_spec q (a + i)), (Z.ltb_spec (a + i) (q + s)); try lia; done.
  - apply list_eq_same_length with (n := Z.to_nat s); [apply bytes_at_length|rewrite length_take, bytes_at_length; lia|].
    intros i x y Hi. rewrite lookup_take_lt, !bytes_at_lookup by lia.
    rewrite (proj2 (Z.leb_le _ _)), (proj2 (Z.ltb_lt _ _)) by lia. cbn [andb].
    replace (q + Z.of_nat i - q + p) with (p + Z.of_nat i) by lia. congruence.
Qed.

Lemma realloc_refines p size h :
  heap_ok h → legal (contents h) (Realloc (Some p) size) →
  ∃ r h', qos_realloc (Some p) size h = Some (r, h') ∧ heap_ok h'
      ∧ spec_call (contents h) (Realloc (Some p) size) r (contents h').
Proof.
  intros Hok [Hs Hp]. specialize (Hp p eq_refl). cbn [spec_call qos_realloc]. destruct (Z.eqb_spec size 0) as [->|Hnz].
  { destruct (free_refines p h Hok Hp) as (h' & -> & Hok' & E). by exists None, h'. }
  destruct Hp as [old Hold]. rewrite Hold. cbn [from_option id]. apply contents_lookup in Hold as (s & Hl & ->); [|done].
  destruct (header_live h p s Hok Hl) as (b & -> & Hbs). rewrite Hbs, bytes_at_length. pose proof (live_bounds _ _ _ Hok Hl) as Hb.
  rewrite Z2Nat.id by lia. destruct (Z.leb_spec size s); [by exists (Some p), h|].
  destruct (malloc_spec size h Hok Hs) as (Hok1 & Hm & Hr). pose proof (malloc_refines size h Hok Hs) as [_ Hr'].
  destruct (qos_malloc size h) as [[q|] h1]; cbn [fst snd] in *.
  - destruct Hr as (s' & Hle & Hv & Hl1).
    destruct (header_live h1 p s Hok1) as (b1 & -> & Hb1); [apply Hl1; by right|]. cbn [from_option id]. rewrite Hb1.
    destruct (copy_block_ok h h1 p s q s') as (h2 & -> & Hok2 & Hne & Hc & Hold); [done..|lia|done|done|].
    destruct (free_refines p h2 Hok2) as (h3 & -> & Hok3 & Hc3).
    { rewrite Hc, lookup_insert_ne by done. exists (bytes_at (h_mem h) p s). apply contents_lookup; [done|by exists s]. }
    exists (Some q), h3. split; [done|]. split; [done|]. exists (bytes_at (h_mem h2) q s').
    split; [apply fresh_bytes; [done|lia..|done]|].
    split; [apply contents_None; [done|]; apply (vacant_not_live h q s'); [done|lia|done]|]. split; [done|].
    by rewrite Hc3, Hc, delete_insert_ne.
  - destruct Hr' as [Hc [?|Hf]]; [done|]. by exists None, h1.
Qed.

Lemma do_call_refines c h :
  heap_ok h → legal (contents h) c →
  ∃ r h', do_call c h = Some (r, h') ∧ heap_ok h' ∧ spec_call (contents h) c r (contents h').
Proof.
  intros Hok Hleg. destruct c as [size|[p|]|[p|] size|p i v]; cbn [do_call].
  - exists ((qos_malloc size h).1), ((qos_malloc size h).2). split; [by destruct qos_malloc|]. by apply malloc_refines.
  - destruct (free_refines p h Hok (Hleg p eq_refl)) as (h' & -> & Hok' & E). by exists None, h'.
  - by exists None, h.
  - by apply realloc_refines.
  - destruct Hleg as [Hs _]. exists ((qos_malloc size h).1), ((qos_malloc size h).2). split; [cbn; by destruct qos_malloc|].
    by apply malloc_refines.
  - exists None, (store p i v h). split; [done|]. split; [done|]. split; [done|]. by apply store_refines.
Qed.

(** ** Programs *)

Definition heap_zero (mem : Z → Z) : heap := {| h_blocks := []; h_mem := mem |}.

(** Heaps a program that keeps to [legal] calls can reach. *)
Inductive reachable : heap → Prop :=
  | reach_start mem : reachable (heap_zero mem)
  | reach_call c h r h' : reachable h → legal (contents h) c → do_call c h = Some (r, h') → reachable h'.

Lemma reachable_ok h : reachable h → heap_ok h.
Proof.
  induction 1 as [mem|c h r h' _ IH Hleg E]; [by left|]. destruct (do_call_refines c h IH Hleg) as (r1 & h1 & E1 & Hok & _). congruence.
Qed.

(** C7: the heap is an allocator.  In every heap a program reaches with pointers it
    holds and sizes below the top of size_t, each call of qos_malloc, qos_free and
    qos_realloc (and each byte written into an allocation) stays within the heap and
    does what a map from pointers to byte strings does.  A new pointer leads to at
    least the bytes asked for, inside the heap and away from every other allocation
    and its header.  Freeing removes the one entry.  Growing keeps the bytes and moves
    them, and on failure leaves the old allocation.  The others keep their bytes.  A
    request fails only when no stretch of the heap has room for its size, rounded up to
    a multiple of 16, and its header. *)
Theorem heap_refines_allocator h c :
  reachable h → legal (contents h) c →
  ∃ r h', do_call c h = Some (r, h') ∧ reachable h' ∧ spec_call (contents h) c r (contents h').
Proof.
  intros Hr Hleg. destruct (do_call_refines c h (reachable_ok h Hr) Hleg) as (r & h' & E & _ & Hs).
  exists r, h'. split; [done|]. split; [by apply (reach_call c h r)|done].
Qed.

Definition demo_heap : heap := (qos_malloc 100 (heap_zero (λ _, 7))).2.

Lemma demo_heap_reachable : reachable demo_heap.
Proof. apply (reach_call (Malloc 100) (heap_zero (λ _, 7)) (Some 24)); [constructor|done|reflexivity]. Qed.

Lemma heap_refines_allocator_witness :
  ∃ r h', do_call (Realloc (Some 24) 200) demo_heap = Some (r, h') ∧ reachable h'
    ∧ spec_call (contents demo_heap) (Realloc (Some 24) 200) r (contents h').
Proof.
  apply (heap_refines_allocator demo_heap (Realloc (Some 24) 200)); [exact demo_heap_reachable|].
  split; [done|]. intros p [= <-]. vm_compute. by eexists.
Defined.

(** Sizes within 15 of 2^64 round up to zero. *)
Lemma align_up_wraps size : 2 ^ 64 - 15 <= size < 2 ^ 64 → qos_libc_align_up size QOS_LIBC_HEAP_ALIGN = 0.
Proof.
  intros Hs. unfold qos_libc_align_up, QOS_LIBC_HEAP_ALIGN. change (u64 (16 - 1)) with 15.
  assert (u64 (size + 15) = size + 15 - 2 ^ 64) as ->.
  { unfold wrap. symmetry. apply Z.mod_unique_pos with (q := 1); lia. }
  change 15 with (Z.ones 4) at 2. rewrite land_bnot_ones by (unfold in_width; lia).
  rewrite Z.div_small by (change (2 ^ 4) with 16; lia). lia.
Qed.

(** a request within 15 bytes of the top of size_t is granted: the rounding wraps
    to zero and qos_malloc returns a pointer to no bytes at all.  qos_realloc to such
    a size then copies the old bytes behind that empty block, over the headers that
    follow it. *)
Theorem huge_request_overruns size mem :
  2 ^ 64 - 15 <= size < 2 ^ 64 →
  (let r := qos_malloc size (heap_zero mem) in r.1 = Some 24 ∧ contents (r.2) !! 24 = Some [])
  ∧ (let r := qos_malloc 100 (heap_zero mem) in r.1 = Some 24 ∧ qos_realloc (Some 24) size (r.2) = None).
Proof.
  intros Hs. split; cbv zeta.
  - unfold qos_malloc. rewrite (proj2 (Z.eqb_neq _ _)), align_up_wraps by lia. split; reflexivity.
  - split; [reflexivity|]. unfold qos_realloc. rewrite (proj2 (Z.eqb_neq size 0)) by lia.
    replace (header 24 _) with (Some {| b_at := 0; b_size := 112; b_free := false |}) by reflexivity. cbn [b_size].
    rewrite (proj2 (Z.leb_gt size 112)) by lia. unfold qos_malloc at 1.
    rewrite (proj2 (Z.eqb_neq size 0)), align_up_wraps by lia. reflexivity.
Qed.

Lemma huge_request_overruns_witness :
  qos_realloc (Some 24) (2 ^ 64 - 1) ((qos_malloc 100 (heap_zero (λ _, 0))).2) = None.
Proof. apply (huge_request_overruns (2 ^ 64 - 1) (λ _, 0)). lia. Defined.

(** Once everything is freed the whole heap can be allocated again. *)
Lemma heap_reclaimed h size :
  reachable h → contents h = ∅ → 0 < size <= QOS_LIBC_HEAP_BYTES - 2 * HDR → (qos_malloc size h).1 ≠ None.
Proof.
  intros Hr He Hs E. unfold QOS_LIBC_HEAP_BYTES, HDR in Hs.
  destruct (malloc_refines size h (reachable_ok h Hr) ltac:(lia)) as [_ Hm]. rewrite E, He in Hm.
  destruct Hm as [_ [?|Hf]]; [lia|]. apply (Hf 0). unfold room, QOS_LIBC_HEAP_BYTES, HDR.
  split; [lia|]. split; [Z.to_euclidean_division_equations; lia|]. intros q bs Hq. by rewrite lookup_empty in Hq.
Qed.
