(* ===== verification/Cstring.v ===== *)
(** * Strings and memory of the C library (c-os/libc/libc.c)

    The routines run on one byte memory, so that overlapping arguments are what
    they are in the code.  A pointer is an address, [None] where the code tests for
    NULL.  Loops that end at a NUL byte take fuel; [None] means there was too little,
    and every theorem about a string of length n holds for any fuel above n. *)

From S2P Require Import Prelude.

Definition mem := Z → Z.

(** [*a = v;] *)
Definition mset (a v : Z) (m : mem) : mem := λ x, if x =? a then v else m x.

(** ** Blocks of memory *)

(** [while (i < len) { p[i] = (unsigned char)value; i++; }], [k] bytes to go. *)
Fixpoint memset_loop (k : nat) (i p value : Z) (m : mem) : mem :=
  match k with O => m | S k' => memset_loop k' (i + 1) p value (mset (p + i) (u8 value) m) end.

Definition qos_memset (dst value len : Z) (m : mem) : mem := memset_loop (Z.to_nat len) 0 dst value m.

Fixpoint memcmp_loop (k : nat) (i a b : Z) (m : mem) : Z :=
  match k with
  | O => 0
  | S k' => if m (a + i) =? m (b + i) then memcmp_loop k' (i + 1) a b m else m (a + i) - m (b + i)
  end.

Definition qos_memcmp (a b len : Z) (m : mem) : Z := memcmp_loop (Z.to_nat len) 0 a b m.

(** [while (i < len) { d[i] = s[i]; i++; }] *)
Fixpoint copy_up (k : nat) (i d s : Z) (m : mem) : mem :=
  match k with O => m | S k' => copy_up k' (i + 1) d s (mset (d + i) (m (s + i)) m) end.

(** [while (i > 0) { i--; d[i] = s[i]; }] *)
Fixpoint copy_down (i : nat) (d s : Z) (m : mem) : mem :=
  match i with O => m | S i' => copy_down i' d s (mset (d + Z.of_nat i') (m (s + Z.of_nat i')) m) end.

Definition qos_memcpy (dst src len : Z) (m : mem) : mem := copy_up (Z.to_nat len) 0 dst src m.

Definition qos_memmove (d s len : Z) (m : mem) : mem :=
  if (d =? s) || (len =? 0) then m
  else if d <? s then copy_up (Z.to_nat len) 0 d s m
  else copy_down (Z.to_nat len) d s m.

(** ** Strings *)

Fixpoint strlen_loop (fuel : nat) (n s : Z) (m : mem) : option Z :=
  match fuel with
  | O => None
  | S fuel' => if m (s + n) =? 0 then Some n else strlen_loop fuel' (n + 1) s m
  end.

Definition qos_strlen (fuel : nat) (s : option Z) (m : mem) : option Z :=
  match s with None => Some 0 | Some s => strlen_loop fuel 0 s m end.

Fixpoint strcmp_loop (fuel : nat) (i a b : Z) (m : mem) : option Z :=
  match fuel with
  | O => None
  | S fuel' =>
      let ca := m (a + i) in
      let cb := m (b + i) in
      if negb (ca =? cb) then Some (ca - cb)
      else if ca =? 0 then Some 0
      else strcmp_loop fuel' (i + 1) a b m
  end.

Definition qos_strcmp (fuel : nat) (a b : Z) (m : mem) : option Z := strcmp_loop fuel 0 a b m.

(** At most [k] bytes: the loop ends by itself. *)
Fixpoint strncmp_loop (k : nat) (i a b : Z) (m : mem) : Z :=
  match k with
  | O => 0
  | S k' =>
      let ca := m (a + i) in
      let cb := m (b + i) in
      if negb (ca =? cb) then ca - cb
      else if ca =? 0 then 0
      else strncmp_loop k' (i + 1) a b m
  end.

Definition qos_strncmp (a b n : Z) (m : mem) : Z := strncmp_loop (Z.to_nat n) 0 a b m.

(** The byte is written before the source is tested. *)
Fixpoint strcpy_loop (fuel : nat) (i dst src : Z) (m : mem) : option mem :=
  match fuel with
  | O => None
  | S fuel' =>
      let m1 := mset (dst + i) (m (src + i)) m in
      if m1 (src + i) =? 0 then Some m1 else strcpy_loop fuel' (i + 1) dst src m1
  end.

(** The memory left; the value returned is [dst]. *)
Definition qos_strcpy (fuel : nat) (dst src : option Z) (m : mem) : option mem :=
  match dst, src with
  | Some dst, Some src => strcpy_loop fuel 0 dst src m
  | _, _ => Some m
  end.

(** The first loop of qos_strncpy, and what is left of [n] when it stops. *)
Fixpoint strncpy_copy (k : nat) (i dst src : Z) (m : mem) : nat * Z * mem :=
  match k with
  | O => (O, i, m)
  | S k' =>
      if negb (m (src + i) =? 0) then strncpy_copy k' (i + 1) dst src (mset (dst + i) (m (src + i)) m)
      else (k, i, m)
  end.

Definition qos_strncpy (dst src : option Z) (n : Z) (m : mem) : mem :=
  match dst, src with
  | Some dst, Some src =>
      if n =? 0 then m
      else let '(k, i, m1) := strncpy_copy (Z.to_nat n) 0 dst src m in memset_loop k i dst 0 m1
  | _, _ => m
  end.

(** [None]: too little fuel. *)
Fixpoint strchr_loop (fuel : nat) (i s target : Z) (m : mem) : option (option Z) :=
  match fuel with
  | O => None
  | S fuel' =>
      if m (s + i) =? target then Some (Some (s + i))
      else if m (s + i) =? 0 then Some None
      else strchr_loop fuel' (i + 1) s target m
  end.

Definition qos_strchr (fuel : nat) (s : option Z) (c : Z) (m : mem) : option (option Z) :=
  match s with None => Some None | Some s => strchr_loop fuel 0 s (u8 c) m end.

Fixpoint strrchr_loop (fuel : nat) (i s target : Z) (last : option Z) (m : mem) : option (option Z) :=
  match fuel with
  | O => None
  | S fuel' =>
      let last := if m (s + i) =? target then Some (s + i) else last in
      if m (s + i) =? 0 then Some last else strrchr_loop fuel' (i + 1) s target last m
  end.

Definition qos_strrchr (fuel : nat) (s : option Z) (c : Z) (m : mem) : option (option Z) :=
  match s with None => Some None | Some s => strrchr_loop fuel 0 s (u8 c) None m end.

(** [while ( *p != '\0' && (qos_strchr(delim, *p) != 0) == inside) p++;]: the two
    scans of qos_strtok, over delimiters and over the token; [dfuel] is for qos_strchr. *)
Fixpoint tok_scan (fuel dfuel : nat) (inside : bool) (p delim : Z) (m : mem) : option Z :=
  match fuel with
  | O => None
  | S fuel' =>
      if m p =? 0 then Some p
      else match strchr_loop dfuel 0 delim (m p) m with
           | None => None
           | Some r => if Bool.eqb (bool_decide (is_Some r)) inside then tok_scan fuel' dfuel inside (p + 1) delim m else Some p
           end
  end.

(** The pointer returned, [g_save] and the memory. *)
Definition qos_strtok (fuel : nat) (str delim save : option Z) (m : mem) : option (option Z * option Z * mem) :=
  match delim with
  | None => Some (None, save, m)
  | Some delim =>
      if m delim =? 0 then Some (None, save, m)
      else
        let save := match str with Some _ => str | None => save end in
        match save with
        | None => Some (None, None, m)
        | Some from =>
            match tok_scan fuel fuel true from delim m with
            | None => None
            | Some start =>
                if m start =? 0 then Some (None, None, m)
                else
                  match tok_scan fuel fuel false start delim m with
                  | None => None
                  | Some p =>
                      if m p =? 0 then Some (Some start, None, m)
                      else Some (Some start, Some (p + 1), mset p 0 m)
                  end
            end
        end
  end.

(** ** What memory holds *)

(** The bytes [l] from [p] on, and a string: bytes that are not NUL, then a NUL. *)
Fixpoint holds (m : mem) (p : Z) (l : list Z) : Prop :=
  match l with [] => True | c :: l' => m p = c ∧ holds m (p + 1) l' end.

Definition text (l : list Z) : Prop := Forall (λ c, 0 < c < 256) l.

Definition cstr (m : mem) (p : Z) (l : list Z) : Prop := text l ∧ holds m p (l ++ [0]).

Lemma holds_app m p l1 l2 : holds m p (l1 ++ l2) ↔ holds m p l1 ∧ holds m (p + Z.of_nat (length l1)) l2.
Proof.
  revert p. induction l1 as [|c l1 IH]; intros p; cbn [app holds length].
  - replace (p + Z.of_nat 0) with p by lia. tauto.
  - rewrite IH. replace (p + 1 + Z.of_nat (length l1)) with (p + Z.of_nat (S (length l1))) by lia. tauto.
Qed.

Lemma holds_ext m m' p l :
  (∀ a, p <= a < p + Z.of_nat (length l) → m' a = m a) → holds m p l → holds m' p l.
Proof.
  revert p. induction l as [|c l IH]; intros p He; [done|]. cbn [holds length] in *. intros [Hc Hl].
  split; [rewrite He by lia; done|]. apply IH; [|done]. intros a Ha. apply He. lia.
Qed.

Lemma holds_lookup m p l i c : holds m p l → l !! i = Some c → m (p + Z.of_nat i) = c.
Proof.
  revert p i. induction l as [|d l IH]; intros p i Hh Hi; [done|]. destruct Hh as [Hd Hl]. destruct i as [|i].
  - injection Hi as <-. by rewrite Z.add_0_r.
  - replace (p + Z.of_nat (S i)) with (p + 1 + Z.of_nat i) by lia. by apply IH.
Qed.

Lemma cstr_cons m p c l : cstr m p (c :: l) ↔ m p = c ∧ 0 < c < 256 ∧ cstr m (p + 1) l.
Proof. unfold cstr, text. rewrite Forall_cons. cbn [app holds]. tauto. Qed.

Lemma cstr_nil m p : cstr m p [] ↔ m p = 0.
Proof. unfold cstr, text. cbn. rewrite Forall_nil. tauto. Qed.

Lemma cstr_ext m m' p l :
  (∀ a, p <= a <= p + Z.of_nat (length l) → m' a = m a) → cstr m p l → cstr m' p l.
Proof.
  intros He [Ht Hh]. split; [done|]. apply (holds_ext m); [|done]. intros a. rewrite length_app. cbn [length]. intros Ha. apply He. lia.
Qed.

Lemma cstr_suffix m p l1 l2 : cstr m p (l1 ++ l2) → cstr m (p + Z.of_nat (length l1)) l2.
Proof.
  intros [Ht Hh]. apply Forall_app in Ht as [_ Ht]. split; [done|]. rewrite <- app_assoc, holds_app in Hh. apply Hh.
Qed.

(** ** Blocks *)

(** [n] bytes from [s] copied to [d] at one instant. *)
Definition copied (d s n : Z) (m : mem) : mem := λ a, if (d <=? a) && (a <? d + n) then m (a - d + s) else m a.

Ltac zcases := repeat match goal with
  | |- context [Z.leb ?a ?b] => destruct (Z.leb_spec a b)
  | |- context [Z.ltb ?a ?b] => destruct (Z.ltb_spec a b)
  | |- context [Z.eqb ?a ?b] => destruct (Z.eqb_spec a b)
  end; cbn [andb orb negb].

Lemma copy_up_step d s i k m m0 :
  (d <= s ∨ s + i + Z.of_nat (S k) <= d) → 0 <= i → (∀ a, m a = copied d s i m0 a) →
  ∀ a, mset (d + i) (m (s + i)) m a = copied d s (i + 1) m0 a.
Proof.
  intros Hd Hi Hm a. unfold mset. rewrite !Hm. unfold copied.
  zcases; subst; try lia; try done; f_equal; lia.
Qed.

Lemma copy_up_ok k d s i m m0 :
  (d <= s ∨ s + i + Z.of_nat k <= d) → 0 <= i → (∀ a, m a = copied d s i m0 a) →
  ∀ a, copy_up k i d s m a = copied d s (i + Z.of_nat k) m0 a.
Proof.
  revert i m. induction k as [|k IH]; intros i m Hd Hi Hm a; cbn [copy_up]; [by rewrite Z.add_0_r|].
  replace (i + Z.of_nat (S k)) with (i + 1 + Z.of_nat k) by lia.
  apply IH; [lia|lia|]. by apply (copy_up_step d s i k).
Qed.

Lemma copy_down_ok i n d s m m0 :
  s <= d → Z.of_nat i <= n →
  (∀ a, m a = if (d + Z.of_nat i <=? a) && (a <? d + n) then m0 (a - d + s) else m0 a) →
  ∀ a, copy_down i d s m a = copied d s n m0 a.
Proof.
  revert m. induction i as [|i IH]; intros m Hd Hi Hm a; cbn [copy_down].
  { rewrite Hm. unfold copied. by replace (d + Z.of_nat 0) with d by lia. }
  apply IH; [done|lia|]. intros b. unfold mset. rewrite !Hm. zcases; subst; try lia; try done; f_equal; lia.
Qed.

Lemma memset_loop_ok k i p v m a :
  0 <= i → memset_loop k i p v m a = if (p + i <=? a) && (a <? p + i + Z.of_nat k) then u8 v else m a.
Proof.
  revert i m. induction k as [|k IH]; intros i m Hi; cbn [memset_loop]; [zcases; try lia; done|].
  rewrite IH by lia. unfold mset. zcases; subst; try lia; done.
Qed.

(** ** Strings *)

Lemma strlen_loop_ok fuel n s m l :
  cstr m (s + n) l → (length l < fuel)%nat → strlen_loop fuel n s m = Some (n + Z.of_nat (length l)).
Proof.
  revert n l. induction fuel as [|fuel IH]; intros n l Hc Hf; [lia|]. cbn [strlen_loop]. destruct l as [|c l].
  - apply cstr_nil in Hc. rewrite Hc. cbn. f_equal. lia.
  - apply cstr_cons in Hc as (-> & Hr & Hc). rewrite (proj2 (Z.eqb_neq c 0)) by lia. cbn [length] in *.
    rewrite (IH _ l); [f_equal; lia|by rewrite Z.add_assoc|lia].
Qed.

(** Comparison of strings as sequences of unsigned bytes, a NUL behind each. *)
Fixpoint compare_text (la lb : list Z) : Z :=
  match la, lb with
  | [], [] => 0
  | a :: _, [] => a
  | [], b :: _ => - b
  | a :: la', b :: lb' => if a =? b then compare_text la' lb' else a - b
  end.

(** Dictionary order. *)
Fixpoint before (la lb : list Z) : Prop :=
  match la, lb with
  | _, [] => False
  | [], _ :: _ => True
  | a :: la', b :: lb' => a < b ∨ a = b ∧ before la' lb'
  end.

Lemma compare_text_order la lb :
  text la → text lb → (compare_text la lb = 0 ↔ la = lb) ∧ (compare_text la lb < 0 ↔ before la lb).
Proof.
  intros Ha. revert lb. induction Ha as [|a la Ha _ IH]; intros lb Hb; destruct Hb as [|b lb Hb Hlb]; cbn [compare_text before].
  - split; [done|]. split; [lia|done].
  - split; [split; [lia|done]|]. split; [done|lia].
  - split; [split; [lia|done]|]. split; [lia|done].
  - destruct (IH lb Hlb) as [IH1 IH2]. destruct (Z.eqb_spec a b) as [->|Hne].
    + rewrite IH1, IH2. split; [split; congruence|]. split; [by right|]. intros [?|[_ ?]]; [lia|done].
    + split; [split; [lia|congruence]|]. split; [left; lia|]. intros [?|[? _]]; [lia|done].
Qed.

(** Of blocks of one length, which may hold NULs. *)
Lemma compare_blocks_order la lb :
  length la = length lb → (compare_text la lb = 0 ↔ la = lb) ∧ (compare_text la lb < 0 ↔ before la lb).
Proof.
  revert lb. induction la as [|a la IH]; intros [|b lb] Hl; try done; cbn [compare_text before].
  destruct (IH lb) as [IH1 IH2]; [by injection Hl|]. destruct (Z.eqb_spec a b) as [->|Hne].
  - rewrite IH1, IH2. split; [split; congruence|]. split; [by right|]. intros [?|[_ ?]]; [lia|done].
  - split; [split; [lia|congruence]|]. split; [left; lia|]. intros [?|[? _]]; [lia|done].
Qed.

Lemma memcmp_loop_ok k i a b m la lb :
  length la = k → length lb = k → holds m (a + i) la → holds m (b + i) lb → memcmp_loop k i a b m = compare_text la lb.
Proof.
  revert i la lb. induction k as [|k IH]; intros i [|ca la] [|cb lb] Hla Hlb Ha Hb; try done.
  cbn [holds memcmp_loop compare_text] in *. destruct Ha as [-> Ha], Hb as [-> Hb]. destruct (ca =? cb); [|done].
  apply IH; [by injection Hla|by injection Hlb|by rewrite Z.add_assoc..].
Qed.

Lemma strcmp_loop_ok fuel i a b m la lb :
  cstr m (a + i) la → cstr m (b + i) lb → (Nat.min (length la) (length lb) < fuel)%nat →
  strcmp_loop fuel i a b m = Some (compare_text la lb).
Proof.
  revert i la lb. induction fuel as [|fuel IH]; intros i la lb Ha Hb Hf; [lia|]. cbn [strcmp_loop]. cbv zeta.
  destruct la as [|ca la]; [apply cstr_nil in Ha as ->|apply cstr_cons in Ha as (-> & Hra & Ha)];
    (destruct lb as [|cb lb]; [apply cstr_nil in Hb as ->|apply cstr_cons in Hb as (-> & Hrb & Hb)]); cbn [compare_text].
  - done.
  - rewrite (proj2 (Z.eqb_neq 0 cb)) by lia. done.
  - rewrite (proj2 (Z.eqb_neq ca 0)) by lia. cbn. f_equal. lia.
  - destruct (Z.eqb_spec ca cb) as [->|Hne]; [|done]. cbn [negb]. rewrite (proj2 (Z.eqb_neq cb 0)) by lia.
    cbn [length] in Hf. apply IH; [by rewrite Z.add_assoc..|lia].
Qed.

Lemma strncmp_loop_ok k i a b m la lb :
  cstr m (a + i) la → cstr m (b + i) lb → strncmp_loop k i a b m = compare_text (take k la) (take k lb).
Proof.
  revert i la lb. induction k as [|k IH]; intros i la lb Ha Hb; [done|]. cbn [strncmp_loop]. cbv zeta.
  destruct la as [|ca la]; [apply cstr_nil in Ha as ->|apply cstr_cons in Ha as (-> & Hra & Ha)];
    (destruct lb as [|cb lb]; [apply cstr_nil in Hb as ->|apply cstr_cons in Hb as (-> & Hrb & Hb)]); cbn [take compare_text].
  - done.
  - rewrite (proj2 (Z.eqb_neq 0 cb)) by lia. done.
  - rewrite (proj2 (Z.eqb_neq ca 0)) by lia. cbn. lia.
  - destruct (Z.eqb_spec ca cb) as [->|Hne]; [|done]. cbn [negb]. rewrite (proj2 (Z.eqb_neq cb 0)) by lia.
    apply IH; by rewrite Z.add_assoc.
Qed.

(** Where the strings may lie: [n] bytes at [d] and [k] bytes at [s] do not meet. *)
Definition disjoint_ranges (d n s k : Z) : Prop := d + n <= s ∨ s + k <= d.

Lemma strcpy_loop_ok fuel i d s m l :
  cstr m (s + i) l → disjoint_ranges (d + i) (Z.of_nat (length l) + 1) (s + i) (Z.of_nat (length l) + 1) → (length l < fuel)%nat →
  ∃ m', strcpy_loop fuel i d s m = Some m' ∧ ∀ a, m' a = copied (d + i) (s + i) (Z.of_nat (length l) + 1) m a.
Proof.
  revert i m l. induction fuel as [|fuel IH]; intros i m l Hc Hd Hf; [lia|]. cbn [strcpy_loop]. cbv zeta.
  destruct l as [|c l]; cbn [length] in *.
  - apply cstr_nil in Hc. unfold mset at 1. rewrite (proj2 (Z.eqb_neq (s + i) (d + i))), Hc by (unfold disjoint_ranges in Hd; lia).
    eexists. split; [done|]. intros a. unfold mset, copied. zcases; subst; try lia; try done. rewrite <- Hc. f_equal. lia.
  - apply cstr_cons in Hc as (Hc & Hr & Hl). unfold disjoint_ranges in Hd.
    unfold mset at 1. rewrite (proj2 (Z.eqb_neq (s + i) (d + i))), Hc, (proj2 (Z.eqb_neq c 0)) by lia.
    destruct (IH (i + 1) (mset (d + i) c m) l) as (m' & -> & Hm'); [|unfold disjoint_ranges; lia|lia|].
    { rewrite Z.add_assoc. apply (cstr_ext m); [|done]. intros a Ha. unfold mset. by rewrite (proj2 (Z.eqb_neq a (d + i))) by lia. }
    exists m'. split; [done|]. intros a. rewrite Hm'. unfold copied, mset. zcases; subst; try lia; try done; rewrite <- ?Hc; f_equal; lia.
Qed.

Lemma copied_cstr d s l m : cstr m s l → cstr (copied d s (Z.of_nat (length l) + 1) m) d l.
Proof.
  intros [Ht Hh]. split; [done|]. assert (length (l ++ [0]) = S (length l)) as Hlen by (rewrite length_app; cbn; lia).
  replace (Z.of_nat (length l) + 1) with (Z.of_nat (length (l ++ [0]))) by lia. clear Hlen Ht. revert s d Hh.
  induction (l ++ [0]) as [|c r IH]; intros s d Hh; [done|]. destruct Hh as [Hc Hh]. cbn [length] in *. split.
  - unfold copied. rewrite (proj2 (Z.leb_le _ _)), (proj2 (Z.ltb_lt _ _)) by lia. cbn. rewrite <- Hc. f_equal. lia.
  - apply (holds_ext (copied (d + 1) (s + 1) (Z.of_nat (length r)) m)); [|by apply IH].
    intros a Ha. unfold copied. zcases; try lia; f_equal; lia.
Qed.

Lemma strncpy_copy_ok k i d s m l :
  cstr m (s + i) l → disjoint_ranges (d + i) (Z.of_nat k) (s + i) (Z.of_nat (length l) + 1) →
  ∃ m', strncpy_copy k i d s m = ((k - length l)%nat, i + Z.of_nat (Nat.min k (length l)), m')
      ∧ ∀ a, m' a = copied (d + i) (s + i) (Z.of_nat (Nat.min k (length l))) m a.
Proof.
  revert i m l. induction k as [|k IH]; intros i m l Hc Hd; cbn [strncpy_copy].
  { exists m. split; [f_equal; f_equal; lia|]. intros a. unfold copied. zcases; try lia; done. }
  destruct l as [|c l]; cbn [length Nat.min Nat.sub] in *.
  - apply cstr_nil in Hc as ->. exists m. split; [cbn; f_equal; f_equal; lia|]. intros a. unfold copied. zcases; try lia; done.
  - apply cstr_cons in Hc as (Hc & Hr & Hl). unfold disjoint_ranges in Hd. rewrite Hc, (proj2 (Z.eqb_neq c 0)) by lia. cbn [negb].
    destruct (IH (i + 1) (mset (d + i) c m) l) as (m' & -> & Hm'); [|unfold disjoint_ranges; lia|].
    { rewrite Z.add_assoc. apply (cstr_ext m); [|done]. intros a Ha. unfold mset. by rewrite (proj2 (Z.eqb_neq a (d + i))) by lia. }
    exists m'. split; [f_equal; f_equal; lia|]. intros a. rewrite Hm'. unfold copied, mset.
    zcases; subst; try lia; try done; rewrite <- ?Hc; f_equal; lia.
Qed.

(** Exactly [n] bytes: the string cut or filled up with NULs. *)
Lemma strncpy_ok d s n m l :
  cstr m s l → 0 <= n → disjoint_ranges d n s (Z.of_nat (length l) + 1) →
  ∀ a, qos_strncpy (Some d) (Some s) n m a
       = if (d <=? a) && (a <? d + n) then (if a - d <? Z.of_nat (length l) then m (a - d + s) else 0) else m a.
Proof.
  intros Hc Hn Hd a. unfold qos_strncpy. destruct (Z.eqb_spec n 0) as [->|Hn0]; [zcases; try lia; done|].
  destruct (strncpy_copy_ok (Z.to_nat n) 0 d s m l) as (m' & -> & Hm'); [by rewrite Z.add_0_r|unfold disjoint_ranges in *; lia|].
  rewrite memset_loop_ok, Hm' by lia. change (u8 0) with 0. unfold copied. rewrite !Z.add_0_r. zcases; try lia; done.
Qed.

Lemma strchr_loop_ok fuel i s t m l :
  cstr m (s + i) l → (length l < fuel)%nat →
  strchr_loop fuel i s t m = Some ((λ k, s + i + Z.of_nat k) <$> first_index (λ c, c =? t) (l ++ [0])).
Proof.
  revert i l. induction fuel as [|fuel IH]; intros i l Hc Hf; [lia|]. cbn [strchr_loop].
  destruct l as [|c l]; [apply cstr_nil in Hc as ->|apply cstr_cons in Hc as (-> & Hr & Hc)]; cbn [app first_index].
  - destruct (0 =? t); cbn; [|done]. f_equal. f_equal. lia.
  - destruct (c =? t); [cbn; f_equal; f_equal; lia|]. rewrite (proj2 (Z.eqb_neq c 0)) by lia. cbn [length] in Hf.
    rewrite (IH _ l); [|by rewrite Z.add_assoc|lia]. f_equal. destruct (first_index _ _) as [k|]; cbn; [|done]. f_equal. lia.
Qed.

Fixpoint last_index {A} (p : A → bool) (l : list A) : option nat :=
  match l with
  | [] => None
  | a :: l' => match last_index p l' with Some i => Some (S i) | None => if p a then Some 0%nat else None end
  end.

Lemma last_index_Some {A} (p : A → bool) l i :
  last_index p l = Some i ↔ ∃ a, l !! i = Some a ∧ p a = true ∧ ∀ j b, (i < j)%nat → l !! j = Some b → p b = false.
Proof.
  revert i. induction l as [|x l IH]; intros i; cbn [last_index].
  { split; [done|]. by intros (a & ? & _). }
  destruct (last_index p l) as [k|] eqn:E.
  - pose proof (proj1 (IH k) eq_refl) as (a & Ha & Hp & Hmax). split.
    + intros [= <-]. exists a. split; [done|]. split; [done|]. intros [|j] b Hj Hb; [lia|]. apply (Hmax j); [lia|done].
    + intros (b & Hb & Hpb & Hmax'). destruct i as [|i]; [by rewrite (Hmax' (S k) a) in Hp by (lia || done)|].
      f_equal. f_equal. enough (Some k = Some i) by congruence. apply IH. exists b. split; [done|]. split; [done|].
      intros j c Hj Hc. apply (Hmax' (S j)); [lia|done].
  - assert (∀ j b, l !! j = Some b → p b = true → False) as Hno.
    { intros j b Hb Hp. clear -E Hb Hp. revert j Hb. induction l as [|y l IH]; intros j Hb; [done|]. cbn in E.
      destruct (last_index p l); [done|]. destruct (p y) eqn:Hy; [done|]. destruct j; [simplify_eq/=; congruence|]. by apply (IH eq_refl j). }
    destruct (p x) eqn:Hx; split.
    + intros [= <-]. exists x. split; [done|]. split; [done|]. intros [|j] b Hj Hb; [lia|]. apply not_true_is_false. intros Hp. by apply (Hno j b).
    + intros (b & Hb & Hpb & _). destruct i as [|i]; [done|]. by destruct (Hno i b).
    + done.
    + intros (b & Hb & Hpb & _). destruct i as [|i]; [by simplify_eq/=; congruence|]. by destruct (Hno i b).
Qed.

Lemma strrchr_loop_ok fuel i s t last m l :
  cstr m (s + i) l → (length l < fuel)%nat →
  strrchr_loop fuel i s t last m
  = Some (match last_index (λ c, c =? t) (l ++ [0]) with Some k => Some (s + i + Z.of_nat k) | None => last end).
Proof.
  revert i last l. induction fuel as [|fuel IH]; intros i last l Hc Hf; [lia|]. cbn [strrchr_loop]. cbv zeta.
  destruct l as [|c l]; [apply cstr_nil in Hc as ->|apply cstr_cons in Hc as (-> & Hr & Hc)]; cbn [app last_index].
  - destruct (0 =? t); cbn; [|done]. f_equal. f_equal. lia.
  - rewrite (proj2 (Z.eqb_neq c 0)) by lia. cbn [length] in Hf. rewrite (IH _ _ l); [|by rewrite Z.add_assoc|lia].
    f_equal. destruct (last_index _ _) as [k|]; [f_equal; lia|]. destruct (c =? t); [f_equal; lia|done].
Qed.

(** ** Tokens *)

(** The longest prefix on which [f] holds. *)
Fixpoint lead (f : Z → bool) (l : list Z) : list Z :=
  match l with [] => [] | c :: l' => if f c then c :: lead f l' else [] end.

Lemma lead_split f l : ∃ r, l = lead f l ++ r ∧ Forall (λ c, f c = true) (lead f l) ∧ ∀ c r', r = c :: r' → f c = false.
Proof.
  induction l as [|c l (r & E & Hf & Hr)]; cbn [lead]; [by exists []|]. destruct (f c) eqn:Hc.
  - exists r. cbn. split; [by f_equal|]. split; [by constructor|done].
  - exists (c :: l). split; [done|]. split; [constructor|]. by intros ? ? [= <- _].
Qed.

Definition is_delim (ds : list Z) (c : Z) : bool := bool_decide (c ∈ ds).

(** The words of [l]: the longest runs without a delimiter, [cur] the run so far. *)
Fixpoint words_from (ds cur l : list Z) : list (list Z) :=
  match l with
  | [] => match cur with [] => [] | _ => [cur] end
  | c :: l' =>
      if is_delim ds c then match cur with [] => words_from ds [] l' | _ => cur :: words_from ds [] l' end
      else words_from ds (cur ++ [c]) l'
  end.

Definition words (ds l : list Z) : list (list Z) := words_from ds [] l.

Lemma words_skip ds sk l : Forall (λ c, is_delim ds c = true) sk → words ds (sk ++ l) = words ds l.
Proof. intros H. induction H as [|c sk Hc _ IH]; [done|]. cbn. by rewrite Hc. Qed.

Lemma words_from_run ds cur tok l :
  Forall (λ c, is_delim ds c = false) tok → words_from ds cur (tok ++ l) = words_from ds (cur ++ tok) l.
Proof.
  intros H. revert cur. induction H as [|c tok Hc _ IH]; intros cur; cbn; [by rewrite app_nil_r|]. by rewrite Hc, IH, <- app_assoc.
Qed.

Lemma words_token ds tok l :
  tok ≠ [] → Forall (λ c, is_delim ds c = false) tok → (∀ c r, l = c :: r → is_delim ds c = true) →
  words ds (tok ++ l) = tok :: words ds (tail l).
Proof.
  intros Hne Ht Hl. unfold words. rewrite words_from_run by done. cbn [app]. destruct l as [|c l]; cbn [words_from tail].
  - by destruct tok.
  - rewrite (Hl c l eq_refl). by destruct tok.
Qed.

Lemma strchr_delim fuel delim ds c m :
  cstr m delim ds → (length ds < fuel)%nat → c ≠ 0 →
  ∃ r, strchr_loop fuel 0 delim c m = Some r ∧ bool_decide (is_Some r) = is_delim ds c.
Proof.
  intros Hc Hf Hne. rewrite (strchr_loop_ok _ _ _ _ _ ds); [|by rewrite Z.add_0_r|done]. eexists. split; [done|].
  unfold is_delim. apply bool_decide_ext. rewrite fmap_is_Some. split.
  - intros [k (a & Ha & ->%Z.eqb_eq)%first_index_lookup]. apply list_elem_of_lookup_2 in Ha.
    apply elem_of_app in Ha as [?|Ha%list_elem_of_singleton]; done.
  - intros [k Hk]%list_elem_of_lookup. destruct (first_index _ _) as [j|] eqn:E; [done|].
    rewrite first_index_None in E. specialize (E k c). rewrite lookup_app_l, Z.eqb_refl in E by (by eapply lookup_lt_Some). by specialize (E Hk).
Qed.

Lemma tok_scan_ok fuel dfuel inside p delim m l ds :
  cstr m p l → cstr m delim ds → (length l < fuel)%nat → (length ds < dfuel)%nat →
  tok_scan fuel dfuel inside p delim m = Some (p + Z.of_nat (length (lead (λ c, Bool.eqb (is_delim ds c) inside) l))).
Proof.
  intros Hl Hd Hf Hdf. revert p l Hl Hf. induction fuel as [|fuel IH]; intros p l Hl Hf; [lia|]. cbn [tok_scan].
  destruct l as [|c l]; [apply cstr_nil in Hl as ->; cbn; f_equal; lia|]. apply cstr_cons in Hl as (-> & Hr & Hl).
  rewrite (proj2 (Z.eqb_neq c 0)) by lia. destruct (strchr_delim dfuel delim ds c m Hd Hdf ltac:(lia)) as (r & -> & ->). cbn [lead].
  destruct (Bool.eqb _ _); cbn [length] in *; [|f_equal; lia]. rewrite (IH (p + 1) l) by (done || lia). f_equal. lia.
Qed.

(** One call, with the string that is left in [g_save]. *)
Lemma strtok_step fuel from delim m l ds :
  cstr m from l → cstr m delim ds → ds ≠ [] → (length l < fuel)%nat → (length ds < fuel)%nat →
  (words ds l = [] ∧ qos_strtok fuel None (Some delim) (Some from) m = Some (None, None, m))
  ∨ ∃ sk tok r, l = sk ++ tok ++ r ∧ tok ≠ [] ∧ words ds l = tok :: words ds (tail r)
      ∧ let start := from + Z.of_nat (length sk) in
        let p := start + Z.of_nat (length tok) in
        qos_strtok fuel None (Some delim) (Some from) m
        = Some (match r with [] => (Some start, None, m) | _ => (Some start, Some (p + 1), mset p 0 m) end).
Proof.
  intros Hl Hd Hds Hf Hdf. destruct (lead_split (λ c, Bool.eqb (is_delim ds c) true) l) as (r0 & E0 & Hsk & Hr0).
  unfold qos_strtok. destruct ds as [|d ds']; [done|]. pose proof Hd as (Hd0 & Hd1 & _)%cstr_cons.
  rewrite Hd0, (proj2 (Z.eqb_neq d 0)) by lia. set (ds := d :: ds') in *. rewrite (tok_scan_ok _ _ _ _ _ _ l ds) by done.
  set (sk := lead _ l) in *. assert (Forall (λ c, is_delim ds c = true) sk) as Hsk'.
  { eapply Forall_impl; [exact Hsk|]. intros c Hc. by apply eqb_prop in Hc. }
  rewrite E0 in Hl. pose proof (cstr_suffix _ _ _ _ Hl) as Hl0. set (start := from + _) in *. destruct r0 as [|c0 r0'] eqn:Er0.
  { left. apply cstr_nil in Hl0 as ->. split; [by rewrite E0, words_skip|done]. }
  right. rewrite <- Er0 in *. destruct (lead_split (λ c, Bool.eqb (is_delim ds c) false) r0) as (r & E1 & Htok & Hr).
  assert (length r0 < fuel)%nat by (rewrite E0, length_app in Hf; lia). rewrite (tok_scan_ok _ _ _ _ _ _ r0 ds) by done.
  set (tok := lead _ r0) in *. assert (Forall (λ c, is_delim ds c = false) tok) as Htok'.
  { eapply Forall_impl; [exact Htok|]. intros c Hc. by apply eqb_prop in Hc. }
  assert (tok ≠ []) as Hne.
  { unfold tok. rewrite Er0. cbn [lead]. specialize (Hr0 _ _ Er0). by destruct (is_delim ds c0). }
  exists sk, tok, r. split; [by rewrite E0, E1 at 1|]. split; [done|]. split.
  { rewrite E0, words_skip, E1 by done. apply words_token; [done..|]. intros c r' ->. specialize (Hr _ _ eq_refl). by destruct (is_delim ds c). }
  cbv zeta. fold start. assert (m start ≠ 0) as Hst by (rewrite Er0 in Hl0; apply cstr_cons in Hl0 as (-> & ? & _); lia).
  rewrite (proj2 (Z.eqb_neq _ _) Hst). rewrite E1 in Hl0. apply cstr_suffix in Hl0. destruct r as [|c r'].
  - apply cstr_nil in Hl0 as ->. done.
  - apply cstr_cons in Hl0 as (-> & ? & _). by rewrite (proj2 (Z.eqb_neq c 0)) by lia.
Qed.

(** [for (t = strtok(str, delim); t != NULL; t = strtok(NULL, delim))]: the pointers
    returned and the memory left, at most [calls] calls. *)
Fixpoint strtok_all (calls fuel : nat) (str delim save : option Z) (m : mem) : option (list Z * mem) :=
  match calls with
  | O => None
  | S calls' =>
      match qos_strtok fuel str delim save m with
      | None => None
      | Some (None, _, m1) => Some ([], m1)
      | Some (Some t, save1, m1) =>
          match strtok_all calls' fuel None delim save1 m1 with
          | None => None
          | Some (ts, m2) => Some (t :: ts, m2)
          end
      end
  end.

Lemma strtok_all_stop calls fuel delim m : (0 < calls)%nat → strtok_all calls fuel None (Some delim) None m = Some ([], m).
Proof. intros Hc. destruct calls; [lia|]. cbn. by destruct (m delim =? 0). Qed.

Lemma strtok_all_ok calls fuel from delim m l ds :
  cstr m from l → cstr m delim ds → ds ≠ [] → (length l < fuel)%nat → (length ds < fuel)%nat → (S (length l) < calls)%nat →
  disjoint_ranges from (Z.of_nat (length l) + 1) delim (Z.of_nat (length ds) + 1) →
  ∃ ts m', strtok_all calls fuel None (Some delim) (Some from) m = Some (ts, m')
    ∧ Forall2 (cstr m') ts (words ds l) ∧ ∀ a, ¬ (from <= a < from + Z.of_nat (length l)) → m' a = m a.
Proof.
  revert from m l. induction calls as [|calls IH]; intros from m l Hl Hd Hds Hf Hdf Hc Hdis; [lia|]. cbn [strtok_all].
  destruct (strtok_step fuel from delim m l ds) as [[Hw ->]|(sk & tok & r & -> & Hne & Hw & ->)]; [done..| |].
  { exists [], m. rewrite Hw. split; [done|]. split; [constructor|done]. }
  cbv zeta. rewrite !length_app, !Nat2Z.inj_add in *. set (start := from + Z.of_nat (length sk)).
  apply cstr_suffix in Hl. fold start in Hl. rewrite Hw. destruct r as [|c r]; cbn [tail length] in *.
  - rewrite strtok_all_stop by lia. exists [start], m. split; [done|]. rewrite app_nil_r in Hl. split; [|done].
    constructor; [done|constructor].
  - set (p := start + Z.of_nat (length tok)). pose proof (cstr_suffix _ _ _ _ Hl) as Hr. fold p in Hr.
    apply cstr_cons in Hr as (_ & _ & Hr). unfold disjoint_ranges in Hdis.
    assert (∀ a, a ≠ p → mset p 0 m a = m a) as Hm by (intros a Ha; unfold mset; by rewrite (proj2 (Z.eqb_neq a p))).
    destruct (IH (p + 1) (mset p 0 m) r) as (ts & m' & -> & Hts & Hm'); try done; try lia.
    + apply (cstr_ext m); [|done]. intros a Ha. apply Hm. lia.
    + apply (cstr_ext m); [|done]. intros a Ha. apply Hm. lia.
    + unfold disjoint_ranges. lia.
    + exists (start :: ts), m'. split; [done|]. split.
      * constructor; [|done]. destruct Hl as [Ht Hh]. apply Forall_app in Ht as [Ht _]. split; [done|].
        apply holds_app. rewrite <- app_assoc, holds_app in Hh. fold p in Hh |- *. cbn [holds]. destruct Hh as [Hh _].
        split; [apply (holds_ext m); [|done]; intros a Ha; rewrite Hm' by lia; apply Hm; lia|].
        rewrite Hm' by lia. unfold mset. by rewrite Z.eqb_refl.
      * intros a Ha. rewrite Hm' by lia. apply Hm. lia.
Qed.

(** ** The contracts *)

(** the block routines.  qos_memmove copies as if through a second buffer,
    whatever the overlap; qos_memcpy does when the blocks do not meet or the
    destination comes first; qos_memset fills; qos_memcmp compares as unsigned bytes. *)
Theorem memory_blocks_exact d s n v m :
  0 <= n →
  (∀ a, qos_memmove d s n m a = copied d s n m a)
  ∧ (d <= s ∨ s + n <= d → ∀ a, qos_memcpy d s n m a = copied d s n m a)
  ∧ (∀ a, qos_memset d v n m a = if (d <=? a) && (a <? d + n) then u8 v else m a)
  ∧ (∀ la lb, length la = Z.to_nat n → length lb = Z.to_nat n → holds m d la → holds m s lb →
     (qos_memcmp d s n m = 0 ↔ la = lb) ∧ (qos_memcmp d s n m < 0 ↔ before la lb)).
Proof.
  intros Hn. assert (∀ a, m a = copied d s 0 m a) as H0 by (intros a; unfold copied; zcases; try lia; done).
  split; [|split; [|split]].
  - intros a. unfold qos_memmove. destruct (Z.eqb_spec d s) as [->|Hds]; cbn [orb].
    { unfold copied. zcases; try done; f_equal; lia. }
    destruct (Z.eqb_spec n 0) as [->|Hn0]; [apply H0|]. destruct (Z.ltb_spec d s).
    + rewrite (copy_up_ok _ d s 0 m m) by (done || lia). f_equal. lia.
    + apply copy_down_ok; [lia..|]. intros b. zcases; try lia; done.
  - intros Hd a. unfold qos_memcpy. rewrite (copy_up_ok _ d s 0 m m) by (done || lia). f_equal. lia.
  - intros a. unfold qos_memset. rewrite memset_loop_ok by lia. by replace (d + 0 + Z.of_nat (Z.to_nat n)) with (d + n) by lia; rewrite Z.add_0_r.
  - intros la lb Hla Hlb Hd Hs. unfold qos_memcmp.
    rewrite (memcmp_loop_ok _ _ _ _ _ la lb); [|done|done|by rewrite Z.add_0_r..]. apply compare_blocks_order. congruence.
Qed.

Definition demo_mem : mem := λ x, nth (Z.to_nat (x - 100)) (bytes_of ",ab,,c" ++ 0 :: bytes_of ",") 0.

Lemma memory_blocks_exact_witness : qos_memmove 102 100 5 demo_mem 103 = copied 102 100 5 demo_mem 103.
Proof. apply (memory_blocks_exact 102 100 5 0 demo_mem). lia. Defined.

Lemma strncpy_holds d s n m l :
  cstr m s l → 0 <= n → disjoint_ranges d n s (Z.of_nat (length l) + 1) →
  holds (qos_strncpy (Some d) (Some s) n m) d (resize (Z.to_nat n) 0 l).
Proof.
  intros Hc Hn Hd. assert (∀ k i, (i + k = Z.to_nat n)%nat →
    holds (qos_strncpy (Some d) (Some s) n m) (d + Z.of_nat i) (drop i (resize (Z.to_nat n) 0 l))) as H.
  { induction k as [|k IH]; intros i Hi; [by rewrite drop_ge by (rewrite length_resize; lia)|].
    destruct (lookup_lt_is_Some_2 (resize (Z.to_nat n) 0 l) i) as [c E]; [rewrite length_resize; lia|].
    rewrite (drop_S _ c) by done. split.
    - rewrite (strncpy_ok d s n m l) by done. rewrite (proj2 (Z.leb_le _ _)), (proj2 (Z.ltb_lt _ _)) by lia. cbn [andb].
      replace (d + Z.of_nat i - d) with (Z.of_nat i) by lia. destruct (Z.ltb_spec (Z.of_nat i) (Z.of_nat (length l))).
      + rewrite lookup_resize in E by lia. rewrite Z.add_comm. apply (holds_lookup _ _ (l ++ [0])); [apply Hc|]. by rewrite lookup_app_l by lia.
      + rewrite lookup_resize_new in E by lia. by injection E.
    - replace (d + Z.of_nat i + 1) with (d + Z.of_nat (S i)) by lia. apply IH. lia. }
  specialize (H (Z.to_nat n) 0%nat ltac:(lia)). by rewrite Z.add_0_r in H.
Qed.

(** the string routines, for strings [la] and [lb] in memory.  qos_strlen counts,
    qos_strcmp and qos_strncmp are zero exactly on equal strings (prefixes) and
    negative exactly in dictionary order, qos_strcpy and qos_strncpy write the string
    (cut or filled with NULs to n bytes) and nothing else, qos_strchr and qos_strrchr
    find the first and the last place of a byte, the NUL included.  None of the loops
    runs past the NUL. *)
Theorem string_calls_exact fuel a b d n c m la lb :
  cstr m a la → cstr m b lb → (length la < fuel)%nat → 0 <= n →
  let size := Z.of_nat (length la) + 1 in
  qos_strlen fuel (Some a) m = Some (Z.of_nat (length la))
  ∧ (∃ r, qos_strcmp fuel a b m = Some r ∧ (r = 0 ↔ la = lb) ∧ (r < 0 ↔ before la lb))
  ∧ (let pa := take (Z.to_nat n) la in let pb := take (Z.to_nat n) lb in
     (qos_strncmp a b n m = 0 ↔ pa = pb) ∧ (qos_strncmp a b n m < 0 ↔ before pa pb))
  ∧ (disjoint_ranges d size a size →
     ∃ m', qos_strcpy fuel (Some d) (Some a) m = Some m' ∧ cstr m' d la ∧ ∀ x, ¬ (d <= x < d + size) → m' x = m x)
  ∧ (disjoint_ranges d n a size →
     let m' := qos_strncpy (Some d) (Some a) n m in
     holds m' d (resize (Z.to_nat n) 0 la) ∧ ∀ x, ¬ (d <= x < d + n) → m' x = m x)
  ∧ qos_strchr fuel (Some a) c m = Some ((λ k, a + Z.of_nat k) <$> first_index (λ x, x =? u8 c) (la ++ [0]))
  ∧ qos_strrchr fuel (Some a) c m = Some ((λ k, a + Z.of_nat k) <$> last_index (λ x, x =? u8 c) (la ++ [0])).
Proof.
  intros Ha Hb Hf Hn size. pose proof Ha as Ha0. pose proof Hb as Hb0. rewrite <- (Z.add_0_r a) in Ha0. rewrite <- (Z.add_0_r b) in Hb0.
  split; [unfold qos_strlen; by rewrite (strlen_loop_ok fuel 0 a m la)|].
  split; [eexists; split; [apply (strcmp_loop_ok fuel 0 a b m la lb); [done..|lia]|apply compare_text_order; [apply Ha|apply Hb]]|].
  split.
  { cbv zeta. unfold qos_strncmp. rewrite (strncmp_loop_ok _ _ _ _ _ la lb) by done.
    apply compare_text_order; apply Forall_take; [apply Ha|apply Hb]. }
  split.
  { intros Hd. destruct (strcpy_loop_ok fuel 0 d a m la) as (m' & E & Hm'); [done|by rewrite !Z.add_0_r|done|].
    rewrite !Z.add_0_r in Hm'. exists m'. split; [done|]. split.
    - apply (cstr_ext (copied d a size m)); [intros; apply Hm'|by apply copied_cstr].
    - intros x Hx. rewrite Hm'. fold size. unfold copied. zcases; try lia; done. }
  split.
  { intros Hd. split; [by apply strncpy_holds|]. intros x Hx. rewrite (strncpy_ok d a n m la) by done. zcases; try lia; done. }
  split.
  - unfold qos_strchr. rewrite (strchr_loop_ok _ _ _ _ _ la) by done. by rewrite Z.add_0_r.
  - unfold qos_strrchr. rewrite (strrchr_loop_ok _ _ _ _ _ _ la), Z.add_0_r by done. by destruct (last_index _ _).
Qed.

Lemma string_calls_exact_witness : qos_strlen 10 (Some 100) demo_mem = Some 6.
Proof.
  apply (string_calls_exact 10 100 100 200 4 98 demo_mem (bytes_of ",ab,,c") (bytes_of ",ab,,c")).
  - split; [by repeat constructor|]. by repeat split.
  - split; [by repeat constructor|]. by repeat split.
  - cbn. lia.
  - lia.
Defined.

(** C30: qos_strtok called until it returns NULL returns, in order, the words of the
    string: the longest runs of bytes that are not delimiters.  With no delimiters at
    all it returns NULL at once.  When the loop is over each pointer still leads to its
    word as a string, and nothing outside of the string was written.  The string and
    the delimiters do not overlap in memory, and the same delimiters are passed to
    every call. *)
Theorem strtok_yields_words calls fuel p delim save m l ds :
  cstr m p l → cstr m delim ds →
  disjoint_ranges p (Z.of_nat (length l) + 1) delim (Z.of_nat (length ds) + 1) →
  (length l < fuel)%nat → (length ds < fuel)%nat → (S (length l) < calls)%nat →
  ∃ ts m', strtok_all calls fuel (Some p) (Some delim) save m = Some (ts, m')
    ∧ Forall2 (cstr m') ts (if ds is [] then [] else words ds l) ∧ ∀ a, ¬ (p <= a < p + Z.of_nat (length l)) → m' a = m a.
Proof.
  intros Hl Hd Hdis Hf Hdf Hc. destruct ds as [|d ds].
  { destruct calls as [|calls]; [lia|]. cbn [strtok_all]. unfold qos_strtok. rewrite (proj1 (cstr_nil _ _) Hd). by exists [], m. }
  assert (strtok_all calls fuel (Some p) (Some delim) save m = strtok_all calls fuel None (Some delim) (Some p) m) as ->.
  { destruct calls; [done|]. cbn [strtok_all]. unfold qos_strtok. destruct (Z.eqb_spec (m delim) 0) as [E|]; [|done].
    apply cstr_cons in Hd as (? & ? & _). lia. }
  by apply strtok_all_ok.
Qed.

Lemma strtok_yields_words_witness :
  ∃ ts m', strtok_all 9 9 (Some 100) (Some 107) None demo_mem = Some (ts, m')
    ∧ Forall2 (cstr m') ts [bytes_of "ab"; bytes_of "c"] ∧ ∀ a, ¬ (100 <= a < 106) → m' a = demo_mem a.
Proof.
  apply (strtok_yields_words 9 9 100 107 None demo_mem (bytes_of ",ab,,c") (bytes_of ",")).
  - split; [by repeat constructor|]. by repeat split.
  - split; [by repeat constructor|]. by repeat split.
  - left. cbn. lia.
  - cbn. lia.
  - cbn. lia.
  - cbn. lia.
Defined.
