(* ===== verification/Cformat.v ===== *)
(** * Numbers and formatted output of the C library (c-os/libc/libc.c)

    qos_vsnprintf with its helpers, and the routines that read numbers back: qos_atoi
    and qos_inet_addr.  A string that is only read is the list of its bytes without
    the NUL.  Variable arguments are a list; [None] from the formatter means that an
    argument is missing or has another type than the conversion asks for, [None] from
    qos_atoi that an int overflows. *)

From S2P Require Import Prelude NameBuf Render.

(** ** Reading numbers *)

Definition is_space (c : Z) : bool :=
  (c =? 32) || (c =? 9) || (c =? 10) || (c =? 13) || (c =? 12) || (c =? 11).

Definition digit (c : Z) : bool := (48 <=? c) && (c <=? 57).

Definition INT_MAX : Z := 2 ^ 31 - 1.

Fixpoint skip_spaces (s : list Z) : list Z :=
  match s with c :: s' => if is_space c then skip_spaces s' else s | [] => [] end.

(** [value = value * 10 + (int)(s[i] - '0');] while there are digits. *)
Fixpoint atoi_digits (value : Z) (s : list Z) : option Z :=
  match s with
  | c :: s' =>
      if digit c then
        let v := value * 10 + (c - 48) in
        if INT_MAX <? v then None else atoi_digits v s'
      else Some value
  | [] => Some value
  end.

Definition qos_atoi (s : option (list Z)) : option Z :=
  match s with
  | None => Some 0
  | Some s =>
      let s1 := skip_spaces s in
      let '(sign, s2) :=
        match s1 with
        | c :: s' => if c =? 43 then (1, s') else if c =? 45 then (-1, s') else (1, s1)
        | [] => (1, s1)
        end in
      (λ value, sign * value) <$> atoi_digits 0 s2
  end.

Definition qos_htons (v : Z) : Z := u16 (Z.lor (Z.shiftl v 8) (Z.shiftr v 8)).

Definition qos_htonl (v : Z) : Z :=
  Z.lor (Z.lor (Z.lor (u32 (Z.shiftl (Z.land v 255) 24)) (u32 (Z.shiftl (Z.land v 65280) 8)))
               (Z.shiftr (Z.land v 16711680) 8))
        (Z.shiftr (Z.land v 4278190080) 24).

Definition qos_ntohs (v : Z) : Z := qos_htons v.
Definition qos_ntohl (v : Z) : Z := qos_htonl v.

Definition INADDR_NONE : Z := 2 ^ 32 - 1.

(** The inner loop of qos_inet_addr: the number and what follows it; [None] above 255. *)
Fixpoint octet (value : Z) (s : list Z) : option (Z * list Z) :=
  match s with
  | c :: s' =>
      if digit c then
        let v := u32 (u32 (value * 10) + (c - 48)) in
        if 255 <? v then None else octet v s'
      else Some (value, s)
  | [] => Some (value, [])
  end.

(** The outer loop, with [k] entries of [parts] left; [None] is the early return. *)
Fixpoint addr_loop (k : nat) (parts s : list Z) : option (list Z * list Z) :=
  match k, s with
  | O, _ | _, [] => Some (parts, s)
  | S k', c :: _ =>
      if negb (digit c) then None
      else
        match octet 0 s with
        | None => None
        | Some (value, s1) =>
            match s1 with
            | [] => addr_loop k' (parts ++ [value]) []
            | c1 :: s2 => if c1 =? 46 then addr_loop k' (parts ++ [value]) s2 else None
            end
        end
  end.

Definition qos_inet_addr (s : option (list Z)) : Z :=
  match s with
  | None => INADDR_NONE
  | Some s =>
      match addr_loop 4 [] s with
      | Some ([p0; p1; p2; p3], []) =>
          Z.lor (Z.lor (Z.lor (u32 (Z.shiftl p0 24)) (u32 (Z.shiftl p1 16))) (u32 (Z.shiftl p2 8))) p3
      | _ => INADDR_NONE
      end
  end.

(** ** Formatting *)

Inductive arg :=
  | AInt (v : Z)
  | AUint (v : Z)
  | AStr (s : option (list Z))
  | APtr (v : Z).

(** [dst], [out - dst], [remaining] and [total]. *)
Record fmt := { f_buf : list Z; f_out : nat; f_remaining : Z; f_total : Z }.

Definition qos_libc_fmt_putc (ch : Z) (f : fmt) : fmt :=
  if 1 <? f_remaining f
  then {| f_buf := <[f_out f := ch]> (f_buf f); f_out := S (f_out f); f_remaining := f_remaining f - 1; f_total := i32 (f_total f + 1) |}
  else {| f_buf := f_buf f; f_out := f_out f; f_remaining := f_remaining f; f_total := i32 (f_total f + 1) |}.

Definition putc_all (s : list Z) (f : fmt) : fmt := foldl (λ f c, qos_libc_fmt_putc c f) f s.

Definition qos_libc_fmt_puts (s : option (list Z)) (f : fmt) : fmt := putc_all (default (bytes_of "(null)") s) f.

Definition base_digit (upper : bool) (d : Z) : Z :=
  nth (Z.to_nat d) (bytes_of (if upper then "0123456789ABCDEF" else "0123456789abcdef")) 0.

Fixpoint to_base_loop (room : nat) (value base : Z) (upper : bool) : list Z :=
  match room with
  | O => []
  | S room' => if value =? 0 then [] else base_digit upper (value mod base) :: to_base_loop room' (value / base) base upper
  end.

(** The bytes of [tmp] that are used, least significant digit first. *)
Definition qos_libc_u64_to_base (value base : Z) (cap : nat) (upper : bool) : list Z :=
  if (cap =? 0)%nat || (base <? 2) || (16 <? base) then []
  else if value =? 0 then [48]
  else to_base_loop cap value base upper.

(** [j = n; while (j > 0) { j--; putc(tmp[j]); }] *)
Definition put_number (value base : Z) (f : fmt) : fmt := putc_all (reverse (qos_libc_u64_to_base value base 32 false)) f.

(** One conversion [%d]... with the arguments that are left. *)
Definition conversion (d : Z) (ap : list arg) (f : fmt) : option (list arg * fmt) :=
  if d =? 37 then Some (ap, qos_libc_fmt_putc 37 f)
  else if d =? 100 then
    match ap with
    | AInt v :: ap' => Some (ap', if v <? 0 then put_number (u64 (- v)) 10 (qos_libc_fmt_putc 45 f) else put_number v 10 f)
    | _ => None
    end
  else if d =? 117 then match ap with AUint v :: ap' => Some (ap', put_number v 10 f) | _ => None end
  else if d =? 120 then match ap with AUint v :: ap' => Some (ap', put_number v 16 f) | _ => None end
  else if d =? 99 then match ap with AInt v :: ap' => Some (ap', qos_libc_fmt_putc (u8 v) f) | _ => None end
  else if d =? 115 then match ap with AStr s :: ap' => Some (ap', qos_libc_fmt_puts s f) | _ => None end
  else if d =? 112 then
    match ap with
    | APtr v :: ap' => Some (ap', put_number v 16 (qos_libc_fmt_putc 120 (qos_libc_fmt_putc 48 f)))
    | _ => None
    end
  else Some (ap, qos_libc_fmt_putc d (qos_libc_fmt_putc 37 f)).

(** The loop over the format. *)
Fixpoint format_loop (s : list Z) (ap : list arg) (f : fmt) : option fmt :=
  match s with
  | [] => Some f
  | c :: s1 =>
      if negb (c =? 37) then format_loop s1 ap (qos_libc_fmt_putc c f)
      else match s1 with
           | [] => Some f
           | d :: s2 => match conversion d ap f with Some (ap', f') => format_loop s2 ap' f' | None => None end
           end
  end.

(** [dst] is the [len] bytes at the destination, [None] for NULL.  The value returned
    and the destination. *)
Definition qos_vsnprintf (dst : option (list Z)) (len : Z) (s : option (list Z)) (ap : list arg) : option (Z * option (list Z)) :=
  match s with
  | None => Some (-1, dst)
  | Some s =>
      match dst with
      | None =>
          if 0 <? len then Some (-1, None)
          else match format_loop s ap {| f_buf := []; f_out := 0; f_remaining := len; f_total := 0 |} with
               | Some f => Some (f_total f, None)
               | None => None
               end
      | Some b =>
          let b0 := if 0 <? len then <[0%nat := 0]> b else b in
          match format_loop s ap {| f_buf := b0; f_out := 0; f_remaining := len; f_total := 0 |} with
          | None => None
          | Some f =>
              Some (f_total f,
                    Some (if 0 <? len then
                            if 0 <? f_remaining f then <[f_out f := 0]> (f_buf f) else <[Z.to_nat (len - 1) := 0]> (f_buf f)
                          else f_buf f))
          end
      end
  end.

Definition qos_snprintf (dst : option (list Z)) (len : Z) (s : option (list Z)) (ap : list arg) : option (Z * option (list Z)) :=
  match s, dst with
  | None, _ => Some (-1, dst)
  | Some _, None => if 0 <? len then Some (-1, None) else qos_vsnprintf dst len s ap
  | Some _, Some _ => qos_vsnprintf dst len s ap
  end.

(** The pointer returned ([true] for [out]) and the buffer. *)
Definition qos_inet_ntoa (addr : Z) (out : option (list Z)) (out_len : Z) : option (bool * option (list Z)) :=
  let a := Z.land (Z.shiftr addr 24) 255 in
  let b := Z.land (Z.shiftr addr 16) 255 in
  let c := Z.land (Z.shiftr addr 8) 255 in
  let d := Z.land addr 255 in
  match out with
  | None => Some (false, None)
  | Some _ =>
      if out_len =? 0 then Some (false, out)
      else
        match qos_snprintf out out_len (Some (bytes_of "%u.%u.%u.%u")) [AUint a; AUint b; AUint c; AUint d] with
        | None => None
        | Some (wrote, out1) =>
            if (wrote <? 0) || (out_len <=? wrote) then Some (false, out1)
            else Some (true, (λ o, <[Z.to_nat (out_len - 1) := 0]> o) <$> out1)
        end
  end.

(** [g_qos_errno], one per thread, before and after. *)
Definition qos_errno_set (err g_qos_errno : Z) : Z := err.
Definition qos_errno_get (g_qos_errno : Z) : Z := g_qos_errno.

Definition qos_strerror (err : Z) : list Z :=
  bytes_of
    (if err =? 0 then "Success"
     else if err =? 2 then "No such file or directory"
     else if err =? 9 then "Bad file descriptor"
     else if err =? 11 then "Resource temporarily unavailable"
     else if err =? 12 then "Out of memory"
     else if err =? 13 then "Permission denied"
     else if err =? 17 then "File exists"
     else if err =? 20 then "Not a directory"
     else if err =? 21 then "Is a directory"
     else if err =? 22 then "Invalid argument"
     else if err =? 32 then "Broken pipe"
     else if err =? 110 then "Connection timed out"
     else if err =? 111 then "Connection refused"
     else "Unknown error").

(** ** What is printed *)

Definition number (value base : Z) : list Z := reverse (qos_libc_u64_to_base value base 32 false).

Definition signed_number (v : Z) : list Z := if v <? 0 then 45 :: number (- v) 10 else number v 10.

(** The text of one conversion. *)
Definition conversion_text (d : Z) (ap : list arg) : option (list arg * list Z) :=
  if d =? 37 then Some (ap, [37])
  else if d =? 100 then match ap with AInt v :: ap' => Some (ap', signed_number v) | _ => None end
  else if d =? 117 then match ap with AUint v :: ap' => Some (ap', number v 10) | _ => None end
  else if d =? 120 then match ap with AUint v :: ap' => Some (ap', number v 16) | _ => None end
  else if d =? 99 then match ap with AInt v :: ap' => Some (ap', [u8 v]) | _ => None end
  else if d =? 115 then match ap with AStr s :: ap' => Some (ap', default (bytes_of "(null)") s) | _ => None end
  else if d =? 112 then match ap with APtr v :: ap' => Some (ap', bytes_of "0x" ++ number v 16) | _ => None end
  else Some (ap, [37; d]).

(** The text a format and its arguments stand for. *)
Fixpoint expansion (s : list Z) (ap : list arg) : option (list Z) :=
  match s with
  | [] => Some []
  | c :: s1 =>
      if negb (c =? 37) then (λ t, c :: t) <$> expansion s1 ap
      else match s1 with
           | [] => Some []
           | d :: s2 => match conversion_text d ap with
                        | Some (ap', t) => (λ t', t ++ t') <$> expansion s2 ap'
                        | None => None
                        end
           end
  end.

(** Arguments of their C types. *)
Definition arg_ok (a : arg) : Prop :=
  match a with
  | AInt v => - 2 ^ 31 <= v < 2 ^ 31
  | AUint v => in_width 32 v
  | AStr _ => True
  | APtr v => in_width 64 v
  end.

(** The formatter after the text [u], in a buffer of [n] bytes that held [b]. *)
Definition shown (n : nat) (b u : list Z) : fmt :=
  {| f_buf := overlay n u b; f_out := Nat.min (length u) (n - 1);
     f_remaining := Z.of_nat n - Z.of_nat (Nat.min (length u) (n - 1)); f_total := Z.of_nat (length u) |}.

Lemma putc_shown n b u c :
  length b = n → Z.of_nat (length u) + 1 < 2 ^ 31 → qos_libc_fmt_putc c (shown n b u) = shown n b (u ++ [c]).
Proof.
  intros Hb Hu. unfold qos_libc_fmt_putc, shown. cbn [f_buf f_out f_remaining f_total].
  rewrite sext_small, length_app by lia. cbn [length].
  replace (Z.of_nat (length u) + 1) with (Z.of_nat (length u + 1)) by lia. destruct (Z.ltb_spec 1 (Z.of_nat n - Z.of_nat (Nat.min (length u) (n - 1)))).
  - rewrite overlay_snoc by lia. rewrite !Nat.min_l by lia. f_equal; lia.
  - rewrite overlay_full by lia. f_equal; lia.
Qed.

Lemma putc_all_shown n b u t :
  length b = n → Z.of_nat (length u + length t) < 2 ^ 31 → putc_all t (shown n b u) = shown n b (u ++ t).
Proof.
  intros Hb. unfold putc_all. revert u. induction t as [|c t IH]; intros u Hu; cbn [foldl length] in *; [by rewrite app_nil_r|].
  rewrite putc_shown by (done || lia). rewrite IH by (rewrite length_app; cbn [length]; lia). by rewrite <- app_assoc.
Qed.

Lemma putc_is_all c f : qos_libc_fmt_putc c f = putc_all [c] f.
Proof. done. Qed.

Lemma putc_all_app s t f : putc_all t (putc_all s f) = putc_all (s ++ t) f.
Proof. unfold putc_all. by rewrite foldl_app. Qed.

(** Each conversion prints its text. *)
Lemma conversion_puts d ap f :
  Forall arg_ok ap → conversion d ap f = (λ '(ap', t), (ap', putc_all t f)) <$> conversion_text d ap.
Proof.
  intros Hap. unfold conversion, conversion_text, qos_libc_fmt_puts, put_number, signed_number, number.
  rewrite !putc_is_all, !putc_all_app. cbn [app]. destruct (d =? 37); [done|]. destruct (d =? 100).
  { destruct ap as [|[v| | |] ap]; [done| |done..]. apply Forall_cons in Hap as [Hv _]. cbn [arg_ok] in Hv. cbn [fmap option_fmap option_map].
    destruct (Z.ltb_spec v 0); [|done]. rewrite wrap_small by (unfold in_width; lia). by rewrite ?putc_is_all, ?putc_all_app. }
  repeat match goal with |- context [if ?d =? ?k then _ else _] => destruct (d =? k); [by destruct ap as [|[] ?]|] end.
  done.
Qed.

Lemma conversion_text_rest d ap ap' t : conversion_text d ap = Some (ap', t) → Forall arg_ok ap → Forall arg_ok ap'.
Proof.
  unfold conversion_text. intros E H. destruct ap as [|a ap]; [|apply Forall_cons in H as [? ?]];
    repeat match type of E with context [if ?d =? ?k then _ else _] => destruct (d =? k) end;
    try destruct a; simplify_eq; try done; by constructor.
Qed.

Lemma format_loop_puts s ap f :
  Forall arg_ok ap → format_loop s ap f = (λ t, putc_all t f) <$> expansion s ap.
Proof.
  revert ap f. induction s as [s IH] using (well_founded_induction (well_founded_ltof _ (@length Z))). unfold ltof in IH.
  intros ap f Hap. destruct s as [|c s1]; [done|]. cbn [format_loop expansion]. destruct (negb (c =? 37)).
  { rewrite IH by (cbn; lia || done). destruct (expansion s1 ap); [|done]. cbn. by rewrite putc_is_all, putc_all_app. }
  destruct s1 as [|d s2]; [done|]. rewrite conversion_puts by done. destruct (conversion_text d ap) as [[ap' t]|] eqn:E; [|done].
  cbn [fmap option_fmap option_map]. rewrite IH; [|cbn; lia|by apply (conversion_text_rest d ap ap' t)].
  destruct (expansion s2 ap'); [|done]. cbn. by rewrite putc_all_app.
Qed.

(** The whole of qos_vsnprintf. *)
Lemma vsnprintf_spec b s ap t :
  Forall arg_ok ap → expansion s ap = Some t → Z.of_nat (length t) < 2 ^ 31 →
  qos_vsnprintf (Some b) (Z.of_nat (length b)) (Some s) ap
  = Some (Z.of_nat (length t),
          Some (if (length b =? 0)%nat then b
                else let n := Nat.min (length t) (length b - 1) in take n t ++ 0 :: drop (S n) b)).
Proof.
  intros Hap Et Hl. unfold qos_vsnprintf. set (b0 := if 0 <? _ then _ else b).
  assert (length b0 = length b) as Hb0 by (unfold b0; destruct (0 <? _); [apply length_insert|done]).
  assert ({| f_buf := b0; f_out := 0; f_remaining := Z.of_nat (length b); f_total := 0 |} = shown (length b) b0 []) as ->.
  { unfold shown, overlay. cbn. f_equal. lia. }
  rewrite format_loop_puts, Et by done. cbn [fmap option_fmap option_map]. rewrite putc_all_shown by (done || (cbn; lia)).
  cbn [app shown f_total f_buf f_remaining f_out]. f_equal. f_equal. f_equal. destruct (Nat.eqb_spec (length b) 0) as [E|E].
  { apply nil_length_inv in E as ->. cbn. unfold b0, overlay. cbn. by rewrite Nat.min_0_r. }
  rewrite (proj2 (Z.ltb_lt 0 _)), (proj2 (Z.ltb_lt 0 _)) by lia. unfold overlay. set (n := Nat.min (length t) (length b - 1)).
  assert (drop (S n) b0 = drop (S n) b) as Ed.
  { unfold b0. rewrite (proj2 (Z.ltb_lt 0 _)) by lia. by rewrite drop_insert_lt by lia. }
  destruct (drop n b0) as [|x rest] eqn:E1; [apply (f_equal length) in E1; rewrite length_drop in E1; cbn in E1; lia|].
  rewrite insert_app_r_alt by (rewrite length_take; lia). rewrite length_take, (Nat.min_l n) by lia. rewrite Nat.sub_diag. cbn.
  f_equal. f_equal. by rewrite <- Ed, <- Nat.add_1_r, <- drop_drop, E1.
Qed.

(** ** Reading back *)

Lemma base_digit_ten d : 0 <= d < 10 → base_digit false d = 48 + d.
Proof.
  intros Hd. assert (∀ k, (k < 10)%nat → base_digit false (Z.of_nat k) = 48 + Z.of_nat k) as H.
  { intros k Hk. do 10 (destruct k as [|k]; [done|]). lia. }
  specialize (H (Z.to_nat d) ltac:(lia)). by rewrite Z2Nat.id in H by lia.
Qed.

Lemma to_base_ten room v : 0 <= v → to_base_loop room v 10 false = digits room v.
Proof.
  revert v. induction room as [|room IH]; intros v Hv; [done|]. cbn [to_base_loop digits]. destruct (v =? 0); [done|].
  rewrite base_digit_ten, IH; [done|apply Z.div_pos; lia|apply Z.mod_pos_bound; lia].
Qed.

(** A decimal number reads back as itself; it has digits only, and at least one. *)
Lemma number_ten v :
  0 <= v < 2 ^ 64 → parse (number v 10) = v ∧ Forall is_digit (number v 10) ∧ number v 10 ≠ [].
Proof.
  intros Hv. unfold number, qos_libc_u64_to_base. cbn [Nat.eqb orb Z.ltb Z.compare Pos.compare Pos.compare_cont].
  destruct (Z.eqb_spec v 0) as [->|Hne]; [by repeat split; repeat constructor|]. rewrite to_base_ten by lia.
  destruct (digits_parse 32 v ltac:(lia)) as [Hp Hd]. split; [done|]. split; [by apply Forall_reverse|].
  intros E. apply (f_equal length) in E. rewrite length_reverse in E. pose proof (digits_pos 32 v ltac:(lia) ltac:(lia)) as Hl. rewrite E in Hl. cbn in Hl. lia.
Qed.

Lemma number_ten_length k v : 0 <= v < 10 ^ Z.of_nat k → (0 < k)%nat → (length (number v 10) <= k)%nat.
Proof.
  intros Hv Hk. unfold number, qos_libc_u64_to_base. cbn [Nat.eqb orb Z.ltb Z.compare Pos.compare Pos.compare_cont].
  destruct (Z.eqb_spec v 0) as [->|Hne]; [cbn; lia|]. rewrite to_base_ten, length_reverse by lia. by apply digits_length.
Qed.

Lemma digit_true c : is_digit c → digit c = true.
Proof. intros [H1 H2]. unfold digit. by rewrite (proj2 (Z.leb_le _ _) H1), (proj2 (Z.leb_le _ _) H2). Qed.

(** Reading on from [v]. *)
Definition parse_from (v : Z) (ds : list Z) : Z := foldl (λ v d, v * 10 + (d - 48)) v ds.

Lemma parse_from_ge v ds : Forall is_digit ds → 0 <= v → v <= parse_from v ds.
Proof.
  intros H. revert v. induction H as [|d ds Hd _ IH]; intros v Hv; cbn; [lia|]. unfold is_digit in Hd.
  specialize (IH (v * 10 + (d - 48)) ltac:(lia)). unfold parse_from in IH. lia.
Qed.

Lemma atoi_digits_ok v ds :
  Forall is_digit ds → 0 <= v <= INT_MAX →
  atoi_digits v ds = if parse_from v ds <=? INT_MAX then Some (parse_from v ds) else None.
Proof.
  intros H. revert v. induction H as [|d ds Hd Hds IH]; intros v Hv; cbn [atoi_digits].
  { cbn. by rewrite (proj2 (Z.leb_le _ _)) by lia. }
  rewrite digit_true by done. cbv zeta. unfold is_digit in Hd. destruct (Z.ltb_spec INT_MAX (v * 10 + (d - 48))) as [Hlt|Hle].
  - rewrite (proj2 (Z.leb_gt _ _)); [done|]. pose proof (parse_from_ge (v * 10 + (d - 48)) ds Hds ltac:(lia)).
    change (parse_from v (d :: ds)) with (parse_from (v * 10 + (d - 48)) ds). lia.
  - rewrite IH by lia. done.
Qed.

Lemma octet_ok v ds r :
  Forall is_digit ds → (∀ c r', r = c :: r' → digit c = false) → 0 <= v → parse_from v ds <= 255 →
  octet v (ds ++ r) = Some (parse_from v ds, r).
Proof.
  intros H Hr. revert v. induction H as [|d ds Hd Hds IH]; intros v Hv Hp; cbn [octet app].
  { destruct r as [|c r]; [done|]. cbn. by rewrite (Hr c r eq_refl). }
  rewrite digit_true by done. cbv zeta. unfold is_digit in Hd. change (parse_from v (d :: ds)) with (parse_from (v * 10 + (d - 48)) ds) in *.
  pose proof (parse_from_ge (v * 10 + (d - 48)) ds Hds ltac:(lia)).
  rewrite !wrap_small by (rewrite ?wrap_small; unfold in_width; lia). rewrite (proj2 (Z.ltb_ge _ _)) by lia. by apply IH; [lia|].
Qed.

(** One number of a dotted address. *)
Lemma addr_loop_step k parts v r :
  0 <= v < 256 → (r = [] ∨ ∃ r', r = 46 :: r') →
  addr_loop (S k) parts (number v 10 ++ r) = addr_loop k (parts ++ [v]) (tail r).
Proof.
  intros Hv Hr. destruct (number_ten v ltac:(lia)) as (Hp & Hd & Hne). cbn [addr_loop].
  pose proof (octet_ok 0 (number v 10) r Hd) as Ho. change (parse_from 0 (number v 10)) with (parse (number v 10)) in Ho.
  rewrite Hp in Ho. destruct (number v 10) as [|c ds]; [done|]. apply Forall_cons in Hd as [Hc _]. cbn [app] in *.
  rewrite digit_true by done. cbn [negb]. rewrite Ho; [|by destruct Hr as [->|[r' ->]]; [|intros ? ? [= <- _]]|lia|lia].
  by destruct Hr as [->|[r' ->]].
Qed.

Definition dotted (a b c d : Z) : list Z :=
  number a 10 ++ 46 :: number b 10 ++ 46 :: number c 10 ++ 46 :: number d 10.

Lemma addr_loop_dotted a b c d r :
  0 <= a < 256 → 0 <= b < 256 → 0 <= c < 256 → 0 <= d < 256 → (r = [] ∨ ∃ r', r = 46 :: r') →
  addr_loop 4 [] (dotted a b c d ++ r) = Some ([a; b; c; d], tail r).
Proof.
  intros Ha Hb Hc Hd Hr. unfold dotted. repeat (rewrite <- app_assoc; cbn [app]).
  rewrite (addr_loop_step 3 [] a) by (done || (right; by eexists)). cbn [tail app].
  rewrite (addr_loop_step 2 [a] b) by (done || (right; by eexists)). cbn [tail app].
  rewrite (addr_loop_step 1 [a; b] c) by (done || (right; by eexists)). cbn [tail app].
  by rewrite (addr_loop_step 0 [a; b; c] d) by done.
Qed.

(** Four octets in one word. *)
Lemma pack_octets a b c d :
  in_width 8 a → in_width 8 b → in_width 8 c → in_width 8 d →
  Z.lor (Z.lor (Z.lor (u32 (Z.shiftl a 24)) (u32 (Z.shiftl b 16))) (u32 (Z.shiftl c 8))) d
  = ((a * 256 + b) * 256 + c) * 256 + d.
Proof.
  unfold in_width. intros Ha Hb Hc Hd. rewrite !wrap_small by (unfold in_width; rewrite Z.shiftl_mul_pow2 by lia; lia).
  change 24 with (8 + 8 + 8). change 16 with (8 + 8). rewrite <- !Z.shiftl_shiftl, <- !Z.shiftl_lor by lia.
  rewrite (Z.lor_comm _ d), lor_low by (done || lia). rewrite (Z.lor_comm _ c), lor_low by (done || lia).
  rewrite (Z.lor_comm _ b), lor_low by (done || lia). lia.
Qed.

Lemma low_octet x : Z.land x 255 = x mod 256.
Proof. change 255 with (Z.ones 8). by rewrite Z.land_ones by lia. Qed.

Lemma expansion_dotted a b c d :
  expansion (bytes_of "%u.%u.%u.%u") [AUint a; AUint b; AUint c; AUint d] = Some (dotted a b c d).
Proof. unfold dotted. rewrite <- (app_nil_r (number d 10)). reflexivity. Qed.

Lemma dotted_length a b c d :
  0 <= a < 256 → 0 <= b < 256 → 0 <= c < 256 → 0 <= d < 256 → (length (dotted a b c d) <= 15)%nat.
Proof.
  intros Ha Hb Hc Hd. unfold dotted. repeat (rewrite length_app; cbn [length]).
  pose proof (number_ten_length 3 a ltac:(lia) ltac:(lia)). pose proof (number_ten_length 3 b ltac:(lia) ltac:(lia)).
  pose proof (number_ten_length 3 c ltac:(lia) ltac:(lia)). pose proof (number_ten_length 3 d ltac:(lia) ltac:(lia)). lia.
Qed.

Lemma dotted_text a b c d :
  0 <= a < 256 → 0 <= b < 256 → 0 <= c < 256 → 0 <= d < 256 → 0 ∉ dotted a b c d.
Proof.
  intros Ha Hb Hc Hd. assert (∀ v, 0 <= v < 256 → 0 ∉ number v 10) as H.
  { intros v Hv Hin. destruct (number_ten v ltac:(lia)) as (_ & Hdg & _). rewrite Forall_forall in Hdg.
    specialize (Hdg 0 Hin). unfold is_digit in Hdg. lia. }
  unfold dotted. repeat (rewrite elem_of_app || rewrite elem_of_cons).
  pose proof (H a Ha). pose proof (H b Hb). pose proof (H c Hc). pose proof (H d Hd). naive_solver lia.
Qed.

(** C31: qos_snprintf writes the text of its format and arguments, cut to the buffer:
    the first bytes of the text, at most one less than the buffer has, then a NUL, and
    the rest of the buffer stays as it was.  The value returned is the length of the
    whole text, also when it was cut and when there is no buffer at all.  The whole
    text has fewer than 2^31 bytes. *)
Theorem snprintf_truncates b s ap t :
  Forall arg_ok ap → expansion s ap = Some t → Z.of_nat (length t) < 2 ^ 31 →
  (let n := Nat.min (length t) (length b - 1) in
   qos_snprintf (Some b) (Z.of_nat (length b)) (Some s) ap
   = Some (Z.of_nat (length t), Some (if (length b =? 0)%nat then b else take n t ++ 0 :: drop (S n) b)))
  ∧ qos_snprintf None 0 (Some s) ap = Some (Z.of_nat (length t), None).
Proof.
  intros Hap Et Hl. split; [by apply vsnprintf_spec|]. unfold qos_snprintf, qos_vsnprintf. cbn [Z.ltb Z.compare].
  change {| f_buf := []; f_out := 0; f_remaining := 0; f_total := 0 |} with (shown 0 [] []).
  rewrite format_loop_puts, Et by done. cbn [fmap option_fmap option_map]. by rewrite putc_all_shown by (done || (cbn; lia)).
Qed.

Lemma snprintf_truncates_witness :
  qos_snprintf (Some (replicate 6 9)) 6 (Some (bytes_of "%s=%d")) [AStr (Some (bytes_of "x")); AInt (-1234)]
  = Some (7, Some (bytes_of "x=-12" ++ [0])).
Proof.
  apply (snprintf_truncates (replicate 6 9) (bytes_of "%s=%d") [AStr (Some (bytes_of "x")); AInt (-1234)] (bytes_of "x=-1234")).
  - repeat constructor; cbn; lia.
  - reflexivity.
  - cbn. lia.
Defined.

(** an address printed by qos_inet_ntoa into 16 bytes or more is a string that
    qos_inet_addr reads back as the same address. *)
Theorem inet_roundtrip addr b :
  in_width 32 addr → (16 <= length b)%nat →
  ∃ b', qos_inet_ntoa addr (Some b) (Z.of_nat (length b)) = Some (true, Some b')
      ∧ length b' = length b ∧ qos_inet_addr (Some (c_string b')) = addr.
Proof.
  intros Ha Hb. unfold in_width in Ha. unfold qos_inet_ntoa. rewrite (proj2 (Z.eqb_neq (Z.of_nat (length b)) 0)) by lia.
  rewrite !low_octet, !Z.shiftr_div_pow2 by lia.
  set (p0 := addr / 2 ^ 24 mod 256). set (p1 := addr / 2 ^ 16 mod 256). set (p2 := addr / 2 ^ 8 mod 256). set (p3 := addr mod 256).
  assert (∀ x, 0 <= x mod 256 < 256) as Hm by (intros x; apply Z.mod_pos_bound; lia).
  pose proof (dotted_length p0 p1 p2 p3 (Hm _) (Hm _) (Hm _) (Hm _)) as Hl. pose proof (dotted_text p0 p1 p2 p3 (Hm _) (Hm _) (Hm _) (Hm _)) as Ht.
  assert (∀ x, arg_ok (AUint (x mod 256))) as Hu by (intros x; specialize (Hm x); cbn; unfold in_width; lia).
  unfold qos_snprintf. rewrite (vsnprintf_spec b _ _ (dotted p0 p1 p2 p3)); [|repeat (apply Forall_cons; split; [apply Hu|]); apply Forall_nil_2|apply expansion_dotted|lia].
  rewrite (proj2 (Z.ltb_ge _ 0)), (proj2 (Z.leb_gt (Z.of_nat (length b)) _)), (proj2 (Nat.eqb_neq _ _)) by lia. cbn [orb fmap option_fmap option_map].
  cbv zeta. rewrite Nat.min_l, take_ge by lia. eexists. split; [reflexivity|]. split.
  { rewrite length_insert, length_app. cbn [length]. rewrite length_drop. lia. }
  rewrite insert_app_r_alt by lia. replace (Z.to_nat (Z.of_nat (length b) - 1) - length (dotted p0 p1 p2 p3))%nat
    with (length b - 1 - length (dotted p0 p1 p2 p3))%nat by lia.
  assert (∃ r, <[(length b - 1 - length (dotted p0 p1 p2 p3))%nat := 0]> (0 :: drop (S (length (dotted p0 p1 p2 p3))) b) = 0 :: r) as [r ->].
  { destruct (_ - _ - _)%nat; by eexists. }
  rewrite c_string_app by done. unfold qos_inet_addr. rewrite <- (app_nil_r (dotted p0 p1 p2 p3)), addr_loop_dotted by (apply Hm || by left).
  cbn [tail]. rewrite pack_octets by apply Hm. unfold p0, p1, p2, p3. Z.to_euclidean_division_equations. lia.
Qed.

Lemma inet_roundtrip_witness :
  ∃ b', qos_inet_ntoa 3232235777 (Some (replicate 16 7)) 16 = Some (true, Some b')
      ∧ length b' = 16%nat ∧ qos_inet_addr (Some (c_string b')) = 3232235777.
Proof. apply (inet_roundtrip 3232235777 (replicate 16 7)); [unfold in_width; lia|cbn; lia]. Defined.

(** An address with one dot too many is accepted. *)
Theorem inet_addr_trailing_dot a b c d :
  0 <= a < 256 → 0 <= b < 256 → 0 <= c < 256 → 0 <= d < 256 →
  qos_inet_addr (Some (dotted a b c d ++ bytes_of ".")) = ((a * 256 + b) * 256 + c) * 256 + d.
Proof.
  intros Ha Hb Hc Hd. unfold qos_inet_addr. rewrite addr_loop_dotted by (done || (right; by exists [])). cbn [tail]. by apply pack_octets.
Qed.

(** qos_atoi reads the int that [%d] printed, for every int but the smallest: the
    digits of INT_MIN overflow while they are read, before the sign is applied. *)
Theorem atoi_reads_printed v b :
  - 2 ^ 31 <= v < 2 ^ 31 → (12 <= length b)%nat →
  ∃ n b', qos_snprintf (Some b) (Z.of_nat (length b)) (Some (bytes_of "%d")) [AInt v] = Some (n, Some b')
        ∧ n = Z.of_nat (length (c_string b'))
        ∧ qos_atoi (Some (c_string b')) = if v =? - 2 ^ 31 then None else Some v.
Proof.
  intros Hv Hb. destruct (number_ten (Z.abs v) ltac:(lia)) as (Hp & Hd & Hne).
  pose proof (number_ten_length 10 (Z.abs v) ltac:(lia) ltac:(lia)) as Hl.
  assert (signed_number v = if v <? 0 then 45 :: number (Z.abs v) 10 else number (Z.abs v) 10) as Es.
  { unfold signed_number. destruct (Z.ltb_spec v 0); [by rewrite Z.abs_neq by lia|by rewrite Z.abs_eq by lia]. }
  assert (length (signed_number v) <= 11)%nat as Hls by (rewrite Es; destruct (v <? 0); cbn [length]; lia).
  assert (0 ∉ signed_number v) as Hz.
  { rewrite Es. assert (0 ∉ number (Z.abs v) 10) by (intros Hin; rewrite Forall_forall in Hd; specialize (Hd 0 Hin); unfold is_digit in Hd; lia).
    destruct (v <? 0); [|done]. by apply not_elem_of_cons. }
  unfold qos_snprintf. rewrite (vsnprintf_spec b _ _ (signed_number v)); [|by apply Forall_singleton|by rewrite <- (app_nil_r (signed_number v))|lia].
  rewrite (proj2 (Nat.eqb_neq _ _)) by lia. cbv zeta. rewrite Nat.min_l, take_ge by lia. eexists _, _. split; [reflexivity|].
  rewrite c_string_app by done. split; [done|]. unfold qos_atoi. rewrite Es.
  pose proof (atoi_digits_ok 0 (number (Z.abs v) 10) Hd ltac:(unfold INT_MAX; lia)) as Ha.
  change (parse_from 0 (number (Z.abs v) 10)) with (parse (number (Z.abs v) 10)) in Ha. rewrite Hp in Ha. unfold INT_MAX in Ha.
  destruct (Z.ltb_spec v 0).
  - cbn -[atoi_digits number Z.abs Z.mul Z.pow]. rewrite Ha. destruct (Z.eqb_spec v (- 2 ^ 31)).
    + by rewrite (proj2 (Z.leb_gt _ _)) by lia.
    + rewrite (proj2 (Z.leb_le _ _)) by lia. cbn -[Z.abs Z.mul]. f_equal. lia.
  - destruct (number (Z.abs v) 10) as [|c ds]; [done|]. apply Forall_cons in Hd as [Hc _]. unfold is_digit in Hc.
    cbn [skip_spaces]. assert (is_space c = false) as -> by (unfold is_space; rewrite !(proj2 (Z.eqb_neq c _)) by lia; done).
    rewrite (proj2 (Z.eqb_neq c 43)), (proj2 (Z.eqb_neq c 45)), Ha, (proj2 (Z.leb_le _ _)), (proj2 (Z.eqb_neq _ _)) by lia.
    cbn -[Z.abs Z.mul]. f_equal. lia.
Qed.

Lemma atoi_reads_printed_witness :
  ∃ n b', qos_snprintf (Some (replicate 12 7)) 12 (Some (bytes_of "%d")) [AInt (-305)] = Some (n, Some b')
        ∧ n = Z.of_nat (length (c_string b')) ∧ qos_atoi (Some (c_string b')) = Some (-305).
Proof. apply (atoi_reads_printed (-305) (replicate 12 7)); [lia|cbn; lia]. Defined.

(** ** Byte order *)

(** the byte-order calls reverse the bytes of a word, so each undoes itself. *)
Theorem byte_order_reverses a b c d :
  in_width 8 a → in_width 8 b → in_width 8 c → in_width 8 d →
  qos_htons (a * 256 + b) = b * 256 + a
  ∧ qos_ntohs (qos_htons (a * 256 + b)) = a * 256 + b
  ∧ qos_htonl (((a * 256 + b) * 256 + c) * 256 + d) = ((d * 256 + c) * 256 + b) * 256 + a
  ∧ qos_ntohl (qos_htonl (((a * 256 + b) * 256 + c) * 256 + d)) = ((a * 256 + b) * 256 + c) * 256 + d.
Proof.
  intros Ha Hb Hc Hd.
  assert (∀ x y, in_width 8 x → in_width 8 y → qos_htons (x * 256 + y) = y * 256 + x) as Hs.
  { intros x y Hx Hy. unfold in_width in *. unfold qos_htons. rewrite Z.shiftr_div_pow2 by lia.
    replace ((x * 256 + y) / 2 ^ 8) with x by (change (2 ^ 8) with 256 in *; Z.to_euclidean_division_equations; lia).
    rewrite Z.lor_comm, lor_low by (unfold in_width; lia).
    unfold wrap. symmetry. apply Z.mod_unique_pos with (q := x); lia. }
  assert (∀ p q r s, in_width 8 p → in_width 8 q → in_width 8 r → in_width 8 s →
    qos_htonl (((p * 256 + q) * 256 + r) * 256 + s) = ((s * 256 + r) * 256 + q) * 256 + p) as Hl.
  { intros p q r s Hp Hq Hr Hs'. rewrite <- (pack_octets s r q p) by done. unfold qos_htonl, in_width in *.
    set (v := ((p * 256 + q) * 256 + r) * 256 + s).
    assert (∀ k, 0 <= k → Z.land v (Z.shiftl 255 k) = Z.shiftl ((v / 2 ^ k) mod 256) k) as Hmask.
    { intros k Hk. rewrite <- low_octet, <- Z.shiftr_div_pow2, Z.shiftl_land by lia.
      apply Z.bits_inj'. intros n Hn. rewrite !Z.land_spec, !Z.shiftl_spec by lia. destruct (Z.le_gt_cases k n).
      - rewrite Z.shiftr_spec by lia. by replace (n - k + k) with n by lia.
      - by rewrite (Z.testbit_neg_r 255), !andb_false_r by lia. }
    change 65280 with (Z.shiftl 255 8). change 16711680 with (Z.shiftl 255 16). change 4278190080 with (Z.shiftl 255 24).
    rewrite !Hmask, low_octet, !Z.shiftr_div_pow2, !Z.shiftl_mul_pow2 by lia.
    assert (v mod 256 = s) as -> by (unfold v; change (2 ^ 8) with 256 in *; Z.to_euclidean_division_equations; lia).
    assert (v / 2 ^ 8 mod 256 = r) as -> by (unfold v; change (2 ^ 8) with 256 in *; Z.to_euclidean_division_equations; lia).
    assert (v / 2 ^ 16 mod 256 = q) as -> by (unfold v; change (2 ^ 8) with 256 in *; Z.to_euclidean_division_equations; lia).
    assert (v / 2 ^ 24 mod 256 = p) as -> by (unfold v; change (2 ^ 8) with 256 in *; Z.to_euclidean_division_equations; lia).
    rewrite (wrap_small 32 (q * 2 ^ 8)) by (unfold in_width; lia).
    replace (r * 2 ^ 8 * 2 ^ 8) with (r * 2 ^ 16) by lia. replace (q * 2 ^ 16) with (q * 2 ^ 8 * 2 ^ 8) by lia. by rewrite !Z.div_mul. }
  unfold qos_ntohs, qos_ntohl. rewrite Hs, Hs, Hl, Hl by done. done.
Qed.

Lemma byte_order_reverses_witness : qos_htons (1 * 256 + 2) = 2 * 256 + 1.
Proof. apply (byte_order_reverses 1 2 3 4); unfold in_width; lia. Defined.
