(* ===== verification/Stdio.v ===== *)
(** * Buffered streams of the C library (c-os/libc/libc.c: qos_fopen and the calls on a FILE)

    The library keeps 64 stream slots and turns each call into system calls of the
    kernel or, where the kernel is absent or refuses, of the host it runs on.  The
    host is a parameter.  The calls run in a state monad over the slots, the memory
    of the program, the kernel and the host; [None] stands for a kernel that reads
    outside its own buffers (Dispatch). *)

From S2P Require Import Prelude Kernel Dispatch Cstring.

(** System calls of the host the library may fall back to. *)
Inductive hostcall :=
  | SYS_read | SYS_write | SYS_close | SYS_lseek | SYS_openat
  | SYS_getpid | SYS_fork | SYS_execve | SYS_wait4 | SYS_exit | SYS_exit_group | SYS_kill
  | SYS_socket | SYS_bind | SYS_listen | SYS_accept | SYS_connect | SYS_sendto | SYS_recvfrom.

Definition QOS_LIBC_FILE_MAX : nat := 64.
Definition QOS_LIBC_FILE_MODE_READ : Z := 1.
Definition QOS_LIBC_FILE_MODE_WRITE : Z := 2.
Definition QOS_LIBC_FILE_MODE_APPEND : Z := 4.

(** Flags of the host's open. *)
Definition O_RDONLY : Z := 0.
Definition O_WRONLY : Z := 1.
Definition O_RDWR : Z := 2.
Definition O_CREAT : Z := 64.
Definition O_TRUNC : Z := 512.
Definition O_APPEND : Z := 1024.
Definition AT_FDCWD : Z := -100.
Definition SEEK_SET : Z := 0.
Definition SEEK_CUR : Z := 1.
Definition SEEK_END : Z := 2.

(** [QOS_LIBC_BACKEND_HOST] and [QOS_LIBC_BACKEND_KERNEL]. *)
Inductive backend := BHost | BKernel.

Record cfile := { c_used : bool; c_backend : backend; c_fd : Z; c_mode : Z }.

Definition cfile_zero : cfile := {| c_used := false; c_backend := BHost; c_fd := 0; c_mode := 0 |}.

(** A FILE pointer: one of the slots, one of the three standard streams, or neither. *)
Inductive stream := SNull | SStdin | SStdout | SStderr | SFile (i : nat) | SOther.

#[export] Instance stream_eq_dec : EqDecision stream.
Proof. solve_decision. Defined.

(** The slots and whether they are set up, the program's memory, the kernel, the host,
    and the process id the library remembers. *)
Record world (H : Type) := {
  w_files : list cfile;
  w_init : bool;
  w_mem : mem;
  w_kernel : kernel;
  w_host : H;
  w_pid : Z
}.
Arguments Build_world {H}.
Arguments w_files {H}.
Arguments w_init {H}.
Arguments w_mem {H}.
Arguments w_kernel {H}.
Arguments w_host {H}.
Arguments w_pid {H}.

Definition with_files {H} (l : list cfile) (w : world H) : world H :=
  {| w_files := l; w_init := true; w_mem := w_mem w; w_kernel := w_kernel w; w_host := w_host w; w_pid := w_pid w |}.
Definition with_mem {H} (m : mem) (w : world H) : world H :=
  {| w_files := w_files w; w_init := w_init w; w_mem := m; w_kernel := w_kernel w; w_host := w_host w; w_pid := w_pid w |}.
Definition with_kernel {H} (m : mem) (k : kernel) (w : world H) : world H :=
  {| w_files := w_files w; w_init := w_init w; w_mem := m; w_kernel := k; w_host := w_host w; w_pid := w_pid w |}.
Definition with_host {H} (m : mem) (x : H) (w : world H) : world H :=
  {| w_files := w_files w; w_init := w_init w; w_mem := m; w_kernel := w_kernel w; w_host := x; w_pid := w_pid w |}.

(** ** The monad *)

Definition call_m (H A : Type) : Type := world H → option (A * world H).

Instance call_ret H : MRet (call_m H) := λ A a w, Some (a, w).
Instance call_bind H : MBind (call_m H) := λ A B f x w, match x w with Some (a, w') => f a w' | None => None end.

Definition get_files {H} : call_m H (list cfile) := λ w, Some (w_files w, w).
Definition put_files {H} (l : list cfile) : call_m H unit := λ w, Some ((), with_files l w).
Definition get_mem {H} : call_m H mem := λ w, Some (w_mem w, w).
Definition put_byte {H} (a v : Z) : call_m H unit := λ w, Some ((), with_mem (mset a v (w_mem w)) w).

(** ** The memory as the kernel sees it *)

(** Bytes before the NUL at [a], at most [limit]. *)
Fixpoint nul_after (limit : nat) (a : Z) (m : mem) : nat :=
  match limit with O => O | S l => if m a =? 0 then O else S (nul_after l (a + 1) m) end.

Definition user_of (limit : nat) (m : mem) : user := {| u_byte := m; u_strlen := λ a, nul_after limit a m |}.

Fixpoint write_bytes (a : Z) (bs : list Z) (m : mem) : mem :=
  match bs with [] => m | b :: bs' => write_bytes (a + 1) bs' (mset a b m) end.

Definition apply_writes (ws : list (Z * list Z)) (m : mem) : mem := foldl (λ m '(a, bs), write_bytes a bs m) m ws.

Section stdio.
Context {H : Type} (host : hostcall → list Z → mem → H → Z * mem * H).
Context (present : bool) (limit : nat) (tmp : list Z).
Abbreviation M := (call_m H).

(** ** System calls *)

(** The result and [*out_used].  [present]: the symbol qos_syscall_dispatch is linked. *)
Definition qos_libc_syscall4 (nr a0 a1 a2 a3 : Z) : M (Z * bool) := λ w,
  if negb present then Some ((-1, false), w)
  else match qos_syscall_dispatch nr a0 a1 a2 a3 (user_of limit (w_mem w)) tmp (w_kernel w) with
       | None => None
       | Some (r, writes, k) => Some ((r, true), with_kernel (apply_writes writes (w_mem w)) k w)
       end.

Definition qos_libc_host_syscall6 (nr : hostcall) (args : list Z) : M Z := λ w,
  let '(r, m, x) := host nr args (w_mem w) (w_host w) in Some (r, with_host m x w).

Definition qos_libc_fd_read (b : backend) (fd buf len : Z) : M Z :=
  let fallback := qos_libc_host_syscall6 SYS_read [fd; buf; len] in
  match b with
  | BKernel => '(rc, used) ← qos_libc_syscall4 6 (u32 fd) buf len 0; if used : bool then mret rc else fallback
  | BHost => fallback
  end.

Definition qos_libc_fd_write (b : backend) (fd buf len : Z) : M Z :=
  let fallback := qos_libc_host_syscall6 SYS_write [fd; buf; len] in
  match b with
  | BKernel => '(rc, used) ← qos_libc_syscall4 7 (u32 fd) buf len 0; if used : bool then mret rc else fallback
  | BHost => fallback
  end.

Definition qos_libc_fd_close (b : backend) (fd : Z) : M Z :=
  let fallback := qos_libc_host_syscall6 SYS_close [fd] in
  match b with
  | BKernel => '(rc, used) ← qos_libc_syscall4 8 (u32 fd) 0 0 0; if used : bool then mret rc else fallback
  | BHost => fallback
  end.

Definition qos_libc_fd_lseek (b : backend) (fd off whence : Z) : M Z :=
  let fallback := qos_libc_host_syscall6 SYS_lseek [fd; off; whence] in
  match b with
  | BKernel => '(rc, used) ← qos_libc_syscall4 25 (u32 fd) (u64 off) (u32 whence) 0; if used : bool then mret rc else fallback
  | BHost => fallback
  end.

(** ** Slots *)

Definition qos_libc_file_init : M unit := λ w,
  if w_init w then Some ((), w) else Some ((), with_files (replicate QOS_LIBC_FILE_MAX cfile_zero) w).

Definition qos_libc_file_alloc : M (option nat) :=
  qos_libc_file_init;;
  l ← get_files;
  match first_index (λ f, negb (c_used f)) l with
  | None => mret None
  | Some i => put_files (<[i := {| c_used := true; c_backend := BHost; c_fd := -1; c_mode := 0 |}]> l);; mret (Some i)
  end.

Definition qos_libc_file_free (i : nat) : M unit :=
  l ← get_files;
  put_files (<[i := {| c_used := false; c_backend := BHost; c_fd := -1; c_mode := 0 |}]> l).

(** The slot behind a stream and what it holds. *)
Definition qos_libc_file_from_stream (s : stream) : M (option (nat * cfile)) :=
  match s with
  | SNull => mret None
  | _ =>
      qos_libc_file_init;;
      l ← get_files;
      match s with
      | SFile i => match l !! i with
                   | Some f => if c_used f then mret (Some (i, f)) else mret None
                   | None => mret None
                   end
      | _ => mret None
      end
  end.

Definition qos_libc_stdio_fd (s : stream) : Z :=
  match s with SStdin => 0 | SStdout => 1 | SStderr => 2 | _ => -1 end.

(** The mode bits and the flags for open. *)
Definition qos_libc_mode_parse (mode : list Z) : option (Z * Z) :=
  let base :=
    match mode with
    | [] => None
    | c :: _ =>
        if c =? 114 then Some (QOS_LIBC_FILE_MODE_READ, O_RDONLY)
        else if c =? 119 then Some (QOS_LIBC_FILE_MODE_WRITE, Z.lor (Z.lor O_WRONLY O_CREAT) O_TRUNC)
        else if c =? 97 then Some (Z.lor QOS_LIBC_FILE_MODE_WRITE QOS_LIBC_FILE_MODE_APPEND, Z.lor (Z.lor O_WRONLY O_CREAT) O_APPEND)
        else None
    end in
  match base with
  | None => None
  | Some (m, flags) =>
      if bool_decide (43 ∈ mode)
      then Some (Z.lor m (Z.lor QOS_LIBC_FILE_MODE_READ QOS_LIBC_FILE_MODE_WRITE),
                 Z.lor (Z.land flags (Z.lnot (Z.lor O_RDONLY O_WRONLY))) O_RDWR)
      else Some (m, flags)
  end.

Definition has_mode (f : Z) (m : Z) : bool := negb (Z.land f m =? 0).

(** ** Calls on streams *)

(** A path is an address, 0 for NULL; the mode a string or NULL. *)
Definition qos_fopen (path : Z) (mode : option (list Z)) : M (option stream) :=
  match mode with
  | None => mret None
  | Some mode =>
      match qos_libc_mode_parse mode with
      | None => mret None
      | Some (mode_bits, open_flags) =>
          if path =? 0 then mret None
          else
            slot ← qos_libc_file_alloc;
            match slot with
            | None => mret None
            | Some i =>
                first ← qos_libc_syscall4 5 path (u32 open_flags) 0 0;
                second ← (if first.2 && (first.1 <? 0) && has_mode mode_bits QOS_LIBC_FILE_MODE_WRITE
                          then qos_libc_syscall4 22 path 0 0 0;; qos_libc_syscall4 5 path (u32 open_flags) 0 0
                          else mret first);
                let finish b fd :=
                  l ← get_files;
                  put_files (<[i := {| c_used := true; c_backend := b; c_fd := fd; c_mode := mode_bits |}]> l);;
                  (if has_mode mode_bits QOS_LIBC_FILE_MODE_APPEND
                   then qos_libc_fd_lseek b fd 0 SEEK_END;; mret (Some (SFile i))
                   else mret (Some (SFile i))) in
                (if second.2 && (0 <=? second.1) then finish BKernel (i32 second.1)
                 else
                   rc ← qos_libc_host_syscall6 SYS_openat [AT_FDCWD; path; open_flags; 420];
                   if rc <? 0 then qos_libc_file_free i;; mret None else finish BHost (i32 rc))
            end
      end
  end.

Definition qos_fclose (s : stream) : M Z :=
  file ← qos_libc_file_from_stream s;
  match file with
  | None => mret (if 0 <=? qos_libc_stdio_fd s then 0 else -1)
  | Some (i, f) =>
      rc ← qos_libc_fd_close (c_backend f) (c_fd f);
      qos_libc_file_free i;;
      mret (if rc <? 0 then -1 else 0)
  end.

(** Where a stream leads: the back end and descriptor, [None] for no stream; a slot
    must have the bits [need]. *)
Definition stream_target (s : stream) (need : Z) : M (option (backend * Z)) :=
  file ← qos_libc_file_from_stream s;
  match file with
  | Some (_, f) => if (need =? 0) || has_mode (c_mode f) need then mret (Some (c_backend f, c_fd f)) else mret None
  | None => let fd := qos_libc_stdio_fd s in if fd <? 0 then mret None else mret (Some (BHost, fd))
  end.

Definition SIZE_MAX : Z := 2 ^ 64 - 1.

Definition qos_fread (ptr size nmemb : Z) (s : stream) : M Z :=
  if (ptr =? 0) || (size =? 0) || (nmemb =? 0) then mret 0
  else if SIZE_MAX / size <? nmemb then mret 0
  else
    target ← stream_target s QOS_LIBC_FILE_MODE_READ;
    match target with
    | None => mret 0
    | Some (b, fd) => rc ← qos_libc_fd_read b fd ptr (u32 (size * nmemb)); mret (if rc <=? 0 then 0 else rc / size)
    end.

Definition qos_fwrite (ptr size nmemb : Z) (s : stream) : M Z :=
  if (ptr =? 0) || (size =? 0) || (nmemb =? 0) then mret 0
  else if SIZE_MAX / size <? nmemb then mret 0
  else
    target ← stream_target s QOS_LIBC_FILE_MODE_WRITE;
    match target with
    | None => mret 0
    | Some (b, fd) => rc ← qos_libc_fd_write b fd ptr (u32 (size * nmemb)); mret (if rc <=? 0 then 0 else rc / size)
    end.

Definition qos_fseek (s : stream) (offset whence : Z) : M Z :=
  file ← qos_libc_file_from_stream s;
  match file with
  | None => mret (-1)
  | Some (_, f) => rc ← qos_libc_fd_lseek (c_backend f) (c_fd f) offset whence; mret (if rc <? 0 then -1 else 0)
  end.

Definition qos_ftell (s : stream) : M Z :=
  file ← qos_libc_file_from_stream s;
  match file with
  | None => mret (-1)
  | Some (_, f) => rc ← qos_libc_fd_lseek (c_backend f) (c_fd f) 0 SEEK_CUR; mret (if rc <? 0 then -1 else rc)
  end.

Definition qos_fflush (s : stream) : M Z :=
  match s with
  | SNull => mret 0
  | _ =>
      file ← qos_libc_file_from_stream s;
      mret (if bool_decide (is_Some file) || (0 <=? qos_libc_stdio_fd s) then 0 else -1)
  end.

Definition qos_fileno (s : stream) : M Z :=
  file ← qos_libc_file_from_stream s;
  mret (match file with Some (_, f) => c_fd f | None => qos_libc_stdio_fd s end).

(** The loop of qos_fgets, [k] bytes of room; [ch] is the address of its local byte.
    The number of bytes stored. *)
Fixpoint fgets_loop (k : nat) (i s ch : Z) (b : backend) (fd : Z) : M Z :=
  match k with
  | O => mret i
  | S k' =>
      put_byte ch 0;;
      rc ← qos_libc_fd_read b fd ch 1;
      if rc <=? 0 then mret i
      else
        m ← get_mem;
        put_byte (s + i) (m ch);;
        if m ch =? 10 then mret (i + 1) else fgets_loop k' (i + 1) s ch b fd
  end.

(** The pointer returned: [true] for [s], [false] for NULL. *)
Definition qos_fgets (s size : Z) (st : stream) (ch : Z) : M bool :=
  if (s =? 0) || (size <=? 1) || bool_decide (st = SNull) then mret false
  else
    target ← stream_target st 0;
    match target with
    | None => mret false
    | Some (b, fd) =>
        i ← fgets_loop (Z.to_nat (size - 1)) 0 s ch b fd;
        (if i =? 0 then mret false else put_byte (s + i) 0;; mret true)
    end.

Definition qos_fputs (s : Z) (st : stream) : M Z :=
  if (s =? 0) || bool_decide (st = SNull) then mret (-1)
  else
    target ← stream_target st 0;
    match target with
    | None => mret (-1)
    | Some (b, fd) =>
        m ← get_mem;
        rc ← qos_libc_fd_write b fd s (u32 (Z.of_nat (nul_after limit s m)));
        mret (if rc <? 0 then -1 else i32 rc)
    end.

End stdio.

(** ** Slots are neither shared nor leaked *)

(** The slots as the next call finds them. *)
Definition slots {H} (w : world H) : list cfile := if w_init w then w_files w else replicate QOS_LIBC_FILE_MAX cfile_zero.

Definition slots_ok {H} (w : world H) : Prop := length (slots w) = QOS_LIBC_FILE_MAX.

(** Slot [i] is taken. *)
Definition taken {H} (w : world H) (i : nat) : Prop := ∃ f, slots w !! i = Some f ∧ c_used f = true.

Lemma bind_Some {H A B} (x : call_m H A) (f : A → call_m H B) w r :
  (x ≫= f) w = Some r ↔ ∃ a w1, x w = Some (a, w1) ∧ f a w1 = Some r.
Proof.
  unfold mbind, call_bind. destruct (x w) as [[a w1]|]; split; try naive_solver.
Qed.

(** A part of a call that does not touch the slots. *)
Definition slot_free {H A} (x : call_m H A) : Prop :=
  ∀ w a w', x w = Some (a, w') → w_files w' = w_files w ∧ w_init w' = w_init w.

Lemma slot_free_ret {H A} (a : A) : slot_free (H := H) (mret a).
Proof. intros w a' w' [= <- <-]. done. Qed.

Lemma slot_free_bind {H A B} (x : call_m H A) (f : A → call_m H B) :
  slot_free x → (∀ a, slot_free (f a)) → slot_free (x ≫= f).
Proof.
  intros Hx Hf w b w' (a & w1 & E1 & E2)%bind_Some. apply Hx in E1 as [H1 H2]. apply Hf in E2 as [H3 H4]. split; congruence.
Qed.

Create HintDb slots.
#[export] Hint Resolve slot_free_ret slot_free_bind : slots.

Section slot_facts.
Context {H : Type} (host : hostcall → list Z → mem → H → Z * mem * H) (present : bool) (limit : nat) (tmp : list Z).

Lemma syscall4_slot_free nr a0 a1 a2 a3 : slot_free (qos_libc_syscall4 (H := H) present limit tmp nr a0 a1 a2 a3).
Proof.
  intros w a w'. unfold qos_libc_syscall4. destruct (negb present); [by intros [= _ <-]|].
  destruct (qos_syscall_dispatch _ _ _ _ _ _ _ _) as [[[r ws] k]|]; [|done]. by intros [= _ <-].
Qed.

Lemma host_slot_free nr args : slot_free (qos_libc_host_syscall6 host nr args).
Proof. intros w a w'. unfold qos_libc_host_syscall6. destruct (host _ _ _ _) as [[r m] x]. by intros [= _ <-]. Qed.

Lemma fd_close_slot_free b fd : slot_free (qos_libc_fd_close host present limit tmp b fd).
Proof.
  destruct b; cbn; [apply host_slot_free|]. apply slot_free_bind; [apply syscall4_slot_free|].
  intros [rc [|]]; [apply slot_free_ret|apply host_slot_free].
Qed.

Lemma fd_lseek_slot_free b fd off whence : slot_free (qos_libc_fd_lseek host present limit tmp b fd off whence).
Proof.
  destruct b; cbn; [apply host_slot_free|]. apply slot_free_bind; [apply syscall4_slot_free|].
  intros [rc [|]]; [apply slot_free_ret|apply host_slot_free].
Qed.

Lemma file_init_slots (w : world H) : qos_libc_file_init w = Some ((), with_files (slots w) w) ∨ qos_libc_file_init w = Some ((), w) ∧ w_init w = true.
Proof. unfold qos_libc_file_init, slots. destruct (w_init w) eqn:E; [by right|by left]. Qed.

(** Looking a stream up changes nothing a later call sees. *)
Lemma from_stream_spec (s : stream) (w : world H) :
  ∃ w', qos_libc_file_from_stream s w
        = Some (match s with
                | SFile i => match slots w !! i with Some f => if c_used f then Some (i, f) else None | None => None end
                | _ => None
                end, w')
      ∧ slots w' = slots w ∧ w_kernel w' = w_kernel w ∧ w_mem w' = w_mem w ∧ w_host w' = w_host w ∧ (s ≠ SNull → w_init w' = true).
Proof.
  destruct (decide (s = SNull)) as [->|Hs]; [by exists w|].
  set (w' := if w_init w then w else with_files (slots w) w).
  assert (w_init w' = true ∧ w_files w' = slots w ∧ qos_libc_file_init w = Some ((), w')) as (Hi & Hf & E).
  { unfold w', qos_libc_file_init, slots. by destruct (w_init w) eqn:Hw; rewrite ?Hw. }
  exists w'. assert (slots w' = slots w) as Hsl by (unfold slots at 1; by rewrite Hi).
  split; [|split; [done|unfold w'; by destruct (w_init w)]].
  unfold qos_libc_file_from_stream. destruct s; try done; unfold mbind, call_bind; rewrite E; cbn [get_files]; rewrite ?Hf; try done.
  destruct (slots w !! i) as [f|]; [|done]. by destruct (c_used f).
Qed.

Lemma file_alloc_spec (w : world H) :
  ∃ w', qos_libc_file_alloc w = Some (first_index (λ f, negb (c_used f)) (slots w), w') ∧ w_init w' = true
      ∧ w_files w' = match first_index (λ f, negb (c_used f)) (slots w) with
                     | Some i => <[i := {| c_used := true; c_backend := BHost; c_fd := -1; c_mode := 0 |}]> (slots w)
                     | None => slots w
                     end
      ∧ w_kernel w' = w_kernel w ∧ w_mem w' = w_mem w.
Proof.
  unfold qos_libc_file_alloc, mbind, call_bind, qos_libc_file_init. unfold slots. destruct (w_init w) eqn:Hw; cbn [get_files w_files with_files].
  - destruct (first_index _ _) as [i|]; cbn; eexists; (split; [reflexivity|]); cbn; done.
  - destruct (first_index _ _) as [i|]; cbn; eexists; (split; [reflexivity|]); cbn; done.
Qed.

(** [w'] has the slots of [w] with slot [i] changed to [f]. *)
Definition slot_set (w : world H) (i : nat) (f : cfile) (w' : world H) : Prop := w_init w' = true ∧ w_files w' = <[i := f]> (slots w).

Lemma slot_set_free {A} (x : call_m H A) w i f w1 a w2 : slot_free x → slot_set w i f w1 → x w1 = Some (a, w2) → slot_set w i f w2.
Proof. intros Hx [H1 H2] E. apply Hx in E as [E1 E2]. split; congruence. Qed.

Lemma slot_set_put w i f g w1 u w2 :
  slot_set w i f w1 → (l ← get_files; put_files (<[i := g]> l)) w1 = Some (u, w2) → slot_set w i g w2.
Proof.
  intros [_ Hf] E. unfold mbind, call_bind, get_files, put_files in E. injection E as _ <-. split; [done|]. cbn.
  by rewrite Hf, list_insert_insert_eq.
Qed.

(** What follows the system calls of qos_fopen. *)
Lemma fopen_finish w i f b fd bits w1 r w2 :
  slot_set w i f w1 →
  (l ← get_files;
   put_files (<[i := {| c_used := true; c_backend := b; c_fd := fd; c_mode := bits |}]> l);;
   (if has_mode bits QOS_LIBC_FILE_MODE_APPEND
    then qos_libc_fd_lseek host present limit tmp b fd 0 SEEK_END;; mret (Some (SFile i))
    else mret (Some (SFile i)))) w1 = Some (r, w2) →
  r = Some (SFile i) ∧ slot_set w i {| c_used := true; c_backend := b; c_fd := fd; c_mode := bits |} w2.
Proof.
  intros Hs (l & w1' & El & E)%bind_Some. apply bind_Some in E as (u & w3 & Ep & E).
  assert (slot_set w i {| c_used := true; c_backend := b; c_fd := fd; c_mode := bits |} w3) as H3.
  { apply (slot_set_put w i f _ w1 u); [done|]. apply bind_Some. by exists l, w1'. }
  destruct (has_mode _ _).
  - apply bind_Some in E as (z & w4 & E4 & E). injection E as <- <-. split; [done|].
    apply (slot_set_free _ w i _ w3 z w4 (fd_lseek_slot_free _ _ _ _) H3 E4).
  - by injection E as <- <-.
Qed.

Lemma fopen_slots path mode w r w' :
  qos_fopen host present limit tmp path mode w = Some (r, w') →
  match r with
  | Some st => ∃ i f, st = SFile i ∧ first_index (λ f, negb (c_used f)) (slots w) = Some i ∧ c_used f = true ∧ slot_set w i f w'
  | None => slots w' = slots w
            ∨ ∃ i, first_index (λ f, negb (c_used f)) (slots w) = Some i
                 ∧ slot_set w i {| c_used := false; c_backend := BHost; c_fd := -1; c_mode := 0 |} w'
  end.
Proof.
  unfold qos_fopen. destruct mode as [mode|]; [|intros [= <- <-]; by left].
  destruct (qos_libc_mode_parse mode) as [[bits flags]|]; [|intros [= <- <-]; by left].
  destruct (path =? 0); [intros [= <- <-]; by left|]. intros (slot & w1 & E1 & E)%bind_Some.
  destruct (file_alloc_spec w) as (w1' & Ea & Hi & Hf & _). rewrite Ea in E1. injection E1 as <- <-.
  destruct (first_index _ (slots w)) as [i|] eqn:Efi; [|injection E as <- <-; left; unfold slots at 1; by rewrite Hi, Hf].
  assert (slot_set w i {| c_used := true; c_backend := BHost; c_fd := -1; c_mode := 0 |} w1') as H1 by done.
  apply bind_Some in E as (x & w2 & E2 & E). apply (slot_set_free _ _ _ _ _ _ _ (syscall4_slot_free _ _ _ _ _) H1) in E2.
  apply bind_Some in E as (y & w3 & E3 & E). eapply slot_set_free in E3; [| |exact E2].
  2:{ destruct (_ && _ && _); [|apply slot_free_ret]. apply slot_free_bind; intros; apply syscall4_slot_free. }
  destruct (y.2 && (0 <=? y.1)).
  - destruct (fopen_finish _ _ _ _ _ _ _ _ _ E3 E) as [-> Hs]. exists i. eexists. split; [done|]. split; [done|]. split; [|exact Hs]. done.
  - apply bind_Some in E as (rc & w4 & E4 & E). apply (slot_set_free _ _ _ _ _ _ _ (host_slot_free _ _) E3) in E4.
    destruct (rc <? 0); [|destruct (fopen_finish _ _ _ _ _ _ _ _ _ E4 E) as [-> Hs]; exists i; eexists; split; [done|]; split; [done|]; split; [|exact Hs]; done].
    apply bind_Some in E as (u & w5 & E5 & E). injection E as <- <-. right. exists i. split; [done|]. exact (slot_set_put _ _ _ _ _ _ _ E4 E5).
Qed.

Lemma fclose_slots s w r w' :
  qos_fclose host present limit tmp s w = Some (r, w') →
  slots w' = slots w ∧ (∀ i, s = SFile i → ¬ taken w i)
  ∨ ∃ i, s = SFile i ∧ taken w i ∧ slot_set w i {| c_used := false; c_backend := BHost; c_fd := -1; c_mode := 0 |} w'.
Proof.
  unfold qos_fclose. intros (file & w1 & E1 & E)%bind_Some. destruct (from_stream_spec s w) as (w1' & Es & Hsl & _ & _ & _ & Hi).
  rewrite Es in E1. injection E1 as <- <-. destruct s as [| | | |i|]; try (injection E as _ <-; by left).
  destruct (slots w !! i) as [f|] eqn:Ef; [destruct (c_used f) eqn:Hu|].
  - right. exists i. split; [done|]. split; [by exists f|]. apply bind_Some in E as (rc & w2 & E2 & E).
    apply bind_Some in E as (u & w3 & E3 & E). injection E as _ <-. apply (slot_set_put w i f _ w2 u); [|done].
    apply fd_close_slot_free in E2 as [H1 H2]. unfold slots in Hsl at 1. rewrite Hi in Hsl by done. split; [by rewrite H2, Hi|].
    by rewrite H1, Hsl, list_insert_id.
  - injection E as _ <-. left. split; [done|]. intros j [= <-] (g & Hg & Hu'). congruence.
  - injection E as _ <-. left. split; [done|]. intros j [= <-] (g & Hg & Hu'). congruence.
Qed.

Lemma slot_set_slots w i f w' : slot_set w i f w' → slots w' = <[i := f]> (slots w).
Proof. intros [Hi Hf]. unfold slots at 1. by rewrite Hi, Hf. Qed.

Lemma slot_set_taken w i f w' :
  slot_set w i f w' → (i < length (slots w))%nat →
  ∀ j, taken w' j ↔ if decide (j = i) then c_used f = true else taken w j.
Proof.
  intros Hs Hi j. unfold taken. rewrite (slot_set_slots w i f w' Hs). destruct (decide (j = i)) as [->|Hne].
  - rewrite list_lookup_insert_eq by done. naive_solver.
  - by rewrite list_lookup_insert_ne.
Qed.
End slot_facts.

(** the stream table.  A successful qos_fopen hands out a slot that was not taken
    and takes it; a qos_fopen that fails on any path (a bad mode, a full table, a path
    neither the kernel nor the host opens) leaves the same slots taken.  qos_fclose
    releases the slot of an open stream whatever the close itself returns, and no
    other.  The slots of other streams never change, whatever the host does. *)
Theorem stream_slots_exact {H} (host : hostcall → list Z → mem → H → Z * mem * H) present limit tmp w :
  (∀ path mode r w', qos_fopen host present limit tmp path mode w = Some (r, w') →
     match r with
     | Some st => ∃ i, st = SFile i ∧ ¬ taken w i ∧ (∀ j, taken w' j ↔ j = i ∨ taken w j)
                     ∧ ∀ j, j ≠ i → slots w' !! j = slots w !! j
     | None => (∀ j, taken w' j ↔ taken w j) ∧ ∀ j, taken w j → slots w' !! j = slots w !! j
     end)
  ∧ (∀ s r w', qos_fclose host present limit tmp s w = Some (r, w') →
     (∀ j, taken w' j ↔ taken w j ∧ s ≠ SFile j) ∧ ∀ j, s ≠ SFile j → slots w' !! j = slots w !! j).
Proof.
  split.
  - intros path mode r w' E%fopen_slots. destruct r as [st|].
    + destruct E as (i & f & -> & (a & Ha & Hu & _)%first_index_Some & Hf & Hs). apply negb_true_iff in Hu.
      assert (¬ taken w i) as Hn by (intros (g & Hg & ?); congruence). exists i. split; [done|]. split; [done|]. split.
      * intros j. rewrite (slot_set_taken w i f w' Hs) by (by eapply lookup_lt_Some). destruct (decide (j = i)); naive_solver.
      * intros j Hj. by rewrite (slot_set_slots _ _ _ _ Hs), list_lookup_insert_ne.
    + destruct E as [E|(i & (a & Ha & Hu & _)%first_index_Some & Hs)]; [unfold taken; by rewrite E|]. apply negb_true_iff in Hu.
      assert (¬ taken w i) as Hn by (intros (g & Hg & ?); congruence). split.
      * intros j. rewrite (slot_set_taken _ _ _ _ Hs) by (by eapply lookup_lt_Some). destruct (decide (j = i)) as [->|]; [cbn; naive_solver|done].
      * intros j Hj. rewrite (slot_set_slots _ _ _ _ Hs), list_lookup_insert_ne; [done|]. intros ->. done.
  - intros s r w' [[E Hn]|(i & -> & (f & Hf & Hu) & Hs)]%fclose_slots.
    + unfold taken. rewrite E. split; [|done]. intros j. split; [|by intros [? _]]. intros Ht. split; [done|]. intros ->. by apply (Hn j).
    + split.
      * intros j. rewrite (slot_set_taken _ _ _ _ Hs) by (by eapply lookup_lt_Some). destruct (decide (j = i)) as [->|]; [cbn; naive_solver|naive_solver].
      * intros j Hj. rewrite (slot_set_slots _ _ _ _ Hs), list_lookup_insert_ne; [done|congruence].
Qed.
