(* ===== verification/Streams.v ===== *)
(** * Streams on the kernel's files

    With the kernel linked in, a stream of the C library is an open file of the
    kernel: the calls of Stdio, through the dispatcher, the descriptors and the file
    buffers, do to the bytes of the file what Files says a descriptor does. *)

From S2P Require Import Prelude SlotTable Vfs Fds Files SyscallTable Net Kernel Dispatch Syscalls FileCalls Cstring Stdio.

(** The system calls the library uses for streams have their default meaning. *)
Record numbers_ok (k : kernel) : Prop := {
  no_open : called 5 k = Some OP_OPEN;
  no_read : called 6 k = Some OP_READ;
  no_write : called 7 k = Some OP_WRITE;
  no_close : called 8 k = Some OP_CLOSE;
  no_mkdir : called 22 k = Some OP_MKDIR;
  no_lseek : called 25 k = Some OP_LSEEK
}.

Lemma numbers_default k : k_table k = table_init → numbers_ok k.
Proof. intros E. split; rewrite called_table by exact E; vm_compute; reflexivity. Qed.

Lemma numbers_io s k : numbers_ok k → numbers_ok (set_io s k).
Proof. intros []. split; assumption. Qed.

Lemma numbers_vfs s k : numbers_ok k → numbers_ok (set_vfs s k).
Proof. intros []. split; assumption. Qed.

(** Stream [i] is the open file [id] at descriptor [fd] with the contents and position [S]. *)
Record stream_open {H} (w : world H) (i : nat) (fd id : Z) (bits : Z) (S : fspec) : Prop := {
  so_slot : slots w !! i = Some {| c_used := true; c_backend := BKernel; c_fd := fd; c_mode := bits |};
  so_file : file_open fd id S (k_io (w_kernel w));
  so_numbers : numbers_ok (w_kernel w)
}.

Section streams.
Context {H : Type} (host : hostcall → list Z → mem → H → Z * mem * H) (limit : nat) (tmp : list Z).
Implicit Types (w : world H).

(** One system call that goes through. *)
Lemma syscall4_ok nr a0 a1 a2 a3 w o r ws k :
  0 <= nr → called nr (w_kernel w) = Some o →
  dispatch_op o (e_value (get_entry nr (k_table (w_kernel w)))) a0 a1 a2 a3 (user_of limit (w_mem w)) tmp (w_kernel w) = Some (r, ws, k) →
  qos_libc_syscall4 true limit tmp nr a0 a1 a2 a3 w = Some ((r, true), with_kernel (apply_writes ws (w_mem w)) k w).
Proof. intros Hn Hc Hd. unfold qos_libc_syscall4. cbn [negb]. by rewrite dispatch_called, Hc, Hd. Qed.

(** The stream after a call on its descriptor. *)
Lemma stream_open_io w i fd id bits S s m S' :
  stream_open w i fd id bits S → file_open fd id S' s → stream_open (with_kernel m (set_io s (w_kernel w)) w) i fd id bits S'.
Proof. intros [Hs Hf Hn] Hf'. split; [exact Hs|exact Hf'|]. by apply numbers_io. Qed.

Lemma fd_write_ok w i fd id bits S buf n :
  stream_open w i fd id bits S → buf ≠ 0 → 0 <= n < 2 ^ 32 →
  let '(r, _, S') := file_spec (FWrite (u_mem (user_of limit (w_mem w)) buf (Z.to_nat n))) S in
  ∃ w', qos_libc_fd_write host true limit tmp BKernel fd buf n w = Some (r, w') ∧ stream_open w' i fd id bits S' ∧ w_mem w' = w_mem w.
Proof.
  intros Ho Hb Hn. destruct (file_open_valid _ _ _ _ (so_file _ _ _ _ _ _ Ho)) as [Hfd _].
  pose proof (write_call fd id S (user_of limit (w_mem w)) buf n (w_kernel w) (so_file _ _ _ _ _ _ Ho) Hb Hn) as Hc.
  destruct (file_spec _ S) as [[r bs] S']. destruct Hc as (s & E & Hf). eexists. split; [|split; [by apply (stream_open_io w i fd id bits S)|done]].
  unfold qos_libc_fd_write, mbind, call_bind. rewrite (syscall4_ok 7 _ _ _ _ w OP_WRITE r [] (set_io s (w_kernel w))); [reflexivity|done|apply Ho|].
  cbn [dispatch_op]. rewrite Hfd, Hfd, (wrap_small 32 n) by done. exact E.
Qed.

Lemma fd_read_ok w i fd id bits S out n :
  stream_open w i fd id bits S → out ≠ 0 → 0 <= n < 2 ^ 32 →
  let '(r, bs, S') := file_spec (FRead n) S in
  ∃ w', qos_libc_fd_read host true limit tmp BKernel fd out n w = Some (r, w') ∧ stream_open w' i fd id bits S'
      ∧ w_mem w' = write_bytes out bs (w_mem w).
Proof.
  intros Ho Hb Hn. destruct (file_open_valid _ _ _ _ (so_file _ _ _ _ _ _ Ho)) as [Hfd _].
  pose proof (read_call fd id S out n tmp (w_kernel w) (so_file _ _ _ _ _ _ Ho) Hb Hn) as Hc.
  destruct (file_spec _ S) as [[r bs] S']. destruct Hc as (s & E & Hf). eexists. split; [|split; [by apply (stream_open_io w i fd id bits S)|]].
  - unfold qos_libc_fd_read, mbind, call_bind. rewrite (syscall4_ok 6 _ _ _ _ w OP_READ r [(out, bs)] (set_io s (w_kernel w))); [reflexivity|done|apply Ho|].
    cbn [dispatch_op]. rewrite Hfd, Hfd, (wrap_small 32 n) by done. exact E.
  - done.
Qed.

Lemma fd_lseek_ok w i fd id bits S off whence :
  stream_open w i fd id bits S → - 2 ^ 63 <= off < 2 ^ 63 →
  let '(r, _, S') := file_spec (FSeek off (u32 whence)) S in
  ∃ w', qos_libc_fd_lseek host true limit tmp BKernel fd off whence w = Some (r, w') ∧ stream_open w' i fd id bits S' ∧ w_mem w' = w_mem w.
Proof.
  intros Ho Hoff. destruct (file_open_valid _ _ _ _ (so_file _ _ _ _ _ _ Ho)) as [Hfd _].
  pose proof (seek_call fd id S off (u32 whence) (w_kernel w) (so_file _ _ _ _ _ _ Ho) Hoff) as Hc.
  destruct (file_spec _ S) as [[r bs] S']. destruct Hc as (s & E & Hf). eexists. split; [|split; [by apply (stream_open_io w i fd id bits S)|done]].
  unfold qos_libc_fd_lseek, mbind, call_bind. rewrite (syscall4_ok 25 _ _ _ _ w OP_LSEEK r [] (set_io s (w_kernel w))); [reflexivity|done|apply Ho|].
  cbn [dispatch_op]. rewrite Hfd, Hfd, (wrap_small 32 (u32 whence)) by (done || by apply wrap_range). exact E.
Qed.

Lemma stream_open_same w w' i fd id bits S :
  stream_open w i fd id bits S → slots w' = slots w → w_kernel w' = w_kernel w → stream_open w' i fd id bits S.
Proof. intros [Hs Hf Hn] Hsl Hk. split; rewrite ?Hsl, ?Hk; assumption. Qed.

(** Looking the stream up. *)
Lemma open_lookup w i fd id bits S :
  stream_open w i fd id bits S →
  ∃ w1, qos_libc_file_from_stream (SFile i) w = Some (Some (i, {| c_used := true; c_backend := BKernel; c_fd := fd; c_mode := bits |}), w1)
      ∧ stream_open w1 i fd id bits S ∧ w_mem w1 = w_mem w.
Proof.
  intros Ho. destruct (from_stream_spec (SFile i) w) as (w1 & E & Hsl & Hk & Hm & _). rewrite (so_slot _ _ _ _ _ _ Ho) in E.
  exists w1. split; [exact E|]. split; [by apply (stream_open_same w)|done].
Qed.

Lemma open_target w i fd id bits S need :
  stream_open w i fd id bits S →
  ∃ w1, stream_target (SFile i) need w = Some (if (need =? 0) || has_mode bits need then Some (BKernel, fd) else None, w1)
      ∧ stream_open w1 i fd id bits S ∧ w_mem w1 = w_mem w.
Proof.
  intros Ho. destruct (open_lookup w i fd id bits S Ho) as (w1 & E & Ho1 & Hm). exists w1. split; [|done].
  unfold stream_target, mbind, call_bind. rewrite E. cbn [c_mode c_backend c_fd]. by destruct ((need =? 0) || has_mode bits need).
Qed.

(** The guards of qos_fread and qos_fwrite: a NULL pointer, no bytes, or more than fit a
    size_t. *)
Definition refused (ptr size nmemb : Z) : bool :=
  (ptr =? 0) || (size =? 0) || (nmemb =? 0) || (SIZE_MAX / size <? nmemb).

Lemma refused_ptr ptr size nmemb : refused ptr size nmemb = false → ptr ≠ 0.
Proof. unfold refused. by intros [[[?%Z.eqb_neq _]%orb_false_iff _]%orb_false_iff _]%orb_false_iff. Qed.

(** The length passed on is cut to 32 bits. *)
Definition passed (size nmemb : Z) : Z := u32 (size * nmemb).

Lemma passed_range size nmemb : 0 <= passed size nmemb < 2 ^ 32.
Proof. apply wrap_range. lia. Qed.

Lemma bytes_passed ptr n : ptr ≠ 0 → 0 < n < 2 ^ 32 → refused ptr 1 n = false ∧ passed 1 n = n.
Proof.
  intros Hp Hn. unfold refused, passed. rewrite !(proj2 (Z.eqb_neq _ _)), Z.div_1_r, Z.mul_1_l by lia. cbn [orb].
  split; [apply Z.ltb_ge; unfold SIZE_MAX; lia|apply wrap_small; unfold in_width; lia].
Qed.

Lemma fwrite_ok w i fd id bits S ptr size nmemb :
  stream_open w i fd id bits S →
  let '(r, _, S') := file_spec (FWrite (u_mem (user_of limit (w_mem w)) ptr (Z.to_nat (passed size nmemb)))) S in
  ∃ w', w_mem w' = w_mem w
      ∧ if negb (refused ptr size nmemb) && has_mode bits QOS_LIBC_FILE_MODE_WRITE
        then qos_fwrite host true limit tmp ptr size nmemb (SFile i) w = Some (if r <=? 0 then 0 else r / size, w') ∧ stream_open w' i fd id bits S'
        else qos_fwrite host true limit tmp ptr size nmemb (SFile i) w = Some (0, w') ∧ stream_open w' i fd id bits S.
Proof.
  intros Ho. unfold qos_fwrite. destruct (refused ptr size nmemb) eqn:G.
  { destruct (file_spec _ S) as [[r bs] S']. exists w. split; [done|]. cbn [negb andb]. unfold refused in G.
    destruct (_ || _ || (nmemb =? 0)); [done|]. cbn [orb] in G. by rewrite G. }
  pose proof (refused_ptr _ _ _ G) as Hp. unfold refused in G. apply orb_false_iff in G as [G1 G2]. rewrite G1, G2.
  destruct (open_target w i fd id bits S QOS_LIBC_FILE_MODE_WRITE Ho) as (w1 & E1 & Ho1 & Hm1). change (QOS_LIBC_FILE_MODE_WRITE =? 0) with false in E1. cbn [orb] in E1.
  pose proof (fd_write_ok w1 i fd id bits S ptr (passed size nmemb) Ho1 Hp (passed_range size nmemb)) as Hf. rewrite Hm1 in Hf.
  destruct (file_spec _ S) as [[r bs] S']. destruct Hf as (w' & E & Ho' & Hm').
  unfold mbind, call_bind. rewrite E1. cbn [negb andb]. destruct (has_mode bits QOS_LIBC_FILE_MODE_WRITE).
  - exists w'. split; [congruence|]. fold (passed size nmemb). rewrite E. done.
  - by exists w1.
Qed.

Lemma fread_ok w i fd id bits S ptr size nmemb :
  stream_open w i fd id bits S →
  let '(r, bs, S') := file_spec (FRead (passed size nmemb)) S in
  ∃ w', if negb (refused ptr size nmemb) && has_mode bits QOS_LIBC_FILE_MODE_READ
        then qos_fread host true limit tmp ptr size nmemb (SFile i) w = Some (if r <=? 0 then 0 else r / size, w')
             ∧ stream_open w' i fd id bits S' ∧ w_mem w' = write_bytes ptr bs (w_mem w)
        else qos_fread host true limit tmp ptr size nmemb (SFile i) w = Some (0, w') ∧ stream_open w' i fd id bits S ∧ w_mem w' = w_mem w.
Proof.
  intros Ho. unfold qos_fread. destruct (refused ptr size nmemb) eqn:G.
  { destruct (file_spec _ S) as [[r bs] S']. exists w. cbn [negb andb]. unfold refused in G.
    destruct (_ || _ || (nmemb =? 0)); [done|]. cbn [orb] in G. by rewrite G. }
  pose proof (refused_ptr _ _ _ G) as Hp. unfold refused in G. apply orb_false_iff in G as [G1 G2]. rewrite G1, G2.
  destruct (open_target w i fd id bits S QOS_LIBC_FILE_MODE_READ Ho) as (w1 & E1 & Ho1 & Hm1). change (QOS_LIBC_FILE_MODE_READ =? 0) with false in E1. cbn [orb] in E1.
  pose proof (fd_read_ok w1 i fd id bits S ptr (passed size nmemb) Ho1 Hp (passed_range size nmemb)) as Hf. rewrite Hm1 in Hf.
  destruct (file_spec _ S) as [[r bs] S']. destruct Hf as (w' & E & Ho' & Hm').
  unfold mbind, call_bind. rewrite E1. cbn [negb andb]. destruct (has_mode bits QOS_LIBC_FILE_MODE_READ).
  - exists w'. fold (passed size nmemb). by rewrite E.
  - by exists w1.
Qed.

Lemma fseek_ok w i fd id bits S off whence :
  stream_open w i fd id bits S → - 2 ^ 63 <= off < 2 ^ 63 →
  let '(r, _, S') := file_spec (FSeek off (u32 whence)) S in
  ∃ w', qos_fseek host true limit tmp (SFile i) off whence w = Some (if r <? 0 then -1 else 0, w')
      ∧ stream_open w' i fd id bits S' ∧ w_mem w' = w_mem w.
Proof.
  intros Ho Hoff. destruct (open_lookup w i fd id bits S Ho) as (w1 & E1 & Ho1 & Hm1).
  pose proof (fd_lseek_ok w1 i fd id bits S off whence Ho1 Hoff) as Hf. destruct (file_spec _ S) as [[r bs] S'].
  destruct Hf as (w' & E & Ho' & Hm'). exists w'. unfold qos_fseek, mbind, call_bind. rewrite E1. cbn [c_backend c_fd]. rewrite E.
  split; [done|]. split; [done|congruence].
Qed.

Lemma ftell_ok w i fd id bits S :
  stream_open w i fd id bits S →
  ∃ w', qos_ftell host true limit tmp (SFile i) w = Some (fs_pos S, w') ∧ stream_open w' i fd id bits S ∧ w_mem w' = w_mem w.
Proof.
  intros Ho. destruct (open_lookup w i fd id bits S Ho) as (w1 & E1 & Ho1 & Hm1).
  pose proof (fd_lseek_ok w1 i fd id bits S 0 SEEK_CUR Ho1 ltac:(lia)) as Hf. change (u32 SEEK_CUR) with SEEK_CUR in Hf.
  destruct (fo_pos _ _ _ _ (so_file _ _ _ _ _ _ Ho)) as [_ Hp]. unfold SEEK_CUR in Hf. cbn [file_spec Z.eqb] in Hf.
  rewrite Z.add_0_r, (proj2 (Z.leb_le _ _)), (proj2 (Z.ltb_lt _ _)) in Hf by lia. cbn [andb] in Hf.
  destruct Hf as (w' & E & Ho' & Hm'). exists w'. unfold qos_ftell, mbind, call_bind. rewrite E1. cbn [c_backend c_fd]. unfold SEEK_CUR. rewrite E.
  rewrite (proj2 (Z.ltb_ge _ _)) by lia. split; [done|]. split; [by destruct S|congruence].
Qed.

(** ** Opening *)

Definition free_slot w : option nat := first_index (λ f, negb (c_used f)) (slots w).

(** The kernel has the path [p] at [path] and a descriptor for it. *)
Record openable w (path : Z) (p : string) (fd : Z) (s : io) : Prop := {
  oa_path : path ≠ 0 ∧ u_str (user_of limit (w_mem w)) path = Some p;
  oa_exists : qos_vfs_exists (Some p) (k_vfs (w_kernel w)) ≠ 0;
  oa_open : open_file p (k_io (w_kernel w)) = (fd, s) ∧ 0 <= fd
}.

(** Where a stream of these mode bits starts in a file of [bs]. *)
Definition start_of (bits : Z) (bs : list Z) : fspec :=
  {| fs_bytes := bs; fs_pos := if has_mode bits QOS_LIBC_FILE_MODE_APPEND then Z.of_nat (length bs) else 0 |}.

Lemma fopen_ok w i path p fd s mode bits flags :
  sys_ok (w_kernel w) → numbers_ok (w_kernel w) → openable w path p fd s → free_slot w = Some i →
  qos_libc_mode_parse mode = Some (bits, flags) →
  ∃ id w', qos_fopen host true limit tmp path (Some mode) w = Some (Some (SFile i), w')
    ∧ stream_open w' i fd id bits (start_of bits (contents_of p (k_io (w_kernel w)))) ∧ w_mem w' = w_mem w.
Proof.
  intros Hk Hn [[Hp0 Hp] Hex [Eo Hfd]] Hi Hmode. destruct (open_file_open _ _ _ _ (sys_files_wf _ Hk) Eo Hfd) as [id Hf]. clear Hk.
  destruct (file_open_valid _ _ _ _ Hf) as [_ _]. pose proof (proj1 (fo_fd _ _ _ _ Hf)) as Hr. exists id.
  unfold qos_fopen. rewrite Hmode, (proj2 (Z.eqb_neq path 0)) by done.
  destruct (file_alloc_spec w) as (w1 & E1 & Hi1 & Hf1 & Hk1 & Hm1). unfold free_slot in Hi. rewrite Hi in E1, Hf1.
  assert (qos_libc_syscall4 true limit tmp 5 path (u32 flags) 0 0 w1 = Some ((fd, true), with_kernel (w_mem w1) (set_io s (w_kernel w1)) w1)) as E2.
  { apply (syscall4_ok 5 _ _ _ _ w1 OP_OPEN fd []); [done|rewrite Hk1; apply Hn|]. cbn [dispatch_op]. unfold op_open. rewrite Hm1, Hk1, Hp.
    rewrite (proj2 (Z.eqb_neq _ _)) by done. unfold in_io. by rewrite Eo. }
  set (w2 := with_kernel _ _ w1) in E2. set (f := {| c_used := true; c_backend := BKernel; c_fd := fd; c_mode := bits |}).
  unfold mbind, call_bind. rewrite E1, E2. cbn [fst snd]. rewrite (proj2 (Z.ltb_ge fd 0)) by lia. cbn [andb mret call_ret fst snd].
  rewrite (proj2 (Z.leb_le 0 fd)), (sext_small 32 fd) by lia. cbn [get_files put_files]. fold f. set (w3 := with_files _ w2).
  assert (stream_open w3 i fd id bits {| fs_bytes := contents_of p (k_io (w_kernel w)); fs_pos := 0 |}) as H3.
  { split; [|exact Hf|apply numbers_io; rewrite Hk1; exact Hn]. change (slots w3) with (<[i := f]> (w_files w1)).
    apply list_lookup_insert_eq. rewrite Hf1, length_insert. by eapply first_index_lt. }
  unfold start_of. destruct (has_mode bits QOS_LIBC_FILE_MODE_APPEND).
  - pose proof (fd_lseek_ok w3 i fd id bits _ 0 SEEK_END H3 ltac:(lia)) as Hl. change (u32 SEEK_END) with SEEK_END in Hl.
    unfold SEEK_END in *. cbn [file_spec Z.eqb Pos.eqb fs_bytes] in Hl. rewrite Z.add_0_r, (proj2 (Z.leb_le _ _)) in Hl by lia.
    assert (Z.of_nat (length (contents_of p (k_io (w_kernel w)))) < 2 ^ 63) as Hlen.
    { destruct (fo_file _ _ _ _ Hf) as (g & _ & _ & Hg & Hb). cbn in Hb. rewrite <- Hb, file_bytes_length by done. pose proof (fk_len _ Hg). lia. }
    rewrite (proj2 (Z.ltb_lt _ _)) in Hl by lia. cbn [andb] in Hl. destruct Hl as (w4 & E4 & H4 & Hm4). rewrite E4. exists w4.
    split; [done|]. split; [done|]. rewrite Hm4. exact Hm1.
  - exists w3. split; [done|]. split; [done|]. exact Hm1.
Qed.

Lemma fclose_ok w i fd id bits S :
  stream_open w i fd id bits S →
  ∃ w', qos_fclose host true limit tmp (SFile i) w = Some (0, w') ∧ w_mem w' = w_mem w ∧ ¬ taken w' i.
Proof.
  intros Ho. destruct (open_lookup w i fd id bits S Ho) as (w1 & E1 & Ho1 & Hm1). unfold qos_fclose, mbind, call_bind. rewrite E1.
  cbn [c_backend c_fd qos_libc_fd_close]. unfold mbind, call_bind.
  rewrite (syscall4_ok 8 (u32 fd) 0 0 0 w1 OP_CLOSE _ [] _ ltac:(done) (no_close _ (so_numbers _ _ _ _ _ _ Ho1)) eq_refl).
  destruct (file_open_valid _ _ _ _ (so_file _ _ _ _ _ _ Ho1)) as [Hfd Hv]. unfold sys_close. rewrite Hfd, Hfd, Hv.
  cbn [negb mret call_ret]. eexists. split; [reflexivity|]. split; [exact Hm1|].
  intros (f & Hf & Hu). cbn in Hf. apply list_lookup_insert_Some in Hf as [(_ & <- & _)|[? _]]; done.
Qed.

(** ** Lines *)

(** At most [n] bytes of [l], up to the first newline. *)
Fixpoint line (n : nat) (l : list Z) : list Z :=
  match n, l with S n', c :: l' => if c =? 10 then [c] else c :: line n' l' | _, _ => [] end.

(** One byte from a file. *)
Lemma read_one bs p :
  0 <= p < 2 ^ 32 →
  file_spec (FRead 1) {| fs_bytes := bs; fs_pos := p |}
  = match drop (Z.to_nat p) bs with
    | [] => (0, [], {| fs_bytes := bs; fs_pos := p |})
    | c :: _ => (1, [c], {| fs_bytes := bs; fs_pos := p + 1 |})
    end.
Proof.
  intros Hp. unfold file_spec. cbn [fs_pos fs_bytes]. rewrite wrap_small by done. pose proof (length_drop bs (Z.to_nat p)) as Hl.
  destruct (drop (Z.to_nat p) bs) as [|c r] eqn:E; cbn [length] in Hl.
  - rewrite <- Hl, Nat.min_0_r. done.
  - rewrite <- Hl. change (Nat.min (Z.to_nat 1) (S (length r))) with 1%nat. cbn. f_equal. f_equal. lia.
Qed.

Lemma stream_open_mem w m i fd id bits S : stream_open w i fd id bits S → stream_open (with_mem m w) i fd id bits S.
Proof. intros Ho. by apply (stream_open_same w). Qed.

Lemma fgets_loop_ok k j s ch w i fd id bits bs p :
  stream_open w i fd id bits {| fs_bytes := bs; fs_pos := p |} → 0 <= p < 2 ^ 32 → ch ≠ 0 → (ch < s ∨ s + j + Z.of_nat k <= ch) → 0 <= j →
  let ln := line k (drop (Z.to_nat p) bs) in
  ∃ w', fgets_loop host true limit tmp k j s ch BKernel fd w = Some (j + Z.of_nat (length ln), w')
    ∧ stream_open w' i fd id bits {| fs_bytes := bs; fs_pos := p + Z.of_nat (length ln) |}
    ∧ holds (w_mem w') (s + j) ln
    ∧ ∀ a, a ≠ ch → ¬ (s + j <= a < s + j + Z.of_nat (length ln)) → w_mem w' a = w_mem w a.
Proof.
  revert j w p. induction k as [|k IH]; intros j w p Ho Hp Hch Hd Hj ln; [exists w; subst ln; cbn; rewrite !Z.add_0_r; by split|].
  cbn [fgets_loop]. unfold mbind, call_bind, put_byte, get_mem.
  pose proof (fd_read_ok (with_mem (mset ch 0 (w_mem w)) w) i fd id bits _ ch 1 (stream_open_mem w _ _ _ _ _ _ Ho) Hch ltac:(lia)) as Hr.
  rewrite read_one in Hr by done. subst ln. destruct (drop (Z.to_nat p) bs) as [|c r] eqn:Ed.
  { destruct Hr as (w1 & E1 & Ho1 & Hm1). rewrite E1. exists w1. cbn. rewrite !Z.add_0_r. split; [done|]. split; [done|]. split; [done|].
    intros a Ha _. rewrite Hm1. cbn. unfold mset. by rewrite (proj2 (Z.eqb_neq a ch)). }
  destruct Hr as (w1 & E1 & Ho1 & Hm1). rewrite E1. cbn [Z.leb Z.compare]. cbn [write_bytes with_mem w_mem] in Hm1.
  assert (w_mem w1 ch = c) as Hc by (rewrite Hm1; unfold mset; by rewrite Z.eqb_refl). rewrite Hc.
  assert (∀ a, a ≠ ch → w_mem w1 a = w_mem w a) as Hm by (intros a Ha; rewrite Hm1; unfold mset; by rewrite !(proj2 (Z.eqb_neq a ch))).
  set (w2 := with_mem (mset (s + j) c (w_mem w1)) w1). pose proof (stream_open_mem w1 (mset (s + j) c (w_mem w1)) _ _ _ _ _ Ho1) as Ho2. fold w2 in Ho2.
  assert (w_mem w2 (s + j) = c) as Hc2 by (cbn; unfold mset; by rewrite Z.eqb_refl).
  assert (∀ a, a ≠ ch → a ≠ s + j → w_mem w2 a = w_mem w a) as Hm2 by (intros a Ha Hs; cbn; unfold mset; by rewrite (proj2 (Z.eqb_neq a (s + j))), Hm).
  cbn [line]. destruct (c =? 10); cbn [length].
  { exists w2. split; [done|]. split; [done|]. split; [by split|]. intros a Ha Hs. apply Hm2; [done|lia]. }
  assert (p < Z.of_nat (length bs)) as Hlt.
  { apply (f_equal length) in Ed. rewrite length_drop in Ed. cbn in Ed. lia. }
  assert (Z.of_nat (length bs) <= 1024) as Hb.
  { destruct (fo_file _ _ _ _ (so_file _ _ _ _ _ _ Ho)) as (g & _ & _ & Hg & Hgb). cbn [fs_bytes] in Hgb. rewrite <- Hgb, file_bytes_length by done. apply (fk_len _ Hg). }
  destruct (IH (j + 1) w2 (p + 1) Ho2) as (w' & E & Ho' & Hh & Ha); try lia.
  assert (drop (Z.to_nat (p + 1)) bs = r) as Er.
  { replace (Z.to_nat (p + 1)) with (Z.to_nat p + 1)%nat by lia. by rewrite <- drop_drop, Ed. }
  rewrite Er in *. exists w'. rewrite E. split; [f_equal; f_equal; lia|]. split; [by replace (p + Z.of_nat (S (length (line k r)))) with (p + 1 + Z.of_nat (length (line k r))) by lia|].
  split; [|intros a Hach Hs; rewrite Ha by lia; apply Hm2; lia].
  split; [rewrite Ha by lia; done|]. by replace (s + j + 1) with (s + (j + 1)) by lia.
Qed.
End streams.

(** ** What a program sees *)

Lemma write_bytes_other a bs m x : ¬ (a <= x < a + Z.of_nat (length bs)) → write_bytes a bs m x = m x.
Proof.
  revert a m. induction bs as [|b bs IH]; intros a m Hx; [done|]. cbn [write_bytes length] in *. rewrite IH by lia.
  unfold mset. by rewrite (proj2 (Z.eqb_neq x a)) by lia.
Qed.

Lemma write_bytes_holds a bs m : holds (write_bytes a bs m) a bs.
Proof.
  revert a m. induction bs as [|b bs IH]; intros a m; [done|]. cbn [write_bytes holds]. split; [|apply IH].
  rewrite write_bytes_other by lia. unfold mset. by rewrite Z.eqb_refl.
Qed.

(** C13: a stream is an open file.  On a stream of the kernel, for every pointer,
    item size and count, qos_fwrite and qos_fread do to the bytes and the position of
    the file what the descriptor does with size * nmemb bytes cut to 32 bits (so all of
    them below 4 GiB), count whole items, and put what was read, and nothing else, into
    the caller's memory.  For a NULL pointer, no bytes, a product that does not fit a
    size_t, or a stream that was not opened for it, they return 0 and change nothing.
    qos_fseek to every offset, with every whence, and qos_ftell do what LSEEK does;
    qos_fclose returns 0 and gives the stream's slot back. *)
Theorem stream_refines_file {H} (host : hostcall → list Z → mem → H → Z * mem * H) limit tmp w i fd id bits S :
  stream_open w i fd id bits S →
  (∀ ptr size nmemb,
     let '(r, _, S') := file_spec (FWrite (u_mem (user_of limit (w_mem w)) ptr (Z.to_nat (passed size nmemb)))) S in
     ∃ w', w_mem w' = w_mem w
         ∧ if negb (refused ptr size nmemb) && has_mode bits QOS_LIBC_FILE_MODE_WRITE
           then qos_fwrite host true limit tmp ptr size nmemb (SFile i) w = Some (if r <=? 0 then 0 else r / size, w') ∧ stream_open w' i fd id bits S'
           else qos_fwrite host true limit tmp ptr size nmemb (SFile i) w = Some (0, w') ∧ stream_open w' i fd id bits S)
  ∧ (∀ ptr size nmemb,
     let '(r, bs, S') := file_spec (FRead (passed size nmemb)) S in
     ∃ w', if negb (refused ptr size nmemb) && has_mode bits QOS_LIBC_FILE_MODE_READ
           then qos_fread host true limit tmp ptr size nmemb (SFile i) w = Some (if r <=? 0 then 0 else r / size, w')
                ∧ stream_open w' i fd id bits S' ∧ holds (w_mem w') ptr bs
                ∧ ∀ a, ¬ (ptr <= a < ptr + Z.of_nat (length bs)) → w_mem w' a = w_mem w a
           else qos_fread host true limit tmp ptr size nmemb (SFile i) w = Some (0, w') ∧ stream_open w' i fd id bits S ∧ w_mem w' = w_mem w)
  ∧ (∀ off whence, - 2 ^ 63 <= off < 2 ^ 63 →
     let '(r, _, S') := file_spec (FSeek off (u32 whence)) S in
     ∃ w', qos_fseek host true limit tmp (SFile i) off whence w = Some (if r <? 0 then -1 else 0, w')
         ∧ stream_open w' i fd id bits S' ∧ w_mem w' = w_mem w)
  ∧ (∃ w', qos_ftell host true limit tmp (SFile i) w = Some (fs_pos S, w') ∧ stream_open w' i fd id bits S ∧ w_mem w' = w_mem w)
  ∧ ∃ w', qos_fclose host true limit tmp (SFile i) w = Some (0, w') ∧ w_mem w' = w_mem w ∧ ¬ taken w' i.
Proof.
  intros Ho. split; [|split; [|split; [|split]]].
  - intros ptr size nmemb. by apply fwrite_ok.
  - intros ptr size nmemb. pose proof (fread_ok host limit tmp w i fd id bits S ptr size nmemb Ho) as Hr.
    destruct (file_spec _ S) as [[r bs] S']. destruct Hr as (w' & Hr). exists w'. destruct (_ && _); [|done].
    destruct Hr as (E & Ho' & ->). split; [done|]. split; [done|]. split; [apply write_bytes_holds|]. intros a. apply write_bytes_other.
  - intros off whence. by apply fseek_ok.
  - by apply (ftell_ok host limit tmp w i fd id bits S).
  - by apply (fclose_ok host limit tmp w i fd id bits S).
Qed.

(** C40: qos_fgets reads a line.  On a stream of the kernel, whatever it was opened for,
    with its position below 2^32, a buffer that is not NULL and a size of at least 2, it
    stores the bytes from the position of the file up to and with the next newline,
    cut to one less than the size, and a NUL behind them, moves the position behind
    them, and writes to no memory outside of the buffer but its own local byte (which
    lies outside of the buffer).  It returns NULL exactly at the end of the file. *)
Theorem fgets_reads_line {H} (host : hostcall → list Z → mem → H → Z * mem * H) limit tmp w i fd id bits bs p s size ch :
  stream_open w i fd id bits {| fs_bytes := bs; fs_pos := p |} → p < 2 ^ 32 →
  s ≠ 0 → 1 < size → ch ≠ 0 → (ch < s ∨ s + size <= ch) →
  let ln := line (Z.to_nat (size - 1)) (drop (Z.to_nat p) bs) in
  ∃ w', qos_fgets host true limit tmp s size (SFile i) ch w = Some (bool_decide (ln ≠ []), w')
    ∧ stream_open w' i fd id bits {| fs_bytes := bs; fs_pos := p + Z.of_nat (length ln) |}
    ∧ (ln ≠ [] → holds (w_mem w') s (ln ++ [0]))
    ∧ ∀ a, a ≠ ch → ¬ (s <= a < s + size) → w_mem w' a = w_mem w a.
Proof.
  intros Ho Hp Hs Hsz Hch Hd ln. pose proof (proj2 (fo_pos _ _ _ _ (so_file _ _ _ _ _ _ Ho))) as Hp0. cbn [fs_pos] in Hp0.
  destruct (open_target w i fd id bits _ 0 Ho) as (w1 & E1 & Ho1 & Hm1). cbn [Z.eqb orb] in E1.
  destruct (fgets_loop_ok host limit tmp (Z.to_nat (size - 1)) 0 s ch w1 i fd id bits bs p Ho1) as (w2 & E2 & Ho2 & Hh & Ha); try lia.
  fold ln in E2, Ho2, Hh, Ha. rewrite Z.add_0_r, Z.add_0_l in *. unfold qos_fgets.
  rewrite (proj2 (Z.eqb_neq s 0)), (proj2 (Z.leb_gt size 1)), bool_decide_eq_false_2 by done. cbn [orb].
  unfold mbind, call_bind. rewrite E1, E2. assert (length ln <= Z.to_nat (size - 1))%nat as Hlen.
  { unfold ln. generalize (drop (Z.to_nat p) bs) as l. generalize (Z.to_nat (size - 1)) as n.
    induction n as [|n IH]; intros [|c l]; cbn; try lia. destruct (c =? 10); cbn; [lia|]. specialize (IH l). lia. }
  destruct (decide (ln = [])) as [Eln|Hne].
  - rewrite Eln in *. cbn [length Z.of_nat Z.eqb]. exists w2. rewrite bool_decide_eq_false_2 by congruence. split; [done|]. split; [done|].
    split; [done|]. intros a Hac Hsa. rewrite Ha, Hm1 by (cbn; lia). done.
  - rewrite (proj2 (Z.eqb_neq _ _)) by (destruct ln; cbn; [done|lia]). cbn [put_byte mret call_ret]. eexists. rewrite bool_decide_eq_true_2 by done.
    split; [reflexivity|]. split; [by apply stream_open_mem|]. split.
    + intros _. apply holds_app. split.
      * apply (holds_ext (w_mem w2)); [|done]. intros a Hr. cbn. unfold mset. by rewrite (proj2 (Z.eqb_neq a _)) by lia.
      * cbn. unfold mset. by rewrite Z.eqb_refl.
    + intros a Hac Hsa. cbn. unfold mset. rewrite (proj2 (Z.eqb_neq a _)) by lia. rewrite Ha, Hm1 by lia. done.
Qed.

(** A program that saves [n] bytes under a path and loads them again. *)
Definition save_and_load {H} (host : hostcall → list Z → mem → H → Z * mem * H) limit tmp (path buf out n : Z) : call_m H (Z * Z * Z * Z) :=
  st ← qos_fopen host true limit tmp path (Some (bytes_of "w+"));
  match st with
  | None => mret (-1, -1, -1, -1)
  | Some st =>
      a ← qos_fwrite host true limit tmp buf 1 n st;
      b ← qos_fseek host true limit tmp st 0 SEEK_SET;
      c ← qos_fread host true limit tmp out 1 n st;
      d ← qos_fclose host true limit tmp st;
      mret (a, b, c, d)
  end.

(** C5: what a program saves through a stream it loads again.  A program that runs
    over the kernel, whose table of streams has a free slot and whose system calls
    for streams have their default table entries, opens with mode w+ a path that
    OPEN of the kernel accepts (the path exists, and a descriptor and a place in
    the table of open files are free), and calls fwrite, fseek to the start, fread
    and fclose with buffers that are not NULL and 1 to 1024 bytes.  Then fwrite
    and fread count all the bytes, fseek and fclose return 0, the memory read into
    holds the bytes that were written, and the slot of the stream is free again. *)
Theorem stdio_roundtrip {H} (host : hostcall → list Z → mem → H → Z * mem * H) limit tmp w path p fd s i buf out n :
  sys_ok (w_kernel w) → numbers_ok (w_kernel w) → openable limit w path p fd s → free_slot w = Some i →
  buf ≠ 0 → out ≠ 0 → 0 < n <= 1024 →
  ∃ w', save_and_load host limit tmp path buf out n w = Some ((n, 0, n, 0), w')
      ∧ holds (w_mem w') out (u_mem (user_of limit (w_mem w)) buf (Z.to_nat n)) ∧ ¬ taken w' i.
Proof.
  intros Hk Hn Hop Hi Hb Ho Hr. pose proof (u_mem_length (user_of limit (w_mem w)) buf (Z.to_nat n)) as Hl.
  destruct (fopen_ok host limit tmp w i path p fd s (bytes_of "w+") 3 578 Hk Hn Hop Hi ltac:(vm_compute; reflexivity)) as (id & w1 & E1 & O1 & M1).
  change (start_of 3 ?bs) with {| fs_bytes := bs; fs_pos := 0 |} in O1. clear Hk.
  destruct (bytes_passed buf n Hb ltac:(lia)) as [Gw Ew], (bytes_passed out n Ho ltac:(lia)) as [Gr Er].
  pose proof (fwrite_ok host limit tmp w1 i fd id 3 _ buf 1 n O1) as F. rewrite Gw, Ew, M1 in F.
  rewrite write_at_start in F by lia. destruct F as (w2 & M2 & E2 & O2). rewrite Hl, Z2Nat.id in * by lia.
  pose proof (fseek_ok host limit tmp w2 i fd id 3 _ 0 0 O2 ltac:(lia)) as F. change (u32 0) with 0 in F. cbn [file_spec Z.eqb fs_bytes Z.add Z.leb Z.ltb Z.compare andb] in F.
  destruct F as (w3 & E3 & O3 & M3).
  pose proof (fread_ok host limit tmp w3 i fd id 3 _ out 1 n O3) as F. rewrite Gr, Er in F.
  rewrite read_at_start in F by (rewrite overwrite_length by lia; lia). destruct F as (w4 & E4 & O4 & M4).
  pose proof (overwrite_prefix (contents_of p (k_io (w_kernel w))) (u_mem (user_of limit (w_mem w)) buf (Z.to_nat n))) as Hpre. rewrite Hl in Hpre.
  rewrite Hpre in M4. destruct (fclose_ok host limit tmp w4 i fd id 3 _ O4) as (w5 & E5 & M5 & T5).
  exists w5. split; [|split; [rewrite M5, M4; apply write_bytes_holds|done]].
  rewrite (proj2 (Z.leb_gt n 0)), Z.div_1_r in E2, E4 by lia. cbn [Z.ltb Z.compare] in E3.
  unfold save_and_load, mbind, call_bind. rewrite E1, E2. unfold SEEK_SET. rewrite E3, E4, E5. done.
Qed.

(** ** A program and a kernel for the witnesses *)

(** A host that refuses every call. *)
Definition deaf_host (c : hostcall) (args : list Z) (m : mem) (x : unit) : Z * mem * unit := (-1, m, x).

Definition demo_bytes : mem := λ a, nth (Z.to_nat (a - 16)) (bytes_of "/a") 0.

Definition demo_world : world unit :=
  {| w_files := []; w_init := false; w_mem := demo_bytes; w_kernel := demo_tree; w_host := (); w_pid := 0 |}.

Definition demo_fd : Z := (open_file "/a" (k_io demo_tree)).1.
Definition demo_io : io := (open_file "/a" (k_io demo_tree)).2.

(** The world once the path is open for reading and writing in slot 0. *)
Definition demo_stream : world unit :=
  {| w_files := <[0%nat := {| c_used := true; c_backend := BKernel; c_fd := demo_fd; c_mode := 3 |}]> (replicate 64 cfile_zero);
     w_init := true; w_mem := demo_bytes; w_kernel := set_io demo_io demo_tree; w_host := (); w_pid := 0 |}.

Lemma demo_numbers : numbers_ok demo_tree.
Proof. apply numbers_default. reflexivity. Qed.

Lemma demo_fd_ok : 0 <= demo_fd.
Proof. apply Z.leb_le. lazy. reflexivity. Qed.

Lemma demo_openable : openable 8 demo_world 16 "/a" demo_fd demo_io.
Proof.
  split; [split; [lia|vm_compute; reflexivity]| |split; [apply surjective_pairing|exact demo_fd_ok]].
  intros E. apply (f_equal (λ x, x =? 1)) in E. lazy in E. discriminate E.
Qed.

Lemma demo_stream_open : ∃ id, stream_open demo_stream 0 demo_fd id 3 {| fs_bytes := contents_of "/a" (k_io demo_tree); fs_pos := 0 |}.
Proof.
  destruct (open_file_open "/a" (k_io demo_tree) demo_fd demo_io (sys_files_wf _ demo_tree_ok) (surjective_pairing _) demo_fd_ok) as [id Hf].
  exists id. split; [reflexivity|exact Hf|]. apply numbers_io, demo_numbers.
Qed.

Lemma stream_refines_file_witness : ∃ w', qos_ftell deaf_host true 8 [] (SFile 0) demo_stream = Some (0, w').
Proof.
  destruct demo_stream_open as [id Ho].
  destruct (stream_refines_file deaf_host 8 [] demo_stream 0 demo_fd id 3 _ Ho) as (_ & _ & _ & (w' & E & _) & _). exists w'. exact E.
Defined.

Lemma fgets_reads_line_witness : ∃ r w', qos_fgets deaf_host true 8 [] 32 10 (SFile 0) 64 demo_stream = Some (r, w').
Proof.
  destruct demo_stream_open as [id Ho].
  destruct (fgets_reads_line deaf_host 8 [] demo_stream 0 demo_fd id 3 _ 0 32 10 64 Ho) as (w' & E & _); try lia.
  eexists _, w'. exact E.
Defined.

Lemma stdio_roundtrip_witness :
  ∃ w', save_and_load deaf_host 8 [] 16 16 32 2 demo_world = Some ((2, 0, 2, 0), w') ∧ holds (w_mem w') 32 (bytes_of "/a") ∧ ¬ taken w' 0.
Proof.
  apply (stdio_roundtrip deaf_host 8 [] demo_world 16 "/a" demo_fd demo_io 0 16 32 2).
  - exact demo_tree_ok.
  - exact demo_numbers.
  - exact demo_openable.
  - reflexivity.
  - lia.
  - lia.
  - lia.
Defined.

(** Mode w of an existing path starts at its old contents: the kernel does not look at
    the flag that asks it to cut the file. *)
Theorem fopen_w_keeps_contents {H} (host : hostcall → list Z → mem → H → Z * mem * H) limit tmp w path p fd s i :
  sys_ok (w_kernel w) → numbers_ok (w_kernel w) → openable limit w path p fd s → free_slot w = Some i →
  ∃ id w', qos_fopen host true limit tmp path (Some (bytes_of "w")) w = Some (Some (SFile i), w')
    ∧ stream_open w' i fd id QOS_LIBC_FILE_MODE_WRITE {| fs_bytes := contents_of p (k_io (w_kernel w)); fs_pos := 0 |}.
Proof.
  intros Hk Hn Hop Hi.
  destruct (fopen_ok host limit tmp w i path p fd s (bytes_of "w") 2 577 Hk Hn Hop Hi ltac:(vm_compute; reflexivity)) as (id & w1 & E1 & O1 & _).
  by exists id, w1.
Qed.
