(* ===== verification/Posix.v ===== *)
(** * Process, signal, module and socket calls of the C library (c-os/libc/libc.c)

    Each call is a system call of the kernel with the process id the library worked
    out for its caller, or a call of the host when the kernel is not linked in.  The
    calls run in the monad of Stdio. *)

From S2P Require Import Prelude SlotTable SyscallTable Elf Proc Net Kernel Dispatch Syscalls FileCalls Cstring Stdio Streams.

Section posix.
Context {H : Type} (host : hostcall → list Z → mem → H → Z * mem * H).
Context (present : bool) (limit : nat) (tmp : list Z).
Abbreviation M := (call_m H).
Abbreviation sys := (qos_libc_syscall4 (H := H) present limit tmp).
Abbreviation hostsys := (qos_libc_host_syscall6 host).

Definition put_pid (pid : Z) : M unit := λ w,
  Some ((), {| w_files := w_files w; w_init := w_init w; w_mem := w_mem w; w_kernel := w_kernel w; w_host := w_host w; w_pid := pid |}).
Definition put_bytes (a : Z) (bs : list Z) : M unit := λ w, Some ((), with_mem (write_bytes a bs (w_mem w)) w).

(** [rc < 0 ? -1 : (int)rc] *)
Definition int_result (rc : Z) : Z := if rc <? 0 then -1 else i32 rc.

(** ** Which process this is *)

(** [for (candidate = 1; candidate <= 4096u; candidate++)], [k] candidates to go. *)
Fixpoint resolve_loop (k : nat) (candidate : Z) : M Z :=
  match k with
  | O => mret 0
  | S k' =>
      '(rc, used) ← sys 3 candidate 0 0 0;
      if (used : bool) && (rc =? candidate) then put_pid candidate;; mret candidate else resolve_loop k' (candidate + 1)
  end.

Definition qos_libc_resolve_pid : M Z :=
  if negb present then mret 0
  else
    cached ← (λ w, Some (w_pid w, w));
    if negb (cached =? 0) then
      '(rc, used) ← sys 3 cached 0 0 0;
      if (used : bool) && (rc =? cached) then mret cached else resolve_loop (Z.to_nat 4096) 1
    else resolve_loop (Z.to_nat 4096) 1.

Definition qos_getpid : M Z :=
  pid ← qos_libc_resolve_pid;
  if negb (pid =? 0) then mret (i32 pid) else rc ← hostsys SYS_getpid []; mret (i32 rc).

(** ** Processes *)

(** Both exits: the host call does not return. *)
Definition exit_with (nr : hostcall) (status : Z) : M unit :=
  pid ← qos_libc_resolve_pid;
  (if negb (pid =? 0) then sys 2 pid (u64 status) 0 0 else mret (0, false));;
  hostsys nr [status];; mret ().

Definition qos_exit (status : Z) : M unit := exit_with SYS_exit_group status.
Definition qos__exit (status : Z) : M unit := exit_with SYS_exit status.

(** The loop over child ids; [None] when it ends. *)
Fixpoint fork_loop (k : nat) (pid candidate : Z) : M (option Z) :=
  match k with
  | O => mret None
  | S k' =>
      '(probe, used) ← sys 3 candidate 0 0 0;
      (if (used : bool) && (probe <? 0) then
         '(rc, used2) ← sys 0 pid candidate 0 0;
         if (used2 : bool) && (0 <=? rc) then mret (Some (i32 rc)) else fork_loop k' pid (candidate + 1)
       else fork_loop k' pid (candidate + 1))
  end.

Definition qos_fork : M Z :=
  pid ← qos_libc_resolve_pid;
  child ← (if negb (pid =? 0) then fork_loop (Z.to_nat 4096) pid 1 else mret None);
  match child with
  | Some c => mret c
  | None => rc ← hostsys SYS_fork []; mret (int_result rc)
  end.

(** qos_execv and qos_execve differ in the environment they hand to the host. *)
Definition exec_with (path argv env : Z) : M Z :=
  let fallback := rc ← hostsys SYS_execve [path; argv; env]; mret (int_result rc) in
  pid ← qos_libc_resolve_pid;
  if negb (pid =? 0) then
    '(rc, used) ← sys 1 pid path argv 0;
    if used : bool then mret (if rc <? 0 then -1 else 0) else fallback
  else fallback.

Definition qos_execv (path argv environ : Z) : M Z := exec_with path argv environ.
Definition qos_execve (path argv envp : Z) : M Z := exec_with path argv envp.

Definition qos_waitpid (pid status options : Z) : M Z :=
  let fallback := rc ← hostsys SYS_wait4 [pid; status; options]; mret (int_result rc) in
  self ← qos_libc_resolve_pid;
  if negb (self =? 0) then
    '(rc, used) ← sys 4 self (u64 pid) status (u32 options);
    if used : bool then mret (int_result rc) else fallback
  else fallback.

Definition qos_kill (pid signum : Z) : M Z :=
  '(rc, used) ← sys 29 (u64 pid) (u64 signum) 0 0;
  if used : bool then mret (int_result rc) else rc ← hostsys SYS_kill [pid; signum]; mret (int_result rc).

Definition qos_raise (signum : Z) : M Z :=
  let fallback := self ← hostsys SYS_getpid []; rc ← hostsys SYS_kill [self; signum]; mret (if rc <? 0 then -1 else 0) in
  pid ← qos_libc_resolve_pid;
  if negb (pid =? 0) then
    '(rc, used) ← sys 29 pid (u32 signum) 0 0;
    if used : bool then mret (if rc <? 0 then -1 else 0) else fallback
  else fallback.

Definition SIGABRT : Z := 6.

Definition qos_abort : M unit := qos_raise SIGABRT;; qos__exit (128 + SIGABRT).

(** ** Signals *)

(** The first word of a sigset_t of 128 bytes. *)
Definition qos_libc_sigset_load (set : Z) : M Z :=
  if set =? 0 then mret 0 else m ← get_mem; mret (u_int (user_of limit m) set 4).

Definition qos_libc_sigset_store (set mask : Z) : M unit :=
  if set =? 0 then mret () else put_bytes set (replicate 128 0);; put_bytes set (le_bytes 4 mask).

Definition SIG_ERR : Z := 2 ^ 64 - 1.

Definition qos_signal (signum handler : Z) : M Z :=
  pid ← qos_libc_resolve_pid;
  if negb (pid =? 0) then
    '(rc, used) ← sys 30 pid (u32 signum) handler 0;
    if used : bool then mret (if rc <? 0 then SIG_ERR else u64 rc) else mret SIG_ERR
  else mret SIG_ERR.

(** The handler is the first word of a struct sigaction of 152 bytes. *)
Definition qos_sigaction (signum act oldact : Z) : M Z :=
  pid ← qos_libc_resolve_pid;
  if negb (pid =? 0) then
    m ← get_mem;
    '(rc, used) ← sys 30 pid (u32 signum) (if act =? 0 then 2 ^ 64 - 1 else u_int (user_of limit m) act 8) 0;
    if used : bool then
      if rc <? 0 then mret (-1)
      else if oldact =? 0 then mret 0
      else put_bytes oldact (replicate 152 0);; put_bytes oldact (le_bytes 8 (u64 rc));; mret 0
    else mret (-1)
  else mret (-1).

Definition qos_sigprocmask (how set oldset : Z) : M Z :=
  pid ← qos_libc_resolve_pid;
  if negb (pid =? 0) then
    '(rc, used) ← (if set =? 0 then sys 31 pid SIG_BLOCK 0 0
                   else mask ← qos_libc_sigset_load set; sys 31 pid (u32 how) mask 0);
    if used : bool then
      if rc <? 0 then mret (-1) else qos_libc_sigset_store oldset (u32 rc);; mret 0
    else mret (-1)
  else mret (-1).

Definition qos_sigpending (set : Z) : M Z :=
  pid ← qos_libc_resolve_pid;
  if negb (pid =? 0) then
    '(rc, used) ← sys 33 pid 0 0 0;
    if used : bool then
      if rc <? 0 then mret (-1) else qos_libc_sigset_store set (u32 rc);; mret 0
    else mret (-1)
  else mret (-1).

Definition qos_sigsuspend (mask : Z) : M Z :=
  pid ← qos_libc_resolve_pid;
  if negb (pid =? 0) then
    m ← qos_libc_sigset_load mask;
    '(rc, used) ← sys 34 pid m 0 0;
    if used : bool then mret (int_result rc) else mret (-1)
  else mret (-1).

(** A stack_t is a pointer, an int with padding and a size; [get] tells whether the
    kernel's qos_proc_signal_altstack_get is linked in. *)
Definition qos_sigaltstack (get : bool) (ss old_ss : Z) : M Z :=
  pid ← qos_libc_resolve_pid;
  if negb (pid =? 0) then
    k ← (λ w, Some (w_kernel w, w));
    m ← get_mem;
    let u := user_of limit m in
    let have := if negb (old_ss =? 0) && get
                then match qos_proc_signal_altstack_get pid true (k_procs k) with (0, Some a) => Some a | _ => None end
                else None in
    '(rc, used) ← (if ss =? 0 then sys 35 pid (2 ^ 64 - 1) 0 0
                   else sys 35 pid (u_int u ss 8) (u_int u (ss + 16) 8) (u_int u (ss + 8) 4));
    if used : bool then
      if rc <? 0 then mret (-1)
      else if old_ss =? 0 then mret 0
      else
        let old := default {| alt_sp := 0; alt_size := 0; alt_flags := u32 rc |} have in
        put_bytes old_ss (le_bytes 8 (alt_sp old));;
        put_bytes (old_ss + 16) (le_bytes 8 (alt_size old));;
        put_bytes (old_ss + 8) (le_bytes 4 (alt_flags old));;
        mret 0
    else mret (-1)
  else mret (-1).

(** ** Libraries and modules *)

(** The calls that have no counterpart on the host. *)
Definition kernel_only (nr a0 a1 : Z) : M Z :=
  '(rc, used) ← sys nr a0 a1 0 0;
  mret (if (used : bool) then int_result rc else -1).

(** A handle or address, 0 for NULL. *)
Definition kernel_pointer (nr a0 a1 : Z) : M Z :=
  '(rc, used) ← sys nr a0 a1 0 0;
  mret (if (used : bool) then (if rc <? 0 then 0 else rc) else 0).

Definition qos_dlopen (path flags : Z) : M Z := if path =? 0 then mret 0 else kernel_pointer 36 path (u32 flags).
Definition qos_dlclose (handle : Z) : M Z := if handle =? 0 then mret (-1) else kernel_only 37 handle 0.
Definition qos_dlsym (handle symbol : Z) : M Z :=
  if (handle =? 0) || (symbol =? 0) then mret 0 else kernel_pointer 38 handle symbol.
Definition qos_modload (path : Z) : M Z := if path =? 0 then mret (-1) else kernel_only 39 path 0.
Definition qos_modunload (module_id : Z) : M Z := kernel_only 40 (u32 module_id) 0.
Definition qos_modreload (module_id : Z) : M Z := kernel_only 41 (u32 module_id) 0.

(** ** Sockets *)

Definition kernel_or_host (nr a0 a1 a2 a3 : Z) (c : hostcall) (args : list Z) (f : Z → Z) : M Z :=
  '(rc, used) ← sys nr a0 a1 a2 a3;
  if used : bool then mret (f rc) else rc ← hostsys c args; mret (f rc).

(** [rc < 0 ? -1 : (ssize_t)rc] *)
Definition size_result (rc : Z) : Z := if rc <? 0 then -1 else rc.

Definition qos_socket (domain type proto : Z) : M Z :=
  kernel_or_host 14 (u64 domain) (u64 type) (u64 proto) 0 SYS_socket [domain; type; proto] int_result.
Definition qos_bind (fd addr addrlen : Z) : M Z :=
  kernel_or_host 15 (u64 fd) addr addrlen 0 SYS_bind [fd; addr; addrlen] int_result.
Definition qos_listen (fd backlog : Z) : M Z :=
  kernel_or_host 16 (u64 fd) (u64 backlog) 0 0 SYS_listen [fd; backlog] int_result.
Definition qos_accept (fd addr addrlen : Z) : M Z :=
  kernel_or_host 17 (u64 fd) addr addrlen 0 SYS_accept [fd; addr; addrlen] int_result.
Definition qos_connect (fd addr addrlen : Z) : M Z :=
  kernel_or_host 18 (u64 fd) addr addrlen 0 SYS_connect [fd; addr; addrlen] int_result.
Definition qos_send (fd buf len flags : Z) : M Z :=
  kernel_or_host 19 (u64 fd) buf len 0 SYS_sendto [fd; buf; len; flags; 0; 0] size_result.
Definition qos_recv (fd buf len flags : Z) : M Z :=
  kernel_or_host 20 (u64 fd) buf len 0 SYS_recvfrom [fd; buf; len; flags; 0; 0] size_result.
Definition qos_sendto (fd buf len flags addr addrlen : Z) : M Z :=
  kernel_or_host 19 (u64 fd) buf len addr SYS_sendto [fd; buf; len; flags; addr; addrlen] size_result.

(** The kernel does not say how long the address is; it is 16 bytes. *)
Definition qos_recvfrom (fd buf len flags addr addrlen : Z) : M Z :=
  '(rc, used) ← sys 20 (u64 fd) buf len addr;
  if used : bool then
    if rc <? 0 then mret (-1)
    else (if addrlen =? 0 then mret () else put_bytes addrlen (le_bytes 4 16));; mret rc
  else rc ← hostsys SYS_recvfrom [fd; buf; len; flags; addr; addrlen]; mret (size_result rc).

Definition qos_close (fd : Z) : M Z := kernel_or_host 8 (u64 fd) 0 0 0 SYS_close [fd] int_result.

End posix.

(** ** Which process calls, and which it creates *)

(** The lowest live process id up to 4096. *)
Definition lowest_live (k : kernel) (p : Z) : Prop :=
  1 <= p <= 4096 ∧ qos_proc_alive p (k_procs k) ≠ 0 ∧ ∀ q, 1 <= q < p → qos_proc_alive q (k_procs k) = 0.

Lemma with_kernel_same {H} (w : world H) : with_kernel (w_mem w) (w_kernel w) w = w.
Proof. by destruct w. Qed.

Section pids.
Context {H : Type} (host : hostcall → list Z → mem → H → Z * mem * H) (limit : nat) (tmp : list Z).
Implicit Types (w : world H).

Lemma getpid_call c w :
  called 3 (w_kernel w) = Some OP_GETPID → in_width 32 c →
  qos_libc_syscall4 true limit tmp 3 c 0 0 0 w = Some ((if qos_proc_alive c (k_procs (w_kernel w)) =? 0 then -1 else c, true), w).
Proof.
  intros Hc Hw. unfold qos_libc_syscall4. cbn [negb]. rewrite dispatch_called, Hc by done. cbn [dispatch_op]. unfold op_getpid, done_.
  rewrite wrap_small by done. cbn [apply_writes foldl]. by rewrite with_kernel_same.
Qed.

Definition with_pid (p : Z) w : world H :=
  {| w_files := w_files w; w_init := w_init w; w_mem := w_mem w; w_kernel := w_kernel w; w_host := w_host w; w_pid := p |}.

Lemma resolve_loop_ok n c p w :
  called 3 (w_kernel w) = Some OP_GETPID → 0 < c → c <= p < c + Z.of_nat n → c + Z.of_nat n < 2 ^ 31 →
  qos_proc_alive p (k_procs (w_kernel w)) ≠ 0 → (∀ q, c <= q < p → qos_proc_alive q (k_procs (w_kernel w)) = 0) →
  resolve_loop true limit tmp n c w = Some (p, with_pid p w).
Proof.
  intros Hc. revert c. induction n as [|n IH]; intros c H0 Hp Hb Ha Hl; [lia|]. cbn [resolve_loop]. unfold mbind, call_bind.
  rewrite getpid_call by (done || (unfold in_width; lia)). destruct (Z.eqb_spec (qos_proc_alive c (k_procs (w_kernel w))) 0) as [E|E].
  - rewrite (proj2 (Z.eqb_neq (-1) c)) by lia. cbn [andb]. assert (c ≠ p) by (intros ->; done). apply IH; [lia|lia|lia|done|]. intros q Hq. apply Hl. lia.
  - rewrite Z.eqb_refl. cbn [andb]. assert (c = p) as ->; [|done]. destruct (Z.eq_dec c p) as [|Hne]; [done|]. exfalso. apply E, Hl. lia.
Qed.

(** Whom a thread takes itself to be: the process it found before while that one
    lives, otherwise the lowest live process. *)
Definition taken_for w (p : Z) : Prop :=
  if (w_pid w =? 0) || (qos_proc_alive (w_pid w) (k_procs (w_kernel w)) =? 0) then lowest_live (w_kernel w) p else p = w_pid w.

Lemma resolve_pid_ok p w :
  called 3 (w_kernel w) = Some OP_GETPID → in_width 32 (w_pid w) → taken_for w p →
  qos_libc_resolve_pid true limit tmp w = Some (p, with_pid p w) ∧ 0 < p < 2 ^ 32 ∧ qos_proc_alive p (k_procs (w_kernel w)) ≠ 0.
Proof.
  intros Hc Hw Ht. unfold taken_for in Ht. unfold qos_libc_resolve_pid. cbn [negb]. unfold mbind at 1, call_bind at 1.
  assert (lowest_live (w_kernel w) p → resolve_loop true limit tmp (Z.to_nat 4096) 1 w = Some (p, with_pid p w)
    ∧ 0 < p < 2 ^ 32 ∧ qos_proc_alive p (k_procs (w_kernel w)) ≠ 0) as Hloop.
  { intros (Hp & Ha & Hl). split; [|split; [lia|done]]. apply resolve_loop_ok; [done|lia|lia|lia|done|]. intros q Hq. apply Hl. lia. }
  destruct (Z.eqb_spec (w_pid w) 0) as [E|E]; cbn [negb orb] in *; [by apply Hloop|]. unfold mbind, call_bind. rewrite getpid_call by done.
  destruct (Z.eqb_spec (qos_proc_alive (w_pid w) (k_procs (w_kernel w))) 0) as [Ea|Ea].
  - rewrite (proj2 (Z.eqb_neq (-1) _)) by (destruct Hw; lia). cbn [andb]. by apply Hloop.
  - subst p. rewrite Z.eqb_refl. cbn [andb]. split; [by destruct w|]. split; [destruct Hw; lia|done].
Qed.

Lemma fork_call pid c w :
  called 0 (w_kernel w) = Some OP_FORK → in_width 32 pid → in_width 32 c →
  qos_libc_syscall4 true limit tmp 0 pid c 0 0 w
  = let '(r, s) := qos_proc_fork pid c (k_procs (w_kernel w)) in
    Some ((if negb (r =? 0) then -1 else c, true), with_kernel (w_mem w) (set_procs s (w_kernel w)) w).
Proof.
  intros Hc Hp Hw. unfold qos_libc_syscall4. cbn [negb]. rewrite dispatch_called, Hc by done. cbn [dispatch_op]. unfold op_fork, done_.
  rewrite !wrap_small by done. by destruct (qos_proc_fork pid c (k_procs (w_kernel w))) as [r s].
Qed.

(** An id in use: the call does nothing. *)
Lemma fork_taken pid c w :
  called 0 (w_kernel w) = Some OP_FORK → in_width 32 pid → in_width 32 c → is_Some (find_pid c (k_procs (w_kernel w))) →
  qos_libc_syscall4 true limit tmp 0 pid c 0 0 w = Some ((-1, true), w).
Proof.
  intros Hc Hp Hw Hs. rewrite fork_call by done. unfold qos_proc_fork. rewrite bool_decide_eq_true_2, orb_true_r by done. cbn [Z.eqb negb].
  by rewrite set_procs_same, with_kernel_same.
Qed.

Lemma fork_loop_ok n pid c child w :
  called 3 (w_kernel w) = Some OP_GETPID → called 0 (w_kernel w) = Some OP_FORK → in_width 32 pid →
  0 < c → c <= child < c + Z.of_nat n → c + Z.of_nat n < 2 ^ 31 →
  find_pid child (k_procs (w_kernel w)) = None → (∀ q, c <= q < child → is_Some (find_pid q (k_procs (w_kernel w)))) →
  (qos_proc_fork pid child (k_procs (w_kernel w))).1 = 0 →
  fork_loop true limit tmp n pid c w
  = Some (Some child, with_kernel (w_mem w) (set_procs (qos_proc_fork pid child (k_procs (w_kernel w))).2 (w_kernel w)) w).
Proof.
  intros Hg Hf Hp. revert c. induction n as [|n IH]; intros c H0 Hc Hb Hn Hl Hok; [lia|]. cbn [fork_loop]. unfold mbind, call_bind.
  rewrite getpid_call by (done || (unfold in_width; lia)). destruct (Z.eq_dec c child) as [->|Hne].
  - unfold qos_proc_alive. rewrite Hn. cbn [Z.eqb Z.ltb Z.compare andb]. rewrite fork_call by (done || (unfold in_width; lia)).
    destruct (qos_proc_fork pid child _) as [r s]. cbn [fst] in Hok. subst r. cbn [Z.eqb negb].
    rewrite (proj2 (Z.leb_le 0 child)), sext_small by lia. done.
  - destruct (Hl c) as [i Hi]; [lia|].
    assert (fork_loop true limit tmp n pid (c + 1) w
            = Some (Some child, with_kernel (w_mem w) (set_procs (qos_proc_fork pid child (k_procs (w_kernel w))).2 (w_kernel w)) w)) as E.
    { apply IH; [lia|lia|lia|done| |done]. intros q Hq. apply Hl. lia. }
    destruct (_ =? 0); cbn [andb Z.ltb Z.compare].
    + rewrite fork_taken; [exact E|done|done|unfold in_width; lia|by exists i].
    + rewrite (proj2 (Z.ltb_ge c 0)) by lia. exact E.
Qed.
End pids.

(** Among more ids than slots one is not in the table. *)
Lemma free_pid s n :
  proc_wf s → (QOS_PROC_MAX < n)%nat → ∃ c, 1 <= c <= Z.of_nat n ∧ find_pid c s = None ∧ ∀ d, 1 <= d < c → is_Some (find_pid d s).
Proof.
  intros Hwf Hn. destruct (first_index (λ j, negb (bool_decide (is_Some (find_pid (1 + Z.of_nat j) s)))) (seq 0 n)) as [j|] eqn:E.
  - apply first_index_Some in E as (a & [-> Ha]%lookup_seq & Hj & Hmin). cbn [Nat.add] in *. exists (1 + Z.of_nat j). split; [lia|].
    apply negb_true_iff, bool_decide_eq_false in Hj. split; [by apply eq_None_not_Some|]. intros d Hd.
    specialize (Hmin (Z.to_nat (d - 1)) (Z.to_nat (d - 1)) ltac:(lia) ltac:(apply lookup_seq; lia)). replace (1 + Z.of_nat (Z.to_nat (d - 1))) with d in Hmin by lia.
    by apply negb_false_iff, bool_decide_eq_true in Hmin.
  - exfalso. rewrite first_index_None in E.
    assert (∀ j, (j < n)%nat → is_Some (find_pid (1 + Z.of_nat j) s)) as Hall.
    { intros j Hj. specialize (E j j ltac:(apply lookup_seq; lia)). by apply negb_false_iff, bool_decide_eq_true in E. }
    set (f := λ j, default 0%nat (find_pid (1 + Z.of_nat j) s)).
    assert (length (f <$> seq 0 n) <= length (seq 0 QOS_PROC_MAX))%nat as Hl.
    { apply NoDup_incl_length.
      - apply NoDup_ListNoDup, NoDup_fmap_2_strong; [|apply NoDup_seq]. intros x y Hx%elem_of_seq Hy%elem_of_seq. unfold f.
        destruct (Hall x) as [i Hi]; [lia|]. destruct (Hall y) as [i' Hi']; [lia|]. rewrite Hi, Hi'. cbn. intros <-.
        apply find_key_Some in Hi as (a & Ha & _ & Hk), Hi' as (b & Hb & _ & Hk'). assert (a = b) by congruence. subst b. rewrite Hk in Hk'. lia.
      - intros i Hi. apply in_seq. apply in_map_iff in Hi as (x & <- & Hx%in_seq). unfold f. destruct (Hall x) as [j Hj]; [lia|]. rewrite Hj. cbn.
        pose proof (find_key_lt _ _ _ Hj) as Hlt. rewrite (pw_len s Hwf) in Hlt. lia. }
    rewrite length_fmap, !length_seq in Hl. lia.
Qed.

Lemma find_pid_absent c s : proc_wf s → find_pid c s = None ↔ procs_abs s !! c = None.
Proof.
  intros Hwf. pose proof (find_pid_abs c s Hwf) as Ha. destruct (find_pid c s) as [i|]; [|done].
  split; [done|]. intros E. rewrite E in Ha. by destruct Ha as (? & ? & ? & ? & ? & ? & ? & ?).
Qed.

(** C21: whose call it is, and the child of qos_fork.  The kernel does not tell
    the library who calls: it keeps, per thread, the process it took itself to be
    before while that process lives, and otherwise takes itself to be the live process
    with the lowest id, at most 4096, whichever process calls.  While the process
    table has room, qos_fork then creates one process, with the lowest id that is not
    in the table (ids of processes that exited and were not waited for count as
    taken), as a child of that process with its signal handlers, mask, directory and
    image, and returns its id.  The system calls GETPID and FORK have their own
    handlers in the table. *)
Theorem fork_gives_lowest_id {H} (host : hostcall → list Z → mem → H → Z * mem * H) limit tmp w p :
  proc_wf (k_procs (w_kernel w)) → called 3 (w_kernel w) = Some OP_GETPID → called 0 (w_kernel w) = Some OP_FORK →
  in_width 32 (w_pid w) → taken_for w p → (size (procs_abs (k_procs (w_kernel w))) < QOS_PROC_MAX)%nat →
  let m := procs_abs (k_procs (w_kernel w)) in
  qos_getpid host true limit tmp w = Some (i32 p, with_pid p w)
  ∧ ∃ c b w', qos_fork host true limit tmp w = Some (c, w')
      ∧ 1 <= c <= 257 ∧ m !! c = None ∧ (∀ d, 1 <= d < c → is_Some (m !! d))
      ∧ m !! p = Some b ∧ procs_abs (k_procs (w_kernel w')) = <[c := forked_pcb p b]> m ∧ w_pid w' = p.
Proof.
  intros Hwf Hg Hf H0 Hlow Hroom m. destruct (resolve_pid_ok limit tmp p w Hg H0 Hlow) as (Er & Hp & Ha). split.
  { unfold qos_getpid, mbind, call_bind. by rewrite Er, (proj2 (Z.eqb_neq p 0)) by lia. }
  destruct (free_pid _ 257 Hwf ltac:(cbv; lia)) as (c & Hc & Hn & Hl).
  destruct (m !! p) as [b|] eqn:Eb.
  2:{ exfalso. apply find_pid_absent in Eb; [|done]. apply Ha. unfold qos_proc_alive. by rewrite Eb. }
  pose proof (proc_step_refines (PFork p c) (k_procs (w_kernel w)) Hwf) as Hs. cbn [proc_exec proc_op_ok proc_spec] in Hs. specialize (Hs ltac:(unfold in_width; lia)).
  assert (m !! c = None) as Emc by (by apply find_pid_absent).
  destruct (qos_proc_fork p c (k_procs (w_kernel w))) as [r s'] eqn:Ef. fold m in Hs. rewrite Eb, Emc in Hs. fold m in Hroom.
  rewrite (proj2 (Z.eqb_neq c 0)), bool_decide_eq_true_2, (proj2 (Nat.ltb_lt _ _) Hroom) in Hs by (done || lia). cbn [negb andb] in Hs.
  cbn [fst snd] in Hs. destruct Hs as (_ & -> & Hs). eexists c, b, _. split.
  - unfold qos_fork, mbind, call_bind. rewrite Er, (proj2 (Z.eqb_neq p 0)) by lia. cbn [negb].
    rewrite (fork_loop_ok limit tmp (Z.to_nat 4096) p 1 c (with_pid p w)); [reflexivity|done|done|unfold in_width; lia|lia|lia|lia|done|done|]. cbn [with_pid w_kernel]. by rewrite Ef.
  - split; [lia|]. split; [done|]. split; [|split; [done|]].
    + intros d Hd. destruct (m !! d) as [x|] eqn:Ed; [by exists x|]. apply find_pid_absent in Ed; [|done]. destruct (Hl d Hd) as [? ?]. congruence.
    + cbn [with_kernel w_kernel k_procs set_procs with_pid]. split; [by rewrite Ef|done].
Qed.

Definition demo_procs : procs := (qos_proc_create 1 0 qos_proc_reset).2.

Definition demo_process : world unit :=
  {| w_files := []; w_init := false; w_mem := demo_bytes; w_kernel := set_procs demo_procs demo_tree; w_host := (); w_pid := 0 |}.

Lemma demo_procs_wf : proc_wf demo_procs.
Proof. apply (proc_exec_wf (PCreate 1 0) qos_proc_reset); [exact proc_reset_wf|cbn; unfold in_width; lia]. Qed.

Lemma demo_called nr : called nr (w_kernel demo_process) = if sc_lookup nr table_init is Some (op, _) then op_of_code op else None.
Proof. apply called_table. reflexivity. Qed.

Lemma demo_lowest : lowest_live (w_kernel demo_process) 1.
Proof. split; [lia|]. split; [|lia]. intros Ea. apply (f_equal (λ x, x =? 1)) in Ea. lazy in Ea. discriminate Ea. Qed.

Lemma fork_gives_lowest_id_witness :
  ∃ c b w', qos_fork deaf_host true 8 [] demo_process = Some (c, w') ∧ 1 <= c <= 257
    ∧ procs_abs (k_procs (w_kernel w')) = <[c := forked_pcb 1 b]> (procs_abs demo_procs).
Proof.
  destruct (fork_gives_lowest_id deaf_host 8 [] demo_process 1) as (_ & c & b & w' & E & Hc & _ & _ & _ & Hm & _).
  - exact demo_procs_wf.
  - rewrite demo_called. vm_compute. reflexivity.
  - rewrite demo_called. vm_compute. reflexivity.
  - unfold in_width. cbn. lia.
  - exact demo_lowest.
  - apply Nat.ltb_lt. vm_compute. reflexivity.
  - exists c, b, w'. split; [exact E|]. split; [exact Hc|exact Hm].
Defined.
