(* ===== verification/Console.v ===== *)
(** * Formatted output to the standard streams (c-os/libc/libc.c: qos_printf, qos_puts, qos_perror)

    The calls format into a buffer of their own and write it to descriptor 1 or 2 of
    the kernel, or of the host when the kernel refuses.  The addresses of local
    buffers and of string literals are arguments. *)

From S2P Require Import Prelude NameBuf Render Dispatch Syscalls Cstring Cformat Stdio Streams Posix.

Section console.
Context {H : Type} (host : hostcall → list Z → mem → H → Z * mem * H).
Context (present : bool) (limit : nat) (tmp : list Z).
Abbreviation M := (call_m H).

Definition qos_libc_stdio_read (fd buf len : Z) : M Z :=
  '(rc, used) ← qos_libc_syscall4 present limit tmp 6 (u32 fd) buf len 0;
  if (used : bool) && (0 <=? rc) then mret rc else qos_libc_host_syscall6 host SYS_read [fd; buf; len].

Definition qos_libc_stdio_write (fd buf len : Z) : M Z :=
  '(rc, used) ← qos_libc_syscall4 present limit tmp 7 (u32 fd) buf len 0;
  if (used : bool) && (0 <=? rc) then mret rc else qos_libc_host_syscall6 host SYS_write [fd; buf; len].

(** qos_vsnprintf into the [n] bytes at [buf]; [None] for arguments of other types. *)
Definition format_into (buf : Z) (n : nat) (fmt : list Z) (ap : list arg) : M Z := λ w,
  match qos_vsnprintf (Some (u_mem (user_of limit (w_mem w)) buf n)) (Z.of_nat n) (Some fmt) ap with
  | Some (rc, Some b) => Some (rc, with_mem (write_bytes buf b (w_mem w)) w)
  | _ => None
  end.

Definition qos_printf (buf : Z) (fmt : option (list Z)) (ap : list arg) : M Z :=
  match fmt with
  | None => mret (-1)
  | Some fmt =>
      rc ← format_into buf 1024 fmt ap;
      if rc <? 0 then mret (-1)
      else
        let emit_len := if 1024 <=? u32 rc then 1023 else u32 rc in
        w ← qos_libc_stdio_write 1 buf emit_len;
        mret (if w <? 0 then -1 else rc)
  end.

Definition qos_putchar (ch c : Z) : M Z :=
  put_byte ch (u8 c);;
  w ← qos_libc_stdio_write 1 ch 1;
  m ← get_mem;
  mret (if w =? 1 then m ch else -1).

Definition qos_puts (newline s : Z) : M Z :=
  if s =? 0 then mret (-1)
  else
    m ← get_mem;
    let len := Z.of_nat (nul_after limit s m) in
    w ← qos_libc_stdio_write 1 s (u32 len);
    if w <? 0 then mret (-1)
    else w2 ← qos_libc_stdio_write 1 newline 1; mret (if negb (w2 =? 1) then -1 else i32 (len + 1)).

Definition qos_getchar (ch : Z) : M Z :=
  put_byte ch 0;;
  r ← qos_libc_stdio_read 0 ch 1;
  m ← get_mem;
  mret (if r =? 1 then m ch else -1).

(** [prefix] is a string or NULL, [err] the value of g_qos_errno. *)
Definition qos_perror (line err : Z) (prefix : option (list Z)) : M unit :=
  let msg := AStr (Some (qos_strerror err)) in
  wrote ← match prefix with
          | Some (c :: p) => format_into line 256 (bytes_of "%s: %s" ++ [10]) [AStr (Some (c :: p)); msg]
          | _ => format_into line 256 (bytes_of "%s" ++ [10]) [msg]
          end;
  if 0 <? wrote then
    qos_libc_stdio_write 2 line (if 256 <=? u32 wrote then 255 else u32 wrote);; mret ()
  else mret ().
End console.

(** The formatted text in memory. *)
Lemma format_into_ok {H} limit buf n fmt ap t (w : world H) :
  Forall arg_ok ap → expansion fmt ap = Some t → Z.of_nat (length t) < 2 ^ 31 → (0 < n)%nat →
  ∃ w', format_into limit buf n fmt ap w = Some (Z.of_nat (length t), w')
      ∧ holds (w_mem w') buf (take (n - 1) t ++ [0]) ∧ w_kernel w' = w_kernel w ∧ w_host w' = w_host w
      ∧ ∀ a, ¬ (buf <= a < buf + Z.of_nat n) → w_mem w' a = w_mem w a.
Proof.
  intros Hap Et Hl Hn. unfold format_into. set (b := u_mem _ buf n). assert (length b = n) as Hb by apply u_mem_length.
  pose proof (vsnprintf_spec b fmt ap t Hap Et Hl) as E. rewrite Hb in E. rewrite E, (proj2 (Nat.eqb_neq n 0)) by lia. cbv zeta.
  set (k := Nat.min (length t) (n - 1)). assert (take k t = take (n - 1) t) as Ek.
  { unfold k. destruct (Nat.le_gt_cases (length t) (n - 1)).
    - rewrite Nat.min_l by lia. rewrite (take_ge t (length t)), (take_ge t (n - 1)) by lia. done.
    - by rewrite Nat.min_r by lia. }
  eexists. split; [reflexivity|]. cbn [w_mem with_mem w_kernel w_host]. split; [|split; [done|split; [done|]]].
  - pose proof (write_bytes_holds buf (take k t ++ 0 :: drop (S k) b) (w_mem w)) as Hh. revert Hh. generalize (write_bytes buf (take k t ++ 0 :: drop (S k) b) (w_mem w)).
    intros m Hh. rewrite <- Ek. rewrite cons_middle, (assoc_L (++)) in Hh. by apply holds_app in Hh as [Hh _].
  - intros a Ha. apply write_bytes_other. rewrite length_app, length_take. cbn [length]. rewrite length_drop, Hb. lia.
Qed.

(** qos_printf hands one write to descriptor 1: the first 1023 bytes of the text
    of its format and arguments, from a buffer that holds them, and returns the length
    of the whole text unless that write fails.  Nothing but the buffer is written. *)
Theorem printf_writes_text {H} (host : hostcall → list Z → mem → H → Z * mem * H) present limit tmp buf fmt ap t w :
  Forall arg_ok ap → expansion fmt ap = Some t → Z.of_nat (length t) < 2 ^ 31 →
  ∃ w1, holds (w_mem w1) buf (take 1023 t ++ [0])
    ∧ w_kernel w1 = w_kernel w ∧ w_host w1 = w_host w ∧ (∀ a, ¬ (buf <= a < buf + 1024) → w_mem w1 a = w_mem w a)
    ∧ qos_printf host present limit tmp buf (Some fmt) ap w
      = match qos_libc_stdio_write host present limit tmp 1 buf (Z.of_nat (length (take 1023 t))) w1 with
        | Some (r, w2) => Some (if r <? 0 then -1 else Z.of_nat (length t), w2)
        | None => None
        end.
Proof.
  intros Hap Et Hl. destruct (format_into_ok limit buf 1024 fmt ap t w Hap Et Hl) as (w1 & E & Hh & Hk & Hx & Ha); [lia|].
  exists w1. split; [exact Hh|]. split; [done|]. split; [done|]. split; [exact Ha|].
  unfold qos_printf, mbind, call_bind. rewrite E, (proj2 (Z.ltb_ge _ 0)), wrap_small by (unfold in_width; lia). cbv zeta. rewrite length_take.
  replace (if 1024 <=? Z.of_nat (length t) then 1023 else Z.of_nat (length t)) with (Z.of_nat (Nat.min 1023 (length t))); [done|].
  destruct (Z.leb_spec 1024 (Z.of_nat (length t))); lia.
Qed.

Lemma printf_writes_text_witness :
  ∃ w1, holds (w_mem w1) 4096 (bytes_of "pid 7" ++ [0])
    ∧ qos_printf deaf_host true 8 [] 4096 (Some (bytes_of "pid %d")) [AInt 7] demo_process
      = match qos_libc_stdio_write deaf_host true 8 [] 1 4096 5 w1 with Some (r, w2) => Some (if r <? 0 then -1 else 5, w2) | None => None end.
Proof.
  destruct (printf_writes_text deaf_host true 8 [] 4096 (bytes_of "pid %d") [AInt 7] (bytes_of "pid 7") demo_process) as (w1 & Hh & _ & _ & _ & E).
  - apply Forall_singleton. cbn. lia.
  - reflexivity.
  - cbn. lia.
  - exists w1. split; [exact Hh|exact E].
Defined.
