(* ===== verification/Shell.v ===== *)
(** * The shell (c-os/userspace/shell.c)

    The shell keeps its own tables of paths, files, variables and modules, splits a
    line into tokens, and runs one command or two joined by a pipe.  Strings are the
    lists of their bytes; an unused slot of a table is [None], since the code never
    reads what it holds.  The rows of module paths are raw bytes, because the code
    does not always end them with a NUL. *)

From S2P Require Import Prelude SlotTable NameBuf Packet Kernel Dispatch Cstring Cformat.

Abbreviation str := (list Z).

Definition QOS_SH_PATH_MAX : nat := 128.
Definition QOS_SH_PATH_SLOTS : nat := 64.
Definition QOS_SH_FILE_SLOTS : nat := 64.
Definition QOS_SH_FILE_MAX : nat := 512.
Definition QOS_SH_ENV_SLOTS : nat := 32.
Definition QOS_SH_ENV_KEY_MAX : nat := 32.
Definition QOS_SH_ENV_VAL_MAX : nat := 128.
Definition QOS_SH_ARG_MAX : nat := 32.
Definition QOS_SH_TOKEN_MAX : nat := 128.
Definition QOS_SH_TOKENS_MAX : nat := 64.
Definition QOS_SH_OUT_MAX : nat := 2048.
Definition QOS_SH_PACKET_MAX : Z := 1500.
Definition QOS_SH_IPV4_LOCAL : Z := 0x0A00020F.
Definition QOS_SH_IPV4_GATEWAY : Z := 0x0A000202.

Record shell := {
  sh_paths : list (option str);
  sh_files : list (option (str * str));
  sh_env : list (option (str * str));
  sh_mod_ids : list (option Z);
  sh_mod_rows : list Z;
  sh_mod_next : Z;
  sh_cwd : str
}.

Definition set_paths (l : list (option str)) (s : shell) : shell :=
  {| sh_paths := l; sh_files := sh_files s; sh_env := sh_env s; sh_mod_ids := sh_mod_ids s; sh_mod_rows := sh_mod_rows s;
     sh_mod_next := sh_mod_next s; sh_cwd := sh_cwd s |}.
Definition set_files (l : list (option (str * str))) (s : shell) : shell :=
  {| sh_paths := sh_paths s; sh_files := l; sh_env := sh_env s; sh_mod_ids := sh_mod_ids s; sh_mod_rows := sh_mod_rows s;
     sh_mod_next := sh_mod_next s; sh_cwd := sh_cwd s |}.
Definition set_env (l : list (option (str * str))) (s : shell) : shell :=
  {| sh_paths := sh_paths s; sh_files := sh_files s; sh_env := l; sh_mod_ids := sh_mod_ids s; sh_mod_rows := sh_mod_rows s;
     sh_mod_next := sh_mod_next s; sh_cwd := sh_cwd s |}.
Definition set_mods (ids : list (option Z)) (rows : list Z) (next : Z) (s : shell) : shell :=
  {| sh_paths := sh_paths s; sh_files := sh_files s; sh_env := sh_env s; sh_mod_ids := ids; sh_mod_rows := rows;
     sh_mod_next := next; sh_cwd := sh_cwd s |}.
Definition set_cwd (c : str) (s : shell) : shell :=
  {| sh_paths := sh_paths s; sh_files := sh_files s; sh_env := sh_env s; sh_mod_ids := sh_mod_ids s; sh_mod_rows := sh_mod_rows s;
     sh_mod_next := sh_mod_next s; sh_cwd := c |}.

Definition streq (a b : str) : bool := bool_decide (a = b).

Definition has_prefix (s prefix : str) : bool := bool_decide (take (length prefix) s = prefix).

(** [strncpy(dst, src, cap - 1); dst[cap - 1] = '\0';] *)
Definition copy_string (cap : nat) (src : str) : str := take (cap - 1) src.

(** [out_append(out, cap, text)], [None] for a NULL text. *)
Definition out_append (cap : nat) (text : option str) (out : str) : str :=
  match text with
  | None => out
  | Some text =>
      if (cap =? 0)%nat || (cap - 1 <=? length out)%nat then out
      else let room := (cap - 1 - length out)%nat in out ++ take (Nat.min (length text) room) text
  end.

(** ** Paths *)

(** A slot is used when it holds an entry; an entry is looked up by its path or name. *)
#[export] Instance entry_slotted {A} : Slotted (option A) := λ e, bool_decide (is_Some e).
#[export] Instance path_keyed : Keyed (option str) str := λ e, default [] e.
#[export] Instance entry_keyed : Keyed (option (str * str)) str := λ e, default [] (fst <$> e).

Definition fs_find (path : str) (s : shell) : option nat := find_key path (sh_paths s).

(** [path[0] != '/'] *)
Definition absolute (path : str) : bool := match path with c :: _ => c =? 47 | [] => false end.

Definition fs_add (path : str) (s : shell) : Z * shell :=
  if negb (absolute path) then (-1, s)
  else if bool_decide (is_Some (fs_find path s)) then (-1, s)
  else match free_slot (sh_paths s) with
       | Some i => (0, set_paths (<[i := Some (copy_string QOS_SH_PATH_MAX path)]> (sh_paths s)) s)
       | None => (-1, s)
       end.

Definition fs_remove (path : str) (s : shell) : Z * shell :=
  match fs_find path s with
  | None => (-1, s)
  | Some i => (0, set_paths (<[i := None]> (sh_paths s)) s)
  end.

(** ** Files *)

Definition file_find (path : str) (s : shell) : option nat := find_key path (sh_files s).

Definition file_data (i : nat) (s : shell) : str := match sh_files s !! i with Some (Some (_, d)) => d | _ => [] end.

Definition file_get (path : str) (s : shell) : option str := (λ i, file_data i s) <$> file_find path s.

Definition file_store (i : nat) (path data : str) (s : shell) : shell := set_files (<[i := Some (path, data)]> (sh_files s)) s.

Definition file_set (path content : str) (append : bool) (s : shell) : Z * shell :=
  if negb (absolute path) then (-1, s)
  else
    let found :=
      match file_find path s with
      | Some i => Some (i, s)
      | None => match free_slot (sh_files s) with
                | Some i => Some (i, file_store i (copy_string QOS_SH_PATH_MAX path) [] s)
                | None => None
                end
      end in
    match found with
    | None => (-1, s)
    | Some (i, s1) =>
        let name := match sh_files s1 !! i with Some (Some (p, _)) => p | _ => [] end in
        let cur := file_data i s1 in
        let room := (QOS_SH_FILE_MAX - 1 - length cur)%nat in
        (0, file_store i name
              (if append then cur ++ take (Nat.min (length content) room) content else copy_string QOS_SH_FILE_MAX content) s1)
    end.

Definition file_remove (path : str) (s : shell) : shell :=
  match file_find path s with
  | None => s
  | Some i => set_files (<[i := None]> (sh_files s)) s
  end.

(** ** Variables *)

Definition env_find (key : str) (s : shell) : option nat := find_key key (sh_env s).

Definition env_set (key value : str) (s : shell) : shell :=
  let slot := match env_find key s with
              | Some i => Some (i, match sh_env s !! i with Some (Some (k, _)) => k | _ => [] end)
              | None => (λ i, (i, copy_string QOS_SH_ENV_KEY_MAX key)) <$> free_slot (sh_env s)
              end in
  match slot with
  | Some (i, k) => set_env (<[i := Some (k, copy_string QOS_SH_ENV_VAL_MAX value)]> (sh_env s)) s
  | None => s
  end.

Definition env_get (key : str) (s : shell) : option str :=
  i ← env_find key s; e ← sh_env s !! i; snd <$> e.

Definition env_unset (key : str) (s : shell) : shell :=
  match env_find key s with
  | None => s
  | Some i => set_env (<[i := None]> (sh_env s)) s
  end.

Definition fs_reset : shell :=
  env_set (bytes_of "PATH") (bytes_of "/bin:/usr/bin")
    {| sh_paths := [Some (bytes_of "/tmp"); Some (bytes_of "/proc"); Some (bytes_of "/data")] ++ replicate 61 None;
       sh_files := replicate QOS_SH_FILE_SLOTS None; sh_env := replicate QOS_SH_ENV_SLOTS None;
       sh_mod_ids := replicate QOS_SH_FILE_SLOTS None; sh_mod_rows := replicate (QOS_SH_FILE_SLOTS * QOS_SH_PATH_MAX) 0;
       sh_mod_next := 1; sh_cwd := bytes_of "/" |}.

(** ** Modules *)

(** The string at row [i]: it runs on into the next row when the row has no NUL. *)
Definition mod_path (i : nat) (s : shell) : str := c_string (drop (i * QOS_SH_PATH_MAX) (sh_mod_rows s)).

(** A used slot whose path is [path], by a scan from slot [i]. *)
Fixpoint mod_scan (ids : list (option Z)) (i : nat) (path : str) (s : shell) : option nat :=
  match ids with
  | [] => None
  | id :: ids' => if bool_decide (is_Some id) && streq (mod_path i s) path then Some i else mod_scan ids' (S i) path s
  end.

(** The character constant ['\\0'] is a backslash and a zero; the byte stored is '0'. *)
Definition BACKSLASH_ZERO : Z := 48.

(** Row [i] after strncpy of 127 bytes and the store to its last byte. *)
Definition mod_row (i : nat) (path : str) (rows : list Z) : list Z :=
  take (i * QOS_SH_PATH_MAX) rows ++ resize (QOS_SH_PATH_MAX - 1) 0 path ++ [BACKSLASH_ZERO] ++ drop ((i + 1) * QOS_SH_PATH_MAX) rows.

Definition mod_track (path : str) (module_id : Z) (s : shell) : shell :=
  if module_id =? 0 then s
  else match mod_scan (sh_mod_ids s) 0 path s with
       | Some i => set_mods (<[i := Some module_id]> (sh_mod_ids s)) (sh_mod_rows s) (sh_mod_next s) s
       | None => match free_slot (sh_mod_ids s) with
                 | Some i => set_mods (<[i := Some module_id]> (sh_mod_ids s)) (mod_row i path (sh_mod_rows s)) (sh_mod_next s) s
                 | None => s
                 end
       end.

Definition mod_find_id_by_path (path : str) (s : shell) : option Z :=
  i ← mod_scan (sh_mod_ids s) 0 path s; id ← sh_mod_ids s !! i; id.

Definition mod_forget_id (module_id : Z) (s : shell) : shell :=
  if module_id =? 0 then s
  else match first_index (λ id, bool_decide (id = Some module_id)) (sh_mod_ids s) with
       | Some i => set_mods (<[i := None]> (sh_mod_ids s)) (<[(i * QOS_SH_PATH_MAX)%nat := BACKSLASH_ZERO]> (sh_mod_rows s)) (sh_mod_next s) s
       | None => s
       end.

(** ** Parsing *)

(** [value = value * 10u + ...] in 64 bits, [None] above UINT32_MAX or at another byte. *)
Fixpoint u32_digits (value : Z) (s : str) : option Z :=
  match s with
  | [] => Some value
  | c :: s' =>
      if (c <? 48) || (57 <? c) then None
      else let v := u64 (value * 10 + (c - 48)) in if 2 ^ 32 - 1 <? v then None else u32_digits v s'
  end.

Definition parse_u32_arg (s : str) : option Z := match s with [] => None | _ => u32_digits 0 s end.

(** The loop over the bytes: the parts so far, the current number. *)
Fixpoint ipv4_loop (parts : list Z) (cur : Z) (p : str) : option (list Z * Z) :=
  match p with
  | [] => Some (parts, cur)
  | ch :: p' =>
      if digit ch then
        let v := u32 (u32 (cur * 10) + (ch - 48)) in if 255 <? v then None else ipv4_loop parts v p'
      else if ch =? 46 then if (3 <=? length parts)%nat then None else ipv4_loop (parts ++ [cur]) 0 p'
      else None
  end.

Definition parse_ipv4_addr (s : str) : option Z :=
  match s with
  | [] => None
  | _ => match ipv4_loop [] 0 s with
         | Some ([p0; p1; p2], p3) =>
             Some (Z.lor (Z.lor (Z.lor (u32 (Z.shiftl p0 24)) (u32 (Z.shiftl p1 16))) (u32 (Z.shiftl p2 8))) p3)
         | _ => None
         end
  end.

Definition make_sockaddr (port ip : Z) : list Z :=
  [2; 0; Z.land (Z.shiftr port 8) 255; Z.land port 255; Z.land (Z.shiftr ip 24) 255; Z.land (Z.shiftr ip 16) 255;
   Z.land (Z.shiftr ip 8) 255; Z.land ip 255] ++ replicate 8 0.

(** The digits of a port; [None] above 65535 or at another byte. *)
Fixpoint port_loop (port : Z) (q : str) : option Z :=
  match q with
  | [] => Some port
  | c :: q' => if negb (digit c) then None else let v := u32 (port * 10 + (c - 48)) in if 65535 <? v then None else port_loop v q'
  end.

(** [strchr]: the bytes before the first [c], and those from it on. *)
Fixpoint split_at (c : Z) (s : str) : str * option str :=
  match s with
  | [] => ([], None)
  | x :: s' => if x =? c then ([], Some s) else let '(a, b) := split_at c s' in (x :: a, b)
  end.

(** Address, port, host and path; the two buffers hold 32 and 128 bytes. *)
Definition parse_http_url (url : str) : option (Z * Z * str * str) :=
  if negb (has_prefix url (bytes_of "http://")) then None
  else
    let '(authority, slash) := split_at 47 (drop 7 url) in
    let '(host, colon) := split_at 58 authority in
    if (length authority =? 0)%nat || (length host =? 0)%nat || (32 <=? length host)%nat then None
    else
      let port := match colon with
                  | None => Some 80
                  | Some q => match tail q with
                              | [] => None
                              | q' => match port_loop 0 q' with Some p => if p =? 0 then None else Some p | None => None end
                              end
                  end in
      match port, parse_ipv4_addr host with
      | Some port, Some ip => Some (ip, port, copy_string 32 host, copy_string 128 (default (bytes_of "/") slash))
      | _, _ => None
      end.

(** [/proc/<pid>/status], the pid modulo 2^32. *)
Fixpoint pid_digits (pid : Z) (s : str) : option Z :=
  match s with [] => Some pid | c :: s' => if (c <? 48) || (57 <? c) then None else pid_digits (u32 (u32 (pid * 10) + (c - 48))) s' end.

Definition parse_proc_status_pid (path : str) : option Z :=
  if negb (has_prefix path (bytes_of "/proc/")) then None
  else if (length path <=? 13)%nat || negb (streq (drop (length path - 7) path) (bytes_of "/status")) then None
  else match pid_digits 0 (take (length path - 7 - 6) (drop 6 path)) with
       | Some pid => if pid =? 0 then None else Some pid
       | None => None
       end.

(** ** Commands by name *)

Definition g_exec_paths : list str :=
  let names := bytes_of <$> ["ls"; "cat"; "echo"; "mkdir"; "rm"; "ps"; "ping"; "wget"; "ip"; "touch"; "edit"; "insmod"; "rmmod"; "wqdemo"]%string in
  (app (bytes_of "/bin/") <$> names) ++ (app (bytes_of "/usr/bin/") <$> names).

Definition is_builtin_name (cmd : str) : bool :=
  bool_decide (cmd ∈ bytes_of <$> ["help"; "exit"; "echo"; "cd"; "pwd"; "export"; "unset"; "ip"; "insmod"; "rmmod"; "wqdemo"]%string).

(** What follows the last slash, [strrchr(s, '/') + 1]. *)
Definition basename (s : str) : str :=
  match last_index (λ c, c =? 47) s with Some i => drop (S i) s | None => s end.

Definition resolve_exec_path_basename (path : str) : option str :=
  if bool_decide (path ∈ g_exec_paths) then Some (basename path) else None.

(** One directory of PATH. *)
Definition try_segment (seg cmd : str) : option str :=
  if (length seg =? 0)%nat || (128 <=? length seg + 1 + length cmd)%nat then None
  else resolve_exec_path_basename (seg ++ (if last seg is Some 47 then [] else [47]) ++ cmd).

(** The scan over PATH, [seg] the directory so far. *)
Fixpoint path_loop (seg p cmd : str) : option str :=
  match p with
  | [] => try_segment seg cmd
  | c :: p' =>
      if c =? 58 then match try_segment seg cmd with Some r => Some r | None => path_loop [] p' cmd end
      else path_loop (seg ++ [c]) p' cmd
  end.

Definition resolve_external_from_path (cmd : str) (s : shell) : option str :=
  match cmd, env_get (bytes_of "PATH") s with
  | _ :: _, Some (c :: p) => path_loop [] (c :: p) cmd
  | _, _ => None
  end.

Definition resolve_command_name (raw : str) (s : shell) : option str :=
  match raw with
  | [] => None
  | _ =>
      if is_builtin_name raw then Some raw
      else if bool_decide (47 ∈ raw) then resolve_exec_path_basename raw
      else resolve_external_from_path raw s
  end.

(** ** Tokens *)

Definition is_blank (c : Z) : bool := (c =? 32) || (c =? 9) || (c =? 10) || (c =? 13).

Fixpoint skip_blanks (p : str) : str := match p with c :: p' => if is_blank c then skip_blanks p' else p | [] => [] end.

(** Bytes up to the closing quote, at most [room]; what is left. *)
Fixpoint quoted (room : nat) (quote : Z) (p : str) : str * str :=
  match room, p with
  | S room', c :: p' => if c =? quote then ([], p) else let '(t, r) := quoted room' quote p' in (c :: t, r)
  | _, _ => ([], p)
  end.

Definition word_byte (c : Z) : bool := negb (is_blank c || (c =? 124) || (c =? 60) || (c =? 62)).

Fixpoint plain (room : nat) (p : str) : str * str :=
  match room, p with
  | S room', c :: p' => if word_byte c then let '(t, r) := plain room' p' in (c :: t, r) else ([], p)
  | _, _ => ([], p)
  end.

(** One turn of the loop at a byte that is not blank: a token and the rest. *)
Definition token (p : str) : str * str :=
  match p with
  | [] => ([], [])
  | c :: p' =>
      if (c =? 124) || (c =? 60) then ([c], p')
      else if c =? 62 then match p' with d :: p'' => if d =? 62 then ([62; 62], p'') else ([62], p') | [] => ([62], p') end
      else if (c =? 39) || (c =? 34) then
        let '(t, r) := quoted (QOS_SH_TOKEN_MAX - 1) c p' in
        (t, match r with q :: r' => if q =? c then r' else r | [] => [] end)
      else plain (QOS_SH_TOKEN_MAX - 1) p
  end.

(** [None]: too little fuel. *)
Fixpoint tokenize (fuel max_tokens : nat) (line : str) : option (list str) :=
  match fuel with
  | O => None
  | S fuel' =>
      match skip_blanks line with
      | [] => Some []
      | p => match max_tokens with
             | O => Some []
             | S max' => let '(t, r) := token p in cons t <$> tokenize fuel' max' r
             end
      end
  end.

(** ** The kernel behind the shell *)

(** Memory that holds the given byte strings at the given addresses. *)
Fixpoint seg_byte (segs : list (Z * list Z)) (a : Z) : Z :=
  match segs with
  | [] => 0
  | (b, bs) :: segs' => if (b <=? a) && (a <? b + Z.of_nat (length bs)) then nth (Z.to_nat (a - b)) bs 0 else seg_byte segs' a
  end.

Fixpoint seg_strlen (segs : list (Z * list Z)) (a : Z) : nat :=
  match segs with [] => O | (b, bs) :: segs' => if a =? b then length (c_string bs) else seg_strlen segs' a end.

Definition seg_user (segs : list (Z * list Z)) : user := {| u_byte := seg_byte segs; u_strlen := seg_strlen segs |}.

(** Where the arguments of a call lie; the kernel looks at pointers only to tell NULL. *)
Definition PATH_AT : Z := 4096.
Definition BUF_AT : Z := 8192.
Definition OUT_AT : Z := 16384.

(** The shell, the kernel it is linked with ([None] for none) and the output so far. *)
Record run := { r_shell : shell; r_kernel : option kernel; r_out : str; r_exit : bool }.

Definition say (text : str) (r : run) : run :=
  {| r_shell := r_shell r; r_kernel := r_kernel r; r_out := out_append QOS_SH_OUT_MAX (Some text) (r_out r); r_exit := r_exit r |}.
Definition in_shell (s : shell) (r : run) : run := {| r_shell := s; r_kernel := r_kernel r; r_out := r_out r; r_exit := r_exit r |}.
Definition in_kernel (k : kernel) (r : run) : run := {| r_shell := r_shell r; r_kernel := Some k; r_out := r_out r; r_exit := r_exit r |}.

(** [snprintf(tmp, sizeof(tmp), ...); out_append(out, out_cap, tmp);] *)
Definition sayf (parts : list str) (r : run) : run := say (copy_string QOS_SH_OUT_MAX (concat parts)) r.

Definition LF : str := [10].
Definition CRLF : str := [13; 10].

(** ** A module image *)

Definition elf_w16 (v : Z) : list Z := [Z.land v 255; Z.shiftr v 8].
Definition elf_w32 (v : Z) : list Z := le_bytes 4 v.
Definition elf_w64 (v : Z) : list Z := le_bytes 8 v.

(** [elf_w..(out + at, v)] *)
Definition store_at (at_ : nat) (bs out : list Z) : list Z := take at_ out ++ bs ++ drop (at_ + length bs) out.

Definition build_test_shared_elf : list Z :=
  let phoff := 64%nat in
  let out := store_at 0 [127; 69; 76; 70; 2; 1; 1] (replicate 256 0) in
  let out := store_at 56 (elf_w16 1) (store_at 54 (elf_w16 56) (store_at 52 (elf_w16 64) (store_at 32 (elf_w64 (Z.of_nat phoff))
             (store_at 24 (elf_w64 0x401000) (store_at 20 (elf_w32 1) (store_at 18 (elf_w16 0x3E) (store_at 16 (elf_w16 3) out))))))) in
  store_at (phoff + 48) (elf_w64 0x1000) (store_at (phoff + 40) (elf_w64 128) (store_at (phoff + 32) (elf_w64 128)
  (store_at (phoff + 24) (elf_w64 0) (store_at (phoff + 16) (elf_w64 0x400000) (store_at (phoff + 8) (elf_w64 0)
  (store_at (phoff + 4) (elf_w32 5) (store_at phoff (elf_w32 1) out))))))).

Section commands.
Context (tmp : list Z) (echo_linked : bool).

(** One system call with the given strings in memory. *)
Definition sh_call (nr a0 a1 a2 a3 : Z) (segs : list (Z * list Z)) (k : kernel) : option (Z * list (Z * list Z) * kernel) :=
  qos_syscall_dispatch nr a0 a1 a2 a3 (seg_user segs) tmp k.

(** MKDIR, OPEN, WRITE and CLOSE; the result is not used by the caller. *)
Definition stage_test_module_image (path : str) (k : kernel) : option kernel :=
  if negb (absolute path) then Some k
  else
    let segs := [(PATH_AT, path ++ [0]); (BUF_AT, build_test_shared_elf)] in
    '(_, _, k1) ← sh_call 22 PATH_AT 0 0 0 segs k;
    '(fd, _, k2) ← sh_call 5 PATH_AT 0 0 0 segs k1;
    if fd <? 0 then Some k2
    else
      '(_, _, k3) ← sh_call 7 (u64 fd) BUF_AT 256 0 segs k2;
      '(_, _, k4) ← sh_call 8 (u64 fd) 0 0 0 segs k3;
      Some k4.

(** The number of bytes received, or -1. *)
Definition ping_via_syscall_raw (dst_ip : Z) (payload : list Z) (k : kernel) : option (Z * kernel) :=
  let len := Z.of_nat (length payload) in
  if (len =? 0) || (QOS_SH_PACKET_MAX <? len) then Some (-1, k)
  else
    let segs := [(PATH_AT, make_sockaddr 1 dst_ip); (BUF_AT, payload)] in
    '(fd, _, k1) ← sh_call 14 2 3 1 0 segs k;
    if fd <? 0 then Some (-1, k1)
    else
      let close rc k := '(_, _, k') ← sh_call 8 (u64 fd) 0 0 0 segs k; Some (rc, k') in
      '(rc, _, k2) ← sh_call 18 (u64 fd) PATH_AT 16 0 segs k1;
      if negb (rc =? 0) then close (-1) k2
      else
        '(rc, _, k3) ← sh_call 19 (u64 fd) BUF_AT len 0 segs k2;
        if negb (rc =? len) then close (-1) k3
        else
          '(rc, _, k4) ← sh_call 20 (u64 fd) OUT_AT len 0 segs k3;
          close (if rc <? 0 then -1 else i32 rc) k4.

Definition wget_host_fallback (dst_ip : Z) (r : run) : Z * run :=
  if negb (dst_ip =? QOS_SH_IPV4_GATEWAY) then (-1, r)
  else (0, say (bytes_of "HTTP/1.0 200 OK" ++ CRLF ++ bytes_of "Content-Length: 4" ++ CRLF ++ CRLF ++ bytes_of "qos" ++ LF) r).

Definition request (path host : str) : str := bytes_of "GET " ++ path ++ bytes_of " HTTP/1.0" ++ CRLF ++ bytes_of "Host: " ++ host ++ CRLF ++ CRLF.

Definition wget_via_syscall_stream (url : str) (r : run) : option (Z * run) :=
  match parse_http_url url with
  | None => Some (-1, r)
  | Some (ip, port, host, path) =>
      match r_kernel r with
      | None => Some (wget_host_fallback ip r)
      | Some k =>
          let req := request path host in
          let segs := [(PATH_AT, make_sockaddr port ip); (BUF_AT, req ++ [0])] in
          '(fd, _, k1) ← sh_call 14 2 1 0 0 segs k;
          if fd <? 0 then Some (wget_host_fallback ip (in_kernel k1 r))
          else
            let close k := '(_, _, k') ← sh_call 8 (u64 fd) 0 0 0 segs k; Some k' in
            '(rc, _, k2) ← sh_call 18 (u64 fd) PATH_AT 16 0 segs k1;
            if negb (rc =? 0) then k' ← close k2; Some (wget_host_fallback ip (in_kernel k' r))
            else if (256 <=? length req)%nat then k' ← close k2; Some (-1, in_kernel k' r)
            else
              let len := Z.of_nat (length req) in
              '(rc, _, k3) ← sh_call 19 (u64 fd) BUF_AT len 0 segs k2;
              if negb (rc =? len) then k' ← close k3; Some (wget_host_fallback ip (in_kernel k' r))
              else
                '(rc, ws, k4) ← sh_call 20 (u64 fd) OUT_AT 2047 0 segs k3;
                k5 ← close k4;
                if rc <=? 0 then Some (wget_host_fallback ip (in_kernel k5 r))
                else
                  let resp := match ws with (_, bs) :: _ => bs | [] => [] end in
                  Some (0, say (c_string (take (Z.to_nat (Z.min rc 2047)) resp)) (in_kernel k5 r))
      end
  end.

(** ** The commands *)

Definition help_text : str :=
  concat (map (λ s, bytes_of s ++ LF)
        ["qos-sh commands:"; "  help"; "  ls [path]"; "  cat <path>"; "  echo <text>"; "  mkdir <path>"; "  rm <path>"; "  touch <path>";
         "  edit <path> [text]"; "  cd <path>"; "  pwd"; "  export KEY=VAL"; "  unset KEY"; "  ps"; "  ping <ip>"; "  ip addr"; "  ip route";
         "  insmod <path>"; "  rmmod <id|path>"; "  wqdemo"; "  wget <url>"; "  exit"]%string).

Definition cmd_ls (r : run) : run :=
  foldl (λ r e, match e with Some p => say LF (say p r) | None => r end) (say (bytes_of "bin" ++ LF) r) (sh_paths (r_shell r)).

(** Arguments behind the command; [input] is what < or the pipe gave. *)
Definition cmd_cat (args : list str) (input : option str) (r : run) : run :=
  match args with
  | [] => say (default (bytes_of "cat: missing path" ++ LF) input) r
  | a :: _ =>
      if streq a (bytes_of "/proc/meminfo") then
        say (bytes_of "MemTotal:" ++ [9] ++ bytes_of "16384 kB" ++ LF ++ bytes_of "MemFree:" ++ [9] ++ bytes_of "8192 kB" ++ LF
             ++ bytes_of "ProcCount:" ++ [9] ++ bytes_of "1" ++ LF) r
      else match parse_proc_status_pid a with
           | Some pid => sayf [bytes_of "Pid:" ++ [9]; number pid 10; LF; bytes_of "State:" ++ [9]; bytes_of "Running" ++ LF] r
           | None =>
               match file_get a (r_shell r) with
               | Some d => say d r
               | None => if bool_decide (is_Some (fs_find a (r_shell r))) then say LF (say a r)
                         else sayf [bytes_of "cat: not found: "; a; LF] r
               end
           end
  end.

(** The arguments with a space between them. *)
Fixpoint echo_args (first : bool) (args : list str) (r : run) : run :=
  match args with
  | [] => r
  | a :: args' => echo_args false args' (say a (if first then r else say [32] r))
  end.

Definition cmd_echo (args : list str) (input : option str) (r : run) : run :=
  match args with
  | _ :: _ => say LF (echo_args true args r)
  | [] => say (default LF input) r
  end.

Definition arg1 (args : list str) : str := match args with a :: _ => a | [] => bytes_of "(null)" end.

Definition cmd_mkdir (args : list str) (r : run) : run :=
  match args with
  | [] => sayf [bytes_of "mkdir: failed "; arg1 args; LF] r
  | a :: _ =>
      let '(rc, s) := fs_add a (r_shell r) in
      if negb (rc =? 0) then sayf [bytes_of "mkdir: failed "; a; LF] (in_shell s r)
      else sayf [bytes_of "created "; a; LF] (in_shell s r)
  end.

Definition cmd_rm (args : list str) (r : run) : run :=
  match args with
  | [] => sayf [bytes_of "rm: failed "; arg1 args; LF] r
  | a :: _ =>
      let '(rc, s) := fs_remove a (r_shell r) in
      if negb (rc =? 0) then sayf [bytes_of "rm: failed "; a; LF] (in_shell s r)
      else sayf [bytes_of "removed "; a; LF] (in_shell (file_remove a s) r)
  end.

Definition cmd_touch (args : list str) (r : run) : run :=
  match args with
  | [] => sayf [bytes_of "touch: failed "; arg1 args; LF] r
  | a :: _ =>
      if negb (absolute a) then sayf [bytes_of "touch: failed "; a; LF] r
      else
        let '(rc, s) := match file_find a (r_shell r) with Some _ => (0, r_shell r) | None => file_set a [] false (r_shell r) end in
        if negb (rc =? 0) then sayf [bytes_of "touch: failed "; a; LF] (in_shell s r)
        else sayf [bytes_of "created file "; a; LF] (in_shell s r)
  end.

(** The loop that joins the arguments in [tmp]: stops when it is full. *)
Fixpoint join_args (first : bool) (args : list str) (acc : str) : str :=
  match args with
  | [] => acc
  | a :: args' =>
      if (QOS_SH_OUT_MAX <=? length acc + 1)%nat then acc
      else
        let piece := (if first then [] else [32]) ++ a in
        let left := (QOS_SH_OUT_MAX - length acc)%nat in
        if (left <=? length piece)%nat then acc ++ take (left - 1) piece else join_args false args' (acc ++ piece)
  end.

Definition cmd_edit (args : list str) (input : option str) (r : run) : run :=
  match args with
  | [] => sayf [bytes_of "edit: failed "; arg1 args; LF] r
  | a :: rest =>
      if negb (absolute a) then sayf [bytes_of "edit: failed "; a; LF] r
      else
        let content := match rest with [] => default [] input | _ => join_args true rest [] end in
        let '(rc, s) := file_set a content false (r_shell r) in
        if negb (rc =? 0) then sayf [bytes_of "edit: failed "; a; LF] (in_shell s r)
        else sayf [bytes_of "edited "; a; LF] (in_shell s r)
  end.

Definition cmd_cd (args : list str) (r : run) : run :=
  match args with
  | [] => say (bytes_of "cd: missing path" ++ LF) r
  | a :: _ =>
      if streq a (bytes_of "/") || bool_decide (is_Some (fs_find a (r_shell r)))
      then in_shell (set_cwd (copy_string QOS_SH_PATH_MAX a) (r_shell r)) r
      else sayf [bytes_of "cd: not found: "; a; LF] r
  end.

Definition cmd_export (args : list str) (r : run) : run :=
  match args with
  | [] => say (bytes_of "export: invalid" ++ LF) r
  | a :: _ =>
      match split_at 61 a with
      | (_, None) => say (bytes_of "export: invalid" ++ LF) r
      | (k, Some eq) =>
          let key := take (QOS_SH_ENV_KEY_MAX - 1) k in
          let val := tail eq in
          sayf [bytes_of "set "; key; bytes_of "="; val; LF] (in_shell (env_set key val (r_shell r)) r)
      end
  end.

Definition cmd_unset (args : list str) (r : run) : run :=
  match args with
  | [] => say (bytes_of "unset: missing key" ++ LF) r
  | a :: _ => sayf [bytes_of "unset "; a; LF] (in_shell (env_unset a (r_shell r)) r)
  end.

Definition cmd_ip (args : list str) (r : run) : run :=
  let usage := bytes_of "ip: usage: ip addr|route" ++ LF in
  match args with
  | [] => say usage r
  | a :: _ =>
      if streq a (bytes_of "addr") then say (bytes_of "1: eth0    inet 10.0.2.15/24" ++ LF) r
      else if streq a (bytes_of "route") then
        say (bytes_of "10.0.2.0/24 dev eth0 src 10.0.2.15" ++ LF) (say (bytes_of "default via 10.0.2.2 dev eth0" ++ LF) r)
      else say usage r
  end.

Definition loaded (id : Z) (path : str) : list str := [bytes_of "insmod: loaded id="; number id 10; bytes_of " path="; path; LF].

Definition cmd_insmod (args : list str) (r : run) : option run :=
  match args with
  | [] => Some (say (bytes_of "insmod: missing path" ++ LF) r)
  | a :: _ =>
      match r_kernel r with
      | Some k =>
          k1 ← stage_test_module_image a k;
          '(rc, _, k2) ← sh_call 39 PATH_AT 0 0 0 [(PATH_AT, a ++ [0])] k1;
          if rc <? 0 then Some (say (bytes_of "insmod: failed" ++ LF) (in_kernel k2 r))
          else let id := u32 rc in Some (sayf (loaded id a) (in_shell (mod_track a id (r_shell r)) (in_kernel k2 r)))
      | None =>
          let s := r_shell r in
          match mod_find_id_by_path a s with
          | Some id => Some (sayf (loaded id a) r)
          | None =>
              let n1 := u32 (sh_mod_next s + 1) in
              let '(id, next) := if sh_mod_next s =? 0 then (n1, u32 (n1 + 1)) else (sh_mod_next s, n1) in
              Some (sayf (loaded id a) (in_shell (mod_track a id (set_mods (sh_mod_ids s) (sh_mod_rows s) next s)) r))
          end
      end
  end.

Definition cmd_rmmod (args : list str) (r : run) : option run :=
  match args with
  | [] => Some (say (bytes_of "rmmod: missing id or path" ++ LF) r)
  | a :: _ =>
      match (match parse_u32_arg a with Some id => Some id | None => mod_find_id_by_path a (r_shell r) end) with
      | None => Some (say (bytes_of "rmmod: unknown module" ++ LF) r)
      | Some id =>
          '(ok, r1) ← match r_kernel r with
                      | None => Some (true, r)
                      | Some k => '(rc, _, k1) ← sh_call 40 id 0 0 0 [] k; Some (rc =? 0, in_kernel k1 r)
                      end;
          if negb ok then Some (say (bytes_of "rmmod: failed" ++ LF) r1)
          else Some (sayf [bytes_of "rmmod: unloaded id="; number id 10; LF] (in_shell (mod_forget_id id (r_shell r1)) r1))
      end
  end.

Definition ping_report (host : str) (got : Z) : list str :=
  if 0 <? got
  then [bytes_of "PING "; host; LF; bytes_of "64 bytes from "; host; bytes_of ": icmp_seq=1 ttl=64 time=1ms" ++ LF;
        bytes_of "1 packets transmitted, 1 received" ++ LF]
  else [bytes_of "PING "; host; LF; bytes_of "From 10.0.2.15 icmp_seq=1 Destination Host Unreachable" ++ LF;
        bytes_of "1 packets transmitted, 0 received" ++ LF].

Definition cmd_ping (args : list str) (r : run) : option run :=
  match args with
  | [] => Some (say (bytes_of "ping: missing host" ++ LF) r)
  | a :: _ =>
      match parse_ipv4_addr a with
      | None => Some (say (bytes_of "ping: invalid host" ++ LF) r)
      | Some ip =>
          let payload := bytes_of "qos" in
          '(got, r1) ← match r_kernel r with
                       | None => Some (-1, r)
                       | Some k => '(rc, k1) ← ping_via_syscall_raw ip payload k; Some (rc, in_kernel k1 r)
                       end;
          let got := if (got <? 0) && echo_linked then (qos_net_icmp_echo ip (Some payload) 3 true 16).1.1
                     else if (got <? 0) && ((ip =? QOS_SH_IPV4_GATEWAY) || (ip =? QOS_SH_IPV4_LOCAL)) then 3 else got in
          Some (sayf (ping_report a got) r1)
      end
  end.

Definition cmd_wget (args : list str) (r : run) : option run :=
  match args with
  | [] => Some (say (bytes_of "wget: missing url" ++ LF) r)
  | a :: _ =>
      '(rc, r1) ← wget_via_syscall_stream a r;
      Some (if negb (rc =? 0) then say (bytes_of "wget: failed" ++ LF) r1 else r1)
  end.

Inductive command := Help | Exit | Ls | Cat | Echo | Mkdir | Rm | Touch | Edit | Cd | Pwd | Export | Unset | Ps | Ip | Insmod | Rmmod | Wqdemo | Ping | Wget.

(** The chain of comparisons of the resolved name. *)
Definition command_of (cmd : str) : option command :=
  snd <$> head (filter (λ '(n, _), bytes_of n = cmd)
    [("help", Help); ("exit", Exit); ("ls", Ls); ("cat", Cat); ("echo", Echo); ("mkdir", Mkdir); ("rm", Rm); ("touch", Touch); ("edit", Edit);
     ("cd", Cd); ("pwd", Pwd); ("export", Export); ("unset", Unset); ("ps", Ps); ("ip", Ip); ("insmod", Insmod); ("rmmod", Rmmod);
     ("wqdemo", Wqdemo); ("ping", Ping); ("wget", Wget)]%string).

Definition run_one (c : command) (args : list str) (input : option str) (r : run) : option run :=
  match c with
  | Help => Some (say help_text r)
  | Exit => Some {| r_shell := r_shell r; r_kernel := r_kernel r; r_out := r_out r; r_exit := true |}
  | Ls => Some (cmd_ls r)
  | Cat => Some (cmd_cat args input r)
  | Echo => Some (cmd_echo args input r)
  | Mkdir => Some (cmd_mkdir args r)
  | Rm => Some (cmd_rm args r)
  | Touch => Some (cmd_touch args r)
  | Edit => Some (cmd_edit args input r)
  | Cd => Some (cmd_cd args r)
  | Pwd => Some (say LF (say (sh_cwd (r_shell r)) r))
  | Export => Some (cmd_export args r)
  | Unset => Some (cmd_unset args r)
  | Ps => Some (say (bytes_of "PID PPID STATE CMD" ++ LF ++ bytes_of "1 0 Running sh" ++ LF) r)
  | Ip => Some (cmd_ip args r)
  | Insmod => cmd_insmod args r
  | Rmmod => cmd_rmmod args r
  | Wqdemo => Some (say (bytes_of "workqueue demo: pending=0 completed=2 hits=3" ++ LF) r)
  | Ping => cmd_ping args r
  | Wget => cmd_wget args r
  end.

(** ** A segment of a line *)

Record redirections := { rd_in : option str; rd_out : option str; rd_append : bool; rd_argv : list str }.

(** The loop over the tokens. *)
Fixpoint redirect (tokens : list str) (d : redirections) : redirections :=
  match tokens with
  | [] => d
  | t :: rest =>
      let arg := {| rd_in := rd_in d; rd_out := rd_out d; rd_append := rd_append d;
                    rd_argv := if (length (rd_argv d) <? QOS_SH_ARG_MAX)%nat then rd_argv d ++ [t] else rd_argv d |} in
      match rest with
      | f :: rest' =>
          if streq t (bytes_of "<") then redirect rest' {| rd_in := Some f; rd_out := rd_out d; rd_append := rd_append d; rd_argv := rd_argv d |}
          else if streq t (bytes_of ">") || streq t (bytes_of ">>")
          then redirect rest' {| rd_in := rd_in d; rd_out := Some f; rd_append := streq t (bytes_of ">>"); rd_argv := rd_argv d |}
          else redirect rest arg
      | [] => arg
      end
  end.

Definition no_redirections : redirections := {| rd_in := None; rd_out := None; rd_append := false; rd_argv := [] |}.

Definition execute_segment (tokens : list str) (input : option str) (r : run) : option run :=
  let r0 := {| r_shell := r_shell r; r_kernel := r_kernel r; r_out := []; r_exit := r_exit r |} in
  let d := redirect tokens no_redirections in
  match rd_argv d with
  | [] => Some r0
  | a0 :: args =>
      let input := match rd_in d with None => input | Some f => Some (default [] (file_get f (r_shell r))) end in
      let unknown := Some (sayf [bytes_of "unknown command: "; a0; LF] r0) in
      r1 ← match resolve_command_name a0 (r_shell r) with
           | None => unknown
           | Some cmd => match command_of cmd with None => unknown | Some c => run_one c args input r0 end
           end;
      Some match rd_out d with
           | None => r1
           | Some f => {| r_shell := (file_set f (r_out r1) (rd_append d) (r_shell r1)).2; r_kernel := r_kernel r1; r_out := []; r_exit := r_exit r1 |}
           end
  end.

(** What the line prints is [r_out]. *)
Definition run_tokens (tokens : list str) (r : run) : option run :=
  match first_index (λ t, streq t (bytes_of "|")) tokens with
  | Some i =>
      if (0 <? i)%nat && (i <? length tokens - 1)%nat then
        r1 ← execute_segment (take i tokens) None r;
        execute_segment (drop (S i) tokens) (Some (r_out r1)) r1
      else execute_segment tokens None r
  | None => execute_segment tokens None r
  end.

Definition run_command (line : str) (r : run) : option run :=
  tokens ← tokenize (S (length line)) QOS_SH_TOKENS_MAX (split_at 10 line).1;
  match tokens with
  | [] => Some {| r_shell := r_shell r; r_kernel := r_kernel r; r_out := []; r_exit := false |}
  | _ => run_tokens tokens {| r_shell := r_shell r; r_kernel := r_kernel r; r_out := []; r_exit := false |}
  end.

(** The line [main --once] builds of its arguments in 256 bytes. *)
Fixpoint once_line (args : list str) (line : str) : str :=
  match args with
  | [] => line
  | a :: args' =>
      let line1 := if negb (length line =? 0)%nat && (length line + 1 <? 256)%nat then line ++ [32] else line in
      let n := if (256 <=? length line1 + length a)%nat then (256 - length line1 - 1)%nat else length a in
      once_line args' (line1 ++ take n a)
  end.

Definition prompt (s : shell) : str := copy_string (QOS_SH_PATH_MAX + 16) (bytes_of "qos-sh:" ++ sh_cwd s ++ bytes_of "> ").

(** The interactive loop on what fgets gives, up to the end of the input: what is printed. *)
Fixpoint session (lines : list str) (r : run) : option (str * run) :=
  let shown := prompt (r_shell r) in
  match lines with
  | [] => Some (shown ++ LF, r)
  | l :: lines' =>
      r1 ← run_command l r;
      if r_exit r1 then Some (shown ++ r_out r1, r1)
      else '(printed, r2) ← session lines' r1; Some (shown ++ r_out r1 ++ printed, r2)
  end.
End commands.
