(* ===== verification/ShellTables.v ===== *)
(** * Tokens and tables of the shell

    The tokenizer of Shell undoes quoting and ends within its fuel; the tables of
    paths, files and variables behave as a set and two finite maps; a module is known
    by its path. *)

From S2P Require Import Prelude SlotTable NameBuf Shell.

(** ** Tokens *)

Lemma skip_blanks_length p : (length (skip_blanks p) <= length p)%nat.
Proof. induction p as [|c p IH]; simpl; [done|]. destruct (is_blank c); simpl; lia. Qed.

Lemma skip_blanks_head p c p' : skip_blanks p = c :: p' → is_blank c = false.
Proof. induction p as [|d p IH]; simpl; [done|]. destruct (is_blank d) eqn:E; [done|]. by intros [= <- _]. Qed.

Lemma quoted_spec room q p : p = (quoted room q p).1 ++ (quoted room q p).2 ∧ (length (quoted room q p).1 <= room)%nat.
Proof.
  revert p. induction room as [|room IH]; intros [|c p]; simpl; try (split; [done|lia]). destruct (c =? q); [split; [done|simpl; lia]|].
  specialize (IH p) as [Hp Hl]. destruct (quoted room q p) as [t r]. simpl in *. by rewrite <- Hp; split; [|lia].
Qed.

Lemma plain_spec room p : p = (plain room p).1 ++ (plain room p).2 ∧ (length (plain room p).1 <= room)%nat.
Proof.
  revert p. induction room as [|room IH]; intros [|c p]; simpl; try (split; [done|lia]). destruct (word_byte c); [|split; [done|simpl; lia]].
  specialize (IH p) as [Hp Hl]. destruct (plain room p) as [t r]. simpl in *. by rewrite <- Hp; split; [|lia].
Qed.

(** A turn of the loop consumes a byte and its token fits. *)
Lemma token_spec c p :
  is_blank c = false → (length (token (c :: p)).2 <= length p)%nat ∧ (length (token (c :: p)).1 < QOS_SH_TOKEN_MAX)%nat.
Proof.
  intros Hb. change QOS_SH_TOKEN_MAX with 128%nat. unfold token. change (QOS_SH_TOKEN_MAX - 1)%nat with 127%nat.
  destruct (_ || _) eqn:E1; [simpl; lia|].
  destruct (c =? 62) eqn:E2; [destruct p as [|d p]; [simpl; lia|destruct (d =? 62); simpl; lia]|].
  destruct ((c =? 39) || (c =? 34)).
  - pose proof (quoted_spec 127 c p) as [Hp Hl]. apply (f_equal length) in Hp. rewrite length_app in Hp.
    destruct (quoted 127 c p) as [t [|d r]]; cbn [fst snd length] in *; [lia|]. destruct (d =? c); cbn [fst snd length]; lia.
  - pose proof (plain_spec 126 p) as [Hp Hl]. apply (f_equal length) in Hp. rewrite length_app in Hp.
    change (plain 127 (c :: p)) with (if word_byte c then let '(t, r) := plain 126 p in (c :: t, r) else ([], c :: p)).
    apply orb_false_iff in E1 as [E3 E4]. assert (word_byte c = true) as -> by (unfold word_byte; by rewrite Hb, E2, E3, E4).
    destruct (plain 126 p) as [t r]. cbn [fst snd length] in *. lia.
Qed.

(** Fuel beyond the length of the line is enough; the tokens fit their array. *)
Lemma tokenize_total fuel max line :
  (length line < fuel)%nat →
  ∃ ts, tokenize fuel max line = Some ts ∧ (length ts <= max)%nat ∧ Forall (λ t, (length t < QOS_SH_TOKEN_MAX)%nat) ts.
Proof.
  revert max line. induction fuel as [|fuel IH]; intros max line Hl; [lia|]. cbn [tokenize].
  pose proof (skip_blanks_length line) as Hs. destruct (skip_blanks line) as [|c p] eqn:E; [exists []; split_and!; [done|simpl; lia|done]|].
  destruct max as [|max]; [exists []; by split_and!|]. pose proof (token_spec c p (skip_blanks_head _ _ _ E)) as [Hr Ht].
  destruct (token (c :: p)) as [t r]. cbn [fst snd length] in *. destruct (IH max r) as (ts & -> & Hn & Hts); [lia|].
  exists (t :: ts). split_and!; [done|simpl; lia|by constructor].
Qed.

Lemma skip_blanks_Forall (P : Z → Prop) p : Forall P p → Forall P (skip_blanks p).
Proof. induction 1 as [|c p Hc Hp IH]; [done|]. cbn [skip_blanks]. destruct (is_blank c); [done|by constructor]. Qed.

Lemma token_Forall (P : Z → Prop) p : Forall P p → Forall P (token p).1 ∧ Forall P (token p).2.
Proof.
  intros Hp. destruct p as [|c p]; [done|]. pose proof Hp as [Hc Hp']%Forall_cons. unfold token. destruct (_ || _); [by split; [apply Forall_singleton|]|].
  destruct (Z.eqb_spec c 62) as [->|_].
  { destruct p as [|d p]; [by split; [apply Forall_singleton|]|]. apply Forall_cons in Hp' as [Hd Hp']. destruct (d =? 62); (split; [by repeat apply Forall_cons_2|]); [done|by constructor]. }
  destruct ((c =? 39) || (c =? 34)).
  - pose proof (quoted_spec (QOS_SH_TOKEN_MAX - 1) c p) as [E _]. rewrite E in Hp'. apply Forall_app in Hp' as [Ht Hr].
    destruct (quoted _ c p) as [t r]. cbn [fst snd] in *. split; [done|]. destruct Hr as [|d r]; [done|]. destruct (d =? c); [done|by constructor].
  - pose proof (plain_spec (QOS_SH_TOKEN_MAX - 1) (c :: p)) as [E _]. rewrite E in Hp. by apply Forall_app in Hp.
Qed.

Lemma tokenize_Forall (P : Z → Prop) fuel max line ts : Forall P line → tokenize fuel max line = Some ts → Forall (Forall P) ts.
Proof.
  revert max line ts. induction fuel as [|fuel IH]; intros max line ts Hl; [done|]. cbn [tokenize]. pose proof (skip_blanks_Forall P line Hl) as Hs.
  destruct (skip_blanks line) as [|c p]; [by intros [= <-]|]. destruct max as [|max]; [by intros [= <-]|].
  pose proof (token_Forall P (c :: p) Hs) as [Ht Hr]. destruct (token (c :: p)) as [t r]. destruct (tokenize fuel max r) as [ts'|] eqn:E; [|done].
  intros [= <-]. constructor; [done|by apply (IH max r)].
Qed.

Definition QUOTE : Z := 34.

(** The words in quotes, with a blank behind each. *)
Definition quote_line (ws : list str) : str := ws ≫= (λ w, QUOTE :: w ++ [QUOTE; 32]).

Definition quotable (w : str) : Prop := QUOTE ∉ w ∧ (length w < QOS_SH_TOKEN_MAX)%nat.

Lemma quoted_closes room q t rest : q ∉ t → (length t <= room)%nat → quoted room q (t ++ q :: rest) = (t, q :: rest).
Proof.
  revert t. induction room as [|room IH]; intros [|c t] Hq Hl; simpl in *; try lia; [done|by rewrite Z.eqb_refl|].
  apply not_elem_of_cons in Hq as [Hc Hq]. rewrite (proj2 (Z.eqb_neq c q)) by congruence. by rewrite IH by (done || lia).
Qed.

Lemma tokenize_mono fuel fuel' max line ts : tokenize fuel max line = Some ts → (fuel <= fuel')%nat → tokenize fuel' max line = Some ts.
Proof.
  revert fuel' max line ts. induction fuel as [|fuel IH]; intros [|fuel'] max line ts; cbn [tokenize]; try (done || lia). intros H Hf.
  destruct (skip_blanks line) as [|c p]; [done|]. destruct max as [|max]; [done|]. destruct (token (c :: p)) as [t r].
  destruct (tokenize fuel max r) as [ts'|] eqn:E; [|done]. by rewrite (IH fuel' _ _ _ E) by lia.
Qed.

(** Fuel above the length gives what any fuel gives. *)
Lemma tokenize_enough fuel fuel' max line ts : (length line < fuel')%nat → tokenize fuel max line = Some ts → tokenize fuel' max line = Some ts.
Proof.
  intros Hl H. destruct (tokenize_total fuel' max line Hl) as (ts' & E & _).
  apply (tokenize_mono _ (fuel + fuel')) in H; [|lia]. pose proof (tokenize_mono _ (fuel + fuel') _ _ _ E ltac:(lia)). congruence.
Qed.

Lemma tokenize_blank fuel max line : tokenize fuel max (32 :: line) = tokenize fuel max line.
Proof. by destruct fuel. Qed.

Lemma tokenize_quote fuel max w rest :
  quotable w → tokenize (S fuel) (S max) (QUOTE :: w ++ QUOTE :: rest) = cons w <$> tokenize fuel max rest.
Proof.
  intros [Hq Hl]. assert (token (QUOTE :: w ++ QUOTE :: rest) = (w, rest)) as Ht.
  { change (token (QUOTE :: w ++ QUOTE :: rest)) with
      (let '(t, r) := quoted 127 QUOTE (w ++ QUOTE :: rest) in (t, match r with q :: r' => if q =? QUOTE then r' else r | [] => [] end)).
    by rewrite quoted_closes by (done || unfold QOS_SH_TOKEN_MAX in *; lia). }
  change (tokenize (S fuel) (S max) (QUOTE :: w ++ QUOTE :: rest)) with
    (let '(t, r) := token (QUOTE :: w ++ QUOTE :: rest) in cons t <$> tokenize fuel max r). by rewrite Ht.
Qed.

Lemma tokenize_quoted fuel max ws rest ts :
  Forall quotable ws → tokenize fuel max rest = Some ts → tokenize (length ws + fuel) (length ws + max) (quote_line ws ++ rest) = Some (ws ++ ts).
Proof.
  intros Hw Hr. induction Hw as [|w ws Hq Hw IH]; [exact Hr|].
  replace (quote_line (w :: ws) ++ rest) with (QUOTE :: w ++ QUOTE :: 32 :: quote_line ws ++ rest)
    by (unfold quote_line; cbn [mbind list_bind]; simpl; by rewrite <- !app_assoc).
  cbn [length Nat.add app]. by rewrite tokenize_quote, tokenize_blank, IH.
Qed.

(** C26: the line is split the same whatever the words hold.  Words written in double
    quotes with blanks between them come back as the tokens, in order and unchanged,
    blanks and operators inside them included, as long as none holds a double quote,
    each has at most 127 bytes and there are at most 64.  And on any line the loop ends
    within as many turns as the line has bytes and one, with at most 64 tokens of at most
    127 bytes, so that no token and no row of the array overflows. *)
Theorem tokenize_roundtrip ws line :
  Forall quotable ws → (length ws <= QOS_SH_TOKENS_MAX)%nat →
  tokenize (S (length (quote_line ws))) QOS_SH_TOKENS_MAX (quote_line ws) = Some ws
  ∧ ∃ ts, tokenize (S (length line)) QOS_SH_TOKENS_MAX line = Some ts ∧ (length ts <= QOS_SH_TOKENS_MAX)%nat
          ∧ Forall (λ t, (length t < QOS_SH_TOKEN_MAX)%nat) ts.
Proof.
  intros Hw Hl. split; [|apply tokenize_total; lia].
  pose proof (tokenize_quoted 1 (QOS_SH_TOKENS_MAX - length ws) ws [] [] Hw eq_refl) as H. rewrite !app_nil_r in H.
  replace (length ws + (QOS_SH_TOKENS_MAX - length ws))%nat with QOS_SH_TOKENS_MAX in H by lia. apply (tokenize_enough _ _ _ _ _ (Nat.lt_succ_diag_r _) H).
Qed.

(** ** The tables *)

Section entries.
Context {A : Type} `{Keyed (option A) str}.

(** [n] slots, entries that fit, no key twice. *)
Record table_ok (n : nat) (P : A → Prop) (l : list (option A)) : Prop := {
  to_length : length l = n;
  to_entries : Forall (λ e, ∀ a, e = Some a → P a) l;
  to_unique : unique_keys l
}.

Lemma table_empty n P : table_ok n P (replicate n None).
Proof. split; [apply length_replicate|by apply Forall_replicate|by apply unique_keys_replicate]. Qed.

Lemma table_put n P l i k a :
  table_ok n P l → find_key k l = Some i → slot_key (Some a) = k → P a →
  table_ok n P (<[i := Some a]> l) ∧ table_map (<[i := Some a]> l) = <[k := Some a]> (table_map l).
Proof.
  intros [Hl Hp Hu] Hf Hk Ha. destruct (table_map_update l i k (Some a) Hu Hf eq_refl Hk) as [Hu' Hm]. split; [|done].
  split; [by rewrite length_insert|apply Forall_insert; [done|by intros ? [= <-]]|done].
Qed.

Lemma table_add n P l i k a :
  table_ok n P l → find_key k l = None → free_slot l = Some i → slot_key (Some a) = k → P a →
  table_ok n P (<[i := Some a]> l) ∧ table_map (<[i := Some a]> l) = <[k := Some a]> (table_map l).
Proof.
  intros [Hl Hp Hu] Hf (b & Hb & Hub)%free_slot_Some Hk Ha. rewrite <- Hk in Hf.
  destruct (table_map_alloc l i b (Some a) Hu Hb Hub eq_refl Hf) as [Hu' Hm]. rewrite Hk in Hm. split; [|done].
  split; [by rewrite length_insert|apply Forall_insert; [done|by intros ? [= <-]]|done].
Qed.

Lemma table_drop n P l i k :
  table_ok n P l → find_key k l = Some i → table_ok n P (<[i := None]> l) ∧ table_map (<[i := None]> l) = delete k (table_map l).
Proof.
  intros [Hl Hp Hu] Hf. destruct (table_map_release l i k None Hu Hf eq_refl) as [Hu' Hm]. split; [|done].
  split; [by rewrite length_insert|by apply Forall_insert|done].
Qed.

Lemma table_room n P l :
  table_ok n P l → (size (table_map l : gmap str (option A)) <? n)%nat = if free_slot l is Some _ then true else false.
Proof.
  intros [Hl _ Hu]. pose proof (free_slot_None l) as Hf. rewrite table_map_size by done.
  pose proof (count_if_le (slot_used (A := option A)) l). unfold count_used in *.
  destruct (free_slot l) as [i|]; [apply Nat.ltb_lt|apply Nat.ltb_ge; apply proj1 in Hf; specialize (Hf eq_refl); lia].
  assert (count_if (slot_used (A := option A)) l ≠ length l) by (intros E; by apply Hf in E). lia.
Qed.

Lemma table_entry n P l k i :
  table_ok n P l → find_key k l = Some i → ∃ a, l !! i = Some (Some a) ∧ slot_key (Some a) = k ∧ P a ∧ table_map l !! k = Some (Some a).
Proof.
  intros [_ Hp _] Hf. pose proof (table_map_lookup l k) as Hm. rewrite Hf in Hm. cbn in Hm.
  apply find_key_Some in Hf as ([a|] & Ha & Hu & Hk); [|done]. exists a. split_and!; [done|done| |by rewrite Hm].
  by apply (Forall_lookup_1 _ _ _ _ Hp Ha).
Qed.
End entries.

Definition path_fits (p : str) : Prop := (length p < QOS_SH_PATH_MAX)%nat ∧ absolute p = true.
Definition file_fits (e : str * str) : Prop := path_fits e.1 ∧ (length e.2 < QOS_SH_FILE_MAX)%nat.
Definition env_fits (e : str * str) : Prop := (length e.1 < QOS_SH_ENV_KEY_MAX)%nat ∧ (length e.2 < QOS_SH_ENV_VAL_MAX)%nat.

(** The last byte of the row of a module: the digit the code stores for the NUL. *)
Definition rows_end (ids : list (option Z)) (rows : list Z) : Prop :=
  ∀ i id, ids !! i = Some (Some id) → rows !! (i * QOS_SH_PATH_MAX + (QOS_SH_PATH_MAX - 1))%nat = Some BACKSLASH_ZERO.

(** Every path, file, environment string and the working directory fit their buffers with
    a NUL, and no path, file name or variable is in its table twice.  The table of modules
    has its 64 rows of 128 bytes, but a row in use ends in the digit 0: its path may have no
    NUL in the row, and two rows may hold the same 127 bytes. *)
Record shell_ok (s : shell) : Prop := {
  sk_paths : table_ok QOS_SH_PATH_SLOTS path_fits (sh_paths s);
  sk_files : table_ok QOS_SH_FILE_SLOTS file_fits (sh_files s);
  sk_env : table_ok QOS_SH_ENV_SLOTS env_fits (sh_env s);
  sk_ids : length (sh_mod_ids s) = QOS_SH_FILE_SLOTS ∧ Forall (λ e, ∀ id, e = Some id → in_width 32 id ∧ id ≠ 0) (sh_mod_ids s);
  sk_rows : length (sh_mod_rows s) = (QOS_SH_FILE_SLOTS * QOS_SH_PATH_MAX)%nat;
  sk_end : rows_end (sh_mod_ids s) (sh_mod_rows s);
  sk_next : in_width 32 (sh_mod_next s);
  sk_cwd : (length (sh_cwd s) < QOS_SH_PATH_MAX)%nat
}.

(** What the tables hold. *)
Definition paths_of (s : shell) : gset str := dom (table_map (sh_paths s)).
Definition contents (l : list (option (str * str))) : gmap str str := (λ e, default [] (snd <$> e)) <$> table_map l.

Lemma copy_fits cap (t : str) : (0 < cap)%nat → (length (copy_string cap t) < cap)%nat.
Proof. intros Hc. unfold copy_string. rewrite length_take. lia. Qed.

Lemma copy_short cap (t : str) : (length t < cap)%nat → copy_string cap t = t.
Proof. intros Hc. unfold copy_string. apply take_ge. lia. Qed.

Lemma fs_find_paths path s : bool_decide (is_Some (fs_find path s)) = bool_decide (path ∈ paths_of s).
Proof.
  unfold fs_find, paths_of. rewrite <- find_key_dom. by destruct (find_key _ _).
Qed.

Lemma fs_add_spec path s :
  shell_ok s → (length path < QOS_SH_PATH_MAX)%nat →
  let fits := absolute path && bool_decide (path ∉ paths_of s) && (size (paths_of s) <? QOS_SH_PATH_SLOTS)%nat in
  shell_ok (fs_add path s).2 ∧ (fs_add path s).1 = (if fits then 0 else -1)
  ∧ paths_of (fs_add path s).2 = if fits then {[path]} ∪ paths_of s else paths_of s.
Proof.
  intros Hs Hl fits. subst fits. unfold fs_add. rewrite fs_find_paths, bool_decide_not. destruct (absolute path) eqn:Ha; [cbn [negb andb]|done].
  destruct (bool_decide (path ∈ paths_of s)) eqn:Hf; [done|]. cbn [negb andb].
  unfold paths_of at 1 3. rewrite size_dom, (table_room _ _ _ (sk_paths s Hs)).
  assert (find_key path (sh_paths s) = None) as Hn.
  { pose proof (fs_find_paths path s) as E. unfold fs_find in E. rewrite Hf in E. by destruct (find_key _ _). }
  destruct (free_slot _) as [i|] eqn:E.
  - rewrite copy_short by done.
    destruct (table_add _ path_fits _ i path path (sk_paths s Hs) Hn E eq_refl) as [Ht Hm]; [done|]. cbn [fst snd]. split_and!; [by destruct Hs|done|].
    unfold paths_of. cbn [set_paths sh_paths]. by rewrite Hm, dom_insert_L.
  - done.
Qed.

Lemma fs_remove_spec path s :
  shell_ok s →
  shell_ok (fs_remove path s).2 ∧ (fs_remove path s).1 = (if bool_decide (path ∈ paths_of s) then 0 else -1)
  ∧ paths_of (fs_remove path s).2 = paths_of s ∖ {[path]}.
Proof.
  intros Hs. pose proof (fs_find_paths path s) as Hf. unfold fs_remove. unfold fs_find in *. destruct (find_key _ _) as [i|] eqn:E.
  - rewrite <- Hf. cbn [fst snd]. destruct (table_drop _ path_fits _ i path (sk_paths s Hs) E) as [Ht Hm]. split_and!; [by destruct Hs|done|].
    unfold paths_of. cbn [set_paths sh_paths]. by rewrite Hm, dom_delete_L.
  - rewrite <- Hf. split_and!; [done|done|]. symmetry in Hf. apply bool_decide_eq_false in Hf. set_solver.
Qed.

(** The contents of a file after a store. *)
Definition stored (append : bool) (old content : str) : str := take (QOS_SH_FILE_MAX - 1) (if append then old ++ content else content).

Lemma stored_append old content :
  (length old < QOS_SH_FILE_MAX)%nat →
  old ++ take (Nat.min (length content) (QOS_SH_FILE_MAX - 1 - length old)) content = stored true old content.
Proof.
  intros Hl. unfold stored. rewrite take_app, (take_ge old) by lia. f_equal.
  destruct (Nat.le_gt_cases (length content) (QOS_SH_FILE_MAX - 1 - length old)); [rewrite Nat.min_l, !take_ge by lia; done|by rewrite Nat.min_r by lia].
Qed.

Lemma table_contents_lookup n P l k i d : table_ok n P l → find_key k l = Some i → l !! i = Some (Some (k, d)) → contents l !! k = Some d.
Proof. intros _ Hf Hi. unfold contents. rewrite lookup_fmap, table_map_lookup, Hf. cbn. by rewrite Hi. Qed.

Lemma table_contents_None l k : find_key k l = None → contents l !! k = None.
Proof. intros Hf. unfold contents. rewrite lookup_fmap. by apply table_map_None in Hf as ->. Qed.

Lemma table_contents_size l : size (contents l) = size (table_map l).
Proof. apply map_size_fmap. Qed.

(** [file_set], with the name of the slot and the intermediate store resolved. *)
Lemma file_set_eq path content append s :
  shell_ok s → (length path < QOS_SH_PATH_MAX)%nat →
  file_set path content append s
  = if negb (absolute path) then (-1, s)
    else match file_find path s with
         | Some i => (0, set_files (<[i := Some (path, stored append (file_data i s) content)]> (sh_files s)) s)
         | None => match free_slot (sh_files s) with
                   | Some i => (0, set_files (<[i := Some (path, stored append [] content)]> (sh_files s)) s)
                   | None => (-1, s)
                   end
         end.
Proof.
  intros Hs Hl. unfold file_set, file_find. destruct (negb _); [done|]. destruct (find_key _ _) as [i|] eqn:E.
  - destruct (table_entry _ _ _ _ _ (sk_files s Hs) E) as ([p d] & Hi & Hk & [_ Hd] & _). cbn in Hk, Hd. subst p.
    unfold file_store, file_data. rewrite Hi. destruct append; [by rewrite stored_append|done].
  - destruct (free_slot _) as [i|] eqn:Ef; [|done]. pose proof (free_slot_lt _ _ Ef) as Hi.
    unfold file_store, file_data. cbn [set_files sh_files]. rewrite list_lookup_insert_eq, copy_short by done.
    rewrite stored_append by (unfold QOS_SH_FILE_MAX; simpl; lia). unfold set_files; cbn. rewrite list_insert_insert_eq. by destruct append.
Qed.

Lemma stored_fits append old content : (length (stored append old content) < QOS_SH_FILE_MAX)%nat.
Proof. unfold stored. rewrite length_take. unfold QOS_SH_FILE_MAX. lia. Qed.

Lemma file_set_spec path content append s :
  shell_ok s → (length path < QOS_SH_PATH_MAX)%nat →
  let m := contents (sh_files s) in
  let fits := absolute path && (bool_decide (path ∈ dom m) || (size m <? QOS_SH_FILE_SLOTS)%nat) in
  shell_ok (file_set path content append s).2 ∧ (file_set path content append s).1 = (if fits then 0 else -1)
  ∧ contents (sh_files (file_set path content append s).2)
    = if fits then <[path := stored append (default [] (m !! path)) content]> m else m.
Proof.
  intros Hs Hl m fits. subst m fits. rewrite file_set_eq by done. destruct (absolute path) eqn:Ha; [|done]. cbn [negb andb].
  pose proof (sk_files s Hs) as Ht. unfold file_find. destruct (find_key _ _) as [i|] eqn:E.
  - destruct (table_entry _ _ _ _ _ Ht E) as ([p d] & Hi & Hk & _ & _). cbn in Hk. subst p.
    pose proof (table_contents_lookup _ _ _ _ _ _ Ht E Hi) as Hd. rewrite (bool_decide_eq_true_2 (path ∈ _)) by (by apply elem_of_dom_2 in Hd).
    rewrite Hd. cbn [orb default fst snd]. unfold file_data. rewrite Hi.
    destruct (table_put _ file_fits _ i path (path, stored append d content) Ht E eq_refl) as [Ht' Hm]; [split; [done|apply stored_fits]|].
    split_and!; [by destruct Hs|done|]. unfold contents. cbn [set_files sh_files]. by rewrite Hm, fmap_insert.
  - pose proof (table_contents_None _ _ E) as Hd. rewrite (bool_decide_eq_false_2 (path ∈ _)) by (by apply not_elem_of_dom). rewrite Hd, table_contents_size. cbn [orb default].
    rewrite (table_room _ _ _ Ht). destruct (free_slot _) as [i|] eqn:Ef.
    + destruct (table_add _ file_fits _ i path (path, stored append [] content) Ht E Ef eq_refl) as [Ht' Hm]; [split; [done|apply stored_fits]|].
      cbn [fst snd]. split_and!; [by destruct Hs|done|]. unfold contents. cbn [set_files sh_files]. by rewrite Hm, fmap_insert.
    + done.
Qed.

Lemma file_get_spec path s : shell_ok s → file_get path s = contents (sh_files s) !! path.
Proof.
  intros Hs. unfold file_get, file_find. destruct (find_key _ _) as [i|] eqn:E; [|by rewrite table_contents_None].
  destruct (table_entry _ _ _ _ _ (sk_files s Hs) E) as ([p d] & Hi & Hk & _). cbn in Hk. subst p.
  rewrite (table_contents_lookup _ _ _ _ _ _ (sk_files s Hs) E Hi). cbn. unfold file_data. by rewrite Hi.
Qed.

Lemma file_remove_spec path s :
  shell_ok s → shell_ok (file_remove path s) ∧ contents (sh_files (file_remove path s)) = delete path (contents (sh_files s)).
Proof.
  intros Hs. unfold file_remove, file_find. destruct (find_key _ _) as [i|] eqn:E.
  - destruct (table_drop _ file_fits _ i path (sk_files s Hs) E) as [Ht Hm]. split; [by destruct Hs|].
    unfold contents. cbn [set_files sh_files]. by rewrite Hm, fmap_delete.
  - split; [done|]. by rewrite delete_id by (by apply table_contents_None).
Qed.

(** ** Variables *)

Lemma env_set_spec key value s :
  shell_ok s → (length key < QOS_SH_ENV_KEY_MAX)%nat →
  let m := contents (sh_env s) in
  let fits := bool_decide (key ∈ dom m) || (size m <? QOS_SH_ENV_SLOTS)%nat in
  shell_ok (env_set key value s)
  ∧ contents (sh_env (env_set key value s)) = if fits then <[key := take (QOS_SH_ENV_VAL_MAX - 1) value]> m else m.
Proof.
  intros Hs Hl m fits. subst m fits. pose proof (sk_env s Hs) as Ht. unfold env_set, env_find.
  assert (env_fits (key, copy_string QOS_SH_ENV_VAL_MAX value)) as Hfit by (split; [done|apply copy_fits; unfold QOS_SH_ENV_VAL_MAX; lia]).
  destruct (find_key _ _) as [i|] eqn:E.
  - destruct (table_entry _ _ _ _ _ Ht E) as ([p d] & Hi & Hk & _ & _). cbn in Hk. subst p.
    pose proof (table_contents_lookup _ _ _ _ _ _ Ht E Hi) as Hd. rewrite (bool_decide_eq_true_2 (key ∈ _)) by (by apply elem_of_dom_2 in Hd).
    cbn [orb]. rewrite Hi. destruct (table_put _ env_fits _ i key _ Ht E (eq_refl : slot_key (Some (key, _)) = key) Hfit) as [Ht' Hm]. split; [by destruct Hs|].
    unfold contents. cbn [set_env sh_env]. by rewrite Hm, fmap_insert.
  - pose proof (table_contents_None _ _ E) as Hd. rewrite (bool_decide_eq_false_2 (key ∈ _)) by (by apply not_elem_of_dom). rewrite table_contents_size. cbn [orb].
    rewrite (table_room _ _ _ Ht). destruct (free_slot _) as [i|] eqn:Ef.
    + cbn [fmap option_fmap option_map]. rewrite (copy_short _ key) by done.
      destruct (table_add _ env_fits _ i key _ Ht E Ef (eq_refl : slot_key (Some (key, _)) = key) Hfit) as [Ht' Hm]. split; [by destruct Hs|].
      unfold contents. cbn [set_env sh_env]. by rewrite Hm, fmap_insert.
    + done.
Qed.

Lemma env_get_spec key s : shell_ok s → env_get key s = contents (sh_env s) !! key.
Proof.
  intros Hs. unfold env_get, env_find. destruct (find_key _ _) as [i|] eqn:E; [|by rewrite table_contents_None].
  destruct (table_entry _ _ _ _ _ (sk_env s Hs) E) as ([p d] & Hi & Hk & _). cbn in Hk. subst p.
  rewrite (table_contents_lookup _ _ _ _ _ _ (sk_env s Hs) E Hi). cbn. by rewrite Hi.
Qed.

Lemma env_unset_spec key s :
  shell_ok s → shell_ok (env_unset key s) ∧ contents (sh_env (env_unset key s)) = delete key (contents (sh_env s)).
Proof.
  intros Hs. unfold env_unset, env_find. destruct (find_key _ _) as [i|] eqn:E.
  - destruct (table_drop _ env_fits _ i key (sk_env s Hs) E) as [Ht Hm]. split; [by destruct Hs|].
    unfold contents. cbn [set_env sh_env]. by rewrite Hm, fmap_delete.
  - split; [done|]. by rewrite delete_id by (by apply table_contents_None).
Qed.

(** ** The tables refine maps *)

Record tables := { t_paths : gset str; t_files : gmap str str; t_env : gmap str str }.

Definition tables_of (s : shell) : tables := {| t_paths := paths_of s; t_files := contents (sh_files s); t_env := contents (sh_env s) |}.

Inductive table_op :=
  AddPath (p : str) | RemovePath (p : str) | SetFile (p content : str) (append : bool) | RemoveFile (p : str) | SetVar (k v : str) | UnsetVar (k : str).

Definition table_exec (o : table_op) (s : shell) : Z * shell :=
  match o with
  | AddPath p => fs_add p s
  | RemovePath p => fs_remove p s
  | SetFile p c a => file_set p c a s
  | RemoveFile p => (0, file_remove p s)
  | SetVar k v => (0, env_set k v s)
  | UnsetVar k => (0, env_unset k s)
  end.

(** The same on a set and two maps of bounded size. *)
Definition table_spec (o : table_op) (T : tables) : Z * tables :=
  match o with
  | AddPath p =>
      if absolute p && bool_decide (p ∉ t_paths T) && (size (t_paths T) <? QOS_SH_PATH_SLOTS)%nat
      then (0, {| t_paths := {[p]} ∪ t_paths T; t_files := t_files T; t_env := t_env T |}) else (-1, T)
  | RemovePath p =>
      (if bool_decide (p ∈ t_paths T) then 0 else -1, {| t_paths := t_paths T ∖ {[p]}; t_files := t_files T; t_env := t_env T |})
  | SetFile p c a =>
      if absolute p && (bool_decide (p ∈ dom (t_files T)) || (size (t_files T) <? QOS_SH_FILE_SLOTS)%nat)
      then (0, {| t_paths := t_paths T; t_files := <[p := stored a (default [] (t_files T !! p)) c]> (t_files T); t_env := t_env T |})
      else (-1, T)
  | RemoveFile p => (0, {| t_paths := t_paths T; t_files := delete p (t_files T); t_env := t_env T |})
  | SetVar k v =>
      (0, if bool_decide (k ∈ dom (t_env T)) || (size (t_env T) <? QOS_SH_ENV_SLOTS)%nat
          then {| t_paths := t_paths T; t_files := t_files T; t_env := <[k := take (QOS_SH_ENV_VAL_MAX - 1) v]> (t_env T) |} else T)
  | UnsetVar k => (0, {| t_paths := t_paths T; t_files := t_files T; t_env := delete k (t_env T) |})
  end.

(** Names come from tokens, and export cuts a key: both fit their buffers. *)
Definition op_fits (o : table_op) : Prop :=
  match o with
  | AddPath p | SetFile p _ _ => (length p < QOS_SH_PATH_MAX)%nat
  | SetVar k _ => (length k < QOS_SH_ENV_KEY_MAX)%nat
  | _ => True
  end.

(** Each operation touches one table. *)
Lemma exec_frame o s :
  let s' := (table_exec o s).2 in
  match o with
  | AddPath _ | RemovePath _ => sh_files s' = sh_files s ∧ sh_env s' = sh_env s
  | SetFile _ _ _ | RemoveFile _ => sh_paths s' = sh_paths s ∧ sh_env s' = sh_env s
  | SetVar _ _ | UnsetVar _ => sh_paths s' = sh_paths s ∧ sh_files s' = sh_files s
  end.
Proof.
  destruct o; cbn [table_exec snd]; unfold fs_add, fs_remove, file_set, file_remove, env_set, env_unset, file_store; cbn [set_files sh_files];
    repeat first [case_match; simplify_eq/=; try done | progress cbn [set_paths set_files set_env sh_paths sh_files sh_env fst snd]]; done.
Qed.

Lemma table_step o s :
  shell_ok s → op_fits o →
  shell_ok (table_exec o s).2 ∧ (table_exec o s).1 = (table_spec o (tables_of s)).1
  ∧ tables_of (table_exec o s).2 = (table_spec o (tables_of s)).2.
Proof.
  intros Hs Ho. pose proof (exec_frame o s) as Hf. destruct o as [p|p|p c a|p|k v|k]; cbn [table_exec table_spec op_fits snd fst] in *; destruct Hf as [F1 F2].
  - destruct (fs_add_spec p s Hs Ho) as (Hk & Hr & Hp). unfold tables_of. cbn [t_paths t_files t_env]. rewrite F1, F2, Hp, Hr. by destruct (_ && _).
  - destruct (fs_remove_spec p s Hs) as (Hk & Hr & Hp). unfold tables_of. cbn [t_paths t_files t_env]. by rewrite F1, F2, Hp, Hr.
  - destruct (file_set_spec p c a s Hs Ho) as (Hk & Hr & Hp). unfold tables_of, paths_of. cbn [t_paths t_files t_env]. rewrite F1, F2, Hp, Hr. by destruct (_ && _).
  - destruct (file_remove_spec p s Hs) as (Hk & Hp). unfold tables_of, paths_of. cbn [t_paths t_files t_env]. by rewrite F1, F2, Hp.
  - destruct (env_set_spec k v s Hs Ho) as (Hk & Hp). unfold tables_of, paths_of. cbn [t_paths t_files t_env]. rewrite F1, F2, Hp. by destruct (_ || _).
  - destruct (env_unset_spec k s Hs) as (Hk & Hp). unfold tables_of, paths_of. cbn [t_paths t_files t_env]. by rewrite F1, F2, Hp.
Qed.

Fixpoint table_run (ops : list table_op) (s : shell) : list Z * shell :=
  match ops with [] => ([], s) | o :: ops' => let '(r, s1) := table_exec o s in let '(rs, s2) := table_run ops' s1 in (r :: rs, s2) end.

Fixpoint spec_run (ops : list table_op) (T : tables) : list Z * tables :=
  match ops with [] => ([], T) | o :: ops' => let '(r, T1) := table_spec o T in let '(rs, T2) := spec_run ops' T1 in (r :: rs, T2) end.

Lemma table_runs ops s :
  shell_ok s → Forall op_fits ops →
  shell_ok (table_run ops s).2 ∧ spec_run ops (tables_of s) = ((table_run ops s).1, tables_of (table_run ops s).2).
Proof.
  revert s. induction ops as [|o ops IH]; intros s Hs Ho; [done|]. apply Forall_cons in Ho as [Ho Hos]. cbn [table_run spec_run].
  destruct (table_step o s Hs Ho) as (Hs1 & Hr & HT). destruct (table_exec o s) as [r s1], (table_spec o (tables_of s)) as [r' T1]. cbn [fst snd] in *. subst r' T1.
  specialize (IH s1 Hs1 Hos) as [Hs2 E]. rewrite E. by destruct (table_run ops s1).
Qed.

Definition first_tables : tables :=
  {| t_paths := {[bytes_of "/tmp"; bytes_of "/proc"; bytes_of "/data"]}; t_files := ∅; t_env := {[bytes_of "PATH" := bytes_of "/bin:/usr/bin"]} |}.

Lemma first_paths_ok :
  table_ok QOS_SH_PATH_SLOTS path_fits (sh_paths fs_reset)
  ∧ dom (table_map (sh_paths fs_reset)) = ({[bytes_of "/tmp"; bytes_of "/proc"; bytes_of "/data"]} : gset str).
Proof.
  assert (∀ t, (length (bytes_of t) <? QOS_SH_PATH_MAX)%nat && absolute (bytes_of t) = true → path_fits (bytes_of t)) as Hp.
  { intros t [H1%Nat.ltb_lt H2]%andb_true_iff. by split. }
  destruct (table_add _ _ _ 0 (bytes_of "/tmp") (bytes_of "/tmp") (table_empty QOS_SH_PATH_SLOTS path_fits) eq_refl eq_refl eq_refl (Hp "/tmp"%string eq_refl)) as [T1 M1].
  destruct (table_add _ _ _ 1 (bytes_of "/proc") (bytes_of "/proc") T1 eq_refl eq_refl eq_refl (Hp "/proc"%string eq_refl)) as [T2 M2].
  destruct (table_add _ _ _ 2 (bytes_of "/data") (bytes_of "/data") T2 eq_refl eq_refl eq_refl (Hp "/data"%string eq_refl)) as [T3 M3].
  split; [exact T3|]. change (sh_paths fs_reset) with (<[2%nat:=Some (bytes_of "/data")]> (<[1%nat:=Some (bytes_of "/proc")]> (<[0%nat:=Some (bytes_of "/tmp")]> (replicate QOS_SH_PATH_SLOTS None)))).
  rewrite M3, M2, M1, table_map_replicate by done. set_solver.
Qed.

Lemma fs_reset_ok : shell_ok fs_reset ∧ tables_of fs_reset = first_tables.
Proof.
  destruct first_paths_ok as [Hp Hd].
  destruct (table_add _ env_fits _ 0 (bytes_of "PATH") (bytes_of "PATH", bytes_of "/bin:/usr/bin") (table_empty QOS_SH_ENV_SLOTS env_fits) eq_refl eq_refl eq_refl) as [He _];
    [by split; apply Nat.ltb_lt|].
  split.
  - split; [exact Hp|apply table_empty|exact He|split; [done|by apply Forall_replicate]|done| |done|by apply Nat.ltb_lt].
    intros i id Hi. by apply lookup_replicate in Hi as [? _].
  - unfold tables_of, paths_of, first_tables. by rewrite Hd.
Qed.

(** C25: the shell's tables behave as a set of paths and two finite maps.  From the state
    fs_reset leaves, after any sequence of additions, stores and removals whose names fit
    their buffers, the results and what the tables hold are those of the set and the maps:
    a path is added when it begins with a slash, is new and one of 64 slots is left; a file
    keeps the first 511 bytes of what is stored or appended; a variable the first 127; the
    lookups find the entry and nothing else; every string stays within its buffer. *)
Theorem shell_tables_refine_maps ops path key :
  Forall op_fits ops →
  let s := (table_run ops fs_reset).2 in
  shell_ok s ∧ spec_run ops first_tables = ((table_run ops fs_reset).1, tables_of s)
  ∧ file_get path s = t_files (tables_of s) !! path ∧ env_get key s = t_env (tables_of s) !! key
  ∧ bool_decide (is_Some (fs_find path s)) = bool_decide (path ∈ t_paths (tables_of s)).
Proof.
  intros Ho s. destruct fs_reset_ok as [H0 <-]. destruct (table_runs ops fs_reset H0 Ho) as [Hs E].
  split_and!; [exact Hs|exact E|by apply file_get_spec|by apply env_get_spec|apply fs_find_paths].
Qed.

(** ** Modules by path *)

Lemma c_string_cut l rest : 0 ∉ l → c_string (l ++ rest) = l ++ c_string rest.
Proof.
  induction l as [|c l IH]; [done|]. intros [Hc Hl]%not_elem_of_cons. cbn [app c_string].
  rewrite (proj2 (Z.eqb_neq c 0)) by congruence. by rewrite IH.
Qed.

(** A string that ends within the first [n] bytes depends on no other bytes. *)
Lemma c_string_local n r r' :
  (∀ m, (m < n)%nat → r !! m = r' !! m) → (length (c_string r) < n)%nat → c_string r' = c_string r.
Proof.
  revert n r'. induction r as [|c r IH]; intros n r' Hr Hn.
  - cbn in Hn. specialize (Hr O Hn). by destruct r'.
  - assert (0 < n)%nat as Hn0 by lia. pose proof (Hr O Hn0) as H0. destruct r' as [|c' r']; [done|]. injection H0 as <-.
    cbn [c_string] in *. destruct (c =? 0); [done|]. cbn [length] in Hn. f_equal. apply (IH (n - 1)%nat); [|lia].
    intros m Hm. apply (Hr (S m)). lia.
Qed.

Lemma c_string_end r c : r !! length (c_string r) = Some c → c = 0.
Proof.
  induction r as [|b r IH]; [done|]. cbn [c_string]. destruct (Z.eqb_spec b 0) as [->|]; cbn; [by intros [= <-]|done].
Qed.

Lemma mod_row_length i path rows :
  (i < QOS_SH_FILE_SLOTS)%nat → length rows = (QOS_SH_FILE_SLOTS * QOS_SH_PATH_MAX)%nat → length (mod_row i path rows) = length rows.
Proof.
  intros Hi Hl. unfold mod_row. rewrite !length_app, length_resize, length_take, length_drop, Hl. cbn [length].
  unfold QOS_SH_FILE_SLOTS, QOS_SH_PATH_MAX in *. lia.
Qed.

Section rows.
Context (i : nat) (path : str) (rows : list Z) (Hi : (i < QOS_SH_FILE_SLOTS)%nat).
Context (Hl : length rows = (QOS_SH_FILE_SLOTS * QOS_SH_PATH_MAX)%nat).

Lemma mod_row_self : drop (i * QOS_SH_PATH_MAX) (mod_row i path rows) = resize (QOS_SH_PATH_MAX - 1) 0 path ++ BACKSLASH_ZERO :: drop ((i + 1) * QOS_SH_PATH_MAX) rows.
Proof. unfold mod_row. rewrite drop_app_length'; [done|]. rewrite length_take, Hl. unfold QOS_SH_FILE_SLOTS, QOS_SH_PATH_MAX in *. lia. Qed.

Lemma mod_row_last : mod_row i path rows !! (i * QOS_SH_PATH_MAX + (QOS_SH_PATH_MAX - 1))%nat = Some BACKSLASH_ZERO.
Proof. rewrite <- lookup_drop, mod_row_self, lookup_app_r; rewrite length_resize; [|lia]. by rewrite Nat.sub_diag. Qed.

Lemma mod_row_other k n : k ≠ i → (n < QOS_SH_PATH_MAX)%nat → mod_row i path rows !! (k * QOS_SH_PATH_MAX + n)%nat = rows !! (k * QOS_SH_PATH_MAX + n)%nat.
Proof.
  intros Hk Hn. unfold mod_row. assert (length (take (i * QOS_SH_PATH_MAX) rows) = (i * QOS_SH_PATH_MAX)%nat) as Ht
    by (rewrite length_take, Hl; unfold QOS_SH_FILE_SLOTS, QOS_SH_PATH_MAX in *; lia).
  destruct (Nat.lt_ge_cases k i).
  - rewrite lookup_app_l, lookup_take_lt; [done| |rewrite Ht]; unfold QOS_SH_PATH_MAX in *; nia.
  - assert (i + 1 <= k)%nat as Hk1 by lia. rewrite (app_assoc (resize _ _ _)), app_assoc, lookup_app_r; rewrite !length_app, length_resize, Ht; cbn [length].
    + rewrite lookup_drop. f_equal. unfold QOS_SH_PATH_MAX in *. nia.
    + unfold QOS_SH_PATH_MAX in *. nia.
Qed.

(** What the new row is found by: its path when that has at most 126 bytes, nothing otherwise. *)
Lemma mod_row_string q :
  0 ∉ path → (length path < QOS_SH_PATH_MAX)%nat → (length q < QOS_SH_PATH_MAX)%nat →
  c_string (drop (i * QOS_SH_PATH_MAX) (mod_row i path rows)) = q ↔ q = path ∧ (length path < QOS_SH_PATH_MAX - 1)%nat.
Proof.
  intros H0 Hp Hq. rewrite mod_row_self. destruct (Nat.lt_ge_cases (length path) (QOS_SH_PATH_MAX - 1)) as [Hs|Hs].
  - rewrite resize_ge by lia. destruct (QOS_SH_PATH_MAX - 1 - length path)%nat as [|n] eqn:E; [lia|]. cbn [replicate].
    rewrite <- app_assoc. cbn [app]. rewrite c_string_app by done. split; [by intros <-|by intros [-> _]].
  - assert (length path = (QOS_SH_PATH_MAX - 1)%nat) as <- by lia. rewrite resize_all, c_string_cut by done. split; [|lia].
    intros <-. rewrite length_app in Hq. cbn in Hq. lia.
Qed.
End rows.

(** Slot [m] is used and its row holds [q]. *)
Definition hit (q : str) (s : shell) (m : nat) : Prop := ∃ id, sh_mod_ids s !! m = Some (Some id) ∧ mod_path m s = q.

Lemma mod_scan_from pre ids q s :
  sh_mod_ids s = pre ++ ids →
  match mod_scan ids (length pre) q s with
  | Some j => (length pre <= j)%nat ∧ hit q s j ∧ ∀ m, (length pre <= m < j)%nat → ¬ hit q s m
  | None => ∀ m, (length pre <= m)%nat → ¬ hit q s m
  end.
Proof.
  revert pre. induction ids as [|e ids IH]; intros pre Hs; cbn [mod_scan].
  { intros m Hm (id & Hid & _). rewrite Hs, app_nil_r in Hid. apply lookup_lt_Some in Hid. lia. }
  assert (sh_mod_ids s !! length pre = Some e) as He by (rewrite Hs; by apply list_lookup_middle).
  destruct (bool_decide (is_Some e) && streq (mod_path (length pre) s) q) eqn:E.
  - apply andb_true_iff in E as [[id ->]%bool_decide_eq_true E%bool_decide_eq_true]. split; [done|]. split; [by exists id|lia].
  - assert (¬ hit q s (length pre)) as Hn.
    { intros (id & Hid & Hp). rewrite He in Hid. injection Hid as ->. unfold streq in E. by rewrite Hp, !bool_decide_eq_true_2 in E by done. }
    specialize (IH (pre ++ [e])). rewrite length_app, Nat.add_1_r, <- app_assoc in IH. specialize (IH Hs).
    destruct (mod_scan _ _ _ _) as [j|]; [destruct IH as (Hj & Hh & Hm); split_and!; [lia|done|]; intros m Hmj|intros m Hm];
      (destruct (decide (m = length pre)) as [->|]; [done|]; auto with lia).
Qed.

Lemma mod_scan_None q s : mod_scan (sh_mod_ids s) 0 q s = None ↔ ∀ m, ¬ hit q s m.
Proof.
  pose proof (mod_scan_from [] _ q s eq_refl) as H. cbn [length] in H. destruct (mod_scan _ _ _ _) as [j|]; split; try done.
  - intros Hm. by destruct (Hm j), H as (_ & ? & _).
  - intros _ m. apply H. lia.
Qed.

Lemma mod_scan_Some q s j : mod_scan (sh_mod_ids s) 0 q s = Some j ↔ hit q s j ∧ ∀ m, (m < j)%nat → ¬ hit q s m.
Proof.
  pose proof (mod_scan_from [] _ q s eq_refl) as H. cbn [length] in H. destruct (mod_scan _ _ _ _) as [j'|].
  - destruct H as (_ & Hh & Hm). split; [intros [= <-]; auto with lia|]. intros [Hh' Hm']. f_equal.
    destruct (Nat.lt_trichotomy j j') as [Hlt|[->|Hlt]]; [|done|]; [by destruct (Hm j); [lia|]|by destruct (Hm' j')].
  - split; [done|]. intros [Hh _]. by destruct (H j); [lia|].
Qed.

Lemma mod_scan_ext q s s' : (∀ m, hit q s m ↔ hit q s' m) → mod_scan (sh_mod_ids s) 0 q s = mod_scan (sh_mod_ids s') 0 q s'.
Proof.
  intros He. destruct (mod_scan (sh_mod_ids s') 0 q s') as [j|] eqn:E.
  - apply mod_scan_Some. apply mod_scan_Some in E as [Hj Hm]. split; [by apply He|]. intros m Hl. rewrite He. by apply Hm.
  - apply mod_scan_None. intros m. rewrite He. by apply mod_scan_None.
Qed.

(** No module is found by 127 bytes: its row would have to end in a NUL. *)
Lemma long_path_unknown path s : shell_ok s → length path = (QOS_SH_PATH_MAX - 1)%nat → mod_find_id_by_path path s = None.
Proof.
  intros Hs Hl. unfold mod_find_id_by_path. rewrite (proj2 (mod_scan_None path s)); [done|]. intros m (id & Hid & Hp).
  pose proof (sk_end s Hs m id Hid) as He. rewrite <- lookup_drop, <- Hl in He. unfold mod_path in Hp. rewrite <- Hp in He. by apply c_string_end in He.
Qed.

Lemma mod_find_known path s : is_Some (mod_find_id_by_path path s) ↔ is_Some (mod_scan (sh_mod_ids s) 0 path s).
Proof.
  unfold mod_find_id_by_path. destruct (mod_scan _ _ _ _) as [j|] eqn:E; [|cbn; split; by intros [? ?]]. apply mod_scan_Some in E as [(id & Hid & _) _].
  cbn. rewrite Hid. split; by eexists.
Qed.

(** Storing the id of a module that is known keeps every row. *)
Lemma known_hit i id path q s :
  hit path s i → ∀ m, hit q (set_mods (<[i := Some id]> (sh_mod_ids s)) (sh_mod_rows s) (sh_mod_next s) s) m ↔ hit q s m.
Proof.
  intros (old & Hi & Hp) m. unfold hit, mod_path. cbn [set_mods sh_mod_ids sh_mod_rows]. pose proof (lookup_lt_Some _ _ _ Hi) as Hlt.
  destruct (decide (m = i)) as [->|Hm]; [|by rewrite list_lookup_insert_ne]. rewrite list_lookup_insert_eq, Hi by done.
  split; intros (x & _ & Hq); by eexists.
Qed.

(** A new row is a hit for its own path alone; the other rows are what they were. *)
Lemma new_hit i id path q s :
  shell_ok s → sh_mod_ids s !! i = Some None → 0 ∉ path → (length path < QOS_SH_PATH_MAX)%nat → (length q < QOS_SH_PATH_MAX)%nat →
  ∀ m, hit q (set_mods (<[i := Some id]> (sh_mod_ids s)) (mod_row i path (sh_mod_rows s)) (sh_mod_next s) s) m
       ↔ if decide (m = i) then q = path ∧ (length path < QOS_SH_PATH_MAX - 1)%nat else hit q s m.
Proof.
  intros Hs Hi H0 Hp Hq m. pose proof (lookup_lt_Some _ _ _ Hi) as Hlt. pose proof (proj1 (sk_ids s Hs)) as Hids. unfold hit, mod_path. cbn [set_mods sh_mod_ids sh_mod_rows].
  destruct (decide (m = i)) as [->|Hm].
  - rewrite list_lookup_insert_eq by done. rewrite <- (mod_row_string i path (sh_mod_rows s)); [|by rewrite <- Hids|apply Hs|done..].
    split; [by intros (x & _ & E)|intros E; by exists id].
  - rewrite list_lookup_insert_ne by done. assert (∀ n, (n < QOS_SH_PATH_MAX)%nat →
      drop (m * QOS_SH_PATH_MAX) (mod_row i path (sh_mod_rows s)) !! n = drop (m * QOS_SH_PATH_MAX) (sh_mod_rows s) !! n) as Hr.
    { intros n Hn. rewrite !lookup_drop. apply mod_row_other; [by rewrite <- Hids|apply Hs|done|done]. }
    split; intros (x & Hx & E); exists x; (split; [done|]); rewrite <- E; apply (c_string_local QOS_SH_PATH_MAX); [done|by rewrite E| |by rewrite E].
    intros n Hn. by rewrite Hr.
Qed.

Lemma set_mods_ok ids rows next s :
  shell_ok s → length ids = QOS_SH_FILE_SLOTS → Forall (λ e, ∀ id, e = Some id → in_width 32 id ∧ id ≠ 0) ids →
  length rows = (QOS_SH_FILE_SLOTS * QOS_SH_PATH_MAX)%nat → rows_end ids rows → in_width 32 next → shell_ok (set_mods ids rows next s).
Proof. intros [] ? ? ? ? ?. by split. Qed.

Lemma mod_free i s : free_slot (sh_mod_ids s) = Some i → sh_mod_ids s !! i = Some None.
Proof. by intros ([] & Hi & Hu)%free_slot_Some. Qed.

Lemma mod_track_ok path id s : shell_ok s → in_width 32 id → shell_ok (mod_track path id s).
Proof.
  intros Hs Hi. unfold mod_track. destruct (Z.eqb_spec id 0) as [|Hn]; [done|]. destruct (sk_ids s Hs) as [Hl Hf]. pose proof (sk_end s Hs) as He.
  assert (∀ i, Forall (λ e, ∀ id, e = Some id → in_width 32 id ∧ id ≠ 0) (<[i := Some id]> (sh_mod_ids s))) as Hf'
    by (intros i; apply Forall_insert; [done|by intros ? [= <-]]).
  destruct (mod_scan _ _ _ _) as [i|] eqn:E.
  - apply mod_scan_Some in E as [(old & Ho & _) _]. apply set_mods_ok; [done|by rewrite length_insert|done|apply Hs| |apply Hs].
    intros j x Hj. apply list_lookup_insert_Some in Hj as [(-> & _ & _)|[_ Hx]]; [by apply (He _ old)|by apply (He _ x)].
  - destruct (free_slot _) as [i|] eqn:Ef; [|done]. apply free_slot_lt in Ef. rewrite Hl in Ef.
    apply set_mods_ok; [done|by rewrite length_insert|done|rewrite mod_row_length by (done || apply Hs); apply Hs| |apply Hs].
    intros j x Hj. apply list_lookup_insert_Some in Hj as [(-> & _ & _)|[Hne Hx]]; [apply mod_row_last; [done|apply Hs]|].
    rewrite mod_row_other; [by apply (He _ x)|done|apply Hs|done|]. unfold QOS_SH_PATH_MAX. lia.
Qed.

(** What [mod_track] does to the lookups when the path is known, and when it takes a new row. *)
Lemma track_known i id path q s :
  shell_ok s → mod_scan (sh_mod_ids s) 0 path s = Some i →
  mod_find_id_by_path q (set_mods (<[i := Some id]> (sh_mod_ids s)) (sh_mod_rows s) (sh_mod_next s) s)
  = if bool_decide (q = path) then Some id else mod_find_id_by_path q s.
Proof.
  intros Hs Ei. pose proof (proj1 (proj1 (mod_scan_Some path s i) Ei)) as Hh. pose proof Hh as (old & Hi & Hy). pose proof (lookup_lt_Some _ _ _ Hi) as Hlt.
  unfold mod_find_id_by_path. rewrite (mod_scan_ext q _ s (known_hit i id path q s Hh)). cbn [set_mods sh_mod_ids]. case_bool_decide as E.
  - subst q. rewrite Ei. cbn. by rewrite list_lookup_insert_eq.
  - destruct (mod_scan (sh_mod_ids s) 0 q s) as [j|] eqn:Ej; [|done]. cbn. rewrite list_lookup_insert_ne; [done|]. intros ->.
    apply mod_scan_Some in Ej as [(x & _ & Hx) _]. congruence.
Qed.

Lemma track_new i id path q s :
  shell_ok s → mod_scan (sh_mod_ids s) 0 path s = None → sh_mod_ids s !! i = Some None →
  0 ∉ path → (length path < QOS_SH_PATH_MAX)%nat → (length q < QOS_SH_PATH_MAX)%nat →
  mod_find_id_by_path q (set_mods (<[i := Some id]> (sh_mod_ids s)) (mod_row i path (sh_mod_rows s)) (sh_mod_next s) s)
  = if bool_decide (q = path ∧ (length path < QOS_SH_PATH_MAX - 1)%nat) then Some id else mod_find_id_by_path q s.
Proof.
  intros Hs En Hi H0 Hp Hq. pose proof (new_hit i id path q s Hs Hi H0 Hp Hq) as Hn. pose proof (lookup_lt_Some _ _ _ Hi) as Hlt.
  set (s' := set_mods _ _ _ s) in *. unfold mod_find_id_by_path. case_bool_decide as E.
  - assert (mod_scan (sh_mod_ids s') 0 q s' = Some i) as ->.
    { apply mod_scan_Some. split; [by apply Hn; rewrite decide_True|]. intros m Hm. rewrite Hn, decide_False by lia. destruct E as [-> _].
      by apply mod_scan_None. }
    cbn. by rewrite list_lookup_insert_eq.
  - rewrite (mod_scan_ext q s' s).
    + destruct (mod_scan (sh_mod_ids s) 0 q s) as [j|] eqn:Ej; [|done]. unfold s'. cbn. rewrite list_lookup_insert_ne; [done|]. intros ->.
      apply mod_scan_Some in Ej as [(x & Hx & _) _]. congruence.
    + intros m. rewrite Hn. destruct (decide (m = i)) as [->|]; [|done]. split; [done|]. intros (x & Hx & _). congruence.
Qed.

(** C39: the shell knows a module by its path.  In every shell of a session, after mod_track of
    a path of at most 126 bytes and an id that is not 0, the path leads to that id when it was
    known before or one of the 64 slots was free (otherwise the table is full and nothing
    changes), and every other path (of at most 127 bytes) leads where it led before.  A path of 127 bytes, the
    longest a token can hold, is never found: it fills its row up to the byte where the code
    means to store a NUL and stores the digit 0, so the row has no end, and neither rmmod nor a second
    insmod finds the module. *)
Theorem module_known_by_path path id q s :
  shell_ok s → 0 ∉ path → (length path < QOS_SH_PATH_MAX)%nat → (length q < QOS_SH_PATH_MAX)%nat → id ≠ 0 →
  let room := bool_decide (is_Some (mod_find_id_by_path path s)) || bool_decide (is_Some (free_slot (sh_mod_ids s))) in
  mod_find_id_by_path q (mod_track path id s)
  = if bool_decide (q = path) && room then if (length path =? QOS_SH_PATH_MAX - 1)%nat then None else Some id
    else mod_find_id_by_path q s.
Proof.
  intros Hs H0 Hp Hq Hid room. subst room. rewrite (bool_decide_ext _ _ (mod_find_known path s)).
  pose proof (long_path_unknown path s Hs) as Hlong. unfold mod_track. rewrite (proj2 (Z.eqb_neq _ _)) by done.
  destruct (mod_scan (sh_mod_ids s) 0 path s) as [i|] eqn:Ei.
  - rewrite (track_known i id path q s Hs Ei), (bool_decide_eq_true_2 (is_Some (Some i))) by done. cbn [orb]. rewrite andb_true_r.
    destruct (Nat.eqb_spec (length path) (QOS_SH_PATH_MAX - 1)) as [El|]; [|done]. specialize (Hlong El).
    assert (is_Some (mod_find_id_by_path path s)) as [? ?] by (apply mod_find_known; rewrite Ei; done). congruence.
  - rewrite (bool_decide_eq_false_2 (is_Some None)) by (by intros [? ?]). cbn [orb]. destruct (free_slot _) as [i|] eqn:Ef.
    2: { rewrite (bool_decide_eq_false_2 (is_Some None)) by (by intros [? ?]). by rewrite andb_false_r. }
    rewrite (bool_decide_eq_true_2 (is_Some (Some i))), andb_true_r, track_new by (done || by apply mod_free).
    rewrite bool_decide_and. case_bool_decide as E; [subst q; cbn [andb]|done].
    destruct (Nat.eqb_spec (length path) (QOS_SH_PATH_MAX - 1)) as [El|Hne].
    + rewrite bool_decide_eq_false_2 by lia. by apply Hlong.
    + rewrite bool_decide_eq_true_2 by lia. done.
Qed.

Lemma tokenize_roundtrip_witness :
  tokenize 17 QOS_SH_TOKENS_MAX (quote_line [bytes_of "a | b"; bytes_of ">"; []]) = Some [bytes_of "a | b"; bytes_of ">"; []].
Proof.
  destruct (tokenize_roundtrip [bytes_of "a | b"; bytes_of ">"; []] []) as [H _].
  - apply (bool_decide_unpack _). vm_compute. exact I.
  - apply Nat.leb_le. reflexivity.
  - exact H.
Defined.

Lemma shell_tables_refine_maps_witness :
  file_get (bytes_of "/f") (table_run [SetFile (bytes_of "/f") [104] false; SetFile (bytes_of "/f") [105] true] fs_reset).2 = Some [104; 105].
Proof.
  destruct (shell_tables_refine_maps [SetFile (bytes_of "/f") [104] false; SetFile (bytes_of "/f") [105] true] (bytes_of "/f") []) as (_ & _ & H & _).
  - apply Forall_cons. split; [apply Nat.ltb_lt; reflexivity|]. apply Forall_singleton, Nat.ltb_lt. reflexivity.
  - rewrite H. vm_compute. reflexivity.
Defined.

Lemma module_known_by_path_witness :
  let s := mod_track (bytes_of "/m") 7 fs_reset in
  mod_find_id_by_path (bytes_of "/m") (mod_track (replicate 127 109) 9 s) = Some 7
  ∧ mod_find_id_by_path (replicate 127 109) (mod_track (replicate 127 109) 9 s) = None.
Proof.
  intros s. assert (shell_ok s) as Hs by (apply mod_track_ok; [apply fs_reset_ok|done]).
  assert (0 ∉ replicate 127 109) as H0 by (apply (bool_decide_unpack _); vm_compute; exact I).
  assert (length (replicate 127 109) < QOS_SH_PATH_MAX)%nat as Hl by (apply Nat.ltb_lt; reflexivity).
  split.
  - rewrite (module_known_by_path (replicate 127 109) 9 (bytes_of "/m") s Hs H0 Hl); [vm_compute; reflexivity| |discriminate].
    apply Nat.ltb_lt. reflexivity.
  - rewrite (module_known_by_path (replicate 127 109) 9 (replicate 127 109) s Hs H0 Hl Hl); [vm_compute; reflexivity|discriminate].
Defined.
