(* ===== verification/ShellRuns.v ===== *)
(** * Lines and sessions of the shell

    Every line a user types is answered, with the tables of the shell and the
    kernel behind it intact, and the output of a command redirected to a file comes
    back from the file. *)

From S2P Require Import Prelude SlotTable NameBuf Pmm Packet Elf SyscallTable Vfs Files Kernel Procfs Dispatch Syscalls FileCalls Cstring Cformat Shell ShellTables.

(** ** Every line is answered *)

(** The kernel behind the shell: its invariants, and the calls under their default numbers. *)
Definition kernel_good (k : kernel) : Prop := sys_ok k ∧ k_table k = table_init.

Record run_ok (r : run) : Prop := {
  ro_shell : shell_ok (r_shell r);
  ro_kernel : ∀ k, r_kernel r = Some k → kernel_good k;
  ro_out : (length (r_out r) < QOS_SH_OUT_MAX)%nat
}.

(** A token: a string of bytes that fits its row. *)
Definition token_ok (t : str) : Prop := is_bytes t ∧ (length t < QOS_SH_TOKEN_MAX)%nat.

Lemma out_append_fits text out : (length out < QOS_SH_OUT_MAX)%nat → (length (out_append QOS_SH_OUT_MAX (Some text) out) < QOS_SH_OUT_MAX)%nat.
Proof.
  intros Ho. unfold out_append. destruct (_ || _) eqn:E; [done|]. rewrite length_app, length_take.
  apply orb_false_iff in E as [_ E%Nat.leb_gt]. lia.
Qed.

Lemma say_ok text r : run_ok r → run_ok (say text r).
Proof. intros [Hs Hk Ho]. split; [done|done|by apply out_append_fits]. Qed.

Lemma sayf_ok parts r : run_ok r → run_ok (sayf parts r).
Proof. apply say_ok. Qed.

Lemma in_shell_ok s r : run_ok r → shell_ok s → run_ok (in_shell s r).
Proof. by intros [Hs Hk Ho] H. Qed.

Lemma in_kernel_ok k r : run_ok r → kernel_good k → run_ok (in_kernel k r).
Proof. intros [Hs Hk Ho] H. split; [done|by intros ? [= <-]|done]. Qed.

Create HintDb shell discriminated.
#[export] Hint Resolve say_ok sayf_ok in_shell_ok in_kernel_ok ro_shell : shell.

(** A command that only changes the tables and the output. *)
Ltac pure_command := intros; repeat case_match; simplify_eq/=; eauto 6 with shell.

Lemma cmd_ls_ok r : run_ok r → run_ok (cmd_ls r).
Proof.
  intros Hr. unfold cmd_ls. assert (run_ok (say (bytes_of "bin" ++ LF) r)) as H by eauto with shell. revert H.
  generalize (say (bytes_of "bin" ++ LF) r). induction (sh_paths (r_shell r)) as [|e l IH]; intros r1 H1; [done|]. cbn [foldl].
  apply IH. destruct e; eauto with shell.
Qed.

Lemma cmd_cat_ok args input r : run_ok r → run_ok (cmd_cat args input r).
Proof. unfold cmd_cat. pure_command. Qed.

Lemma echo_args_ok args first r : run_ok r → run_ok (echo_args first args r).
Proof. revert first r. induction args as [|a args IH]; intros first r Hr; [done|]. cbn [echo_args]. apply IH. destruct first; eauto with shell. Qed.

Lemma cmd_echo_ok args input r : run_ok r → run_ok (cmd_echo args input r).
Proof. intros Hr. destruct args; cbn [cmd_echo]; [|apply say_ok, echo_args_ok]; eauto with shell. Qed.

Lemma cmd_mkdir_ok args r : run_ok r → Forall token_ok args → run_ok (cmd_mkdir args r).
Proof.
  intros Hr Ha. destruct args as [|a args]; cbn [cmd_mkdir]; [eauto with shell|]. apply Forall_cons in Ha as [[_ Ha] _].
  pose proof (fs_add_spec a (r_shell r) (ro_shell r Hr) Ha) as [Hs _]. destruct (fs_add a (r_shell r)) as [rc s]. destruct (negb _); eauto with shell.
Qed.

Lemma cmd_rm_ok args r : run_ok r → run_ok (cmd_rm args r).
Proof.
  intros Hr. destruct args as [|a args]; cbn [cmd_rm]; [eauto with shell|].
  pose proof (fs_remove_spec a (r_shell r) (ro_shell r Hr)) as [Hs _]. destruct (fs_remove a (r_shell r)) as [rc s]. cbn [snd] in Hs.
  pose proof (file_remove_spec a s Hs) as [Hs2 _]. destruct (negb _); eauto with shell.
Qed.

Lemma file_set_ok a content append s : shell_ok s → token_ok a → shell_ok (file_set a content append s).2.
Proof. intros Hs [_ Ha]. apply (file_set_spec a content append s Hs Ha). Qed.

Lemma cmd_touch_ok args r : run_ok r → Forall token_ok args → run_ok (cmd_touch args r).
Proof.
  intros Hr Ha. destruct args as [|a args]; cbn [cmd_touch]; [eauto with shell|]. apply Forall_cons in Ha as [Ha _].
  pose proof (file_set_ok a [] false (r_shell r) (ro_shell r Hr) Ha) as Hs. destruct (negb _); [eauto with shell|].
  destruct (file_find _ _); [|destruct (file_set _ _ _ _)]; destruct (negb _); eauto with shell.
Qed.

Lemma cmd_edit_ok args input r : run_ok r → Forall token_ok args → run_ok (cmd_edit args input r).
Proof.
  intros Hr Ha. destruct args as [|a args]; cbn [cmd_edit]; [eauto with shell|]. apply Forall_cons in Ha as [Ha _].
  destruct (negb _); [eauto with shell|]. cbv zeta. match goal with |- context [file_set a ?c false ?s] => pose proof (file_set_ok a c false s (ro_shell r Hr) Ha) as Hs; destruct (file_set a c false s) as [rc s'] end.
  destruct (negb _); eauto with shell.
Qed.

Lemma cmd_cd_ok args r : run_ok r → run_ok (cmd_cd args r).
Proof.
  intros Hr. destruct args as [|a args]; cbn [cmd_cd]; [eauto with shell|]. destruct (_ || _); [|eauto with shell].
  apply in_shell_ok; [done|]. destruct (ro_shell r Hr). split; try done. apply copy_fits. unfold QOS_SH_PATH_MAX; lia.
Qed.

Lemma cmd_export_ok args r : run_ok r → run_ok (cmd_export args r).
Proof.
  intros Hr. destruct args as [|a args]; cbn [cmd_export]; [eauto with shell|]. destruct (split_at _ _) as [k [v|]]; [|eauto with shell].
  apply sayf_ok, in_shell_ok; [done|]. apply env_set_spec; [eauto with shell|]. rewrite length_take. unfold QOS_SH_ENV_KEY_MAX; lia.
Qed.

Lemma cmd_unset_ok args r : run_ok r → run_ok (cmd_unset args r).
Proof.
  intros Hr. destruct args as [|a args]; cbn [cmd_unset]; [eauto with shell|]. apply sayf_ok, in_shell_ok; [done|]. apply env_unset_spec. eauto with shell.
Qed.

Lemma cmd_ip_ok args r : run_ok r → run_ok (cmd_ip args r).
Proof. unfold cmd_ip. pure_command. Qed.

#[export] Hint Resolve cmd_ls_ok cmd_cat_ok cmd_echo_ok cmd_mkdir_ok cmd_rm_ok cmd_touch_ok cmd_edit_ok cmd_cd_ok cmd_export_ok cmd_unset_ok cmd_ip_ok : shell.

(** ** The kernel under the shell *)

Definition shell_calls : list Z := [5; 7; 8; 14; 18; 19; 20; 22; 39; 40].

Definition shell_op (o : syscall_op) : bool :=
  match o with
  | OP_OPEN | OP_WRITE | OP_CLOSE | OP_SOCKET | OP_CONNECT | OP_SEND | OP_RECV | OP_MKDIR | OP_MODLOAD | OP_MODUNLOAD => true
  | _ => false
  end.

Lemma shell_calls_ops : forallb (λ nr, (0 <=? nr) && if (if sc_lookup nr table_init is Some (op, _) then op_of_code op else None) is Some o then shell_op o else false) shell_calls = true.
Proof. vm_compute. reflexivity. Qed.

Lemma shell_call_op nr k : k_table k = table_init → nr ∈ shell_calls → 0 <= nr ∧ ∃ o, called nr k = Some o ∧ shell_op o = true.
Proof.
  intros Hk Hn. rewrite called_table by done. pose proof (proj1 (forallb_forall _ _) shell_calls_ops nr (proj1 (list_elem_of_In _ _) Hn)) as H.
  cbv beta in H. apply andb_true_iff in H as [H0%Z.leb_le H]. split; [done|]. destruct (if sc_lookup nr table_init is Some _ then _ else _); [eauto|done].
Qed.

(** None of the calls of the shell registers a call. *)
Lemma shell_op_table o value a0 a1 a2 a3 u tmp k r ws k' :
  shell_op o = true → dispatch_op o value a0 a1 a2 a3 u tmp k = Some (r, ws, k') → k_table k' = k_table k.
Proof.
  destruct o; try done; intros _; cbn [dispatch_op];
    unfold op_open, op_write, op_recv, op_mkdir, in_io, in_mods, fail_, done_; intros H; repeat case_match; simplify_eq/=; done.
Qed.

Lemma seg_byte_range segs a : Forall (λ sg, is_bytes sg.2) segs → in_width 8 (seg_byte segs a).
Proof.
  induction 1 as [|[b bs] segs Hb _ IH]; [done|]. cbn [seg_byte]. destruct (_ && _); [|done]. cbn in Hb.
  destruct (nth_in_or_default (Z.to_nat (a - b)) bs 0) as [Hin| ->]; [|done].
  apply list_elem_of_In in Hin. by apply (Forall_forall (in_width 8) bs).
Qed.

(** ** Modules and parsed arguments *)

Lemma mod_forget_ok id s : shell_ok s → shell_ok (mod_forget_id id s).
Proof.
  intros Hs. unfold mod_forget_id. destruct (_ =? 0); [done|]. destruct (first_index _ _) as [i|]; [|done]. destruct (sk_ids s Hs) as [Hl Hf].
  apply set_mods_ok; [done|by rewrite length_insert|by apply Forall_insert|rewrite length_insert; apply Hs| |apply Hs].
  intros j x Hj. apply list_lookup_insert_Some in Hj as [(_ & ? & _)|[Hj Hx]]; [done|]. rewrite list_lookup_insert_ne by (unfold QOS_SH_PATH_MAX; lia).
  by apply (sk_end s Hs j x).
Qed.

Lemma mod_find_width path s id : shell_ok s → mod_find_id_by_path path s = Some id → in_width 32 id.
Proof.
  intros Hs. unfold mod_find_id_by_path. destruct (mod_scan _ _ _ _) as [i|]; [|done]. cbn. destruct (sh_mod_ids s !! i) as [e|] eqn:E; [|done].
  cbn. intros ->. by apply (Forall_lookup_1 _ _ _ _ (proj2 (sk_ids s Hs)) E).
Qed.

Lemma u32_digits_width v t w : 0 <= v → in_width 32 v → u32_digits v t = Some w → in_width 32 w.
Proof.
  revert v. induction t as [|c t IH]; intros v H0 Hv; cbn [u32_digits]; [by intros [= <-]|]. destruct (_ || _); [done|].
  pose proof (wrap_range 64 (v * 10 + (c - 48)) ltac:(lia)) as [Hw _]. destruct (Z.ltb_spec (2 ^ 32 - 1) (u64 (v * 10 + (c - 48)))); [done|].
  apply IH; [done|]. unfold in_width. lia.
Qed.

Lemma parse_u32_width t w : parse_u32_arg t = Some w → in_width 32 w.
Proof. destruct t; [done|]. by apply u32_digits_width. Qed.

Lemma width_32_64 x : in_width 32 x → in_width 64 x.
Proof. unfold in_width. lia. Qed.

Lemma split_at_parts c t : t = (split_at c t).1 ++ default [] (split_at c t).2.
Proof.
  induction t as [|x t IH]; [done|]. cbn [split_at]. destruct (x =? c); [done|]. destruct (split_at c t) as [a b]. cbn in *. by rewrite <- IH.
Qed.

Lemma split_at_bytes c t : is_bytes t → is_bytes (split_at c t).1 ∧ is_bytes (default [] (split_at c t).2).
Proof. intros H. rewrite (split_at_parts c t) in H. by apply Forall_app in H. Qed.

Lemma sockaddr_bytes port ip : is_bytes (make_sockaddr port ip).
Proof.
  assert (∀ x, in_width 8 (Z.land x 255)) as H.
  { intros x. change 255 with (Z.ones 8). rewrite Z.land_ones by lia. apply (wrap_range 8). lia. }
  unfold make_sockaddr, is_bytes. cbn [app replicate]. repeat apply Forall_cons_2; done || apply Forall_nil_2 || apply H.
Qed.

Lemma http_url_bytes url ip port host path :
  is_bytes url → parse_http_url url = Some (ip, port, host, path) →
  is_bytes host ∧ is_bytes path ∧ (length host < 32)%nat ∧ (length path < 128)%nat.
Proof.
  intros Hu. unfold parse_http_url. destruct (negb _); [done|]. pose proof (split_at_bytes 47 (drop 7 url) (Forall_drop _ _ _ Hu)) as [Ha Hp].
  destruct (split_at 47 (drop 7 url)) as [authority slash]. cbn [fst snd] in *. pose proof (split_at_bytes 58 authority Ha) as [Hh _].
  destruct (split_at 58 authority) as [h colon]. cbn [fst] in Hh. destruct (_ || _ || _); [done|].
  destruct (match colon with Some _ => _ | None => _ end) as [po|]; [|done]. destruct (parse_ipv4_addr h); [|done]. intros [= <- <- <- <-].
  split_and!; [by apply Forall_take|apply Forall_take|apply copy_fits; lia|apply copy_fits; lia].
  destruct slash; [done|apply bytes_of_range].
Qed.

Section answered.
Context (tmp : list Z) (echo_linked : bool) (Htmp : length tmp = TMP_MAX).

Lemma sh_call_ok nr a0 a1 a2 a3 segs k :
  kernel_good k → nr ∈ shell_calls → in_width 64 a0 → in_width 64 a1 → in_width 64 a2 → in_width 64 a3 → Forall (λ sg, is_bytes sg.2) segs →
  ∃ r ws k', sh_call tmp nr a0 a1 a2 a3 segs k = Some (r, ws, k') ∧ kernel_good k'.
Proof.
  intros [Hk Ht] Hn H0 H1 H2 H3 Hs. destruct (shell_call_op nr k Ht Hn) as (Hn0 & o & Hc & Ho).
  unfold sh_call. rewrite dispatch_called, Hc by done.
  assert (args_ok a0 a1 a2 a3 (seg_user segs) tmp) as Ha by (split; [by split_and!|intros a; by apply seg_byte_range|exact Htmp]).
  pose proof (dispatch_op_keeps o (e_value (get_entry nr (k_table k))) a0 a1 a2 a3 (seg_user segs) tmp k Hk Ha) as H.
  destruct (dispatch_op _ _ _ _ _ _ _ _ _) as [[[r ws] k']|] eqn:E.
  - exists r, ws, k'. split; [reflexivity|]. split; [exact H|]. rewrite <- Ht. by apply (shell_op_table _ _ _ _ _ _ _ _ _ _ _ _ Ho E).
  - destruct H as (-> & _). discriminate Ho.
Qed.

(** One call of the goal returns. *)
Ltac call_returns :=
  match goal with
  | Hk : kernel_good ?k |- context [sh_call tmp ?nr ?a0 ?a1 ?a2 ?a3 ?segs ?k] =>
      let r := fresh "rc" in let ws := fresh "ws" in let k' := fresh "k" in let E := fresh "E" in let Hk' := fresh "Hk" in
      destruct (sh_call_ok nr a0 a1 a2 a3 segs k) as (r & ws & k' & E & Hk');
      [exact Hk|unfold shell_calls; repeat constructor|first [apply wrap_range; lia|done|assumption]..|assumption|];
      rewrite E; cbn [mbind option_bind]
  end.

Lemma elf_bytes : is_bytes build_test_shared_elf.
Proof. apply (bool_decide_unpack _). vm_compute. exact I. Qed.

Lemma path_segment path : is_bytes path → is_bytes (path ++ [0]).
Proof. intros H. apply Forall_app. split; [done|by apply Forall_singleton]. Qed.

Lemma stage_ok path k : kernel_good k → is_bytes path → ∃ k', stage_test_module_image tmp path k = Some k' ∧ kernel_good k'.
Proof.
  intros Hk Hp. unfold stage_test_module_image. destruct (negb _); [by exists k|]. cbv zeta.
  assert (Forall (λ sg : Z * list Z, is_bytes sg.2) [(PATH_AT, path ++ [0]); (BUF_AT, build_test_shared_elf)]) as Hs.
  { apply Forall_cons. split; [by apply path_segment|]. apply Forall_singleton, elf_bytes. }
  call_returns. call_returns. destruct (_ <? 0); [by eexists|]. call_returns. call_returns. by eexists.
Qed.
Lemma ping_ok ip payload k : kernel_good k → is_bytes payload → ∃ rc k', ping_via_syscall_raw tmp ip payload k = Some (rc, k') ∧ kernel_good k'.
Proof.
  intros Hk Hp. unfold ping_via_syscall_raw. cbv zeta. destruct (_ || _) eqn:El; [by exists (-1), k|].
  apply orb_false_iff in El as [_ El%Z.ltb_ge]. unfold QOS_SH_PACKET_MAX in El.
  assert (in_width 64 (Z.of_nat (length payload))) as Hlen by (unfold in_width; lia).
  assert (Forall (λ sg : Z * list Z, is_bytes sg.2) [(PATH_AT, make_sockaddr 1 ip); (BUF_AT, payload)]) as Hs
    by (apply Forall_cons; split; [apply sockaddr_bytes|by apply Forall_singleton]).
  call_returns. destruct (_ <? 0); [by eexists _, _|]. call_returns. destruct (negb _); [call_returns; by eexists _, _|].
  call_returns. destruct (negb _); [call_returns; by eexists _, _|]. call_returns. call_returns. by eexists _, _.
Qed.

Lemma fallback_ok ip r : run_ok r → run_ok (wget_host_fallback ip r).2.
Proof. intros Hr. unfold wget_host_fallback. destruct (negb _); cbn [snd]; eauto with shell. Qed.

Lemma fallback_answers ip r : run_ok r → ∃ rc r', Some (wget_host_fallback ip r) = Some (rc, r') ∧ run_ok r'.
Proof. intros Hr. pose proof (fallback_ok ip r Hr). destruct (wget_host_fallback ip r) as [rc r']. by exists rc, r'. Qed.

Lemma wget_ok url r : run_ok r → is_bytes url → ∃ rc r', wget_via_syscall_stream tmp url r = Some (rc, r') ∧ run_ok r'.
Proof.
  intros Hr Hu. unfold wget_via_syscall_stream. destruct (parse_http_url url) as [[[[ip port] host] path]|] eqn:Ep; [|by exists (-1), r].
  destruct (r_kernel r) as [k|] eqn:Ek; [|by apply fallback_answers]. pose proof (ro_kernel r Hr k Ek) as Hk. cbv zeta.
  destruct (http_url_bytes _ _ _ _ _ Hu Ep) as (Hh & Hp & Hlh & Hlp).
  assert (is_bytes (request path host)) as Hq by (unfold request; repeat (apply Forall_app; split); try done; apply bytes_of_range || by repeat apply Forall_cons_2).
  assert (Forall (λ sg : Z * list Z, is_bytes sg.2) [(PATH_AT, make_sockaddr port ip); (BUF_AT, request path host ++ [0])]) as Hs
    by (apply Forall_cons; split; [apply sockaddr_bytes|apply Forall_singleton; by apply path_segment]).
  call_returns. destruct (_ <? 0); [apply fallback_answers; eauto with shell|]. call_returns.
  destruct (negb _); [call_returns; apply fallback_answers; eauto with shell|].
  destruct (Nat.leb_spec 256 (length (request path host))) as [_|Hlen]; [call_returns; eexists _, _; split; [reflexivity|eauto with shell]|].
  assert (in_width 64 (Z.of_nat (length (request path host)))) as Hw by (unfold in_width; lia).
  call_returns. destruct (negb _); [call_returns; apply fallback_answers; eauto with shell|]. call_returns. call_returns.
  destruct (_ <=? 0); [apply fallback_answers; eauto with shell|]. eexists _, _. split; [reflexivity|eauto with shell].
Qed.

Lemma cmd_insmod_ok args r : run_ok r → Forall token_ok args → ∃ r', cmd_insmod tmp args r = Some r' ∧ run_ok r'.
Proof.
  intros Hr Ha. destruct args as [|a args]; cbn [cmd_insmod]; [eexists; split; [reflexivity|eauto with shell]|]. apply Forall_cons in Ha as [[Ha _] _].
  destruct (r_kernel r) as [k|] eqn:Ek.
  - destruct (stage_ok a k (ro_kernel r Hr k Ek) Ha) as (k1 & -> & Hk1). cbn [mbind option_bind].
    assert (Forall (λ sg : Z * list Z, is_bytes sg.2) [(PATH_AT, a ++ [0])]) as Hs by (apply Forall_singleton; by apply path_segment).
    call_returns. destruct (_ <? 0); [eexists; split; [reflexivity|eauto with shell]|]. cbv zeta. eexists; split; [reflexivity|].
    apply sayf_ok, in_shell_ok; [by apply in_kernel_ok|]. apply mod_track_ok; [apply Hr|by apply wrap_range].
  - cbv zeta. destruct (mod_find_id_by_path _ _); [eexists; split; [reflexivity|eauto with shell]|].
    pose proof (sk_next _ (ro_shell r Hr)) as Hn. destruct (sk_ids _ (ro_shell r Hr)) as [Hl Hf].
    destruct (_ =? 0); (eexists; split; [reflexivity|]; apply sayf_ok, in_shell_ok; [done|]; apply mod_track_ok; [|first [exact Hn|by apply wrap_range]];
      apply set_mods_ok; [apply Hr|exact Hl|exact Hf|apply Hr|apply Hr|by apply wrap_range]).
Qed.

Lemma cmd_rmmod_ok args r : run_ok r → ∃ r', cmd_rmmod tmp args r = Some r' ∧ run_ok r'.
Proof.
  intros Hr. destruct args as [|a args]; cbn [cmd_rmmod]; [eexists; split; [reflexivity|eauto with shell]|].
  destruct (match parse_u32_arg a with Some _ => _ | None => _ end) as [id|] eqn:E; [|eexists; split; [reflexivity|eauto with shell]].
  assert (in_width 64 id) as Hid.
  { apply width_32_64. destruct (parse_u32_arg a) eqn:Ep; [simplify_eq; by apply (parse_u32_width a)|]. by apply (mod_find_width a (r_shell r)); [apply Hr|]. }
  assert (∀ r1, run_ok r1 → run_ok (in_shell (mod_forget_id id (r_shell r1)) r1)) as Hforget
    by (intros r1 H1; apply in_shell_ok; [done|apply mod_forget_ok, H1]).
  destruct (r_kernel r) as [k|] eqn:Ek; [|eexists; split; [reflexivity|eauto with shell]].
  pose proof (ro_kernel r Hr k Ek) as Hk. assert (Forall (λ sg : Z * list Z, is_bytes sg.2) []) as Hs by apply Forall_nil_2.
  call_returns. destruct (_ =? 0); (eexists; split; [reflexivity|eauto with shell]).
Qed.

Lemma cmd_ping_ok args r : run_ok r → ∃ r', cmd_ping tmp echo_linked args r = Some r' ∧ run_ok r'.
Proof.
  intros Hr. destruct args as [|a args]; cbn [cmd_ping]; [eexists; split; [reflexivity|eauto with shell]|].
  destruct (parse_ipv4_addr a) as [ip|]; [|eexists; split; [reflexivity|eauto with shell]]. cbv zeta.
  destruct (r_kernel r) as [k|] eqn:Ek; [|eexists; split; [reflexivity|eauto with shell]].
  destruct (ping_ok ip (bytes_of "qos") k (ro_kernel r Hr k Ek) (bytes_of_range _)) as (rc & k' & -> & Hk'). cbn [mbind option_bind].
  eexists; split; [reflexivity|eauto with shell].
Qed.

Lemma cmd_wget_ok args r : run_ok r → Forall token_ok args → ∃ r', cmd_wget tmp args r = Some r' ∧ run_ok r'.
Proof.
  intros Hr Ha. destruct args as [|a args]; cbn [cmd_wget]; [eexists; split; [reflexivity|eauto with shell]|]. apply Forall_cons in Ha as [[Ha _] _].
  destruct (wget_ok a r Hr Ha) as (rc & r1 & -> & Hr1). cbn [mbind option_bind]. eexists; split; [reflexivity|]. destruct (negb _); eauto with shell.
Qed.

Lemma run_one_ok c args input r : run_ok r → Forall token_ok args → ∃ r', run_one tmp echo_linked c args input r = Some r' ∧ run_ok r'.
Proof.
  intros Hr Ha. destruct c; cbn [run_one];
    first [by apply cmd_insmod_ok|by apply cmd_rmmod_ok|by apply cmd_ping_ok|by apply cmd_wget_ok|eexists; split; [reflexivity|eauto with shell]].
  by destruct Hr.
Qed.

Definition redirections_ok (d : redirections) : Prop :=
  Forall token_ok (rd_argv d) ∧ ∀ f, rd_out d = Some f → token_ok f.

Lemma redirect_ok tokens d : Forall token_ok tokens → redirections_ok d → redirections_ok (redirect tokens d).
Proof.
  remember (length tokens) as n eqn:En. revert tokens d En. induction (lt_wf n) as [n _ IH]; intros tokens d -> Ht [Ha Ho].
  destruct tokens as [|t rest]; [by split|]. apply Forall_cons in Ht as [Ht Hrest]. cbn [redirect]. cbv zeta.
  assert (redirections_ok {| rd_in := rd_in d; rd_out := rd_out d; rd_append := rd_append d;
            rd_argv := if (length (rd_argv d) <? QOS_SH_ARG_MAX)%nat then rd_argv d ++ [t] else rd_argv d |}) as Harg.
  { split; [|done]. cbn [rd_argv]. destruct (_ <? _)%nat; [apply Forall_app; split; [done|by apply Forall_singleton]|done]. }
  destruct rest as [|f rest']; [done|]. pose proof Hrest as [Hf Hrest']%Forall_cons.
  destruct (streq t (bytes_of "<")); [apply (IH (length rest')); [simpl; lia|done|done|by split]|].
  destruct (_ || _); [apply (IH (length rest')); [simpl; lia|done|done|split; [done|by intros ? [= <-]]]|].
  apply (IH (length (f :: rest'))); [simpl; lia|done|done|done].
Qed.

Lemma execute_segment_ok tokens input r : run_ok r → Forall token_ok tokens → ∃ r', execute_segment tmp echo_linked tokens input r = Some r' ∧ run_ok r'.
Proof.
  intros Hr Ht. unfold execute_segment. cbv zeta. pose proof (redirect_ok tokens no_redirections Ht) as [Ha Ho]; [by split|].
  destruct (redirect tokens no_redirections) as [rin rout app argv]. cbn [rd_argv rd_out rd_in rd_append] in *.
  set (r0 := {| r_shell := r_shell r; r_kernel := r_kernel r; r_out := []; r_exit := r_exit r |}).
  assert (run_ok r0) as Hr0 by (split; [apply Hr|apply Hr|apply Nat.ltb_lt; reflexivity]).
  destruct argv as [|a0 args]; [by exists r0|]. apply Forall_cons in Ha as [_ Ha].
  assert (∃ r1, match resolve_command_name a0 (r_shell r) with
                | None => Some (sayf [bytes_of "unknown command: "; a0; LF] r0)
                | Some cmd => match command_of cmd with
                              | None => Some (sayf [bytes_of "unknown command: "; a0; LF] r0)
                              | Some c => run_one tmp echo_linked c args (match rin with None => input | Some f => Some (default [] (file_get f (r_shell r))) end) r0
                              end
                end = Some r1 ∧ run_ok r1) as (r1 & -> & Hr1).
  { destruct (resolve_command_name _ _) as [cmd|]; [destruct (command_of cmd); [by apply run_one_ok|]|]; (eexists; split; [reflexivity|eauto with shell]). }
  cbn [mbind option_bind]. eexists; split; [reflexivity|]. destruct rout as [f|]; [|done].
  split; [apply file_set_ok; [apply Hr1|by apply Ho]|apply Hr1|apply Nat.ltb_lt; reflexivity].
Qed.

Lemma run_command_ok line r : run_ok r → is_bytes line → ∃ r', run_command tmp echo_linked line r = Some r' ∧ run_ok r'.
Proof.
  intros Hr Hl. unfold run_command. pose proof (split_at_bytes 10 line Hl) as [Hb _]. pose proof (f_equal length (split_at_parts 10 line)) as Hn. rewrite length_app in Hn.
  destruct (tokenize_total (S (length line)) QOS_SH_TOKENS_MAX (split_at 10 line).1) as (ts & E & _ & Hs); [lia|].
  pose proof (tokenize_Forall (in_width 8) _ _ _ _ Hb E) as Hts. rewrite E. cbn [mbind option_bind].
  assert (Forall token_ok ts) as Hok by (apply Forall_and; by split).
  assert (run_ok {| r_shell := r_shell r; r_kernel := r_kernel r; r_out := []; r_exit := false |}) as Hr0 by (split; [apply Hr|apply Hr|apply Nat.ltb_lt; reflexivity]).
  destruct ts as [|t ts]; [by eexists|]. unfold run_tokens. destruct (first_index _ _) as [i|]; [|by apply execute_segment_ok].
  destruct (_ && _); [|by apply execute_segment_ok].
  destruct (execute_segment_ok (take i (t :: ts)) None _ Hr0) as (r1 & -> & Hr1); [by apply Forall_take|]. cbn [mbind option_bind].
  apply execute_segment_ok; [done|by apply Forall_drop].
Qed.

Lemma session_ok lines r : run_ok r → Forall is_bytes lines → ∃ printed r', session tmp echo_linked lines r = Some (printed, r') ∧ run_ok r'.
Proof.
  revert r. induction lines as [|l lines IH]; intros r Hr Hl; cbn [session]; cbv zeta; [by eexists _, _|]. apply Forall_cons in Hl as [Hl Hls].
  destruct (run_command_ok l r Hr Hl) as (r1 & -> & Hr1). cbn [mbind option_bind]. destruct (r_exit r1); [by eexists _, _|].
  destruct (IH r1 Hr1 Hls) as (printed & r2 & -> & Hr2). cbn [mbind option_bind]. by eexists _, _.
Qed.
End answered.

(** A kernel that qos_kernel_entry has started. *)
Definition started (k : kernel) : Prop :=
  ∃ img boot k0, image_ok img ∧ static_ok k0 ∧ qos_kernel_entry img boot k0 = (0, k).

Lemma started_good k : started k → kernel_good k.
Proof.
  intros (img & boot & k0 & Hi & [Hl Hn] & He). rewrite kernel_entry_eq in He by done.
  destruct (qos_pmm_init _ _ _) as [found p]. destruct (negb _); [done|]. destruct (negb _); [done|].
  apply pair_equal_spec in He as [_ <-]. split; [apply booted_sys_ok; [by rewrite length_fmap|by apply Forall_fmap]|reflexivity].
Qed.

Lemma once_line_fits args line : (length line < 256)%nat → (length (once_line args line) < 256)%nat.
Proof.
  revert line. induction args as [|a args IH]; intros line Hl; [done|]. cbn [once_line]. cbv zeta. apply IH. rewrite length_app, length_take.
  destruct (_ && _) eqn:E.
  - apply andb_true_iff in E as [_ E%Nat.ltb_lt]. rewrite !length_app. cbn [length]. destruct (Nat.leb_spec 256 (length line + 1 + length a)); lia.
  - destruct (Nat.leb_spec 256 (length line + length a)); lia.
Qed.

Lemma once_line_bytes args line : Forall is_bytes args → is_bytes line → is_bytes (once_line args line).
Proof.
  intros Ha. revert line. induction Ha as [|a args Ha _ IH]; intros line Hl; [done|]. cbn [once_line]. cbv zeta. apply IH.
  apply Forall_app. split; [|by apply Forall_take]. destruct (_ && _); [apply Forall_app; split; [done|by apply Forall_singleton]|done].
Qed.

Definition first_run (kernel : option kernel) : run := {| r_shell := fs_reset; r_kernel := kernel; r_out := []; r_exit := false |}.

Lemma first_run_ok kernel : (∀ k, kernel = Some k → started k) → run_ok (first_run kernel).
Proof. intros Hk. split; [apply fs_reset_ok|intros k E; by apply started_good, Hk|apply Nat.ltb_lt; reflexivity]. Qed.

(** C8: the shell answers every line.  Alone or linked with a started kernel, whatever
    lines are typed, each command returns, its system calls included, and leaves the
    output within its 2048 bytes, the tables of paths, files and variables and the
    working directory with every string within its buffer and no name twice, the table of
    modules with its 64 rows of 128 bytes and 32-bit ids other than 0, and the kernel with
    the invariants of all its parts.  (The path in a row of the module table may fill the
    row without a NUL, and such a path may be in the table more than once.)  The same
    holds for the one line that --once builds, which fits its 256 bytes. *)
Theorem shell_session_answered tmp echo_linked kernel lines args :
  length tmp = TMP_MAX → (∀ k, kernel = Some k → started k) → Forall is_bytes lines → Forall is_bytes args →
  let fine r := shell_ok (r_shell r) ∧ (length (r_out r) < QOS_SH_OUT_MAX)%nat ∧ ∀ k, r_kernel r = Some k → sys_ok k in
  (∃ printed r, session tmp echo_linked lines (first_run kernel) = Some (printed, r) ∧ fine r)
  ∧ (length (once_line args []) < 256)%nat
  ∧ ∃ r, run_command tmp echo_linked (once_line args []) (first_run kernel) = Some r ∧ fine r.
Proof.
  intros Ht Hk Hl Ha fine. pose proof (first_run_ok kernel Hk) as Hr.
  assert (∀ r, run_ok r → fine r) as Hfine by (intros r [Hs Hg Ho]; split_and!; [done|done|]; intros k E; apply (Hg k E)).
  destruct (session_ok tmp echo_linked Ht lines _ Hr Hl) as (printed & r & E & Hr1).
  destruct (run_command_ok tmp echo_linked Ht (once_line args []) _ Hr) as (r2 & E2 & Hr2); [apply once_line_bytes; [done|apply Forall_nil_2]|].
  split_and!; [exists printed, r; by auto|apply once_line_fits; simpl; lia|exists r2; by auto].
Qed.

(** ** Redirection *)

Definition operators : list str := bytes_of <$> ["<"; ">"; ">>"; "|"]%string.

(** A word that quoting passes on to the command as it is. *)
Definition plain_word (w : str) : Prop := quotable w ∧ 10 ∉ w ∧ w ∉ operators.

Lemma streq_false a b : a ≠ b → streq a b = false.
Proof. apply bool_decide_eq_false_2. Qed.

Lemma plain_streq w : plain_word w → streq w (bytes_of "<") = false ∧ streq w (bytes_of ">") = false ∧ streq w (bytes_of ">>") = false ∧ streq w (bytes_of "|") = false.
Proof. intros (_ & _ & Ho). split_and!; apply streq_false; intros ->; apply Ho; unfold operators; cbn [fmap list_fmap]; set_solver. Qed.

Definition push_arg (t : str) (d : redirections) : redirections :=
  {| rd_in := rd_in d; rd_out := rd_out d; rd_append := rd_append d; rd_argv := rd_argv d ++ [t] |}.

Lemma redirect_word t rest d : plain_word t → (length (rd_argv d) < QOS_SH_ARG_MAX)%nat → redirect (t :: rest) d = redirect rest (push_arg t d).
Proof.
  intros Ht Hl. destruct (plain_streq t Ht) as (E1 & E2 & E3 & _). cbn [redirect]. rewrite E1, E2, E3. apply Nat.ltb_lt in Hl as ->. by destruct rest.
Qed.

Lemma redirect_words ws rest d :
  Forall plain_word ws → (length (rd_argv d) + length ws <= QOS_SH_ARG_MAX)%nat →
  redirect (ws ++ rest) d = redirect rest {| rd_in := rd_in d; rd_out := rd_out d; rd_append := rd_append d; rd_argv := rd_argv d ++ ws |}.
Proof.
  intros Hw. revert d. induction Hw as [|w ws Hw Hws IH]; intros d Hl; [rewrite app_nil_r; by destruct d|]. cbn [app length] in *.
  rewrite redirect_word by (done || lia). rewrite IH by (cbn [push_arg rd_argv]; rewrite length_app; simpl; lia). cbn [push_arg rd_in rd_out rd_append rd_argv].
  by rewrite <- app_assoc.
Qed.

Lemma out_append_take text out : (length out < QOS_SH_OUT_MAX)%nat → out_append QOS_SH_OUT_MAX (Some text) out = take (QOS_SH_OUT_MAX - 1) (out ++ text).
Proof.
  intros Ho. unfold out_append. change (QOS_SH_OUT_MAX =? 0)%nat with false. cbn [orb]. rewrite take_app, (take_ge out) by lia.
  destruct (Nat.leb_spec (QOS_SH_OUT_MAX - 1) (length out)); [by replace (QOS_SH_OUT_MAX - 1 - length out)%nat with 0%nat by lia; rewrite take_0, app_nil_r|].
  f_equal. destruct (Nat.le_gt_cases (length text) (QOS_SH_OUT_MAX - 1 - length out)); [rewrite Nat.min_l, !take_ge by lia; done|by rewrite Nat.min_r by lia].
Qed.

Lemma take_take_app {A} n (l k : list A) : take n (take n l ++ k) = take n (l ++ k).
Proof.
  rewrite !take_app, take_take, Nat.min_id, length_take. f_equal. destruct (Nat.le_gt_cases n (length l)); [|by rewrite Nat.min_r by lia].
  rewrite Nat.min_l by lia. by rewrite !(proj2 (Nat.sub_0_le _ _)) by lia.
Qed.

(** The first bytes of [text] are what the run has printed so far. *)
Definition printed (text : str) (r : run) : Prop := r_out r = take (QOS_SH_OUT_MAX - 1) text.

Lemma printed_say text t r : printed text r → printed (text ++ t) (say t r).
Proof.
  unfold printed. intros Hr. cbn [say r_out]. rewrite out_append_take, Hr, take_take_app; [done|].
  rewrite Hr, length_take. unfold QOS_SH_OUT_MAX. lia.
Qed.

(** What echo prints of its arguments. *)
Fixpoint spaced (first : bool) (ws : list str) : str :=
  match ws with [] => [] | w :: ws' => (if first then [] else [32]) ++ w ++ spaced false ws' end.

Lemma echo_args_printed ws first text r : printed text r → printed (text ++ spaced first ws) (echo_args first ws r).
Proof.
  revert first text r. induction ws as [|w ws IH]; intros first text r Hr; cbn [echo_args spaced]; [by rewrite app_nil_r|].
  rewrite !app_assoc. apply IH. apply printed_say. destruct first; [by rewrite app_nil_r|by apply printed_say].
Qed.

Lemma echo_args_state ws first r :
  r_shell (echo_args first ws r) = r_shell r ∧ r_kernel (echo_args first ws r) = r_kernel r ∧ r_exit (echo_args first ws r) = r_exit r.
Proof. revert first r. induction ws as [|w ws IH]; intros first r; [done|]. cbn [echo_args]. specialize (IH false (say w (if first then r else say [32] r))). by destruct first. Qed.

Lemma cmd_echo_printed ws r : printed [] r → printed (spaced true ws ++ LF) (cmd_echo ws None r).
Proof. intros Hr. destruct ws as [|w ws]; [by apply (printed_say [])|]. cbn [cmd_echo]. apply printed_say. exact (echo_args_printed (w :: ws) true [] r Hr). Qed.

Lemma cmd_echo_state ws input r : r_shell (cmd_echo ws input r) = r_shell r ∧ r_kernel (cmd_echo ws input r) = r_kernel r ∧ r_exit (cmd_echo ws input r) = r_exit r.
Proof. destruct ws as [|w ws]; [done|]. cbn [cmd_echo]. apply (echo_args_state (w :: ws) true r). Qed.

(** The bytes of an output beyond its buffer are beyond what a file keeps. *)
Lemma stored_printed append old text : stored append old (take (QOS_SH_OUT_MAX - 1) text) = stored append old text.
Proof.
  unfold stored. change (QOS_SH_OUT_MAX - 1)%nat with 2047%nat. change (QOS_SH_FILE_MAX - 1)%nat with 511%nat.
  destruct append; [|by rewrite take_take]. rewrite !take_app, take_take. do 2 f_equal. lia.
Qed.

(** The line [echo "w1" "w2" ... > "path"], or with [>>]. *)
Definition echo_line (append : bool) (ws : list str) (path : str) : str :=
  bytes_of "echo " ++ quote_line ws ++ bytes_of (if append then ">> " else "> ") ++ quote_line [path].

Definition cat_line (path : str) : str := bytes_of "cat " ++ quote_line [path].

Lemma quote_line_newline ws : Forall (λ w, 10 ∉ w) ws → 10 ∉ quote_line ws.
Proof.
  induction 1 as [|w ws Hw _ IH]; [by apply not_elem_of_nil|]. change (quote_line (w :: ws)) with ((QUOTE :: w ++ [QUOTE; 32]) ++ quote_line ws).
  unfold QUOTE. set_solver.
Qed.

Lemma split_at_none c t : c ∉ t → (split_at c t).1 = t.
Proof.
  induction t as [|x t IH]; intros Hc; [done|]. apply not_elem_of_cons in Hc as [Hx Hc]. cbn [split_at].
  rewrite (proj2 (Z.eqb_neq _ _)) by congruence. specialize (IH Hc). destruct (split_at c t). cbn in *. by rewrite IH.
Qed.

(** The first word of both lines is plain. *)
Lemma tokenize_echo fuel max rest : tokenize (S fuel) (S max) (bytes_of "echo " ++ rest) = cons (bytes_of "echo") <$> tokenize fuel max rest.
Proof. rewrite <- (tokenize_blank fuel). reflexivity. Qed.

Lemma tokenize_cat fuel max rest : tokenize (S fuel) (S max) (bytes_of "cat " ++ rest) = cons (bytes_of "cat") <$> tokenize fuel max rest.
Proof. rewrite <- (tokenize_blank fuel). reflexivity. Qed.

Lemma tokenize_into (append : bool) fuel max rest :
  tokenize (S fuel) (S max) (bytes_of (if append then ">> " else "> ") ++ rest) = cons (bytes_of (if append then ">>" else ">")) <$> tokenize fuel max rest.
Proof. rewrite <- (tokenize_blank fuel). by destruct append. Qed.

Lemma tokenize_path max path : quotable path → tokenize 2 (S max) (quote_line [path]) = Some [path].
Proof.
  intros Hp. pose proof (tokenize_quoted 1 max [path] [] [] (proj2 (Forall_singleton _ _) Hp) eq_refl) as H. by rewrite app_nil_r in H.
Qed.

Lemma tokenize_echo_line append ws path :
  Forall quotable ws → quotable path → (length ws + 3 <= QOS_SH_TOKENS_MAX)%nat →
  tokenize (S (length (echo_line append ws path))) QOS_SH_TOKENS_MAX (echo_line append ws path)
  = Some (bytes_of "echo" :: ws ++ [bytes_of (if append then ">>" else ">"); path]).
Proof.
  intros Hw Hp Hl. apply (tokenize_enough (S (length ws + 3))); [lia|]. unfold echo_line.
  replace QOS_SH_TOKENS_MAX with (S (length ws + S (S (QOS_SH_TOKENS_MAX - 3 - length ws)))) by lia. rewrite tokenize_echo.
  erewrite tokenize_quoted; [reflexivity|done|]. by rewrite tokenize_into, tokenize_path.
Qed.

Lemma tokenize_cat_line path : quotable path → tokenize (S (length (cat_line path))) QOS_SH_TOKENS_MAX (cat_line path) = Some [bytes_of "cat"; path].
Proof. intros Hp. apply (tokenize_enough 3); [lia|]. change QOS_SH_TOKENS_MAX with 64%nat. unfold cat_line. by rewrite tokenize_cat, tokenize_path. Qed.

Section redirected.
Context (tmp : list Z) (echo_linked : bool).

(** A line without a newline and with no pipe is one segment. *)
Lemma run_command_segment line ts r :
  10 ∉ line → tokenize (S (length line)) QOS_SH_TOKENS_MAX line = Some ts → ts ≠ [] → Forall (λ t, streq t (bytes_of "|") = false) ts →
  run_command tmp echo_linked line r
  = execute_segment tmp echo_linked ts None {| r_shell := r_shell r; r_kernel := r_kernel r; r_out := []; r_exit := false |}.
Proof.
  intros Hn Ht Hne Hp. unfold run_command. rewrite split_at_none, Ht by done. cbn [mbind option_bind]. destruct ts as [|t ts]; [done|].
  unfold run_tokens. rewrite (proj2 (first_index_None _ _)); [done|]. intros i a Ha. by apply (Forall_lookup_1 _ _ _ _ Hp Ha).
Qed.

Lemma absolute_word path : absolute path = true → quotable path → 10 ∉ path → plain_word path.
Proof.
  intros Ha Hq Hn. split_and!; [done|done|]. unfold operators. cbn [fmap list_fmap]. intros Hin. rewrite !elem_of_cons, elem_of_nil in Hin.
  destruct Hin as [->|[->|[->|[->|[]]]]]; vm_compute in Ha; discriminate.
Qed.

Lemma echo_line_runs append ws path r :
  Forall plain_word ws → (length ws < QOS_SH_ARG_MAX)%nat → plain_word path →
  ∃ r1, run_command tmp echo_linked (echo_line append ws path) r = Some r1 ∧ r_out r1 = [] ∧ r_kernel r1 = r_kernel r
    ∧ r_shell r1 = (file_set path (take (QOS_SH_OUT_MAX - 1) (spaced true ws ++ LF)) append (r_shell r)).2.
Proof.
  intros Hw Hl Hp. set (op := bytes_of (if append then ">>" else ">")).
  assert (plain_word (bytes_of "echo")) as Hecho by (split_and!; [split|..]; by (apply Nat.ltb_lt; reflexivity) || apply (bool_decide_unpack _); vm_compute).
  rewrite (run_command_segment _ (bytes_of "echo" :: ws ++ [op; path])).
  - unfold execute_segment. cbv zeta. rewrite (redirect_words (bytes_of "echo" :: ws) [op; path]); [|by constructor|cbn [rd_argv no_redirections length]; lia].
    assert (∀ d, redirect [op; path] d = {| rd_in := rd_in d; rd_out := Some path; rd_append := append; rd_argv := rd_argv d |}) as -> by (by destruct append).
    cbn [rd_in rd_out rd_append rd_argv no_redirections app]. change (resolve_command_name (bytes_of "echo") _) with (Some (bytes_of "echo")).
    cbv iota beta. replace (command_of (bytes_of "echo")) with (Some Echo) by (vm_compute; reflexivity). cbn [run_one mbind option_bind r_shell r_kernel r_exit].
    set (r0 := {| r_shell := r_shell r; r_kernel := r_kernel r; r_out := []; r_exit := false |}). pose proof (cmd_echo_printed ws r0 eq_refl) as Ho. destruct (cmd_echo_state ws None r0) as (E1 & E2 & _).
    rewrite Ho, E1, E2. by eexists.
  - unfold echo_line. rewrite !not_elem_of_app. split_and!; [by apply (bool_decide_unpack _); vm_compute| | |].
    + apply quote_line_newline. by apply (Forall_impl _ _ _ Hw); intros w (_ & Hn & _).
    + destruct append; by apply (bool_decide_unpack _); vm_compute.
    + apply quote_line_newline, Forall_singleton. apply Hp.
  - apply tokenize_echo_line; [by apply (Forall_impl _ _ _ Hw); intros w (Hq & _)|apply Hp|]. unfold QOS_SH_ARG_MAX, QOS_SH_TOKENS_MAX in *. lia.
  - done.
  - apply Forall_cons. split; [by apply plain_streq|]. apply Forall_app. split; [by apply (Forall_impl _ _ _ Hw); intros w; apply plain_streq|].
    apply Forall_cons. split; [by destruct append|]. apply Forall_singleton, plain_streq, Hp.
Qed.

Lemma cat_line_runs path r d :
  plain_word path → resolve_command_name (bytes_of "cat") (r_shell r) = Some (bytes_of "cat") →
  path ≠ bytes_of "/proc/meminfo" → parse_proc_status_pid path = None → file_get path (r_shell r) = Some d → (length d < QOS_SH_OUT_MAX)%nat →
  ∃ r1, run_command tmp echo_linked (cat_line path) r = Some r1 ∧ r_out r1 = d ∧ r_shell r1 = r_shell r.
Proof.
  intros Hp Hc Hm Hs Hf Hd. assert (plain_word (bytes_of "cat")) as Hcat by (split_and!; [split|..]; by (apply Nat.ltb_lt; reflexivity) || apply (bool_decide_unpack _); vm_compute).
  rewrite (run_command_segment _ [bytes_of "cat"; path]).
  - unfold execute_segment. cbv zeta. rewrite (redirect_words [bytes_of "cat"; path] []); [|by apply Forall_cons_2; [|apply Forall_singleton]|apply Nat.leb_le; reflexivity].
    cbn [redirect rd_in rd_out rd_append rd_argv no_redirections app r_shell]. rewrite Hc. replace (command_of (bytes_of "cat")) with (Some Cat) by (vm_compute; reflexivity).
    cbn [run_one cmd_cat mbind option_bind]. rewrite streq_false, Hs by done. cbn [r_shell]. rewrite Hf. eexists. split; [reflexivity|]. split; [|done].
    cbn [say r_out]. rewrite out_append_take by (apply Nat.ltb_lt; reflexivity). apply take_ge. cbn [app]. lia.
  - unfold cat_line. rewrite not_elem_of_app. split; [by apply (bool_decide_unpack _); vm_compute|]. apply quote_line_newline, Forall_singleton. apply Hp.
  - apply tokenize_cat_line, Hp.
  - done.
  - apply Forall_cons_2; [by apply plain_streq|]. by apply Forall_singleton, plain_streq.
Qed.

(** C24: what echo writes to a file comes back from it.  [echo "w1" ... > "f"] prints nothing
    and makes the words with a blank between them and a newline the contents of the file,
    with [>>] it adds them to what was there, the first 511 bytes of it all in either case;
    [cat "f"] then prints exactly that, and no other file has changed.  It holds for fewer
    than 32 words (a command has at most 32 arguments), each of at most 127 bytes and none
    of them an operator, for a path of at most 127 bytes that begins with a slash and is none
    of the /proc files cat makes up (neither words nor path with a NUL, a double quote or a newline), while cat is
    found through the PATH variable, and as long as the file exists or one of 64 is left. *)
Theorem redirect_roundtrip append ws path r :
  run_ok r → Forall plain_word ws → (length ws < QOS_SH_ARG_MAX)%nat →
  absolute path = true → quotable path → 10 ∉ path → path ≠ bytes_of "/proc/meminfo" → parse_proc_status_pid path = None →
  resolve_command_name (bytes_of "cat") (r_shell r) = Some (bytes_of "cat") →
  let files := contents (sh_files (r_shell r)) in
  path ∈ dom files ∨ (size files < QOS_SH_FILE_SLOTS)%nat →
  let text := stored append (default [] (files !! path)) (spaced true ws ++ LF) in
  ∃ r1 r2, run_command tmp echo_linked (echo_line append ws path) r = Some r1 ∧ r_out r1 = []
    ∧ run_command tmp echo_linked (cat_line path) r1 = Some r2 ∧ r_out r2 = text
    ∧ contents (sh_files (r_shell r2)) = <[path := text]> files.
Proof.
  intros Hr Hw Hl Ha Hq Hn Hm Hs Hc files Hroom text. pose proof (absolute_word path Ha Hq Hn) as Hp. destruct (echo_line_runs append ws path r Hw Hl Hp) as (r1 & E1 & O1 & _ & S1).
  pose proof (proj2 (proj1 Hp) : (length path < QOS_SH_PATH_MAX)%nat) as Hlen.
  pose proof (file_set_spec path (take (QOS_SH_OUT_MAX - 1) (spaced true ws ++ LF)) append (r_shell r) (ro_shell r Hr) Hlen) as (Hs1 & _ & F1).
  pose proof (exec_frame (SetFile path (take (QOS_SH_OUT_MAX - 1) (spaced true ws ++ LF)) append) (r_shell r)) as [_ V1]. cbn [table_exec] in V1.
  rewrite <- S1 in Hs1, F1, V1. rewrite Ha, stored_printed in F1. fold files text in F1. cbn [andb] in F1.
  assert (bool_decide (path ∈ dom files) || (size files <? QOS_SH_FILE_SLOTS)%nat = true) as Hfit.
  { apply orb_true_iff. destruct Hroom; [left; by apply bool_decide_eq_true_2|right; by apply Nat.ltb_lt]. }
  rewrite Hfit in F1. destruct (cat_line_runs path r1 text) as (r2 & E2 & O2 & S2); [done| |done|done| | |].
  - rewrite <- Hc. unfold resolve_command_name, resolve_external_from_path, env_get, env_find. by rewrite V1.
  - by rewrite file_get_spec, F1, lookup_insert_eq.
  - pose proof (stored_fits append (default [] (files !! path)) (spaced true ws ++ LF)). fold text in H. unfold QOS_SH_FILE_MAX, QOS_SH_OUT_MAX in *. lia.
  - exists r1, r2. by rewrite S2.
Qed.
End redirected.

Lemma only_started k0 : started k0 → ∀ k, Some k0 = Some k → started k.
Proof. intros H k E. by injection E as <-. Qed.

Lemma shell_session_answered_witness :
  ∃ printed r, session (replicate TMP_MAX 0) true [bytes_of "insmod /m"; bytes_of "rmmod /m"] (first_run (Some demo_start)) = Some (printed, r) ∧ shell_ok (r_shell r).
Proof.
  destruct (shell_session_answered (replicate TMP_MAX 0) true (Some demo_start) [bytes_of "insmod /m"; bytes_of "rmmod /m"] []) as ((p & r & E & Hr & _) & _).
  - apply length_replicate.
  - apply only_started. exists demo_image, (Some (0x500000, demo_boot 0x600000)), cold. split; [apply demo_image_ok|]. split; [apply cold_static|apply demo_start_entry].
  - apply Forall_cons. split; [apply bytes_of_range|]. apply Forall_singleton, bytes_of_range.
  - apply Forall_nil_2.
  - exists p, r. split; [exact E|exact Hr].
Defined.

Lemma redirect_roundtrip_witness :
  ∃ r1 r2, run_command [] true (echo_line false [bytes_of "a > b"; bytes_of "c"] (bytes_of "/f")) (first_run None) = Some r1
    ∧ run_command [] true (cat_line (bytes_of "/f")) r1 = Some r2 ∧ r_out r2 = bytes_of "a > b c" ++ LF.
Proof.
  destruct (redirect_roundtrip [] true false [bytes_of "a > b"; bytes_of "c"] (bytes_of "/f") (first_run None)) as (r1 & r2 & E1 & _ & E2 & O2 & _).
  - apply first_run_ok. intros k E. discriminate E.
  - apply (bool_decide_unpack _). vm_compute. exact I.
  - apply Nat.ltb_lt. reflexivity.
  - reflexivity.
  - apply (bool_decide_unpack _). vm_compute. exact I.
  - apply (bool_decide_unpack _). vm_compute. exact I.
  - apply (bool_decide_unpack _). vm_compute. exact I.
  - reflexivity.
  - reflexivity.
  - right. apply Nat.ltb_lt. reflexivity.
  - exists r1, r2. split; [exact E1|]. split; [exact E2|]. rewrite O2. vm_compute. reflexivity.
Defined.
