(* ===== verification/NetTools.v ===== *)
(** * The programs ping and wget (c-os/userspace/ping.c, c-os/userspace/wget.c)

    Both programs carry their own copies of the address and URL parsers and of the raw
    echo of the shell, line for line; the model uses the definitions of Shell for them.
    What is their own is the main program and, in wget, the exchange that prints the
    reply.  The commands of the shell print what the programs print. *)

From S2P Require Import Prelude NameBuf Packet Kernel Dispatch Cstring Cformat Shell ShellTables ShellRuns.

Section programs.
Context (tmp : list Z) (echo_linked : bool).
Implicit Types (kernel : option kernel).

(** ** ping.c *)

(** [args] are the arguments behind the program's name; the result is what is printed and the kernel. *)
Definition ping_main (args : list str) kernel : option (str * option Kernel.kernel) :=
  match args with
  | [] => Some (bytes_of "ping: missing host" ++ LF, kernel)
  | a :: _ =>
      match parse_ipv4_addr a with
      | None => Some (bytes_of "ping: invalid host" ++ LF, kernel)
      | Some dst_ip =>
          let payload := bytes_of "qos" in
          '(got, kernel1) ← match kernel with
                            | None => Some (-1, kernel)
                            | Some k => '(rc, k1) ← ping_via_syscall_raw tmp dst_ip payload k; Some (rc, Some k1)
                            end;
          let got := if (got <? 0) && echo_linked then (qos_net_icmp_echo dst_ip (Some payload) 3 true 16).1.1
                     else if (got <? 0) && ((dst_ip =? QOS_SH_IPV4_GATEWAY) || (dst_ip =? QOS_SH_IPV4_LOCAL)) then 3 else got in
          Some (if 0 <? got
                then bytes_of "PING " ++ a ++ LF ++ bytes_of "64 bytes from " ++ a ++ bytes_of ": icmp_seq=1 ttl=64 time=1ms" ++ LF
                     ++ bytes_of "1 packets transmitted, 1 received" ++ LF
                else bytes_of "PING " ++ a ++ LF ++ bytes_of "From 10.0.2.15 icmp_seq=1 Destination Host Unreachable" ++ LF
                     ++ bytes_of "1 packets transmitted, 0 received" ++ LF, kernel1)
      end
  end.

(** ** wget.c *)

Definition wget_fallback (dst_ip : Z) : Z * str :=
  if negb (dst_ip =? QOS_SH_IPV4_GATEWAY) then (-1, [])
  else (0, bytes_of "HTTP/1.0 200 OK" ++ CRLF ++ bytes_of "Content-Length: 4" ++ CRLF ++ CRLF ++ bytes_of "qos" ++ LF).

(** The result, what was printed and the kernel. *)
Definition wget_stream (url : str) kernel : option (Z * str * option Kernel.kernel) :=
  match parse_http_url url with
  | None => Some (-1, [], kernel)
  | Some (dst_ip, dst_port, host, path) =>
      match kernel with
      | None => Some (wget_fallback dst_ip, kernel)
      | Some k =>
          let req := request path host in
          let segs := [(PATH_AT, make_sockaddr dst_port dst_ip); (BUF_AT, req ++ [0])] in
          '(fd, _, k1) ← sh_call tmp 14 2 1 0 0 segs k;
          if fd <? 0 then Some (wget_fallback dst_ip, Some k1)
          else
            let close k := '(_, _, k') ← sh_call tmp 8 (u64 fd) 0 0 0 segs k; Some (Some k') in
            '(rc, _, k2) ← sh_call tmp 18 (u64 fd) PATH_AT 16 0 segs k1;
            if negb (rc =? 0) then k' ← close k2; Some (wget_fallback dst_ip, k')
            else if (256 <=? length req)%nat then k' ← close k2; Some (-1, [], k')
            else
              let req_len := Z.of_nat (length req) in
              '(rc, _, k3) ← sh_call tmp 19 (u64 fd) BUF_AT req_len 0 segs k2;
              if negb (rc =? req_len) then k' ← close k3; Some (wget_fallback dst_ip, k')
              else
                '(rc, ws, k4) ← sh_call tmp 20 (u64 fd) OUT_AT 2047 0 segs k3;
                k5 ← close k4;
                if rc <=? 0 then Some (wget_fallback dst_ip, k5)
                else
                  let resp := match ws with (_, bs) :: _ => bs | [] => [] end in
                  Some (0, c_string (take (Z.to_nat (Z.min rc 2047)) resp), k5)
      end
  end.

Definition wget_main (args : list str) kernel : option (str * option Kernel.kernel) :=
  match args with
  | [] => Some (bytes_of "wget: missing url" ++ LF, kernel)
  | a :: _ =>
      '(rc, text, kernel1) ← wget_stream a kernel;
      Some (if negb (rc =? 0) then text ++ bytes_of "wget: failed" ++ LF else text, kernel1)
  end.

(** ** The commands and the programs agree *)

(** The run after the command is the run before it with [text] printed and [kernel] behind it. *)
Definition prints (r : run) (text : str) kernel (r' : run) : Prop :=
  r_shell r' = r_shell r ∧ r_kernel r' = kernel ∧ r_exit r' = r_exit r ∧ printed text r'.

Lemma prints_say r text kernel r' t : prints r text kernel r' → prints r (text ++ t) kernel (say t r').
Proof. intros (H1 & H2 & H3 & H4). split_and!; [done..|by apply printed_say]. Qed.

Lemma prints_none r : r_out r = [] → prints r [] (r_kernel r) r.
Proof. intros H. split_and!; [done..|]. unfold printed. by rewrite H. Qed.

Lemma prints_say_first r t : r_out r = [] → prints r t (r_kernel r) (say t r).
Proof. intros H. by apply (prints_say r []), prints_none. Qed.

Lemma prints_sayf r parts : r_out r = [] → prints r (concat parts) (r_kernel r) (sayf parts r).
Proof.
  intros H. destruct (prints_say_first r (copy_string QOS_SH_OUT_MAX (concat parts)) H) as (H1 & H2 & H3 & H4). split_and!; [done..|].
  revert H4. unfold printed, copy_string. by rewrite take_take, Nat.min_id.
Qed.

Lemma prints_in_kernel r k text kernel r' : prints (in_kernel k r) text kernel r' → prints r text kernel r'.
Proof. done. Qed.

(** The command answers as the program does, whether or not it returns. *)
Definition answers (program : option (str * option Kernel.kernel)) (command : option run) (r : run) : Prop :=
  match program with
  | Some (text, kernel) => ∃ r', command = Some r' ∧ prints r text kernel r'
  | None => command = None
  end.

Lemma fallback_prints ip r :
  r_out r = [] → (wget_host_fallback ip r).1 = (wget_fallback ip).1 ∧ prints r (wget_fallback ip).2 (r_kernel r) (wget_host_fallback ip r).2.
Proof.
  intros H. unfold wget_host_fallback, wget_fallback. destruct (negb _); (split; [done|]); [by apply prints_none|by apply prints_say_first].
Qed.

(** The exchange of the shell against the exchange of the program. *)
Definition same_exchange (program : option (Z * str * option Kernel.kernel)) (command : option (Z * run)) (r : run) : Prop :=
  match program with
  | Some (rc, text, kernel) => ∃ r', command = Some (rc, r') ∧ prints r text kernel r'
  | None => command = None
  end.

Lemma same_fallback ip r : r_out r = [] → same_exchange (Some (wget_fallback ip, r_kernel r)) (Some (wget_host_fallback ip r)) r.
Proof.
  intros H. destruct (fallback_prints ip r H) as [H1 H2]. unfold same_exchange. destruct (wget_fallback ip) as [rc text], (wget_host_fallback ip r) as [rc' r'].
  cbn [fst snd] in *. subst rc'. by exists r'.
Qed.

Lemma wget_same url r : r_out r = [] → same_exchange (wget_stream url (r_kernel r)) (wget_via_syscall_stream tmp url r) r.
Proof.
  intros H. unfold wget_stream, wget_via_syscall_stream. destruct (parse_http_url url) as [[[[ip port] host] path]|]; [|exists r; split; [done|by apply prints_none]].
  destruct (r_kernel r) as [k|] eqn:Ek; [|rewrite <- Ek; by apply same_fallback]. cbv zeta.
  assert (∀ k1, same_exchange (Some (wget_fallback ip, Some k1)) (Some (wget_host_fallback ip (in_kernel k1 r))) r) as Hf
    by (intros k1; exact (same_fallback ip (in_kernel k1 r) H)).
  repeat first
    [ apply Hf
    | match goal with |- context [sh_call tmp ?n ?a ?b ?c ?d ?s ?k] => destruct (sh_call tmp n a b c d s k) as [[[? ?] ?]|]; cbn [mbind option_bind]; [|reflexivity] end
    | match goal with |- same_exchange (if ?c then _ else _) _ _ => destruct c; cbn [mbind option_bind] end ].
  - eexists. split; [reflexivity|]. by apply (prints_none (in_kernel _ r)).
  - eexists. split; [reflexivity|]. by apply (prints_say_first (in_kernel _ r)).
Qed.

(** ping and wget are the same as commands of the shell and as programs.  On any arguments,
    alone or with a kernel in any state, the command makes the kernel go through the same
    calls to the same state, returns exactly when the program does, and appends to the
    output the first 2047 bytes of what the program prints; nothing else of the shell
    changes. *)
Theorem net_commands_run_programs args r :
  r_out r = [] →
  answers (ping_main args (r_kernel r)) (cmd_ping tmp echo_linked args r) r
  ∧ answers (wget_main args (r_kernel r)) (cmd_wget tmp args r) r.
Proof.
  intros H. destruct args as [|a args]; [split; (eexists; split; [reflexivity|by apply prints_say_first])|]. split.
  - cbn [ping_main cmd_ping]. destruct (parse_ipv4_addr a) as [ip|]; [|eexists; split; [reflexivity|by apply prints_say_first]]. cbv zeta.
    assert (∀ r1 got, r_out r1 = [] → prints r1 (concat (ping_report a got)) (r_kernel r1) (sayf (ping_report a got) r1)) as Hp by (intros; by apply prints_sayf).
    unfold ping_report in *. destruct (r_kernel r) as [k|] eqn:Ek.
    + destruct (ping_via_syscall_raw tmp ip (bytes_of "qos") k) as [[rc k1]|]; [|reflexivity]. cbn [mbind option_bind].
      eexists. split; [reflexivity|]. match goal with |- context [sayf (if 0 <? ?g then _ else _) _] => specialize (Hp (in_kernel k1 r) g H); destruct (0 <? g) end; exact Hp.
    + cbn [mbind option_bind]. eexists. split; [reflexivity|]. rewrite <- Ek. match goal with |- context [sayf (if 0 <? ?g then _ else _) _] => specialize (Hp r g H); destruct (0 <? g) end; exact Hp.
  - cbn [wget_main cmd_wget]. pose proof (wget_same a r H) as Hw. destruct (wget_stream a (r_kernel r)) as [[[rc text] kernel]|].
    + destruct Hw as (r1 & -> & Hr1). cbn [mbind option_bind]. eexists. split; [reflexivity|]. destruct (negb _); [by apply prints_say|done].
    + by rewrite Hw.
Qed.
End programs.

Lemma net_commands_run_programs_witness :
  answers (ping_main [] true [bytes_of "10.0.2.2"] None) (cmd_ping [] true [bytes_of "10.0.2.2"] (first_run None)) (first_run None).
Proof. apply (net_commands_run_programs [] true [bytes_of "10.0.2.2"] (first_run None)). reflexivity. Defined.
