(* ===== verification/RustPmm.v ===== *)
(** * The page allocator of the Rust kernel (rust-os/kernel/src/lib.rs: the page allocator)

    The second implementation of the allocator of Pmm.  Its state has the same shape: the
    live prefix of [frames]/[used] and [free_count].  Arithmetic on a Rust integer that
    leaves its range panics, which is [None] here, unless the code asks for saturation.
    The accesses are made under MM_LOCK, so an operation is one step. *)

From S2P Require Import Prelude Pmm.

(** ** Rust integers *)

(** The result of [+], [-] at width [w]: a panic outside the range. *)
Definition checked (w x : Z) : option Z := if (0 <=? x) && (x <? 2 ^ w) then Some x else None.

Definition saturating_add (w x y : Z) : Z := Z.min (x + y) (2 ^ w - 1).

Lemma checked_in w x : in_width w x → checked w x = Some x.
Proof. intros [H0 H1]. unfold checked. by rewrite (proj2 (Z.leb_le _ _)), (proj2 (Z.ltb_lt _ _)). Qed.

(** ** Copies

    [while i < bytes.len() { buf[i] = bytes[i]; i += 1; }], and [copy_from_slice]. *)

Fixpoint copy_bytes (i : nat) (bytes buf : list Z) : list Z :=
  match bytes with
  | [] => buf
  | b :: bytes' => copy_bytes (S i) bytes' (<[i := b]> buf)
  end.

Lemma copy_bytes_eq i bytes buf :
  (i + length bytes <= length buf)%nat →
  copy_bytes i bytes buf = take i buf ++ bytes ++ drop (i + length bytes) buf.
Proof.
  revert i buf. induction bytes as [|b bytes IH]; intros i buf Hl; cbn [copy_bytes length app] in *.
  { by rewrite Nat.add_0_r, take_drop. }
  rewrite IH by (rewrite length_insert; lia).
  rewrite (take_S_r _ _ b) by (apply list_lookup_insert_eq; lia).
  rewrite take_insert_ge, drop_insert_lt, <- (assoc_L (++)) by lia. cbn [app].
  by replace (S i + length bytes)%nat with (i + S (length bytes))%nat by lia.
Qed.

(** ** The allocator *)

Definition align_up (value : Z) : option Z :=
  v ← checked 64 (value + (QOS_PAGE_SIZE - 1)); Some (Z.land v (bnot 64 (QOS_PAGE_SIZE - 1))).

Definition align_down (value : Z) : Z := Z.land value (bnot 64 (QOS_PAGE_SIZE - 1)).

Definition is_page_aligned (value : Z) : bool := Z.land value (QOS_PAGE_SIZE - 1) =? 0.

(** The array of entries has 128, so its first is there. *)
Definition boot_info_valid (bi : boot_info) : bool :=
  let first := default {| mmap_base := 0; mmap_length := 0; mmap_type := 0 |} (head (mmap_entries bi)) in
  negb (negb (magic bi =? QOS_BOOT_MAGIC)
        || ((mmap_entry_count bi =? 0) || (QOS_MMAP_MAX_ENTRIES <? mmap_entry_count bi))
        || ((mmap_length first =? 0) || (mmap_type first =? 0))
        || (negb (initramfs_size bi =? 0) && (initramfs_addr bi =? 0))).

Definition pmm_reset : pmm := {| frames := []; free_count := 0 |}.

(** [room] is [QOS_PMM_MAX_PAGES - frame_count]: the second exit condition of the loop. *)
Fixpoint add_range_loop (room : nat) (start stop : Z) (s : pmm) : option pmm :=
  match room with
  | O => Some s
  | S room' =>
      if start <? stop then
        free ← checked 32 (free_count s + 1);
        next ← checked 64 (start + QOS_PAGE_SIZE);
        add_range_loop room' next stop {| frames := frames s ++ [{| f_addr := start; f_used := false |}]; free_count := free |}
      else Some s
  end.

Definition pmm_add_range (base length' : Z) (s : pmm) : option pmm :=
  start ← align_up base;
  add_range_loop (QOS_PMM_MAX_PAGES - length (frames s)) start (align_down (saturating_add 64 base length')) s.

Fixpoint reserve_loop (base stop : Z) (fs : list frame) (free : Z) : option (list frame * Z) :=
  match fs with
  | [] => Some ([], free)
  | f :: fs' =>
      if (base <=? f_addr f) && (f_addr f <? stop) && negb (f_used f) then
        free' ← checked 32 (free - 1);
        '(rest, free'') ← reserve_loop base stop fs' free';
        Some ({| f_addr := f_addr f; f_used := true |} :: rest, free'')
      else '(rest, free'') ← reserve_loop base stop fs' free; Some (f :: rest, free'')
  end.

Definition pmm_reserve_range (base length' : Z) (s : pmm) : option pmm :=
  if length' =? 0 then Some s
  else '(fs, free) ← reserve_loop base (saturating_add 64 base length') (frames s) (free_count s);
       Some {| frames := fs; free_count := free |}.

(** The linker symbols of the bare aarch64 target; zero stands for the other targets, where the function is empty. *)
Definition pmm_reserve_kernel_image (kstart kend : Z) (s : pmm) : option pmm :=
  if negb (kstart =? 0) && (kstart <? kend) then pmm_reserve_range kstart (kend - kstart) s else Some s.

Definition add_entry (e : mmap_entry) (s : pmm) : option pmm :=
  if (mmap_type e =? 1) && (QOS_PAGE_SIZE <=? mmap_length e) then pmm_add_range (mmap_base e) (mmap_length e) s else Some s.

Fixpoint add_entries (es : list mmap_entry) (s : pmm) : option pmm :=
  match es with [] => Some s | e :: es' => s1 ← add_entry e s; add_entries es' s1 end.

Inductive KernelError := InvalidBootInfo | InitIncomplete | InvalidAddress | VmmFull.

(** [Ok(())] is [None], [Err(e)] is [Some e]; [s] is the state before. *)
Definition pmm_init_from_boot_info (kstart kend : Z) (bi : boot_info) (s : pmm) : option (option KernelError * pmm) :=
  if negb (boot_info_valid bi) then Some (Some InvalidBootInfo, s)
  else
    s1 ← add_entries (take (Z.to_nat (mmap_entry_count bi)) (mmap_entries bi)) pmm_reset;
    if (length (frames s1) =? 0)%nat then Some (Some InvalidBootInfo, s1)
    else
      s2 ← pmm_reserve_range 0 0x100000 s1;
      s3 ← pmm_reserve_kernel_image kstart kend s2;
      s4 ← if negb (initramfs_size bi =? 0) then pmm_reserve_range (initramfs_addr bi) (initramfs_size bi) s3 else Some s3;
      Some (None, s4).

Definition pmm_total_pages (s : pmm) : Z := Z.of_nat (length (frames s)).
Definition pmm_free_pages (s : pmm) : Z := free_count s.

Definition pmm_alloc_page (s : pmm) : option (option Z * pmm) :=
  match first_index (λ f, negb (f_used f)) (frames s) with
  | Some i =>
      free ← checked 32 (free_count s - 1);
      Some (f_addr <$> frames s !! i, {| frames := set_used i true (frames s); free_count := free |})
  | None => Some (None, s)
  end.

Definition pmm_free_page (page : Z) (s : pmm) : option (bool * pmm) :=
  if negb (is_page_aligned page) then Some (false, s)
  else
    match first_index (λ f, f_addr f =? page) (frames s) with
    | Some i =>
        if default false (f_used <$> frames s !! i) then
          free ← checked 32 (free_count s + 1);
          Some (true, {| frames := set_used i false (frames s); free_count := free |})
        else Some (false, s)
    | None => Some (false, s)
    end.

(** ** The two allocators agree *)

Lemma align_up_same v : 0 <= v → v + 4095 < 2 ^ 64 → align_up v = Some (Pmm.align_up v).
Proof.
  intros H0 H1. unfold align_up, Pmm.align_up. rewrite checked_in by (unfold in_width, QOS_PAGE_SIZE; lia). cbn.
  by rewrite wrap_small by (unfold in_width, QOS_PAGE_SIZE; lia).
Qed.

Lemma add_range_loop_same room start n s :
  0 <= start → start + QOS_PAGE_SIZE * Z.of_nat n < 2 ^ 64 → in_width 32 (free_count s) → free_count s + Z.of_nat room < 2 ^ 32 →
  add_range_loop room start (start + QOS_PAGE_SIZE * Z.of_nat n) s = Some (Pmm.add_range_loop room start (start + QOS_PAGE_SIZE * Z.of_nat n) s).
Proof.
  unfold QOS_PAGE_SIZE. revert start n s. induction room as [|room IH]; intros start n s H0 H1 Hf Hr; [done|]. cbn [add_range_loop Pmm.add_range_loop].
  destruct (Z.ltb_spec start (start + 4096 * Z.of_nat n)) as [Hlt|]; [|done]. destruct n as [|n]; [lia|].
  unfold in_width in Hf. unfold QOS_PAGE_SIZE. rewrite !checked_in, !wrap_small by (unfold in_width; lia). cbn [mbind option_bind].
  replace (start + 4096 * Z.of_nat (S n)) with (start + 4096 + 4096 * Z.of_nat n) by lia.
  apply IH; cbn [free_count]; unfold in_width; lia.
Qed.

Lemma pmm_add_range_same base len s : entry_ok base len → pmm_wf s → pmm_add_range base len s = Some (Pmm.pmm_add_range base len s).
Proof.
  intros (H0 & Hl & Hw) Hs. unfold pmm_add_range, Pmm.pmm_add_range. unfold QOS_PAGE_SIZE in Hl. rewrite align_up_same by lia. cbn [mbind option_bind].
  unfold saturating_add, align_down. rewrite Z.min_l, (wrap_small 64) by (unfold in_width; lia). fold (Pmm.align_down (base + len)).
  rewrite align_up_eq, align_down_eq by (unfold in_width; lia). unfold QOS_PAGE_SIZE.
  assert ((base + 4095) / 4096 <= (base + len) / 4096) as Hle by (apply Z.div_le_mono; lia).
  replace (4096 * ((base + len) / 4096)) with (4096 * ((base + 4095) / 4096) + QOS_PAGE_SIZE * Z.of_nat (Z.to_nat ((base + len) / 4096 - (base + 4095) / 4096)))
    by (unfold QOS_PAGE_SIZE; lia).
  pose proof (pmm_wf_free_range s Hs) as Hf. destruct Hs as [Hlen Hfree _]. pose proof (count_if_le free_frame (frames s)).
  apply add_range_loop_same; [| |done|unfold QOS_PMM_MAX_PAGES in *; lia].
  - pose proof (Z.div_pos (base + 4095) 4096). lia.
  - unfold QOS_PAGE_SIZE. pose proof (Z.mul_div_le (base + len) 4096 ltac:(lia)). lia.
Qed.

Lemma reserve_loop_same base stop fs free extra :
  free = Z.of_nat (count_if free_frame fs) + extra → 0 <= extra → free < 2 ^ 32 →
  reserve_loop base stop fs free = Some (Pmm.reserve_loop base stop fs free).
Proof.
  revert free extra. induction fs as [|f fs IH]; intros free extra Hf He Hw; [done|]. cbn [reserve_loop Pmm.reserve_loop count_if] in *.
  unfold free_frame at 1 in Hf. destruct (f_used f) eqn:Hu; cbn [negb] in *; rewrite ?andb_false_r, ?andb_true_r.
  - rewrite (IH free extra) by lia. cbn [mbind option_bind]. destruct (Pmm.reserve_loop _ _ _ _) as [rest free'']. done.
  - destruct (_ && _).
    + rewrite checked_in, wrap_small by (unfold in_width; lia). cbn [mbind option_bind]. rewrite (IH (free - 1) extra) by lia. cbn [mbind option_bind].
      by destruct (Pmm.reserve_loop _ _ _ _).
    + rewrite (IH free (1 + extra)) by lia. cbn [mbind option_bind]. by destruct (Pmm.reserve_loop _ _ _ _).
Qed.

Lemma pmm_reserve_range_same base len s :
  pmm_wf s → 0 <= base → 0 <= len → base + len < 2 ^ 64 → pmm_reserve_range base len s = Some (Pmm.pmm_reserve_range base len s).
Proof.
  intros Hs H0 Hl Hw. unfold pmm_reserve_range, Pmm.pmm_reserve_range, saturating_add. destruct (len =? 0); [done|].
  rewrite Z.min_l, (wrap_small 64) by (unfold in_width; lia). pose proof (pmm_wf_free_range s Hs) as [_ Hf].
  rewrite (reserve_loop_same _ _ _ _ 0) by (rewrite ?(wf_free s Hs) in *; lia). cbn [mbind option_bind]. by destruct (Pmm.reserve_loop _ _ _ _).
Qed.

Lemma pmm_reserve_kernel_same kstart kend s :
  pmm_wf s → 0 <= kstart → kend < 2 ^ 64 → pmm_reserve_kernel_image kstart kend s = Some (Pmm.pmm_reserve_kernel_image kstart kend s).
Proof.
  intros Hs H0 H1. unfold pmm_reserve_kernel_image, Pmm.pmm_reserve_kernel_image. destruct (negb _); [|done]. cbn [andb].
  destruct (Z.ltb_spec kstart kend); [|done]. apply pmm_reserve_range_same; [done|lia..].
Qed.

Lemma add_entries_same es s :
  Forall entry_wf es → pmm_wf s → add_entries es s = Some (fold_left (λ s e, Pmm.add_entry e s) es s) ∧ pmm_wf (fold_left (λ s e, Pmm.add_entry e s) es s).
Proof.
  intros Hes. revert s. induction Hes as [|e es He _ IH]; intros s Hs; [done|]. cbn [add_entries fold_left].
  destruct (add_entry_spec e s He Hs) as [Hs1 _]. assert (add_entry e s = Some (Pmm.add_entry e s)) as ->; [|by apply IH].
  unfold add_entry, Pmm.add_entry. destruct (_ && _) eqn:E; [|done]. apply pmm_add_range_same; [|done].
  apply andb_true_iff in E as [_ E%Z.leb_le]. destruct He. by split_and!.
Qed.

(** Reservations commute. *)
Lemma reserve_range_comm b1 l1 b2 l2 s :
  pmm_wf s → 0 <= l1 → in_width 64 (b1 + l1) → 0 <= l2 → in_width 64 (b2 + l2) →
  Pmm.pmm_reserve_range b1 l1 (Pmm.pmm_reserve_range b2 l2 s) = Pmm.pmm_reserve_range b2 l2 (Pmm.pmm_reserve_range b1 l1 s).
Proof.
  intros Hs P1 W1 P2 W2. destruct (pmm_reserve_range_ok b1 l1 s Hs P1 W1) as [Hs1 _], (pmm_reserve_range_ok b2 l2 s Hs P2 W2) as [Hs2 _].
  destruct (decide (l1 = 0)) as [->|N1]; [unfold Pmm.pmm_reserve_range at 1 4; by rewrite Z.eqb_refl|].
  destruct (decide (l2 = 0)) as [->|N2]; [unfold Pmm.pmm_reserve_range at 2 3; by rewrite Z.eqb_refl|].
  rewrite (pmm_reserve_range_spec b1), (pmm_reserve_range_spec b2 l2 (Pmm.pmm_reserve_range b1 l1 s)) by done.
  rewrite (pmm_reserve_range_spec b2), (pmm_reserve_range_spec b1) by done. cbn [frames].
  assert (reserve_frame b1 (u64 (b1 + l1)) <$> (reserve_frame b2 (u64 (b2 + l2)) <$> frames s)
          = reserve_frame b2 (u64 (b2 + l2)) <$> (reserve_frame b1 (u64 (b1 + l1)) <$> frames s)) as ->; [|done].
  rewrite <- !list_fmap_compose. apply list_fmap_ext. intros i f _. unfold compose, reserve_frame, in_range. cbn. f_equal.
  by destruct (f_used f), (b1 <=? f_addr f), (b2 <=? f_addr f), (f_addr f <? u64 (b1 + l1)), (f_addr f <? u64 (b2 + l2)).
Qed.

(** ** Sequences of calls *)

(** The results in the encoding of the C kernel. *)
Definition rust_exec (c : pmm_call) (s : pmm) : option (Z * pmm) :=
  match c with
  | Alloc => '(p, s') ← pmm_alloc_page s; Some (default QOS_PMM_PAGE_NONE p, s')
  | Free p => '(ok, s') ← pmm_free_page p s; Some (if ok : bool then 0 else -1, s')
  end.

Fixpoint rust_run (cs : list pmm_call) (s : pmm) : option (list (pmm_call * Z) * pmm) :=
  match cs with
  | [] => Some ([], s)
  | c :: cs' => '(r, s1) ← rust_exec c s; '(t, s2) ← rust_run cs' s1; Some ((c, r) :: t, s2)
  end.

Lemma rust_exec_same c s : pmm_wf s → rust_exec c s = Some (pmm_exec c s).
Proof.
  intros Hs. pose proof (pmm_wf_free_range s Hs) as [Hf0 Hf1]. pose proof (wf_free s Hs) as Hf. pose proof (wf_len s Hs) as Hl.
  destruct c as [|p]; cbn [rust_exec pmm_exec].
  - unfold pmm_alloc_page, qos_pmm_alloc_page. destruct (first_index _ _) as [i|] eqn:E; [|done].
    pose proof E as (f & Hi & Hu)%first_index_lookup. rewrite Hi.
    assert (0 < count_if free_frame (frames s))%nat.
    { pose proof (count_if_insert free_frame (frames s) i f {| f_addr := 0; f_used := true |} Hi) as Hc. unfold free_frame at 2 4 in Hc. rewrite Hu in Hc. simpl in Hc. lia. }
    rewrite checked_in, wrap_small by (unfold in_width; lia). done.
  - unfold pmm_free_page, qos_pmm_free_page, is_page_aligned. destruct (negb _); [done|]. destruct (first_index _ _) as [i|] eqn:E; [|done].
    pose proof E as (f & Hi & _)%first_index_lookup. rewrite Hi. cbn [fmap option_fmap option_map default]. destruct (f_used f) eqn:Hu; cbn [negb]; [|done].
    pose proof (count_if_le free_frame (frames s)). rewrite checked_in, wrap_small by (unfold in_width, QOS_PMM_MAX_PAGES in *; lia). done.
Qed.

Lemma rust_run_same cs s : pmm_ok s → Forall call_ok cs → rust_run cs s = Some (pmm_run cs s).
Proof.
  revert s. induction cs as [|c cs IH]; intros s Hs Hc; [done|]. apply Forall_cons in Hc as [Hc Hcs]. cbn [rust_run pmm_run].
  rewrite rust_exec_same by apply Hs. pose proof (pmm_exec_refines c s Hs Hc) as H. destruct (pmm_exec c s) as [r s1]. cbn [mbind option_bind].
  rewrite IH by (done || apply H). cbn [mbind option_bind]. by destruct (pmm_run cs s1).
Qed.

Lemma boot_valid_accepted bi :
  boot_info_valid bi = true → negb (magic bi =? QOS_BOOT_MAGIC) = false ∧ (mmap_entry_count bi =? 0) || (QOS_MMAP_MAX_ENTRIES <? mmap_entry_count bi) = false.
Proof. unfold boot_info_valid. rewrite negb_true_iff, !orb_false_iff. tauto. Qed.

(** The state of the Rust allocator after a start, from the frames collected. *)
Definition rust_reserve_all (kstart kend : Z) (bi : boot_info) (s1 : pmm) : pmm :=
  let s3 := Pmm.pmm_reserve_kernel_image kstart kend (Pmm.pmm_reserve_range 0 0x100000 s1) in
  if negb (initramfs_size bi =? 0) then Pmm.pmm_reserve_range (initramfs_addr bi) (initramfs_size bi) s3 else s3.

Lemma rust_init_eq kstart kend addr bi s0 :
  boot_ok kstart kend addr bi → boot_info_valid bi = true →
  let s1 := fold_left (λ s e, Pmm.add_entry e s) (boot_entries bi) qos_pmm_reset in
  pmm_wf s1 ∧ pmm_init_from_boot_info kstart kend bi s0
  = Some (if (length (frames s1) =? 0)%nat then (Some InvalidBootInfo, s1) else (None, rust_reserve_all kstart kend bi s1)).
Proof.
  intros [He [Hk0 Hk1] _ (Hi0 & Hi1 & Hi2)] Hv s1. unfold pmm_init_from_boot_info. rewrite Hv. cbn [negb]. fold (boot_entries bi).
  destruct (add_entries_same (boot_entries bi) qos_pmm_reset He pmm_wf_reset) as [E Hs1]. change pmm_reset with qos_pmm_reset. rewrite E. fold s1 in Hs1 |- *.
  split; [done|]. cbn [mbind option_bind]. destruct (_ =? 0)%nat; [done|].
  rewrite (pmm_reserve_range_same 0) by (done || lia). cbn [mbind option_bind].
  destruct (pmm_reserve_range_ok 0 0x100000 s1 Hs1) as [Hs2 _]; [lia|unfold in_width; lia|].
  rewrite pmm_reserve_kernel_same by done. cbn [mbind option_bind].
  destruct (pmm_reserve_kernel_image_ok kstart kend _ Hs2 Hk0 Hk1) as [Hs3 _]. unfold rust_reserve_all.
  destruct (negb _); [|done]. by rewrite pmm_reserve_range_same by (done || lia).
Qed.

Lemma reserve_all_rust kstart kend addr bi s1 :
  boot_ok kstart kend addr bi → pmm_wf s1 →
  reserve_all kstart kend addr bi s1 = Pmm.pmm_reserve_range addr sizeof_boot_info (rust_reserve_all kstart kend bi s1)
  ∧ pmm_wf (rust_reserve_all kstart kend bi s1) ∧ frame_addrs (rust_reserve_all kstart kend bi s1) = frame_addrs s1.
Proof.
  intros [_ [Hk0 Hk1] [Ha0 Ha1] (Hi0 & Hi1 & Hi2)] Hs1. unfold reserve_all, rust_reserve_all.
  destruct (pmm_reserve_range_ok 0 0x100000 s1 Hs1) as (Hs2 & [L2 _] & _); [lia|unfold in_width; lia|].
  destruct (pmm_reserve_kernel_image_ok kstart kend _ Hs2 Hk0 Hk1) as (Hs3 & [L3 _] & _).
  destruct (negb _); [|split_and!; [done..|congruence]]. unfold sizeof_boot_info in *.
  destruct (pmm_reserve_range_ok (initramfs_addr bi) (initramfs_size bi) _ Hs3 Hi1) as (Hs4 & [L4 _] & _); [unfold in_width; lia|].
  split_and!; [|done|congruence]. apply reserve_range_comm; [done|lia|unfold in_width; lia..].
Qed.

(** C27: the page allocators of the two kernels.  On a boot structure that does not wrap around,
    whose entries do not overlap and which the Rust kernel accepts, neither start panics; the
    frames the C kernel has are those the Rust kernel has with the ones that hold the boot
    structure itself taken out, which the Rust kernel leaves free; and from any state the
    one has reached, every sequence of allocations and releases gives the same pages, the same
    refusals and the same state in both, without a panic. *)
Theorem page_allocators_agree kstart kend addr bi s0 s cs :
  boot_ok kstart kend addr bi → entries_disjoint (boot_entries bi) → boot_info_valid bi = true →
  qos_pmm_init kstart kend (Some (addr, bi)) = (0, s) → Forall call_ok cs →
  ∃ s', pmm_init_from_boot_info kstart kend bi s0 = Some (None, s')
    ∧ s = Pmm.pmm_reserve_range addr sizeof_boot_info s'
    ∧ rust_run cs s' = Some (pmm_run cs s') ∧ rust_run cs s = Some (pmm_run cs s).
Proof.
  intros Hok Hd Hv Hs Hc. pose proof (pmm_init_ok _ _ _ _ _ Hok Hd Hs) as Hgood.
  destruct (rust_init_eq kstart kend addr bi s0 Hok Hv) as [Hs1 E]. revert Hs. unfold qos_pmm_init.
  destruct (boot_valid_accepted bi Hv) as [-> ->]. fold (boot_entries bi). set (s1 := fold_left _ _ _) in *. clearbody s1.
  rewrite E. destruct (_ =? 0)%nat; [done|]. intros [= Hs]. change (reserve_all kstart kend addr bi s1 = s) in Hs.
  destruct (reserve_all_rust kstart kend addr bi s1 Hok Hs1) as (Hr & Hwf & Hfa). eexists. split; [reflexivity|]. split; [by rewrite <- Hs|].
  split; apply rust_run_same; try done. split; [done|]. rewrite Hfa.
  destruct (reserve_all_ok kstart kend addr bi s1 Hok Hs1) as (_ & [Hle _] & _). rewrite Hs in Hle. rewrite <- Hle. apply Hgood.
Qed.

(** A usable entry in the last page of the address space makes the start panic. *)
Lemma rust_start_panics kstart kend bi s0 e rest :
  boot_info_valid bi = true → boot_entries bi = e :: rest → usable e = true → 2 ^ 64 - 4095 <= mmap_base e →
  pmm_init_from_boot_info kstart kend bi s0 = None.
Proof.
  intros Hv Hb Hu He. unfold pmm_init_from_boot_info. rewrite Hv. cbn [negb]. fold (boot_entries bi). rewrite Hb. cbn [add_entries].
  unfold add_entry. unfold usable in Hu. rewrite Hu. unfold pmm_add_range, align_up, checked, QOS_PAGE_SIZE.
  by rewrite (proj2 (Z.ltb_ge (mmap_base e + (4096 - 1)) (2 ^ 64))), andb_false_r by lia.
Qed.

Lemma page_allocators_agree_witness :
  ∃ s', pmm_init_from_boot_info 0x100000 0x180000 (demo_boot 0x300000) pmm_reset = Some (None, s')
    ∧ rust_run [Alloc; Free 0; Alloc] s' = Some (pmm_run [Alloc; Free 0; Alloc] s').
Proof.
  destruct (page_allocators_agree 0x100000 0x180000 0x200000 (demo_boot 0x300000) pmm_reset
              (demo_pmm 0x200000 0x300000) [Alloc; Free 0; Alloc]) as (s' & E & _ & R & _).
  - by apply demo_boot_ok.
  - apply demo_entries_disjoint.
  - reflexivity.
  - by vm_compute.
  - apply Forall_cons; split; [exact I|]. apply Forall_cons; split; [split; vm_compute; congruence|]. apply Forall_singleton. exact I.
  - exists s'. split; [exact E|exact R].
Defined.
