(* ===== verification/RustVmm.v ===== *)
(** * The address spaces of the Rust kernel (rust-os/kernel/src/lib.rs: vmm)

    One table of 2048 mappings for all 64 address spaces together, where the C kernel
    (Vmm) has 2048 for each.  The parallel arrays are one list of slots. *)

From S2P Require Import Prelude SlotTable Pmm Vmm RustPmm.

Record slot := { s_used : bool; s_asid : Z; s_va : Z; s_pa : Z; s_flags : Z }.

#[export] Instance slot_slotted : Slotted slot := s_used.
#[export] Instance slot_keyed : Keyed slot (Z * Z) := λ m, (s_asid m, s_va m).

Record vmm_state := { slots : list slot; current_asid : Z }.

Definition slot_zero : slot := {| s_used := false; s_asid := 0; s_va := 0; s_pa := 0; s_flags := 0 |}.

Definition vmm_reset : vmm_state := {| slots := replicate QOS_VMM_MAX_MAPPINGS slot_zero; current_asid := 0 |}.

Definition asid_valid (asid : Z) : bool := asid <? Z.of_nat QOS_VMM_MAX_AS.

Definition vmm_find_as (s : vmm_state) (asid page_va : Z) : option nat := find_key (asid, page_va) (slots s).

Definition vmm_free_slot (s : vmm_state) : option nat := free_slot (slots s).

Definition set_slot (i : nat) (m : slot) (s : vmm_state) : vmm_state :=
  {| slots := <[i := m]> (slots s); current_asid := current_asid s |}.

Definition vmm_set_asid (asid : Z) (s : vmm_state) : vmm_state :=
  if negb (asid_valid asid) then s else {| slots := slots s; current_asid := asid |}.

Definition vmm_get_asid (s : vmm_state) : Z := current_asid s.

(** [Ok(())] is [None]. *)
Definition vmm_map_as (asid va pa flags : Z) (s : vmm_state) : option KernelError * vmm_state :=
  if negb (asid_valid asid) || (flags =? 0) || negb (is_page_aligned va) || negb (is_page_aligned pa) then (Some InvalidAddress, s)
  else
    let page_va := align_down va in
    match vmm_find_as s asid page_va with
    | Some idx =>
        match slots s !! idx with
        | Some m => (None, set_slot idx {| s_used := s_used m; s_asid := s_asid m; s_va := s_va m; s_pa := pa; s_flags := flags |} s)
        | None => (None, s)
        end
    | None =>
        match vmm_free_slot s with
        | Some idx => (None, set_slot idx {| s_used := true; s_asid := asid; s_va := page_va; s_pa := pa; s_flags := flags |} s)
        | None => (Some VmmFull, s)
        end
    end.

Definition vmm_map (va pa flags : Z) (s : vmm_state) : option KernelError * vmm_state :=
  if (flags =? 0) || negb (is_page_aligned va) || negb (is_page_aligned pa) then (Some InvalidAddress, s)
  else vmm_map_as (current_asid s) va pa flags s.

Definition vmm_unmap_as (asid va : Z) (s : vmm_state) : bool * vmm_state :=
  if negb (asid_valid asid) || negb (is_page_aligned va) then (false, s)
  else
    match vmm_find_as s asid (align_down va) with
    | Some idx => (true, set_slot idx slot_zero s)
    | None => (false, s)
    end.

Definition vmm_unmap (va : Z) (s : vmm_state) : bool * vmm_state := vmm_unmap_as (current_asid s) va s.

(** The outer [option] is a panic of the addition, the inner one the result. *)
Definition vmm_translate_as (asid va : Z) (s : vmm_state) : option (option Z) :=
  if negb (asid_valid asid) then Some None
  else
    match vmm_find_as s asid (align_down va) ≫= (slots s !!.) with
    | Some m => Some <$> checked 64 (s_pa m + Z.land va (QOS_PAGE_SIZE - 1))
    | None => Some None
    end.

Definition vmm_translate (va : Z) (s : vmm_state) : option (option Z) := vmm_translate_as (current_asid s) va s.

Definition vmm_flags_as (asid va : Z) (s : vmm_state) : Z :=
  if negb (asid_valid asid) then 0
  else match vmm_find_as s asid (align_down va) ≫= (slots s !!.) with Some m => s_flags m | None => 0 end.

Definition vmm_flags (va : Z) (s : vmm_state) : Z := vmm_flags_as (current_asid s) va s.

(** The slots of an address space. *)
Definition of_asid (asid : Z) (m : slot) : bool := s_used m && (s_asid m =? asid).

Definition vmm_mapping_count_as (asid : Z) (s : vmm_state) : Z :=
  if negb (asid_valid asid) then 0 else fold_left (λ n m, if of_asid asid m then saturating_add 32 n 1 else n) (slots s) 0.

Definition vmm_mapping_count (s : vmm_state) : Z := vmm_mapping_count_as (current_asid s) s.

Fixpoint mapping_scan (asid ordinal seen : Z) (l : list slot) : option slot :=
  match l with
  | [] => None
  | m :: l' =>
      if of_asid asid m then
        if seen =? ordinal then Some m else mapping_scan asid ordinal (saturating_add 32 seen 1) l'
      else mapping_scan asid ordinal seen l'
  end.

Definition vmm_mapping_get_as (asid ordinal : Z) (s : vmm_state) : option (Z * Z * Z) :=
  if negb (asid_valid asid) then None else (λ m, (s_va m, s_pa m, s_flags m)) <$> mapping_scan asid ordinal 0 (slots s).

Definition vmm_mapping_get (ordinal : Z) (s : vmm_state) : option (Z * Z * Z) := vmm_mapping_get_as (current_asid s) ordinal s.

(** ** One finite map over address space and page *)

Definition shared_map (s : vmm_state) : gmap (Z * Z) (Z * Z) := (λ m, (s_pa m, s_flags m)) <$> (table_map (slots s) : gmap (Z * Z) slot).

Definition slot_wf (m : slot) : Prop :=
  0 <= s_asid m < 64 ∧ (page_aligned (s_va m) ∧ in_width 64 (s_va m)) ∧ (page_aligned (s_pa m) ∧ in_width 64 (s_pa m)).

Record state_wf (s : vmm_state) : Prop := {
  sw_len : length (slots s) = QOS_VMM_MAX_MAPPINGS;
  sw_unique : unique_keys (slots s);
  sw_live : ∀ i m, slots s !! i = Some m → s_used m = true → slot_wf m;
  sw_cur : 0 <= current_asid s < 64
}.

Lemma state_wf_reset : state_wf vmm_reset.
Proof. split; [apply length_replicate|by apply unique_keys_replicate|by intros i m [-> _]%lookup_replicate|done]. Qed.

Lemma set_slot_wf i m s : state_wf s → unique_keys (<[i := m]> (slots s)) → (s_used m = true → slot_wf m) → state_wf (set_slot i m s).
Proof.
  intros [Hl Hu Hm Hc] Hu' Hw. split; [cbn; by rewrite length_insert|done| |done].
  intros j m' [(_ & <- & _)|(_ & Hj)]%list_lookup_insert_Some; eauto.
Qed.

Lemma shared_lookup s asid va : shared_map s !! (asid, va) = (λ m, (s_pa m, s_flags m)) <$> (vmm_find_as s asid va ≫= (slots s !!.)).
Proof. unfold shared_map. by rewrite lookup_fmap, table_map_lookup. Qed.

Lemma aligned_same a : in_width 64 a → is_page_aligned a = aligned_b a.
Proof. intros Ha. by rewrite <- offset_of_aligned. Qed.

Lemma aligned_page a : aligned_b a = true → page_aligned a.
Proof. unfold aligned_b. by intros ?%Z.eqb_eq. Qed.

Lemma align_down_page a : in_width 64 a → aligned_b a = true → align_down a = a.
Proof. apply align_down_aligned. Qed.

Lemma vmm_map_spec asid va pa flags s :
  state_wf s → 0 <= asid → in_width 64 va → in_width 64 pa →
  let ok := (asid <? 64) && negb (flags =? 0) && aligned_b va && aligned_b pa in
  let room := bool_decide (is_Some (shared_map s !! (asid, va))) || (size (shared_map s) <? QOS_VMM_MAX_MAPPINGS)%nat in
  let '(r, s') := vmm_map_as asid va pa flags s in
  state_wf s' ∧ current_asid s' = current_asid s
  ∧ r = (if ok then if room then None else Some VmmFull else Some InvalidAddress)
  ∧ shared_map s' = if ok && room then <[(asid, va) := (pa, flags)]> (shared_map s) else shared_map s.
Proof.
  intros Hs H0 Hva Hpa ok room. unfold vmm_map_as. rewrite !aligned_same by done. change (asid_valid asid) with (asid <? 64).
  subst ok. destruct (Z.ltb_spec asid 64) as [Ha|]; [|done]. destruct (flags =? 0); [done|]. cbn [negb orb andb].
  destruct (aligned_b va) eqn:Eva; [|done]. destruct (aligned_b pa) eqn:Epa; [|done]. cbn [negb orb andb]. rewrite align_down_page by done. cbv zeta.
  pose proof (shared_lookup s asid va) as Hl. subst room. unfold vmm_find_as in *. destruct (find_key _ _) as [i|] eqn:E.
  - pose proof E as (m & Hi & Hu & Hk)%find_key_Some. cbn in Hl. rewrite Hi in Hl |- *. cbn in Hl. rewrite Hl.
    rewrite (bool_decide_eq_true_2 (is_Some _)) by done. cbn [orb andb].
    set (m' := {| s_used := s_used m; s_asid := s_asid m; s_va := s_va m; s_pa := pa; s_flags := flags |}).
    destruct (table_map_update (slots s) i (asid, va) m' (sw_unique s Hs) E Hu Hk) as [Hu' Hm].
    split_and!; [|done|done|unfold shared_map; cbn [set_slot slots]; by rewrite Hm, fmap_insert].
    apply set_slot_wf; [done|done|]. intros _. destruct (sw_live s Hs i m Hi Hu) as (Has & Hv & _). split; [exact Has|]. split; [exact Hv|]. by split; [apply aligned_page|].
  - cbn in Hl. rewrite Hl. rewrite (bool_decide_eq_false_2 (is_Some _)) by (by intros []). cbn [orb].
    unfold shared_map at 1 3. rewrite map_size_fmap, table_map_size by apply Hs. unfold vmm_free_slot.
    pose proof (count_if_le (slot_used (A := slot)) (slots s)) as Hc. pose proof (free_slot_None (slots s)) as Hn. rewrite (sw_len s Hs) in *.
    destruct (free_slot (slots s)) as [i|] eqn:Ef.
    + assert (count_used (slots s) < QOS_VMM_MAX_MAPPINGS)%nat as Hlt.
      { unfold count_used in *. destruct (decide (count_if slot_used (slots s) = QOS_VMM_MAX_MAPPINGS)) as [En|]; [by apply Hn in En|lia]. }
      apply Nat.ltb_lt in Hlt as ->. cbn [andb]. apply free_slot_Some in Ef as (b & Hb & Hub).
      set (m' := {| s_used := true; s_asid := asid; s_va := va; s_pa := pa; s_flags := flags |}).
      destruct (table_map_alloc (slots s) i b m' (sw_unique s Hs) Hb Hub eq_refl E) as [Hu' Hm].
      split_and!; [|done|done|unfold shared_map; cbn [set_slot slots]; by rewrite Hm, fmap_insert].
      apply set_slot_wf; [done|done|]. intros _. split; [cbn; lia|]. split; (split; [by apply aligned_page|done]).
    + apply proj1 in Hn. rewrite Hn by done. rewrite Nat.ltb_irrefl. by split_and!.
Qed.

Lemma vmm_unmap_spec asid va s :
  state_wf s → 0 <= asid → in_width 64 va →
  let ok := (asid <? 64) && aligned_b va && bool_decide (is_Some (shared_map s !! (asid, va))) in
  let '(r, s') := vmm_unmap_as asid va s in
  state_wf s' ∧ current_asid s' = current_asid s ∧ r = ok ∧ shared_map s' = if ok then delete (asid, va) (shared_map s) else shared_map s.
Proof.
  intros Hs H0 Hva ok. unfold vmm_unmap_as. rewrite aligned_same by done. change (asid_valid asid) with (asid <? 64). subst ok.
  destruct (asid <? 64); [|done]. destruct (aligned_b va) eqn:Eva; [|done]. cbn [negb orb andb]. rewrite align_down_page by done.
  pose proof (shared_lookup s asid va) as Hl. unfold vmm_find_as in *. destruct (find_key _ _) as [i|] eqn:E.
  - pose proof E as (m & Hi & Hu & Hk)%find_key_Some. cbn in Hl. rewrite Hi in Hl. cbn in Hl. rewrite Hl, (bool_decide_eq_true_2 (is_Some _)) by done.
    destruct (table_map_release (slots s) i (asid, va) slot_zero (sw_unique s Hs) E eq_refl) as [Hu' Hm].
    split_and!; [|done|done|unfold shared_map; cbn [set_slot slots]; by rewrite Hm, fmap_delete]. by apply set_slot_wf.
  - cbn in Hl. rewrite Hl, (bool_decide_eq_false_2 (is_Some _)) by (by intros []). done.
Qed.

(** Translation and flags read the map; the addition of the offset never panics. *)
Lemma vmm_translate_shared asid va s :
  state_wf s → 0 <= asid < 64 → in_width 64 va →
  vmm_translate_as asid va s = Some ((λ e, e.1 + va mod QOS_PAGE_SIZE) <$> shared_map s !! (asid, va - va mod QOS_PAGE_SIZE))
  ∧ vmm_flags_as asid va s = default 0 (snd <$> shared_map s !! (asid, va - va mod QOS_PAGE_SIZE)).
Proof.
  intros Hs Ha Hva. unfold vmm_translate_as, vmm_flags_as. change (asid_valid asid) with (asid <? 64). rewrite (proj2 (Z.ltb_lt _ _)) by lia. cbn [negb].
  assert (align_down va = va - va mod QOS_PAGE_SIZE) as ->.
  { change (align_down va) with (Pmm.align_down va). rewrite align_down_eq by done. pose proof (Z.div_mod va QOS_PAGE_SIZE ltac:(done)). lia. }
  rewrite shared_lookup, land_page_mask by apply Hva. unfold vmm_find_as. destruct (find_key _ _) as [i|] eqn:E; [|done]. cbn.
  pose proof E as (m & Hi & Hu & Hk)%find_key_Some. rewrite Hi. cbn. destruct (sw_live s Hs i m Hi Hu) as (_ & _ & Hpa & Hw).
  rewrite checked_in; [done|]. pose proof (Z.mod_pos_bound va QOS_PAGE_SIZE ltac:(done)). unfold page_aligned, in_width in *.
  pose proof (Z.div_mod (s_pa m) QOS_PAGE_SIZE ltac:(done)). unfold QOS_PAGE_SIZE in *. lia.
Qed.

(** ** Counting the mappings of an address space *)

Definition in_space (asid : Z) (m : gmap (Z * Z) (Z * Z)) : gmap (Z * Z) (Z * Z) := filter (λ e, e.1.1 = asid) m.

Lemma count_in_space asid (l : list slot) :
  unique_keys l → size (filter (λ e, e.1.1 = asid) (table_map l : gmap (Z * Z) slot)) = count_if (of_asid asid) l.
Proof.
  induction l as [|m l IH]; intros Hu; [done|].
  assert (unique_keys l) as Hu' by (intros i j a b Ha Hb ???; specialize (Hu (S i) (S j) a b Ha Hb); naive_solver).
  specialize (IH Hu'). cbn [table_map foldr count_if]. fold (table_map l : gmap (Z * Z) slot). unfold of_asid at 1.
  unfold slot_used at 1, slot_slotted at 1. destruct (s_used m) eqn:Em; [|by rewrite IH]. cbn [andb].
  assert ((table_map l : gmap (Z * Z) slot) !! slot_key m = None) as Hn.
  { apply table_map_None, find_key_None. intros i a Ha Hua Hk. specialize (Hu 0%nat (S i) m a eq_refl Ha Em Hua (eq_sym Hk)). done. }
  destruct (Z.eqb_spec (s_asid m) asid) as [Ea|Ea].
  - rewrite map_filter_insert_True by done. rewrite map_size_insert_None by (rewrite map_lookup_filter, Hn; done). by rewrite IH.
  - rewrite map_filter_insert_False by done. rewrite delete_id by done. by rewrite IH.
Qed.

Lemma mapping_count_shared asid s : state_wf s → 0 <= asid < 64 → vmm_mapping_count_as asid s = Z.of_nat (size (in_space asid (shared_map s))).
Proof.
  intros Hs Ha. unfold vmm_mapping_count_as. change (asid_valid asid) with (asid <? 64). rewrite (proj2 (Z.ltb_lt _ _)) by lia. cbn [negb].
  unfold in_space, shared_map. rewrite map_filter_fmap, map_size_fmap.
  rewrite (proj1 (map_filter_ext _ (λ e : Z * Z * slot, e.1.1 = asid) _)) by done. rewrite (count_in_space asid (slots s)) by apply Hs.
  assert (∀ l n, 0 <= n → n + Z.of_nat (length l) < 2 ^ 32 →
    fold_left (λ n m, if of_asid asid m then saturating_add 32 n 1 else n) l n = n + Z.of_nat (count_if (of_asid asid) l)) as H.
  { induction l as [|m l IH]; intros n H0 Hn; cbn [fold_left count_if length] in *; [lia|]. destruct (of_asid asid m).
    - unfold saturating_add. rewrite Z.min_l, IH by lia. lia.
    - rewrite IH by lia. lia. }
  rewrite H by (rewrite ?(sw_len s Hs); vm_compute; done). done.
Qed.

(** ** The address spaces of the two kernels *)

(** The same current space, and the same page maps. *)
Record same_spaces (c : vmm) (r : vmm_state) : Prop := {
  ss_c : vmm_wf c;
  ss_r : state_wf r;
  ss_cur : vmm_asid c = current_asid r;
  ss_maps : ∀ asid va, 0 <= asid < 64 → spec_row asid (vmm_abs c) !! va = shared_map r !! (asid, va)
}.

(** The calls with the results of the C kernel; [None] when the table of the Rust kernel is full. *)
Definition rust_vexec (op : vmm_op) (s : vmm_state) : option (Z * vmm_state) :=
  match op with
  | OpSetAsid asid => Some (0, vmm_set_asid asid s)
  | OpMap asid va pa flags =>
      match vmm_map_as asid va pa flags s with
      | (None, s') => Some (0, s')
      | (Some VmmFull, _) => None
      | (Some _, s') => Some (-1, s')
      end
  | OpUnmap asid va => let '(ok, s') := vmm_unmap_as asid va s in Some (if ok then 0 else -1, s')
  end.

Lemma kmap_pair_size asid (m : gmap Z (Z * Z)) : size (kmap (pair asid) m : gmap (Z * Z) (Z * Z)) = size m.
Proof.
  induction m as [|va e m Hm IH] using map_ind; [by rewrite kmap_empty, !map_size_empty|].
  rewrite kmap_insert by apply _. rewrite !map_size_insert_None, IH; [done|done|]. by rewrite lookup_kmap by apply _.
Qed.

(** The part of the shared map that belongs to a space is the page map of that space. *)
Lemma same_space_size c r asid :
  same_spaces c r → 0 <= asid < 64 → size (spec_row asid (vmm_abs c)) = size (in_space asid (shared_map r)).
Proof.
  intros H Ha. assert (in_space asid (shared_map r) = kmap (pair asid) (spec_row asid (vmm_abs c))) as ->; [|by rewrite kmap_pair_size].
  apply map_eq. intros [a va]. unfold in_space. rewrite map_lookup_filter. destruct (decide (a = asid)) as [->|Hn].
  - rewrite lookup_kmap by apply _. rewrite (ss_maps c r H) by done. destruct (shared_map r !! (asid, va)); [|done]. cbn. by rewrite option_guard_True.
  - symmetry. replace (kmap _ _ !! (a, va)) with (None : option (Z * Z)).
    + destruct (shared_map r !! (a, va)); [|done]. cbn. by rewrite option_guard_False.
    + symmetry. apply lookup_kmap_None; [apply _|]. intros i [= <- _]. done.
Qed.

Lemma in_space_size asid m : (size (in_space asid m) <= size m)%nat.
Proof. apply map_subseteq_size, map_filter_subseteq. Qed.

Lemma spec_row_set asid asid' m S :
  0 <= asid < Z.of_nat (length (vs_maps S)) → 0 <= asid' → spec_row asid' (spec_set asid m S) = if decide (asid' = asid) then m else spec_row asid' S.
Proof.
  intros Ha Ha'. unfold spec_row, spec_set. cbn [vs_maps]. destruct (decide (asid' = asid)) as [->|].
  - by rewrite list_lookup_insert_eq by lia.
  - by rewrite list_lookup_insert_ne by lia.
Qed.

Lemma abs_spaces c : vmm_wf c → length (vs_maps (vmm_abs c)) = 64%nat.
Proof. intros H. cbn. rewrite length_fmap. apply H. Qed.

(** Both sides change the entry of one page the same way. *)
Lemma same_after asid va (f : option (Z * Z) → option (Z * Z)) c r c' r' :
  same_spaces c r → 0 <= asid < 64 → vmm_wf c' → state_wf r' → current_asid r' = current_asid r →
  spec_set asid (partial_alter f va (spec_row asid (vmm_abs c))) (vmm_abs c) = vmm_abs c' →
  shared_map r' = partial_alter f (asid, va) (shared_map r) → same_spaces c' r'.
Proof.
  intros [Hc Hr Hcur Hm] Ha Hc' Hr' Hcr Habs Hmap. split; [done|done| |].
  - rewrite Hcr, <- Hcur. by apply (f_equal vs_cur) in Habs.
  - intros a v Hav. rewrite <- Habs, Hmap, spec_row_set by (rewrite ?abs_spaces by done; lia). destruct (decide (a = asid)) as [->|Hn].
    + destruct (decide (v = va)) as [->|Hv].
      * by rewrite !lookup_partial_alter_eq, Hm.
      * rewrite !lookup_partial_alter_ne by congruence. by apply Hm.
    + rewrite lookup_partial_alter_ne by congruence. by apply Hm.
Qed.

Lemma same_kept c r c' r' :
  same_spaces c r → vmm_wf c' → state_wf r' → vmm_abs c = vmm_abs c' → current_asid r' = current_asid r → shared_map r' = shared_map r → same_spaces c' r'.
Proof.
  intros [Hc Hr Hcur Hm] Hc' Hr' Habs Hcr Hmap. split; [done|done| |by intros; rewrite <- Habs, Hmap; apply Hm].
  rewrite Hcr, <- Hcur. by apply (f_equal vs_cur) in Habs.
Qed.

Lemma map_step asid va pa flags c r z r' :
  same_spaces c r → op_ok (OpMap asid va pa flags) → rust_vexec (OpMap asid va pa flags) r = Some (z, r') →
  (vmm_exec (OpMap asid va pa flags) c).1 = z ∧ same_spaces (vmm_exec (OpMap asid va pa flags) c).2 r'.
Proof.
  intros H (H0 & Hva & Hpa). pose proof H as [Hc Hr Hcur Hm]. cbn [rust_vexec vmm_exec].
  pose proof (vmm_map_refines asid va pa flags c Hc (conj H0 (conj Hva Hpa))) as Hcs.
  pose proof (vmm_map_spec asid va pa flags r Hr H0 Hva Hpa) as Hrs. cbn zeta in Hrs.
  destruct (qos_vmm_map_as asid va pa flags c) as [zc c'], (vmm_map_as asid va pa flags r) as [e r1].
  destruct Hcs as [Hc' Hcs], Hrs as (Hr1 & Hcur1 & -> & Hmap). cbn [spec_exec fst snd] in *.
  destruct ((asid <? 64) && negb (flags =? 0) && aligned_b va && aligned_b pa) eqn:Eok; cbn [andb] in *.
  2:{ intros [= <- <-]. apply pair_equal_spec in Hcs as [<- Habs]. split; [done|]. by apply (same_kept c r). }
  assert (0 <= asid < 64) as Ha by (rewrite !andb_true_iff, Z.ltb_lt in Eok; lia).
  destruct (bool_decide (is_Some (shared_map r !! (asid, va))) || _) eqn:Eroom; [|done]. intros [= <- <-].
  assert (bool_decide (is_Some (spec_row asid (vmm_abs c) !! va)) || (size (spec_row asid (vmm_abs c)) <? 2048)%nat = true) as Ec.
  { rewrite (Hm asid va Ha). apply orb_true_iff in Eroom as [->|Hs%Nat.ltb_lt]; [done|]. apply orb_true_iff. right. apply Nat.ltb_lt.
    rewrite (same_space_size c r) by done. eapply Nat.le_lt_trans; [apply in_space_size|exact Hs]. }
  rewrite Ec in Hcs. apply pair_equal_spec in Hcs as [<- Habs]. split; [done|].
  by apply (same_after asid va (λ _, Some (pa, flags)) c r).
Qed.

Lemma unmap_step asid va c r z r' :
  same_spaces c r → op_ok (OpUnmap asid va) → rust_vexec (OpUnmap asid va) r = Some (z, r') →
  (vmm_exec (OpUnmap asid va) c).1 = z ∧ same_spaces (vmm_exec (OpUnmap asid va) c).2 r'.
Proof.
  intros H (H0 & Hva). pose proof H as [Hc Hr Hcur Hm]. cbn [rust_vexec vmm_exec].
  pose proof (vmm_unmap_refines asid va c Hc (conj H0 Hva)) as Hcs. pose proof (vmm_unmap_spec asid va r Hr H0 Hva) as Hrs. cbn zeta in Hrs.
  destruct (qos_vmm_unmap_as asid va c) as [zc c'], (vmm_unmap_as asid va r) as [ok r1].
  destruct Hcs as [Hc' Hcs], Hrs as (Hr1 & Hcur1 & -> & Hmap). cbn [spec_exec fst snd] in *. intros [= <- <-].
  destruct (Z.ltb_spec asid 64) as [Ha|]; cbn [andb] in *; [|apply pair_equal_spec in Hcs as [<- Habs]; split; [done|by apply (same_kept c r)]].
  rewrite Hm in Hcs by done. destruct (aligned_b va && _); apply pair_equal_spec in Hcs as [<- Habs]; (split; [done|]); [|by apply (same_kept c r)].
  by apply (same_after asid va (λ _, None) c r).
Qed.

Lemma spaces_step op c r z r' :
  same_spaces c r → op_ok op → rust_vexec op r = Some (z, r') → (vmm_exec op c).1 = z ∧ same_spaces (vmm_exec op c).2 r'.
Proof.
  intros H Hop. destruct op as [asid|asid va pa flags|asid va]; [|by apply map_step|by apply unmap_step].
  pose proof H as [Hc Hr Hcur Hm]. cbn [rust_vexec vmm_exec]. intros [= <- <-]. split; [done|]. unfold qos_vmm_set_asid, vmm_set_asid.
  change (RustVmm.asid_valid asid) with (Vmm.asid_valid asid). destruct (Vmm.asid_valid asid) eqn:E; [|done]. cbn [snd negb].
  unfold Vmm.asid_valid in E. apply Z.ltb_lt in E. cbn in Hop, E. destruct Hc as [? ? _], Hr as [? ? ? _]. by split; [split|split| |].
Qed.

(** A sequence of calls: the results, and the states. *)
Fixpoint rust_vrun (ops : list vmm_op) (s : vmm_state) : option (list Z * vmm_state) :=
  match ops with
  | [] => Some ([], s)
  | op :: ops' => '(z, s1) ← rust_vexec op s; '(zs, s2) ← rust_vrun ops' s1; Some (z :: zs, s2)
  end.

Fixpoint vmm_results (ops : list vmm_op) (s : vmm) : list Z :=
  match ops with [] => [] | op :: ops' => let '(z, s1) := vmm_exec op s in z :: vmm_results ops' s1 end.

Lemma spaces_run ops c r zs r' :
  same_spaces c r → Forall op_ok ops → rust_vrun ops r = Some (zs, r') → vmm_results ops c = zs ∧ same_spaces (vmm_run ops c) r'.
Proof.
  revert c r zs. induction ops as [|op ops IH]; intros c r zs H Ho; cbn [rust_vrun vmm_results]; [by intros [= <- <-]|].
  apply Forall_cons in Ho as [Hop Hos]. destruct (rust_vexec op r) as [[z r1]|] eqn:E; [|done]. cbn [mbind option_bind].
  destruct (rust_vrun ops r1) as [[zs1 r2]|] eqn:E1; [|done]. cbn [mbind option_bind]. intros [= <- <-].
  destruct (spaces_step op c r z r1 H Hop E) as [Hz H1]. change (vmm_run (op :: ops) c) with (vmm_run ops (vmm_exec op c).2).
  destruct (vmm_exec op c) as [zc c1]. cbn [fst snd] in *. subst zc. destruct (IH c1 r1 zs1 H1 Hos E1) as [-> H2]. done.
Qed.

Lemma reset_same : same_spaces qos_vmm_reset vmm_reset.
Proof.
  split; [apply vmm_wf_reset|apply state_wf_reset|done|]. intros asid va Ha. unfold shared_map. cbn [vmm_reset slots].
  rewrite table_map_replicate, fmap_empty, lookup_empty by done. unfold spec_row, vmm_abs. cbn [vs_maps]. rewrite list_lookup_fmap.
  destruct (spaces qos_vmm_reset !! Z.to_nat asid) as [row|] eqn:E; [|done]. apply lookup_replicate in E as [-> _]. cbn [fmap option_fmap option_map default].
  unfold row_map. rewrite table_map_replicate by done. reflexivity.
Qed.

Lemma mapped_flags asid va pa fl c : vmm_wf c → 0 <= asid < 64 → spec_row asid (vmm_abs c) !! va = Some (pa, fl) → fl ≠ 0.
Proof.
  intros Hc Ha. assert (Vmm.asid_valid asid = true) as Hv by (unfold Vmm.asid_valid; apply Z.ltb_lt; change (Z.of_nat QOS_VMM_MAX_AS) with 64; lia).
  destruct (asid_valid_row asid c Hc ltac:(lia) Hv) as [_ Hr]. rewrite spec_row_abs, row_map_live by (done || lia).
  unfold live. intros [Hu (i & Hi)%list_elem_of_lookup]%list_elem_of_filter. exact (mw_flags _ (rw_live _ Hr i _ Hi Hu)).
Qed.

(** ** Room in the table *)

Definition is_map (op : vmm_op) : bool := match op with OpMap _ _ _ _ => true | _ => false end.

(** Each map call takes at most one more slot. *)
Lemma step_room op r :
  state_wf r → op_ok op → (size (shared_map r) + Nat.b2n (is_map op) <= QOS_VMM_MAX_MAPPINGS)%nat →
  ∃ z r', rust_vexec op r = Some (z, r') ∧ (size (shared_map r') <= size (shared_map r) + Nat.b2n (is_map op))%nat.
Proof.
  intros Hr Hop Hroom. destruct op as [asid|asid va pa flags|asid va]; cbn [rust_vexec is_map Nat.b2n] in *.
  - eexists _, _. split; [done|]. unfold vmm_set_asid, shared_map. destruct (negb _); cbn [slots]; lia.
  - destruct Hop as (H0 & Hva & Hpa). pose proof (vmm_map_spec asid va pa flags r Hr H0 Hva Hpa) as Hs. cbn zeta in Hs.
    destruct (vmm_map_as asid va pa flags r) as [e r']. destruct Hs as (_ & _ & -> & Hmap).
    rewrite (proj2 (Nat.ltb_lt _ _)), orb_true_r, andb_true_r in Hmap by lia.
    rewrite (proj2 (Nat.ltb_lt _ _)), orb_true_r by lia. destruct (_ && _ && _ && _).
    + eexists _, _. split; [done|]. rewrite Hmap. rewrite map_size_insert. destruct (shared_map r !! _); unfold id; lia.
    + eexists _, _. split; [done|]. rewrite Hmap. lia.
  - destruct Hop as (H0 & Hva). pose proof (vmm_unmap_spec asid va r Hr H0 Hva) as Hs. cbn zeta in Hs.
    destruct (vmm_unmap_as asid va r) as [ok r']. destruct Hs as (_ & _ & _ & Hmap).
    eexists _, _. split; [done|]. rewrite Hmap. destruct (_ && _); [|lia]. rewrite map_size_delete. destruct (shared_map r !! _); unfold id; lia.
Qed.

Lemma run_room ops c r :
  same_spaces c r → Forall op_ok ops →
  (size (shared_map r) + length (filter (λ op, is_map op = true) ops) <= QOS_VMM_MAX_MAPPINGS)%nat →
  ∃ zs r', rust_vrun ops r = Some (zs, r').
Proof.
  revert c r. induction ops as [|op ops IH]; intros c r H Ho Hroom; cbn [rust_vrun]; [by eexists _, _|].
  apply Forall_cons in Ho as [Hop Hos].
  assert (length (filter (λ op, is_map op = true) (op :: ops)) = Nat.b2n (is_map op) + length (filter (λ op, is_map op = true) ops))%nat as Hl.
  { rewrite filter_cons. by destruct op. }
  rewrite Hl in Hroom. destruct (step_room op r (ss_r _ _ H) Hop) as (z & r1 & E & Hsz); [lia|].
  destruct (spaces_step op c r z r1 H Hop E) as [_ H1]. destruct (IH _ r1 H1 Hos) as (zs & r2 & E2); [lia|].
  rewrite E. cbn [mbind option_bind]. rewrite E2. by eexists _, _.
Qed.

(** C28: the address spaces of the two kernels.  Any sequence of switches, unmaps and at most
    2048 maps, which cannot fill the one table of the Rust kernel, returns the same results in
    both kernels; afterwards every address of every address space is translated to the
    same physical address with the same flags, or is unmapped in both, without a panic, and
    the spaces have the same number of mappings. *)
Theorem address_spaces_agree ops asid va :
  Forall op_ok ops → (length (filter (λ op, is_map op = true) ops) <= 2048)%nat → 0 <= asid < 64 → in_width 64 va →
  let c := vmm_run ops qos_vmm_reset in
  ∃ r, rust_vrun ops vmm_reset = Some (vmm_results ops qos_vmm_reset, r)
  ∧ vmm_translate_as asid va r
    = Some (if qos_vmm_flags_as asid va c =? 0 then None else Some (qos_vmm_translate_as asid va c))
  ∧ vmm_flags_as asid va r = qos_vmm_flags_as asid va c
  ∧ vmm_mapping_count_as asid r = qos_vmm_mapping_count_as asid c.
Proof.
  intros Ho Hmaps Ha Hva c.
  destruct (run_room ops _ _ reset_same Ho) as (zs & r & Hrun).
  { unfold shared_map. cbn [vmm_reset slots]. rewrite table_map_replicate, fmap_empty, map_size_empty by done. exact Hmaps. }
  exists r. destruct (spaces_run ops _ _ zs r reset_same Ho Hrun) as [Hz H]. fold c in H.
  pose proof H as [Hc Hr _ Hm]. split; [by rewrite Hz|].
  destruct (vmm_translate_shared asid va r Hr Ha Hva) as [-> ->], (vmm_translate_spec asid va c Hc Ha Hva) as [-> ->].
  destruct (vmm_mapping_get_enumerates asid c Hc Ha) as [-> _]. rewrite mapping_count_shared, <- (same_space_size c r), <- !Hm by done.
  destruct (spec_row asid (vmm_abs c) !! _) as [[pa fl]|] eqn:E; [|done]. split_and!; [|done|done]. cbn.
  by rewrite (proj2 (Z.eqb_neq fl 0)) by (by eapply mapped_flags).
Qed.

Lemma address_spaces_agree_witness :
  ∃ r, rust_vrun [OpMap 3 0x400000 0xB000 1; OpMap 3 0x400000 0xC000 1; OpUnmap 4 0x400000] vmm_reset = Some ([0; 0; -1], r)
  ∧ vmm_translate_as 3 0x400ABC r = Some (Some 0xCABC).
Proof.
  destruct (address_spaces_agree [OpMap 3 0x400000 0xB000 1; OpMap 3 0x400000 0xC000 1; OpUnmap 4 0x400000] 3 0x400ABC) as (r & H & Ht & _).
  - apply Forall_cons; split; [cbn; unfold in_width; lia|]. apply Forall_cons; split; [cbn; unfold in_width; lia|]. apply Forall_singleton; cbn; unfold in_width; lia.
  - apply Nat.leb_le. reflexivity.
  - lia.
  - unfold in_width; lia.
  - exists r. split; [rewrite H; vm_compute; reflexivity|rewrite Ht; vm_compute; reflexivity].
Defined.
