(* ===== verification/RustSched.v ===== *)
(** * The task queue of the Rust kernel (rust-os/kernel/src/lib.rs: sched)

    One round-robin queue, where the C kernel (Sched) has one for each of four priorities.
    A [u32] is a [Z], an index a [nat]; an index out of the array's bounds, which makes the
    source panic, is [None]. *)

From S2P Require Import Prelude Sched RustPmm.

Record rsched := { pids : list Z; count : nat; cursor : nat; current_pid : Z }.

Definition sched_reset : rsched :=
  {| pids := replicate QOS_SCHED_MAX_TASKS 0; count := 0; cursor := 0; current_pid := 0 |}.

(** The search both loops make: the first of the [n] entries from [i] on that holds [pid],
    or the index where the search ends. *)
Fixpoint pid_scan (n i : nat) (pid : Z) (s : rsched) : option nat :=
  match n with
  | O => Some i
  | S n' => x ← pids s !! i; if x =? pid then Some i else pid_scan n' (S i) pid s
  end.

Definition sched_add_task (pid : Z) (s : rsched) : option (bool * rsched) :=
  if pid =? 0 then Some (false, s)
  else
    i ← pid_scan (count s) 0 pid s;
    if (i <? count s)%nat then Some (false, s)
    else if (QOS_SCHED_MAX_TASKS <=? count s)%nat then Some (false, s)
    else
      _ ← pids s !! count s;
      Some (true, {| pids := <[count s := pid]> (pids s); count := count s + 1; cursor := cursor s;
                     current_pid := current_pid s |}).

Definition sched_remove_task (pid : Z) (s : rsched) : option (bool * rsched) :=
  i ← pid_scan (count s) 0 pid s;
  if (count s <=? i)%nat then Some (false, s)
  else
    let count' := (count s - 1)%nat in
    Some (true,
      {| pids := <[count' := 0]> (shift_left (count' - i) i (pids s)); count := count';
         cursor := if (count' =? 0)%nat || (count' <=? cursor s)%nat then 0 else cursor s;
         current_pid := if current_pid s =? pid then 0 else current_pid s |}).

Definition sched_count (s : rsched) : nat := count s.

Definition sched_next (s : rsched) : option (option Z * rsched) :=
  if (count s =? 0)%nat then
    Some (None, {| pids := pids s; count := count s; cursor := cursor s; current_pid := 0 |})
  else
    pid ← pids s !! cursor s;
    Some (Some pid, {| pids := pids s; count := count s; cursor := (cursor s + 1) mod count s; current_pid := pid |}).

Definition sched_current (s : rsched) : Z := current_pid s.

(** ** Calls and their results *)

Inductive rop := RAdd (pid : Z) | RRemove (pid : Z) | RNext.

Definition of_bool (r : bool * rsched) : option Z * rsched := (Some (Z.b2z r.1), r.2).

(** The boolean answers are 0 and 1. *)
Definition rust_sexec (o : rop) (s : rsched) : option (option Z * rsched) :=
  match o with
  | RAdd pid => of_bool <$> sched_add_task pid s
  | RRemove pid => of_bool <$> sched_remove_task pid s
  | RNext => sched_next s
  end.

Fixpoint rust_srun (ops : list rop) (s : rsched) : option (list (rop * option Z) * rsched) :=
  match ops with
  | [] => Some ([], s)
  | o :: ops' =>
      '(r, s1) ← rust_sexec o s;
      '(rs, s2) ← rust_srun ops' s1;
      Some ((o, r) :: rs, s2)
  end.

(** ** The queue *)

Definition queue (s : rsched) : list Z := take (count s) (pids s).

Record rsched_wf (s : rsched) : Prop := {
  rw_len : length (pids s) = QOS_SCHED_MAX_TASKS;
  rw_count : (count s <= QOS_SCHED_MAX_TASKS)%nat;
  rw_cursor : (cursor s < count s ∨ count s = 0 ∧ cursor s = 0)%nat;
  rw_nodup : NoDup (queue s);
  rw_zero : 0 ∉ queue s
}.

Lemma queue_length s : rsched_wf s → length (queue s) = count s.
Proof. intros [Hl Hc _ _ _]. unfold queue. rewrite length_take. lia. Qed.

Lemma queue_lookup s i : (i < count s)%nat → queue s !! i = pids s !! i.
Proof. intros. unfold queue. by rewrite lookup_take, decide_True. Qed.

(** ** Specification: a list of tasks and a position in it *)

Definition abs (s : rsched) : list Z * nat := (queue s, cursor s).

(** The position after a removal that leaves [n] tasks. *)
Definition clamp (n c : nat) : nat := if (n =? 0)%nat || (n <=? c)%nat then 0 else c.

Definition rspec (o : rop) (a : list Z * nat) : option Z * (list Z * nat) :=
  let '(q, c) := a in
  match o with
  | RAdd pid =>
      if negb (pid =? 0) && bool_decide (pid ∉ q) && (length q <? QOS_SCHED_MAX_TASKS)%nat
      then (Some 1, (q ++ [pid], c)) else (Some 0, a)
  | RRemove pid =>
      match list_find (λ x, x = pid) q with
      | Some (i, _) => (Some 1, (delete i q, clamp (length q - 1) c))
      | None => (Some 0, a)
      end
  | RNext => if (length q =? 0)%nat then (None, a) else (q !! c, (q, (c + 1) mod length q)%nat)
  end.

Lemma pid_scan_find n i pid s :
  (i + n <= length (pids s))%nat →
  pid_scan n i pid s
  = Some (match list_find (λ x, x = pid) (take n (drop i (pids s))) with Some (j, _) => i + j | None => i + n end)%nat.
Proof.
  revert i. induction n as [|n IH]; intros i Hn; cbn [pid_scan].
  { rewrite take_0. cbn. by rewrite Nat.add_0_r. }
  destruct (lookup_lt_is_Some_2 (pids s) i) as [x Hx]; [lia|]. rewrite Hx. cbn [mbind option_bind].
  rewrite (drop_S _ _ _ Hx). cbn [take list_find]. destruct (Z.eqb_spec x pid) as [->|Hne].
  { rewrite decide_True by done. by rewrite Nat.add_0_r. }
  rewrite decide_False, IH by (done || lia). f_equal.
  destruct (list_find _ _) as [[j y]|]; cbn; lia.
Qed.

Lemma scan_queue pid s :
  rsched_wf s →
  pid_scan (count s) 0 pid s
  = Some (match list_find (λ x, x = pid) (queue s) with Some (j, _) => j | None => count s end).
Proof. intros [Hl Hc _ _ _]. rewrite pid_scan_find by lia. done. Qed.

Lemma find_queue pid s i x :
  rsched_wf s → list_find (λ x, x = pid) (queue s) = Some (i, x) → queue s !! i = Some pid ∧ (i < count s)%nat.
Proof.
  intros Hwf (Hi & -> & _)%list_find_Some. split; [done|].
  rewrite <- (queue_length s Hwf). by eapply lookup_lt_Some.
Qed.

Lemma sched_add_spec pid s :
  rsched_wf s →
  ∃ r s', rust_sexec (RAdd pid) s = Some (r, s') ∧ rsched_wf s' ∧ rspec (RAdd pid) (abs s) = (r, abs s').
Proof.
  intros Hwf. cbn [rust_sexec]. unfold sched_add_task, rspec, abs. rewrite (queue_length s Hwf).
  destruct (Z.eqb_spec pid 0) as [->|Hp]; cbn [negb andb]; [by eexists _, s|].
  rewrite (scan_queue pid s Hwf). cbn [mbind option_bind].
  destruct (list_find _ _) as [[i x]|] eqn:Hf.
  { destruct (find_queue _ _ _ _ Hwf Hf) as [Hi Hlt]. rewrite (proj2 (Nat.ltb_lt _ _) Hlt).
    rewrite bool_decide_eq_false_2 by (intros H; apply H; by eapply list_elem_of_lookup_2). by eexists _, s. }
  assert (pid ∉ queue s) as Hn. { apply list_find_None in Hf. intros Hi. rewrite Forall_forall in Hf. by eapply Hf. }
  rewrite Nat.ltb_irrefl, bool_decide_eq_true_2, Nat.leb_antisym by done. cbn [andb].
  destruct (Nat.ltb_spec (count s) QOS_SCHED_MAX_TASKS) as [Hc|Hc]; cbn [negb]; [|by eexists _, s].
  destruct Hwf as [Hl Hle Hcur Hnd Hz]. destruct (lookup_lt_is_Some_2 (pids s) (count s)) as [y Hy]; [lia|].
  rewrite Hy. cbn [mbind option_bind fmap option_fmap option_map]. eexists _, _. split; [done|]. cbn [snd fst of_bool].
  set (s' := {| pids := _ |}).
  assert (queue s' = queue s ++ [pid]) as Hq.
  { unfold queue, s'. cbn [pids count]. rewrite Nat.add_1_r, (take_S_r _ _ pid) by (apply list_lookup_insert_eq; lia).
    by rewrite take_insert_ge. }
  split; [|rewrite Hq; done]. split; rewrite ?Hq; cbn [s' pids count cursor].
  - by rewrite length_insert.
  - lia.
  - lia.
  - apply NoDup_app. split; [done|]. split; [|apply NoDup_singleton].
    intros x Hx [->|[]%not_elem_of_nil]%elem_of_cons. done.
  - rewrite elem_of_app, list_elem_of_singleton. naive_solver.
Qed.

Lemma sched_remove_spec pid s :
  rsched_wf s →
  ∃ r s', rust_sexec (RRemove pid) s = Some (r, s') ∧ rsched_wf s' ∧ rspec (RRemove pid) (abs s) = (r, abs s').
Proof.
  intros Hwf. cbn [rust_sexec]. unfold sched_remove_task, rspec, abs. rewrite (queue_length s Hwf).
  rewrite (scan_queue pid s Hwf). cbn [mbind option_bind].
  destruct (list_find _ _) as [[i x]|] eqn:Hf; last first.
  { rewrite Nat.leb_refl. by eexists _, s. }
  destruct (find_queue _ _ _ _ Hwf Hf) as [Hi Hlt]. rewrite (proj2 (Nat.leb_gt _ _) Hlt).
  destruct Hwf as [Hl Hle Hcur Hnd Hz]. cbn [fmap option_fmap option_map].
  eexists _, _. split; [done|]. cbn [snd fst of_bool]. set (s' := {| pids := _ |}).
  assert (queue s' = delete i (queue s)) as Hq.
  { unfold queue, s'. cbn [pids count]. rewrite take_insert_ge by lia. apply shift_left_delete; lia. }
  split; [|rewrite Hq; done]. split; rewrite ?Hq; cbn [s' pids count cursor].
  - by rewrite length_insert, shift_left_length.
  - lia.
  - unfold clamp. destruct (Nat.eqb_spec (count s - 1) 0), (Nat.leb_spec (count s - 1) (cursor s)); cbn [orb]; lia.
  - eapply sublist_NoDup; [done|apply sublist_delete].
  - intros H. apply Hz. eapply elem_of_sublist; [done|apply sublist_delete].
Qed.

Lemma sched_next_spec s :
  rsched_wf s →
  ∃ r s', rust_sexec RNext s = Some (r, s') ∧ rsched_wf s' ∧ rspec RNext (abs s) = (r, abs s').
Proof.
  intros Hwf. cbn [rust_sexec]. unfold sched_next, rspec, abs. rewrite (queue_length s Hwf).
  destruct (Nat.eqb_spec (count s) 0) as [E|E].
  { eexists _, _. split; [done|]. split; [|done]. by destruct Hwf; split. }
  pose proof Hwf as [Hl Hle Hcur Hnd Hz]. destruct (lookup_lt_is_Some_2 (pids s) (cursor s)) as [x Hx]; [lia|].
  rewrite queue_lookup, Hx by lia. cbn [mbind option_bind]. eexists _, _. split; [done|]. split; [|done].
  split; [done..| |done|done]. cbn [cursor count]. left. apply Nat.mod_upper_bound. done.
Qed.

(** Each call returns, keeps the queue well formed and does what the specification says. *)
Lemma step_spec o s :
  rsched_wf s →
  ∃ r s', rust_sexec o s = Some (r, s') ∧ rsched_wf s' ∧ rspec o (abs s) = (r, abs s').
Proof. destruct o; [apply sched_add_spec|apply sched_remove_spec|apply sched_next_spec]. Qed.

(** ** No task starves *)

Definition keeps (pid : Z) (o : rop) : bool := match o with RRemove p => negb (p =? pid) | _ => true end.
Definition no_removal (o : rop) : bool := match o with RRemove _ => false | _ => true end.
Definition is_next (o : rop) : bool := match o with RNext => true | _ => false end.

(** How many calls pass before position [i] is served when the cursor is at [c]: to the end of
    an array of 64 and from its start. *)
Definition distance (i c : nat) : nat := if (c <=? i)%nat then (i - c)%nat else (QOS_SCHED_MAX_TASKS - c + i)%nat.

Lemma distance_next n i c :
  (i < n <= QOS_SCHED_MAX_TASKS)%nat → (c < n)%nat → i ≠ c → (distance i ((c + 1) mod n) < distance i c)%nat.
Proof.
  intros Hi Hc Hne. unfold distance, QOS_SCHED_MAX_TASKS in *. destruct (decide (c + 1 = n)%nat) as [<-|].
  - rewrite Nat.Div0.mod_same. destruct (Nat.leb_spec c i), (Nat.leb_spec 0 i); lia.
  - rewrite Nat.mod_small by lia. destruct (Nat.leb_spec c i), (Nat.leb_spec (c + 1) i); lia.
Qed.

Lemma distance_lt i c : (i < QOS_SCHED_MAX_TASKS)%nat → (distance i c < QOS_SCHED_MAX_TASKS)%nat.
Proof. intros. unfold distance. destruct (Nat.leb_spec c i); lia. Qed.

Lemma distance_clamp n i c : (i < n)%nat → (distance i (clamp n c) <= distance i c)%nat.
Proof.
  intros. unfold clamp. destruct (Nat.eqb_spec n 0), (Nat.leb_spec n c); cbn [orb]; try lia.
  unfold distance. destruct (Nat.leb_spec c i), (Nat.leb_spec 0 i); lia.
Qed.

Definition nexts (ops : list rop) : nat := length (filter (λ o, is_next o = true) ops).

Definition potential (i c : nat) : nat := (QOS_SCHED_MAX_TASKS * i + distance i c)%nat.

Lemma potential_lt i c :
  (i < QOS_SCHED_MAX_TASKS)%nat → (potential i c < QOS_SCHED_MAX_TASKS * QOS_SCHED_MAX_TASKS)%nat.
Proof. intros Hi. pose proof (distance_lt i c Hi). unfold potential, QOS_SCHED_MAX_TASKS in *. lia. Qed.

(** A removal may move the task, and it only moves it forward. *)
Lemma removal_progress (pid p : Z) q c i j x :
  p ≠ pid → (length q <= QOS_SCHED_MAX_TASKS)%nat → q !! i = Some pid →
  list_find (λ x, x = p) q = Some (j, x) →
  ∃ i', delete j q !! i' = Some pid ∧ (potential i' (clamp (length q - 1) c) <= potential i c)%nat.
Proof.
  intros Hne Hlen Hi (Hj & -> & _)%list_find_Some.
  assert (i ≠ j) by (intros ->; simplify_eq).
  pose proof (lookup_lt_Some _ _ _ Hi). pose proof (lookup_lt_Some _ _ _ Hj). destruct (decide (i < j)%nat).
  - exists i. rewrite list_lookup_delete_lt by done. split; [done|].
    pose proof (distance_clamp (length q - 1) i c). unfold potential. lia.
  - exists (i - 1)%nat. rewrite list_lookup_delete_ge by lia. replace (S (i - 1)) with i by lia. split; [done|].
    pose proof (distance_lt (i - 1) (clamp (length q - 1) c)). unfold potential, QOS_SCHED_MAX_TASKS in *. lia.
Qed.

(** Unless it serves the task, a call that keeps it brings the task's turn nearer: by one when
    it is a [sched_next], and never further away. *)
Lemma step_progress o s s' r i pid :
  rsched_wf s → queue s !! i = Some pid → keeps pid o = true → rspec o (abs s) = (r, abs s') →
  (o, r) = (RNext, Some pid) ∨
  ∃ i', queue s' !! i' = Some pid
  ∧ (potential i' (cursor s') + Nat.b2n (is_next o) <= potential i (cursor s))%nat
  ∧ (no_removal o = true → i' = i).
Proof.
  intros Hwf Hi Hk. pose proof (queue_length s Hwf) as Hlen. pose proof (lookup_lt_Some _ _ _ Hi) as Hlt.
  unfold abs. destruct o as [p|p|]; cbn [rspec is_next Nat.b2n no_removal keeps] in *.
  - case_match; intros [= <- Hq Hc]; right; exists i; rewrite <- Hq, <- Hc;
      (split; [|split; [lia|done]]); [by apply lookup_app_l_Some|done].
  - apply negb_true_iff, Z.eqb_neq in Hk. destruct (list_find _ _) as [[j x]|] eqn:Hf; intros [= <- Hq Hc]; right.
    + destruct (removal_progress pid p (queue s) (cursor s) i j x) as (i' & ? & ?); [done| |done..|].
      { rewrite Hlen. apply Hwf. }
      exists i'. rewrite <- Hq, <- Hc. split; [done|]. split; [lia|done].
    + exists i. rewrite <- Hq, <- Hc. split; [done|]. split; [lia|done].
  - destruct (Nat.eqb_spec (length (queue s)) 0) as [|Hn]; [lia|]. intros [= <- Hq Hc].
    destruct (decide (i = cursor s)) as [->|Hne]; [by left; rewrite Hi|]. right. exists i. rewrite <- Hq.
    split; [done|]. split; [|done]. rewrite <- Hc. destruct Hwf as [Hl Hle Hcur Hnd Hz].
    pose proof (distance_next (length (queue s)) i (cursor s)). unfold potential. lia.
Qed.

Lemma run_total ops s :
  rsched_wf s → ∃ rs s', rust_srun ops s = Some (rs, s') ∧ rsched_wf s'.
Proof.
  revert s. induction ops as [|o ops IH]; intros s Hwf; cbn [rust_srun]; [by eexists _, _|].
  destruct (step_spec o s Hwf) as (r & s1 & -> & Hwf1 & _). destruct (IH s1 Hwf1) as (rs & s2 & E & ?).
  cbn. rewrite E. cbn. by eexists _, _.
Qed.

(** Enough calls for the potential, or for the distance when nothing is removed. *)
Definition enough (ops : list rop) (i c : nat) : Prop :=
  (potential i c < nexts ops ∨ Forall (λ o, no_removal o = true) ops ∧ distance i c < nexts ops)%nat.

Lemma nexts_cons o ops : nexts (o :: ops) = (Nat.b2n (is_next o) + nexts ops)%nat.
Proof. unfold nexts. rewrite filter_cons. by destruct o. Qed.

Lemma run_serves ops s i pid :
  rsched_wf s → queue s !! i = Some pid → Forall (λ o, keeps pid o = true) ops → enough ops i (cursor s) →
  ∃ rs s', rust_srun ops s = Some (rs, s') ∧ (RNext, Some pid) ∈ rs.
Proof.
  revert s i. induction ops as [|o ops IH]; intros s i Hwf Hi Hk He.
  { destruct He as [He|[_ He]]; unfold nexts in He; simpl in He; lia. }
  cbn [rust_srun]. destruct (step_spec o s Hwf) as (r & s1 & -> & Hwf1 & Hr). cbn [mbind option_bind].
  apply Forall_cons in Hk as [Hko Hk].
  destruct (step_progress o s s1 r i pid Hwf Hi Hko Hr) as [[= -> ->]|(i' & Hi' & Hp & Hsame)].
  { destruct (run_total ops s1 Hwf1) as (rs & s2 & -> & _). cbn. eexists _, _. split; [done|]. left. }
  destruct (IH s1 i' Hwf1 Hi' Hk) as (rs & s2 & -> & Hin).
  - unfold enough in *. rewrite nexts_cons in He. destruct He as [He|[Hn He]]; [left; lia|right].
    apply Forall_cons in Hn as [Hno Hn]. specialize (Hsame Hno) as ->. split; [done|]. unfold potential in Hp. lia.
  - cbn. eexists _, _. split; [done|]. by right.
Qed.

Lemma sched_reset_ok : rsched_wf sched_reset.
Proof. split; vm_compute; [done|lia|by right|constructor|by inversion 1]. Qed.

(** C16: no task starves in the round-robin queue of the Rust kernel.  After any calls from the
    reset state, none of which panics, a task in the queue is answered by one of the next
    4096 calls of [sched_next], whatever tasks are added and removed in between as long as it
    is not removed itself; when nothing is removed, by one of the next 64. *)
Theorem sched_no_starvation before :
  ∃ rs0 s, rust_srun before sched_reset = Some (rs0, s) ∧
  ∀ pid ops, pid ∈ queue s → Forall (λ o, keeps pid o = true) ops →
  (4096 <= nexts ops)%nat ∨ Forall (λ o, no_removal o = true) ops ∧ (64 <= nexts ops)%nat →
  ∃ rs s', rust_srun ops s = Some (rs, s') ∧ (RNext, Some pid) ∈ rs.
Proof.
  destruct (run_total before _ sched_reset_ok) as (rs0 & s & Hrun & Hwf). exists rs0, s. split; [done|].
  intros pid ops [i Hi]%list_elem_of_lookup_1 Hk He. apply (run_serves ops s i pid Hwf Hi Hk).
  pose proof (lookup_lt_Some _ _ _ Hi) as Hlt. rewrite (queue_length s Hwf) in Hlt.
  pose proof (rw_count _ Hwf) as Hc. unfold enough. destruct He as [He|[Hn He]].
  - left. pose proof (potential_lt i (cursor s)) as Hp. change (QOS_SCHED_MAX_TASKS * QOS_SCHED_MAX_TASKS)%nat with 4096%nat in Hp. lia.
  - right. split; [done|]. pose proof (distance_lt i (cursor s)). unfold QOS_SCHED_MAX_TASKS in *. lia.
Qed.

Lemma sched_no_starvation_witness :
  ∃ rs0 s, rust_srun [RAdd 7; RAdd 8; RAdd 9; RNext] sched_reset = Some (rs0, s)
  ∧ ∃ rs s', rust_srun (replicate 64 RNext) s = Some (rs, s') ∧ (RNext, Some 7) ∈ rs.
Proof.
  destruct (sched_no_starvation [RAdd 7; RAdd 8; RAdd 9; RNext]) as (rs0 & s & Hrun & Hserved).
  exists rs0, s. split; [exact Hrun|]. apply Hserved.
  - assert (option_map (λ r, queue r.2) (rust_srun [RAdd 7; RAdd 8; RAdd 9; RNext] sched_reset) = Some [7; 8; 9])
      as Hq by (vm_compute; reflexivity).
    rewrite Hrun in Hq. injection Hq as ->. by left.
  - by apply Forall_replicate.
  - right. split; [by apply Forall_replicate|]. apply Nat.leb_le. reflexivity.
Defined.

(** ** The two kernels

    A C scheduler used without priorities: every task is on the normal level. *)

Record same_tasks (c : Sched.sched) (s : rsched) : Prop := {
  st_c : sched_wf c;
  st_rust : rsched_wf s;
  st_queue : queues c = [[]; []; queue s; []];
  st_cursor : q_cursor (get_level 2 c) = cursor s;
  st_current : Sched.current_pid c = current_pid s
}.

Definition c_sexec (o : rop) (c : Sched.sched) : Z * Sched.sched :=
  match o with
  | RAdd pid => qos_sched_add_task pid c
  | RRemove pid => qos_sched_remove_task pid c
  | RNext => qos_sched_next c
  end.

(** The C answer for a Rust one: 0 for success and -1 for failure, a missing task is 0. *)
Definition c_answer (o : rop) (r : option Z) : Z :=
  match o, r with
  | RNext, _ => default 0 r
  | _, Some 1 => 0
  | _, _ => -1
  end.

Lemma same_level2 c s : same_tasks c s → tasks (get_level 2 c) = queue s.
Proof.
  intros [Hc _ Hq _ _]. pose proof (queues_lookup 2 c Hc) as H. rewrite Hq in H.
  cbn in H. specialize (H ltac:(unfold QOS_SCHED_LEVELS; lia)). by injection H as <-.
Qed.

Lemma same_top c s : same_tasks c s → queue s ≠ [] → top_level 2 c.
Proof.
  intros H Hne. split; [unfold QOS_SCHED_LEVELS; lia|]. split; [by rewrite (same_level2 _ _ H)|].
  intros p Hp. pose proof (queues_lookup p c (st_c _ _ H)) as Hl. rewrite (st_queue _ _ H) in Hl.
  unfold QOS_SCHED_LEVELS in *. replace p with 3%nat in * by lia. cbn in Hl. specialize (Hl ltac:(lia)). by injection Hl as <-.
Qed.

Lemma add_cursor pid c :
  sched_wf c →
  q_cursor (get_level 2 (qos_sched_add_task pid c).2) = q_cursor (get_level 2 c)
  ∧ Sched.current_pid (qos_sched_add_task pid c).2 = Sched.current_pid c.
Proof.
  intros Hc. unfold qos_sched_add_task, qos_sched_add_task_prio, queue_append, QOS_SCHED_PRIO_NORMAL.
  destruct (_ || _); [done|]. destruct (find_pid pid c); [done|]. destruct (_ <=? _); [done|].
  destruct (negb _); [done|]. destruct (_ <=? _)%nat; [done|]. change (Z.to_nat 2) with 2%nat.
  cbn [snd put_level Sched.current_pid]. split; [|done]. unfold get_level at 1. cbn [put_level levels].
  rewrite list_lookup_insert_eq; [done|]. rewrite (sw_levels _ Hc). unfold QOS_SCHED_LEVELS. lia.
Qed.

(** The addition of the C scheduler on the task lists alone. *)
Lemma c_add_lists pid c :
  sched_wf c →
  let '(r, c') := qos_sched_add_task pid c in
  sched_wf c'
  ∧ (r, queues c') = if bool_decide (pid ≠ 0 ∧ 2 <= 3 ∧ (pid ∉ concat (queues c)) ∧ (length (concat (queues c)) < 64)%nat)
                     then (0, alter (λ q, q ++ [pid]) 2%nat (queues c)) else (-1, queues c).
Proof.
  intros Hc. pose proof (sched_step_refines (SAdd pid 2) c Hc ltac:(cbn; lia)) as Hs.
  cbn [sched_exec sched_spec] in Hs. fold QOS_SCHED_PRIO_NORMAL in Hs. fold (qos_sched_add_task pid c) in Hs.
  destruct (qos_sched_add_task pid c) as [r c']. destruct Hs as [Hc' Hs]. split; [done|].
  rewrite abs_all in Hs. fold (all_tasks c). change (Z.to_nat QOS_SCHED_PRIO_NORMAL) with 2%nat in Hs.
  rewrite <- (abs_queues c'), <- (abs_queues c). change QOS_SCHED_PRIO_NORMAL with 2 in Hs.
  case_bool_decide; apply pair_equal_spec in Hs as [-> ->]; [|done]. f_equal. apply list_eq. intros j.
  rewrite list_lookup_fmap. destruct (decide (j = 2%nat)) as [->|Hj].
  - rewrite !list_lookup_alter_eq, list_lookup_fmap. by destruct (sched_abs c !! 2%nat) as [[q x]|].
  - by rewrite !list_lookup_alter_ne, list_lookup_fmap by done.
Qed.

Lemma add_agrees pid c s :
  same_tasks c s →
  ∃ r s', rust_sexec (RAdd pid) s = Some (r, s')
  ∧ (qos_sched_add_task pid c).1 = c_answer (RAdd pid) r ∧ same_tasks (qos_sched_add_task pid c).2 s'.
Proof.
  intros H. destruct (add_cursor pid c (st_c _ _ H)) as [Hcur Hcp].
  destruct (sched_add_spec pid s (st_rust _ _ H)) as (r & s' & E & Hwf' & Hr). exists r, s'. split; [done|].
  assert (current_pid s' = current_pid s) as Hcp'.
  { cbn [rust_sexec] in E. unfold sched_add_task, of_bool in E. destruct (pid =? 0); [by simplify_eq/=|].
    destruct (pid_scan _ _ _ _); [|done]. cbn [mbind option_bind] in E. destruct (_ <? _)%nat; [by simplify_eq/=|].
    destruct (_ <=? _)%nat; [by simplify_eq/=|]. destruct (pids s !! count s); by simplify_eq/=. }
  pose proof (c_add_lists pid c (st_c _ _ H)) as Hs.
  destruct (qos_sched_add_task pid c) as [rc c']. cbn [fst snd] in *. destruct Hs as [Hc' Hs].
  rewrite (st_queue _ _ H) in Hs. cbn [concat app] in Hs. rewrite app_nil_r in Hs.
  unfold abs in Hr. cbn [rspec] in Hr. unfold QOS_SCHED_MAX_TASKS in Hr.
  destruct (_ && _ && _) eqn:Hb.
  - apply andb_true_iff in Hb as [[Hb1%negb_true_iff%Z.eqb_neq Hb2%bool_decide_eq_true]%andb_true_iff Hb3%Nat.ltb_lt].
    rewrite bool_decide_eq_true_2 in Hs by done. apply pair_equal_spec in Hs as [-> Hq]. injection Hr as <- Hq' Hcu.
    split; [done|]. split; [done|done| |by rewrite Hcur, (st_cursor _ _ H)|by rewrite Hcp, Hcp', (st_current _ _ H)].
    by rewrite Hq, <- Hq'.
  - rewrite bool_decide_eq_false_2 in Hs.
    + apply pair_equal_spec in Hs as [-> Hq]. injection Hr as <- Hq' Hcu.
      split; [done|]. split; [done|done| |by rewrite Hcur, (st_cursor _ _ H)|by rewrite Hcp, Hcp', (st_current _ _ H)].
      by rewrite Hq, <- Hq'.
    + intros (Hb1%Z.eqb_neq & _ & Hb2 & Hb3%Nat.ltb_lt). by rewrite Hb1, bool_decide_eq_true_2, Hb3 in Hb.
Qed.

Lemma next_agrees c s :
  same_tasks c s →
  ∃ r s', rust_sexec RNext s = Some (r, s')
  ∧ (qos_sched_next c).1 = c_answer RNext r ∧ same_tasks (qos_sched_next c).2 s'.
Proof.
  intros H. destruct (sched_next_spec s (st_rust _ _ H)) as (r & s' & E & Hwf' & Hr). exists r, s'. split; [done|].
  destruct (qos_sched_next_ok c (st_c _ _ H)) as [Hc' Hq']. rewrite (st_queue _ _ H) in Hq'.
  pose proof (same_level2 c s H) as Ht. unfold abs in Hr. cbn [rspec] in Hr.
  cbn [rust_sexec] in E. unfold sched_next in E. pose proof (queue_length s (st_rust _ _ H)) as Hlen. rewrite Hlen in Hr.
  destruct (Nat.eqb_spec (count s) 0) as [E0|E0]; rewrite <- Hlen in E0.
  - apply nil_length_inv in E0. injection Hr as <- Hqs Hcs. apply Some_inj, pair_equal_spec in E as [_ <-].
    assert (total_count c = 0) as Htot.
    { rewrite (sw_total _ (st_c _ _ H)). unfold all_tasks. by rewrite (st_queue _ _ H), E0. }
    unfold qos_sched_next in *. rewrite Htot in *. cbn [Z.eqb fst snd] in *. split; [done|].
    split; [done|done|exact Hq'|apply (st_cursor _ _ H)|done].
  - assert (queue s ≠ []) as Hne by (intros En; by rewrite En in E0). injection Hr as <- Hqs Hcs.
    destruct (advance_level 2 (default 0 (queue s !! cursor s)) c 2 (st_c _ _ H)) as [_ Hcur]; [unfold QOS_SCHED_LEVELS; lia|].
    pose proof (next_top 2 c (st_c _ _ H) (same_top c s H Hne)) as Hn. cbv zeta in Hn.
    rewrite (st_cursor _ _ H), Ht in Hn, Hcur. rewrite Hlen in Hcur. rewrite Hn in *. cbn [fst snd c_answer] in *. split; [done|].
    assert (current_pid s' = default 0 (queue s !! cursor s)) as Hcp.
    { destruct (pids s !! cursor s) as [x|] eqn:Hx; [|done]. cbn in E. apply Some_inj, pair_equal_spec in E as [Hr <-].
      by rewrite <- Hr. }
    split; [done|done|by rewrite Hq', Hqs|by rewrite Hcur|by rewrite Hcp].
Qed.

Fixpoint c_srun (ops : list rop) (c : Sched.sched) : list Z * Sched.sched :=
  match ops with
  | [] => ([], c)
  | o :: ops' => let '(r, c1) := c_sexec o c in let '(rs, c2) := c_srun ops' c1 in (r :: rs, c2)
  end.

Lemma run_agrees ops c s :
  Forall (λ o, no_removal o = true) ops → same_tasks c s →
  ∃ rs s', rust_srun ops s = Some (rs, s')
  ∧ (c_srun ops c).1 = (λ '(o, r), c_answer o r) <$> rs ∧ same_tasks (c_srun ops c).2 s'.
Proof.
  revert c s. induction ops as [|o ops IH]; intros c s Hok H; cbn [rust_srun c_srun]; [by eexists _, _|].
  apply Forall_cons in Hok as [Ho Hok].
  assert (∃ r s1, rust_sexec o s = Some (r, s1) ∧ (c_sexec o c).1 = c_answer o r ∧ same_tasks (c_sexec o c).2 s1)
    as (r & s1 & -> & Hr & H1).
  { destruct o; [by apply add_agrees|done|by apply next_agrees]. }
  destruct (c_sexec o c) as [rc c1]. cbn [fst snd] in *. destruct (IH c1 s1 Hok H1) as (rs & s2 & E & Hrs & H2).
  cbn [mbind option_bind]. rewrite E. cbn [mbind option_bind]. eexists _, _. split; [done|].
  destruct (c_srun ops c1) as [rcs c2]. cbn [fst snd] in *. by rewrite Hr, Hrs.
Qed.

(** From their reset states the two schedulers give the same answers to every sequence of additions
    and [next] calls, and then hold the same tasks, position and current task. *)
Lemma schedulers_agree ops :
  Forall (λ o, no_removal o = true) ops →
  ∃ rs s', rust_srun ops sched_reset = Some (rs, s')
  ∧ (c_srun ops qos_sched_reset).1 = (λ '(o, r), c_answer o r) <$> rs
  ∧ same_tasks (c_srun ops qos_sched_reset).2 s'.
Proof.
  intros Hok. apply run_agrees; [done|]. split; [apply sched_reset_wf|apply sched_reset_ok|done..].
Qed.

(** They part at a removal before the position: the C scheduler moves the position with the
    tasks (8 keeps its turn), the Rust one does not (8 loses it). *)
Lemma removal_parts_schedulers :
  let ops := [RAdd 7; RAdd 8; RAdd 9; RNext; RRemove 7; RNext] in
  (c_srun ops qos_sched_reset).1 !! 5%nat = Some 8
  ∧ (rust_srun ops sched_reset ≫= (λ r, r.1 !! 5%nat)) = Some (RNext, Some 9).
Proof. split; vm_compute; reflexivity. Qed.
