(* ===== verification/RustVfs.v ===== *)
(** * The path nodes of the Rust kernel (rust-os/kernel/src/lib.rs: vfs)

    The parallel arrays are one list of nodes.  A [&str] is the list of its bytes.  A removed
    node keeps the bytes of its path from the second on; a stored length tells how many of
    the 128 bytes count.  The specification is the one of the C kernel (Vfs). *)

From Stdlib Require Import Ascii.
From S2P Require Import Prelude SlotTable Vfs RustPmm.

Record rnode := { r_used : bool; r_len : Z; r_path : list Z }.

Record rvfs := { rnodes : list rnode; rcount : Z }.

Definition rnode_zero : rnode := {| r_used := false; r_len := 0; r_path := replicate QOS_VFS_PATH_MAX 0 |}.

Definition vfs_reset : rvfs := {| rnodes := replicate QOS_VFS_MAX_NODES rnode_zero; rcount := 0 |}.

Definition vfs_path_valid (path : list Z) : bool :=
  match path with
  | [] => false
  | b :: _ => if negb (b =? 47) then false else (length path <? QOS_VFS_PATH_MAX)%nat
  end.

Definition vfs_is_mount_or_child (path mount : list Z) : bool :=
  if negb (bool_decide (take (length mount) path = mount)) then false
  else if (length path =? length mount)%nat then true
  else match path !! length mount with Some b => b =? 47 | None => false end.

(** The comparison of the search; the slice is within the 128 bytes because the callers have
    checked the path's length. *)
Definition holds_path (path : list Z) (n : rnode) : bool :=
  r_used n && (r_len n =? Z.of_nat (length path)) && bool_decide (take (length path) (r_path n) = path).

Definition vfs_find (path : list Z) (s : rvfs) : option nat := first_index (holds_path path) (rnodes s).

Definition vfs_free_slot (s : rvfs) : option nat := first_index (λ n, negb (r_used n)) (rnodes s).

(** [None] is the panic of the counter's arithmetic. *)
Definition vfs_create (path : list Z) (s : rvfs) : option (bool * rvfs) :=
  if negb (vfs_path_valid path) then Some (false, s)
  else
    match vfs_find path s with
    | Some _ => Some (false, s)
    | None =>
        match vfs_free_slot s with
        | None => Some (false, s)
        | Some slot =>
            n ← rnodes s !! slot;
            count ← checked 32 (rcount s + 1);
            Some (true, {| rnodes := <[slot := {| r_used := true; r_len := wrap 8 (Z.of_nat (length path));
                                                  r_path := copy_bytes 0 path (r_path n) |}]> (rnodes s);
                           rcount := count |})
        end
    end.

Definition vfs_exists (path : list Z) (s : rvfs) : bool :=
  if negb (vfs_path_valid path) then false else bool_decide (is_Some (vfs_find path s)).

Definition vfs_remove (path : list Z) (s : rvfs) : option (bool * rvfs) :=
  if negb (vfs_path_valid path) then Some (false, s)
  else
    match vfs_find path s with
    | None => Some (false, s)
    | Some idx =>
        n ← rnodes s !! idx;
        count ← checked 32 (rcount s - 1);
        Some (true, {| rnodes := <[idx := {| r_used := false; r_len := 0; r_path := <[0%nat := 0]> (r_path n) |}]> (rnodes s);
                       rcount := count |})
    end.

Definition vfs_count (s : rvfs) : Z := rcount s.

Definition vfs_fs_kind (path : list Z) : option Z :=
  if negb (vfs_path_valid path) then None
  else if vfs_is_mount_or_child path (bytes_of "/tmp") then Some QOS_VFS_FS_TMPFS
  else if vfs_is_mount_or_child path (bytes_of "/proc") then Some QOS_VFS_FS_PROCFS
  else if vfs_is_mount_or_child path (bytes_of "/data") then Some QOS_VFS_FS_EXT2
  else Some QOS_VFS_FS_INITRAMFS.

Definition vfs_is_read_only (path : list Z) : option bool :=
  kind ← vfs_fs_kind path;
  Some ((kind =? QOS_VFS_FS_INITRAMFS) || (kind =? QOS_VFS_FS_PROCFS)).

(** ** The set of paths *)

#[export] Instance rnode_slotted : Slotted rnode := r_used.
#[export] Instance rnode_keyed : Keyed rnode string := λ n, chars (take (Z.to_nat (r_len n)) (r_path n)).

Definition node_ok (n : rnode) : Prop :=
  length (r_path n) = QOS_VFS_PATH_MAX ∧ Forall (in_width 8) (r_path n)
  ∧ 0 <= r_len n < Z.of_nat QOS_VFS_PATH_MAX.

Record rvfs_wf (s : rvfs) : Prop := {
  rv_len : length (rnodes s) = QOS_VFS_MAX_NODES;
  rv_nodes : Forall node_ok (rnodes s);
  rv_unique : unique_keys (rnodes s);
  rv_count : rcount s = Z.of_nat (count_used (rnodes s))
}.

Definition rvfs_abs (s : rvfs) : gset string := dom (table_map (rnodes s)).

Lemma chars_bytes_of p : chars (bytes_of p) = p.
Proof.
  unfold chars, bytes_of. rewrite <- list_fmap_compose. induction p as [|c p IH]; [done|]. cbn. f_equal; [|done].
  unfold compose. by rewrite N2Z.id, ascii_N_embedding.
Qed.

Lemma bytes_of_length p : length (bytes_of p) = String.length p.
Proof. induction p as [|c p IH]; [done|]. unfold bytes_of in *. cbn. by rewrite IH. Qed.

(** The search compares keys. *)
Lemma holds_path_key p n : node_ok n → holds_path (bytes_of p) n = slot_used n && bool_decide (slot_key n = p).
Proof.
  intros (Hl & Hb & Hr). unfold holds_path, slot_used, rnode_slotted, slot_key, rnode_keyed.
  destruct (r_used n); [|done]. cbn [andb]. case_bool_decide as Hp.
  - destruct (Z.eqb_spec (r_len n) (Z.of_nat (length (bytes_of p)))) as [->|E]; cbn [andb].
    + by rewrite Nat2Z.id, Hp, chars_bytes_of, bool_decide_eq_true_2.
    + rewrite bool_decide_eq_false_2; [done|]. intros <-. apply E.
      rewrite bytes_of_chars, length_take by (by apply Forall_take). lia.
  - rewrite andb_false_r, bool_decide_eq_false_2; [done|]. intros <-. apply Hp.
    rewrite bytes_of_chars by (by apply Forall_take). rewrite length_take.
    replace (Z.to_nat (r_len n) `min` length (r_path n))%nat with (Z.to_nat (r_len n)) by lia. done.
Qed.

Lemma find_is_key p s : rvfs_wf s → vfs_find (bytes_of p) s = find_key p (rnodes s).
Proof.
  intros Hwf. apply first_index_ext. intros n Hn. apply holds_path_key.
  exact (proj1 (Forall_forall _ _) (rv_nodes _ Hwf) n Hn).
Qed.

Lemma in_abs p s : p ∈ rvfs_abs s ↔ is_Some (find_key p (rnodes s)).
Proof.
  unfold rvfs_abs. rewrite elem_of_dom. pose proof (table_map_None (rnodes s) p) as HN.
  destruct (table_map (rnodes s) !! p), (find_key p (rnodes s)); split; intros [? ?]; naive_solver.
Qed.

Lemma rvfs_abs_size s : rvfs_wf s → size (rvfs_abs s) = count_used (rnodes s).
Proof. intros Hwf. unfold rvfs_abs. rewrite size_dom. apply table_map_size, Hwf. Qed.

Lemma rcount_le s : rvfs_wf s → (count_used (rnodes s) <= 128)%nat.
Proof. intros Hwf. etrans; [apply count_if_le|]. by rewrite (rv_len _ Hwf). Qed.

Lemma slash_byte c : (Z.of_N (N_of_ascii c) =? 47) = Ascii.eqb c "/"%char.
Proof.
  destruct (Ascii.eqb_spec c "/"%char) as [->|Hne]; [done|]. apply Z.eqb_neq. intros E. apply Hne.
  rewrite <- (ascii_N_embedding c). by replace (N_of_ascii c) with 47%N by lia.
Qed.

Lemma vfs_path_valid_good p : vfs_path_valid (bytes_of p) = good_path p.
Proof.
  rewrite <- path_valid_good. unfold path_valid, vfs_path_valid. destruct p as [|c p]; [done|].
  change (bytes_of (String c p)) with (Z.of_N (N_of_ascii c) :: bytes_of p). cbn [String.get length String.length].
  rewrite bytes_of_length, slash_byte.
  destruct (Ascii.eqb c "/"%char); [|done]. cbn [negb andb orb Nat.eqb]. by rewrite Nat.ltb_antisym.
Qed.

(** ** Calls and the specification *)

Inductive path_op := PCreate (p : string) | PExists (p : string) | PRemove (p : string).

Definition c_op (o : path_op) : vfs_op :=
  match o with PCreate p => VCreate (Some p) | PExists p => VExists (Some p) | PRemove p => VRemove (Some p) end.

(** The C status of a boolean answer. *)
Definition status (b : bool) : Z := if b then 0 else -1.

Definition rust_pexec (o : path_op) (s : rvfs) : option (Z * rvfs) :=
  match o with
  | PCreate p => '(b, s') ← vfs_create (bytes_of p) s; Some (status b, s')
  | PExists p => Some (Z.b2z (vfs_exists (bytes_of p) s), s)
  | PRemove p => '(b, s') ← vfs_remove (bytes_of p) s; Some (status b, s')
  end.

Lemma new_node_ok p n :
  good_path p = true → node_ok n →
  let n' := {| r_used := true; r_len := wrap 8 (Z.of_nat (length (bytes_of p)));
               r_path := copy_bytes 0 (bytes_of p) (r_path n) |} in
  node_ok n' ∧ slot_key n' = p.
Proof.
  intros Hg (Hl & Hb & _). apply andb_true_iff in Hg as [_ Hlen%Nat.ltb_lt]. rewrite <- bytes_of_length in Hlen.
  unfold QOS_VFS_PATH_MAX in *. rewrite wrap_small by (unfold in_width; lia). cbv zeta.
  rewrite copy_bytes_eq by (cbn; lia). rewrite take_0. cbn [app plus]. split.
  - split; cbn [r_path r_len]; [rewrite length_app, length_drop; unfold QOS_VFS_PATH_MAX; lia|].
    split; [|unfold QOS_VFS_PATH_MAX; lia]. apply Forall_app. split; [apply bytes_of_range|by apply Forall_drop].
  - unfold slot_key, rnode_keyed. cbn [r_path r_len]. by rewrite Nat2Z.id, take_app_length, chars_bytes_of.
Qed.

Lemma path_create_refines p s :
  rvfs_wf s →
  ∃ r s', rust_pexec (PCreate p) s = Some (r, s') ∧ rvfs_wf s' ∧ vfs_spec (VCreate (Some p)) (rvfs_abs s) = (r, rvfs_abs s').
Proof.
  intros Hwf. cbn [rust_pexec vfs_spec]. unfold vfs_create. rewrite vfs_path_valid_good, (find_is_key p s Hwf).
  destruct (good_path p) eqn:Hg; cbn [negb andb]; [|by eexists _, s].
  pose proof (in_abs p s) as Hf. destruct (find_key p (rnodes s)) as [i|] eqn:Hp.
  { rewrite bool_decide_eq_false_2 by (rewrite Hf; intros Hn; by apply Hn). by eexists _, s. }
  rewrite bool_decide_eq_true_2 by (rewrite Hf; by intros [? ?]). cbn [andb].
  rewrite rvfs_abs_size by done. change (vfs_free_slot s) with (free_slot (rnodes s)).
  pose proof (free_slot_None (rnodes s)) as HN. pose proof (rcount_le s Hwf) as Hc.
  rewrite (rv_len _ Hwf) in HN. unfold QOS_VFS_MAX_NODES in HN.
  destruct (free_slot (rnodes s)) as [i|] eqn:Hi; last first.
  { assert (count_used (rnodes s) = 128%nat) as -> by by apply HN. by eexists _, s. }
  assert (count_used (rnodes s) ≠ 128%nat) as Hne by (intros E; by apply HN in E).
  rewrite (proj2 (Nat.ltb_lt _ _)) by lia. destruct (free_slot_Some _ _ Hi) as (b & Hb & Hub).
  rewrite Hb, (rv_count _ Hwf), checked_in by (unfold in_width; lia). cbn [mbind option_bind status].
  destruct (new_node_ok p b Hg (Forall_lookup_1 _ _ _ _ (rv_nodes _ Hwf) Hb)) as [Hok Hkey].
  set (n := {| r_used := true; r_len := _; r_path := _ |}) in *. rewrite <- Hkey in Hp.
  destruct (table_map_alloc (rnodes s) i b n (rv_unique _ Hwf) Hb Hub eq_refl Hp) as [Hu' Hm'].
  eexists _, _. split; [reflexivity|]. split; [|unfold rvfs_abs; cbn [rnodes]; by rewrite Hm', dom_insert_L, Hkey].
  split; cbn [rnodes rcount]; [by rewrite length_insert; apply Hwf|by apply Forall_insert; [apply Hwf|]|done|].
  rewrite (count_used_alloc _ _ _ n Hb Hub eq_refl). lia.
Qed.

Lemma path_remove_refines p s :
  rvfs_wf s →
  ∃ r s', rust_pexec (PRemove p) s = Some (r, s') ∧ rvfs_wf s' ∧ vfs_spec (VRemove (Some p)) (rvfs_abs s) = (r, rvfs_abs s').
Proof.
  intros Hwf. cbn [rust_pexec vfs_spec]. unfold vfs_remove. rewrite vfs_path_valid_good, (find_is_key p s Hwf).
  destruct (good_path p) eqn:Hg; cbn [negb andb]; [|by eexists _, s].
  pose proof (in_abs p s) as Hf. destruct (find_key p (rnodes s)) as [i|] eqn:Hp; last first.
  { rewrite bool_decide_eq_false_2 by (rewrite Hf; by intros [? ?]). by eexists _, s. }
  rewrite bool_decide_eq_true_2 by (rewrite Hf; eauto).
  destruct (find_key_Some _ _ _ Hp) as (b & Hb & Hub & _). pose proof (rcount_le s Hwf) as Hc.
  destruct (Forall_lookup_1 _ _ _ _ (rv_nodes _ Hwf) Hb) as (Hl & Hw & _).
  set (n := {| r_used := false; r_len := 0; r_path := <[0%nat := 0]> (r_path b) |}).
  pose proof (count_used_release _ _ _ n Hb Hub eq_refl) as Hcr.
  rewrite Hb, (rv_count _ Hwf), checked_in by (unfold in_width; lia). cbn [mbind option_bind status]. fold n.
  destruct (table_map_release (rnodes s) i p n (rv_unique _ Hwf) Hp eq_refl) as [Hu' Hm'].
  eexists _, _. split; [reflexivity|]. split; [|unfold rvfs_abs; cbn [rnodes]; by rewrite Hm', dom_delete_L].
  split; cbn [rnodes rcount]; [by rewrite length_insert; apply Hwf| |done|lia].
  apply Forall_insert; [apply Hwf|]. split; [by cbn; rewrite length_insert|]. split; [|cbn; unfold QOS_VFS_PATH_MAX; lia].
  apply Forall_insert; [done|]. unfold in_width. lia.
Qed.

Lemma path_step_refines o s :
  rvfs_wf s →
  ∃ r s', rust_pexec o s = Some (r, s') ∧ rvfs_wf s' ∧ vfs_spec (c_op o) (rvfs_abs s) = (r, rvfs_abs s').
Proof.
  intros Hwf. destruct o as [p|p|p]; [by apply path_create_refines| |by apply path_remove_refines].
  eexists _, s. split; [done|]. split; [done|]. cbn [c_op vfs_spec]. unfold vfs_exists.
  rewrite vfs_path_valid_good, (find_is_key p s Hwf). destruct (good_path p); cbn [negb andb]; [|done].
  rewrite (bool_decide_ext _ _ (in_abs p s)). by case_bool_decide.
Qed.

Fixpoint rust_prun (ops : list path_op) (s : rvfs) : option (list Z * rvfs) :=
  match ops with
  | [] => Some ([], s)
  | o :: ops' =>
      '(r, s1) ← rust_pexec o s;
      '(rs, s2) ← rust_prun ops' s1;
      Some (r :: rs, s2)
  end.

Lemma path_run_refines ops s :
  rvfs_wf s →
  ∃ rs s', rust_prun ops s = Some (rs, s') ∧ rvfs_wf s' ∧ vfs_spec_run (c_op <$> ops) (rvfs_abs s) = (rs, rvfs_abs s').
Proof.
  revert s. induction ops as [|o ops IH]; intros s Hwf; cbn [rust_prun fmap list_fmap vfs_spec_run]; [by eexists _, s|].
  destruct (path_step_refines o s Hwf) as (r & s1 & -> & Hwf1 & ->). destruct (IH s1 Hwf1) as (rs & s2 & E & Hwf2 & E2).
  cbn [mbind option_bind]. rewrite E, E2. cbn [mbind option_bind]. by eexists _, s2.
Qed.

Lemma vfs_reset_ok : rvfs_wf vfs_reset ∧ rvfs_abs vfs_reset = ∅.
Proof.
  split; [split|].
  - done.
  - apply Forall_replicate. split; [done|]. split; [by apply Forall_replicate|]. unfold QOS_VFS_PATH_MAX; cbn [rnode_zero r_len]; lia.
  - by apply unique_keys_replicate.
  - reflexivity.
  - unfold rvfs_abs. cbn [vfs_reset rnodes]. by rewrite table_map_replicate, dom_empty_L.
Qed.

Lemma mount_or_child_same p m :
  vfs_is_mount_or_child (bytes_of p) (bytes_of m) = path_is_mount_or_child p m.
Proof.
  unfold vfs_is_mount_or_child, path_is_mount_or_child. revert p. induction m as [|a m IH]; intros [|c p].
  - done.
  - cbn. by rewrite slash_byte.
  - done.
  - change (bytes_of (String c p)) with (Z.of_N (N_of_ascii c) :: bytes_of p).
    change (bytes_of (String a m)) with (Z.of_N (N_of_ascii a) :: bytes_of m).
    cbn [length take String.length String.get String.prefix lookup list_lookup Nat.eqb]. specialize (IH p).
    destruct (Ascii.ascii_dec a c) as [->|Hne].
    + rewrite <- IH. assert (∀ (x : Z) l k, bool_decide (x :: l = x :: k) = bool_decide (l = k)) as ->; [|done].
      intros x l k. apply bool_decide_ext. naive_solver.
    + rewrite bool_decide_eq_false_2; [done|]. intros [= E%N2Z.inj _]. apply Hne.
      rewrite <- (ascii_N_embedding a), <- E. apply ascii_N_embedding.
Qed.

(** The C answer for an optional file system kind. *)
Lemma fs_kind_same p : qos_vfs_fs_kind (Some p) = default (-1) (vfs_fs_kind (bytes_of p)).
Proof.
  unfold qos_vfs_fs_kind, vfs_fs_kind. rewrite vfs_path_valid_good, path_valid_good, !mount_or_child_same.
  by destruct (good_path p), (path_is_mount_or_child p "/tmp"), (path_is_mount_or_child p "/proc"), (path_is_mount_or_child p "/data").
Qed.

Lemma read_only_same p : qos_vfs_is_read_only (Some p) = default (-1) (Z.b2z <$> vfs_is_read_only (bytes_of p)).
Proof.
  unfold qos_vfs_is_read_only, vfs_is_read_only. rewrite fs_kind_same. unfold vfs_fs_kind. rewrite !mount_or_child_same.
  by destruct (vfs_path_valid _), (path_is_mount_or_child p "/tmp"), (path_is_mount_or_child p "/proc"), (path_is_mount_or_child p "/data").
Qed.

(** C29: the path tables of the two kernels agree.  From their reset states, any sequence of
    create, exists and remove calls on the Rust table returns without a panic, answers what
    the C table answers, and leaves the same paths and count, although the Rust table leaves
    the bytes of removed paths behind; and both put every path on the same file system, with
    the same right to write. *)
Theorem path_tables_agree ops p :
  (∃ rs s, rust_prun ops vfs_reset = Some (rs, s)
   ∧ (vfs_run (c_op <$> ops) qos_vfs_reset).1 = rs
   ∧ rvfs_abs s = vfs_abs (vfs_run (c_op <$> ops) qos_vfs_reset).2
   ∧ vfs_count s = qos_vfs_count (vfs_run (c_op <$> ops) qos_vfs_reset).2)
  ∧ qos_vfs_fs_kind (Some p) = default (-1) (vfs_fs_kind (bytes_of p))
  ∧ qos_vfs_is_read_only (Some p) = default (-1) (Z.b2z <$> vfs_is_read_only (bytes_of p)).
Proof.
  split; [|split; [apply fs_kind_same|apply read_only_same]].
  destruct vfs_reset_ok as [Hwf0 E0]. destruct (path_run_refines ops _ Hwf0) as (rs & s & Hrun & Hwf & Hs).
  pose proof (vfs_run_refines (c_op <$> ops) _ vfs_reset_wf) as Hc.
  destruct (vfs_run (c_op <$> ops) qos_vfs_reset) as [rc c]. destruct Hc as [Hcw Hc].
  assert (vfs_abs qos_vfs_reset = ∅) as E1.
  { unfold vfs_abs. cbn [qos_vfs_reset nodes]. by rewrite table_map_replicate, dom_empty_L. }
  rewrite E0 in Hs. rewrite E1, Hs in Hc. apply pair_equal_spec in Hc as [<- Habs].
  exists rs, s. split; [done|]. split; [done|]. split; [done|]. unfold vfs_count, qos_vfs_count. cbn [snd].
  rewrite (rv_count _ Hwf), (vw_count _ Hcw), <- (rvfs_abs_size s Hwf), <- (abs_size c Hcw), Habs. done.
Qed.
