(* ===== verification/RustNet.v ===== *)
(** * The network stack of the Rust kernel (rust-os/kernel/src/lib.rs: net)

    The parallel arrays of [NetState] are the lists of records of the C model (Packet, Udp,
    Tcp, Net), so the states of the two kernels can be compared by equality.  A slice
    argument is its list of bytes, an output slice its length; a result that is written
    through a slice is returned.  [None] around a result is a panic. *)

From S2P Require Import Prelude SlotTable RingQueue Packet Udp Tcp Net RustPmm.

Definition net_reset : net := qos_net_reset.

(** ** Packets *)

Definition net_enqueue_packet (data : list Z) (s : packets) : option (bool * packets) :=
  if (length data =? 0)%nat || (QOS_NET_MAX_PACKET <? Z.of_nat (length data)) then Some (false, s)
  else if (QOS_NET_MAX_QUEUE <=? g_count s)%nat then Some (false, s)
  else
    p ← ring s !! g_tail s;
    Some (true, {| ring := <[g_tail s := {| p_data := copy_bytes 0 data (p_data p);
                                            p_len := wrap 16 (Z.of_nat (length data)) |}]> (ring s);
                   g_head := g_head s; g_tail := (g_tail s + 1) mod QOS_NET_MAX_QUEUE;
                   g_count := g_count s + 1 |}).

(** [room] is the length of the output; the bytes it receives. *)
Definition net_dequeue_packet (room : nat) (s : packets) : option (option (list Z) * packets) :=
  if (room =? 0)%nat then Some (None, s)
  else if (g_count s =? 0)%nat then Some (None, s)
  else
    p ← ring s !! g_head s;
    if Z.of_nat room <? p_len p then Some (None, s)
    else
      Some (Some (take (Z.to_nat (p_len p)) (p_data p)),
            {| ring := <[g_head s := {| p_data := p_data p; p_len := 0 |}]> (ring s);
               g_head := (g_head s + 1) mod QOS_NET_MAX_QUEUE; g_tail := g_tail s; g_count := g_count s - 1 |}).

Definition net_queue_len (s : packets) : nat := g_count s.

(** ** ARP *)

(** One pass that looks for the address and remembers the first free slot. *)
Fixpoint arp_scan (ip : Z) (i : nat) (free : option nat) (l : list arp_entry_t) : nat + option nat :=
  match l with
  | [] => inr free
  | e :: l' =>
      if a_used e && (a_ip e =? ip) then inl i
      else arp_scan ip (S i) (match free with None => if a_used e then None else Some i | Some _ => free end) l'
  end.

Definition net_arp_put (ip : Z) (mac : list Z) (ttl_secs : Z) (s : list arp_entry_t) : bool * list arp_entry_t :=
  if (ip =? 0) || (ttl_secs =? 0) then (false, s)
  else
    match arp_scan ip 0 None s with
    | inl i =>
        (true, alter (λ e, {| a_used := a_used e; a_ip := a_ip e; a_mac := mac; a_ttl := ttl_secs |}) i s)
    | inr (Some idx) => (true, <[idx := {| a_used := true; a_ip := ip; a_mac := mac; a_ttl := ttl_secs |}]> s)
    | inr None => (false, s)
    end.

Definition net_arp_lookup (ip : Z) (s : list arp_entry_t) : option (list Z) :=
  if ip =? 0 then None
  else
    i ← first_index (λ e, a_used e && (a_ip e =? ip) && negb (a_ttl e =? 0)) s;
    a_mac <$> s !! i.

(** [arp_ttl_secs[i] -= elapsed_secs] cannot underflow in its branch. *)
Definition arp_age (elapsed : Z) (e : arp_entry_t) : arp_entry_t :=
  if a_used e then
    if a_ttl e <=? elapsed then arp_zero
    else {| a_used := a_used e; a_ip := a_ip e; a_mac := a_mac e; a_ttl := a_ttl e - elapsed |}
  else e.

Definition net_arp_tick (elapsed : Z) (s : list arp_entry_t) : list arp_entry_t :=
  if elapsed =? 0 then s else arp_age elapsed <$> s.

Definition net_arp_count (s : list arp_entry_t) : nat := count_if a_used s.

(** ** IPv4 and ICMP *)

Definition net_same_subnet (a b : Z) : bool :=
  Z.land a QOS_NET_IPV4_SUBNET_MASK =? Z.land b QOS_NET_IPV4_SUBNET_MASK.

Definition net_ipv4_route (dst_ip : Z) : option Z :=
  if dst_ip =? 0 then None
  else if net_same_subnet dst_ip QOS_NET_IPV4_LOCAL then Some dst_ip else Some QOS_NET_IPV4_GATEWAY.

(** The reply's bytes and its source. *)
Definition net_icmp_echo (dst_ip : Z) (payload : list Z) (room : nat) : option (list Z * Z) :=
  if (dst_ip =? 0) || (length payload =? 0)%nat || (QOS_NET_MAX_PACKET <? Z.of_nat (length payload))
     || (room <? length payload)%nat
  then None
  else
    _ ← net_ipv4_route dst_ip;
    if negb (dst_ip =? QOS_NET_IPV4_GATEWAY) && negb (dst_ip =? QOS_NET_IPV4_LOCAL) then None
    else Some (payload, dst_ip).

(** ** UDP *)

Definition net_udp_port_bound (port : Z) (s : udp) : bool :=
  bool_decide (is_Some (first_index (λ p, u_used p && (u_port p =? port)) (ports s))).

(** The two loops of the compaction are those of the C code. *)
Definition net_udp_drop_datagrams_for_port (port : Z) (s : udp) : udp :=
  let '(dst, ds) := drop_loop (g_udp_count s) 0 0 port (datagrams s) in
  let '(dst', ds') := clear_loop (g_udp_count s - dst) dst ds in
  {| ports := ports s; datagrams := ds'; g_udp_count := dst' |}.

Definition net_udp_bind (port : Z) (s : udp) : bool * udp :=
  if port <? Tcp.QOS_NET_PORT_MIN_DYNAMIC then (false, s)
  else if net_udp_port_bound port s then (false, s)
  else
    match first_index (λ p, negb (u_used p)) (ports s) with
    | Some i => (true, {| ports := <[i := {| u_used := true; u_port := port |}]> (ports s);
                          datagrams := datagrams s; g_udp_count := g_udp_count s |})
    | None => (false, s)
    end.

Definition net_udp_unbind (port : Z) (s : udp) : bool * udp :=
  if port <? Tcp.QOS_NET_PORT_MIN_DYNAMIC then (false, s)
  else
    match first_index (λ p, u_used p && (u_port p =? port)) (ports s) with
    | Some i =>
        (true, net_udp_drop_datagrams_for_port port
                 {| ports := <[i := port_zero]> (ports s); datagrams := datagrams s; g_udp_count := g_udp_count s |})
    | None => (false, s)
    end.

Definition net_udp_send (src_port src_ip dst_port : Z) (data : list Z) (s : udp) : option (option nat * udp) :=
  if (src_port <? Tcp.QOS_NET_PORT_MIN_DYNAMIC) || (src_ip =? 0) || (dst_port =? 0) || (length data =? 0)%nat
     || (QOS_NET_MAX_PACKET <? Z.of_nat (length data))
  then Some (None, s)
  else if negb (net_udp_port_bound dst_port s) || (QOS_NET_UDP_MAX_DATAGRAMS <=? g_udp_count s)%nat then Some (None, s)
  else
    old ← datagrams s !! g_udp_count s;
    Some (Some (length data),
          {| ports := ports s;
             datagrams := <[g_udp_count s :=
               {| d_used := true; d_dst_port := dst_port; d_src_port := src_port; d_src_ip := src_ip;
                  d_len := wrap 16 (Z.of_nat (length data)); d_data := copy_bytes 0 data (d_data old) |}]> (datagrams s);
             g_udp_count := g_udp_count s + 1 |}).

(** The bytes received, the source address and the source port. *)
Definition net_udp_recv (dst_port : Z) (room : nat) (s : udp) : option (option (list Z * Z * Z) * udp) :=
  if (dst_port =? 0) || (room =? 0)%nat then Some (None, s)
  else
    match first_index (λ d, d_used d && (d_dst_port d =? dst_port)) (take (g_udp_count s) (datagrams s)) with
    | None => Some (None, s)
    | Some i =>
        d ← datagrams s !! i;
        if Z.of_nat room <? d_len d then Some (None, s)
        else
          Some (Some (take (Z.to_nat (d_len d)) (d_data d), d_src_ip d, d_src_port d),
                {| ports := ports s;
                   datagrams := <[(g_udp_count s - 1)%nat := datagram_zero]>
                                  (shift_left (g_udp_count s - 1 - i) i (datagrams s));
                   g_udp_count := g_udp_count s - 1 |})
    end.

(** ** TCP *)

Definition net_tcp_listener_exists (port : Z) (s : tcp) : bool :=
  bool_decide (is_Some (first_index (λ l, l_used l && (l_port l =? port)) (listeners s))).

Definition saturating_mul (w x y : Z) : Z := Z.min (x * y) (2 ^ w - 1).

Definition net_tcp_next_rto (rto_ms : Z) : Z :=
  if 60000 <=? rto_ms then 60000
  else if 30000 <? rto_ms then 60000
  else saturating_mul 32 rto_ms 2.

Definition net_tcp_next_rto_ms (current_rto_ms : Z) : Z := net_tcp_next_rto current_rto_ms.

Definition net_tcp_listen (port : Z) (s : tcp) : option nat * tcp :=
  if port <? Tcp.QOS_NET_PORT_MIN_DYNAMIC then (None, s)
  else if net_tcp_listener_exists port s then (None, s)
  else
    match first_index (λ l, negb (l_used l)) (listeners s) with
    | Some i => (Some i, {| listeners := <[i := {| l_used := true; l_port := port |}]> (listeners s); conns := conns s |})
    | None => (None, s)
    end.

Definition net_tcp_unlisten (port : Z) (s : tcp) : bool * tcp :=
  if port <? Tcp.QOS_NET_PORT_MIN_DYNAMIC then (false, s)
  else
    match first_index (λ l, l_used l && (l_port l =? port)) (listeners s) with
    | Some i => (true, {| listeners := <[i := listener_zero]> (listeners s); conns := conns s |})
    | None => (false, s)
    end.

Definition net_tcp_connect (local_port remote_ip remote_port : Z) (s : tcp) : option nat * tcp :=
  if (local_port <? Tcp.QOS_NET_PORT_MIN_DYNAMIC) || (remote_ip =? 0) || (remote_port =? 0) then (None, s)
  else if negb (net_tcp_listener_exists remote_port s) then (None, s)
  else
    match first_index (λ c, negb (c_used c)) (conns s) with
    | Some i =>
        (Some i, {| listeners := listeners s;
                    conns := <[i := {| c_used := true; c_state := SYN_SENT; c_local_port := local_port;
                                       c_remote_port := remote_port; c_remote_ip := remote_ip; c_rto_ms := 500;
                                       c_retries := 0 |}]> (conns s) |})
    | None => (None, s)
    end.

Definition at_state (c : tcp_conn_t) (st : tcp_state) : bool := bool_decide (c_state c = st).

(** The chain of conditions on one connection. *)
Definition tcp_step_conn (event : Z) (c : tcp_conn_t) : bool * tcp_conn_t :=
  if (event =? EVT_TIMEOUT) && at_state c TIME_WAIT then (true, set_state CLOSED c)
  else if (event =? EVT_TIMEOUT) && at_state c SYN_SENT then
    if 5 <=? c_retries c then (true, set_state CLOSED c)
    else (true, {| c_used := c_used c; c_state := c_state c; c_local_port := c_local_port c;
                   c_remote_port := c_remote_port c; c_remote_ip := c_remote_ip c;
                   c_rto_ms := net_tcp_next_rto (c_rto_ms c); c_retries := saturating_add 8 (c_retries c) 1 |})
  else if at_state c LISTEN && (event =? EVT_RX_SYN) then (true, set_state SYN_RECEIVED c)
  else if at_state c SYN_SENT && (event =? EVT_RX_SYN_ACK) then (true, set_state ESTABLISHED c)
  else if at_state c SYN_RECEIVED && (event =? EVT_RX_ACK) then (true, set_state ESTABLISHED c)
  else if at_state c ESTABLISHED && (event =? EVT_APP_CLOSE) then (true, set_state FIN_WAIT_1 c)
  else if at_state c ESTABLISHED && (event =? EVT_RX_FIN) then (true, set_state CLOSE_WAIT c)
  else if at_state c FIN_WAIT_1 && (event =? EVT_RX_ACK) then (true, set_state FIN_WAIT_2 c)
  else if at_state c FIN_WAIT_1 && (event =? EVT_RX_FIN) then (true, set_state CLOSING c)
  else if at_state c FIN_WAIT_2 && (event =? EVT_RX_FIN) then (true, set_state TIME_WAIT c)
  else if at_state c CLOSE_WAIT && (event =? EVT_APP_CLOSE) then (true, set_state LAST_ACK c)
  else if at_state c CLOSING && (event =? EVT_RX_ACK) then (true, set_state TIME_WAIT c)
  else if at_state c LAST_ACK && (event =? EVT_RX_ACK) then (true, set_state CLOSED c)
  else (false, c).

(** [idx >= QOS_NET_TCP_MAX_CONNS || tcp_conn_used[idx] == 0] *)
Definition tcp_live (conn_id : Z) (s : tcp) : option tcp_conn_t :=
  if Z.of_nat QOS_NET_TCP_MAX_CONNS <=? conn_id then None
  else c ← conns s !! Z.to_nat conn_id; if c_used c then Some c else None.

Definition net_tcp_step (conn_id event : Z) (s : tcp) : bool * tcp :=
  match tcp_live conn_id s with
  | None => (false, s)
  | Some c =>
      let '(ok, c') := tcp_step_conn event c in
      (ok, {| listeners := listeners s; conns := <[Z.to_nat conn_id := c']> (conns s) |})
  end.

Definition net_tcp_state (conn_id : Z) (s : tcp) : option Z :=
  c ← tcp_live conn_id s; Some (state_code (c_state c)).

Definition net_tcp_rto (conn_id : Z) (s : tcp) : option Z := c ← tcp_live conn_id s; Some (c_rto_ms c).

Definition net_tcp_retries (conn_id : Z) (s : tcp) : option Z := c ← tcp_live conn_id s; Some (c_retries c).

(** ** Calls

    An answer: a failure, or a value with the bytes and numbers written through pointers. *)

Inductive answer := Failed | Done (value : Z) (bytes nums : list Z).

Inductive net_op :=
| NEnqueue (data : list Z) | NDequeue (room : nat)
| NArpPut (ip : Z) (mac : list Z) (ttl : Z) | NArpLookup (ip : Z) | NArpTick (elapsed : Z)
| NRoute (ip : Z) | NEcho (ip : Z) (payload : list Z) (room : nat)
| NBind (port : Z) | NUnbind (port : Z)
| NSend (src_port src_ip dst_port : Z) (data : list Z) | NRecv (port : Z) (room : nat)
| NListen (port : Z) | NUnlisten (port : Z) | NConnect (local_port ip remote_port : Z)
| NStep (conn event : Z) | NState (conn : Z) | NRto (conn : Z) | NRetries (conn : Z).

Definition of_flag (b : bool) : answer := if b then Done 0 [] [] else Failed.
Definition of_value (r : option Z) : answer := match r with Some v => Done v [] [] | None => Failed end.

Definition with_arp (a : list arp_entry_t) (n : net) : net :=
  {| n_packets := n_packets n; n_arp := a; n_udp := n_udp n; n_tcp := n_tcp n |}.

Definition rust_nexec (o : net_op) (n : net) : option (answer * net) :=
  match o with
  | NEnqueue d => '(b, p) ← net_enqueue_packet d (n_packets n); Some (of_flag b, with_packets p n)
  | NDequeue room =>
      '(r, p) ← net_dequeue_packet room (n_packets n);
      Some (match r with Some bs => Done (Z.of_nat (length bs)) bs [] | None => Failed end, with_packets p n)
  | NArpPut ip mac ttl => let '(b, a) := net_arp_put ip mac ttl (n_arp n) in Some (of_flag b, with_arp a n)
  | NArpLookup ip => Some (match net_arp_lookup ip (n_arp n) with Some m => Done 0 m [] | None => Failed end, n)
  | NArpTick e => Some (Done 0 [] [], with_arp (net_arp_tick e (n_arp n)) n)
  | NRoute ip => Some (match net_ipv4_route ip with Some hop => Done 0 [] [hop] | None => Failed end, n)
  | NEcho ip bs room =>
      Some (match net_icmp_echo ip bs room with
            | Some (r, src) => Done (Z.of_nat (length r)) r [src] | None => Failed end, n)
  | NBind p => let '(b, u) := net_udp_bind p (n_udp n) in Some (of_flag b, with_udp u n)
  | NUnbind p => let '(b, u) := net_udp_unbind p (n_udp n) in Some (of_flag b, with_udp u n)
  | NSend sp ip dp d =>
      '(r, u) ← net_udp_send sp ip dp d (n_udp n); Some (of_value (Z.of_nat <$> r), with_udp u n)
  | NRecv p room =>
      '(r, u) ← net_udp_recv p room (n_udp n);
      Some (match r with Some (bs, ip, sp) => Done (Z.of_nat (length bs)) bs [ip; sp] | None => Failed end, with_udp u n)
  | NListen p => let '(r, t) := net_tcp_listen p (n_tcp n) in Some (of_value (Z.of_nat <$> r), with_tcp t n)
  | NUnlisten p => let '(b, t) := net_tcp_unlisten p (n_tcp n) in Some (of_flag b, with_tcp t n)
  | NConnect lp ip rp => let '(r, t) := net_tcp_connect lp ip rp (n_tcp n) in Some (of_value (Z.of_nat <$> r), with_tcp t n)
  | NStep c e => let '(b, t) := net_tcp_step c e (n_tcp n) in Some (of_flag b, with_tcp t n)
  | NState c => Some (of_value (net_tcp_state c (n_tcp n)), n)
  | NRto c => Some (of_value (net_tcp_rto c (n_tcp n)), n)
  | NRetries c => Some (of_value (net_tcp_retries c (n_tcp n)), n)
  end.

(** A C status and the outputs that go with success. *)
Definition of_status (r : Z) (bytes nums : list Z) : answer := if r <? 0 then Failed else Done r bytes nums.

Definition c_nexec (o : net_op) (n : net) : answer * net :=
  match o with
  | NEnqueue d =>
      let '(r, p) := qos_net_enqueue_packet (Some d) (Z.of_nat (length d)) (n_packets n) in
      (of_status r [] [], with_packets p n)
  | NDequeue room =>
      let '(r, bs, p) := qos_net_dequeue_packet true (Z.of_nat room) (n_packets n) in (of_status r bs [], with_packets p n)
  | NArpPut ip mac ttl => let '(r, a) := qos_net_arp_put ip (Some mac) ttl (n_arp n) in (of_status r [] [], with_arp a n)
  | NArpLookup ip => let '(r, m) := qos_net_arp_lookup ip true (n_arp n) in (of_status r (default [] m) [], n)
  | NArpTick e => (Done 0 [] [], with_arp (qos_net_arp_tick e (n_arp n)) n)
  | NRoute ip => let '(r, hop) := qos_net_ipv4_route ip true in (of_status r [] (option_list hop), n)
  | NEcho ip bs room =>
      let '(r, out, src) := qos_net_icmp_echo ip (Some bs) (Z.of_nat (length bs)) true (Z.of_nat room) in
      (of_status r out (option_list src), n)
  | NBind p => let '(r, u) := qos_net_udp_bind p (n_udp n) in (of_status r [] [], with_udp u n)
  | NUnbind p => let '(r, u) := qos_net_udp_unbind p (n_udp n) in (of_status r [] [], with_udp u n)
  | NSend sp ip dp d =>
      let '(r, u) := qos_net_udp_send sp ip dp (Some d) (Z.of_nat (length d)) (n_udp n) in
      (of_status r [] [], with_udp u n)
  | NRecv p room =>
      let '(r, out, u) := qos_net_udp_recv p true (Z.of_nat room) (n_udp n) in
      (match out with Some (bs, ip, sp) => of_status r bs [ip; sp] | None => of_status r [] [] end, with_udp u n)
  | NListen p => let '(r, t) := qos_net_tcp_listen p (n_tcp n) in (of_status r [] [], with_tcp t n)
  | NUnlisten p => let '(r, t) := qos_net_tcp_unlisten p (n_tcp n) in (of_status r [] [], with_tcp t n)
  | NConnect lp ip rp => let '(r, t) := qos_net_tcp_connect lp ip rp (n_tcp n) in (of_status r [] [], with_tcp t n)
  | NStep c e => let '(r, t) := qos_net_tcp_step c e (n_tcp n) in (of_status r [] [], with_tcp t n)
  | NState c => (of_status (qos_net_tcp_state c (n_tcp n)) [] [], n)
  | NRto c => (of_status (qos_net_tcp_rto c (n_tcp n)) [] [], n)
  | NRetries c => (of_status (qos_net_tcp_retries c (n_tcp n)) [] [], n)
  end.

(** ** Each call against its C counterpart *)

Lemma enqueue_agrees d s :
  packets_wf s →
  let '(r, s') := qos_net_enqueue_packet (Some d) (Z.of_nat (length d)) s in
  net_enqueue_packet d s = Some (0 <=? r, s') ∧ packets_wf s' ∧ r <= 0.
Proof.
  intros Hwf. pose proof (enqueue_refines d (Z.of_nat (length d)) s Hwf ltac:(cbn [pk_op_ok]; lia)) as Hr. cbn [pk_exec] in Hr.
  destruct (qos_net_enqueue_packet _ _ s) as [r s'] eqn:E. destruct Hr as [Hwf' _].
  unfold qos_net_enqueue_packet, net_enqueue_packet in *. change Packet.QOS_NET_MAX_PACKET with QOS_NET_MAX_PACKET in *.
  destruct (Nat.eqb_spec (length d) 0) as [El|El]; [rewrite El in E; by simplify_eq/=|].
  rewrite (proj2 (Z.eqb_neq _ 0)) in E by lia. cbn [orb] in *.
  destruct (Z.ltb_spec QOS_NET_MAX_PACKET (Z.of_nat (length d))) as [|Hd]; [by simplify_eq|].
  destruct (_ <=? _)%nat; [by simplify_eq|].
  pose proof (pw_idx _ Hwf) as (Hh & Hc & Ht).
  destruct (lookup_lt_is_Some_2 (ring s) (g_tail s)) as [p Hp].
  { rewrite Ht. apply Nat.mod_upper_bound. rewrite (pw_ring _ Hwf). unfold QOS_NET_MAX_QUEUE. lia. }
  rewrite Hp in *. cbn [mbind option_bind default] in *. injection E as <- <-. split; [|done].
  pose proof (Forall_lookup_1 _ _ _ _ (pw_buf _ Hwf) Hp) as Hb. cbn in Hb.
  change Packet.QOS_NET_MAX_PACKET with QOS_NET_MAX_PACKET in Hb.
  rewrite copy_bytes_eq by (rewrite Hb; unfold QOS_NET_MAX_PACKET in *; lia). unfold memcpy. rewrite Nat2Z.id, take_0, (take_ge d) by lia. done.
Qed.

Lemma dequeue_agrees room s :
  packets_wf s →
  let '(r, bs, s') := qos_net_dequeue_packet true (Z.of_nat room) s in
  net_dequeue_packet room s = Some (if 0 <=? r then Some bs else None, s') ∧ packets_wf s'
  ∧ (0 <= r → r = Z.of_nat (length bs)).
Proof.
  intros Hwf. pose proof (dequeue_refines (Z.of_nat room) s Hwf ltac:(cbn [pk_op_ok]; lia)) as Hr. cbn [pk_exec] in Hr.
  destruct (qos_net_dequeue_packet true _ s) as [[r bs] s'] eqn:E. destruct Hr as [Hwf' Hsp].
  assert (0 <= r → r = Z.of_nat (length bs)) as Hlen.
  { cbn [pk_spec] in Hsp. destruct (contents s) as [|x q]; [|destruct (_ <=? _)]; injection Hsp as <- <- _; intros ?; lia. }
  split; [|done]. unfold qos_net_dequeue_packet, net_dequeue_packet in *. cbn [negb orb] in E.
  destruct (Nat.eqb_spec room 0) as [->|Hroom]; [by simplify_eq/=|]. rewrite (proj2 (Z.eqb_neq _ 0)) in E by lia.
  destruct (g_count s) as [|k] eqn:Hk; [by simplify_eq/=|]. cbn [Nat.eqb] in *. pose proof (pw_idx _ Hwf) as Hidx.
  destruct (lookup_lt_is_Some_2 (ring s) (g_head s)) as [p Hp]; [apply Hidx|]. rewrite Hp in *.
  change (default slot_zero (Some p)) with p in E. cbn [mbind option_bind] in *. destruct (_ <? _); [by simplify_eq|].
  apply pair_equal_spec in E as [E <-]. apply pair_equal_spec in E as [<- <-]. rewrite (proj2 (Z.leb_le 0 _)); [done|].
  pose proof (pw_len _ Hwf) as Hl. rewrite Hk in Hidx, Hl. rewrite (ring_list_pop _ _ _ _ _ Hidx Hp) in Hl.
  apply Forall_cons in Hl as [Hpos _]. cbn beta in Hpos. lia.
Qed.

Lemma eqb_decide (x y : Z) : (x =? y) = bool_decide (x = y).
Proof. destruct (Z.eqb_spec x y); [by rewrite bool_decide_eq_true_2|by rewrite bool_decide_eq_false_2]. Qed.

Lemma arp_scan_spec ip i free l :
  arp_scan ip i free l
  = match find_key ip l with
    | Some j => inl (i + j)%nat
    | None => inr (match free with Some f => Some f | None => (λ j, i + j)%nat <$> free_slot l end)
    end.
Proof.
  revert i free. induction l as [|e l IH]; intros i free; cbn [arp_scan]; [by destruct free|].
  unfold find_key, free_slot in *. cbn [first_index]. unfold slot_used, arp_slotted, slot_key, arp_keyed in *.
  rewrite <- (eqb_decide (a_ip e)).
  destruct (a_used e && (a_ip e =? ip)); [by rewrite Nat.add_0_r|]. rewrite IH.
  destruct (first_index (λ a, a_used a && bool_decide (a_ip a = ip)) l) as [j|]; cbn [fmap option_fmap option_map].
  { by replace (S i + j)%nat with (i + S j)%nat by lia. }
  destruct free; [done|]. destruct (a_used e); cbn [negb fmap option_fmap option_map]; [|by rewrite Nat.add_0_r].
  destruct (first_index (λ a, negb (a_used a)) l); [|done]. cbn. do 2 f_equal. lia.
Qed.

Lemma arp_put_agrees ip mac ttl s :
  let '(r, s') := qos_net_arp_put ip (Some mac) ttl s in net_arp_put ip mac ttl s = (0 <=? r, s') ∧ r <= 0.
Proof.
  unfold qos_net_arp_put, net_arp_put. destruct (_ || _); [done|]. rewrite arp_scan_spec.
  destruct (find_key ip s) as [i|] eqn:Hf; cbn [plus].
  - split; [|done]. f_equal. destruct (find_key_Some _ _ _ Hf) as (e & He & Hu & Hk). 
    unfold slot_used, arp_slotted, slot_key, arp_keyed in *. rewrite list_insert_alter.
    apply (list_alter_ext _ _ s s i); [|done]. intros x Hx. simplify_eq. by rewrite Hu.
  - by destruct (free_slot s).
Qed.

Lemma arp_lookup_agrees ip s :
  let '(r, m) := qos_net_arp_lookup ip true s in
  (match net_arp_lookup ip s with Some m => Done 0 m [] | None => Failed end) = of_status r (default [] m) [].
Proof.
  unfold qos_net_arp_lookup, net_arp_lookup. destruct (ip =? 0); cbn [negb orb]; [done|].
  destruct (first_index _ s) as [i|] eqn:Hi; [|done]. cbn [mbind option_bind].
  apply first_index_lookup in Hi as (e & -> & _). done.
Qed.

Lemma echo_agrees ip bs room :
  let '(r, out, src) := qos_net_icmp_echo ip (Some bs) (Z.of_nat (length bs)) true (Z.of_nat room) in
  (match net_icmp_echo ip bs room with Some (r, src) => Done (Z.of_nat (length r)) r [src] | None => Failed end)
  = of_status r out (option_list src).
Proof.
  unfold qos_net_icmp_echo, net_icmp_echo, net_ipv4_route, qos_net_ipv4_route.
  change Packet.QOS_NET_MAX_PACKET with QOS_NET_MAX_PACKET.
  destruct (ip =? 0) eqn:E0; cbn [orb negb]; [done|].
  assert ((Z.of_nat (length bs) =? 0) = (length bs =? 0)%nat) as ->.
  { destruct (Nat.eqb_spec (length bs) 0); [apply Z.eqb_eq|apply Z.eqb_neq]; lia. }
  assert ((Z.of_nat room <? Z.of_nat (length bs)) = (room <? length bs)%nat) as ->.
  { destruct (Nat.ltb_spec room (length bs)); [apply Z.ltb_lt|apply Z.ltb_ge]; lia. }
  destruct (_ || _ || _); [done|]. cbn [fst negb Z.eqb].
  assert (∀ b : bool, (if b then Some ip else Some QOS_NET_IPV4_GATEWAY) ≫= (λ _, if negb (ip =? QOS_NET_IPV4_GATEWAY) && negb (ip =? QOS_NET_IPV4_LOCAL) then None else Some (bs, ip))
    = (if negb (ip =? QOS_NET_IPV4_GATEWAY) && negb (ip =? QOS_NET_IPV4_LOCAL) then None else Some (bs, ip))) as -> by by intros [].
  destruct (_ && _); [done|]. unfold of_status. rewrite (proj2 (Z.ltb_ge _ 0)), Nat2Z.id, take_ge by lia. done.
Qed.

Lemma port_find port l : first_index (λ p, u_used p && (u_port p =? port)) l = find_key port l.
Proof. apply first_index_ext. intros a _. by rewrite eqb_decide. Qed.

Lemma listener_find port l : first_index (λ p, l_used p && (l_port p =? port)) l = find_key port l.
Proof. apply first_index_ext. intros a _. by rewrite eqb_decide. Qed.

Lemma bound_agrees port s : net_udp_port_bound port s = udp_port_is_bound port s.
Proof. unfold net_udp_port_bound, udp_port_is_bound. rewrite port_find. by destruct (find_key port (ports s)). Qed.

Lemma listener_exists_agrees port s : net_tcp_listener_exists port s = tcp_listener_exists port s.
Proof.
  unfold net_tcp_listener_exists, tcp_listener_exists. rewrite listener_find. by destruct (find_key port (listeners s)).
Qed.

(** Only dynamic ports are in the tables. *)
Definition ports_ok (l : list udp_port_t) : Prop := Forall (λ p, u_used p = true → 1024 <= u_port p) l.
Definition listeners_ok (l : list listener) : Prop := Forall (λ p, l_used p = true → 1024 <= l_port p) l.

Lemma bind_agrees port s :
  ports_ok (ports s) →
  let '(r, s') := qos_net_udp_bind port s in
  net_udp_bind port s = (0 <=? r, s') ∧ r <= 0 ∧ ports_ok (ports s').
Proof.
  intros Hp. unfold qos_net_udp_bind, net_udp_bind. rewrite bound_agrees.
  change Tcp.QOS_NET_PORT_MIN_DYNAMIC with 1024. change QOS_NET_PORT_MIN_DYNAMIC with 1024.
  change Udp.QOS_NET_PORT_MIN_DYNAMIC with 1024.
  destruct (Z.ltb_spec port 1024); cbn [orb]; [done|]. destruct (udp_port_is_bound port s); [done|].
  change (first_index (λ p, negb (u_used p)) (ports s)) with (free_slot (ports s)).
  destruct (free_slot (ports s)) as [i|]; [|done]. split; [done|]. split; [done|].
  apply Forall_insert; [done|]. by intros _.
Qed.

Lemma small_port_unbound port l : ports_ok l → port < 1024 → find_key port l = None.
Proof.
  intros Hl Hp. destruct (find_key port l) as [i|] eqn:E; [|done].
  destruct (find_key_Some _ _ _ E) as (p & Hi & Hu & Hk). specialize (Forall_lookup_1 _ _ _ _ Hl Hi Hu).
  unfold slot_key, port_keyed in Hk. lia.
Qed.

Lemma small_port_no_listener port l : listeners_ok l → port < 1024 → find_key port l = None.
Proof.
  intros Hl Hp. destruct (find_key port l) as [i|] eqn:E; [|done].
  destruct (find_key_Some _ _ _ E) as (p & Hi & Hu & Hk). specialize (Forall_lookup_1 _ _ _ _ Hl Hi Hu).
  unfold slot_key, listener_keyed in Hk. lia.
Qed.

Lemma drop_ports port s : ports (udp_drop_port_datagrams port s) = ports s.
Proof. unfold udp_drop_port_datagrams. destruct (drop_loop _ _ _ _ _). by destruct (clear_loop _ _ _). Qed.

Lemma unbind_agrees port s :
  ports_ok (ports s) →
  let '(r, s') := qos_net_udp_unbind port s in
  net_udp_unbind port s = (0 <=? r, s') ∧ r <= 0 ∧ ports_ok (ports s').
Proof.
  intros Hp. unfold qos_net_udp_unbind, net_udp_unbind. rewrite port_find.
  change Tcp.QOS_NET_PORT_MIN_DYNAMIC with 1024.
  destruct (Z.ltb_spec port 1024) as [Hs|Hs]; [by rewrite (small_port_unbound port _ Hp Hs)|].
  destruct (find_key port (ports s)) as [i|]; [|done]. split; [done|]. split; [done|].
  rewrite drop_ports. by apply Forall_insert.
Qed.

(** A well-formed datagram for a port nobody has bound: the C kernel drops it and reports it
    sent, the Rust kernel refuses it. *)
Definition unbound_send (sp ip dp : Z) (d : list Z) (s : udp) : bool :=
  negb ((sp <? 1024) || (ip =? 0) || (dp =? 0) || (length d =? 0)%nat || (1500 <? Z.of_nat (length d)))
  && negb (udp_port_is_bound dp s).

Lemma send_agrees sp ip dp d s :
  udp_wf s →
  let '(r, s') := qos_net_udp_send sp ip dp (Some d) (Z.of_nat (length d)) s in
  ports s' = ports s
  ∧ if unbound_send sp ip dp d s
    then net_udp_send sp ip dp d s = Some (None, s') ∧ r = Z.of_nat (length d) ∧ s' = s
    else net_udp_send sp ip dp d s = Some (if 0 <=? r then Some (length d) else None, s')
         ∧ (0 <= r → r = Z.of_nat (length d)).
Proof.
  intros Hwf. unfold qos_net_udp_send, net_udp_send, unbound_send. rewrite bound_agrees.
  change Tcp.QOS_NET_PORT_MIN_DYNAMIC with 1024. change Udp.QOS_NET_PORT_MIN_DYNAMIC with 1024.
  change QOS_NET_PORT_MIN_DYNAMIC with 1024. change QOS_NET_MAX_PACKET with 1500.
  assert ((Z.of_nat (length d) =? 0) = (length d =? 0)%nat) as ->.
  { destruct (Nat.eqb_spec (length d) 0); [apply Z.eqb_eq|apply Z.eqb_neq]; lia. }
  destruct (_ || _ || _ || _ || (1500 <? _)) eqn:Hv; cbn [negb andb]; [done|].
  apply orb_false_iff in Hv as [_ Hd%Z.ltb_ge].
  destruct (udp_port_is_bound dp s); cbn [negb orb andb]; [|done].
  destruct (Nat.leb_spec QOS_NET_UDP_MAX_DATAGRAMS (g_udp_count s)) as [Hc|Hc]; [done|]. split; [done|].
  destruct (lookup_lt_is_Some_2 (datagrams s) (g_udp_count s)) as [old Ho]; [by rewrite (uw_len _ Hwf)|].
  rewrite Ho. cbn [mbind option_bind]. change (default datagram_zero (Some old)) with old.
  rewrite (proj2 (Z.leb_le 0 _)) by lia. split; [|done].
  destruct (Forall_lookup_1 _ _ _ _ (uw_ok _ Hwf) Ho) as [Hb _].
  rewrite copy_bytes_eq by lia. by rewrite take_0, Nat2Z.id, (take_ge d) by lia.
Qed.

Lemma recv_agrees port room s :
  udp_wf s →
  let '(r, out, s') := qos_net_udp_recv port true (Z.of_nat room) s in
  ports s' = ports s
  ∧ net_udp_recv port room s = Some (out, s')
  ∧ match out with Some (bs, _, _) => r = Z.of_nat (length bs) | None => r = -1 end.
Proof.
  intros Hwf. unfold qos_net_udp_recv, net_udp_recv. cbn [negb]. rewrite orb_false_r.
  assert ((Z.of_nat room =? 0) = (room =? 0)%nat) as ->.
  { destruct (Nat.eqb_spec room 0); [apply Z.eqb_eq|apply Z.eqb_neq]; lia. }
  destruct (_ || _); [done|]. change (λ d, d_used d && (d_dst_port d =? port)) with (matches port).
  destruct (first_index (matches port) _) as [i|] eqn:Hi; [|done].
  apply first_index_lookup in Hi as (d & Hd & Hm). apply lookup_take_Some in Hd as [Hd _]. rewrite Hd.
  cbn [mbind option_bind]. change (default datagram_zero (Some d)) with d.
  destruct (_ <? _); [done|]. split; [done|]. split; [done|]. cbn.
  destruct (Forall_lookup_1 _ _ _ _ (uw_ok _ Hwf) Hd) as [Hb Hl].
  apply andb_true_iff in Hm as [Hu _]. specialize (Hl Hu). rewrite length_take, Hb. lia.
Qed.

(** *** TCP *)

Definition conn_bounds (c : tcp_conn_t) : Prop := 0 <= c_retries c <= 5 ∧ 0 <= c_rto_ms c <= 60000.

Lemma next_rto_agrees r : 0 <= r → net_tcp_next_rto r = tcp_next_rto r ∧ 0 <= tcp_next_rto r <= 60000.
Proof.
  intros Hr. unfold net_tcp_next_rto, tcp_next_rto, saturating_mul.
  destruct (Z.leb_spec 60000 r); [lia|]. destruct (Z.ltb_spec 30000 r); [lia|].
  rewrite wrap_small by (unfold in_width; lia). lia.
Qed.

Lemma step_conn_agrees event c :
  conn_bounds c →
  let '(r, c') := conn_step event c in
  tcp_step_conn event c = (0 <=? r, c') ∧ r <= 0 ∧ conn_bounds c'.
Proof.
  intros [Hr Ht]. unfold conn_step, tcp_step_conn, at_state.
  destruct (next_rto_agrees (c_rto_ms c)) as [Hn Hb]; [lia|].
  destruct ((event =? EVT_TIMEOUT) && bool_decide (c_state c = TIME_WAIT)); [done|].
  destruct ((event =? EVT_TIMEOUT) && bool_decide (c_state c = SYN_SENT)).
  - destruct (Z.leb_spec 5 (c_retries c)); [done|]. split; [|split; [done|split; [|done]]].
    + unfold back_off, saturating_add. rewrite Hn, wrap_small by (unfold in_width; lia).
      by rewrite Z.min_l by lia.
    + cbn. rewrite wrap_small by (unfold in_width; lia). lia.
  - unfold switch. destruct (c_state c); cbn [bool_decide decide_rel andb];
      repeat first [rewrite bool_decide_eq_false_2 by done|rewrite bool_decide_eq_true_2 by done]; cbn [andb];
      repeat (destruct (event =? _); [done|]); done.
Qed.

Lemma live_agrees id s :
  in_width 16 id → live_conn id s = (λ c, (Z.to_nat id, c)) <$> tcp_live id s.
Proof.
  intros [H0 H1]. unfold live_conn, tcp_live. rewrite (proj2 (Z.ltb_ge id 0)), wrap_small by (unfold in_width in *; lia).
  cbn [orb]. destruct (_ <=? _); [done|]. destruct (conns s !! Z.to_nat id) as [c|]; [|done]. cbn.
  by destruct (c_used c).
Qed.

Lemma tcp_live_Some id s c : tcp_live id s = Some c → conns s !! Z.to_nat id = Some c.
Proof.
  unfold tcp_live. destruct (_ <=? _); [done|]. destruct (conns s !! Z.to_nat id) as [x|]; [|done]. cbn.
  by destruct (c_used x); intros [= ->].
Qed.

Record tcp_ok (s : tcp) : Prop := { to_listeners : listeners_ok (listeners s); to_conns : Forall conn_bounds (conns s) }.

Lemma listen_agrees port s :
  tcp_ok s →
  let '(r, s') := qos_net_tcp_listen port s in
  tcp_ok s' ∧ ∃ i, net_tcp_listen port s = (i, s') ∧ of_value (Z.of_nat <$> i) = of_status r [] [].
Proof.
  intros Hs. unfold qos_net_tcp_listen, net_tcp_listen. rewrite listener_exists_agrees.
  change Tcp.QOS_NET_PORT_MIN_DYNAMIC with 1024. destruct (Z.ltb_spec port 1024); cbn [orb]; [by eauto|].
  destruct (tcp_listener_exists port s); [by eauto|].
  change (first_index (λ l, negb (l_used l)) (listeners s)) with (free_slot (listeners s)).
  destruct (free_slot (listeners s)) as [i|]; [|by eauto]. split.
  - destruct Hs. split; [|done]. apply Forall_insert; [done|]. by intros _.
  - exists (Some i). split; [done|]. cbn. unfold of_status. by rewrite (proj2 (Z.ltb_ge _ 0)) by lia.
Qed.

Lemma unlisten_agrees port s :
  tcp_ok s →
  let '(r, s') := qos_net_tcp_unlisten port s in
  tcp_ok s' ∧ net_tcp_unlisten port s = (0 <=? r, s') ∧ r <= 0.
Proof.
  intros Hs. unfold qos_net_tcp_unlisten, net_tcp_unlisten. rewrite listener_find.
  change Tcp.QOS_NET_PORT_MIN_DYNAMIC with 1024.
  destruct (Z.ltb_spec port 1024) as [Hp|Hp]; [by rewrite (small_port_no_listener port _ (to_listeners _ Hs) Hp)|].
  destruct (find_key port (listeners s)) as [i|]; [|done]. split; [|done].
  destruct Hs. split; [|done]. by apply Forall_insert.
Qed.

Lemma connect_agrees lp ip rp s :
  tcp_ok s →
  let '(r, s') := qos_net_tcp_connect lp ip rp s in
  tcp_ok s' ∧ ∃ i, net_tcp_connect lp ip rp s = (i, s') ∧ of_value (Z.of_nat <$> i) = of_status r [] [].
Proof.
  intros Hs. unfold qos_net_tcp_connect, net_tcp_connect. rewrite listener_exists_agrees.
  destruct ((lp <? _) || (ip =? 0) || (rp =? 0)); cbn [orb]; [by eauto|]. destruct (tcp_listener_exists rp s); cbn [negb]; [|by eauto].
  change (first_index (λ c, negb (c_used c)) (conns s)) with (free_slot (conns s)).
  destruct (free_slot (conns s)) as [i|]; [|by eauto]. split.
  - destruct Hs. split; [done|]. apply Forall_insert; [done|]. split; cbn; lia.
  - exists (Some i). split; [done|]. cbn. unfold of_status. by rewrite (proj2 (Z.ltb_ge _ 0)) by lia.
Qed.

Lemma tcp_step_agrees id event s :
  tcp_ok s → in_width 16 id →
  let '(r, s') := qos_net_tcp_step id event s in
  tcp_ok s' ∧ net_tcp_step id event s = (0 <=? r, s') ∧ r <= 0.
Proof.
  intros Hs Hid. unfold qos_net_tcp_step, net_tcp_step. rewrite live_agrees by done.
  destruct (tcp_live id s) as [c|] eqn:Hc; cbn [fmap option_fmap option_map]; [|done].
  apply tcp_live_Some in Hc. pose proof (step_conn_agrees event c (Forall_lookup_1 _ _ _ _ (to_conns _ Hs) Hc)) as H.
  destruct (conn_step event c) as [r c']. destruct H as (-> & Hr & Hb). split; [|done].
  destruct Hs. split; [done|]. by apply Forall_insert.
Qed.

(** What a connection is asked for fits an [int]. *)
Lemma query_agrees (f : tcp_conn_t → Z) (g : tcp_conn_t → Z) id s :
  tcp_ok s → in_width 16 id → (∀ c, conn_bounds c → g c = f c ∧ 0 <= f c) →
  of_value (c ← tcp_live id s; Some (f c))
  = of_status (match live_conn id s with None => -1 | Some (_, c) => g c end) [] [].
Proof.
  intros Hs Hid Hfg. rewrite live_agrees by done. destruct (tcp_live id s) as [c|] eqn:Hc; [|done].
  apply tcp_live_Some in Hc. destruct (Hfg c (Forall_lookup_1 _ _ _ _ (to_conns _ Hs) Hc)) as [E Hf]. cbn.
  unfold of_status. by rewrite E, (proj2 (Z.ltb_ge _ 0)) by lia.
Qed.

Record net_ok (n : net) : Prop := {
  no_packets : packets_wf (n_packets n);
  no_udp : udp_wf (n_udp n);
  no_ports : ports_ok (ports (n_udp n));
  no_tcp : tcp_ok (n_tcp n)
}.

(** Connection numbers are [u16]. *)
Definition op_ok (o : net_op) : Prop :=
  match o with NStep c _ | NState c | NRto c | NRetries c => in_width 16 c | _ => True end.

(** The one call the kernels answer differently. *)
Definition answers_match (o : net_op) (n : net) (rust c : answer) : Prop :=
  match o with
  | NSend sp ip dp d =>
      if unbound_send sp ip dp d (n_udp n) then rust = Failed ∧ c = Done (Z.of_nat (length d)) [] [] else rust = c
  | _ => rust = c
  end.

Lemma flag_status r : r <= 0 → of_flag (0 <=? r) = of_status r [] [].
Proof. intros. unfold of_status. destruct (Z.leb_spec 0 r), (Z.ltb_spec r 0); try lia; [|done]. by replace r with 0 by lia. Qed.

(** The Rust call returns, leaves the state the C call leaves, and the answers match. *)
Definition agree (o : net_op) (n : net) : Prop :=
  ∃ ra n', rust_nexec o n = Some (ra, n') ∧ (c_nexec o n).2 = n' ∧ net_ok n' ∧ answers_match o n ra (c_nexec o n).1.

(** Gives the answer and state that the goal's Rust call computes to. *)
Ltac give_state := eexists _, _; split; [done|]; split; [done|]; split; [by split|]; cbn [fst].

Lemma link_calls_agree o n :
  net_ok n → match o with NEnqueue _ | NDequeue _ | NArpPut _ _ _ | NArpLookup _ | NArpTick _ | NRoute _ | NEcho _ _ _ => True | _ => False end →
  agree o n.
Proof.
  intros [Hp Hu Hpo Ht] Ho. unfold agree.
  destruct o as [d|room|ip mac ttl|ip|e|ip|ip bs room|p|p|sp ip dp d|p room|p|p|lp ip rp|c e|c|c|c];
    try done; cbn [rust_nexec c_nexec answers_match]; clear Ho.
  - pose proof (enqueue_agrees d (n_packets n) Hp) as H. destruct (qos_net_enqueue_packet _ _ _) as [r s'].
    destruct H as (-> & Hp' & Hr). give_state. by apply flag_status.
  - pose proof (dequeue_agrees room (n_packets n) Hp) as H. destruct (qos_net_dequeue_packet _ _ _) as [[r bs] s'].
    destruct H as (-> & Hp' & Hr). give_state.
    unfold of_status. destruct (Z.leb_spec 0 r), (Z.ltb_spec r 0); try lia; [|done]. by rewrite Hr.
  - pose proof (arp_put_agrees ip mac ttl (n_arp n)) as H. destruct (qos_net_arp_put _ _ _ _) as [r s'].
    destruct H as [-> Hr]. give_state. by apply flag_status.
  - pose proof (arp_lookup_agrees ip (n_arp n)) as H. destruct (qos_net_arp_lookup _ _ _) as [r m]. by give_state.
  - by give_state.
  - assert ((match net_ipv4_route ip with Some hop => Done 0 [] [hop] | None => Failed end)
      = (let '(r, hop) := qos_net_ipv4_route ip true in of_status r [] (option_list hop))) as H.
    { unfold net_ipv4_route, qos_net_ipv4_route. cbn [negb]. rewrite orb_false_r.
      change net_same_subnet with same_subnet. destruct (ip =? 0); [done|]. by destruct (same_subnet _ _). }
    destruct (qos_net_ipv4_route ip true) as [r hop]. by give_state.
  - pose proof (echo_agrees ip bs room) as H. destruct (qos_net_icmp_echo _ _ _ _ _) as [[r out] src]. by give_state.
Qed.

Lemma udp_calls_agree o n :
  net_ok n → match o with NBind _ | NUnbind _ | NSend _ _ _ _ | NRecv _ _ => True | _ => False end → agree o n.
Proof.
  intros [Hp Hu Hpo Ht] Ho. unfold agree. destruct o as [| | | | | | |p|p|sp ip dp d|p room| | | | | | |];
    try done; cbn [rust_nexec c_nexec answers_match]; clear Ho.
  - pose proof (bind_agrees p (n_udp n) Hpo) as H. pose proof (bind_refines p (n_udp n) Hu) as Hw.
    destruct (qos_net_udp_bind _ _) as [r s']. destruct H as (-> & Hr & Hpo'). destruct Hw as [Hw _].
    give_state. by apply flag_status.
  - pose proof (unbind_agrees p (n_udp n) Hpo) as H. pose proof (unbind_refines p (n_udp n) Hu) as Hw.
    destruct (qos_net_udp_unbind _ _) as [r s']. destruct H as (-> & Hr & Hpo'). destruct Hw as [Hw _].
    give_state. by apply flag_status.
  - pose proof (send_agrees sp ip dp d (n_udp n) Hu) as H. pose proof (send_refines sp ip dp d (n_udp n) Hu) as Hw.
    destruct (qos_net_udp_send _ _ _ _ _ _) as [r s']. destruct Hw as [Hw _]. destruct H as [Hps H].
    assert (ports_ok (ports s')) as Hpo' by by rewrite Hps. unfold of_status. destruct (unbound_send _ _ _ _ _).
    + destruct H as (-> & -> & _). give_state. by rewrite (proj2 (Z.ltb_ge _ 0)) by lia.
    + destruct H as [-> Hr]. give_state. destruct (Z.leb_spec 0 r), (Z.ltb_spec r 0); try lia; [|done]. cbn. by rewrite Hr.
  - pose proof (recv_agrees p room (n_udp n) Hu) as H.
    pose proof (recv_refines p (Z.of_nat room) (n_udp n) Hu ltac:(lia)) as Hw.
    destruct (qos_net_udp_recv _ _ _ _) as [[r out] s']. destruct H as (Hps & -> & Hr). destruct Hw as [Hw _].
    assert (ports_ok (ports s')) as Hpo' by by rewrite Hps. give_state.
    destruct out as [[[bs ip] sp]|]; rewrite Hr; [|done]. unfold of_status. by rewrite (proj2 (Z.ltb_ge _ 0)) by lia.
Qed.

Lemma tcp_calls_agree o n :
  net_ok n → op_ok o →
  match o with NListen _ | NUnlisten _ | NConnect _ _ _ | NStep _ _ | NState _ | NRto _ | NRetries _ => True | _ => False end →
  agree o n.
Proof.
  intros [Hp Hu Hpo Ht] Hid Ho. unfold agree. destruct o as [| | | | | | | | | | |p|p|lp ip rp|c e|c|c|c];
    try done; cbn [rust_nexec c_nexec answers_match op_ok] in *; clear Ho.
  - pose proof (listen_agrees p (n_tcp n) Ht) as H. destruct (qos_net_tcp_listen _ _) as [r s'].
    destruct H as (Ht' & i & -> & Hr). by give_state.
  - pose proof (unlisten_agrees p (n_tcp n) Ht) as H. destruct (qos_net_tcp_unlisten _ _) as [r s'].
    destruct H as (Ht' & -> & Hr). give_state. by apply flag_status.
  - pose proof (connect_agrees lp ip rp (n_tcp n) Ht) as H. destruct (qos_net_tcp_connect _ _ _ _) as [r s'].
    destruct H as (Ht' & i & -> & Hr). by give_state.
  - pose proof (tcp_step_agrees c e (n_tcp n) Ht Hid) as H. destruct (qos_net_tcp_step _ _ _) as [r s'].
    destruct H as (Ht' & -> & Hr). give_state. by apply flag_status.
  - give_state. apply (query_agrees (λ c, state_code (c_state c)) (λ c, state_code (c_state c))); [done..|].
    intros x _. split; [done|]. by destruct (c_state x).
  - give_state. apply (query_agrees c_rto_ms (λ c, i32 (c_rto_ms c))); [done..|]. intros x [_ Hx]. split; [|lia].
    apply sext_small; lia.
  - give_state. apply (query_agrees c_retries c_retries); [done..|]. intros x [Hx _]. lia.
Qed.

Lemma call_agrees o n : net_ok n → op_ok o → agree o n.
Proof.
  intros Hn Ho. destruct o; first [by apply link_calls_agree|by apply udp_calls_agree|by apply tcp_calls_agree].
Qed.

Fixpoint rust_nrun (ops : list net_op) (n : net) : option (list answer * net) :=
  match ops with
  | [] => Some ([], n)
  | o :: ops' => '(r, n1) ← rust_nexec o n; '(rs, n2) ← rust_nrun ops' n1; Some (r :: rs, n2)
  end.

Definition c_nrun (ops : list net_op) (n : net) : net := foldl (λ n o, (c_nexec o n).2) n ops.

Lemma nrun_agrees ops n :
  net_ok n → Forall op_ok ops →
  ∃ rs, rust_nrun ops n = Some (rs, c_nrun ops n) ∧ net_ok (c_nrun ops n).
Proof.
  unfold c_nrun. revert n. induction ops as [|o ops IH]; intros n Hn Hok; cbn [rust_nrun foldl]; [by eexists|].
  apply Forall_cons in Hok as [Ho Hok]. destruct (call_agrees o n Hn Ho) as (r & n1 & -> & E & Hn1 & _). subst n1.
  destruct (IH _ Hn1 Hok) as (rs & E & ?). cbn [mbind option_bind]. rewrite E. by eexists.
Qed.

Lemma net_reset_ok : net_ok net_reset.
Proof.
  split; [apply packets_reset_wf|apply udp_reset_wf|by apply Forall_replicate|].
  split; apply Forall_replicate; [done|]. split; cbn; lia.
Qed.

(** C20: the network stacks of the two kernels agree.  After any calls to the packet queue, the
    ARP cache, routing, echo, UDP and TCP from reset, none of which panics in Rust, the two
    stacks are in the same state; and the next call leaves them in the same state with the
    same answer, except that a datagram for a port nobody has bound is refused by the
    Rust kernel and reported as sent by the C kernel. *)
Theorem network_stacks_agree before o :
  Forall op_ok before → op_ok o →
  ∃ rs n, rust_nrun before net_reset = Some (rs, n) ∧ c_nrun before qos_net_reset = n
  ∧ ∃ ra n', rust_nexec o n = Some (ra, n') ∧ (c_nexec o n).2 = n' ∧ answers_match o n ra (c_nexec o n).1.
Proof.
  intros Hb Ho. destruct (nrun_agrees before _ net_reset_ok Hb) as (rs & Hrun & Hn).
  exists rs, (c_nrun before net_reset). split; [done|]. split; [done|].
  destruct (call_agrees o _ Hn Ho) as (ra & n' & H1 & H2 & _ & H3). by exists ra, n'.
Qed.

Definition demo_net_ops : list net_op :=
  [NListen 2000; NConnect 3000 7 2000; NStep 0 EVT_RX_SYN_ACK; NBind 5000; NSend 3000 7 5000 [1; 2]; NEnqueue [9]].

Lemma network_stacks_agree_witness :
  ∃ rs n, rust_nrun demo_net_ops net_reset = Some (rs, n) ∧ c_nrun demo_net_ops qos_net_reset = n
  ∧ ∃ ra n', rust_nexec (NRecv 5000 16) n = Some (ra, n') ∧ (c_nexec (NRecv 5000 16) n).2 = n'
  ∧ ra = (c_nexec (NRecv 5000 16) n).1.
Proof.
  apply (network_stacks_agree demo_net_ops (NRecv 5000 16)); [|exact I].
  repeat (apply Forall_cons; split; [first [exact I|cbn; unfold in_width; lia]|]). apply Forall_nil. exact I.
Defined.
